(* ===== verification/_CoqProject ===== *)
-Q . S2P
Prelude.v
Aidl.v
Errors.v
Sql.v
KeyParameter.v
Perboot.v
BootLevelKeys.v
Permission.v
AuthInfo.v
Enforcements.v
Operation.v
OperationDb.v
DbTypes.v
Database.v
DbInvariant.v
DbAttestation.v
DbKeys.v
DbSystem.v
DbGrants.v
DbGc.v
DbBulk.v
Crypto.v
RawDevice.v
SuperKey.v
SuperKeyCrypto.v
SuperKeySafety.v
SuperKeyUsers.v
LegacyAlias.v
LegacyBlob.v
LegacyFs.v
LegacyList.v
LegacyMigrator.v
LegacySystem.v
LegacyReset.v
LegacyKeystore.v
AsyncTask.v
Gc.v
IdRotation.v
RemoteProvisioning.v
SecurityLevel.v
SecurityLevelKeys.v
SecurityLevelOps.v
SecurityLevelDemo.v
Service.v
ServiceProofs.v
ServiceDemo.v
Authorization.v
Maintenance.v
MaintenanceDemo.v
Watchdog.v
Apc.v
DbOpen.v
KeyIdLock.v
SystemProperty.v
Metrics.v
SharedSecret.v
Devices.v
Zvec.v
Entropy.v
Selinux.v
Binder.v
Main.v
Time.v
Certificate.v
Frontends.v
DaemonDb.v
Daemon.v
DaemonDemo.v
ApcCompat.v
LegacyKeystoreDb.v
Bindings.v
LegacyVectors.v
LegacyTests.v
DbTests.v
UnitTests.v
