(* ===== verification/Prelude.v ===== *)
(** * Keystore 2.0: a verification library

    Keystore 2.0 (src/keystore2) is the Android daemon that stores keys for
    apps, decides who may use them, and runs cryptographic operations with
    them on a KeyMint device.  This library models the daemon in Rocq and
    proves the properties that make it correct.

    ** The program and its model

    A client talks to binder objects: the Keystore service, the security
    levels, and the services for authorization, maintenance, confirmation,
    provisioning and metrics.  A key is looked up in the key database (or
    migrated into it from the files of Keystore 1.0), access is checked
    against SELinux and grants, the enforcements decide whether the key may
    be used now, the super keys open its blob, and a successful "create"
    yields an operation object that forwards data to KeyMint until it ends.
    Worker threads collect garbage, migrate, log and watch.  File names
    below are relative to src/keystore2/src unless they have a directory.

    Foundations:
    - [Prelude]: results with panics, integer casts, the state and error
      monad of database transactions ([sr], [transaction], which rolls back on
      an error as with_transaction of database.rs does), Hoare triples over
      it, and the shared lemmas and tactics.
    - [Aidl]: the AIDL constants and parcelables the code uses.  They are
      declared outside this repository: the numbers are fields of the class
      [Aidl], with the facts the code relies on (distinctness, permission bits,
      sign of error codes) as its laws; [aidl_published] is an instance.
    - [Errors]: error.rs, the mapping of failures to client error codes.
    - [Sql]: SQLite values and how rusqlite reads a column at a Rust type.
    - [KeyParameter]: key_parameter.rs, with the conversions its macros
      generate.
    - [Crypto], [Certificate]: the wrappers of crypto/lib.rs and ec_crypto.rs
      around the C functions, which are fields of the class [Boring] with the
      laws the crypto library documents; random bytes are read from a tape.
    - [Zvec]: crypto/zvec.rs over explicit memory; elsewhere a ZVec is its
      bytes.
    - [Time]: the time types of database.rs and utils.rs.

    The key database:
    - [DbTypes], [Database], [DbAttestation]: database.rs.  The SQL tables are
      lists of rows in insertion order; each SQL statement is a list function
      with the statement's WHERE clause as a boolean predicate.
    - [DbOpen]: database/versioning.rs, the creation of the tables, the retry
      of transactions, and the first connection of a boot in globals.rs.
    - [KeyIdLock]: KeyIdLockDb of database.rs, as interleaved steps.
    - [Perboot]: database/perboot.rs, the auth tokens received since boot;
      [AuthTokenDb] is the interface the enforcements are proved against.

    Access and use:
    - [Permission], [Selinux]: permission.rs and selinux/src/lib.rs.
    - [AuthInfo]: the part of enforcements.rs that delivers auth and time
      stamp tokens to operations (AuthRequest, AuthInfo, TokenReceiverMap);
      shared [Arc] objects live in an explicit store with weak references.
    - [Enforcements]: authorize_create and the rest of enforcements.rs.
    - [Operation], [OperationDb]: operation.rs, with its pruning strategy.
    - [Apc], [ApcCompat]: apc.rs, prompts on the trusted display and their
      tokens; apc_compat/ with the closures it hands to C++ as raw pointers
      and the C++ session that keeps them.

    Keys that protect keys, and devices:
    - [RawDevice], [Devices]: raw_device.rs, Keystore's own keys on a KeyMint
      device (the class [KeyMint]); the device caches of globals.rs and the
      key of boot level zero.
    - [BootLevelKeys], [SystemProperty]: boot_level_keys.rs, and
      system_property/lib.rs with the thread that follows the boot level.
    - [SuperKey]: super_key.rs, the keys that encrypt other keys at rest.
      The manager's weak references are addresses that resolve as long as
      somebody owns the key; the legacy migrator is the class [Legacy].
    - [SharedSecret], [Entropy]: shared_secret_negotiation.rs, entropy.rs.
    - [RemoteProvisioning], [IdRotation]: remote_provisioning.rs,
      attestation_key_utils.rs, id_rotation.rs.

    Keystore 1.0:
    - [LegacyAlias], [LegacyBlob], [LegacyFs], [LegacyList]: legacy_blob.rs
      over a file system that can fail per directory and file.
    - [LegacyMigrator]: legacy_migrator.rs, an instance of [Legacy].
    - [LegacyKeystore], [LegacyKeystoreDb]: legacykeystore/lib.rs, as a map
      of entries, and the SQLite table, connection and worker behind it.

    The services and the threads:
    - [SecurityLevel]: security_level.rs.  Its state [Ks] puts the database,
      the super keys, the enforcements, the operations, the migrator and the
      device together; [Service], [Authorization] and [Maintenance] (their
      .rs files) run on the same state.
    - [Binder]: the methods of the first two as a client calls them, with
      their statistics and audit_log.rs; [Frontends]: those of the other
      services.
    - [AsyncTask], [Gc], [Watchdog]: async_task.rs, gc.rs, watchdog.rs, as
      transition systems whose steps are the sections under a mutex.
    - [Metrics]: metrics_store.rs and metrics.rs.
    - [Main]: keystore2_main.rs.
    - [Bindings]: src/vintf/lib.rs and aaid/lib.rs.
    - [Daemon]: all of it over one state, [System].  A step is a request to
      any service, a call on an operation, its end, a step of the collector
      or a new boot level; [DaemonDb] shows handler by handler what a step
      does to the database and to the set of unlocked devices.

    ** What is proved

    - [Daemon]: whatever clients, devices and threads do, the database is one
      that its own operations make, auth tokens come from callers that may
      add them, and a locked device stays locked until it is unlocked.
    - [DbInvariant], [DbSystem]: every state reachable by the public database
      operations is well formed, and a failing operation changes nothing.
    - [DbKeys]: storing and loading a key is a round trip; storing under a
      taken alias replaces exactly that key; loading needs the permission
      check of exactly that key; deletion is final; a usage limit of n allows
      exactly n uses.
    - [DbGrants], [DbGc], [DbBulk]: what grants give and take, that garbage
      collection is complete and touches no key, what bulk deletion deletes,
      and that the attestation pool hands out one key per client.
    - [DbOpen], [KeyIdLock]: every file an earlier release left is upgraded,
      at most one thread holds a key id, and no wake up is lost.
    - [Enforcements], [AuthInfo]: when an operation is authorized and which
      tokens it gets, in every interleaving; the panic in authorize_create
      that its comment calls unreachable is reached by one kind of key.
    - [Operation], [OperationDb]: the protocol KeyMint sees, logging, the
      choice of the pruning candidate, and termination of pruning.
    - [Apc], [ApcCompat]: one confirmation is used by at most one operation;
      the code behind the display keeps the contract [Apc] builds on, frees
      every closure once, and answers a pending prompt.
    - [SuperKeyCrypto], [SuperKeySafety], [SuperKeyUsers], [Crypto]: what was
      super encrypted is read back with the key it names, a password brings
      the super key back after a reboot, locking the screen removes the screen
      lock bound keys from memory for good in every reachable state, what a
      user reset removes and what it leaves behind, encryption to a public key
      is a round trip, and what a negative boot level costs.
    - [RawDevice], [Devices]: an upgraded key blob is in the database before
      it is used, a level yields one device for ever, and the key of boot
      level zero is usable in early boot only.
    - [LegacyBlob], [LegacyFs], [LegacyList], [LegacyMigrator],
      [LegacySystem], [LegacyReset], [LegacyKeystore], [LegacyKeystoreDb]:
      legacy files are read as they were written, migration is complete and
      never loses a key, what a user reset leaves in the legacy store, that
      the legacy keystore with the files behind it is one map, and that its
      table, shared with other connections, implements that map.
    - [SecurityLevelKeys], [SecurityLevelOps], [ServiceProofs], [Binder]: who
      gets to begin an operation, that the loop around begin ends, that an
      upgraded blob is never lost, what is imported is read back, listing is
      exact, deleted keys are gone, and what is counted and logged.
    - [Authorization], [Maintenance]: what locking the screen shuts out, and
      that every maintenance request needs its permission first, moving a key
      the permissions on that key.
    - [AsyncTask], [Gc], [Watchdog], [SystemProperty]: order of jobs and what
      they leave on the shelf, garbage is collected in bounded time, overdue
      points are reported, and no boot level is missed, in every interleaving.
    - [SharedSecret], [Metrics], [Entropy], [Zvec], [Certificate], [Time],
      [Selinux], [Main]: the negotiation is independent of the order in which
      participants appear, every event is counted once, the shelf is well
      typed, buffers are wiped, the optimised subject parser agrees with the
      direct one, times are converted there and back, a failing SELinux
      lookup denies, and services are registered after what they need.
    - [BootLevelKeys], [Permission], [Perboot], [KeyParameter], [Errors]: the
      cache computes the key schedule and never goes back, grants never exceed
      what the granter holds, conversions are round trips, error codes reach
      clients unchanged.

    - [Bindings]: the attestation id and the lists of HAL instances arrive in
      Rust as C++ had them.

    [SecurityLevelDemo], [ServiceDemo], [MaintenanceDemo] and [DaemonDemo]
    evaluate the theorems about the services on concrete devices and policies.

    ** The repository's own tests

    [DbTests], [UnitTests] and [LegacyTests] translate unit tests of the
    repository and run them on the model, [LegacyVectors] holds the recorded
    files of Keystore 1.0 the latter read.  They tie the definitions to the
    behaviour the authors recorded: rows, ids, error codes and bytes.

    ** Conventions, bounds and fuel

    Fixed width integers are [Z] with the casts written out ([as_u32] and
    friends); times are [Z] in the unit of the source.  [draws] is the
    sequence of random numbers insert_with_retry draws: running out of it is
    an error, and the theorems about a successful call hold for every
    sequence.  The loop of OperationDb::prune takes one [Round] per iteration,
    which says what other threads do at each unlocked point;
    [OperationDb.prune_terminates] shows how many rounds are enough, and
    [SecurityLevelOps.begin_loop_ends] the same for the loop around begin.
    [Gc.gc_drains] bounds the steps of the collector by the number of blobs.
    Loops that retry until the outside world cooperates (a locked database, a
    participant that is not up yet) take the list of what it answers in each
    round.  The upgrade of a database takes one step per version.
    [Permission.into_iter] uses 32 steps, one per bit.  A tape of random
    bytes that runs out is a failure of the generator.  HKDF, SELinux, the
    secure clock, KeyMint and the floating point logarithm are parameters.

    ** What is not modelled

    The text of log messages; SQL errors other than those the code raises
    itself; the columns in the statements that create tables (a table is its
    name there); the mutex around a binder in the wrapper Asp of utils.rs; the
    redirection of libselinux's log.  src/km_compat/lib.rs is a declaration
    and tests that need a device, and test_utils/lib.rs makes temporary
    directories and processes: neither has logic to model.  Tests that need
    threads, real files or the sizes of SQLite pages are not translated; what
    they probe is stated for all interleavings by [KeyIdLock], [AsyncTask],
    [DbOpen] and [LegacyKeystoreDb].  Of the C and C++ parts of the repository
    only the session of apc_compat.cpp, aaid.cpp, the conversion of vintf.cpp
    and the subject extraction of crypto.cpp are modelled, where Rust code
    depends on what they do with memory it shares with them. *)

From stdpp Require Import base list gmap strings sorting.
From Stdlib Require Import ZArith Lia.

#[global] Open Scope Z_scope.

(** ** Results

    Rust's [Result<T, E>], with a third outcome for a panic ([panic!],
    a failed [unwrap]/[expect], an arithmetic overflow): a panic is not an
    [Err] that a caller can inspect, it ends the call. *)

Inductive result (E A : Type) : Type :=
| Ok (a : A)
| Err (e : E)
| Panic.
Arguments Ok {E A} a.
Arguments Err {E A} e.
Arguments Panic {E A}.

#[global] Instance result_ret {E} : MRet (result E) := fun A a => Ok a.
#[global] Instance result_bind {E} : MBind (result E) := fun A B f r =>
  match r with Ok a => f a | Err e => Err e | Panic => Panic end.
#[global] Instance result_fmap {E} : FMap (result E) := fun A B f r =>
  match r with Ok a => Ok (f a) | Err e => Err e | Panic => Panic end.

(** [r.map_err(f)]. *)
Definition map_err {E F A} (f : E -> F) (r : result E A) : result F A :=
  match r with Ok a => Ok a | Err e => Err (f e) | Panic => Panic end.

(** [o.ok_or(e)]. *)
Definition ok_or {E A} (o : option A) (e : E) : result E A :=
  match o with Some a => Ok a | None => Err e end.

(** [o.unwrap()]: a panic on [None]. *)
Definition unwrap {E A} (o : option A) : result E A :=
  match o with Some a => Ok a | None => Panic end.

Definition is_ok {E A} (r : result E A) : bool :=
  match r with Ok _ => true | _ => false end.
Definition is_err {E A} (r : result E A) : bool :=
  match r with Err _ => true | _ => false end.

(** [iter.try_for_each(f)]: stops at the first element that fails. *)
Fixpoint try_for_each {E A} (f : A -> result E unit) (l : list A) : result E unit :=
  match l with
  | [] => Ok tt
  | a :: l => f a ≫= fun _ => try_for_each f l
  end.

(** Iterator [fold] whose step may fail. *)
Fixpoint try_fold {E A S} (f : S -> A -> result E S) (s : S) (l : list A) : result E S :=
  match l with
  | [] => Ok s
  | a :: l => f s a ≫= fun s' => try_fold f s' l
  end.

(** [iter.map(f).collect::<Result<Vec<_>, _>>()]. *)
Fixpoint try_map {E A B} (f : A -> result E B) (l : list A) : result E (list B) :=
  match l with
  | [] => Ok []
  | a :: l => f a ≫= fun b => try_map f l ≫= fun bs => Ok (b :: bs)
  end.

(** ** Stateful code

    A method that mutates its receiver and may fail: the state it leaves is
    there on the error paths too, as in Rust, where an early return keeps the
    mutations made before it. *)

Definition sr (S E A : Type) : Type := S -> result E A * S.

#[global] Instance sr_ret {S E} : MRet (sr S E) := fun A a s => (Ok a, s).
#[global] Instance sr_bind {S E} : MBind (sr S E) := fun A B f m s =>
  match m s with
  | (Ok a, s') => f a s'
  | (Err e, s') => (Err e, s')
  | (Panic, s') => (Panic, s')
  end.

Definition lift {S E A} (r : result E A) : sr S E A := fun s => (r, s).
Definition throw {S E A} (e : E) : sr S E A := fun s => (Err e, s).
Definition gets {S E A} (f : S -> A) : sr S E A := fun s => (Ok (f s), s).
Definition modify {S E} (f : S -> S) : sr S E unit := fun s => (Ok tt, f s).
Definition sr_map_err {S E F A} (f : E -> F) (m : sr S E A) : sr S F A := fun s =>
  let '(r, s') := m s in (map_err f r, s').

(** A [for] loop whose body may fail. *)
Fixpoint sr_for {S E A} (f : A -> sr S E unit) (l : list A) : sr S E unit :=
  match l with
  | [] => mret tt
  | a :: l => f a ≫= fun _ => sr_for f l
  end.

(** A database transaction: the state is the one before it if the body fails. *)
Definition transaction {S E A} (m : sr S E A) : sr S E A := fun s =>
  match m s with
  | (Ok a, s') => (Ok a, s')
  | (r, _) => (r, s)
  end.

(** ** Machine integers

    A [w]-bit integer is a [Z] with its range as a predicate; conversions
    that wrap are written out. *)

Definition i32_range (z : Z) : Prop := -2^31 <= z < 2^31.
Definition i64_range (z : Z) : Prop := -2^63 <= z < 2^63.
Definition u32_range (z : Z) : Prop := 0 <= z < 2^32.
Definition u64_range (z : Z) : Prop := 0 <= z < 2^64.
#[global] Instance i32_range_dec z : Decision (i32_range z).
Proof. unfold i32_range; apply _. Defined.
#[global] Instance i64_range_dec z : Decision (i64_range z).
Proof. unfold i64_range; apply _. Defined.
#[global] Instance u32_range_dec z : Decision (u32_range z).
Proof. unfold u32_range; apply _. Defined.

(** [x as u128], [x as usize] (64 bit) for a signed [x]: two's complement. *)
Definition as_u128 (z : Z) : Z := z mod 2^128.
Definition as_u64 (z : Z) : Z := z mod 2^64.
Definition as_u32 (z : Z) : Z := z mod 2^32.
(** [x as i64] for an unsigned or wider [x]. *)
Definition as_i64 (z : Z) : Z := (z + 2^63) mod 2^64 - 2^63.
Definition as_i32 (z : Z) : Z := (z + 2^31) mod 2^32 - 2^31.

(** [i64::checked_sub]. *)
Definition checked_sub_i64 (a b : Z) : option Z :=
  if decide (i64_range (a - b)) then Some (a - b) else None.

Lemma as_u128_nonneg z : 0 <= z < 2^127 -> as_u128 z = z.
Proof. intros. unfold as_u128. apply Z.mod_small. lia. Qed.

Lemma as_u128_neg z : i64_range z -> z < 0 -> as_u128 z = 2^128 + z.
Proof.
  unfold i64_range, as_u128. intros. rewrite <- (Z.mod_add _ 1) by lia.
  rewrite Z.mod_small; lia.
Qed.

Lemma as_u64_nonneg z : 0 <= z < 2^64 -> as_u64 z = z.
Proof. intros. unfold as_u64. by apply Z.mod_small. Qed.

(** ** Automation *)

Create HintDb keystore.

(** Closes or simplifies equations between results, options and pairs. *)
Ltac invert_result := simplify_eq.

(** Case analysis on the scrutinee of a [match] or [if] in the hypotheses. *)
Ltac case_in H :=
  match type of H with
  | context [match ?x with _ => _ end] =>
      lazymatch x with
      | context [match _ with _ => _ end] => fail
      | _ => let E := fresh "E" in destruct x eqn:E
      end
  end.

(** Case analysis on a scrutinee in the goal. *)
Ltac case_goal :=
  match goal with
  | |- context [match ?x with _ => _ end] =>
      lazymatch x with
      | context [match _ with _ => _ end] => fail
      | _ => let E := fresh "E" in destruct x eqn:E
      end
  end.

(** Boolean tests as propositions. *)
Ltac bool_prop :=
  repeat match goal with
  | H : (_ && _)%bool = true |- _ => apply andb_true_iff in H as [? ?]
  | H : (_ || _)%bool = false |- _ => apply orb_false_iff in H as [? ?]
  | H : negb _ = true |- _ => apply negb_true_iff in H
  | H : negb _ = false |- _ => apply negb_false_iff in H
  | H : (_ =? _) = true |- _ => apply Z.eqb_eq in H
  | H : (_ =? _) = false |- _ => apply Z.eqb_neq in H
  | H : (_ <? _) = true |- _ => apply Z.ltb_lt in H
  | H : (_ <? _) = false |- _ => apply Z.ltb_ge in H
  | H : (_ <=? _) = true |- _ => apply Z.leb_le in H
  | H : (_ <=? _) = false |- _ => apply Z.leb_gt in H
  | H : bool_decide _ = true |- _ => apply bool_decide_eq_true_1 in H
  | H : bool_decide _ = false |- _ => apply bool_decide_eq_false_1 in H
  end.

Section Results.
Context {E : Type}.

Lemma bind_Ok {A B} (r : result E A) (f : A -> result E B) b :
  r ≫= f = Ok b <-> exists a, r = Ok a /\ f a = Ok b.
Proof. destruct r; simpl; naive_solver. Qed.

Lemma bind_Err {A B} (r : result E A) (f : A -> result E B) e :
  r ≫= f = Err e <-> r = Err e \/ exists a, r = Ok a /\ f a = Err e.
Proof. destruct r; simpl; naive_solver. Qed.

Lemma bind_assoc {A B C} (r : result E A) (f : A -> result E B) (g : B -> result E C) :
  (r ≫= f) ≫= g = r ≫= (fun a => f a ≫= g).
Proof. by destruct r. Qed.

Lemma try_for_each_Ok {A} (f : A -> result E unit) l :
  try_for_each f l = Ok tt <-> Forall (fun a => f a = Ok tt) l.
Proof.
  induction l as [|a l IH]; simpl; [by split; [constructor|]|].
  rewrite bind_Ok, Forall_cons, <- IH.
  split; [intros ([] & ? & ?)|intros []]; eauto.
Qed.

Lemma try_map_Ok {A B} (f : A -> result E B) l bs :
  try_map f l = Ok bs <-> Forall2 (fun a b => f a = Ok b) l bs.
Proof.
  revert bs. induction l as [|a l IH]; intros bs; simpl.
  - split; [intros; invert_result; constructor|by inversion 1].
  - rewrite bind_Ok. setoid_rewrite bind_Ok. split.
    + intros (b & Hb & bs' & ? & ?); invert_result. constructor; [done|by apply IH].
    + inversion 1 as [|? b ? bs' ? ?]; subst. exists b. split; [done|].
      exists bs'. split; [by apply IH|done].
Qed.

Lemma ok_or_Ok {A} (o : option A) (e : E) a : ok_or o e = Ok a <-> o = Some a.
Proof. destruct o; simpl; naive_solver. Qed.

Context {St : Type}.

Lemma sr_bind_Ok {A B} (m : sr St E A) (f : A -> sr St E B) s b s' :
  (m ≫= f) s = (Ok b, s') <-> exists a s1, m s = (Ok a, s1) /\ f a s1 = (Ok b, s').
Proof.
  unfold mbind, sr_bind. destruct (m s) as [[a|e|] s1]; naive_solver.
Qed.

Lemma transaction_Ok {A} (m : sr St E A) s a s' :
  transaction m s = (Ok a, s') <-> m s = (Ok a, s').
Proof. unfold transaction. destruct (m s) as [[]]; naive_solver. Qed.

(** A failed transaction leaves no trace. *)
Lemma transaction_atomic {A} (m : sr St E A) s r s' :
  transaction m s = (r, s') -> (exists a, r = Ok a) \/ s' = s.
Proof. unfold transaction. destruct (m s) as [[]]; naive_solver. Qed.

(** What every successful step preserves, a successful sequence preserves. *)
Lemma sr_for_preserves {A} (P : St -> Prop) (f : A -> sr St E unit) l s s' :
  (forall a s s', a ∈ l -> P s -> f a s = (Ok tt, s') -> P s') ->
  P s -> sr_for f l s = (Ok tt, s') -> P s'.
Proof.
  revert s. induction l as [|a l IH]; intros s Hf HP; simpl.
  - unfold mret, sr_ret. intros H. by simplify_eq.
  - rewrite sr_bind_Ok. intros ([] & s1 & H1 & H2). eapply IH; [|exact (Hf a s s1 (list_elem_of_here _ _) HP H1)|done].
    intros b ??? HP'. apply Hf; [by right|done].
Qed.
End Results.

(** Splits the monadic code of a successful run in [H]. *)
Ltac sr_ok H :=
  repeat match type of H with
  | (_ ≫= _) _ = (Ok _, _) =>
      let a := fresh "a" in let s := fresh "s" in let E := fresh "E" in
      apply sr_bind_Ok in H as (a & s & E & H)
  end.

(** ** Triples

    What holds after every successful run of a stateful computation; the
    runs that fail are undone by the transaction around them. *)

Definition triple {S E A} (P : S -> Prop) (m : sr S E A) (Q : A -> S -> Prop) : Prop :=
  forall s a s', P s -> m s = (Ok a, s') -> Q a s'.

Section Triples.
Context {S E : Type}.
Implicit Types P : S -> Prop.

Lemma triple_bind {A B} P (m : sr S E A) (f : A -> sr S E B) R Q :
  triple P m R -> (forall a, triple (R a) (f a) Q) -> triple P (m ≫= f) Q.
Proof. intros Hm Hf s b s' HP (a & s1 & H1 & H2)%sr_bind_Ok. eapply Hf; [|done]. by eapply Hm. Qed.

Lemma triple_ret {A} P (a : A) (Q : A -> S -> Prop) :
  (forall s, P s -> Q a s) -> triple P (mret a : sr S E A) Q.
Proof. unfold triple, mret, sr_ret. intros H s a' s' HP Hm. simplify_eq. auto. Qed.

Lemma triple_lift {A} P (r : result E A) (Q : A -> S -> Prop) :
  (forall a s, r = Ok a -> P s -> Q a s) -> triple P (lift r) Q.
Proof. unfold triple, lift. intros H s a' s' HP Hm. simplify_eq. auto. Qed.

Lemma triple_throw {A} P (e : E) (Q : A -> S -> Prop) : triple P (throw e) Q.
Proof. unfold triple, throw. naive_solver. Qed.

Lemma triple_gets {A} P (f : S -> A) (Q : A -> S -> Prop) :
  (forall s, P s -> Q (f s) s) -> triple P (gets f : sr S E A) Q.
Proof. unfold triple, gets. intros H s a' s' HP Hm. simplify_eq. auto. Qed.

Lemma triple_modify P (f : S -> S) (Q : unit -> S -> Prop) :
  (forall s, P s -> Q tt (f s)) -> triple P (modify f : sr S E unit) Q.
Proof. unfold triple, modify. intros H s a' s' HP Hm. simplify_eq. auto. Qed.

Lemma triple_transaction {A} P (m : sr S E A) Q : triple P m Q -> triple P (transaction m) Q.
Proof. intros H s a s' HP Hm. exact (H s a s' HP (proj1 (transaction_Ok m s a s') Hm)). Qed.

Lemma triple_conseq {A} P P' (m : sr S E A) (Q Q' : A -> S -> Prop) :
  triple P' m Q' -> (forall s, P s -> P' s) -> (forall a s, Q' a s -> Q a s) -> triple P m Q.
Proof. intros H HP HQ s a s' Hs Hm. exact (HQ _ _ (H _ _ _ (HP _ Hs) Hm)). Qed.

(** The state after a transaction, whatever its result. *)
Lemma triple_final {A} P (m : sr S E A) s r s' :
  triple P (transaction m) (fun _ => P) -> P s -> transaction m s = (r, s') -> P s'.
Proof.
  intros H HP Hm. destruct (transaction_atomic m s r s' Hm) as [[a ->]| ->]; [|done]. exact (H _ _ _ HP Hm).
Qed.
End Triples.

(** ** Lists *)

Lemma Forall_filter_bool {A} (P : A -> Prop) (f : A -> Prop) `{!∀ x, Decision (f x)} (l : list A) :
  Forall P l -> Forall P (filter f l).
Proof. rewrite !Forall_forall. intros HP x [_ Hx]%list_elem_of_filter. by apply HP. Qed.

Lemma NoDup_fmap_filter {A B} (g : A -> B) (f : A -> Prop) `{!∀ x, Decision (f x)} (l : list A) :
  NoDup (g <$> l) -> NoDup (g <$> filter f l).
Proof.
  induction l as [|a l IH]; simpl; [done|].
  rewrite NoDup_cons. intros [Ha Hl]. rewrite filter_cons. case_decide; simpl; [|auto].
  constructor; [|auto]. rewrite list_elem_of_fmap in Ha |- *.
  intros (x & Hx & [_ Hin]%list_elem_of_filter). apply Ha. eauto.
Qed.

(** Two rows of a table with a unique key column that agree on the key are
    the same row. *)
Lemma NoDup_fmap_inj {A B} (g : A -> B) (l : list A) x y :
  NoDup (g <$> l) -> x ∈ l -> y ∈ l -> g x = g y -> x = y.
Proof.
  induction l as [|a l IH]; simpl; [by intros _ ?%not_elem_of_nil|].
  rewrite NoDup_cons. intros [Ha Hl] Hx Hy Hg.
  apply elem_of_cons in Hx as [->|Hx]; apply elem_of_cons in Hy as [->|Hy]; auto.
  - destruct Ha. rewrite Hg. by apply list_elem_of_fmap_2.
  - destruct Ha. rewrite <- Hg. by apply list_elem_of_fmap_2.
Qed.

(** ** [Vec::dedup] *)

Fixpoint dedup {A} `{EqDecision A} (l : list A) : list A :=
  match l with
  | a :: (b :: _) as t => if decide (a = b) then dedup t else a :: dedup t
  | l => l
  end.

Section Dedup.
Context {A : Type} `{EqDecision A}.

Lemma dedup_cons (a b : A) t : dedup (a :: b :: t) = if decide (a = b) then dedup (b :: t) else a :: dedup (b :: t).
Proof. done. Qed.

Lemma elem_of_dedup (x : A) l : x ∈ dedup l <-> x ∈ l.
Proof.
  induction l as [|a [|b t] IH]; [done|done|]. rewrite dedup_cons. case_decide as Hab.
  - subst. rewrite IH. set_solver.
  - rewrite !elem_of_cons in *. naive_solver.
Qed.

Lemma dedup_sorted (R : relation A) `{!AntiSymm (=) R} l :
  StronglySorted R l -> StronglySorted (fun a b => R a b /\ a <> b) (dedup l).
Proof.
  induction l as [|a [|b t] IH]; intros Hs; [constructor|by repeat constructor|].
  inversion Hs as [|? ? Hs' Ha]; subst. rewrite dedup_cons. case_decide as Hab; [by apply IH|].
  constructor; [by apply IH|]. apply Forall_forall. intros x Hx. rewrite elem_of_dedup in Hx.
  rewrite Forall_forall in Ha. split; [by apply Ha|]. intros ->.
  apply Hab, (anti_symm R); [apply Ha; by left|].
  inversion Hs' as [|? ? _ Hb]; subst. apply elem_of_cons in Hx as [->|Hx]; [done|].
  rewrite Forall_forall in Hb. by apply Hb.
Qed.
End Dedup.

(** ** Derived orders: comparisons that are total orders *)

Record lawful {A} (cmp : A -> A -> comparison) : Prop := {
  lawful_eq x y : cmp x y = Eq <-> x = y;
  lawful_opp x y : cmp y x = CompOpp (cmp x y);
  lawful_lt x y z : cmp x y = Lt -> cmp y z = Lt -> cmp x z = Lt
}.

(** [Ordering::then]. *)
Definition then_compare (c d : comparison) : comparison := match c with Eq => d | _ => c end.
Definition pair_compare {A B} (f : A -> A -> comparison) (g : B -> B -> comparison) (x y : A * B) : comparison :=
  then_compare (f x.1 y.1) (g x.2 y.2).
Definition option_compare {A} (f : A -> A -> comparison) (x y : option A) : comparison :=
  match x, y with
  | None, None => Eq | None, Some _ => Lt | Some _, None => Gt
  | Some a, Some b => f a b
  end.
Fixpoint list_compare {A} (f : A -> A -> comparison) (x y : list A) : comparison :=
  match x, y with
  | [], [] => Eq | [], _ => Lt | _, [] => Gt
  | a :: x, b :: y => then_compare (f a b) (list_compare f x y)
  end.
Definition at_most {A} (cmp : A -> A -> comparison) (x y : A) : Prop := cmp x y <> Gt.
#[global] Instance at_most_dec {A} (cmp : A -> A -> comparison) x y : Decision (at_most cmp x y).
Proof. unfold at_most. destruct (cmp x y); [left; done|left; done|right; by intros []]. Defined.

Lemma lawful_Z : lawful Z.compare.
Proof. split; [apply Z.compare_eq_iff|intros; apply Z.compare_antisym|intros x y z; rewrite !Z.compare_lt_iff; lia]. Qed.

Lemma lawful_pair {A B} (f : A -> A -> comparison) (g : B -> B -> comparison) :
  lawful f -> lawful g -> lawful (pair_compare f g).
Proof.
  intros [Fe Fo Fl] [Ge Go Gl]. unfold pair_compare. split.
  - intros [a b] [a' b']. simpl. pose proof (Fe a a'). pose proof (Ge b b'). destruct (f a a'); simpl; naive_solver.
  - intros [a b] [a' b']. simpl. rewrite (Fo a a'), (Go b b'). by destruct (f a a').
  - intros [a b] [a' b'] [a2 b2]. simpl. destruct (f a a') eqn:E1; simpl; [|destruct (f a' a2) eqn:E2; simpl|done]; try done.
    + apply Fe in E1 as ->. destruct (f a' a2) eqn:E2; simpl; eauto.
    + apply Fe in E2 as ->. by rewrite E1.
    + by rewrite (Fl _ _ _ E1 E2).
Qed.

Lemma lawful_option {A} (f : A -> A -> comparison) : lawful f -> lawful (option_compare f).
Proof.
  intros [Fe Fo Fl]. split.
  - intros [x|] [y|]; simpl; rewrite ?Fe; naive_solver.
  - intros [x|] [y|]; simpl; auto.
  - intros [x|] [y|] [z|]; simpl; eauto; done.
Qed.

Lemma lawful_list {A} (f : A -> A -> comparison) : lawful f -> lawful (list_compare f).
Proof.
  intros [Fe Fo Fl]. split.
  - induction x as [|a x IH]; intros [|b y]; simpl; try done.
    specialize (IH y). pose proof (Fe a b). destruct (f a b); simpl; naive_solver.
  - induction x as [|a x IH]; intros [|b y]; simpl; try done. rewrite (Fo a b), IH. by destruct (f a b).
  - induction x as [|a x IH]; intros [|b y] [|c z]; simpl; try done.
    destruct (f a b) eqn:E1; simpl; [|destruct (f b c) eqn:E2; simpl|done]; try done.
    + apply Fe in E1 as ->. destruct (f b c); simpl; eauto.
    + apply Fe in E2 as ->. by rewrite E1.
    + by rewrite (Fl _ _ _ E1 E2).
Qed.

Lemma lawful_by {A B} (g : A -> B) (f : B -> B -> comparison) : Inj (=) (=) g -> lawful f -> lawful (fun x y => f (g x) (g y)).
Proof. intros Hg [Fe Fo Fl]. split; [intros; rewrite Fe; naive_solver|eauto|eauto]. Qed.

Section AtMost.
Context {A : Type} (cmp : A -> A -> comparison) (Hcmp : lawful cmp).

Lemma at_most_trans : Transitive (at_most cmp).
Proof.
  intros x y z. unfold at_most. destruct (cmp x y) eqn:E1; [apply (lawful_eq _ Hcmp) in E1 as ->; done| |done].
  destruct (cmp y z) eqn:E2; [apply (lawful_eq _ Hcmp) in E2 as ->; by rewrite E1| |done].
  by rewrite (lawful_lt _ Hcmp _ _ _ E1 E2).
Qed.
Lemma at_most_total : Total (at_most cmp).
Proof. intros x y. unfold at_most. rewrite (lawful_opp _ Hcmp x y). destruct (cmp x y); simpl; auto. Qed.
Lemma at_most_anti : AntiSymm (=) (at_most cmp).
Proof.
  intros x y. unfold at_most. rewrite (lawful_opp _ Hcmp x y). destruct (cmp x y) eqn:E; try done.
  by apply (lawful_eq _ Hcmp) in E.
Qed.
End AtMost.
