(* ===== verification/Aidl.v ===== *)
(** * The AIDL vocabulary of Keystore 2.0

    Keystore's source names constants and structures of the AIDL interfaces
    [android.hardware.security.keymint] and [android.system.keystore2].  Those
    interfaces are not part of this repository: an AIDL enum reaches the Rust
    code as a tuple struct around an [i32] with named constants.  So a value of
    such an enum is a [Z], and the numbers behind the names are a parameter of
    the development: the class [Aidl], whose laws say what the interface
    promises and the code relies on (distinct constants, negative KeyMint
    error codes, positive response codes, one bit per key permission).
    [aidl_published] instantiates the class with the published numbers. *)

From stdpp Require Import base list gmap strings finite.
From Stdlib Require Import ZArith Lia.
From S2P Require Import Prelude.

(** The numbers behind the names [N] of one AIDL enum. *)
Class AidlEnum (N : Type) := {
  val : N -> Z;
  val_inj : forall m n, val m = val n -> m = n;
  val_i32 : forall n, i32_range (val n)
}.

Module ErrorCode.
Inductive name :=
| UNSUPPORTED_PURPOSE | INCOMPATIBLE_PURPOSE | KEY_NOT_YET_VALID | KEY_EXPIRED
| KEY_USER_NOT_AUTHENTICATED | INVALID_OPERATION_HANDLE | TOO_MANY_OPERATIONS
| INVALID_KEY_BLOB | CALLER_NONCE_PROHIBITED | KEY_REQUIRES_UPGRADE
| CANNOT_ATTEST_IDS | DEVICE_LOCKED | BOOT_LEVEL_EXCEEDED | UNKNOWN_ERROR
| INVALID_ARGUMENT | HARDWARE_TYPE_UNAVAILABLE.
#[global] Instance name_eq_dec : EqDecision name.
Proof. solve_decision. Defined.
End ErrorCode.

Module ResponseCode.
Inductive name :=
| LOCKED | UNINITIALIZED | SYSTEM_ERROR | PERMISSION_DENIED | KEY_NOT_FOUND
| VALUE_CORRUPTED | BACKEND_BUSY | OPERATION_BUSY | INVALID_ARGUMENT
| TOO_MUCH_DATA | OUT_OF_KEYS.
#[global] Instance name_eq_dec : EqDecision name.
Proof. solve_decision. Defined.
End ResponseCode.

Module Domain.
Inductive name := APP | GRANT | SELINUX | BLOB | KEY_ID.
#[global] Instance name_eq_dec : EqDecision name.
Proof. solve_decision. Defined.
End Domain.

Module KeyPurpose.
Inductive name := ENCRYPT | DECRYPT | SIGN | VERIFY | WRAP_KEY | AGREE_KEY | ATTEST_KEY.
#[global] Instance name_eq_dec : EqDecision name.
Proof. solve_decision. Defined.
End KeyPurpose.

Module Algorithm.
Inductive name := RSA | EC | AES | TRIPLE_DES | HMAC.
#[global] Instance name_eq_dec : EqDecision name.
Proof. solve_decision. Defined.
End Algorithm.

Module TagType.
Inductive name :=
| INVALID | ENUM | ENUM_REP | UINT | UINT_REP | ULONG | DATE | BOOL | BIGNUM | BYTES | ULONG_REP.
#[global] Instance name_eq_dec : EqDecision name.
Proof. solve_decision. Defined.
Definition all : list name :=
  [INVALID; ENUM; ENUM_REP; UINT; UINT_REP; ULONG; DATE; BOOL; BIGNUM; BYTES; ULONG_REP].
Lemma tag_type_all_complete n : n ∈ all.
Proof. destruct n; unfold all; set_solver. Qed.
End TagType.

Module SecurityLevel.
Inductive name := SOFTWARE | TRUSTED_ENVIRONMENT | STRONGBOX | KEYSTORE.
#[global] Instance name_eq_dec : EqDecision name.
Proof. solve_decision. Defined.
End SecurityLevel.

Module KeyFormat.
Inductive name := PKCS8 | RAW.
#[global] Instance name_eq_dec : EqDecision name.
Proof. solve_decision. Defined.
End KeyFormat.

Module AuthenticatorType.
Inductive name := PASSWORD | FINGERPRINT.
#[global] Instance name_eq_dec : EqDecision name.
Proof. solve_decision. Defined.
End AuthenticatorType.

Module KeyPermission.
Inductive name :=
| NONE | CONVERT_STORAGE_KEY_TO_EPHEMERAL | DELETE | GEN_UNIQUE_ID | GET_INFO
| GRANT | MANAGE_BLOB | REBIND | REQ_FORCED_OP | UPDATE | USE | USE_DEV_ID.
#[global] Instance name_eq_dec : EqDecision name.
Proof. solve_decision. Defined.
(** The constants in the order [permission.rs] lists them. *)
Definition all : list name :=
  [NONE; CONVERT_STORAGE_KEY_TO_EPHEMERAL; DELETE; GEN_UNIQUE_ID; GET_INFO;
   GRANT; MANAGE_BLOB; REBIND; REQ_FORCED_OP; UPDATE; USE; USE_DEV_ID].
Lemma permission_all_complete n : n ∈ all.
Proof. destruct n; unfold all; set_solver. Qed.
End KeyPermission.

Module Tag.
Inductive name :=
| INVALID | PURPOSE | ALGORITHM | KEY_SIZE | BLOCK_MODE | DIGEST | PADDING
| CALLER_NONCE | MIN_MAC_LENGTH | EC_CURVE | RSA_PUBLIC_EXPONENT
| INCLUDE_UNIQUE_ID | BOOTLOADER_ONLY | ROLLBACK_RESISTANCE | EARLY_BOOT_ONLY
| ACTIVE_DATETIME | ORIGINATION_EXPIRE_DATETIME | USAGE_EXPIRE_DATETIME
| MIN_SECONDS_BETWEEN_OPS | MAX_USES_PER_BOOT | USAGE_COUNT_LIMIT | USER_ID
| USER_SECURE_ID | NO_AUTH_REQUIRED | USER_AUTH_TYPE | AUTH_TIMEOUT
| ALLOW_WHILE_ON_BODY | TRUSTED_USER_PRESENCE_REQUIRED
| TRUSTED_CONFIRMATION_REQUIRED | UNLOCKED_DEVICE_REQUIRED | APPLICATION_ID
| APPLICATION_DATA | CREATION_DATETIME | ORIGIN | ROOT_OF_TRUST | OS_VERSION
| OS_PATCHLEVEL | UNIQUE_ID | ATTESTATION_CHALLENGE
| ATTESTATION_APPLICATION_ID | ATTESTATION_ID_BRAND | ATTESTATION_ID_DEVICE
| ATTESTATION_ID_PRODUCT | ATTESTATION_ID_SERIAL | ATTESTATION_ID_IMEI
| ATTESTATION_ID_MEID | ATTESTATION_ID_MANUFACTURER | ATTESTATION_ID_MODEL
| VENDOR_PATCHLEVEL | BOOT_PATCHLEVEL | ASSOCIATED_DATA | NONCE | MAC_LENGTH
| RESET_SINCE_ID_ROTATION | CONFIRMATION_TOKEN | CERTIFICATE_SERIAL
| CERTIFICATE_SUBJECT | CERTIFICATE_NOT_BEFORE | CERTIFICATE_NOT_AFTER
| MAX_BOOT_LEVEL.
#[global] Instance name_eq_dec : EqDecision name.
Proof. solve_decision. Defined.
Definition all : list name :=
  [INVALID; PURPOSE; ALGORITHM; KEY_SIZE; BLOCK_MODE; DIGEST; PADDING;
   CALLER_NONCE; MIN_MAC_LENGTH; EC_CURVE; RSA_PUBLIC_EXPONENT;
   INCLUDE_UNIQUE_ID; BOOTLOADER_ONLY; ROLLBACK_RESISTANCE; EARLY_BOOT_ONLY;
   ACTIVE_DATETIME; ORIGINATION_EXPIRE_DATETIME; USAGE_EXPIRE_DATETIME;
   MIN_SECONDS_BETWEEN_OPS; MAX_USES_PER_BOOT; USAGE_COUNT_LIMIT; USER_ID;
   USER_SECURE_ID; NO_AUTH_REQUIRED; USER_AUTH_TYPE; AUTH_TIMEOUT;
   ALLOW_WHILE_ON_BODY; TRUSTED_USER_PRESENCE_REQUIRED;
   TRUSTED_CONFIRMATION_REQUIRED; UNLOCKED_DEVICE_REQUIRED; APPLICATION_ID;
   APPLICATION_DATA; CREATION_DATETIME; ORIGIN; ROOT_OF_TRUST; OS_VERSION;
   OS_PATCHLEVEL; UNIQUE_ID; ATTESTATION_CHALLENGE;
   ATTESTATION_APPLICATION_ID; ATTESTATION_ID_BRAND; ATTESTATION_ID_DEVICE;
   ATTESTATION_ID_PRODUCT; ATTESTATION_ID_SERIAL; ATTESTATION_ID_IMEI;
   ATTESTATION_ID_MEID; ATTESTATION_ID_MANUFACTURER; ATTESTATION_ID_MODEL;
   VENDOR_PATCHLEVEL; BOOT_PATCHLEVEL; ASSOCIATED_DATA; NONCE; MAC_LENGTH;
   RESET_SINCE_ID_ROTATION; CONFIRMATION_TOKEN; CERTIFICATE_SERIAL;
   CERTIFICATE_SUBJECT; CERTIFICATE_NOT_BEFORE; CERTIFICATE_NOT_AFTER;
   MAX_BOOT_LEVEL].
Lemma tag_all_complete n : n ∈ all.
Proof.
  apply (bool_decide_eq_true_1 (n ∈ all)). by destruct n; vm_compute.
Qed.
End Tag.

(** What the AIDL interfaces promise. *)
Class Aidl := {
  #[global] aidl_error_code :: AidlEnum ErrorCode.name;
  #[global] aidl_response_code :: AidlEnum ResponseCode.name;
  #[global] aidl_domain :: AidlEnum Domain.name;
  #[global] aidl_purpose :: AidlEnum KeyPurpose.name;
  #[global] aidl_algorithm :: AidlEnum Algorithm.name;
  #[global] aidl_permission :: AidlEnum KeyPermission.name;
  #[global] aidl_tag :: AidlEnum Tag.name;
  #[global] aidl_tag_type :: AidlEnum TagType.name;
  #[global] aidl_security_level :: AidlEnum SecurityLevel.name;
  #[global] aidl_key_format :: AidlEnum KeyFormat.name;
  #[global] aidl_authenticator_type :: AidlEnum AuthenticatorType.name;
  (** "KeyMint [ErrorCode] errors are always negative and [ResponseCode]
      codes are always positive" ([error.rs]). *)
  error_code_negative : forall n : ErrorCode.name, val n < 0;
  response_code_positive : forall n : ResponseCode.name, 0 < val n;
  (** Domains are small non negative numbers: the database stores them as
      [u32] and reads them back as [i32]. *)
  domain_nonneg : forall n : Domain.name, 0 <= val n;
  (** [KeyPermission] is a bit field: [NONE] is empty, every other constant
      is one bit of its own below the sign bit. *)
  permission_none : val KeyPermission.NONE = 0;
  permission_bit : forall n, n <> KeyPermission.NONE ->
    exists k, 0 <= k < 31 /\ val n = 2 ^ k
}.

(** The constant [n] of an enum whose value is [z], as a [match] on the
    constants finds it. *)
Definition name_of {N} `{!AidlEnum N} (names : list N) (z : Z) : option N :=
  snd <$> list_find (fun n => val n = z) names.

Section Enums.
Context {N : Type} `{!AidlEnum N} `{!EqDecision N}.

Lemma val_eqb (m n : N) : (val m =? val n) = bool_decide (m = n).
Proof.
  case_bool_decide; subst; [apply Z.eqb_refl|].
  apply Z.eqb_neq. intros ?%val_inj. done.
Qed.

Lemma val_neq (m n : N) : m <> n -> val m <> val n.
Proof. intros ? ?%val_inj. done. Qed.

Lemma name_of_val names (n : N) : n ∈ names -> name_of names (val n) = Some n.
Proof.
  intros Hn. unfold name_of.
  destruct (list_find_elem_of (fun m => val m = val n) names n) as [[i m] Hm]; [done..|].
  rewrite Hm. apply list_find_Some in Hm as (_ & Hm & _). simpl.
  f_equal. by apply val_inj.
Qed.

Lemma name_of_Some names z (n : N) : name_of names z = Some n -> val n = z.
Proof.
  unfold name_of. destruct (list_find _ _) as [[i m]|] eqn:E; [|done].
  apply list_find_Some in E as (_ & E & _). simpl. by intros [= <-].
Qed.
End Enums.

(** [domain.0 as u32] for the domains the interface names. *)
Lemma as_u32_domain {AI : Aidl} (d : Domain.name) : as_u32 (val d) = val d.
Proof.
  unfold as_u32. pose proof (val_i32 d) as H. pose proof (domain_nonneg d).
  unfold i32_range in H. apply Z.mod_small. lia.
Qed.

(** ** Structures *)

Notation bytes := (list Z) (only parsing).

(** [android.system.keystore2.KeyDescriptor]. *)
Record KeyDescriptor := {
  domain : Z;
  nspace : Z;
  alias : option string;
  blob : option bytes
}.

(** [android.hardware.security.keymint.HardwareAuthToken]; [timestamp] stands
    for its [Timestamp] structure. *)
Record HardwareAuthToken := {
  challenge : Z;
  userId : Z;
  authenticatorId : Z;
  authenticatorType : Z;
  timestamp : Z;
  mac : bytes
}.

(** [android.hardware.security.secureclock.TimeStampToken]. *)
Record TimeStampToken := {
  tst_challenge : Z;
  tst_timestamp : Z;
  tst_mac : bytes
}.

#[global] Instance KeyDescriptor_eq_dec : EqDecision KeyDescriptor.
Proof. solve_decision. Defined.
#[global] Instance HardwareAuthToken_eq_dec : EqDecision HardwareAuthToken.
Proof. solve_decision. Defined.
#[global] Instance TimeStampToken_eq_dec : EqDecision TimeStampToken.
Proof. solve_decision. Defined.

(** ** The published constants *)

Section Published.

Definition pub_error_code (n : ErrorCode.name) : Z :=
  match n with
  | ErrorCode.UNSUPPORTED_PURPOSE => -2 | ErrorCode.INCOMPATIBLE_PURPOSE => -3
  | ErrorCode.KEY_NOT_YET_VALID => -24 | ErrorCode.KEY_EXPIRED => -25
  | ErrorCode.KEY_USER_NOT_AUTHENTICATED => -26
  | ErrorCode.INVALID_OPERATION_HANDLE => -28
  | ErrorCode.TOO_MANY_OPERATIONS => -31 | ErrorCode.INVALID_KEY_BLOB => -33
  | ErrorCode.CALLER_NONCE_PROHIBITED => -55
  | ErrorCode.KEY_REQUIRES_UPGRADE => -62 | ErrorCode.CANNOT_ATTEST_IDS => -66
  | ErrorCode.DEVICE_LOCKED => -72 | ErrorCode.BOOT_LEVEL_EXCEEDED => -86
  | ErrorCode.UNKNOWN_ERROR => -1000 | ErrorCode.INVALID_ARGUMENT => -38
  | ErrorCode.HARDWARE_TYPE_UNAVAILABLE => -68
  end.

Definition pub_response_code (n : ResponseCode.name) : Z :=
  match n with
  | ResponseCode.LOCKED => 2 | ResponseCode.UNINITIALIZED => 3
  | ResponseCode.SYSTEM_ERROR => 4 | ResponseCode.PERMISSION_DENIED => 6
  | ResponseCode.KEY_NOT_FOUND => 7 | ResponseCode.VALUE_CORRUPTED => 8
  | ResponseCode.BACKEND_BUSY => 18 | ResponseCode.OPERATION_BUSY => 19
  | ResponseCode.INVALID_ARGUMENT => 20 | ResponseCode.TOO_MUCH_DATA => 21
  | ResponseCode.OUT_OF_KEYS => 22
  end.

Definition pub_domain (n : Domain.name) : Z :=
  match n with
  | Domain.APP => 0 | Domain.GRANT => 1 | Domain.SELINUX => 2
  | Domain.BLOB => 3 | Domain.KEY_ID => 4
  end.

Definition pub_purpose (n : KeyPurpose.name) : Z :=
  match n with
  | KeyPurpose.ENCRYPT => 0 | KeyPurpose.DECRYPT => 1 | KeyPurpose.SIGN => 2
  | KeyPurpose.VERIFY => 3 | KeyPurpose.WRAP_KEY => 5 | KeyPurpose.AGREE_KEY => 6
  | KeyPurpose.ATTEST_KEY => 7
  end.

Definition pub_algorithm (n : Algorithm.name) : Z :=
  match n with Algorithm.RSA => 1 | Algorithm.EC => 3 | Algorithm.AES => 32
  | Algorithm.TRIPLE_DES => 33 | Algorithm.HMAC => 128 end.

Definition pub_tag_type (n : TagType.name) : Z :=
  match n with
  | TagType.INVALID => 0 | TagType.ENUM => 2^28 | TagType.ENUM_REP => 2 * 2^28
  | TagType.UINT => 3 * 2^28 | TagType.UINT_REP => 4 * 2^28
  | TagType.ULONG => 5 * 2^28 | TagType.DATE => 6 * 2^28 | TagType.BOOL => 7 * 2^28
  | TagType.BIGNUM => 8 * 2^28 - 2^32 | TagType.BYTES => 9 * 2^28 - 2^32
  | TagType.ULONG_REP => 10 * 2^28 - 2^32
  end.

Definition pub_security_level (n : SecurityLevel.name) : Z :=
  match n with
  | SecurityLevel.SOFTWARE => 0 | SecurityLevel.TRUSTED_ENVIRONMENT => 1
  | SecurityLevel.STRONGBOX => 2 | SecurityLevel.KEYSTORE => 100
  end.
Definition pub_key_format (n : KeyFormat.name) : Z :=
  match n with KeyFormat.PKCS8 => 1 | KeyFormat.RAW => 3 end.
Definition pub_authenticator_type (n : AuthenticatorType.name) : Z :=
  match n with AuthenticatorType.PASSWORD => 1 | AuthenticatorType.FINGERPRINT => 2 end.

Definition pub_permission (n : KeyPermission.name) : Z :=
  match n with
  | KeyPermission.NONE => 0 | KeyPermission.DELETE => 1
  | KeyPermission.GEN_UNIQUE_ID => 2 | KeyPermission.GET_INFO => 4
  | KeyPermission.GRANT => 8 | KeyPermission.MANAGE_BLOB => 16
  | KeyPermission.REBIND => 32 | KeyPermission.REQ_FORCED_OP => 64
  | KeyPermission.UPDATE => 128 | KeyPermission.USE => 256
  | KeyPermission.USE_DEV_ID => 512
  | KeyPermission.CONVERT_STORAGE_KEY_TO_EPHEMERAL => 1024
  end.

(** The type of a tag is in its high bits. *)
Definition pub_tag (n : Tag.name) : Z :=
  match n with
  | Tag.INVALID => pub_tag_type TagType.INVALID + 0
  | Tag.PURPOSE => pub_tag_type TagType.ENUM_REP + 1
  | Tag.ALGORITHM => pub_tag_type TagType.ENUM + 2
  | Tag.KEY_SIZE => pub_tag_type TagType.UINT + 3
  | Tag.BLOCK_MODE => pub_tag_type TagType.ENUM_REP + 4
  | Tag.DIGEST => pub_tag_type TagType.ENUM_REP + 5
  | Tag.PADDING => pub_tag_type TagType.ENUM_REP + 6
  | Tag.CALLER_NONCE => pub_tag_type TagType.BOOL + 7
  | Tag.MIN_MAC_LENGTH => pub_tag_type TagType.UINT + 8
  | Tag.EC_CURVE => pub_tag_type TagType.ENUM + 10
  | Tag.RSA_PUBLIC_EXPONENT => pub_tag_type TagType.ULONG + 200
  | Tag.INCLUDE_UNIQUE_ID => pub_tag_type TagType.BOOL + 202
  | Tag.BOOTLOADER_ONLY => pub_tag_type TagType.BOOL + 302
  | Tag.ROLLBACK_RESISTANCE => pub_tag_type TagType.BOOL + 303
  | Tag.EARLY_BOOT_ONLY => pub_tag_type TagType.BOOL + 305
  | Tag.ACTIVE_DATETIME => pub_tag_type TagType.DATE + 400
  | Tag.ORIGINATION_EXPIRE_DATETIME => pub_tag_type TagType.DATE + 401
  | Tag.USAGE_EXPIRE_DATETIME => pub_tag_type TagType.DATE + 402
  | Tag.MIN_SECONDS_BETWEEN_OPS => pub_tag_type TagType.UINT + 403
  | Tag.MAX_USES_PER_BOOT => pub_tag_type TagType.UINT + 404
  | Tag.USAGE_COUNT_LIMIT => pub_tag_type TagType.UINT + 405
  | Tag.USER_ID => pub_tag_type TagType.UINT + 501
  | Tag.USER_SECURE_ID => pub_tag_type TagType.ULONG_REP + 502
  | Tag.NO_AUTH_REQUIRED => pub_tag_type TagType.BOOL + 503
  | Tag.USER_AUTH_TYPE => pub_tag_type TagType.ENUM + 504
  | Tag.AUTH_TIMEOUT => pub_tag_type TagType.UINT + 505
  | Tag.ALLOW_WHILE_ON_BODY => pub_tag_type TagType.BOOL + 506
  | Tag.TRUSTED_USER_PRESENCE_REQUIRED => pub_tag_type TagType.BOOL + 507
  | Tag.TRUSTED_CONFIRMATION_REQUIRED => pub_tag_type TagType.BOOL + 508
  | Tag.UNLOCKED_DEVICE_REQUIRED => pub_tag_type TagType.BOOL + 509
  | Tag.APPLICATION_ID => pub_tag_type TagType.BYTES + 601
  | Tag.APPLICATION_DATA => pub_tag_type TagType.BYTES + 700
  | Tag.CREATION_DATETIME => pub_tag_type TagType.DATE + 701
  | Tag.ORIGIN => pub_tag_type TagType.ENUM + 702
  | Tag.ROOT_OF_TRUST => pub_tag_type TagType.BYTES + 704
  | Tag.OS_VERSION => pub_tag_type TagType.UINT + 705
  | Tag.OS_PATCHLEVEL => pub_tag_type TagType.UINT + 706
  | Tag.UNIQUE_ID => pub_tag_type TagType.BYTES + 707
  | Tag.ATTESTATION_CHALLENGE => pub_tag_type TagType.BYTES + 708
  | Tag.ATTESTATION_APPLICATION_ID => pub_tag_type TagType.BYTES + 709
  | Tag.ATTESTATION_ID_BRAND => pub_tag_type TagType.BYTES + 710
  | Tag.ATTESTATION_ID_DEVICE => pub_tag_type TagType.BYTES + 711
  | Tag.ATTESTATION_ID_PRODUCT => pub_tag_type TagType.BYTES + 712
  | Tag.ATTESTATION_ID_SERIAL => pub_tag_type TagType.BYTES + 713
  | Tag.ATTESTATION_ID_IMEI => pub_tag_type TagType.BYTES + 714
  | Tag.ATTESTATION_ID_MEID => pub_tag_type TagType.BYTES + 715
  | Tag.ATTESTATION_ID_MANUFACTURER => pub_tag_type TagType.BYTES + 716
  | Tag.ATTESTATION_ID_MODEL => pub_tag_type TagType.BYTES + 717
  | Tag.VENDOR_PATCHLEVEL => pub_tag_type TagType.UINT + 718
  | Tag.BOOT_PATCHLEVEL => pub_tag_type TagType.UINT + 719
  | Tag.ASSOCIATED_DATA => pub_tag_type TagType.BYTES + 1000
  | Tag.NONCE => pub_tag_type TagType.BYTES + 1001
  | Tag.MAC_LENGTH => pub_tag_type TagType.UINT + 1003
  | Tag.RESET_SINCE_ID_ROTATION => pub_tag_type TagType.BOOL + 1004
  | Tag.CONFIRMATION_TOKEN => pub_tag_type TagType.BYTES + 1005
  | Tag.CERTIFICATE_SERIAL => pub_tag_type TagType.BIGNUM + 1006
  | Tag.CERTIFICATE_SUBJECT => pub_tag_type TagType.BYTES + 1007
  | Tag.CERTIFICATE_NOT_BEFORE => pub_tag_type TagType.DATE + 1008
  | Tag.CERTIFICATE_NOT_AFTER => pub_tag_type TagType.DATE + 1009
  | Tag.MAX_BOOT_LEVEL => pub_tag_type TagType.UINT + 1010
  end.

Local Ltac enum := intros m n; destruct m, n; by vm_compute.
Local Ltac range := intros n; destruct n; vm_compute; split; congruence.

Definition aidl_enum_error_code : AidlEnum ErrorCode.name.
Proof. refine {| val := pub_error_code |}; [enum|range]. Defined.
Definition aidl_enum_response_code : AidlEnum ResponseCode.name.
Proof. refine {| val := pub_response_code |}; [enum|range]. Defined.
Definition aidl_enum_domain : AidlEnum Domain.name.
Proof. refine {| val := pub_domain |}; [enum|range]. Defined.
Definition aidl_enum_purpose : AidlEnum KeyPurpose.name.
Proof. refine {| val := pub_purpose |}; [enum|range]. Defined.
Definition aidl_enum_algorithm : AidlEnum Algorithm.name.
Proof. refine {| val := pub_algorithm |}; [enum|range]. Defined.
Definition aidl_enum_permission : AidlEnum KeyPermission.name.
Proof. refine {| val := pub_permission |}; [enum|range]. Defined.

Lemma pub_tag_nodup : NoDup (pub_tag <$> Tag.all).
Proof. apply (bool_decide_eq_true_1 _). by vm_compute. Qed.
Lemma pub_tag_inj m n : pub_tag m = pub_tag n -> m = n.
Proof. apply (NoDup_fmap_inj pub_tag Tag.all); [apply pub_tag_nodup|apply Tag.tag_all_complete..]. Qed.
Lemma pub_tag_i32 n : i32_range (pub_tag n).
Proof. destruct n; vm_compute; split; congruence. Qed.
Definition aidl_enum_tag : AidlEnum Tag.name :=
  {| val := pub_tag; val_inj := pub_tag_inj; val_i32 := pub_tag_i32 |}.

Definition aidl_enum_tag_type : AidlEnum TagType.name.
Proof. refine {| val := pub_tag_type |}; [enum|range]. Defined.
Definition aidl_enum_security_level : AidlEnum SecurityLevel.name.
Proof. refine {| val := pub_security_level |}; [enum|range]. Defined.
Definition aidl_enum_key_format : AidlEnum KeyFormat.name.
Proof. refine {| val := pub_key_format |}; [enum|range]. Defined.
Definition aidl_enum_authenticator_type : AidlEnum AuthenticatorType.name.
Proof. refine {| val := pub_authenticator_type |}; [enum|range]. Defined.

Lemma pub_permission_bit n : n <> KeyPermission.NONE ->
  exists k, 0 <= k < 31 /\ pub_permission n = 2 ^ k.
Proof.
  intros Hn. exists (Z.log2 (pub_permission n)).
  destruct n; try done; (split; [vm_compute; split; congruence|by vm_compute]).
Qed.

Definition aidl_published : Aidl.
Proof.
  refine {| aidl_error_code := aidl_enum_error_code;
            aidl_response_code := aidl_enum_response_code;
            aidl_domain := aidl_enum_domain;
            aidl_purpose := aidl_enum_purpose;
            aidl_algorithm := aidl_enum_algorithm;
            aidl_permission := aidl_enum_permission;
            aidl_tag := aidl_enum_tag;
            aidl_tag_type := aidl_enum_tag_type;
            aidl_security_level := aidl_enum_security_level;
            aidl_key_format := aidl_enum_key_format;
            aidl_authenticator_type := aidl_enum_authenticator_type |}.
  - intros n. destruct n; by vm_compute.
  - intros n. destruct n; by vm_compute.
  - intros n. destruct n; vm_compute; congruence.
  - done.
  - apply pub_permission_bit.
Defined.
End Published.
