(* ===== verification/Errors.v ===== *)
(** * Errors ([keystore2/src/error.rs])

    The [Error] type, the mapping of binder statuses into it and the mapping
    of an [anyhow::Error] to the service specific code a client sees.  An
    [anyhow::Error] is its root cause: [context] adds text and leaves the root
    cause alone, and the code only ever inspects the root cause. *)

From stdpp Require Import base list gmap strings.
From Stdlib Require Import ZArith Lia.
From S2P Require Import Prelude Aidl.

(** The binder exception codes the code distinguishes. *)
Inductive ExceptionCode :=
| SERVICE_SPECIFIC
| TRANSACTION_FAILED
| OtherException (code : Z).

(** A binder status as [map_km_error] and its siblings read it. *)
Record BinderStatus := {
  exception_code : ExceptionCode;
  service_specific_error : Z;
  transaction_error : Z
}.

Inductive Error :=
| Rc (code : Z)
| Km (code : Z)
| Binder (code : ExceptionCode) (service_specific : Z)
| BinderTransaction (status : Z)
| Rp (code : Z).

(** The root causes [get_error_code] distinguishes: Keystore's own error, the
    SELinux errors, and everything else. *)
Inductive SelinuxError :=
| PermissionDenied
| SelinuxOther.

Inductive AnyError :=
| KsError (e : Error)
| SeError (e : SelinuxError)
| OtherError.

#[global] Instance ExceptionCode_eq_dec : EqDecision ExceptionCode.
Proof. solve_decision. Defined.
#[global] Instance Error_eq_dec : EqDecision Error.
Proof. solve_decision. Defined.

Section Errors.
Context {AI : Aidl}.

Definition sys : Error := Rc (val ResponseCode.SYSTEM_ERROR).
Definition perm : Error := Rc (val ResponseCode.PERMISSION_DENIED).

Definition km_status_error (s : BinderStatus) : Error :=
  match exception_code s with
  | SERVICE_SPECIFIC =>
      let se := service_specific_error s in
      if se <? 0 then Km se else Binder SERVICE_SPECIFIC se
  | e_code => Binder e_code 0
  end.

Definition map_km_error {T} (r : result BinderStatus T) : result Error T :=
  map_err km_status_error r.

Definition map_rem_prov_error {T} (r : result BinderStatus T) : result Error T :=
  map_err (fun s => match exception_code s with
                    | SERVICE_SPECIFIC => Rp (service_specific_error s)
                    | e_code => Binder e_code 0
                    end) r.

Definition map_binder_status {T} (r : result BinderStatus T) : result Error T :=
  map_err (fun s => match exception_code s with
                    | SERVICE_SPECIFIC => Binder SERVICE_SPECIFIC (service_specific_error s)
                    | TRANSACTION_FAILED => BinderTransaction (transaction_error s)
                    | e_code => Binder e_code 0
                    end) r.

Definition map_binder_status_code {T} (r : result Z T) : result Error T :=
  map_err BinderTransaction r.

Definition get_error_code (e : AnyError) : Z :=
  match e with
  | KsError (Rc rcode) => rcode
  | KsError (Km ec) => ec
  | KsError (Rp _) => val ResponseCode.SYSTEM_ERROR
  | KsError (Binder _ _) => val ResponseCode.SYSTEM_ERROR
  | KsError (BinderTransaction _) => val ResponseCode.SYSTEM_ERROR
  | SeError PermissionDenied => val ResponseCode.PERMISSION_DENIED
  | _ => val ResponseCode.SYSTEM_ERROR
  end.

(** [BinderStatus::new_service_specific_error(rc, None)]. *)
Definition new_service_specific_error (rc : Z) : BinderStatus :=
  {| exception_code := SERVICE_SPECIFIC;
     service_specific_error := rc;
     transaction_error := 0 |}.

Definition map_err_with {T U} (r : result AnyError U) (f : AnyError -> AnyError)
    (handle_ok : U -> result BinderStatus T) : result BinderStatus T :=
  match r with
  | Ok u => handle_ok u
  | Err e => Err (new_service_specific_error (get_error_code (f e)))
  | Panic => Panic
  end.

(** [map_or_log_err] only logs before it maps the error. *)
Definition map_or_log_err {T U} (r : result AnyError U)
    (handle_ok : U -> result BinderStatus T) : result BinderStatus T :=
  map_err_with r (fun e => e) handle_ok.

(** Lifts a [Result<T, Error>] into an [anyhow::Result<T>]. *)
Definition anyhow {T} (r : result Error T) : result AnyError T := map_err KsError r.

Lemma get_error_code_other : get_error_code OtherError = val ResponseCode.SYSTEM_ERROR.
Proof. done. Qed.

(** The code a client reads tells KeyMint's verdict and Keystore's own
    apart.  Whatever a KeyMint call returned, the error that reaches the
    client through [map_km_error] and [map_or_log_err] is a service specific
    exception whose code is negative exactly when KeyMint raised that very
    (negative) service specific code; every other KeyMint failure, a binder
    exception or a non negative service specific code included, reads as
    [SYSTEM_ERROR], which is positive. *)
Theorem km_errors_reach_client {T} (s : BinderStatus) (ok : T -> result BinderStatus T) :
  exists st, map_or_log_err (anyhow (map_km_error (Err s : result BinderStatus T))) ok = Err st /\
    exception_code st = SERVICE_SPECIFIC /\
    (service_specific_error st < 0 <->
       exception_code s = SERVICE_SPECIFIC /\ service_specific_error s < 0) /\
    (service_specific_error st < 0 -> service_specific_error st = service_specific_error s) /\
    (0 <= service_specific_error st ->
       service_specific_error st = val ResponseCode.SYSTEM_ERROR).
Proof.
  eexists; split; [reflexivity|]. simpl. split; [done|].
  pose proof (response_code_positive ResponseCode.SYSTEM_ERROR).
  unfold km_status_error. destruct (exception_code s) eqn:Es; simpl.
  - destruct (Z.ltb_spec (service_specific_error s) 0); simpl; naive_solver lia.
  - naive_solver lia.
  - naive_solver lia.
Qed.
End Errors.
