(* ===== verification/Sql.v ===== *)
(** * SQL values

    The storage classes a column of the database holds, and the conversions
    of [rusqlite] between them and the Rust types the code reads and writes
    ([i64], [i32], [u32], [Vec<u8>], [String]).  They are the part of
    the SQL vocabulary shared by the components that read and write columns. *)

From stdpp Require Import base list gmap strings.
From Stdlib Require Import ZArith Lia.
From S2P Require Import Prelude Aidl.

Inductive Value :=
| Null
| Integer (z : Z)
| Text (s : string)
| BlobVal (b : bytes).

#[global] Instance Value_eq_dec : EqDecision Value.
Proof. solve_decision. Defined.

(** [FromSql] of the Rust types the code reads: a read fails on a column of
    another storage class and on an integer that does not fit. *)
Definition get_i64 (v : Value) : option Z :=
  match v with Integer z => Some z | _ => None end.
Definition get_i32 (v : Value) : option Z :=
  match v with
  | Integer z => if decide (i32_range z) then Some z else None
  | _ => None
  end.
Definition get_u32 (v : Value) : option Z :=
  match v with
  | Integer z => if decide (u32_range z) then Some z else None
  | _ => None
  end.
Definition get_bytes (v : Value) : option bytes :=
  match v with BlobVal b => Some b | _ => None end.
Definition get_string (v : Value) : option string :=
  match v with Text s => Some s | _ => None end.

Lemma get_i32_Integer z : i32_range z -> get_i32 (Integer z) = Some z.
Proof. intros. simpl. by rewrite decide_True. Qed.
#[export] Hint Rewrite get_i32_Integer using done : keystore.

(** SQL's [=]: a comparison with [NULL] is not true. *)
Definition sql_eq (a b : Value) : bool :=
  match a, b with
  | Null, _ | _, Null => false
  | _, _ => bool_decide (a = b)
  end.
(** SQL's [IS]: [NULL IS NULL]. *)
Definition sql_is (a b : Value) : bool := bool_decide (a = b).
Definition is_null (a : Value) : bool := match a with Null => true | _ => false end.

Lemma sql_eq_true a b : sql_eq a b = true <-> a = b /\ a <> Null.
Proof. destruct a, b; simpl; rewrite ?bool_decide_eq_true; naive_solver. Qed.
