(* ===== verification/KeyParameter.v ===== *)
(** * Key parameters ([keystore2/src/key_parameter.rs])

    [KeyParameterValue] with every variant of the source, and the functions
    its macros generate: the tag of a value, the conversion to and from a
    database column, from a tag and a primitive, and to and from the wire type
    [KmKeyParameter].  The AIDL enums inside the variants are their [i32]. *)

From stdpp Require Import base list gmap strings.
From Stdlib Require Import ZArith Lia.
From S2P Require Import Prelude Aidl Errors Sql.

(** The wire union [android.hardware.security.keymint.KeyParameterValue]. *)
Module Field.
Inductive value :=
| Invalid (z : Z) | Algorithm (z : Z) | BlockMode (z : Z) | PaddingMode (z : Z)
| Digest (z : Z) | EcCurve (z : Z) | Origin (z : Z) | KeyPurpose (z : Z)
| HardwareAuthenticatorType (z : Z) | SecurityLevel (z : Z) | BoolValue (b : bool)
| Integer (z : Z) | LongInteger (z : Z) | DateTime (z : Z) | Blob (b : bytes).
End Field.

Record KmKeyParameter := { tag : Z; value : Field.value }.

Inductive Primitive :=
| I64 (z : Z)
| I32 (z : Z)
| PVec (b : bytes).

Inductive PrimitiveError := TypeMismatch | UnknownTag.

Inductive KeyParameterValue :=
| Invalid
| KeyPurpose (z : Z)
| Algorithm (z : Z)
| KeySize (z : Z)
| BlockMode (z : Z)
| Digest (z : Z)
| PaddingMode (z : Z)
| CallerNonce
| MinMacLength (z : Z)
| EcCurve (z : Z)
| RSAPublicExponent (z : Z)
| IncludeUniqueID
| BootLoaderOnly
| RollbackResistance
| EarlyBootOnly
| ActiveDateTime (z : Z)
| OriginationExpireDateTime (z : Z)
| UsageExpireDateTime (z : Z)
| MinSecondsBetweenOps (z : Z)
| MaxUsesPerBoot (z : Z)
| UsageCountLimit (z : Z)
| UserID (z : Z)
| UserSecureID (z : Z)
| NoAuthRequired
| HardwareAuthenticatorType (z : Z)
| AuthTimeout (z : Z)
| AllowWhileOnBody
| TrustedUserPresenceRequired
| TrustedConfirmationRequired
| UnlockedDeviceRequired
| ApplicationID (b : bytes)
| ApplicationData (b : bytes)
| CreationDateTime (z : Z)
| KeyOrigin (z : Z)
| RootOfTrust (b : bytes)
| OSVersion (z : Z)
| OSPatchLevel (z : Z)
| UniqueID (b : bytes)
| AttestationChallenge (b : bytes)
| AttestationApplicationID (b : bytes)
| AttestationIdBrand (b : bytes)
| AttestationIdDevice (b : bytes)
| AttestationIdProduct (b : bytes)
| AttestationIdSerial (b : bytes)
| AttestationIdIMEI (b : bytes)
| AttestationIdMEID (b : bytes)
| AttestationIdManufacturer (b : bytes)
| AttestationIdModel (b : bytes)
| VendorPatchLevel (z : Z)
| BootPatchLevel (z : Z)
| AssociatedData (b : bytes)
| Nonce (b : bytes)
| MacLength (z : Z)
| ResetSinceIdRotation
| ConfirmationToken (b : bytes)
| CertificateSerial (b : bytes)
| CertificateSubject (b : bytes)
| CertificateNotBefore (z : Z)
| CertificateNotAfter (z : Z)
| MaxBootLevel (z : Z).

#[global] Instance KeyParameterValue_eq_dec : EqDecision KeyParameterValue.
Proof. solve_decision. Defined.

(** The Rust type of the payload bounds it. *)
Definition kpv_wf (v : KeyParameterValue) : Prop :=
  match v with
  | KeyPurpose z => i32_range z
  | Algorithm z => i32_range z
  | KeySize z => i32_range z
  | BlockMode z => i32_range z
  | Digest z => i32_range z
  | PaddingMode z => i32_range z
  | MinMacLength z => i32_range z
  | EcCurve z => i32_range z
  | RSAPublicExponent z => i64_range z
  | ActiveDateTime z => i64_range z
  | OriginationExpireDateTime z => i64_range z
  | UsageExpireDateTime z => i64_range z
  | MinSecondsBetweenOps z => i32_range z
  | MaxUsesPerBoot z => i32_range z
  | UsageCountLimit z => i32_range z
  | UserID z => i32_range z
  | UserSecureID z => i64_range z
  | HardwareAuthenticatorType z => i32_range z
  | AuthTimeout z => i32_range z
  | CreationDateTime z => i64_range z
  | KeyOrigin z => i32_range z
  | OSVersion z => i32_range z
  | OSPatchLevel z => i32_range z
  | VendorPatchLevel z => i32_range z
  | BootPatchLevel z => i32_range z
  | MacLength z => i32_range z
  | CertificateNotBefore z => i64_range z
  | CertificateNotAfter z => i64_range z
  | MaxBootLevel z => i32_range z
  | _ => True
  end.

(** The tag constant a variant is declared with. *)
Definition tag_name (v : KeyParameterValue) : Tag.name :=
  match v with
  | Invalid => Tag.INVALID
  | KeyPurpose _ => Tag.PURPOSE
  | Algorithm _ => Tag.ALGORITHM
  | KeySize _ => Tag.KEY_SIZE
  | BlockMode _ => Tag.BLOCK_MODE
  | Digest _ => Tag.DIGEST
  | PaddingMode _ => Tag.PADDING
  | CallerNonce => Tag.CALLER_NONCE
  | MinMacLength _ => Tag.MIN_MAC_LENGTH
  | EcCurve _ => Tag.EC_CURVE
  | RSAPublicExponent _ => Tag.RSA_PUBLIC_EXPONENT
  | IncludeUniqueID => Tag.INCLUDE_UNIQUE_ID
  | BootLoaderOnly => Tag.BOOTLOADER_ONLY
  | RollbackResistance => Tag.ROLLBACK_RESISTANCE
  | EarlyBootOnly => Tag.EARLY_BOOT_ONLY
  | ActiveDateTime _ => Tag.ACTIVE_DATETIME
  | OriginationExpireDateTime _ => Tag.ORIGINATION_EXPIRE_DATETIME
  | UsageExpireDateTime _ => Tag.USAGE_EXPIRE_DATETIME
  | MinSecondsBetweenOps _ => Tag.MIN_SECONDS_BETWEEN_OPS
  | MaxUsesPerBoot _ => Tag.MAX_USES_PER_BOOT
  | UsageCountLimit _ => Tag.USAGE_COUNT_LIMIT
  | UserID _ => Tag.USER_ID
  | UserSecureID _ => Tag.USER_SECURE_ID
  | NoAuthRequired => Tag.NO_AUTH_REQUIRED
  | HardwareAuthenticatorType _ => Tag.USER_AUTH_TYPE
  | AuthTimeout _ => Tag.AUTH_TIMEOUT
  | AllowWhileOnBody => Tag.ALLOW_WHILE_ON_BODY
  | TrustedUserPresenceRequired => Tag.TRUSTED_USER_PRESENCE_REQUIRED
  | TrustedConfirmationRequired => Tag.TRUSTED_CONFIRMATION_REQUIRED
  | UnlockedDeviceRequired => Tag.UNLOCKED_DEVICE_REQUIRED
  | ApplicationID _ => Tag.APPLICATION_ID
  | ApplicationData _ => Tag.APPLICATION_DATA
  | CreationDateTime _ => Tag.CREATION_DATETIME
  | KeyOrigin _ => Tag.ORIGIN
  | RootOfTrust _ => Tag.ROOT_OF_TRUST
  | OSVersion _ => Tag.OS_VERSION
  | OSPatchLevel _ => Tag.OS_PATCHLEVEL
  | UniqueID _ => Tag.UNIQUE_ID
  | AttestationChallenge _ => Tag.ATTESTATION_CHALLENGE
  | AttestationApplicationID _ => Tag.ATTESTATION_APPLICATION_ID
  | AttestationIdBrand _ => Tag.ATTESTATION_ID_BRAND
  | AttestationIdDevice _ => Tag.ATTESTATION_ID_DEVICE
  | AttestationIdProduct _ => Tag.ATTESTATION_ID_PRODUCT
  | AttestationIdSerial _ => Tag.ATTESTATION_ID_SERIAL
  | AttestationIdIMEI _ => Tag.ATTESTATION_ID_IMEI
  | AttestationIdMEID _ => Tag.ATTESTATION_ID_MEID
  | AttestationIdManufacturer _ => Tag.ATTESTATION_ID_MANUFACTURER
  | AttestationIdModel _ => Tag.ATTESTATION_ID_MODEL
  | VendorPatchLevel _ => Tag.VENDOR_PATCHLEVEL
  | BootPatchLevel _ => Tag.BOOT_PATCHLEVEL
  | AssociatedData _ => Tag.ASSOCIATED_DATA
  | Nonce _ => Tag.NONCE
  | MacLength _ => Tag.MAC_LENGTH
  | ResetSinceIdRotation => Tag.RESET_SINCE_ID_ROTATION
  | ConfirmationToken _ => Tag.CONFIRMATION_TOKEN
  | CertificateSerial _ => Tag.CERTIFICATE_SERIAL
  | CertificateSubject _ => Tag.CERTIFICATE_SUBJECT
  | CertificateNotBefore _ => Tag.CERTIFICATE_NOT_BEFORE
  | CertificateNotAfter _ => Tag.CERTIFICATE_NOT_AFTER
  | MaxBootLevel _ => Tag.MAX_BOOT_LEVEL
  end.

(** [try_into] of a primitive to the payload type of a tag. *)
Definition prim_i64 (p : Primitive) : result PrimitiveError Z :=
  match p with I64 z => Ok z | _ => Err TypeMismatch end.
Definition prim_i32 (p : Primitive) : result PrimitiveError Z :=
  match p with I32 z => Ok z | _ => Err TypeMismatch end.
Definition prim_vec (p : Primitive) : result PrimitiveError bytes :=
  match p with PVec b => Ok b | _ => Err TypeMismatch end.

Definition to_sql (v : KeyParameterValue) : Value :=
  match v with
  | Invalid => Null
  | KeyPurpose z => Integer z
  | Algorithm z => Integer z
  | KeySize z => Integer z
  | BlockMode z => Integer z
  | Digest z => Integer z
  | PaddingMode z => Integer z
  | CallerNonce => Null
  | MinMacLength z => Integer z
  | EcCurve z => Integer z
  | RSAPublicExponent z => Integer z
  | IncludeUniqueID => Null
  | BootLoaderOnly => Null
  | RollbackResistance => Null
  | EarlyBootOnly => Null
  | ActiveDateTime z => Integer z
  | OriginationExpireDateTime z => Integer z
  | UsageExpireDateTime z => Integer z
  | MinSecondsBetweenOps z => Integer z
  | MaxUsesPerBoot z => Integer z
  | UsageCountLimit z => Integer z
  | UserID z => Integer z
  | UserSecureID z => Integer z
  | NoAuthRequired => Null
  | HardwareAuthenticatorType z => Integer z
  | AuthTimeout z => Integer z
  | AllowWhileOnBody => Null
  | TrustedUserPresenceRequired => Null
  | TrustedConfirmationRequired => Null
  | UnlockedDeviceRequired => Null
  | ApplicationID b => BlobVal b
  | ApplicationData b => BlobVal b
  | CreationDateTime z => Integer z
  | KeyOrigin z => Integer z
  | RootOfTrust b => BlobVal b
  | OSVersion z => Integer z
  | OSPatchLevel z => Integer z
  | UniqueID b => BlobVal b
  | AttestationChallenge b => BlobVal b
  | AttestationApplicationID b => BlobVal b
  | AttestationIdBrand b => BlobVal b
  | AttestationIdDevice b => BlobVal b
  | AttestationIdProduct b => BlobVal b
  | AttestationIdSerial b => BlobVal b
  | AttestationIdIMEI b => BlobVal b
  | AttestationIdMEID b => BlobVal b
  | AttestationIdManufacturer b => BlobVal b
  | AttestationIdModel b => BlobVal b
  | VendorPatchLevel z => Integer z
  | BootPatchLevel z => Integer z
  | AssociatedData b => BlobVal b
  | Nonce b => BlobVal b
  | MacLength z => Integer z
  | ResetSinceIdRotation => Null
  | ConfirmationToken b => BlobVal b
  | CertificateSerial b => BlobVal b
  | CertificateSubject b => BlobVal b
  | CertificateNotBefore z => Integer z
  | CertificateNotAfter z => Integer z
  | MaxBootLevel z => Integer z
  end.

Section KeyParameters.
Context {AI : Aidl}.

Definition get_tag (v : KeyParameterValue) : Z := val (tag_name v).

Definition new_from_tag_primitive_pair (t : Z) (p : Primitive)
    : result PrimitiveError KeyParameterValue :=
  match name_of Tag.all t with
  | None => Err UnknownTag
  | Some n =>
    match n with
    | Tag.INVALID => Ok Invalid
    | Tag.PURPOSE => KeyPurpose <$> prim_i32 p
    | Tag.ALGORITHM => Algorithm <$> prim_i32 p
    | Tag.KEY_SIZE => KeySize <$> prim_i32 p
    | Tag.BLOCK_MODE => BlockMode <$> prim_i32 p
    | Tag.DIGEST => Digest <$> prim_i32 p
    | Tag.PADDING => PaddingMode <$> prim_i32 p
    | Tag.CALLER_NONCE => Ok CallerNonce
    | Tag.MIN_MAC_LENGTH => MinMacLength <$> prim_i32 p
    | Tag.EC_CURVE => EcCurve <$> prim_i32 p
    | Tag.RSA_PUBLIC_EXPONENT => RSAPublicExponent <$> prim_i64 p
    | Tag.INCLUDE_UNIQUE_ID => Ok IncludeUniqueID
    | Tag.BOOTLOADER_ONLY => Ok BootLoaderOnly
    | Tag.ROLLBACK_RESISTANCE => Ok RollbackResistance
    | Tag.EARLY_BOOT_ONLY => Ok EarlyBootOnly
    | Tag.ACTIVE_DATETIME => ActiveDateTime <$> prim_i64 p
    | Tag.ORIGINATION_EXPIRE_DATETIME => OriginationExpireDateTime <$> prim_i64 p
    | Tag.USAGE_EXPIRE_DATETIME => UsageExpireDateTime <$> prim_i64 p
    | Tag.MIN_SECONDS_BETWEEN_OPS => MinSecondsBetweenOps <$> prim_i32 p
    | Tag.MAX_USES_PER_BOOT => MaxUsesPerBoot <$> prim_i32 p
    | Tag.USAGE_COUNT_LIMIT => UsageCountLimit <$> prim_i32 p
    | Tag.USER_ID => UserID <$> prim_i32 p
    | Tag.USER_SECURE_ID => UserSecureID <$> prim_i64 p
    | Tag.NO_AUTH_REQUIRED => Ok NoAuthRequired
    | Tag.USER_AUTH_TYPE => HardwareAuthenticatorType <$> prim_i32 p
    | Tag.AUTH_TIMEOUT => AuthTimeout <$> prim_i32 p
    | Tag.ALLOW_WHILE_ON_BODY => Ok AllowWhileOnBody
    | Tag.TRUSTED_USER_PRESENCE_REQUIRED => Ok TrustedUserPresenceRequired
    | Tag.TRUSTED_CONFIRMATION_REQUIRED => Ok TrustedConfirmationRequired
    | Tag.UNLOCKED_DEVICE_REQUIRED => Ok UnlockedDeviceRequired
    | Tag.APPLICATION_ID => ApplicationID <$> prim_vec p
    | Tag.APPLICATION_DATA => ApplicationData <$> prim_vec p
    | Tag.CREATION_DATETIME => CreationDateTime <$> prim_i64 p
    | Tag.ORIGIN => KeyOrigin <$> prim_i32 p
    | Tag.ROOT_OF_TRUST => RootOfTrust <$> prim_vec p
    | Tag.OS_VERSION => OSVersion <$> prim_i32 p
    | Tag.OS_PATCHLEVEL => OSPatchLevel <$> prim_i32 p
    | Tag.UNIQUE_ID => UniqueID <$> prim_vec p
    | Tag.ATTESTATION_CHALLENGE => AttestationChallenge <$> prim_vec p
    | Tag.ATTESTATION_APPLICATION_ID => AttestationApplicationID <$> prim_vec p
    | Tag.ATTESTATION_ID_BRAND => AttestationIdBrand <$> prim_vec p
    | Tag.ATTESTATION_ID_DEVICE => AttestationIdDevice <$> prim_vec p
    | Tag.ATTESTATION_ID_PRODUCT => AttestationIdProduct <$> prim_vec p
    | Tag.ATTESTATION_ID_SERIAL => AttestationIdSerial <$> prim_vec p
    | Tag.ATTESTATION_ID_IMEI => AttestationIdIMEI <$> prim_vec p
    | Tag.ATTESTATION_ID_MEID => AttestationIdMEID <$> prim_vec p
    | Tag.ATTESTATION_ID_MANUFACTURER => AttestationIdManufacturer <$> prim_vec p
    | Tag.ATTESTATION_ID_MODEL => AttestationIdModel <$> prim_vec p
    | Tag.VENDOR_PATCHLEVEL => VendorPatchLevel <$> prim_i32 p
    | Tag.BOOT_PATCHLEVEL => BootPatchLevel <$> prim_i32 p
    | Tag.ASSOCIATED_DATA => AssociatedData <$> prim_vec p
    | Tag.NONCE => Nonce <$> prim_vec p
    | Tag.MAC_LENGTH => MacLength <$> prim_i32 p
    | Tag.RESET_SINCE_ID_ROTATION => Ok ResetSinceIdRotation
    | Tag.CONFIRMATION_TOKEN => ConfirmationToken <$> prim_vec p
    | Tag.CERTIFICATE_SERIAL => CertificateSerial <$> prim_vec p
    | Tag.CERTIFICATE_SUBJECT => CertificateSubject <$> prim_vec p
    | Tag.CERTIFICATE_NOT_BEFORE => CertificateNotBefore <$> prim_i64 p
    | Tag.CERTIFICATE_NOT_AFTER => CertificateNotAfter <$> prim_i64 p
    | Tag.MAX_BOOT_LEVEL => MaxBootLevel <$> prim_i32 p
    end
  end.

(** A column that does not convert is [VALUE_CORRUPTED]; an unknown tag
    reads as [Invalid]. *)
Definition corrupted : AnyError := KsError (Rc (val ResponseCode.VALUE_CORRUPTED)).

Definition new_from_sql (t : Z) (data : Value) : result AnyError KeyParameterValue :=
  match name_of Tag.all t with
  | None => Ok Invalid
  | Some n =>
    match n with
    | Tag.INVALID => Ok Invalid
    | Tag.PURPOSE => KeyPurpose <$> ok_or (get_i32 data) corrupted
    | Tag.ALGORITHM => Algorithm <$> ok_or (get_i32 data) corrupted
    | Tag.KEY_SIZE => KeySize <$> ok_or (get_i32 data) corrupted
    | Tag.BLOCK_MODE => BlockMode <$> ok_or (get_i32 data) corrupted
    | Tag.DIGEST => Digest <$> ok_or (get_i32 data) corrupted
    | Tag.PADDING => PaddingMode <$> ok_or (get_i32 data) corrupted
    | Tag.CALLER_NONCE => Ok CallerNonce
    | Tag.MIN_MAC_LENGTH => MinMacLength <$> ok_or (get_i32 data) corrupted
    | Tag.EC_CURVE => EcCurve <$> ok_or (get_i32 data) corrupted
    | Tag.RSA_PUBLIC_EXPONENT => RSAPublicExponent <$> ok_or (get_i64 data) corrupted
    | Tag.INCLUDE_UNIQUE_ID => Ok IncludeUniqueID
    | Tag.BOOTLOADER_ONLY => Ok BootLoaderOnly
    | Tag.ROLLBACK_RESISTANCE => Ok RollbackResistance
    | Tag.EARLY_BOOT_ONLY => Ok EarlyBootOnly
    | Tag.ACTIVE_DATETIME => ActiveDateTime <$> ok_or (get_i64 data) corrupted
    | Tag.ORIGINATION_EXPIRE_DATETIME => OriginationExpireDateTime <$> ok_or (get_i64 data) corrupted
    | Tag.USAGE_EXPIRE_DATETIME => UsageExpireDateTime <$> ok_or (get_i64 data) corrupted
    | Tag.MIN_SECONDS_BETWEEN_OPS => MinSecondsBetweenOps <$> ok_or (get_i32 data) corrupted
    | Tag.MAX_USES_PER_BOOT => MaxUsesPerBoot <$> ok_or (get_i32 data) corrupted
    | Tag.USAGE_COUNT_LIMIT => UsageCountLimit <$> ok_or (get_i32 data) corrupted
    | Tag.USER_ID => UserID <$> ok_or (get_i32 data) corrupted
    | Tag.USER_SECURE_ID => UserSecureID <$> ok_or (get_i64 data) corrupted
    | Tag.NO_AUTH_REQUIRED => Ok NoAuthRequired
    | Tag.USER_AUTH_TYPE => HardwareAuthenticatorType <$> ok_or (get_i32 data) corrupted
    | Tag.AUTH_TIMEOUT => AuthTimeout <$> ok_or (get_i32 data) corrupted
    | Tag.ALLOW_WHILE_ON_BODY => Ok AllowWhileOnBody
    | Tag.TRUSTED_USER_PRESENCE_REQUIRED => Ok TrustedUserPresenceRequired
    | Tag.TRUSTED_CONFIRMATION_REQUIRED => Ok TrustedConfirmationRequired
    | Tag.UNLOCKED_DEVICE_REQUIRED => Ok UnlockedDeviceRequired
    | Tag.APPLICATION_ID => ApplicationID <$> ok_or (get_bytes data) corrupted
    | Tag.APPLICATION_DATA => ApplicationData <$> ok_or (get_bytes data) corrupted
    | Tag.CREATION_DATETIME => CreationDateTime <$> ok_or (get_i64 data) corrupted
    | Tag.ORIGIN => KeyOrigin <$> ok_or (get_i32 data) corrupted
    | Tag.ROOT_OF_TRUST => RootOfTrust <$> ok_or (get_bytes data) corrupted
    | Tag.OS_VERSION => OSVersion <$> ok_or (get_i32 data) corrupted
    | Tag.OS_PATCHLEVEL => OSPatchLevel <$> ok_or (get_i32 data) corrupted
    | Tag.UNIQUE_ID => UniqueID <$> ok_or (get_bytes data) corrupted
    | Tag.ATTESTATION_CHALLENGE => AttestationChallenge <$> ok_or (get_bytes data) corrupted
    | Tag.ATTESTATION_APPLICATION_ID => AttestationApplicationID <$> ok_or (get_bytes data) corrupted
    | Tag.ATTESTATION_ID_BRAND => AttestationIdBrand <$> ok_or (get_bytes data) corrupted
    | Tag.ATTESTATION_ID_DEVICE => AttestationIdDevice <$> ok_or (get_bytes data) corrupted
    | Tag.ATTESTATION_ID_PRODUCT => AttestationIdProduct <$> ok_or (get_bytes data) corrupted
    | Tag.ATTESTATION_ID_SERIAL => AttestationIdSerial <$> ok_or (get_bytes data) corrupted
    | Tag.ATTESTATION_ID_IMEI => AttestationIdIMEI <$> ok_or (get_bytes data) corrupted
    | Tag.ATTESTATION_ID_MEID => AttestationIdMEID <$> ok_or (get_bytes data) corrupted
    | Tag.ATTESTATION_ID_MANUFACTURER => AttestationIdManufacturer <$> ok_or (get_bytes data) corrupted
    | Tag.ATTESTATION_ID_MODEL => AttestationIdModel <$> ok_or (get_bytes data) corrupted
    | Tag.VENDOR_PATCHLEVEL => VendorPatchLevel <$> ok_or (get_i32 data) corrupted
    | Tag.BOOT_PATCHLEVEL => BootPatchLevel <$> ok_or (get_i32 data) corrupted
    | Tag.ASSOCIATED_DATA => AssociatedData <$> ok_or (get_bytes data) corrupted
    | Tag.NONCE => Nonce <$> ok_or (get_bytes data) corrupted
    | Tag.MAC_LENGTH => MacLength <$> ok_or (get_i32 data) corrupted
    | Tag.RESET_SINCE_ID_ROTATION => Ok ResetSinceIdRotation
    | Tag.CONFIRMATION_TOKEN => ConfirmationToken <$> ok_or (get_bytes data) corrupted
    | Tag.CERTIFICATE_SERIAL => CertificateSerial <$> ok_or (get_bytes data) corrupted
    | Tag.CERTIFICATE_SUBJECT => CertificateSubject <$> ok_or (get_bytes data) corrupted
    | Tag.CERTIFICATE_NOT_BEFORE => CertificateNotBefore <$> ok_or (get_i64 data) corrupted
    | Tag.CERTIFICATE_NOT_AFTER => CertificateNotAfter <$> ok_or (get_i64 data) corrupted
    | Tag.MAX_BOOT_LEVEL => MaxBootLevel <$> ok_or (get_i32 data) corrupted
    end
  end.

(** [From<KmKeyParameter> for KeyParameterValue]: the field must be the one
    the tag is declared with; anything else is [Invalid]. *)
Definition from_km (kp : KmKeyParameter) : KeyParameterValue :=
  match name_of Tag.all (tag kp) with
  | None => Invalid
  | Some n =>
    match n, value kp with
    | Tag.INVALID, Field.Invalid _ => Invalid
    | Tag.PURPOSE, Field.KeyPurpose x => KeyPurpose x
    | Tag.ALGORITHM, Field.Algorithm x => Algorithm x
    | Tag.KEY_SIZE, Field.Integer x => KeySize x
    | Tag.BLOCK_MODE, Field.BlockMode x => BlockMode x
    | Tag.DIGEST, Field.Digest x => Digest x
    | Tag.PADDING, Field.PaddingMode x => PaddingMode x
    | Tag.CALLER_NONCE, Field.BoolValue _ => CallerNonce
    | Tag.MIN_MAC_LENGTH, Field.Integer x => MinMacLength x
    | Tag.EC_CURVE, Field.EcCurve x => EcCurve x
    | Tag.RSA_PUBLIC_EXPONENT, Field.LongInteger x => RSAPublicExponent x
    | Tag.INCLUDE_UNIQUE_ID, Field.BoolValue _ => IncludeUniqueID
    | Tag.BOOTLOADER_ONLY, Field.BoolValue _ => BootLoaderOnly
    | Tag.ROLLBACK_RESISTANCE, Field.BoolValue _ => RollbackResistance
    | Tag.EARLY_BOOT_ONLY, Field.BoolValue _ => EarlyBootOnly
    | Tag.ACTIVE_DATETIME, Field.DateTime x => ActiveDateTime x
    | Tag.ORIGINATION_EXPIRE_DATETIME, Field.DateTime x => OriginationExpireDateTime x
    | Tag.USAGE_EXPIRE_DATETIME, Field.DateTime x => UsageExpireDateTime x
    | Tag.MIN_SECONDS_BETWEEN_OPS, Field.Integer x => MinSecondsBetweenOps x
    | Tag.MAX_USES_PER_BOOT, Field.Integer x => MaxUsesPerBoot x
    | Tag.USAGE_COUNT_LIMIT, Field.Integer x => UsageCountLimit x
    | Tag.USER_ID, Field.Integer x => UserID x
    | Tag.USER_SECURE_ID, Field.LongInteger x => UserSecureID x
    | Tag.NO_AUTH_REQUIRED, Field.BoolValue _ => NoAuthRequired
    | Tag.USER_AUTH_TYPE, Field.HardwareAuthenticatorType x => HardwareAuthenticatorType x
    | Tag.AUTH_TIMEOUT, Field.Integer x => AuthTimeout x
    | Tag.ALLOW_WHILE_ON_BODY, Field.BoolValue _ => AllowWhileOnBody
    | Tag.TRUSTED_USER_PRESENCE_REQUIRED, Field.BoolValue _ => TrustedUserPresenceRequired
    | Tag.TRUSTED_CONFIRMATION_REQUIRED, Field.BoolValue _ => TrustedConfirmationRequired
    | Tag.UNLOCKED_DEVICE_REQUIRED, Field.BoolValue _ => UnlockedDeviceRequired
    | Tag.APPLICATION_ID, Field.Blob x => ApplicationID x
    | Tag.APPLICATION_DATA, Field.Blob x => ApplicationData x
    | Tag.CREATION_DATETIME, Field.DateTime x => CreationDateTime x
    | Tag.ORIGIN, Field.Origin x => KeyOrigin x
    | Tag.ROOT_OF_TRUST, Field.Blob x => RootOfTrust x
    | Tag.OS_VERSION, Field.Integer x => OSVersion x
    | Tag.OS_PATCHLEVEL, Field.Integer x => OSPatchLevel x
    | Tag.UNIQUE_ID, Field.Blob x => UniqueID x
    | Tag.ATTESTATION_CHALLENGE, Field.Blob x => AttestationChallenge x
    | Tag.ATTESTATION_APPLICATION_ID, Field.Blob x => AttestationApplicationID x
    | Tag.ATTESTATION_ID_BRAND, Field.Blob x => AttestationIdBrand x
    | Tag.ATTESTATION_ID_DEVICE, Field.Blob x => AttestationIdDevice x
    | Tag.ATTESTATION_ID_PRODUCT, Field.Blob x => AttestationIdProduct x
    | Tag.ATTESTATION_ID_SERIAL, Field.Blob x => AttestationIdSerial x
    | Tag.ATTESTATION_ID_IMEI, Field.Blob x => AttestationIdIMEI x
    | Tag.ATTESTATION_ID_MEID, Field.Blob x => AttestationIdMEID x
    | Tag.ATTESTATION_ID_MANUFACTURER, Field.Blob x => AttestationIdManufacturer x
    | Tag.ATTESTATION_ID_MODEL, Field.Blob x => AttestationIdModel x
    | Tag.VENDOR_PATCHLEVEL, Field.Integer x => VendorPatchLevel x
    | Tag.BOOT_PATCHLEVEL, Field.Integer x => BootPatchLevel x
    | Tag.ASSOCIATED_DATA, Field.Blob x => AssociatedData x
    | Tag.NONCE, Field.Blob x => Nonce x
    | Tag.MAC_LENGTH, Field.Integer x => MacLength x
    | Tag.RESET_SINCE_ID_ROTATION, Field.BoolValue _ => ResetSinceIdRotation
    | Tag.CONFIRMATION_TOKEN, Field.Blob x => ConfirmationToken x
    | Tag.CERTIFICATE_SERIAL, Field.Blob x => CertificateSerial x
    | Tag.CERTIFICATE_SUBJECT, Field.Blob x => CertificateSubject x
    | Tag.CERTIFICATE_NOT_BEFORE, Field.DateTime x => CertificateNotBefore x
    | Tag.CERTIFICATE_NOT_AFTER, Field.DateTime x => CertificateNotAfter x
    | Tag.MAX_BOOT_LEVEL, Field.Integer x => MaxBootLevel x
    | _, _ => Invalid
    end
  end.

(** [From<KeyParameterValue> for KmKeyParameter]; [KpDefault] fills the
    field of a variant without payload: [0] for [Invalid], [true] for a flag. *)
Definition into_km (v : KeyParameterValue) : KmKeyParameter :=
  {| tag := get_tag v;
     value :=
       match v with
       | Invalid => Field.Invalid 0
       | KeyPurpose x => Field.KeyPurpose x
       | Algorithm x => Field.Algorithm x
       | KeySize x => Field.Integer x
       | BlockMode x => Field.BlockMode x
       | Digest x => Field.Digest x
       | PaddingMode x => Field.PaddingMode x
       | CallerNonce => Field.BoolValue true
       | MinMacLength x => Field.Integer x
       | EcCurve x => Field.EcCurve x
       | RSAPublicExponent x => Field.LongInteger x
       | IncludeUniqueID => Field.BoolValue true
       | BootLoaderOnly => Field.BoolValue true
       | RollbackResistance => Field.BoolValue true
       | EarlyBootOnly => Field.BoolValue true
       | ActiveDateTime x => Field.DateTime x
       | OriginationExpireDateTime x => Field.DateTime x
       | UsageExpireDateTime x => Field.DateTime x
       | MinSecondsBetweenOps x => Field.Integer x
       | MaxUsesPerBoot x => Field.Integer x
       | UsageCountLimit x => Field.Integer x
       | UserID x => Field.Integer x
       | UserSecureID x => Field.LongInteger x
       | NoAuthRequired => Field.BoolValue true
       | HardwareAuthenticatorType x => Field.HardwareAuthenticatorType x
       | AuthTimeout x => Field.Integer x
       | AllowWhileOnBody => Field.BoolValue true
       | TrustedUserPresenceRequired => Field.BoolValue true
       | TrustedConfirmationRequired => Field.BoolValue true
       | UnlockedDeviceRequired => Field.BoolValue true
       | ApplicationID x => Field.Blob x
       | ApplicationData x => Field.Blob x
       | CreationDateTime x => Field.DateTime x
       | KeyOrigin x => Field.Origin x
       | RootOfTrust x => Field.Blob x
       | OSVersion x => Field.Integer x
       | OSPatchLevel x => Field.Integer x
       | UniqueID x => Field.Blob x
       | AttestationChallenge x => Field.Blob x
       | AttestationApplicationID x => Field.Blob x
       | AttestationIdBrand x => Field.Blob x
       | AttestationIdDevice x => Field.Blob x
       | AttestationIdProduct x => Field.Blob x
       | AttestationIdSerial x => Field.Blob x
       | AttestationIdIMEI x => Field.Blob x
       | AttestationIdMEID x => Field.Blob x
       | AttestationIdManufacturer x => Field.Blob x
       | AttestationIdModel x => Field.Blob x
       | VendorPatchLevel x => Field.Integer x
       | BootPatchLevel x => Field.Integer x
       | AssociatedData x => Field.Blob x
       | Nonce x => Field.Blob x
       | MacLength x => Field.Integer x
       | ResetSinceIdRotation => Field.BoolValue true
       | ConfirmationToken x => Field.Blob x
       | CertificateSerial x => Field.Blob x
       | CertificateSubject x => Field.Blob x
       | CertificateNotBefore x => Field.DateTime x
       | CertificateNotAfter x => Field.DateTime x
       | MaxBootLevel x => Field.Integer x
       end |}.

Lemma tag_lookup v : name_of Tag.all (get_tag v) = Some (tag_name v).
Proof. apply name_of_val, Tag.tag_all_complete. Qed.

Lemma sql_roundtrip v : kpv_wf v -> new_from_sql (get_tag v) (to_sql v) = Ok v.
Proof.
  intros Hwf. unfold new_from_sql. rewrite tag_lookup.
  destruct v; cbn [tag_name to_sql kpv_wf] in *; rewrite ?get_i32_Integer by done; done.
Qed.

(** A key parameter read back from the database is the one that was
    stored: for every variant, decoding the column [to_sql] wrote under the
    variant's own tag returns the same value, payload included. *)
Theorem key_parameter_sql_roundtrip v :
  kpv_wf v -> new_from_sql (get_tag v) (to_sql v) = Ok v.
Proof. apply sql_roundtrip. Qed.

(** Converting a key parameter to the KeyMint wire type and back is the
    identity on every variant: each variant owns its tag and its field. *)
Theorem key_parameter_km_roundtrip v : from_km (into_km v) = v.
Proof.
  unfold from_km, into_km. cbn [tag value]. rewrite tag_lookup. by destruct v.
Qed.

(** Reading a parameter from a tag and a primitive succeeds on exactly
    the pairs that name a known tag and carry the payload type that tag is
    declared with (any primitive for a tag without payload); the result has
    that tag, an unknown tag is [UnknownTag], another payload type is
    [TypeMismatch]. *)
Theorem tag_primitive_pair_total t p :
  match new_from_tag_primitive_pair t p with
  | Ok v => get_tag v = t /\
      match to_sql v with
      | Null => True
      | Integer z => p = I32 z \/ p = I64 z
      | BlobVal b => p = PVec b
      | Text _ => False
      end
  | Err UnknownTag => forall n : Tag.name, val n <> t
  | Err TypeMismatch => exists n : Tag.name, val n = t
  | Panic => False
  end.
Proof.
  unfold new_from_tag_primitive_pair.
  destruct (name_of Tag.all t) as [n|] eqn:Hn.
  - apply name_of_Some in Hn. subst t.
    destruct n, p; cbn; eauto.
  - intros n <-. by rewrite (name_of_val _ _ (Tag.tag_all_complete n)) in Hn.
Qed.

(** A stored parameter whose column has another storage class than its
    tag asks for, or an integer that overflows it, is reported as
    [VALUE_CORRUPTED]; it is never read as some other parameter: whatever
    [new_from_sql] returns for a known tag carries that very tag. *)
Theorem new_from_sql_keeps_tag (n : Tag.name) data :
  match new_from_sql (val n) data with
  | Ok v => tag_name v = n
  | Err e => e = corrupted
  | Panic => False
  end.
Proof.
  unfold new_from_sql. rewrite (name_of_val _ _ (Tag.tag_all_complete n)).
  destruct n; try done;
    destruct data; cbn; try done; by case_decide.
Qed.
End KeyParameters.

Lemma key_parameter_sql_roundtrip_witness :
  @new_from_sql aidl_published (@get_tag aidl_published (UserSecureID 77)) (to_sql (UserSecureID 77))
  = Ok (UserSecureID 77).
Proof. apply (@key_parameter_sql_roundtrip aidl_published (UserSecureID 77)). split; vm_compute; congruence. Defined.

(** ** The parameter with its security level *)

Record KeyParameter := {
  kp_value : KeyParameterValue;
  security_level : Z
}.

#[global] Instance KeyParameter_eq_dec : EqDecision KeyParameter.
Proof. solve_decision. Defined.
