(* ===== verification/Perboot.v ===== *)
(** * Auth tokens of the current boot ([database/perboot.rs], [database.rs])

    [MonotonicRawTime], [AuthTokenEntry] and the in-memory [PerbootDB], with
    the interface [AuthTokenDb] through which the enforcement code reads it.
    A [HashSet] is the list of its elements in iteration order; the order is
    unspecified, so the theorems hold for every order of that list. *)

From stdpp Require Import base list gmap strings.
From Stdlib Require Import ZArith Lia Sorting.Sorted.
From S2P Require Import Prelude Aidl.

(** [MonotonicRawTime] is an [i64] of milliseconds. *)
Definition milliseconds (t : Z) : Z := t.
Definition seconds (t : Z) : Z := Z.quot t 1000.
Definition checked_sub (t other : Z) : option Z := checked_sub_i64 t other.

Record AuthTokenEntry := {
  auth_token : HardwareAuthToken;
  time_received : Z
}.

#[global] Instance AuthTokenEntry_eq_dec : EqDecision AuthTokenEntry.
Proof. solve_decision. Defined.

Definition satisfies (e : AuthTokenEntry) (user_secure_ids : list Z) (auth_type : Z) : bool :=
  existsb (fun sid =>
    ((sid =? userId (auth_token e)) || (sid =? authenticatorId (auth_token e)))
    && negb (Z.land auth_type (authenticatorType (auth_token e)) =? 0))%bool user_secure_ids.

Definition AuthTokenEntry_challenge (e : AuthTokenEntry) : Z := challenge (auth_token e).

(** [AuthTokenId::from_auth_token]: what the set compares and hashes. *)
Definition from_auth_token (tok : HardwareAuthToken) : Z * Z * Z :=
  (userId tok, authenticatorId tok, authenticatorType tok).
Definition entry_id (e : AuthTokenEntry) : Z * Z * Z := from_auth_token (auth_token e).

(** [matches.sort_by_key(|x| x.0.time_received)], a stable sort. *)
Fixpoint insert_by_time (e : AuthTokenEntry) (l : list AuthTokenEntry) : list AuthTokenEntry :=
  match l with
  | [] => [e]
  | x :: l' => if time_received e <=? time_received x then e :: l else x :: insert_by_time e l'
  end.
Definition sort_by_time (l : list AuthTokenEntry) : list AuthTokenEntry :=
  foldr insert_by_time [] l.

Record PerbootDB := {
  auth_tokens : list AuthTokenEntry;
  last_off_body : Z
}.

Definition new : PerbootDB := {| auth_tokens := []; last_off_body := 0 |}.

(** [HashSet::replace] with equality on the token id. *)
Definition insert_auth_token_entry (db : PerbootDB) (e : AuthTokenEntry) : PerbootDB :=
  {| auth_tokens := filter (fun x => entry_id x <> entry_id e) (auth_tokens db) ++ [e];
     last_off_body := last_off_body db |}.

Definition find_auth_token_entry (db : PerbootDB) (p : AuthTokenEntry -> bool)
    : option AuthTokenEntry :=
  last (sort_by_time (filter (fun x => p x = true) (auth_tokens db))).

Definition get_last_off_body (db : PerbootDB) : Z := last_off_body db.
Definition set_last_off_body (db : PerbootDB) (t : Z) : PerbootDB :=
  {| auth_tokens := auth_tokens db; last_off_body := t |}.
Definition auth_tokens_len (db : PerbootDB) : nat := length (auth_tokens db).

(** The wrappers of [KeystoreDB]: [now] is [MonotonicRawTime::now()]. *)
Definition insert_auth_token (db : PerbootDB) (tok : HardwareAuthToken) (now : Z) : PerbootDB :=
  insert_auth_token_entry db {| auth_token := tok; time_received := now |}.
Definition db_find_auth_token_entry (db : PerbootDB) (p : AuthTokenEntry -> bool)
    : option (AuthTokenEntry * Z) :=
  (fun e => (e, get_last_off_body db)) <$> find_auth_token_entry db p.

(** ** What a client may rely on *)

(** The newest entry that matches a predicate, with the time the device was
    last off body. *)
Class AuthTokenDb (S : Type) := {
  entries : S -> list AuthTokenEntry;
  off_body : S -> Z;
  find_token : S -> (AuthTokenEntry -> bool) -> option (AuthTokenEntry * Z);
  find_token_Some : forall s p e t, find_token s p = Some (e, t) ->
    e ∈ entries s /\ p e = true /\ t = off_body s /\
    forall e', e' ∈ entries s -> p e' = true -> time_received e' <= time_received e;
  find_token_None : forall s p, find_token s p = None <->
    forall e, e ∈ entries s -> p e = false
}.

Section Sorting.
Implicit Types l : list AuthTokenEntry.

Lemma insert_by_time_perm e l : insert_by_time e l ≡ₚ e :: l.
Proof.
  induction l as [|x l IH]; simpl; [done|]. case_goal; [done|].
  rewrite IH. apply Permutation_swap.
Qed.

Lemma sort_by_time_perm l : sort_by_time l ≡ₚ l.
Proof.
  induction l as [|x l IH]; simpl; [done|]. by rewrite insert_by_time_perm, IH.
Qed.

Definition time_le (a b : AuthTokenEntry) : Prop := time_received a <= time_received b.

Lemma insert_by_time_sorted e l :
  StronglySorted time_le l -> StronglySorted time_le (insert_by_time e l).
Proof.
  unfold time_le. induction 1 as [|x l Hl IH Hx]; simpl; [by repeat constructor|].
  case_goal; bool_prop.
  - constructor; [by constructor|]. constructor; [done|].
    eapply Forall_impl; [exact Hx|]. simpl. lia.
  - constructor; [done|]. rewrite insert_by_time_perm. constructor; [lia|done].
Qed.

Lemma sort_by_time_sorted l : StronglySorted time_le (sort_by_time l).
Proof. induction l; simpl; [constructor|]. by apply insert_by_time_sorted. Qed.

Lemma sorted_last_max l e :
  StronglySorted time_le l -> last l = Some e -> Forall (fun x => time_le x e) l.
Proof.
  unfold time_le. induction 1 as [|x l Hl IH Hx]; [done|].
  destruct l as [|y l]; [by intros [= ->]; constructor|].
  rewrite last_cons_cons. intros Hlast. constructor; [|auto].
  rewrite Forall_forall in Hx. apply Hx. by apply last_Some_elem_of.
Qed.

Lemma last_sort_Some l e :
  last (sort_by_time l) = Some e -> e ∈ l /\ forall x, x ∈ l -> time_received x <= time_received e.
Proof.
  intros He. split.
  - rewrite <- (sort_by_time_perm l). by apply last_Some_elem_of.
  - intros x Hx. rewrite <- (sort_by_time_perm l) in Hx.
    pose proof (sorted_last_max _ _ (sort_by_time_sorted l) He) as Hmax.
    rewrite Forall_forall in Hmax. by apply Hmax.
Qed.

Lemma last_sort_None l : last (sort_by_time l) = None <-> l = [].
Proof.
  rewrite last_None. split; intros H.
  - apply Permutation_nil_r. by rewrite <- H, sort_by_time_perm.
  - by subst.
Qed.
End Sorting.

Section Facts.
Implicit Types db : PerbootDB.

Lemma find_entry_Some db p e : find_auth_token_entry db p = Some e ->
  e ∈ auth_tokens db /\ p e = true /\
  forall e', e' ∈ auth_tokens db -> p e' = true -> time_received e' <= time_received e.
Proof.
  intros [[Hp He]%list_elem_of_filter Hmax]%last_sort_Some. repeat split; [done..|].
  intros e' He' Hp'. apply Hmax. by apply list_elem_of_filter.
Qed.

Lemma find_entry_None db p : find_auth_token_entry db p = None <->
  forall e, e ∈ auth_tokens db -> p e = false.
Proof.
  unfold find_auth_token_entry. rewrite last_sort_None. split.
  - intros Hf e He. destruct (p e) eqn:Hp; [|done].
    assert (e ∈ filter (fun x => p x = true) (auth_tokens db)) as Hin
      by (by apply list_elem_of_filter).
    rewrite Hf in Hin. by apply not_elem_of_nil in Hin.
  - intros H. apply elem_of_nil_inv. intros x [Hp Hx]%list_elem_of_filter.
    rewrite H in Hp; done.
Qed.

(** The set never holds two tokens with one id. *)
Definition perboot_wf db : Prop := NoDup (entry_id <$> auth_tokens db).

Lemma elem_of_insert db e x :
  x ∈ auth_tokens (insert_auth_token_entry db e) <->
  x = e \/ (x ∈ auth_tokens db /\ entry_id x <> entry_id e).
Proof.
  unfold insert_auth_token_entry; simpl.
  rewrite elem_of_app, list_elem_of_filter, list_elem_of_singleton. naive_solver.
Qed.

Lemma insert_wf db e : perboot_wf db -> perboot_wf (insert_auth_token_entry db e).
Proof.
  unfold perboot_wf, insert_auth_token_entry. simpl. intros Hwf.
  rewrite fmap_app. apply NoDup_app. split; [by apply NoDup_fmap_filter|]. split.
  - intros i Hi. rewrite list_elem_of_fmap in Hi.
    destruct Hi as (x & -> & [Hne _]%list_elem_of_filter). simpl.
    by rewrite list_elem_of_singleton.
  - apply NoDup_singleton.
Qed.
End Facts.

#[global] Instance perboot_auth_token_db : AuthTokenDb PerbootDB.
Proof.
  refine {| entries := auth_tokens; off_body := get_last_off_body;
            find_token := db_find_auth_token_entry |}; unfold db_find_auth_token_entry.
  - intros db p e t H. destruct (find_auth_token_entry db p) as [e'|] eqn:Hf; [|done].
    simpl in H. simplify_eq. apply find_entry_Some in Hf as (? & ? & ?). done.
  - intros db p. rewrite <- find_entry_None. by destruct (find_auth_token_entry db p).
Defined.

(** ** The life of the token set *)

(** The operations that change the per-boot database. *)
Inductive step : PerbootDB -> PerbootDB -> Prop :=
| step_insert db tok now : step db (insert_auth_token db tok now)
| step_off_body db t : step db (set_last_off_body db t).

Definition reachable (db : PerbootDB) : Prop := rtc step new db.

Lemma step_wf db db' : perboot_wf db -> step db db' -> perboot_wf db'.
Proof. intros Hwf Hs. destruct Hs; [by apply insert_wf|exact Hwf]. Qed.

(** In every state of the per-boot database that its operations can
    reach, no two stored tokens share user id, authenticator id and
    authenticator type, so a token presented again replaces the stale one. *)
Theorem perboot_reachable_wf db : reachable db -> perboot_wf db.
Proof.
  unfold reachable. intros H.
  assert (forall a b, rtc step a b -> perboot_wf a -> perboot_wf b) as Hind.
  { induction 1; eauto using step_wf. }
  eapply Hind; [exact H|]. constructor.
Qed.

Lemma perboot_reachable_wf_witness :
  perboot_wf (insert_auth_token new
    {| challenge := 1; userId := 2; authenticatorId := 3; authenticatorType := 1;
       timestamp := 0; mac := [] |} 10).
Proof. apply perboot_reachable_wf. eapply rtc_l; [apply step_insert|apply rtc_refl]. Defined.

(** A token that was just received, no older than the stored ones, is the
    one a later search finds, whatever was stored before: if it matches the
    predicate of the search and no other stored token is newer, the search
    returns an entry received at that same time that matches. *)
Theorem insert_then_find db tok now p :
  (forall e, e ∈ auth_tokens db -> time_received e < now) ->
  p {| auth_token := tok; time_received := now |} = true ->
  find_auth_token_entry (insert_auth_token db tok now) p =
    Some {| auth_token := tok; time_received := now |}.
Proof.
  intros Hnow Hp. set (e := {| auth_token := tok; time_received := now |}) in *.
  destruct (find_auth_token_entry _ p) as [x|] eqn:Hf.
  - apply find_entry_Some in Hf as (Hx & _ & Hmax). f_equal.
    apply elem_of_insert in Hx as [->|[Hx _]]; [done|].
    apply Hnow in Hx. assert (time_received e <= time_received x); [|simpl in *; lia].
    apply Hmax; [|done]. apply elem_of_insert. by left.
  - rewrite find_entry_None in Hf. rewrite Hf in Hp; [done|]. apply elem_of_insert. by left.
Qed.

Lemma insert_then_find_witness :
  let tok := {| challenge := 1; userId := 2; authenticatorId := 3; authenticatorType := 1;
                timestamp := 0; mac := [] |} in
  find_auth_token_entry (insert_auth_token new tok 10) (fun e => satisfies e [2] 1) =
    Some {| auth_token := tok; time_received := 10 |}.
Proof. apply insert_then_find; [|done]. intros e He. by apply not_elem_of_nil in He. Defined.

(** The answer of a search does not depend on the iteration order of the
    hash set: over the same elements in another order the search finds an
    entry of the same age, and the same entry when no two stored tokens were
    received at one time. *)
Theorem find_order_independent db db' p :
  auth_tokens db ≡ₚ auth_tokens db' ->
  time_received <$> find_auth_token_entry db p = time_received <$> find_auth_token_entry db' p /\
  (NoDup (time_received <$> auth_tokens db) ->
   find_auth_token_entry db p = find_auth_token_entry db' p).
Proof.
  intros Hperm.
  destruct (find_auth_token_entry db p) as [e|] eqn:H1,
           (find_auth_token_entry db' p) as [e'|] eqn:H2.
  - apply find_entry_Some in H1 as (He & Hp & Hmax), H2 as (He' & Hp' & Hmax').
    assert (time_received e = time_received e') as Ht.
    { apply Z.le_antisymm; [apply Hmax'|apply Hmax]; auto; [by rewrite <- Hperm|by rewrite Hperm]. }
    simpl. split; [by rewrite Ht|]. intros Hnd. f_equal.
    eapply NoDup_fmap_inj; eauto. by rewrite Hperm.
  - exfalso. rewrite find_entry_None in H2. apply find_entry_Some in H1 as (He & Hp & _).
    rewrite H2 in Hp; [done|]. by rewrite <- Hperm.
  - exfalso. rewrite find_entry_None in H1. apply find_entry_Some in H2 as (He & Hp & _).
    rewrite H1 in Hp; [done|]. by rewrite Hperm.
  - done.
Qed.

Lemma find_order_independent_witness :
  let t i := {| challenge := 1; userId := i; authenticatorId := 3; authenticatorType := 1;
                timestamp := 0; mac := [] |} in
  let a := {| auth_token := t 1; time_received := 5 |} in
  let b := {| auth_token := t 2; time_received := 6 |} in
  time_received <$> find_auth_token_entry {| auth_tokens := [a; b]; last_off_body := 0 |} (fun _ => true)
  = time_received <$> find_auth_token_entry {| auth_tokens := [b; a]; last_off_body := 0 |} (fun _ => true).
Proof. apply (find_order_independent {| auth_tokens := _ |} {| auth_tokens := _ |}). apply Permutation_swap. Defined.
