(* ===== verification/BootLevelKeys.v ===== *)
(** * Boot level keys ([keystore2/src/boot_level_keys.rs])

    [BootLevelKeyCache]: the HKDF key of the current boot level and a cache of
    later ones.  [hkdf_expand] is the function of the crypto library, a
    parameter.  Mutation is explicit: an operation returns its result and the
    cache it leaves, on its error paths too. *)

From stdpp Require Import base list gmap strings.
From Stdlib Require Import ZArith Lia Ascii.
From S2P Require Import Prelude Aidl Errors.

(** A byte string literal. *)
Fixpoint bytes_of_string (s : string) : bytes :=
  match s with
  | EmptyString => []
  | String.String c s => Z.of_N (N_of_ascii c) :: bytes_of_string s
  end.

Record BootLevelKeyCache := {
  current : Z;
  cache : list bytes
}.

Definition HKDF_ADVANCE : bytes := bytes_of_string "Advance KDF one step".
Definition HKDF_AES : bytes := bytes_of_string "Generate AES-256-GCM key".
Definition HKDF_KEY_SIZE : Z := 32.
Definition AES_256_KEY_LENGTH : Z := 32.

(** [BootLevelKeyCache::new]. *)
Definition new_cache (level_zero_key : bytes) : BootLevelKeyCache :=
  {| current := 0; cache := [level_zero_key] |}.

Definition level_accessible (c : BootLevelKeyCache) (boot_level : Z) : bool :=
  ((current c <=? boot_level) && negb (bool_decide (cache c = [])))%bool.

Definition finish (c : BootLevelKeyCache) : BootLevelKeyCache :=
  {| current := current c; cache := [] |}.

Section Cache.
Variable hkdf_expand : Z -> bytes -> bytes -> result AnyError bytes.

Definition advance (k : bytes) : result AnyError bytes :=
  hkdf_expand HKDF_KEY_SIZE k HKDF_ADVANCE.

(** The loop of [get_hkdf_key]: [n] iterations that each push the successor
    of the last key; a failure keeps what was pushed before it. *)
Fixpoint grow (n : nat) (ks : list bytes) : result AnyError unit * list bytes :=
  match n with
  | O => (Ok tt, ks)
  | S n =>
    match last ks with
    | None => (Panic, ks)
    | Some highest_key =>
      match advance highest_key with
      | Ok next_key => grow n (ks ++ [next_key])
      | Err e => (Err e, ks)
      | Panic => (Panic, ks)
      end
    end
  end.

Definition get_hkdf_key (c : BootLevelKeyCache) (boot_level : Z)
    : result AnyError (option bytes) * BootLevelKeyCache :=
  if negb (level_accessible c boot_level) then (Ok None, c)
  else
    let first_not_cached := current c + Z.of_nat (length (cache c)) in
    let '(r, ks) := grow (Z.to_nat (boot_level + 1 - first_not_cached)) (cache c) in
    let c' := {| current := current c; cache := ks |} in
    match r with
    | Ok _ => (Some <$> unwrap (ks !! Z.to_nat (boot_level - current c)), c')
    | Err e => (Err e, c')
    | Panic => (Panic, c')
    end.

Definition advance_boot_level (c : BootLevelKeyCache) (new_boot_level : Z)
    : result AnyError unit * BootLevelKeyCache :=
  if negb (level_accessible c new_boot_level) then (Ok tt, c)
  else
    let '(r, c') := get_hkdf_key c new_boot_level in
    match r with
    | Ok _ => (Ok tt, {| current := new_boot_level;
                         cache := drop (Z.to_nat (new_boot_level - current c')) (cache c') |})
    | Err e => (Err e, c')
    | Panic => (Panic, c')
    end.

Definition expand_key (c : BootLevelKeyCache) (boot_level out_len : Z) (info : bytes)
    : result AnyError (option bytes) * BootLevelKeyCache :=
  let '(r, c') := get_hkdf_key c boot_level in
  (r ≫= fun ok => match ok with
                  | None => Ok None
                  | Some k => Some <$> hkdf_expand out_len k info
                  end, c').

Definition aes_key (c : BootLevelKeyCache) (boot_level : Z)
    : result AnyError (option bytes) * BootLevelKeyCache :=
  expand_key c boot_level AES_256_KEY_LENGTH HKDF_AES.

(** ** The key schedule the cache implements *)

(** The key of level [n], from the level zero key by [n] steps of HKDF. *)
Fixpoint level_key (k0 : bytes) (n : nat) : result AnyError bytes :=
  match n with
  | O => Ok k0
  | S n => level_key k0 n ≫= advance
  end.

(** "Cache entry i, if it exists, holds the HKDF key for boot level
    i + [current]" (the invariant stated in the source). *)
Definition cache_inv (k0 : bytes) (c : BootLevelKeyCache) : Prop :=
  0 <= current c /\
  forall i k, cache c !! i = Some k -> level_key k0 (Z.to_nat (current c) + i) = Ok k.

Definition ks_inv (k0 : bytes) (base : nat) (ks : list bytes) : Prop :=
  forall i k, ks !! i = Some k -> level_key k0 (base + i) = Ok k.

Lemma ks_inv_push k0 base ks k :
  ks_inv k0 base ks -> level_key k0 (base + length ks) = Ok k -> ks_inv k0 base (ks ++ [k]).
Proof.
  intros Hks Hk i x Hi. apply lookup_app_Some in Hi as [Hi|[Hlen Hi]]; [by apply Hks|].
  destruct (i - length ks)%nat eqn:Ei; [|done]. simpl in Hi. simplify_eq.
  by replace i with (length ks) by lia.
Qed.

Lemma ks_inv_last k0 base ks k :
  ks_inv k0 base ks -> last ks = Some k ->
  level_key k0 (base + length ks) = advance k.
Proof.
  intros Hks Hl. pose proof Hl as Hl'. rewrite last_lookup in Hl'.
  apply Hks in Hl'.
  assert (length ks <> 0%nat) by (destruct ks; [done|simpl; lia]).
  replace (base + length ks)%nat with (S (base + Nat.pred (length ks))) by lia.
  simpl. by rewrite Hl'.
Qed.

Lemma grow_spec k0 base n ks r ks' :
  ks_inv k0 base ks -> ks <> [] -> grow n ks = (r, ks') ->
  ks_inv k0 base ks' /\ (exists l, ks' = ks ++ l) /\
  match r with
  | Ok _ => length ks' = (length ks + n)%nat
  | Err e => exists m, level_key k0 (base + m) = Err e
  | Panic => exists m, level_key k0 (base + m) = Panic
  end.
Proof.
  revert ks. induction n as [|n IH]; intros ks Hks Hne Hg; simpl in Hg.
  - simplify_eq. split; [done|]. split; [by exists []; rewrite app_nil_r|lia].
  - destruct (last ks) as [k|] eqn:Hl; [|by apply last_None in Hl].
    pose proof (ks_inv_last _ _ _ _ Hks Hl) as Hnext.
    destruct (advance k) as [k'|e|] eqn:Ha; simplify_eq.
    + destruct (IH (ks ++ [k'])) as (Hks' & (l & ->) & Hr); [| |done|].
      { by apply ks_inv_push. }
      { by destruct ks. }
      split; [done|]. split; [exists (k' :: l); by rewrite <- app_assoc|].
      destruct r; [|done..]. rewrite !length_app in *. simpl in *. lia.
    + split; [done|]. split; [exists []; by rewrite app_nil_r|]. eauto.
    + split; [done|]. split; [exists []; by rewrite app_nil_r|]. eauto.
Qed.

Lemma level_accessible_spec c l :
  level_accessible c l = true <-> current c <= l /\ cache c <> [].
Proof.
  unfold level_accessible. rewrite andb_true_iff, negb_true_iff, bool_decide_eq_false.
  by rewrite Z.leb_le.
Qed.

(** What one call to [get_hkdf_key] does on an accessible level. *)
Lemma get_hkdf_key_spec k0 c l r c' :
  cache_inv k0 c -> level_accessible c l = true -> get_hkdf_key c l = (r, c') ->
  cache_inv k0 c' /\ current c' = current c /\ cache c' <> [] /\
  match r with
  | Ok ok => exists k, ok = Some k /\ level_key k0 (Z.to_nat l) = Ok k /\
               (Z.to_nat (l - current c) < length (cache c'))%nat
  | Err e => exists m, level_key k0 m = Err e
  | Panic => exists m, level_key k0 m = Panic
  end.
Proof.
  intros [Hc0 Hinv] Hacc. unfold get_hkdf_key. rewrite Hacc. simpl.
  apply level_accessible_spec in Hacc as [Hle Hne].
  destruct (grow _ _) as [r1 ks] eqn:Hg.
  apply (grow_spec k0 (Z.to_nat (current c))) in Hg as (Hks & (ext & ->) & Hr); [|done..].
  assert (cache c ++ ext <> []) by (by destruct (cache c)).
  destruct r1 as [u|e|]; intros; simplify_eq; simpl; (split; [by split|]); repeat split; try done.
  - rewrite length_app in Hr.
    assert (Z.to_nat (l - current c) < length (cache c ++ ext))%nat as Hlt
      by (rewrite length_app; lia).
    destruct (lookup_lt_is_Some_2 _ _ Hlt) as [k Hk].
    rewrite Hk. exists k. split; [done|]. split; [|done].
    apply Hks in Hk. by replace (Z.to_nat (current c) + Z.to_nat (l - current c))%nat
      with (Z.to_nat l) in Hk by lia.
  - destruct Hr as [m Hm]. eauto.
  - destruct Hr as [m Hm]. eauto.
Qed.

(** ** States the code can reach *)

Inductive step : BootLevelKeyCache -> BootLevelKeyCache -> Prop :=
| step_aes_key c l r c' : aes_key c l = (r, c') -> step c c'
| step_advance c l r c' : advance_boot_level c l = (r, c') -> step c c'
| step_finish c : step c (finish c).

Definition reachable (k0 : bytes) (c : BootLevelKeyCache) : Prop := rtc step (new_cache k0) c.

Lemma aes_key_inv k0 c l r c' :
  cache_inv k0 c -> aes_key c l = (r, c') -> cache_inv k0 c' /\ current c <= current c'.
Proof.
  intros Hinv. unfold aes_key, expand_key.
  destruct (level_accessible c l) eqn:Hacc.
  - destruct (get_hkdf_key c l) as [r1 c1] eqn:Hg.
    pose proof (get_hkdf_key_spec _ _ _ _ _ Hinv Hacc Hg) as (? & Hcur & _).
    intros; simplify_eq. split; [done|]. lia.
  - unfold get_hkdf_key. rewrite Hacc. simpl. intros; simplify_eq. split; [done|lia].
Qed.

Lemma advance_inv k0 c l r c' :
  cache_inv k0 c -> advance_boot_level c l = (r, c') -> cache_inv k0 c' /\ current c <= current c'.
Proof.
  intros Hinv. unfold advance_boot_level.
  destruct (level_accessible c l) eqn:Hacc; simpl; [|intros; simplify_eq; by split; [|lia]].
  destruct (get_hkdf_key c l) as [r1 c1] eqn:Hg.
  pose proof (get_hkdf_key_spec _ _ _ _ _ Hinv Hacc Hg) as ([H0 Hc1] & Hcur & _).
  apply level_accessible_spec in Hacc as [Hle _].
  destruct r1; intros; simplify_eq; (split; [|simpl; lia]); [|done..].
  split; simpl; [lia|]. intros i k Hk. rewrite lookup_drop in Hk. apply Hc1 in Hk.
  by replace (Z.to_nat l + i)%nat
    with (Z.to_nat (current c1) + (Z.to_nat (l - current c1) + i))%nat by lia.
Qed.

Lemma step_inv k0 c c' : cache_inv k0 c -> step c c' -> cache_inv k0 c' /\ current c <= current c'.
Proof.
  intros Hinv Hs. destruct Hs; [by eapply aes_key_inv|by eapply advance_inv|].
  split; [|simpl; lia]. split; [apply Hinv|done].
Qed.

Lemma new_cache_inv k0 : cache_inv k0 (new_cache k0).
Proof.
  split; [done|]. intros [|i] k Hk; [|done]. simpl in *. by simplify_eq.
Qed.

Lemma rtc_inv k0 c c' :
  rtc step c c' -> cache_inv k0 c -> cache_inv k0 c' /\ current c <= current c'.
Proof.
  induction 1 as [|x y z Hxy _ IH]; intros Hinv; [by split; [|lia]|].
  destruct (step_inv _ _ _ Hinv Hxy) as [Hy ?]. destruct (IH Hy). split; [done|lia].
Qed.

(** The cache implements the key schedule, whatever operations came
    before: in every reachable state each cached entry is the HKDF chain key
    of its level, only levels from the current one on are cached, and the
    current level never decreases. *)
Theorem boot_cache_reachable_inv k0 c c' :
  reachable k0 c -> rtc step c c' ->
  cache_inv k0 c' /\ current c <= current c'.
Proof.
  intros Hr Hs. apply (rtc_inv k0) in Hr as [Hinv _]; [|apply new_cache_inv].
  by eapply rtc_inv.
Qed.

Lemma aes_key_spec k0 c l r c' :
  reachable k0 c -> aes_key c l = (r, c') ->
  if level_accessible c l then
    match r with
    | Ok ok => exists k a, level_key k0 (Z.to_nat l) = Ok k /\
                 hkdf_expand AES_256_KEY_LENGTH k HKDF_AES = Ok a /\ ok = Some a
    | Err e => (exists m, level_key k0 m = Err e) \/
               (exists k, hkdf_expand AES_256_KEY_LENGTH k HKDF_AES = Err e)
    | Panic => (exists m, level_key k0 m = Panic) \/
               (exists k, hkdf_expand AES_256_KEY_LENGTH k HKDF_AES = Panic)
    end
  else r = Ok None /\ c' = c.
Proof.
  intros Hr Ha. apply (rtc_inv k0) in Hr as [Hinv _]; [|apply new_cache_inv].
  unfold aes_key, expand_key in Ha. destruct (level_accessible c l) eqn:Hacc.
  - destruct (get_hkdf_key c l) as [r1 c1] eqn:Hg.
    pose proof (get_hkdf_key_spec _ _ _ _ _ Hinv Hacc Hg) as (_ & _ & _ & Hk).
    destruct r1 as [ok|e|]; simpl in Ha; simplify_eq; [|by left..].
    destruct Hk as (k & -> & Hk & _).
    destruct (hkdf_expand _ k _) eqn:Hx; simpl; eauto.
  - unfold get_hkdf_key in Ha. rewrite Hacc in Ha. simpl in Ha. by simplify_eq.
Qed.


(** A level key handed out does not depend on the history of the cache:
    in any reachable state [aes_key] of an accessible level, if it answers,
    returns the expansion of the level's chain key, and if it fails, the key
    schedule or the final expansion itself fails; an inaccessible level
    (below the current one, or after [finish]) gets [None] and changes
    nothing. *)
Theorem aes_key_functional k0 c l r c' :
  reachable k0 c -> aes_key c l = (r, c') ->
  if level_accessible c l then
    match r with
    | Ok ok => exists k a, level_key k0 (Z.to_nat l) = Ok k /\
                 hkdf_expand AES_256_KEY_LENGTH k HKDF_AES = Ok a /\ ok = Some a
    | Err e => (exists m, level_key k0 m = Err e) \/
               (exists k, hkdf_expand AES_256_KEY_LENGTH k HKDF_AES = Err e)
    | Panic => (exists m, level_key k0 m = Panic) \/
               (exists k, hkdf_expand AES_256_KEY_LENGTH k HKDF_AES = Panic)
    end
  else r = Ok None /\ c' = c.
Proof. apply aes_key_spec. Qed.

(** With an HKDF that does not fail, every accessible level has its key:
    the cache never answers an accessible level with an error, a panic or
    [None], so the two [unwrap]s of [get_hkdf_key] hold. *)
Theorem aes_key_total k0 c l :
  (forall n k i, exists a, hkdf_expand n k i = Ok a) ->
  reachable k0 c -> level_accessible c l = true ->
  exists a, fst (aes_key c l) = Ok (Some a).
Proof.
  intros Hok Hr Hacc. destruct (aes_key c l) as [r c'] eqn:Ha.
  pose proof (aes_key_spec _ _ _ _ _ Hr Ha) as H. rewrite Hacc in H.
  assert (forall m, exists k, level_key k0 m = Ok k) as Hlk.
  { induction m as [|m [k IH]]; simpl; [eauto|]. rewrite IH. apply Hok. }
  destruct r as [ok|e|]; simpl.
  - destruct H as (k & a & _ & _ & ->). eauto.
  - destruct H as [[m Hm]|[k Hk]];
      [destruct (Hlk m); congruence|by destruct (Hok AES_256_KEY_LENGTH k HKDF_AES) as [a ?]; congruence].
  - destruct H as [[m Hm]|[k Hk]];
      [destruct (Hlk m); congruence|by destruct (Hok AES_256_KEY_LENGTH k HKDF_AES) as [a ?]; congruence].
Qed.

Lemma expired_forever k0 c c' l :
  reachable k0 c -> level_accessible c l = false -> rtc step c c' -> level_accessible c' l = false.
Proof.
  intros Hr Hacc Hs. induction Hs as [|x y z Hxy Hs IH]; [done|].
  apply IH; [by eapply rtc_r|]. apply not_true_iff_false.
  apply not_true_iff_false in Hacc. rewrite level_accessible_spec in Hacc |- *.
  intros [Hle Hne]. apply Hacc.
  apply (rtc_inv k0) in Hr as [Hinv _]; [|apply new_cache_inv].
  pose proof (step_inv _ _ _ Hinv Hxy) as [_ Hcur]. split; [lia|].
  intros He. apply Hne. clear -He Hxy.
  assert (forall m, level_accessible x m = false) as Hx.
  { intros m. unfold level_accessible. rewrite He. by rewrite andb_false_r. }
  destruct Hxy as [x m r y Ha|x m r y Ha|x]; [| |done].
  - unfold aes_key, expand_key, get_hkdf_key in Ha. rewrite Hx in Ha. simpl in Ha. by simplify_eq.
  - unfold advance_boot_level in Ha. rewrite Hx in Ha. simpl in Ha. by simplify_eq.
Qed.

(** A boot level that has passed stays passed: once a level is not
    accessible, no sequence of operations makes its key available again, in
    particular not after [finish]. *)
Theorem boot_level_no_return k0 c c' l :
  reachable k0 c -> level_accessible c l = false -> rtc step c c' ->
  fst (aes_key c' l) = Ok None.
Proof.
  intros Hr Hacc Hs. pose proof (expired_forever _ _ _ _ Hr Hacc Hs) as H.
  unfold aes_key, expand_key, get_hkdf_key. by rewrite H.
Qed.

(** [advance_boot_level] to an accessible level makes that level the
    first accessible one: when it succeeds every lower level is locked out
    and every level from it on is still available. *)
Theorem advance_boot_level_spec k0 c l c' :
  reachable k0 c -> level_accessible c l = true -> advance_boot_level c l = (Ok tt, c') ->
  forall m, level_accessible c' m = (l <=? m).
Proof.
  intros Hr Hacc Ha m. apply (rtc_inv k0) in Hr as [Hinv _]; [|apply new_cache_inv].
  unfold advance_boot_level in Ha. rewrite Hacc in Ha. simpl in Ha.
  destruct (get_hkdf_key c l) as [r1 c1] eqn:Hg.
  pose proof (get_hkdf_key_spec _ _ _ _ _ Hinv Hacc Hg) as (_ & Hcur & _ & Hk).
  destruct r1; simplify_eq. destruct Hk as (k & _ & _ & Hlen). rewrite <- Hcur in Hlen.
  unfold level_accessible. simpl. rewrite bool_decide_eq_false_2; [by rewrite andb_true_r|].
  intros Hd. apply (f_equal length) in Hd. rewrite length_drop in Hd. simpl in Hd. lia.
Qed.
End Cache.

(** ** Witnesses: an HKDF that prefixes the key with the requested length *)

Definition toy_hkdf (n : Z) (k i : bytes) : result AnyError bytes := Ok (n :: k ++ firstn 1 i).

Lemma boot_cache_reachable_inv_witness :
  cache_inv toy_hkdf [7] (snd (advance_boot_level toy_hkdf (new_cache [7]) 2)) /\
  current (new_cache [7]) <= 2.
Proof.
  apply (boot_cache_reachable_inv toy_hkdf [7] (new_cache [7])
           (snd (advance_boot_level toy_hkdf (new_cache [7]) 2))); [apply rtc_refl|].
  apply rtc_once. eapply step_advance. apply surjective_pairing.
Defined.

Lemma aes_key_functional_witness :
  exists k a, level_key toy_hkdf [7] (Z.to_nat 2) = Ok k /\
    toy_hkdf AES_256_KEY_LENGTH k HKDF_AES = Ok a /\
    Some [32; 32; 32; 7; 65; 65; 71] = Some a.
Proof.
  apply (aes_key_functional toy_hkdf [7] (new_cache [7]) 2 (Ok (Some [32; 32; 32; 7; 65; 65; 71]))
           (snd (aes_key toy_hkdf (new_cache [7]) 2))); [apply rtc_refl|reflexivity].
Defined.

Lemma aes_key_total_witness : exists a, fst (aes_key toy_hkdf (new_cache [7]) 3) = Ok (Some a).
Proof. apply (aes_key_total toy_hkdf [7]); [intros; eexists; reflexivity|apply rtc_refl|reflexivity]. Defined.

Lemma boot_level_no_return_witness :
  fst (aes_key toy_hkdf (snd (advance_boot_level toy_hkdf (finish (new_cache [7])) 4)) 0) = Ok None.
Proof.
  apply (boot_level_no_return toy_hkdf [7] (finish (new_cache [7]))).
  - apply rtc_once. apply step_finish.
  - reflexivity.
  - apply rtc_once. eapply step_advance. apply surjective_pairing.
Defined.

Lemma advance_boot_level_spec_witness :
  level_accessible (snd (advance_boot_level toy_hkdf (new_cache [7]) 2)) 1 = false.
Proof.
  apply (advance_boot_level_spec toy_hkdf [7] (new_cache [7]) 2
           (snd (advance_boot_level toy_hkdf (new_cache [7]) 2)));
    [apply rtc_refl|reflexivity|reflexivity].
Defined.
