(* ===== verification/Permission.v ===== *)
(** * Access control ([keystore2/src/permission.rs])

    [KeyPerm], [KeystorePerm], [KeyPermSet] and the three permission checks.
    The SELinux calls ([getcon], [check_access] and the lookup of a key
    namespace's context) belong to another library: they are parameters, and
    nothing is assumed about them. *)

From stdpp Require Import base list gmap strings.
From Stdlib Require Import ZArith Lia Btauto.
From S2P Require Import Prelude Aidl Errors.

Set Default Proof Using "Type".

Module KeystorePerm.
Inductive name :=
| None | AddAuth | ClearNs | GetState | List | Lock | Reset | Unlock | ChangeUser
| ChangePassword | ClearUID | GetAuthToken | EarlyBootEnded | ReportOffBody
| PullMetrics | DeleteAllKeys.

(** The discriminants of the enum. *)
Definition to_i32 (p : name) : Z :=
  match p with
  | None => 0 | AddAuth => 1 | ClearNs => 2 | GetState => 4 | List => 8
  | Lock => 0x10 | Reset => 0x20 | Unlock => 0x40 | ChangeUser => 0x80
  | ChangePassword => 0x100 | ClearUID => 0x200 | GetAuthToken => 0x400
  | EarlyBootEnded => 0x800 | ReportOffBody => 0x1000 | PullMetrics => 0x2000
  | DeleteAllKeys => 0x4000
  end.

Definition from_i32 (z : Z) : name :=
  match z with
  | 1 => AddAuth | 2 => ClearNs | 4 => GetState | 8 => List
  | 0x10 => Lock | 0x20 => Reset | 0x40 => Unlock | 0x80 => ChangeUser
  | 0x100 => ChangePassword | 0x200 => ClearUID | 0x400 => GetAuthToken
  | 0x800 => EarlyBootEnded | 0x1000 => ReportOffBody | 0x2000 => PullMetrics
  | 0x4000 => DeleteAllKeys
  | _ => None
  end.

Definition to_selinux (p : name) : string :=
  match p with
  | None => "none" | AddAuth => "add_auth" | ClearNs => "clear_ns"
  | GetState => "get_state" | List => "list" | Lock => "lock" | Reset => "reset"
  | Unlock => "unlock" | ChangeUser => "change_user"
  | ChangePassword => "change_password" | ClearUID => "clear_uid"
  | GetAuthToken => "get_auth_token" | EarlyBootEnded => "early_boot_ended"
  | ReportOffBody => "report_off_body" | PullMetrics => "pull_metrics"
  | DeleteAllKeys => "delete_all_keys"
  end.

Lemma from_to p : from_i32 (to_i32 p) = p.
Proof. by destruct p. Qed.
End KeystorePerm.

(** The SELinux name of a key permission, from the table of the
    [implement_permission_aidl!] invocation. *)
Definition selinux_name (n : KeyPermission.name) : string :=
  match n with
  | KeyPermission.NONE => "none"
  | KeyPermission.CONVERT_STORAGE_KEY_TO_EPHEMERAL => "convert_storage_key_to_ephemeral"
  | KeyPermission.DELETE => "delete"
  | KeyPermission.GEN_UNIQUE_ID => "gen_unique_id"
  | KeyPermission.GET_INFO => "get_info"
  | KeyPermission.GRANT => "grant"
  | KeyPermission.MANAGE_BLOB => "manage_blob"
  | KeyPermission.REBIND => "rebind"
  | KeyPermission.REQ_FORCED_OP => "req_forced_op"
  | KeyPermission.UPDATE => "update"
  | KeyPermission.USE => "use"
  | KeyPermission.USE_DEV_ID => "use_dev_id"
  end.

(** [1 << pos] on an [i32]. *)
Definition bit_at (pos : nat) : Z := as_i32 (2 ^ Z.of_nat pos).

(** [self.includes(other)]. *)
Definition includes (self other : Z) : bool := Z.land self other =? other.

Section Permission.
Context {AI : Aidl}.

(** [KeyPerm::from(KeyPermission(p))]: an unknown value is [NONE]. *)
Definition KeyPerm_from (p : Z) : Z :=
  match name_of KeyPermission.all p with
  | Some n => val n
  | None => val KeyPermission.NONE
  end.

Definition to_selinux (p : Z) : string :=
  match name_of KeyPermission.all p with
  | Some n => selinux_name n
  | None => "none"
  end.

(** [perm::IntoIter::next]: from position [pos], [n] positions before 32. *)
Fixpoint next (v : Z) (n : nat) (pos : nat) : option (Z * nat) :=
  match n with
  | O => None
  | S n =>
    let p := Z.land v (bit_at pos) in
    if negb (p =? 0) then Some (KeyPerm_from p, S pos) else next v n (S pos)
  end.

(** Draining the iterator: at most 32 items. *)
Fixpoint drain (fuel : nat) (v : Z) (pos : nat) : list Z :=
  match fuel with
  | O => []
  | S fuel =>
    match next v (32 - pos) pos with
    | None => []
    | Some (p, pos') => p :: drain fuel v pos'
    end
  end.
Definition into_iter (v : Z) : list Z := drain 32 v 0.

Context {Ctx : Type}.
Variable getcon : result AnyError Ctx.
Variable lookup_keystore2_key_context : Z -> result AnyError Ctx.
Variable check_access : Ctx -> Ctx -> string -> string -> result AnyError unit.

Definition check_keystore_permission (caller_ctx : Ctx) (p : KeystorePerm.name)
    : result AnyError unit :=
  target_context ← getcon;
  check_access caller_ctx target_context "keystore2" (KeystorePerm.to_selinux p).

Definition check_grant_permission (caller_ctx : Ctx) (access_vec : Z) (key : KeyDescriptor)
    : result AnyError unit :=
  target_context ←
    (if domain key =? val Domain.APP then getcon
     else if domain key =? val Domain.SELINUX then lookup_keystore2_key_context (nspace key)
     else Err (KsError sys));
  _ ← check_access caller_ctx target_context "keystore2_key" "grant";
  if includes access_vec (val KeyPermission.GRANT) then Err (SeError PermissionDenied)
  else
    try_for_each (fun p => check_access caller_ctx target_context "keystore2_key" (to_selinux p))
      (into_iter access_vec).

Definition check_key_permission (caller_uid : Z) (caller_ctx : Ctx) (p : Z)
    (key : KeyDescriptor) (access_vector : option Z) : result AnyError unit :=
  if match access_vector with Some av => includes av p | None => false end then Ok tt
  else
    target_context ←
      (if domain key =? val Domain.APP then
         if negb (caller_uid =? nspace key) then Err (SeError PermissionDenied) else getcon
       else if domain key =? val Domain.SELINUX then lookup_keystore2_key_context (nspace key)
       else if domain key =? val Domain.GRANT then
         match access_vector with
         | Some _ => Err (SeError PermissionDenied)
         | None => Err (KsError sys)
         end
       else if domain key =? val Domain.KEY_ID then Err (KsError sys)
       else if domain key =? val Domain.BLOB then
         tctx ← lookup_keystore2_key_context (nspace key);
         _ ← check_access caller_ctx tctx "keystore2_key"
               (to_selinux (val KeyPermission.MANAGE_BLOB));
         Ok tctx
       else Err (KsError sys));
    check_access caller_ctx target_context "keystore2_key" (to_selinux p).

(** ** Lemmas *)

Lemma bit_at_spec pos : (pos < 32)%nat ->
  forall k, 0 <= k < 32 -> Z.testbit (bit_at pos) k = bool_decide (k = Z.of_nat pos).
Proof.
  intros Hpos k Hk. unfold bit_at.
  assert (Z.testbit (as_i32 (2 ^ Z.of_nat pos)) k = Z.testbit (2 ^ Z.of_nat pos) k) as ->.
  { unfold as_i32. destruct (decide (pos = 31%nat)) as [->|].
    - change ((2 ^ Z.of_nat 31 + 2 ^ 31) mod 2 ^ 32 - 2 ^ 31) with (- 2^31).
      rewrite Z.bits_opp by lia. change (Z.pred (2^31)) with (Z.ones 31).
      destruct (decide (k = 31)) as [->|]; [by vm_compute|].
      rewrite Z.ones_spec_low by lia. simpl. symmetry. apply Z.pow2_bits_false. lia.
    - f_equal. rewrite Z.mod_small; [lia|].
      assert (2 ^ Z.of_nat pos <= 2^30) by (apply Z.pow_le_mono_r; lia).
      assert (0 < 2 ^ Z.of_nat pos) by (apply Z.pow_pos_nonneg; lia). lia. }
  destruct (decide (k = Z.of_nat pos)) as [->|Hne].
  - rewrite Z.pow2_bits_true by lia. by rewrite bool_decide_eq_true_2.
  - rewrite Z.pow2_bits_false by lia. by rewrite bool_decide_eq_false_2.
Qed.

(** The bits of an [i32] above 31 are copies of its sign bit. *)
Lemma i32_high_bits z k : i32_range z -> 31 <= k -> Z.testbit z k = Z.testbit z 31.
Proof.
  unfold i32_range. intros Hz Hk. destruct (decide (0 <= z)).
  - rewrite !Z.bits_above_log2; try done; try lia.
    + destruct (decide (z = 0)) as [->|]; [simpl; lia|]. apply Z.log2_lt_pow2; lia.
    + destruct (decide (z = 0)) as [->|]; [simpl; lia|].
      assert (Z.log2 z < 31) by (apply Z.log2_lt_pow2; lia). lia.
  - rewrite !Z.bits_above_log2_neg; try done; try lia.
    + destruct (decide (z = -1)) as [->|]; [simpl; lia|].
      apply Z.log2_lt_pow2; lia.
    + destruct (decide (z = -1)) as [->|]; [simpl; lia|].
      assert (Z.log2 (Z.pred (- z)) < 31) by (apply Z.log2_lt_pow2; lia). lia.
Qed.

(** [includes] is inclusion of bits, sign bit included. *)
Lemma includes_spec a b : i32_range a -> i32_range b ->
  includes a b = true <->
  forall k, 0 <= k < 32 -> Z.testbit b k = true -> Z.testbit a k = true.
Proof.
  intros Ha Hb. unfold includes. rewrite Z.eqb_eq. split.
  - intros H k Hk Hbit. rewrite <- H, Z.land_spec in Hbit. by apply andb_true_iff in Hbit as [? _].
  - intros H. apply Z.bits_inj'. intros k Hk. rewrite Z.land_spec.
    destruct (Z.testbit b k) eqn:Hbk; [|by rewrite andb_false_r]. rewrite andb_true_r.
    destruct (decide (k < 32)); [apply H; [lia|done]|].
    rewrite (i32_high_bits a) by (done || lia). apply H; [lia|].
    by rewrite <- (i32_high_bits b k) by (done || lia).
Qed.

Lemma land_bit_at_nonzero v pos : (pos < 32)%nat -> i32_range v ->
  Z.land v (bit_at pos) <> 0 <-> Z.testbit v (Z.of_nat pos) = true.
Proof.
  intros Hpos Hv. split.
  - intros Hne. destruct (Z.testbit v (Z.of_nat pos)) eqn:Hb; [done|]. destruct Hne.
    apply Z.bits_inj_0. intros k. destruct (decide (0 <= k)); [|by rewrite Z.testbit_neg_r by lia].
    rewrite Z.land_spec. destruct (decide (k < 32)).
    + rewrite bit_at_spec by lia. case_bool_decide; subst; [by rewrite Hb|apply andb_false_r].
    + rewrite (i32_high_bits v) by (done || lia). destruct (decide (pos = 31%nat)) as [->|].
      * change (Z.of_nat 31) with 31 in Hb. by rewrite Hb.
      * unfold bit_at, as_i32. rewrite Z.mod_small.
        2:{ assert (2 ^ Z.of_nat pos <= 2^30) by (apply Z.pow_le_mono_r; lia).
            assert (0 < 2 ^ Z.of_nat pos) by (apply Z.pow_pos_nonneg; lia). lia. }
        replace (2 ^ Z.of_nat pos + 2 ^ 31 - 2 ^ 31) with (2 ^ Z.of_nat pos) by lia.
        rewrite Z.pow2_bits_false by lia. apply andb_false_r.
  - intros Hb Hz. apply (f_equal (fun x => Z.testbit x (Z.of_nat pos))) in Hz.
    rewrite Z.land_spec, Hb, bit_at_spec, bool_decide_eq_true_2, Z.bits_0 in Hz by lia. done.
Qed.

(** [into_iter] visits the set bits in ascending order. *)
Definition bits_from (v : Z) (pos n : nat) : list Z :=
  (fun p => KeyPerm_from (Z.land v (bit_at p))) <$>
    filter (fun p => Z.land v (bit_at p) <> 0) (seq pos n).

Lemma next_spec v n pos :
  match next v n pos with
  | None => bits_from v pos n = []
  | Some (p, pos') => (pos < pos' <= pos + n)%nat /\
      bits_from v pos n = p :: bits_from v pos' (pos + n - pos')
  end.
Proof.
  revert pos. induction n as [|n IH]; intros pos; simpl; [done|].
  unfold bits_from. simpl. rewrite filter_cons.
  destruct (Z.eqb_spec (Z.land v (bit_at pos)) 0) as [H0|H0]; simpl.
  - rewrite decide_False by (intros Hn; by apply Hn). specialize (IH (S pos)).
    destruct (next v n (S pos)) as [[p pos']|]; [|done].
    destruct IH as [? IH]. split; [lia|]. fold (bits_from v (S pos) n).
    rewrite IH. by replace (pos + S n - pos')%nat with (S pos + n - pos')%nat by lia.
  - rewrite decide_True by done. simpl. split; [lia|]. f_equal.
    replace (pos + S n - S pos)%nat with n by lia. done.
Qed.

Lemma drain_spec v fuel pos : (32 - pos <= fuel)%nat ->
  drain fuel v pos = bits_from v pos (32 - pos).
Proof.
  revert pos. induction fuel as [|fuel IH]; intros pos Hf; simpl.
  - by replace (32 - pos)%nat with 0%nat by lia.
  - pose proof (next_spec v (32 - pos) pos) as Hn.
    destruct (next v (32 - pos) pos) as [[p pos']|]; [|done].
    destruct Hn as [Hlt ->]. f_equal. rewrite IH by lia. f_equal. lia.
Qed.

Lemma into_iter_spec v : into_iter v = bits_from v 0 32.
Proof. unfold into_iter. by rewrite drain_spec by lia. Qed.

Lemma perm_i32 (n : KeyPermission.name) : i32_range (val n).
Proof. apply val_i32. Qed.

(** A permission other than [NONE] as a bit position. *)
Lemma perm_pos n : n <> KeyPermission.NONE ->
  exists pos, (pos < 32)%nat /\ val n = bit_at pos /\
    forall v, i32_range v -> includes v (val n) = Z.testbit v (Z.of_nat pos).
Proof.
  intros Hn. destruct (permission_bit n Hn) as (k & Hk & Hv).
  exists (Z.to_nat k). split; [lia|].
  assert (val n = bit_at (Z.to_nat k)) as Hbit.
  { rewrite Hv. unfold bit_at, as_i32. rewrite Z2Nat.id by lia.
    assert (2 ^ k <= 2^30) by (apply Z.pow_le_mono_r; lia).
    assert (0 < 2 ^ k) by (apply Z.pow_pos_nonneg; lia).
    rewrite Z.mod_small; lia. }
  split; [done|]. intros v Hr. rewrite Z2Nat.id by lia. unfold includes. rewrite Hv.
  destruct (Z.testbit v k) eqn:Hb; [apply Z.eqb_eq|apply Z.eqb_neq].
  - apply Z.bits_inj'. intros i Hi. rewrite Z.land_spec.
    destruct (decide (i = k)) as [->|].
    + by rewrite Hb, Z.pow2_bits_true by lia.
    + by rewrite Z.pow2_bits_false, andb_false_r by lia.
  - intros H. apply (f_equal (fun x => Z.testbit x k)) in H.
    rewrite Z.land_spec, Hb, Z.pow2_bits_true in H by lia. done.
Qed.

Lemma land_pow_bit v pos : (pos < 32)%nat -> i32_range v ->
  Z.testbit v (Z.of_nat pos) = true -> (pos < 31)%nat -> Z.land v (bit_at pos) = bit_at pos.
Proof.
  intros Hpos Hv Hb Hlt. apply Z.bits_inj'. intros i Hi. rewrite Z.land_spec.
  destruct (decide (i < 32)).
  - rewrite bit_at_spec by lia. case_bool_decide; subst; [by rewrite Hb|apply andb_false_r].
  - assert (i32_range (bit_at pos)) as Hr.
    { unfold bit_at, as_i32, i32_range. assert (2 ^ Z.of_nat pos <= 2^30) by (apply Z.pow_le_mono_r; lia).
      assert (0 < 2 ^ Z.of_nat pos) by (apply Z.pow_pos_nonneg; lia). rewrite Z.mod_small; lia. }
    rewrite (i32_high_bits (bit_at pos)) by (done || lia).
    rewrite bit_at_spec by lia. rewrite bool_decide_eq_false_2 by lia. apply andb_false_r.
Qed.

Lemma elem_of_into_iter v n :
  i32_range v -> n <> KeyPermission.NONE ->
  val n ∈ into_iter v <-> includes v (val n) = true.
Proof.
  intros Hv Hn. rewrite into_iter_spec. unfold bits_from.
  destruct (perm_pos n Hn) as (pos & Hpos & Hval & Hinc). rewrite Hinc by done.
  rewrite list_elem_of_fmap. split.
  - intros (p & Hp & [Hnz Hin]%list_elem_of_filter). apply elem_of_seq in Hin.
    unfold KeyPerm_from in Hp. destruct (name_of KeyPermission.all _) as [m|] eqn:Hm.
    + apply val_inj in Hp as <-. apply name_of_Some in Hm.
      rewrite <- Hinc by done. unfold includes. rewrite Hm. apply Z.eqb_eq.
      rewrite Z.land_assoc, Z.land_diag. done.
    + apply val_inj in Hp. done.
  - intros Hb. exists pos.
    assert (pos < 31)%nat as Hlt.
    { destruct (decide (pos = 31%nat)) as [->|]; [|lia]. exfalso.
      destruct (permission_bit n Hn) as (k & Hk & Hv2). rewrite Hv2 in Hval.
      assert (0 < 2 ^ k) by (apply Z.pow_pos_nonneg; lia).
      change (bit_at 31) with (- 2^31) in Hval. lia. }
    split.
    + unfold KeyPerm_from. rewrite (land_pow_bit v pos) by done. rewrite <- Hval.
      by rewrite (name_of_val _ n (KeyPermission.permission_all_complete n)).
    + apply list_elem_of_filter. split; [by apply land_bit_at_nonzero|]. apply elem_of_seq. lia.
Qed.

(** Iterating a permission set visits exactly its permissions: a key
    permission other than [NONE] is produced by the iterator if and only if
    the set includes it. *)
Theorem into_iter_includes v n :
  i32_range v -> n <> KeyPermission.NONE ->
  val n ∈ into_iter v <-> includes v (val n) = true.
Proof. apply elem_of_into_iter. Qed.

Lemma to_selinux_val (n : KeyPermission.name) : to_selinux (val n) = selinux_name n.
Proof. unfold to_selinux. by rewrite (name_of_val _ n (KeyPermission.permission_all_complete n)). Qed.

(** The context a key's domain is checked against in a grant. *)
Definition grant_target (key : KeyDescriptor) : result AnyError Ctx :=
  if domain key =? val Domain.APP then getcon
  else if domain key =? val Domain.SELINUX then lookup_keystore2_key_context (nspace key)
  else Err (KsError sys).

Lemma check_grant_Ok caller_ctx av key :
  check_grant_permission caller_ctx av key = Ok tt ->
  exists tctx, grant_target key = Ok tctx /\
    check_access caller_ctx tctx "keystore2_key" "grant" = Ok tt /\
    includes av (val KeyPermission.GRANT) = false /\
    Forall (fun p => check_access caller_ctx tctx "keystore2_key" (to_selinux p) = Ok tt)
      (into_iter av).
Proof.
  unfold check_grant_permission. fold (grant_target key).
  rewrite bind_Ok. intros (tctx & Ht & H). exists tctx. split; [done|].
  rewrite bind_Ok in H. destruct H as ([] & Hg & H). split; [done|].
  case_in H; [done|]. split; [done|]. by apply try_for_each_Ok.
Qed.

(** Only what one holds can be granted, and never the right to grant.
    If [check_grant_permission] accepts, then the key is addressed by
    [Domain::APP] or [Domain::SELINUX], SELinux allowed the caller [grant]
    on the key's target context, the granted set does not include [GRANT],
    and SELinux allowed the caller every single permission in the set. *)
Theorem grant_only_what_is_held caller_ctx av key :
  i32_range av -> check_grant_permission caller_ctx av key = Ok tt ->
  (domain key = val Domain.APP \/ domain key = val Domain.SELINUX) /\
  exists tctx, grant_target key = Ok tctx /\
    check_access caller_ctx tctx "keystore2_key" "grant" = Ok tt /\
    includes av (val KeyPermission.GRANT) = false /\
    forall n, n <> KeyPermission.NONE -> includes av (val n) = true ->
      check_access caller_ctx tctx "keystore2_key" (selinux_name n) = Ok tt.
Proof.
  intros Hr (tctx & Ht & Hg & Hng & Hall)%check_grant_Ok. split.
  { unfold grant_target in Ht. repeat case_in Ht; bool_prop; eauto; done. }
  exists tctx. repeat split; [done..|]. intros n Hn Hinc.
  rewrite Forall_forall in Hall. rewrite <- to_selinux_val. apply Hall.
  by apply elem_of_into_iter.
Qed.

(** An app key belongs to one app.  For a key in [Domain::APP] whose
    namespace is not the caller's uid, the check denies every permission
    that the caller was not granted, whatever SELinux says; with a grant,
    exactly the granted permissions pass. *)
Theorem app_isolation caller_uid caller_ctx p key access_vector :
  domain key = val Domain.APP -> nspace key <> caller_uid ->
  check_key_permission caller_uid caller_ctx p key access_vector =
    if match access_vector with Some av => includes av p | None => false end
    then Ok tt else Err (SeError PermissionDenied).
Proof.
  intros Hd Hn. unfold check_key_permission. rewrite Hd, Z.eqb_refl.
  replace (caller_uid =? nspace key) with false by (symmetry; apply Z.eqb_neq; congruence).
  destruct access_vector as [av|]; [by destruct (includes av p)|done].
Qed.

(** A key reached through a grant is usable for exactly the granted
    permissions: the check passes if and only if the access vector of the
    grant includes the requested permission; SELinux is not asked.  A grant
    descriptor without an access vector is a system error. *)
Theorem grant_access_is_the_vector caller_uid caller_ctx p key access_vector :
  domain key = val Domain.GRANT ->
  check_key_permission caller_uid caller_ctx p key access_vector =
    match access_vector with
    | Some av => if includes av p then Ok tt else Err (SeError PermissionDenied)
    | None => Err (KsError sys)
    end.
Proof.
  intros Hd. unfold check_key_permission. destruct access_vector as [av|].
  - destruct (includes av p); [done|]. rewrite Hd, !val_eqb. done.
  - rewrite Hd, !val_eqb. done.
Qed.

(** A caller who manages its own blobs needs two permissions: for
    [Domain::BLOB] without a grant the check passes only if SELinux allows
    both [manage_blob] and the requested permission on the context of the
    key's namespace. *)
Theorem blob_needs_manage_blob caller_uid caller_ctx p key :
  domain key = val Domain.BLOB ->
  check_key_permission caller_uid caller_ctx p key None = Ok tt <->
  exists tctx, lookup_keystore2_key_context (nspace key) = Ok tctx /\
    check_access caller_ctx tctx "keystore2_key" "manage_blob" = Ok tt /\
    check_access caller_ctx tctx "keystore2_key" (to_selinux p) = Ok tt.
Proof.
  intros Hd. unfold check_key_permission. rewrite Hd, !val_eqb. simpl.
  rewrite to_selinux_val. simpl.
  destruct (lookup_keystore2_key_context _) as [tctx|e|]; simpl; [|naive_solver..].
  destruct (check_access caller_ctx tctx "keystore2_key" "manage_blob") as [[]|e|] eqn:E; simpl.
  - naive_solver.
  - split; [done|]. intros (t & ? & ? & ?). simplify_eq. congruence.
  - split; [done|]. intros (t & ? & ? & ?). simplify_eq. congruence.
Qed.
End Permission.

(** ** Witnesses: an SELinux policy that denies [delete] *)

Definition toy_check_access (_ _ : nat) (_ p : string) : result AnyError unit :=
  if decide (p = "delete"%string) then Err (SeError PermissionDenied) else Ok tt.
Definition toy_key (d n : Z) : KeyDescriptor :=
  {| domain := d; nspace := n; alias := None; blob := None |}.

Lemma into_iter_includes_witness :
  @val _ (@aidl_permission aidl_published) KeyPermission.USE ∈ @into_iter aidl_published 0x104 <->
  includes 0x104 (@val _ (@aidl_permission aidl_published) KeyPermission.USE) = true.
Proof. apply into_iter_includes; [vm_compute; split; congruence|done]. Defined.

Lemma grant_only_what_is_held_witness :
  toy_check_access 9 0 "keystore2_key" "use" = Ok tt.
Proof.
  destruct (@grant_only_what_is_held aidl_published nat (Ok 0%nat) (fun _ => Ok 1%nat)
              toy_check_access 9%nat 0x104 (toy_key 0 10)) as (_ & tctx & Ht & _ & _ & H).
  - vm_compute; split; congruence.
  - reflexivity.
  - vm_compute in Ht. injection Ht as <-. by apply (H KeyPermission.USE).
Defined.

Lemma app_isolation_witness :
  @check_key_permission aidl_published nat (Ok 0%nat) (fun _ => Ok 1%nat) toy_check_access
    10001 9%nat 0x100 (toy_key 0 10002) None = Err (SeError PermissionDenied).
Proof. apply app_isolation; [done|by vm_compute]. Defined.

Lemma grant_access_is_the_vector_witness :
  @check_key_permission aidl_published nat (Ok 0%nat) (fun _ => Ok 1%nat) toy_check_access
    10001 9%nat 0x100 (toy_key 1 77) (Some 0x104) = Ok tt.
Proof. apply grant_access_is_the_vector. done. Defined.

Lemma blob_needs_manage_blob_witness :
  @check_key_permission aidl_published nat (Ok 0%nat) (fun _ => Ok 1%nat) toy_check_access
    10001 9%nat 0x100 (toy_key 3 77) None = Ok tt.
Proof. apply blob_needs_manage_blob; [done|]. exists 1%nat. done. Defined.
