(* ===== verification/AuthInfo.v ===== *)
(** * Deferred authorization ([keystore2/src/enforcements.rs])

    [AuthRequest], [TokenReceiverMap] and [AuthInfo]: how an operation that
    was created without its tokens gets them later.  An [Arc<AuthRequest>] is
    shared by the operation (strong reference, in [DeferredAuthState::Waiting])
    and by the receiver map (weak reference), so requests live in a store and
    are named by an identifier; dropping the strong reference removes the
    request from the store, which is what makes [Weak::upgrade] fail.

    A channel receiver is the queue of the messages its sender delivers; an
    empty queue is a receiver whose sender is gone. *)

From stdpp Require Import base list gmap strings.
From Stdlib Require Import ZArith Lia.
From S2P Require Import Prelude Aidl Errors.

Abbreviation Receiver := (list (Error + TimeStampToken)).

Inductive AuthRequestState :=
| OpAuth
| TimeStampedOpAuth (recv : Receiver)
| TimeStamp (recv : Receiver).

Record AuthRequest := {
  req_state : AuthRequestState;
  req_hat : option HardwareAuthToken
}.

Definition op_auth : AuthRequest := {| req_state := OpAuth; req_hat := None |}.
Definition timestamped_op_auth (receiver : Receiver) : AuthRequest :=
  {| req_state := TimeStampedOpAuth receiver; req_hat := None |}.
(** [AuthRequest::timestamp]. *)
Definition timestamp_request (hat : HardwareAuthToken) (receiver : Receiver) : AuthRequest :=
  {| req_state := TimeStamp receiver; req_hat := Some hat |}.

(** [AuthRequest::add_auth_token]. *)
Definition request_add_auth_token (r : AuthRequest) (hat : HardwareAuthToken) : AuthRequest :=
  {| req_state := req_state r; req_hat := Some hat |}.

(** The identity of an [Arc<AuthRequest>]. *)
Abbreviation reqid := nat.

Inductive DeferredAuthState :=
| NoAuthRequired
| OpAuthRequired
| TimeStampRequired (hat : HardwareAuthToken)
| TimeStampedOpAuthRequired
| Waiting (auth_request : reqid)
| Token (hat : HardwareAuthToken) (tst : option TimeStampToken).

Record AuthInfo := {
  state : DeferredAuthState;
  key_usage_limited : option Z;
  (** whether the operation holds the shared confirmation token receiver *)
  confirmation_token_receiver : bool
}.

(** [TokenReceiverMap]: challenge to weak request, and the cleanup counter. *)
Record TokenReceiverMap := {
  receivers : gmap Z reqid;
  cleanup_counter : Z
}.

Definition CLEANUP_PERIOD : Z := 25.

(** [Default for TokenReceiverMap]. *)
Definition default_receiver_map : TokenReceiverMap :=
  {| receivers := ∅; cleanup_counter := CLEANUP_PERIOD + 1 |}.

(** The state shared by all operations: the [Enforcements] structure and the
    requests that are alive. *)
Record Enforcements := {
  device_unlocked_set : gset Z;
  op_auth_map : TokenReceiverMap;
  confirmation_tokens : option (list bytes);
  requests : gmap reqid AuthRequest;
  next_request : reqid
}.

Definition with_requests (s : Enforcements) (f : gmap reqid AuthRequest -> gmap reqid AuthRequest)
    : Enforcements :=
  {| device_unlocked_set := device_unlocked_set s; op_auth_map := op_auth_map s;
     confirmation_tokens := confirmation_tokens s; requests := f (requests s);
     next_request := next_request s |}.
Definition with_op_auth_map (s : Enforcements) (m : TokenReceiverMap) : Enforcements :=
  {| device_unlocked_set := device_unlocked_set s; op_auth_map := m;
     confirmation_tokens := confirmation_tokens s; requests := requests s;
     next_request := next_request s |}.
Definition with_confirmation_tokens (s : Enforcements) (q : option (list bytes)) : Enforcements :=
  {| device_unlocked_set := device_unlocked_set s; op_auth_map := op_auth_map s;
     confirmation_tokens := q; requests := requests s; next_request := next_request s |}.

(** [Enforcements::default]. *)
Definition default_enforcements : Enforcements :=
  {| device_unlocked_set := ∅; op_auth_map := default_receiver_map;
     confirmation_tokens := None; requests := ∅; next_request := 0 |}.

(** [Arc::new]: a fresh identifier. *)
Definition alloc_request (s : Enforcements) (r : AuthRequest) : Enforcements * reqid :=
  ({| device_unlocked_set := device_unlocked_set s; op_auth_map := op_auth_map s;
      confirmation_tokens := confirmation_tokens s;
      requests := <[next_request s := r]> (requests s);
      next_request := S (next_request s) |}, next_request s).

(** [TokenReceiver::is_obsolete]: the weak reference no longer upgrades. *)
Definition is_obsolete (s : Enforcements) (recv : reqid) : Prop := requests s !! recv = None.
#[global] Instance is_obsolete_dec s recv : Decision (is_obsolete s recv).
Proof. unfold is_obsolete. apply _. Defined.

(** [TokenReceiverMap::add_auth_token]: the receiver leaves the map before it
    gets the token; an obsolete receiver drops it. *)
Definition op_auth_map_add_auth_token (s : Enforcements) (hat : HardwareAuthToken) : Enforcements :=
  let m := op_auth_map s in
  match receivers m !! challenge hat with
  | None => s
  | Some recv =>
    let s1 := with_op_auth_map s {| receivers := delete (challenge hat) (receivers m);
                                    cleanup_counter := cleanup_counter m |} in
    with_requests s1 (alter (fun r => request_add_auth_token r hat) recv)
  end.

(** [TokenReceiverMap::add_receiver]; the [u8] counter panics on underflow. *)
Definition add_receiver (s : Enforcements) (ch : Z) (recv : reqid) : result AnyError Enforcements :=
  let m := op_auth_map s in
  let map := <[ch := recv]> (receivers m) in
  if cleanup_counter m =? 0 then Panic
  else
    let counter := cleanup_counter m - 1 in
    Ok (with_op_auth_map s
      (if counter =? 0 then
         {| receivers := filter (fun kv => ~ is_obsolete s kv.2) map;
            cleanup_counter := CLEANUP_PERIOD + 1 |}
       else {| receivers := map; cleanup_counter := counter |})).

(** [Enforcements::register_op_auth_receiver]. *)
Definition register_op_auth_receiver := add_receiver.

Section AuthInfo.
Context {AI : Aidl}.

Definition not_authenticated : AnyError :=
  KsError (Km (val ErrorCode.KEY_USER_NOT_AUTHENTICATED)).

(** The secure clock service: [None] when it is not there, in which case the
    worker panics and its sender goes away. *)
Variable secure_clock : option (Z -> result BinderStatus TimeStampToken).

Definition get_timestamp_token (ch : Z) : result Error TimeStampToken :=
  match secure_clock with
  | None => Panic
  | Some generateTimeStamp => map_binder_status (generateTimeStamp ch)
  end.

(** [timestamp_token_request] on the worker thread, as the receiver sees it. *)
Definition timestamp_token_request (ch : Z) : Receiver :=
  match get_timestamp_token ch with
  | Panic => []
  | Ok t => [inr t]
  | Err e => [inl e]
  end.

(** [AuthRequest::get_auth_tokens]: takes the auth token, then blocks on the
    time stamp. *)
Definition request_get_auth_tokens (r : AuthRequest)
    : result AnyError (HardwareAuthToken * option TimeStampToken) * AuthRequest :=
  match req_hat r with
  | None => (Err not_authenticated, r)
  | Some hat =>
    let recv_with (mk : Receiver -> AuthRequestState) (q : Receiver) :=
      match q with
      | [] => (Err OtherError, {| req_state := mk []; req_hat := None |})
      | inr t :: q' => (Ok (hat, Some t), {| req_state := mk q'; req_hat := None |})
      | inl e :: q' => (Err (KsError e), {| req_state := mk q'; req_hat := None |})
      end in
    match req_state r with
    | TimeStampedOpAuth q => recv_with TimeStampedOpAuth q
    | TimeStamp q => recv_with TimeStamp q
    | OpAuth => (Ok (hat, None), {| req_state := OpAuth; req_hat := None |})
    end
  end.

(** [AuthInfo::finalize_create_authorization]: the operation challenge for
    the client, if it needs one. *)
Definition finalize_create_authorization (s : Enforcements) (info : AuthInfo) (ch : Z)
    : result AnyError (option Z * AuthInfo * Enforcements) :=
  let waiting r := {| state := Waiting r; key_usage_limited := key_usage_limited info;
                      confirmation_token_receiver := confirmation_token_receiver info |} in
  match state info with
  | OpAuthRequired =>
    let '(s1, r) := alloc_request s op_auth in
    s2 ← register_op_auth_receiver s1 ch r;
    Ok (Some ch, waiting r, s2)
  | TimeStampedOpAuthRequired =>
    let '(s1, r) := alloc_request s (timestamped_op_auth (timestamp_token_request ch)) in
    s2 ← register_op_auth_receiver s1 ch r;
    Ok (Some ch, waiting r, s2)
  | TimeStampRequired hat =>
    let '(s1, r) := alloc_request s (timestamp_request hat (timestamp_token_request ch)) in
    Ok (None, waiting r, s1)
  | _ => Ok (None, info, s)
  end.

(** [AuthInfo::get_auth_tokens].  A waiting operation holds its request, so
    the lookup cannot fail; moving to [Token] drops the request. *)
Definition get_auth_tokens (s : Enforcements) (info : AuthInfo)
    : result AnyError (option HardwareAuthToken * option TimeStampToken)
      * AuthInfo * Enforcements :=
  match state info with
  | Waiting r =>
    match requests s !! r with
    | None => (Panic, info, s)
    | Some rq =>
      match request_get_auth_tokens rq with
      | (Ok (hat, tst), _) =>
        (Ok (Some hat, tst),
         {| state := Token hat tst; key_usage_limited := key_usage_limited info;
            confirmation_token_receiver := confirmation_token_receiver info |},
         with_requests s (delete r))
      | (Err e, rq') => (Err e, info, with_requests s (insert r rq'))
      | (Panic, rq') => (Panic, info, with_requests s (insert r rq'))
      end
    end
  | NoAuthRequired => (Ok (None, None), info, s)
  | Token hat tst => (Ok (Some hat, tst), info, s)
  | _ => (Err not_authenticated, info, s)
  end.

Definition before_update := get_auth_tokens.

(** [AuthInfo::before_finish]: drains the confirmation channel, keeping the
    most recent token. *)
Definition before_finish (s : Enforcements) (info : AuthInfo)
    : result AnyError (option HardwareAuthToken * option TimeStampToken * option bytes)
      * AuthInfo * Enforcements :=
  let '(confirmation_token, s1) :=
    match confirmation_token_receiver info, confirmation_tokens s with
    | true, Some q => (last q, with_confirmation_tokens s (Some []))
    | _, _ => (None, s)
    end in
  let '(r, info', s2) := get_auth_tokens s1 info in
  ((fun '(hat, tst) => (hat, tst, confirmation_token)) <$> r, info', s2).

(** [AuthInfo::after_finish] over the database operation it calls. *)
Definition after_finish {Db} (check_and_update_key_usage_count : Db -> Z -> result AnyError unit * Db)
    (db : Db) (info : AuthInfo) : result AnyError unit * Db :=
  match key_usage_limited info with
  | Some key_id => check_and_update_key_usage_count db key_id
  | None => (Ok tt, db)
  end.

(** Dropping an operation drops the request it waits for. *)
Definition drop_auth_info (s : Enforcements) (info : AuthInfo) : Enforcements :=
  match state info with
  | Waiting r => with_requests s (delete r)
  | _ => s
  end.
End AuthInfo.

(** ** Operations and tokens as a transition system

    The live operations' [AuthInfo]s over the shared state, with the history
    that the claims speak about: the tokens presented so far, what each
    operation was created to wait for, and what each request was made for. *)

Section System.
Context {AI : Aidl}.
Variable secure_clock : option (Z -> result BinderStatus TimeStampToken).

(** What an operation has to present. *)
Inductive Need :=
| NeedNothing
| NeedHat (hat : HardwareAuthToken)
| NeedOp (ch : Z).

Record Sys := {
  enf : Enforcements;
  infos : gmap nat AuthInfo;
  presented : list HardwareAuthToken;
  needs : gmap nat Need;
  origin : gmap reqid Need
}.

Definition sys_init : Sys :=
  {| enf := default_enforcements; infos := ∅; presented := []; needs := ∅; origin := ∅ |}.

(** What [finalize_create_authorization] commits an operation to. *)
Definition need_of (st : DeferredAuthState) (ch : Z) : option Need :=
  match st with
  | NoAuthRequired => Some NeedNothing
  | TimeStampRequired hat => Some (NeedHat hat)
  | OpAuthRequired | TimeStampedOpAuthRequired => Some (NeedOp ch)
  | Waiting _ | Token _ _ => None
  end.

Inductive sys_step : Sys -> Sys -> Prop :=
| sys_create y op info ch n r info' s' :
    needs y !! op = None ->
    need_of (state info) ch = Some n ->
    finalize_create_authorization secure_clock (enf y) info ch = Ok (r, info', s') ->
    sys_step y
      {| enf := s'; infos := <[op := info']> (infos y); presented := presented y;
         needs := <[op := n]> (needs y);
         origin := match state info' with
                   | Waiting rq => <[rq := n]> (origin y)
                   | _ => origin y
                   end |}
| sys_add_token y hat :
    sys_step y
      {| enf := op_auth_map_add_auth_token (enf y) hat; infos := infos y;
         presented := hat :: presented y; needs := needs y; origin := origin y |}
| sys_get_tokens y op info r info' s' :
    infos y !! op = Some info ->
    get_auth_tokens (enf y) info = (r, info', s') ->
    sys_step y
      {| enf := s'; infos := <[op := info']> (infos y); presented := presented y;
         needs := needs y; origin := origin y |}
| sys_drop y op info :
    infos y !! op = Some info ->
    sys_step y
      {| enf := drop_auth_info (enf y) info; infos := delete op (infos y);
         presented := presented y; needs := needs y; origin := origin y |}.

Definition sys_reachable (y : Sys) : Prop := rtc sys_step sys_init y.

(** A token meets a need. *)
Definition meets (seen : list HardwareAuthToken) (n : Need) (h : HardwareAuthToken) : Prop :=
  match n with
  | NeedNothing => False
  | NeedHat h0 => h = h0
  | NeedOp ch => challenge h = ch /\ h ∈ seen
  end.

Definition info_ok (y : Sys) (n : Need) (info : AuthInfo) : Prop :=
  match state info with
  | NoAuthRequired => n = NeedNothing
  | Waiting r => is_Some (requests (enf y) !! r) /\ origin y !! r = Some n /\ n <> NeedNothing
  | Token h _ => meets (presented y) n h
  | _ => False
  end.

Record sys_inv (y : Sys) : Prop := {
  inv_counter : 1 <= cleanup_counter (op_auth_map (enf y)) <= CLEANUP_PERIOD + 1;
  inv_requests : forall r, is_Some (requests (enf y) !! r) -> (r < next_request (enf y))%nat;
  inv_origin : forall r, is_Some (origin y !! r) -> (r < next_request (enf y))%nat;
  inv_receivers : forall ch r, receivers (op_auth_map (enf y)) !! ch = Some r ->
    origin y !! r = Some (NeedOp ch);
  inv_hats : forall r rq h, requests (enf y) !! r = Some rq -> req_hat rq = Some h ->
    exists n, origin y !! r = Some n /\ meets (presented y) n h;
  inv_infos : forall op info, infos y !! op = Some info ->
    exists n, needs y !! op = Some n /\ info_ok y n info;
  inv_unique : forall op1 op2 i1 i2 r, infos y !! op1 = Some i1 -> infos y !! op2 = Some i2 ->
    state i1 = Waiting r -> state i2 = Waiting r -> op1 = op2
}.

Lemma meets_mono seen h' n h : meets seen n h -> meets (h' :: seen) n h.
Proof. destruct n; simpl; [done..|]. intros []; split; [done|by apply list_elem_of_further]. Qed.

Lemma add_receiver_Ok s ch r :
  1 <= cleanup_counter (op_auth_map s) <= CLEANUP_PERIOD + 1 ->
  exists m, add_receiver s ch r = Ok (with_op_auth_map s m) /\
    1 <= cleanup_counter m <= CLEANUP_PERIOD + 1 /\
    receivers m ⊆ <[ch := r]> (receivers (op_auth_map s)) /\
    (forall ch' r', <[ch := r]> (receivers (op_auth_map s)) !! ch' = Some r' ->
       ~ is_obsolete s r' -> receivers m !! ch' = Some r').
Proof.
  unfold CLEANUP_PERIOD. intros Hc. unfold add_receiver, CLEANUP_PERIOD.
  destruct (Z.eqb_spec (cleanup_counter (op_auth_map s)) 0) as [|Hc0]; [lia|].
  destruct (Z.eqb_spec (cleanup_counter (op_auth_map s) - 1) 0) as [Hc1|Hc1];
    (eexists; split; [reflexivity|]); simpl; (split; [lia|]); split.
  - apply map_filter_subseteq.
  - intros ch' r' Hl Hob. by apply map_lookup_filter_Some.
  - done.
  - done.
Qed.

(** Creating an operation that needs a request. *)
Lemma inv_create_waiting y op info' n rq m ch :
  sys_inv y -> needs y !! op = None -> n <> NeedNothing ->
  (forall h, req_hat rq = Some h -> meets (presented y) n h) ->
  state info' = Waiting (next_request (enf y)) ->
  1 <= cleanup_counter m <= CLEANUP_PERIOD + 1 ->
  (receivers m ⊆ receivers (op_auth_map (enf y)) \/
   (n = NeedOp ch /\ receivers m ⊆ <[ch := next_request (enf y)]> (receivers (op_auth_map (enf y))))) ->
  sys_inv {| enf := with_op_auth_map (fst (alloc_request (enf y) rq)) m;
             infos := <[op := info']> (infos y); presented := presented y;
             needs := <[op := n]> (needs y);
             origin := <[next_request (enf y) := n]> (origin y) |}.
Proof.
  intros Hy Hop Hn Hhat Hst Hm Hrecv. set (r0 := next_request (enf y)) in *.
  assert (forall r, origin y !! r <> None -> r <> r0) as Hfresh.
  { intros r Hr ->. destruct (origin y !! r0) eqn:E; [|done].
    assert (r0 < r0)%nat; [apply (inv_origin y Hy); by rewrite E|lia]. }
  constructor; simpl; fold r0.
  - done.
  - intros r Hr. destruct (decide (r = r0)) as [->|]; [lia|].
    rewrite lookup_insert_ne in Hr by done. apply (inv_requests y Hy) in Hr. fold r0 in Hr. lia.
  - intros r Hr. destruct (decide (r = r0)) as [->|]; [lia|].
    rewrite lookup_insert_ne in Hr by done. apply (inv_origin y Hy) in Hr. fold r0 in Hr. lia.
  - intros ch' r Hr.
    assert (receivers (op_auth_map (enf y)) !! ch' = Some r \/ (ch' = ch /\ r = r0 /\ n = NeedOp ch)) as Hc.
    { destruct Hrecv as [Hs|[-> Hs]].
      - left. by eapply lookup_weaken.
      - eapply lookup_weaken in Hr; [|exact Hs].
        apply lookup_insert_Some in Hr as [[-> <-]|[_ ?]]; auto. }
    destruct Hc as [Hc|(-> & -> & ->)]; [|by rewrite lookup_insert_eq].
    apply (inv_receivers y Hy) in Hc. rewrite lookup_insert_ne; [done|].
    apply not_eq_sym, Hfresh. by rewrite Hc.
  - intros r rq' h Hr Hh. apply lookup_insert_Some in Hr as [[<- <-]|[Hne Hr]].
    + exists n. rewrite lookup_insert_eq. eauto.
    + destruct (inv_hats y Hy _ _ _ Hr Hh) as (n' & Hn' & ?). exists n'.
      by rewrite lookup_insert_ne.
  - intros op' i Hi. apply lookup_insert_Some in Hi as [[<- <-]|[Hne Hi]].
    + exists n. rewrite lookup_insert_eq. split; [done|]. unfold info_ok. rewrite Hst. simpl.
      fold r0. rewrite !lookup_insert_eq. by split; [eexists|].
    + destruct (inv_infos y Hy _ _ Hi) as (n' & Hn' & Hok). exists n'.
      rewrite lookup_insert_ne by done. split; [done|].
      unfold info_ok in *. destruct (state i); simpl; try done.
      fold r0. destruct Hok as (? & Ho & ?).
      assert (auth_request <> r0) by (apply Hfresh; by rewrite Ho).
      by rewrite !lookup_insert_ne.
  - assert (forall op' i, infos y !! op' = Some i -> state i <> Waiting r0) as Hnw.
    { intros op' i Hi Hw. destruct (inv_infos y Hy _ _ Hi) as (n' & _ & Hok).
      unfold info_ok in Hok. rewrite Hw in Hok. destruct Hok as (_ & Ho & _).
      eapply Hfresh; [|reflexivity]. by rewrite Ho. }
    intros op1 op2 i1 i2 r H1 H2 W1 W2.
    apply lookup_insert_Some in H1 as [[<- <-]|[Hne1 H1]];
      apply lookup_insert_Some in H2 as [[<- <-]|[Hne2 H2]]; [done| | |by eapply (inv_unique y Hy)].
    + exfalso. eapply Hnw; [exact H2|]. congruence.
    + exfalso. eapply Hnw; [exact H1|]. congruence.
Qed.

Lemma with_op_auth_map_same s : with_op_auth_map s (op_auth_map s) = s.
Proof. by destruct s. Qed.

Lemma inv_create y op info ch n r info' s' :
  sys_inv y -> needs y !! op = None -> need_of (state info) ch = Some n ->
  finalize_create_authorization secure_clock (enf y) info ch = Ok (r, info', s') ->
  sys_inv {| enf := s'; infos := <[op := info']> (infos y); presented := presented y;
             needs := <[op := n]> (needs y);
             origin := match state info' with
                       | Waiting rq => <[rq := n]> (origin y)
                       | _ => origin y
                       end |}.
Proof.
  intros Hy Hop Hn Hf. unfold finalize_create_authorization in Hf.
  pose proof (inv_counter y Hy) as Hc.
  destruct (state info) eqn:Hst; simpl in Hn; simplify_eq.
  - rewrite Hst. destruct Hy. constructor; simpl; try done.
    + intros op' i [[<- <-]|[Hne Hi]]%lookup_insert_Some.
      * exists NeedNothing. rewrite lookup_insert_eq. unfold info_ok. by rewrite Hst.
      * destruct (inv_infos0 _ _ Hi) as (n' & ? & ?). exists n'. by rewrite lookup_insert_ne.
    + intros op1 op2 i1 i2 r [[<- <-]|[Hne1 H1]]%lookup_insert_Some
        [[<- <-]|[Hne2 H2]]%lookup_insert_Some; try congruence. eauto.
  - destruct (add_receiver_Ok (fst (alloc_request (enf y) op_auth)) ch (next_request (enf y)))
      as (m & Hm & Hc' & Hsub & _); [done|]. simpl in Hf, Hm. unfold register_op_auth_receiver in Hf.
    rewrite Hm in Hf. simpl in Hf. simplify_eq. simpl.
    apply (inv_create_waiting y op _ _ op_auth m ch); eauto; done.
  - simpl in Hf. simplify_eq. simpl.
    pose proof (inv_create_waiting y op
      {| state := Waiting (next_request (enf y)); key_usage_limited := key_usage_limited info;
         confirmation_token_receiver := confirmation_token_receiver info |}
      (NeedHat hat) (timestamp_request hat (timestamp_token_request secure_clock ch))
      (op_auth_map (enf y)) ch) as H.
    apply H; try done; [simpl; congruence|by left].
  - destruct (add_receiver_Ok (fst (alloc_request (enf y)
        (timestamped_op_auth (timestamp_token_request secure_clock ch)))) ch (next_request (enf y)))
      as (m & Hm & Hc' & Hsub & _); [done|]. simpl in Hf, Hm. unfold register_op_auth_receiver in Hf.
    rewrite Hm in Hf. simpl in Hf. simplify_eq. simpl.
    apply (inv_create_waiting y op _ _
      (timestamped_op_auth (timestamp_token_request secure_clock ch)) m ch); eauto; done.
Qed.

Lemma info_ok_add_token y hat n i :
  info_ok y n i ->
  info_ok {| enf := op_auth_map_add_auth_token (enf y) hat; infos := infos y;
             presented := hat :: presented y; needs := needs y; origin := origin y |} n i.
Proof.
  unfold info_ok. destruct (state i); simpl; try done; [|by apply meets_mono].
  intros (Hr & ? & ?). split; [|done]. unfold op_auth_map_add_auth_token.
  destruct (receivers _ !! _) as [r|]; [|done]. simpl.
  destruct (decide (auth_request = r)) as [->|].
  - rewrite lookup_alter_eq. destruct Hr as [rq ->]. by eexists.
  - by rewrite lookup_alter_ne.
Qed.

Lemma inv_add_token y hat : sys_inv y ->
  sys_inv {| enf := op_auth_map_add_auth_token (enf y) hat; infos := infos y;
             presented := hat :: presented y; needs := needs y; origin := origin y |}.
Proof.
  intros Hy. pose proof Hy as [Hc Hrq Ho Hrc Hh Hi Hu].
  assert (forall op info, infos y !! op = Some info -> exists n, needs y !! op = Some n /\
    info_ok {| enf := op_auth_map_add_auth_token (enf y) hat; infos := infos y;
             presented := hat :: presented y; needs := needs y; origin := origin y |} n info) as Hi'.
  { intros op info Hop. destruct (Hi _ _ Hop) as (n & ? & ?). exists n.
    split; [done|by apply info_ok_add_token]. }
  unfold op_auth_map_add_auth_token in *.
  destruct (receivers (op_auth_map (enf y)) !! challenge hat) as [r|] eqn:Hr.
  - constructor; simpl; try done.
    + intros r'. destruct (decide (r = r')) as [->|]; [|rewrite lookup_alter_ne by done; apply Hrq].
      rewrite lookup_alter_eq, fmap_is_Some. apply Hrq.
    + intros ch' r'. rewrite lookup_delete_Some. intros [_ ?]. by apply Hrc.
    + intros r' rq h Hl Hhat. destruct (decide (r = r')) as [<-|].
      * rewrite lookup_alter_eq in Hl. apply fmap_Some in Hl as (rq0 & Hl & ->).
        simpl in Hhat. simplify_eq. exists (NeedOp (challenge h)). split; [by apply Hrc|].
        simpl. split; [done|]. apply list_elem_of_here.
      * rewrite lookup_alter_ne in Hl by done.
        destruct (Hh _ _ _ Hl Hhat) as (n' & ? & ?). exists n'. split; [done|by apply meets_mono].
  - constructor; simpl; try done. intros r rq h Hl Hhat.
    destruct (Hh _ _ _ Hl Hhat) as (n' & ? & ?). exists n'. split; [done|by apply meets_mono].
Qed.

(** Removing a request that only [op] waits for. *)
Lemma info_ok_delete y op op' info r i n y' :
  sys_inv y -> infos y !! op = Some info -> state info = Waiting r ->
  infos y !! op' = Some i -> op <> op' -> info_ok y n i ->
  requests (enf y') = delete r (requests (enf y)) ->
  presented y' = presented y -> origin y' = origin y ->
  info_ok y' n i.
Proof.
  intros Hy Hop Hst Hop' Hne Hok Hreq Hp Ho. unfold info_ok in *. rewrite Hp, Ho.
  destruct (state i) eqn:Hi; try done. destruct Hok as (? & ? & ?).
  split; [|done]. rewrite Hreq, lookup_delete_ne; [done|].
  intros <-. apply Hne. by eapply (inv_unique y Hy).
Qed.

Lemma inv_get_tokens y op info r info' s' :
  sys_inv y -> infos y !! op = Some info -> get_auth_tokens (enf y) info = (r, info', s') ->
  sys_inv {| enf := s'; infos := <[op := info']> (infos y); presented := presented y;
             needs := needs y; origin := origin y |}.
Proof.
  intros Hy Hop Hg. pose proof Hy as [Hc Hrq Ho Hrc Hh Hi Hu].
  destruct (Hi _ _ Hop) as (n & Hn & Hok). unfold get_auth_tokens in Hg.
  assert (info' = info -> s' = enf y ->
    sys_inv {| enf := s'; infos := <[op := info']> (infos y); presented := presented y;
               needs := needs y; origin := origin y |}) as Hsame.
  { intros -> ->. rewrite insert_id by done. constructor; done. }
  unfold info_ok in Hok.
  destruct (state info) as [| | | |q|h t] eqn:Hst; simplify_eq; auto.
  destruct Hok as ([rq Hq] & Hor & Hnn). rewrite Hq in Hg.
  destruct (request_get_auth_tokens rq) as [[[hat tst]|e|] rq'] eqn:Hrg; simplify_eq.
  - assert (req_hat rq = Some hat) as Hhat.
    { unfold request_get_auth_tokens in Hrg. destruct (req_hat rq); [|done].
      destruct (req_state rq) as [|[|[] ?]|[|[] ?]]; simpl in Hrg; by simplify_eq. }
    destruct (Hh _ _ _ Hq Hhat) as (n' & Hn' & Hmeets). rewrite Hor in Hn'. simplify_eq.
    constructor; simpl; try done.
    + intros r' Hr'. apply Hrq. destruct Hr' as [x Hx].
      apply lookup_delete_Some in Hx as [_ ?]. by eexists.
    + intros r' rq0 h Hl. apply lookup_delete_Some in Hl as [_ ?]. by eapply Hh.
    + intros op' i [[<- <-]|[Hne Hl]]%lookup_insert_Some; [by exists n'|].
      destruct (Hi _ _ Hl) as (n2 & ? & Hok2). exists n2. split; [done|].
      by eapply (info_ok_delete y op op').
    + intros op1 op2 i1 i2 r [[<- <-]|[Hne1 H1]]%lookup_insert_Some
        [[<- <-]|[Hne2 H2]]%lookup_insert_Some; simpl; try congruence. eauto.
  - assert (req_hat rq' = None \/ rq' = rq) as Hhat.
    { unfold request_get_auth_tokens in Hrg. destruct (req_hat rq); [|simplify_eq; by right].
      left. destruct (req_state rq) as [|[|[] ?]|[|[] ?]]; simpl in Hrg; by simplify_eq. }
    rewrite insert_id by done.
    assert (forall r', is_Some (<[q := rq']> (requests (enf y)) !! r') <-> is_Some (requests (enf y) !! r')) as Hdom.
    { intros r'. destruct (decide (q = r')) as [<-|]; [|by rewrite lookup_insert_ne].
      rewrite lookup_insert_eq, Hq. split; by eexists. }
    constructor; simpl; try done.
    + intros r' Hr'. apply Hrq. by apply Hdom.
    + intros r' rq0 h [[<- <-]|[Hne Hl]]%lookup_insert_Some Hh0; [|by eapply Hh].
      destruct Hhat as [Hnone| ->]; [congruence|by eapply Hh].
    + intros op' i Hl. destruct (Hi _ _ Hl) as (n2 & ? & Hok2). exists n2. split; [done|].
      unfold info_ok in *. destruct (state i); simpl; try done. by rewrite Hdom.
  - exfalso. unfold request_get_auth_tokens in Hrg. destruct (req_hat rq) as [h0|] eqn:Hh0; [|done].
    by destruct (req_state rq) as [|[|[] ?]|[|[] ?]].
Qed.

Lemma inv_drop y op info : sys_inv y -> infos y !! op = Some info ->
  sys_inv {| enf := drop_auth_info (enf y) info; infos := delete op (infos y);
             presented := presented y; needs := needs y; origin := origin y |}.
Proof.
  intros Hy Hop. pose proof Hy as [Hc Hrq Ho Hrc Hh Hi Hu].
  assert (forall op' i, delete op (infos y) !! op' = Some i -> infos y !! op' = Some i /\ op <> op') as Hdel.
  { intros op' i Hl. apply lookup_delete_Some in Hl as [? ?]. done. }
  destruct (state info) as [| | | |q|h t] eqn:Hst; unfold drop_auth_info; rewrite Hst.
  1-4,6: constructor; simpl; try done;
    [intros op' i [Hl _]%Hdel; by apply Hi
    |intros op1 op2 i1 i2 r [H1 _]%Hdel [H2 _]%Hdel; by eapply Hu].
  constructor; simpl; try done.
  - intros r [x Hx]. apply lookup_delete_Some in Hx as [_ ?]. apply Hrq. by eexists.
  - intros r rq0 h Hl. apply lookup_delete_Some in Hl as [_ ?]. by eapply Hh.
  - intros op' i [Hl Hne]%Hdel. destruct (Hi _ _ Hl) as (n2 & ? & Hok2). exists n2. split; [done|].
    by eapply (info_ok_delete y op op').
  - intros op1 op2 i1 i2 r [H1 _]%Hdel [H2 _]%Hdel. by eapply Hu.
Qed.

Lemma sys_step_inv y y' : sys_inv y -> sys_step y y' -> sys_inv y'.
Proof.
  intros Hy Hs. destruct Hs; eauto using inv_create, inv_add_token, inv_get_tokens, inv_drop.
Qed.

Lemma sys_init_inv : sys_inv sys_init.
Proof.
  constructor; simpl; [unfold CLEANUP_PERIOD; lia|..];
    intros *; rewrite ?lookup_empty; (by intros []) || done.
Qed.

Lemma sys_reachable_inv y : sys_reachable y -> sys_inv y.
Proof.
  intros H. unfold sys_reachable in H.
  assert (forall a b, rtc sys_step a b -> sys_inv a -> sys_inv b) as Hind.
  { induction 1; eauto using sys_step_inv. }
  eapply Hind; [exact H|apply sys_init_inv].
Qed.

(** C7: Tokens are bound to the operation that needs them.  In every state
    that creating operations, receiving auth tokens, updating, finishing and
    dropping operations can reach, an operation that is given tokens for an
    update gets the right ones: an operation created as needing a per
    operation authorization gets a token that was presented to Keystore and
    carries that operation's own challenge, an operation that needs a time
    stamp gets the very token chosen at creation, an operation that needs
    nothing gets no token.  The request lookup never panics. *)
Theorem tokens_match_operation y op info n :
  sys_reachable y -> infos y !! op = Some info -> needs y !! op = Some n ->
  match fst (fst (get_auth_tokens (enf y) info)) with
  | Ok (None, tst) => n = NeedNothing /\ tst = None
  | Ok (Some h, _) => meets (presented y) n h
  | Err _ => True
  | Panic => False
  end.
Proof.
  intros Hy%sys_reachable_inv Hop Hn.
  destruct (inv_infos y Hy _ _ Hop) as (n' & Hn' & Hok). rewrite Hn in Hn'. simplify_eq.
  unfold info_ok in Hok. unfold get_auth_tokens.
  destruct (state info) as [| | | |q|h t]; try done.
  destruct Hok as ([rq Hq] & Hor & Hnn). rewrite Hq.
  unfold request_get_auth_tokens. destruct (req_hat rq) as [h|] eqn:Hh; [|done].
  destruct (inv_hats y Hy _ _ _ Hq Hh) as (n & Ho & Hm). rewrite Hor in Ho. simplify_eq.
  by destruct (req_state rq) as [|[|[] ?]|[|[] ?]].
Qed.

(** A per operation token that arrives in time is delivered.  Creating an
    operation that needs one registers its challenge; if the next token
    presented carries that challenge, the operation's next update gets
    exactly that token, and the request is gone from the store and from the
    receiver map. *)
Theorem op_auth_delivery s info ch hat r info' s' :
  1 <= cleanup_counter (op_auth_map s) <= CLEANUP_PERIOD + 1 ->
  state info = OpAuthRequired -> challenge hat = ch ->
  finalize_create_authorization secure_clock s info ch = Ok (r, info', s') ->
  r = Some ch /\
  let '(res, info2, s2) := get_auth_tokens (op_auth_map_add_auth_token s' hat) info' in
  res = Ok (Some hat, None) /\ state info2 = Token hat None /\
  requests s2 !! next_request s = None /\ receivers (op_auth_map s2) !! ch = None.
Proof.
  intros Hc Hst Hch Hf. unfold finalize_create_authorization in Hf. rewrite Hst in Hf.
  destruct (add_receiver_Ok (fst (alloc_request s op_auth)) ch (next_request s))
    as (m & Hm & _ & _ & Hkeep); [done|].
  simpl in Hf, Hm. unfold register_op_auth_receiver in Hf. rewrite Hm in Hf.
  simpl in Hf. simplify_eq. split; [done|].
  assert (receivers m !! challenge hat = Some (next_request s)) as Hr.
  { apply Hkeep; [by rewrite lookup_insert_eq|]. unfold is_obsolete. simpl. by rewrite lookup_insert_eq. }
  unfold op_auth_map_add_auth_token. simpl. rewrite Hr. unfold get_auth_tokens. simpl.
  rewrite lookup_alter_eq, lookup_insert_eq. simpl. repeat split.
  - by rewrite lookup_delete_eq.
  - by rewrite lookup_delete_eq.
Qed.

(** The receiver map never panics and never grows beyond need: on every
    reachable state registering a receiver succeeds, and whenever the
    counter runs out the map keeps exactly the receivers whose operation is
    still alive. *)
Theorem receiver_map_cleanup y ch r :
  sys_reachable y ->
  exists m, add_receiver (enf y) ch r = Ok (with_op_auth_map (enf y) m) /\
    (cleanup_counter (op_auth_map (enf y)) = 1 ->
       cleanup_counter m = CLEANUP_PERIOD + 1 /\
       forall ch' r', receivers m !! ch' = Some r' <->
         <[ch := r]> (receivers (op_auth_map (enf y))) !! ch' = Some r' /\
         is_Some (requests (enf y) !! r')) /\
    (cleanup_counter (op_auth_map (enf y)) <> 1 ->
       cleanup_counter m = cleanup_counter (op_auth_map (enf y)) - 1 /\
       receivers m = <[ch := r]> (receivers (op_auth_map (enf y)))).
Proof.
  intros Hy%sys_reachable_inv. pose proof (inv_counter y Hy). unfold add_receiver.
  destruct (Z.eqb_spec (cleanup_counter (op_auth_map (enf y))) 0) as [|_]; [lia|].
  eexists; split; [reflexivity|].
  destruct (Z.eqb_spec (cleanup_counter (op_auth_map (enf y)) - 1) 0) as [|]; split; try lia; intros _; simpl.
  - split; [done|]. intros ch' r'. rewrite map_lookup_filter_Some. simpl. unfold is_obsolete.
    by rewrite <- not_eq_None_Some.
  - done.
Qed.
End System.

(** ** Witnesses *)

Definition toy_hat (ch : Z) : HardwareAuthToken :=
  {| challenge := ch; userId := 5; authenticatorId := 6; authenticatorType := 1;
     timestamp := 0; mac := [] |}.
Definition toy_info (st : DeferredAuthState) : AuthInfo :=
  {| state := st; key_usage_limited := None; confirmation_token_receiver := false |}.

(** One operation waiting for challenge 42. *)
Definition toy_sys : Sys :=
  {| enf := {| device_unlocked_set := ∅;
               op_auth_map := {| receivers := {[42 := 0%nat]}; cleanup_counter := 25 |};
               confirmation_tokens := None; requests := {[0%nat := op_auth]}; next_request := 1 |};
     infos := {[0%nat := toy_info (Waiting 0)]}; presented := [];
     needs := {[0%nat := NeedOp 42]}; origin := {[0%nat := NeedOp 42]} |}.

Lemma toy_sys_reachable : @sys_reachable aidl_published None toy_sys.
Proof.
  apply rtc_once. apply (@sys_create aidl_published None sys_init 0 (toy_info OpAuthRequired) 42 (NeedOp 42)
    (Some 42) (toy_info (Waiting 0)) (enf toy_sys)); reflexivity.
Qed.

(** A second operation with the challenge 43, then a token for each of the
    two, the one for the second operation first. *)
Definition toy_two : Sys :=
  {| enf := match finalize_create_authorization None (enf toy_sys) (toy_info OpAuthRequired) 43 with
            | Ok (_, _, s) => s
            | _ => enf toy_sys
            end;
     infos := <[1%nat := toy_info (Waiting 1)]> (infos toy_sys); presented := [];
     needs := <[1%nat := NeedOp 43]> (needs toy_sys); origin := <[1%nat := NeedOp 43]> (origin toy_sys) |}.
Definition toy_tokens : Sys :=
  {| enf := op_auth_map_add_auth_token (op_auth_map_add_auth_token (enf toy_two) (toy_hat 43)) (toy_hat 42);
     infos := infos toy_two; presented := [toy_hat 42; toy_hat 43]; needs := needs toy_two; origin := origin toy_two |}.

Lemma toy_tokens_reachable : @sys_reachable aidl_published None toy_tokens.
Proof.
  unfold sys_reachable. etransitivity; [exact toy_sys_reachable|].
  apply rtc_l with toy_two.
  { apply (@sys_create aidl_published None toy_sys 1 (toy_info OpAuthRequired) 43 (NeedOp 43)
      (Some 43) (toy_info (Waiting 1)) (enf toy_two)); reflexivity. }
  eapply rtc_l; [apply (sys_add_token None toy_two (toy_hat 43))|].
  eapply rtc_l; [apply (sys_add_token None _ (toy_hat 42))|]. apply rtc_refl.
Qed.

(** Each operation gets the token with its own challenge. *)
Lemma tokens_match_operation_witness :
  fst (fst (@get_auth_tokens aidl_published (enf toy_tokens) (toy_info (Waiting 0)))) = Ok (Some (toy_hat 42), None) /\
  meets (presented toy_tokens) (NeedOp 42) (toy_hat 42) /\
  fst (fst (@get_auth_tokens aidl_published (enf toy_tokens) (toy_info (Waiting 1)))) = Ok (Some (toy_hat 43), None) /\
  meets (presented toy_tokens) (NeedOp 43) (toy_hat 43).
Proof.
  split_and!; [reflexivity| |reflexivity|].
  - exact (@tokens_match_operation aidl_published None toy_tokens 0 (toy_info (Waiting 0)) (NeedOp 42)
      toy_tokens_reachable eq_refl eq_refl).
  - exact (@tokens_match_operation aidl_published None toy_tokens 1 (toy_info (Waiting 1)) (NeedOp 43)
      toy_tokens_reachable eq_refl eq_refl).
Defined.

Lemma op_auth_delivery_witness : exists r info' s',
  finalize_create_authorization None default_enforcements (toy_info OpAuthRequired) 42 = Ok (r, info', s') /\
  r = Some 42.
Proof.
  do 3 eexists. split; [reflexivity|].
  apply (@op_auth_delivery aidl_published None default_enforcements (toy_info OpAuthRequired) 42 (toy_hat 42)
    (Some 42) (toy_info (Waiting 0)) (enf toy_sys)); [|reflexivity..].
  unfold CLEANUP_PERIOD; simpl; split; vm_compute; congruence.
Defined.

Lemma receiver_map_cleanup_witness :
  exists m, add_receiver (enf toy_sys) 43 7 = Ok (with_op_auth_map (enf toy_sys) m).
Proof.
  destruct (@receiver_map_cleanup aidl_published None toy_sys 43 7 toy_sys_reachable) as (m & H & _). eauto.
Defined.
