(* ===== verification/Enforcements.v ===== *)
(** * Enforcements ([keystore2/src/enforcements.rs])

    [authorize_create], which decides whether an operation may start and what
    it still has to present, the device lock state, the choice of super
    encryption, and the token lookup of the authorization service.

    What the code reads from its surroundings is an argument: the wall clock,
    the monotonic clock, the auth token database (through [AuthTokenDb]), the
    boot level cache of the super key manager and the secure clock. *)

From stdpp Require Import base list gmap strings.
From Stdlib Require Import ZArith Lia.
From S2P Require Import Prelude Aidl Errors KeyParameter Perboot BootLevelKeys AuthInfo.

(** ** Surroundings *)

Record Env (Db : Type) := {
  epoch_millis : option Z;     (* now, in ms since the epoch; [None] before it *)
  raw_now : Z;                 (* MonotonicRawTime::now() *)
  token_db : Db;
  boot_cache : option BootLevelKeyCache
}.
Arguments epoch_millis {Db}. Arguments raw_now {Db}.
Arguments token_db {Db}. Arguments boot_cache {Db}.

(** [SuperKeyManager::level_accessible]. *)
Definition skm_level_accessible (c : option BootLevelKeyCache) (boot_level : Z) : bool :=
  match c with
  | None => false
  | Some c => level_accessible c (as_u64 boot_level)
  end.

(** [Enforcements::is_given_time_passed]. *)
Definition is_given_time_passed (now : option Z) (given_time : Z) (inclusive : bool) : bool :=
  match now with
  | None => false
  | Some time_since_epoch =>
    if inclusive then as_u128 given_time <=? time_since_epoch
    else as_u128 given_time <? time_since_epoch
  end.

(** [Enforcements::is_device_locked] and [set_device_locked]. *)
Definition is_device_locked (s : Enforcements) (uid : Z) : bool :=
  negb (bool_decide (uid ∈ device_unlocked_set s)).

Definition set_device_locked (s : Enforcements) (uid : Z) (locked : bool) : Enforcements :=
  {| device_unlocked_set := if locked then device_unlocked_set s ∖ {[uid]}
                            else {[uid]} ∪ device_unlocked_set s;
     op_auth_map := op_auth_map s; confirmation_tokens := confirmation_tokens s;
     requests := requests s; next_request := next_request s |}.

(** [Enforcements::install_confirmation_token_receiver]. *)
Definition install_confirmation_token_receiver (s : Enforcements) (recv : list bytes) : Enforcements :=
  with_confirmation_tokens s (Some recv).

(** ** The variables [authorize_create] collects from the key parameters *)

Record ParamInfo := {
  key_purpose_authorized : bool;
  user_auth_type : option Z;
  no_auth_required : bool;
  caller_nonce_allowed : bool;
  user_id : Z;
  user_secure_ids : list Z;
  key_time_out : option Z;
  allow_while_on_body : bool;
  unlocked_device_required : bool;
  usage_limited : option Z;
  confirmation_required : bool;
  max_boot_level : option Z
}.

Definition param_init : ParamInfo :=
  {| key_purpose_authorized := false;
     user_auth_type := None;
     no_auth_required := false;
     caller_nonce_allowed := false;
     user_id := -1;
     user_secure_ids := [];
     key_time_out := None;
     allow_while_on_body := false;
     unlocked_device_required := false;
     usage_limited := None;
     confirmation_required := false;
     max_boot_level := None |}.

Definition set_key_purpose_authorized (v : bool) (a : ParamInfo) : ParamInfo :=
  {| key_purpose_authorized := v; user_auth_type := user_auth_type a; no_auth_required :=
     no_auth_required a; caller_nonce_allowed := caller_nonce_allowed a; user_id := user_id a;
     user_secure_ids := user_secure_ids a; key_time_out := key_time_out a; allow_while_on_body
     := allow_while_on_body a; unlocked_device_required := unlocked_device_required a;
     usage_limited := usage_limited a; confirmation_required := confirmation_required a;
     max_boot_level := max_boot_level a |}.
Definition set_user_auth_type (v : option Z) (a : ParamInfo) : ParamInfo :=
  {| key_purpose_authorized := key_purpose_authorized a; user_auth_type := v; no_auth_required
     := no_auth_required a; caller_nonce_allowed := caller_nonce_allowed a; user_id := user_id
     a; user_secure_ids := user_secure_ids a; key_time_out := key_time_out a;
     allow_while_on_body := allow_while_on_body a; unlocked_device_required :=
     unlocked_device_required a; usage_limited := usage_limited a; confirmation_required :=
     confirmation_required a; max_boot_level := max_boot_level a |}.
Definition set_no_auth_required (v : bool) (a : ParamInfo) : ParamInfo :=
  {| key_purpose_authorized := key_purpose_authorized a; user_auth_type := user_auth_type a;
     no_auth_required := v; caller_nonce_allowed := caller_nonce_allowed a; user_id := user_id
     a; user_secure_ids := user_secure_ids a; key_time_out := key_time_out a;
     allow_while_on_body := allow_while_on_body a; unlocked_device_required :=
     unlocked_device_required a; usage_limited := usage_limited a; confirmation_required :=
     confirmation_required a; max_boot_level := max_boot_level a |}.
Definition set_caller_nonce_allowed (v : bool) (a : ParamInfo) : ParamInfo :=
  {| key_purpose_authorized := key_purpose_authorized a; user_auth_type := user_auth_type a;
     no_auth_required := no_auth_required a; caller_nonce_allowed := v; user_id := user_id a;
     user_secure_ids := user_secure_ids a; key_time_out := key_time_out a; allow_while_on_body
     := allow_while_on_body a; unlocked_device_required := unlocked_device_required a;
     usage_limited := usage_limited a; confirmation_required := confirmation_required a;
     max_boot_level := max_boot_level a |}.
Definition set_user_id (v : Z) (a : ParamInfo) : ParamInfo :=
  {| key_purpose_authorized := key_purpose_authorized a; user_auth_type := user_auth_type a;
     no_auth_required := no_auth_required a; caller_nonce_allowed := caller_nonce_allowed a;
     user_id := v; user_secure_ids := user_secure_ids a; key_time_out := key_time_out a;
     allow_while_on_body := allow_while_on_body a; unlocked_device_required :=
     unlocked_device_required a; usage_limited := usage_limited a; confirmation_required :=
     confirmation_required a; max_boot_level := max_boot_level a |}.
Definition set_user_secure_ids (v : list Z) (a : ParamInfo) : ParamInfo :=
  {| key_purpose_authorized := key_purpose_authorized a; user_auth_type := user_auth_type a;
     no_auth_required := no_auth_required a; caller_nonce_allowed := caller_nonce_allowed a;
     user_id := user_id a; user_secure_ids := v; key_time_out := key_time_out a;
     allow_while_on_body := allow_while_on_body a; unlocked_device_required :=
     unlocked_device_required a; usage_limited := usage_limited a; confirmation_required :=
     confirmation_required a; max_boot_level := max_boot_level a |}.
Definition set_key_time_out (v : option Z) (a : ParamInfo) : ParamInfo :=
  {| key_purpose_authorized := key_purpose_authorized a; user_auth_type := user_auth_type a;
     no_auth_required := no_auth_required a; caller_nonce_allowed := caller_nonce_allowed a;
     user_id := user_id a; user_secure_ids := user_secure_ids a; key_time_out := v;
     allow_while_on_body := allow_while_on_body a; unlocked_device_required :=
     unlocked_device_required a; usage_limited := usage_limited a; confirmation_required :=
     confirmation_required a; max_boot_level := max_boot_level a |}.
Definition set_allow_while_on_body (v : bool) (a : ParamInfo) : ParamInfo :=
  {| key_purpose_authorized := key_purpose_authorized a; user_auth_type := user_auth_type a;
     no_auth_required := no_auth_required a; caller_nonce_allowed := caller_nonce_allowed a;
     user_id := user_id a; user_secure_ids := user_secure_ids a; key_time_out := key_time_out a;
     allow_while_on_body := v; unlocked_device_required := unlocked_device_required a;
     usage_limited := usage_limited a; confirmation_required := confirmation_required a;
     max_boot_level := max_boot_level a |}.
Definition set_unlocked_device_required (v : bool) (a : ParamInfo) : ParamInfo :=
  {| key_purpose_authorized := key_purpose_authorized a; user_auth_type := user_auth_type a;
     no_auth_required := no_auth_required a; caller_nonce_allowed := caller_nonce_allowed a;
     user_id := user_id a; user_secure_ids := user_secure_ids a; key_time_out := key_time_out a;
     allow_while_on_body := allow_while_on_body a; unlocked_device_required := v; usage_limited
     := usage_limited a; confirmation_required := confirmation_required a; max_boot_level :=
     max_boot_level a |}.
Definition set_usage_limited (v : option Z) (a : ParamInfo) : ParamInfo :=
  {| key_purpose_authorized := key_purpose_authorized a; user_auth_type := user_auth_type a;
     no_auth_required := no_auth_required a; caller_nonce_allowed := caller_nonce_allowed a;
     user_id := user_id a; user_secure_ids := user_secure_ids a; key_time_out := key_time_out a;
     allow_while_on_body := allow_while_on_body a; unlocked_device_required :=
     unlocked_device_required a; usage_limited := v; confirmation_required :=
     confirmation_required a; max_boot_level := max_boot_level a |}.
Definition set_confirmation_required (v : bool) (a : ParamInfo) : ParamInfo :=
  {| key_purpose_authorized := key_purpose_authorized a; user_auth_type := user_auth_type a;
     no_auth_required := no_auth_required a; caller_nonce_allowed := caller_nonce_allowed a;
     user_id := user_id a; user_secure_ids := user_secure_ids a; key_time_out := key_time_out a;
     allow_while_on_body := allow_while_on_body a; unlocked_device_required :=
     unlocked_device_required a; usage_limited := usage_limited a; confirmation_required := v;
     max_boot_level := max_boot_level a |}.
Definition set_max_boot_level (v : option Z) (a : ParamInfo) : ParamInfo :=
  {| key_purpose_authorized := key_purpose_authorized a; user_auth_type := user_auth_type a;
     no_auth_required := no_auth_required a; caller_nonce_allowed := caller_nonce_allowed a;
     user_id := user_id a; user_secure_ids := user_secure_ids a; key_time_out := key_time_out a;
     allow_while_on_body := allow_while_on_body a; unlocked_device_required :=
     unlocked_device_required a; usage_limited := usage_limited a; confirmation_required :=
     confirmation_required a; max_boot_level := v |}.

Inductive SuperEncryptionType :=
| SENone
| LskfBound
| ScreenLockBound
| BootLevel (level : Z).

(** [KEY_FLAG_AUTH_BOUND_WITHOUT_CRYPTOGRAPHIC_LSKF_BINDING] of
    [IKeystoreSecurityLevel]: a flag bit, a parameter of the section below. *)

Section Enforcement.
Context {AI : Aidl}.
Context {Db : Type} `{!AuthTokenDb Db}.

Definition km_err (n : ErrorCode.name) : AnyError := KsError (Km (val n)).

(** The [match purpose] at the top of [authorize_create]. *)
Definition check_purpose (purpose : Z) (key_params : list KeyParameter) : result AnyError unit :=
  if (purpose =? val KeyPurpose.SIGN) || (purpose =? val KeyPurpose.DECRYPT) then Ok tt
  else if purpose =? val KeyPurpose.WRAP_KEY then Err (km_err ErrorCode.INCOMPATIBLE_PURPOSE)
  else if purpose =? val KeyPurpose.AGREE_KEY then
    if existsb (fun kp => (get_tag (kp_value kp) =? val Tag.ALGORITHM) &&
                          negb (bool_decide (kp_value kp = Algorithm (val Algorithm.EC)))) key_params
    then Err (km_err ErrorCode.UNSUPPORTED_PURPOSE) else Ok tt
  else if (purpose =? val KeyPurpose.VERIFY) || (purpose =? val KeyPurpose.ENCRYPT) then
    if existsb (fun kp => bool_decide (kp_value kp = Algorithm (val Algorithm.RSA)) ||
                          bool_decide (kp_value kp = Algorithm (val Algorithm.EC))) key_params
    then Err (km_err ErrorCode.UNSUPPORTED_PURPOSE) else Ok tt
  else Err (km_err ErrorCode.UNSUPPORTED_PURPOSE).

Definition is_origination (purpose : Z) : bool :=
  (purpose =? val KeyPurpose.ENCRYPT) || (purpose =? val KeyPurpose.SIGN).
Definition is_usage (purpose : Z) : bool :=
  (purpose =? val KeyPurpose.DECRYPT) || (purpose =? val KeyPurpose.VERIFY).

(** One iteration of the loop over the key parameters. *)
Definition collect_param (now : option Z) (purpose key_id : Z) (a : ParamInfo) (kp : KeyParameter)
    : result AnyError ParamInfo :=
  match kp_value kp with
  | KeyParameter.NoAuthRequired => Ok (set_no_auth_required true a)
  | AuthTimeout t => Ok (set_key_time_out (Some t) a)
  | HardwareAuthenticatorType t => Ok (set_user_auth_type (Some t) a)
  | KeyPurpose p =>
    Ok (set_key_purpose_authorized (key_purpose_authorized a || (p =? purpose)) a)
  | CallerNonce => Ok (set_caller_nonce_allowed true a)
  | ActiveDateTime t =>
    if negb (is_given_time_passed now t true) then Err (km_err ErrorCode.KEY_NOT_YET_VALID) else Ok a
  | OriginationExpireDateTime t =>
    if is_origination purpose && is_given_time_passed now t false
    then Err (km_err ErrorCode.KEY_EXPIRED) else Ok a
  | UsageExpireDateTime t =>
    if is_usage purpose && is_given_time_passed now t false
    then Err (km_err ErrorCode.KEY_EXPIRED) else Ok a
  | UserSecureID s => Ok (set_user_secure_ids (user_secure_ids a ++ [s]) a)
  | UserID u => Ok (set_user_id u a)
  | UnlockedDeviceRequired => Ok (set_unlocked_device_required true a)
  | AllowWhileOnBody => Ok (set_allow_while_on_body true a)
  | UsageCountLimit _ => Ok (set_usage_limited (Some key_id) a)
  | TrustedConfirmationRequired => Ok (set_confirmation_required true a)
  | MaxBootLevel level => Ok (set_max_boot_level (Some level) a)
  | _ => Ok a
  end.

Definition has_sids (a : ParamInfo) : bool := negb (bool_decide (user_secure_ids a = [])).

(** The checks between the loop and the token lookup. *)
Definition check_params (s : Enforcements) (env : Env Db) (purpose : Z)
    (op_params : list KmKeyParameter) (a : ParamInfo) : result AnyError unit :=
  if negb (key_purpose_authorized a) then Err (km_err ErrorCode.INCOMPATIBLE_PURPOSE)
  else if has_sids a && no_auth_required a then Err (km_err ErrorCode.INVALID_KEY_BLOB)
  else if (bool_decide (is_Some (user_auth_type a)) && negb (has_sids a))
       || (negb (bool_decide (is_Some (user_auth_type a))) && has_sids a)
  then Err (km_err ErrorCode.KEY_USER_NOT_AUTHENTICATED)
  else if is_origination purpose && negb (caller_nonce_allowed a)
       && existsb (fun kp => tag kp =? val Tag.NONCE) op_params
  then Err (km_err ErrorCode.CALLER_NONCE_PROHIBITED)
  else if unlocked_device_required a && is_device_locked s (user_id a)
  then Err (km_err ErrorCode.DEVICE_LOCKED)
  else match max_boot_level a with
       | Some level => if negb (skm_level_accessible (boot_cache env) level)
                       then Err (km_err ErrorCode.BOOT_LEVEL_EXCEEDED) else Ok tt
       | None => Ok tt
       end.

(** The predicate a stored token has to satisfy. *)
Definition token_matches (a : ParamInfo) (e : AuthTokenEntry) : bool :=
  match user_auth_type a, has_sids a with
  | Some auth_type, true => satisfies e (user_secure_ids a) auth_type
  | _, _ => unlocked_device_required a
  end.

(** Token lookup and age check: the token to present, if one is needed. *)
Definition find_hat (env : Env Db) (a : ParamInfo) : result AnyError (option AuthTokenEntry) :=
  let timeout_bound := bool_decide (is_Some (key_time_out a)) && has_sids a in
  let need_auth_token := timeout_bound || unlocked_device_required a in
  hat_and_last_off_body ←
    (if need_auth_token then
       Some <$> ok_or (find_token (token_db env) (token_matches a))
                      (km_err ErrorCode.KEY_USER_NOT_AUTHENTICATED)
     else Ok None);
  match hat_and_last_off_body, key_time_out a with
  | Some (hat, last_off_body), Some timeout =>
    token_age ← ok_or (checked_sub (raw_now env) (time_received hat)) (KsError sys);
    let on_body_extended := allow_while_on_body a && (last_off_body <? time_received hat) in
    if (timeout <? seconds token_age) && negb on_body_extended
    then Err (km_err ErrorCode.KEY_USER_NOT_AUTHENTICATED)
    else Ok (Some hat)
  | Some (hat, _), None => Ok (Some hat)
  | None, Some _ => Panic
  | None, None => Ok None
  end.

(** The final [match (hat, requires_timestamp, per_op_bound)]. *)
Definition defer (hat : option AuthTokenEntry) (requires_timestamp per_op_bound : bool)
    : option HardwareAuthToken * DeferredAuthState :=
  match hat, requires_timestamp, per_op_bound with
  | Some _, true, true => (None, TimeStampedOpAuthRequired)
  | Some hat, true, false => (Some (auth_token hat), TimeStampRequired (auth_token hat))
  | Some hat, false, true => (Some (auth_token hat), OpAuthRequired)
  | Some hat, false, false => (Some (auth_token hat), NoAuthRequired)
  | None, _, true => (None, OpAuthRequired)
  | None, _, false => (None, NoAuthRequired)
  end.

Definition authorize_create (s : Enforcements) (env : Env Db) (purpose : Z)
    (key_properties : option (Z * list KeyParameter)) (op_params : list KmKeyParameter)
    (requires_timestamp : bool) : result AnyError (option HardwareAuthToken * AuthInfo) :=
  match key_properties with
  | None => Ok (None, {| state := NoAuthRequired; key_usage_limited := None;
                         confirmation_token_receiver := false |})
  | Some (key_id, key_params) =>
    _ ← check_purpose purpose key_params;
    a ← try_fold (collect_param (epoch_millis env) purpose key_id) param_init key_params;
    _ ← check_params s env purpose op_params a;
    if negb (unlocked_device_required a) && no_auth_required a then
      Ok (None, {| state := NoAuthRequired; key_usage_limited := usage_limited a;
                   confirmation_token_receiver := confirmation_required a |})
    else
      hat ← find_hat env a;
      let per_op_bound := negb (bool_decide (is_Some (key_time_out a))) && has_sids a in
      let '(hat, st) := defer hat requires_timestamp per_op_bound in
      Ok (hat, {| state := st; key_usage_limited := usage_limited a;
                  confirmation_token_receiver := confirmation_required a |})
  end.

Variable LSKF_BINDING_FLAG : Z.

(** [Enforcements::super_encryption_required]: the numerically largest
    priority wins, the first one on a tie. *)
Definition candidate (dom : Z) (kp : KeyParameter) : Z * SuperEncryptionType :=
  match kp_value kp with
  | MaxBootLevel level => (3, BootLevel level)
  | UnlockedDeviceRequired => if dom =? val Domain.APP then (2, ScreenLockBound) else (0, SENone)
  | UserSecureID _ => if dom =? val Domain.APP then (1, LskfBound) else (0, SENone)
  | _ => (0, SENone)
  end.
Definition stronger (dom : Z) (result : Z * SuperEncryptionType) (kp : KeyParameter)
    : Z * SuperEncryptionType :=
  let t := candidate dom kp in
  if fst result <? fst t then t else result.
Definition super_encryption_required (dom : Z) (key_parameters : list KeyParameter)
    (flags : option Z) : SuperEncryptionType :=
  if match flags with
     | Some flags => negb (Z.land flags LSKF_BINDING_FLAG =? 0)
     | None => false
     end then SENone
  else snd (fold_left (stronger dom) key_parameters (0, SENone)).

Variable secure_clock : option (Z -> result BinderStatus TimeStampToken).
Variable AUTH_TYPE_ANY : Z.

(** [Enforcements::get_auth_tokens], the lookup for credstore; its error type
    is the authorization service's. *)
Inductive AuthzError :=
| NO_AUTH_TOKEN_FOUND
| AuthzKs (e : Error).

Definition authz_get_auth_tokens (env : Env Db) (ch secure_user_id auth_token_max_age_millis : Z)
    : result AuthzError (HardwareAuthToken * TimeStampToken) :=
  let sids := [secure_user_id] in
  token ←
    match find_token (token_db env)
            (fun hat => (ch =? AuthTokenEntry_challenge hat) && satisfies hat sids AUTH_TYPE_ANY) with
    | Some (e, _) => Ok (auth_token e)
    | None =>
      if negb (auth_token_max_age_millis =? 0) then
        match find_token (token_db env)
                (fun e => match checked_sub (raw_now env) (time_received e) with
                          | None => false
                          | Some age => milliseconds age <? auth_token_max_age_millis
                          end && satisfies e sids AUTH_TYPE_ANY) with
        | Some (e, _) => Ok (auth_token e)
        | None => Err NO_AUTH_TOKEN_FOUND
        end
      else Err NO_AUTH_TOKEN_FOUND
    end;
  tst ← map_err AuthzKs (get_timestamp_token secure_clock ch);
  Ok (token, tst).
End Enforcement.

(** [Enforcements::add_auth_token]: the database first, then the waiting
    operation. *)
Definition add_auth_token (s : Enforcements) (db : PerbootDB) (hat : HardwareAuthToken) (now : Z)
    : Enforcements * PerbootDB :=
  (op_auth_map_add_auth_token s hat, insert_auth_token db hat now).

(** ** The parameters as the claims read them *)

Definition sel_sid (v : KeyParameterValue) : option Z :=
  match v with UserSecureID s => Some s | _ => None end.
Definition sel_timeout (v : KeyParameterValue) : option Z :=
  match v with AuthTimeout t => Some t | _ => None end.
Definition sel_auth_type (v : KeyParameterValue) : option Z :=
  match v with HardwareAuthenticatorType t => Some t | _ => None end.
Definition sel_boot_level (v : KeyParameterValue) : option Z :=
  match v with MaxBootLevel l => Some l | _ => None end.
Definition sel_user (v : KeyParameterValue) : option Z :=
  match v with UserID u => Some u | _ => None end.
Definition sel_limit (v : KeyParameterValue) : option Z :=
  match v with UsageCountLimit l => Some l | _ => None end.

(** The values a selector finds, in order; the loop keeps the last one. *)
Definition select (f : KeyParameterValue -> option Z) (l : list KeyParameter) : list Z :=
  omap (fun kp => f (kp_value kp)) l.
Definition has (v : KeyParameterValue) (l : list KeyParameter) : bool :=
  existsb (fun kp => bool_decide (kp_value kp = v)) l.
Definition or_else {A} (o o' : option A) : option A :=
  match o with Some a => Some a | None => o' end.

Section Facts.
Context {AI : Aidl} {Db : Type} `{!AuthTokenDb Db}.
Implicit Types l : list KeyParameter.

(** What the date parameters demand of the clock. *)
Definition dates_ok (now : option Z) (purpose : Z) (kp : KeyParameter) : Prop :=
  match kp_value kp with
  | ActiveDateTime t => is_given_time_passed now t true = true
  | OriginationExpireDateTime t => is_origination purpose = true -> is_given_time_passed now t false = false
  | UsageExpireDateTime t => is_usage purpose = true -> is_given_time_passed now t false = false
  | _ => True
  end.

(** [a] as the loop leaves it after [l], starting from [a0]. *)
Record collected (now : option Z) (purpose key_id : Z) (l : list KeyParameter)
    (a0 a : ParamInfo) : Prop := {
  col_sids : user_secure_ids a = user_secure_ids a0 ++ select sel_sid l;
  col_timeout : key_time_out a = or_else (last (select sel_timeout l)) (key_time_out a0);
  col_auth_type : user_auth_type a = or_else (last (select sel_auth_type l)) (user_auth_type a0);
  col_boot : max_boot_level a = or_else (last (select sel_boot_level l)) (max_boot_level a0);
  col_user : user_id a = default (user_id a0) (last (select sel_user l));
  col_limit : usage_limited a = if bool_decide (select sel_limit l = []) then usage_limited a0 else Some key_id;
  col_noauth : no_auth_required a = no_auth_required a0 || has KeyParameter.NoAuthRequired l;
  col_unlocked : unlocked_device_required a = unlocked_device_required a0 || has UnlockedDeviceRequired l;
  col_onbody : allow_while_on_body a = allow_while_on_body a0 || has AllowWhileOnBody l;
  col_nonce : caller_nonce_allowed a = caller_nonce_allowed a0 || has CallerNonce l;
  col_confirm : confirmation_required a = confirmation_required a0 || has TrustedConfirmationRequired l;
  col_purpose : key_purpose_authorized a = key_purpose_authorized a0 || has (KeyPurpose purpose) l;
  col_dates : Forall (dates_ok now purpose) l
}.

Lemma select_cons f kp l :
  select f (kp :: l) = match f (kp_value kp) with Some z => z :: select f l | None => select f l end.
Proof. done. Qed.
Lemma has_cons v kp l : has v (kp :: l) = bool_decide (kp_value kp = v) || has v l.
Proof. done. Qed.
Lemma last_or {A} (x : A) xs o : or_else (last (x :: xs)) o = or_else (last xs) (Some x).
Proof.
  rewrite last_cons. by destruct (last xs).
Qed.

Lemma last_default {A} (x y : A) xs : default y (last (x :: xs)) = default x (last xs).
Proof. rewrite last_cons. by destruct (last xs). Qed.

(** One step of the loop, then the rest. *)
Lemma collected_step now purpose key_id kp l a0 a1 a :
  collect_param now purpose key_id a0 kp = Ok a1 ->
  collected now purpose key_id l a1 a -> collected now purpose key_id (kp :: l) a0 a.
Proof.
  intros Hs [H1 H2 H3 H4 H5 H6 H7 H8 H9 H10 H11 H12 H13]. unfold collect_param in Hs.
  destruct kp as [v lvl]; destruct v; simpl in Hs; repeat case_in Hs; simplify_eq;
    (constructor;
     rewrite ?select_cons, ?has_cons; cbn [kp_value sel_sid sel_timeout sel_auth_type sel_boot_level
       sel_user sel_limit];
     rewrite ?last_or, ?last_default, ?bool_decide_eq_false_2 by done;
     rewrite ?bool_decide_eq_true_2 by done;
     rewrite ?orb_false_l, ?orb_true_l, ?orb_true_r, <- ?app_assoc; try done).
  all: simpl in *; try (rewrite H6; by case_match).
  all: try (constructor; [unfold dates_ok; simpl|done]; bool_prop; try done).
  all: try (intros Hp; rewrite Hp in *; done).
  all: try (rewrite H12; rewrite <- orb_assoc; do 2 f_equal;
    destruct (Z.eqb_spec z purpose) as [->|]; [by rewrite bool_decide_eq_true_2|];
    rewrite bool_decide_eq_false_2; congruence).
  all: try (rewrite H7 || rewrite H8 || rewrite H9 || rewrite H10 || rewrite H11); simpl;
    rewrite ?orb_true_r; try done.
  all: by rewrite H1, <- app_assoc.
Qed.

Lemma collect_spec now purpose key_id l a0 a :
  try_fold (collect_param now purpose key_id) a0 l = Ok a -> collected now purpose key_id l a0 a.
Proof.
  revert a0. induction l as [|kp l IH]; intros a0; simpl.
  - intros; simplify_eq. constructor; rewrite ?app_nil_r, ?orb_false_r; by try constructor.
  - rewrite bind_Ok. intros (a1 & H1 & H2). eapply collected_step; eauto.
Qed.

(** Everything an accepted [authorize_create] went through. *)
Lemma authorize_create_Ok s env purpose key_id l op_params rt hat info :
  authorize_create s env purpose (Some (key_id, l)) op_params rt = Ok (hat, info) ->
  check_purpose purpose l = Ok tt /\
  exists a, collected (epoch_millis env) purpose key_id l param_init a /\
    check_params s env purpose op_params a = Ok tt /\
    key_usage_limited info = usage_limited a /\
    confirmation_token_receiver info = confirmation_required a /\
    ((unlocked_device_required a = false /\ no_auth_required a = true /\
      hat = None /\ state info = NoAuthRequired) \/
     ((unlocked_device_required a = true \/ no_auth_required a = false) /\
      exists e, find_hat env a = Ok e /\
        (hat, state info) =
          defer e rt (negb (bool_decide (is_Some (key_time_out a))) && has_sids a))).
Proof.
  unfold authorize_create. rewrite bind_Ok. intros ([] & Hp & H). split; [done|].
  rewrite bind_Ok in H. destruct H as (a & Ha%collect_spec & H).
  rewrite bind_Ok in H. destruct H as ([] & Hc & H). exists a. split; [done|]. split; [done|].
  destruct (negb (unlocked_device_required a) && no_auth_required a) eqn:Hn.
  - simplify_eq. bool_prop. simpl. repeat split. left. done.
  - rewrite bind_Ok in H. destruct H as (e & He & H).
    destruct (defer _ _ _) as [h st] eqn:Hd. simplify_eq. simpl. repeat split. right.
    split; [|by exists e].
    apply andb_false_iff in Hn as [Hn|Hn]; [apply negb_false_iff in Hn|]; auto.
Qed.

Lemma check_params_Ok s (env : Env Db) purpose op_params a :
  check_params s env purpose op_params a = Ok tt ->
  key_purpose_authorized a = true /\
  (has_sids a = true -> no_auth_required a = false) /\
  (is_Some (user_auth_type a) <-> has_sids a = true) /\
  (is_origination purpose = true -> caller_nonce_allowed a = false ->
     existsb (fun kp => tag kp =? val Tag.NONCE) op_params = false) /\
  (unlocked_device_required a = true -> is_device_locked s (user_id a) = false) /\
  (forall lvl, max_boot_level a = Some lvl -> skm_level_accessible (boot_cache env) lvl = true).
Proof.
  unfold check_params. intros H.
  destruct (key_purpose_authorized a); [|done].
  destruct (has_sids a && no_auth_required a) eqn:H1; [done|].
  destruct (_ || _) eqn:H2 in H; [done|].
  destruct (_ && _) eqn:H3 in H; [done|].
  destruct (unlocked_device_required a && is_device_locked s (user_id a)) eqn:H4; [done|].
  split; [done|]. split; [intros Hs; by rewrite Hs in H1|]. split.
  { simpl in H2. case_bool_decide; destruct (has_sids a); simpl in H2; naive_solver. }
  split. { intros Ho Hc. rewrite Ho, Hc in H3. done. }
  split; [intros Hu; by rewrite Hu in H4|]. intros lvl Hl. rewrite Hl in H.
  by destruct (skm_level_accessible _ _).
Qed.

Lemma has_sids_spec a : has_sids a = true <-> user_secure_ids a <> [].
Proof. unfold has_sids. by rewrite negb_true_iff, bool_decide_eq_false. Qed.

Lemma find_hat_Ok env a e :
  find_hat env a = Ok e ->
  match e with
  | Some e => e ∈ entries (token_db env) /\ token_matches a e = true /\
      (forall e', e' ∈ entries (token_db env) -> token_matches a e' = true ->
                  time_received e' <= time_received e) /\
      (forall t, key_time_out a = Some t -> exists age,
         checked_sub (raw_now env) (time_received e) = Some age /\
         (seconds age <= t \/
          (allow_while_on_body a = true /\ off_body (token_db env) < time_received e)))
  | None => key_time_out a = None /\ unlocked_device_required a = false
  end.
Proof.
  unfold find_hat. rewrite bind_Ok. intros (o & Ho & H).
  destruct (bool_decide (is_Some (key_time_out a)) && has_sids a || unlocked_device_required a) eqn:Hneed.
  - destruct (find_token _ _) as [[h t]|] eqn:Hf; simpl in Ho; simplify_eq.
    apply find_token_Some in Hf as (Hin & Hm & -> & Hmax).
    destruct (key_time_out a) as [to|] eqn:Hto; simplify_eq; [|naive_solver].
    rewrite bind_Ok in H. destruct H as (age & Hage%ok_or_Ok & H).
    destruct ((to <? seconds age) && _) eqn:Hexp; simplify_eq.
    repeat split; [done..|]. intros t' [= <-]. exists age. split; [done|].
    destruct (Z.ltb_spec to (seconds age)); [|by left]. right. simpl in Hexp. bool_prop. done.
  - simplify_eq. bool_prop. destruct (key_time_out a); simplify_eq. done.
Qed.

(** C4: Authentication binding.  When [authorize_create] accepts an operation
    on a key bound to secure user ids, the caller is held to it.  A key
    without a timeout yields an operation that still has to present a per
    operation token.  A key with a timeout was matched with a stored token
    that satisfies one of the ids and the authenticator type, is the newest
    such token, and is no older (in whole seconds) than the timeout or
    received after the device was last off body when the key allows that;
    that token is the one presented now, and again with a time stamp where
    the backend needs one. *)
Theorem authorize_create_auth_bound s env purpose key_id l op_params rt hat info :
  authorize_create s env purpose (Some (key_id, l)) op_params rt = Ok (hat, info) ->
  select sel_sid l <> [] ->
  match last (select sel_timeout l) with
  | None => state info = OpAuthRequired \/ state info = TimeStampedOpAuthRequired
  | Some t => exists e auth_type age,
      last (select sel_auth_type l) = Some auth_type /\
      e ∈ entries (token_db env) /\ satisfies e (select sel_sid l) auth_type = true /\
      (forall e', e' ∈ entries (token_db env) -> satisfies e' (select sel_sid l) auth_type = true ->
                  time_received e' <= time_received e) /\
      checked_sub (raw_now env) (time_received e) = Some age /\
      (seconds age <= t \/
       (has AllowWhileOnBody l = true /\ off_body (token_db env) < time_received e)) /\
      hat = Some (auth_token e) /\
      state info = if rt then TimeStampRequired (auth_token e) else NoAuthRequired
  end.
Proof.
  intros (_ & a & Ha & Hc%check_params_Ok & _ & _ & Hcase)%authorize_create_Ok Hsid.
  destruct Hc as (_ & Hna & Hty & _). destruct Ha.
  simpl in col_sids0. rewrite <- col_sids0 in Hsid.
  assert (has_sids a = true) as Hs by (by apply has_sids_spec).
  destruct Hcase as [(_ & Hno & _)|(_ & e & He & Hd)]; [rewrite Hna in Hno by done; done|].
  rewrite Hs, andb_true_r in Hd.
  apply Hty in Hs as [ty Hty']. rewrite Hty' in col_auth_type0.
  simpl in col_timeout0, col_onbody0. apply find_hat_Ok in He.
  assert (forall x, token_matches a x = satisfies x (select sel_sid l) ty) as Htm.
  { intros x. unfold token_matches. by rewrite Hty', <- col_sids0, (proj2 (has_sids_spec a) Hsid). }
  destruct (last (select sel_timeout l)) as [t|]; simpl in col_timeout0; rewrite col_timeout0 in *.
  - destruct e as [e|]; [|by destruct He].
    destruct He as (Hin & Hm & Hmax & Hage). destruct (Hage t eq_refl) as (age & Hage1 & Hage2).
    exists e, ty, age. rewrite <- col_onbody0. rewrite Htm in Hm.
    split; [by destruct (last (select sel_auth_type l)); simplify_eq/=|].
    repeat split; [done..| |done|done| |].
    + intros e' Hin' Hs'. apply Hmax; [done|]. by rewrite Htm.
    + simpl in Hd. destruct rt; by simplify_eq.
    + simpl in Hd. destruct rt; by simplify_eq.
  - simpl in Hd. destruct e as [e|], rt; simpl in Hd; simplify_eq; auto.
Qed.

(** What a started operation implies about its key.  When
    [authorize_create] accepts, the key lists the requested purpose, every
    validity date holds at the time of the call, an origination with a
    caller chosen nonce is only accepted if the key allows it, a key that
    needs an unlocked device belongs to a user whose device is unlocked, a
    boot level bound key's level is still accessible, and the operation
    carries the key id for usage counting exactly when the key's use is
    limited. *)
Theorem authorize_create_checks s env purpose key_id l op_params rt hat info :
  authorize_create s env purpose (Some (key_id, l)) op_params rt = Ok (hat, info) ->
  has (KeyPurpose purpose) l = true /\
  Forall (dates_ok (epoch_millis env) purpose) l /\
  (is_origination purpose = true -> has CallerNonce l = false ->
     existsb (fun kp => tag kp =? val Tag.NONCE) op_params = false) /\
  (has UnlockedDeviceRequired l = true ->
     default (-1) (last (select sel_user l)) ∈ device_unlocked_set s) /\
  (forall lvl, last (select sel_boot_level l) = Some lvl ->
     skm_level_accessible (boot_cache env) lvl = true) /\
  key_usage_limited info = (if bool_decide (select sel_limit l = []) then None else Some key_id) /\
  confirmation_token_receiver info = has TrustedConfirmationRequired l.
Proof.
  intros (_ & a & Ha & Hc%check_params_Ok & Hu & Hconf & _)%authorize_create_Ok.
  destruct Hc as (Hp & _ & _ & Hnonce & Hdev & Hboot). destruct Ha; simpl in *.
  rewrite col_purpose0 in Hp. rewrite col_nonce0 in Hnonce. rewrite col_unlocked0, col_user0 in Hdev.
  rewrite col_boot0 in Hboot. repeat split; try done.
  - intros Hud. apply Hdev in Hud. unfold is_device_locked in Hud. bool_prop. done.
  - intros lvl Hl. apply Hboot. by rewrite Hl.
  - by rewrite Hu.
  - by rewrite Hconf.
Qed.

(** The state [authorize_create] hands to an operation is one
    [finalize_create_authorization] can take up: never a waiting or cached
    state; and when the result carries no immediate token and asks for
    nothing later, the key has no secure user id (or the client manages its
    own blobs and nothing is enforced). *)
Theorem authorize_create_state s env purpose key_properties op_params rt hat info :
  authorize_create s env purpose key_properties op_params rt = Ok (hat, info) ->
  is_Some (need_of (state info) 0) /\
  (hat = None -> state info = NoAuthRequired ->
     match key_properties with
     | Some (_, l) => select sel_sid l = []
     | None => True
     end).
Proof.
  destruct key_properties as [[key_id l]|]; [|intros H; simpl in H; simplify_eq; simpl; eauto].
  intros H. split.
  - apply authorize_create_Ok in H as (_ & a & _ & _ & _ & _ & Hcase).
    destruct Hcase as [(_ & _ & _ & ->)|(_ & e & _ & Hd)]; [by eexists|].
    destruct e, rt, (negb _ && _); simpl in Hd; injection Hd as _ ->; simpl; eauto.
  - intros -> Hst. apply authorize_create_Ok in H as (_ & a & [] & Hc%check_params_Ok & _ & _ & Hcase).
    destruct Hc as (_ & Hna & _). simpl in col_sids0. rewrite <- col_sids0.
    destruct (has_sids a) eqn:Hs; [exfalso|unfold has_sids in Hs; by bool_prop].
    destruct Hcase as [(_ & Hno & _)|(_ & e & He%find_hat_Ok & Hd)]; [by rewrite Hna in Hno|].
    rewrite Hst in Hd. destruct e as [e|]; [by destruct rt, (negb _ && _)|].
    destruct He as [Hto _]. by rewrite Hto in Hd.
Qed.

(** The panic marked unreachable in [authorize_create] is reached by
    exactly one kind of key: if the call panics, the key has an auth timeout
    but neither a secure user id, nor "no auth required", nor "unlocked
    device required". *)
Theorem authorize_create_panic_only s env purpose key_id l op_params rt :
  authorize_create s env purpose (Some (key_id, l)) op_params rt = Panic ->
  select sel_timeout l <> [] /\ select sel_sid l = [] /\
  has KeyParameter.NoAuthRequired l = false /\ has UnlockedDeviceRequired l = false.
Proof.
  assert (forall now p id a0 l0, try_fold (collect_param now p id) a0 l0 <> Panic) as Hnp.
  { intros now p id a0 l0. revert a0. induction l0 as [|kp l0 IH]; intros a0; simpl; [done|].
    destruct (collect_param now p id a0 kp) eqn:E; simpl; [apply IH|done|].
    unfold collect_param in E. destruct (kp_value kp); repeat case_in E; done. }
  assert (check_purpose purpose l <> Panic) as Hcp by (unfold check_purpose; by repeat case_goal).
  unfold authorize_create. destruct (check_purpose purpose l) as [[]| |]; simpl; [|done..].
  destruct (try_fold _ _ _) as [a| |] eqn:Hf; simpl; [|done|by apply Hnp in Hf].
  apply collect_spec in Hf as [].
  destruct (check_params s env purpose op_params a) as [[]| |] eqn:Hc; simpl; [|done|].
  2:{ unfold check_params in Hc. by repeat case_in Hc. }
  destruct (negb (unlocked_device_required a) && no_auth_required a) eqn:Hn; [done|].
  destruct (find_hat env a) as [e| |] eqn:Hh; simpl; [by destruct (defer _ _ _)|done|].
  intros _. unfold find_hat in Hh.
  destruct (bool_decide (is_Some (key_time_out a)) && has_sids a || unlocked_device_required a) eqn:Hneed.
  { destruct (find_token _ _) as [[h t]|]; simpl in Hh; [|done].
    destruct (key_time_out a); [|done]. destruct (checked_sub _ _); simpl in Hh; [|done].
    by case_in Hh. }
  simpl in *. destruct (key_time_out a) as [t|] eqn:Hto; [|done].
  apply orb_false_iff in Hneed as [Hs Hu]. simpl in Hs.
  rewrite Hu in Hn. simpl in Hn. rewrite <- col_noauth0, <- col_unlocked0. repeat split; try done.
  - intros He. by rewrite He in col_timeout0.
  - unfold has_sids in Hs. bool_prop. by rewrite <- col_sids0.
Qed.

(** That key exists: creating an operation with a key whose only
    parameters are the purpose and an auth timeout panics, whatever the
    state, the clocks and the token database. *)
Theorem auth_timeout_without_sid_panics s (env : Env Db) key_id t rt lvl :
  authorize_create s env (val KeyPurpose.SIGN)
    (Some (key_id, [{| kp_value := KeyPurpose (val KeyPurpose.SIGN); security_level := lvl |};
                    {| kp_value := AuthTimeout t; security_level := lvl |}])) [] rt = Panic.
Proof.
  unfold authorize_create, check_purpose. rewrite Z.eqb_refl. simpl. rewrite Z.eqb_refl.
  unfold check_params. simpl. rewrite andb_false_r. done.
Qed.

Lemma unlocked_device_checked s env purpose key_id l op_params rt hat info :
  authorize_create s env purpose (Some (key_id, l)) op_params rt = Ok (hat, info) ->
  has UnlockedDeviceRequired l = true -> is_device_locked s (default (-1) (last (select sel_user l))) = false.
Proof.
  intros (_ & a & [] & Hc%check_params_Ok & _)%authorize_create_Ok Hu.
  destruct Hc as (_ & _ & _ & _ & Hdev & _). rewrite col_unlocked0, col_user0 in Hdev. by apply Hdev.
Qed.

(** The lock is enforced: while a user's device is locked no operation
    on a key of that user that requires an unlocked device is created, and
    only unlocking that very user changes it. *)
Theorem device_lock_enforced s env purpose key_id l op_params rt hat info uid b :
  authorize_create (set_device_locked s uid b) env purpose (Some (key_id, l)) op_params rt
    = Ok (hat, info) ->
  has UnlockedDeviceRequired l = true ->
  default (-1) (last (select sel_user l)) = uid -> b = false.
Proof.
  intros Hdev Hu Huid. apply unlocked_device_checked in Hdev; [|done]. rewrite Huid in Hdev.
  unfold is_device_locked in Hdev. bool_prop.
  destruct b; [|done]. simpl in Hdev. set_solver.
Qed.

(** What the fold over the candidates ends with, from each priority. *)
Lemma stronger_boot dom lvl l : fold_left (stronger dom) l (3, BootLevel lvl) = (3, BootLevel lvl).
Proof.
  induction l as [|kp l IH]; [done|]. cbn [fold_left]. unfold stronger at 2, candidate.
  destruct (kp_value kp); simpl; try apply IH; destruct (dom =? val Domain.APP); apply IH.
Qed.

Lemma stronger_screen dom l :
  snd (fold_left (stronger dom) l (2, ScreenLockBound)) =
    match head (select sel_boot_level l) with Some lvl => BootLevel lvl | None => ScreenLockBound end.
Proof.
  induction l as [|[v lv] l IH]; [done|]. rewrite select_cons. cbn [fold_left].
  unfold stronger at 2, candidate.
  destruct v; simpl; try apply IH; try (destruct (dom =? val Domain.APP); apply IH).
  by rewrite stronger_boot.
Qed.

Lemma stronger_lskf l :
  snd (fold_left (stronger (val Domain.APP)) l (1, LskfBound)) =
    match head (select sel_boot_level l) with
    | Some lvl => BootLevel lvl
    | None => if has UnlockedDeviceRequired l then ScreenLockBound else LskfBound
    end.
Proof.
  induction l as [|[v lv] l IH]; [done|]. rewrite select_cons, has_cons. cbn [fold_left kp_value].
  unfold stronger at 2, candidate.
  destruct v; cbn [kp_value fst snd sel_boot_level head]; rewrite ?Z.eqb_refl;
    rewrite ?bool_decide_eq_false_2 by done; try apply IH; simpl.
  - by rewrite stronger_screen.
  - by rewrite stronger_boot.
Qed.

(** Which super encryption a new key gets: none if the caller waived
    it; otherwise the boot level of the first boot level tag; otherwise, for
    app keys only, screen lock binding if the device must be unlocked, and
    LSKF binding if the key has a secure user id; otherwise none. *)
Theorem super_encryption_choice flag dom l flags :
  super_encryption_required flag dom l flags =
    if match flags with Some f => negb (Z.land f flag =? 0) | None => false end then SENone
    else match head (select sel_boot_level l) with
         | Some lvl => BootLevel lvl
         | None =>
           if dom =? val Domain.APP then
             if has UnlockedDeviceRequired l then ScreenLockBound
             else if bool_decide (select sel_sid l = []) then SENone else LskfBound
           else SENone
         end.
Proof.
  unfold super_encryption_required. case_match; [done|]. clear.
  induction l as [|[v lv] l IH]; [simpl; by destruct (dom =? _)|].
  rewrite has_cons, !select_cons. cbn [fold_left kp_value]. unfold stronger at 2, candidate.
  destruct (Z.eqb_spec dom (val Domain.APP)) as [->|Hd]; cbn [kp_value].
  - destruct v; cbn [fst snd sel_boot_level sel_sid head]; rewrite ?Z.eqb_refl;
      rewrite ?(bool_decide_eq_false_2 (_ = UnlockedDeviceRequired)) by done; try apply IH; simpl.
    + by rewrite stronger_lskf.
    + by rewrite stronger_screen.
    + by rewrite stronger_boot.
  - assert ((dom =? val Domain.APP) = false) as Hd' by (by apply Z.eqb_neq).
    destruct v; cbn [fst snd sel_boot_level head]; try apply IH; simpl.
    by rewrite stronger_boot.
Qed.

(** The token the authorization service hands to credstore is one it may
    hand out: a stored token for the requested secure user id that either
    carries the requested challenge or is younger than the given age; with
    age zero only the challenge counts.  The time stamp is for the requested
    challenge. *)
Theorem authz_get_auth_tokens_sound clock any (env : Env Db) ch sid age tok tst :
  authz_get_auth_tokens clock any env ch sid age = Ok (tok, tst) ->
  get_timestamp_token clock ch = Ok tst /\
  exists e, e ∈ entries (token_db env) /\ auth_token e = tok /\ satisfies e [sid] any = true /\
    (challenge tok = ch \/
     (age <> 0 /\ exists a, checked_sub (raw_now env) (time_received e) = Some a /\ a < age)).
Proof.
  unfold authz_get_auth_tokens. rewrite bind_Ok. intros (t & Ht & H).
  rewrite bind_Ok in H. destruct H as (ts & Hts & H). simplify_eq.
  split; [by destruct (get_timestamp_token clock ch); simplify_eq/=|].
  destruct (find_token _ _) as [[e lo]|] eqn:Hf.
  - simplify_eq. apply find_token_Some in Hf as (Hin & Hp & _). bool_prop.
    exists e. repeat split; try done. by left.
  - destruct (negb (age =? 0)) eqn:Ha; [|done].
    destruct (find_token _ _) as [[e lo]|] eqn:Hf2 in Ht; [|done]. simplify_eq.
    apply find_token_Some in Hf2 as (Hin & Hp & _). bool_prop.
    exists e. repeat split; try done. right. split; [done|].
    destruct (checked_sub _ _) as [a|]; [|done]. exists a. split; [done|]. bool_prop. done.
Qed.
End Facts.

(** A date before the epoch never counts as passed: for a negative time
    the comparison is made after the conversion to an unsigned 128 bit
    number, so [is_given_time_passed] answers no at any time a clock can
    show (milliseconds below 2^64). *)
Theorem negative_time_never_passed t b now :
  i64_range t -> t < 0 -> match now with Some n => 0 <= n < 2^64 | None => True end ->
  is_given_time_passed now t b = false.
Proof.
  intros Ht Hneg Hnow. unfold is_given_time_passed. destruct now as [n|]; [|done].
  rewrite as_u128_neg by done. unfold i64_range in Ht.
  destruct b; [apply Z.leb_gt|apply Z.ltb_ge]; lia.
Qed.

(** For dates from the epoch on, the check is the comparison the comment
    on [is_given_time_passed] states. *)
Theorem given_time_passed_spec t b n :
  i64_range t -> 0 <= t ->
  is_given_time_passed (Some n) t b = if b then t <=? n else t <? n.
Proof.
  intros Ht Hpos. unfold is_given_time_passed, i64_range in *. by rewrite as_u128_nonneg by lia.
Qed.

Lemma negative_time_never_passed_witness :
  is_given_time_passed (Some 1700000000000) (-1) true = false.
Proof. apply negative_time_never_passed; vm_compute; [split; congruence|done|split; congruence]. Defined.

Lemma given_time_passed_spec_witness : is_given_time_passed (Some 10) 10 true = (10 <=? 10).
Proof. apply (given_time_passed_spec 10 true 10); vm_compute; [split; congruence|congruence]. Defined.

(** ** A concrete setting: user 10 has authenticated with secure id 7, and a
    key of that user needs an authentication of the last 30 seconds and an
    unlocked device. *)

#[local] Existing Instance aidl_published.

Definition demo_tok : HardwareAuthToken :=
  {| challenge := 42; userId := 7; authenticatorId := 8; authenticatorType := 2; timestamp := 5; mac := [] |}.
Definition demo_env : Env PerbootDB :=
  {| epoch_millis := Some 1700000000000; raw_now := 20000;
     token_db := insert_auth_token Perboot.new demo_tok 5000; boot_cache := None |}.
Definition demo_kp (v : KeyParameterValue) : KeyParameter := {| kp_value := v; security_level := 1 |}.
Definition demo_key : list KeyParameter :=
  map demo_kp [KeyPurpose (val KeyPurpose.SIGN); UserSecureID 7; HardwareAuthenticatorType 2; AuthTimeout 30;
    UserID 10; UnlockedDeviceRequired; UsageCountLimit 3; ActiveDateTime 5].
Definition demo_enf : Enforcements := set_device_locked default_enforcements 10 false.
Definition demo_info : AuthInfo :=
  {| state := NoAuthRequired; key_usage_limited := Some 99; confirmation_token_receiver := false |}.

Lemma demo_accepted :
  @authorize_create aidl_published _ _ demo_enf demo_env (val KeyPurpose.SIGN) (Some (99, demo_key)) [] false
    = Ok (Some demo_tok, demo_info).
Proof. vm_compute. reflexivity. Qed.

Lemma authorize_create_auth_bound_witness : exists e auth_type age,
  last (select sel_auth_type demo_key) = Some auth_type /\
  e ∈ entries (token_db demo_env) /\ satisfies e (select sel_sid demo_key) auth_type = true /\
  checked_sub (raw_now demo_env) (time_received e) = Some age /\ seconds age <= 30.
Proof.
  destruct (@authorize_create_auth_bound aidl_published _ _ demo_enf demo_env _ 99 demo_key [] false _ _ demo_accepted
    ltac:(vm_compute; congruence)) as (e & ty & age & H1 & H2 & H3 & _ & H4 & H5 & _).
  exists e, ty, age. repeat split; try assumption.
  destruct H5 as [H5|[H5 _]]; [exact H5|vm_compute in H5; discriminate].
Defined.

Lemma authorize_create_checks_witness :
  has UnlockedDeviceRequired demo_key = true /\ 10 ∈ device_unlocked_set demo_enf.
Proof.
  split; [reflexivity|].
  apply (@authorize_create_checks aidl_published _ _ demo_enf demo_env _ 99 demo_key [] false _ _ demo_accepted).
  reflexivity.
Defined.

Lemma authorize_create_state_witness : is_Some (need_of (state demo_info) 0).
Proof.
  apply (@authorize_create_state aidl_published _ _ demo_enf demo_env _ (Some (99, demo_key)) [] false _ _ demo_accepted).
Defined.

Definition demo_bad_key : list KeyParameter :=
  map demo_kp [KeyPurpose (val KeyPurpose.SIGN); AuthTimeout 30].

Lemma authorize_create_panic_only_witness : select sel_timeout demo_bad_key <> [].
Proof.
  apply (@authorize_create_panic_only aidl_published _ _ demo_enf demo_env (val KeyPurpose.SIGN) 99
    demo_bad_key [] false).
  vm_compute. reflexivity.
Defined.

Lemma device_lock_enforced_witness :
  authorize_create (set_device_locked default_enforcements 10 false) demo_env (val KeyPurpose.SIGN)
    (Some (99, demo_key)) [] false = Ok (Some demo_tok, demo_info) /\ false = false.
Proof.
  split; [exact demo_accepted|].
  apply (@device_lock_enforced aidl_published _ _ default_enforcements demo_env (val KeyPurpose.SIGN) 99
    demo_key [] false (Some demo_tok) demo_info 10 false demo_accepted); reflexivity.
Defined.

Definition demo_clock (ch : Z) : result BinderStatus TimeStampToken :=
  Ok {| tst_challenge := ch; tst_timestamp := 20000; tst_mac := [] |}.

Lemma authz_get_auth_tokens_sound_witness : exists e,
  e ∈ entries (token_db demo_env) /\ auth_token e = demo_tok.
Proof.
  destruct (@authz_get_auth_tokens_sound _ perboot_auth_token_db (Some demo_clock) 255 demo_env 42 7 0 demo_tok
    {| tst_challenge := 42; tst_timestamp := 20000; tst_mac := [] |} ltac:(vm_compute; reflexivity)) as (_ & e & H1 & H2 & _).
  exists e. split; assumption.
Defined.
