(* ===== verification/Operation.v ===== *)
(** * Operations ([keystore2/src/operation.rs])

    [Operation], its methods and the binder object [KeystoreOperation] around
    it.  A method runs on the operation, the shared enforcement state and the
    key database; the calls it makes to KeyMint and the events it logs are
    recorded in the order they happen.  What the surroundings answer (the
    clock, whether the binder still yields its interface, KeyMint's reply to
    a call) is the argument [Env]. *)

From stdpp Require Import base list gmap strings.
From Stdlib Require Import ZArith Lia.
From S2P Require Import Prelude Aidl Errors KeyParameter AuthInfo.

Inductive Outcome :=
| Unknown
| Success
| Abort
| Dropped
| Pruned
| OutcomeError (code : Z).

#[global] Instance Outcome_eq_dec : EqDecision Outcome.
Proof. solve_decision. Defined.

Record LoggingInfo := {
  sec_level : Z;
  purpose : Z;
  op_params : list KmKeyParameter;
  key_upgraded : bool
}.

(** [km_op] is the identity of the KeyMint operation behind the binder. *)
Record Operation := {
  index : nat;
  km_op : Z;
  last_usage : Z;
  outcome : Outcome;
  owner : Z;
  auth_info : AuthInfo;
  forced : bool;
  logging_info : LoggingInfo
}.

Definition set_outcome (o : Outcome) (p : Operation) : Operation :=
  {| index := index p; km_op := km_op p; last_usage := last_usage p; outcome := o;
     owner := owner p; auth_info := auth_info p; forced := forced p; logging_info := logging_info p |}.
Definition set_last_usage (t : Z) (p : Operation) : Operation :=
  {| index := index p; km_op := km_op p; last_usage := t; outcome := outcome p;
     owner := owner p; auth_info := auth_info p; forced := forced p; logging_info := logging_info p |}.
Definition set_auth_info (a : AuthInfo) (p : Operation) : Operation :=
  {| index := index p; km_op := km_op p; last_usage := last_usage p; outcome := outcome p;
     owner := owner p; auth_info := a; forced := forced p; logging_info := logging_info p |}.

(** [Operation::new]. *)
Definition new_operation (idx : nat) (km : Z) (own : Z) (info : AuthInfo) (frc : bool)
    (log : LoggingInfo) (now : Z) : Operation :=
  {| index := idx; km_op := km; last_usage := now; outcome := Unknown; owner := own;
     auth_info := info; forced := frc; logging_info := log |}.

(** The methods of [IKeyMintOperation]. *)
Inductive KmCall :=
| KmUpdateAad (input : bytes) (hat : option HardwareAuthToken) (tst : option TimeStampToken)
| KmUpdate (input : bytes) (hat : option HardwareAuthToken) (tst : option TimeStampToken)
| KmFinish (input signature : option bytes) (hat : option HardwareAuthToken)
    (tst : option TimeStampToken) (confirmation_token : option bytes)
| KmAbort.

(** The payload a call carries. *)
Definition km_input (c : KmCall) : bytes :=
  match c with
  | KmUpdateAad i _ _ | KmUpdate i _ _ => i
  | KmFinish i _ _ _ _ => default [] i
  | KmAbort => []
  end.

Record Env := {
  instant_now : Z;
  interface_ok : bool;
  km_reply : KmCall -> BinderStatus + bytes
}.

(** What an operation method sees and changes.  [calls] are the KeyMint calls
    with KeyMint's verdict, newest last; [logged] the outcomes handed to
    [log_key_operation_event_stats]. *)
Record World (Db : Type) := {
  op : Operation;
  enf : Enforcements;
  kdb : Db;
  calls : list (KmCall * bool);
  logged : list Outcome
}.
Arguments op {Db}. Arguments enf {Db}. Arguments kdb {Db}. Arguments calls {Db}. Arguments logged {Db}.

Definition MAX_RECEIVE_DATA : Z := 0x8000.

Section Methods.
Context {AI : Aidl} {Db : Type}.
Variable check_and_update_key_usage_count : Db -> Z -> result AnyError unit * Db.
Variable env : Env.

Abbreviation W := (World Db).
Abbreviation M := (sr W AnyError).

Definition set_op (f : Operation -> Operation) (w : W) : W :=
  {| op := f (op w); enf := enf w; kdb := kdb w; calls := calls w; logged := logged w |}.

Definition invalid_handle : Error := Km (val ErrorCode.INVALID_OPERATION_HANDLE).
Definition op_busy : Error := Rc (val ResponseCode.OPERATION_BUSY).

(** [Asp::get_interface]. *)
Definition get_interface : M unit :=
  if interface_ok env then mret tt else throw OtherError.

(** A call on the KeyMint operation, its reply through [map_km_error]. *)
Definition km_call (c : KmCall) : sr W Error bytes := fun w =>
  let r := km_reply env c in
  (map_km_error match r with inl s => Err s | inr out => Ok out end,
   {| op := op w; enf := enf w; kdb := kdb w;
      calls := calls w ++ [(c, match r with inl _ => false | inr _ => true end)];
      logged := logged w |}).

Definition check_active : M unit := fun w =>
  match outcome (op w) with
  | Unknown => (Ok tt, w)
  | _ => (Err (KsError invalid_handle), w)
  end.

Definition check_input_length (data : bytes) : result AnyError unit :=
  if MAX_RECEIVE_DATA <? Z.of_nat (length data)
  then Err (KsError (Rc (val ResponseCode.TOO_MUCH_DATA))) else Ok tt.

Definition touch : M unit := modify (set_op (set_last_usage (instant_now env))).

(** [update_outcome]: records the error of a KeyMint call. *)
Definition update_outcome {T} (m : sr W Error T) : M T := fun w =>
  let '(r, w') := m w in
  (anyhow r,
   match r with
   | Err (Km e) => set_op (set_outcome (OutcomeError e)) w'
   | Err _ => set_op (set_outcome (OutcomeError (val ErrorCode.UNKNOWN_ERROR))) w'
   | _ => w'
   end).

(** The calls into [AuthInfo] through the operation's mutex. *)
Definition with_auth_info {T}
    (f : Enforcements -> AuthInfo -> result AnyError T * AuthInfo * Enforcements) : M T := fun w =>
  let '(r, info, s) := f (enf w) (auth_info (op w)) in
  (r, {| op := set_auth_info info (op w); enf := s; kdb := kdb w; calls := calls w;
         logged := logged w |}).

Definition op_after_finish : M unit := fun w =>
  let '(r, db) := after_finish check_and_update_key_usage_count (kdb w) (auth_info (op w)) in
  (r, {| op := op w; enf := enf w; kdb := db; calls := calls w; logged := logged w |}).

Definition non_empty (output : bytes) : option bytes :=
  match output with [] => None | _ => Some output end.

Definition update_aad (aad_input : bytes) : M unit :=
  _ ← check_active;
  _ ← lift (check_input_length aad_input);
  _ ← touch;
  _ ← get_interface;
  tokens ← with_auth_info before_update;
  let '(hat, tst) := tokens in
  _ ← update_outcome (km_call (KmUpdateAad aad_input hat tst));
  mret tt.

Definition update (input : bytes) : M (option bytes) :=
  _ ← check_active;
  _ ← lift (check_input_length input);
  _ ← touch;
  _ ← get_interface;
  tokens ← with_auth_info before_update;
  let '(hat, tst) := tokens in
  output ← update_outcome (km_call (KmUpdate input hat tst));
  mret (non_empty output).

Definition finish (input signature : option bytes) : M (option bytes) :=
  _ ← check_active;
  _ ← lift (match input with Some input => check_input_length input | None => Ok tt end);
  _ ← touch;
  _ ← get_interface;
  tokens ← with_auth_info before_finish;
  let '(hat, tst, confirmation_token) := tokens in
  output ← update_outcome (km_call (KmFinish input signature hat tst confirmation_token));
  _ ← op_after_finish;
  _ ← modify (set_op (set_outcome Success));
  mret (non_empty output).

Definition abort (o : Outcome) : M unit :=
  _ ← check_active;
  _ ← modify (set_op (set_outcome o));
  _ ← get_interface;
  _ ← sr_map_err KsError (km_call KmAbort);
  mret tt.

(** [Operation::prune]; [locked] says whether another thread holds the
    outcome lock, which makes [try_lock] fail. *)
Definition prune (locked : bool) (last_usage_seen : Z) : sr W Error unit :=
  if locked then throw op_busy
  else
    o ← gets (fun w => outcome (op w));
    if negb (bool_decide (o = Unknown)) then throw invalid_handle
    else
      t ← gets (fun w => last_usage (op w));
      if negb (t =? last_usage_seen) then throw op_busy
      else
        _ ← modify (set_op (set_outcome Pruned));
        if negb (interface_ok env) then throw sys
        else fun w => (Ok tt, snd (km_call KmAbort w)).

(** [Drop for Operation]: logs, aborts an active operation, ignores the
    error; then the fields are dropped. *)
Definition drop (w : W) : W :=
  let w1 := {| op := op w; enf := enf w; kdb := kdb w; calls := calls w;
               logged := logged w ++ [outcome (op w)] |} in
  let w2 := match outcome (op w) with
            | Unknown => snd (abort Dropped w1)
            | _ => w1
            end in
  {| op := op w2; enf := drop_auth_info (enf w2) (auth_info (op w2)); kdb := kdb w2;
     calls := calls w2; logged := logged w2 |}.

(** ** [KeystoreOperation] *)

(** The binder object: whether its slot still holds the operation.  The
    object holds the only long lived strong reference. *)
Record KeystoreOperation := {
  held : bool;
  world : W
}.

Definition with_locked_operation {T} (f : M T) (delete_op : bool) (locked : bool)
    : sr KeystoreOperation AnyError T := fun k =>
  if locked then (Err (KsError op_busy), k)
  else
    let '(result, delete_op, w) :=
      if held k then
        let '(r, w) := f (world k) in (r, delete_op || is_err r, w)
      else (Err (KsError invalid_handle), delete_op, world k) in
    match result with
    | Panic => (Panic, {| held := held k; world := w |})
    | _ =>
      (result, {| held := held k && negb delete_op;
                  world := if held k && delete_op then drop w else w |})
    end.

Definition binder {T} (m : sr KeystoreOperation AnyError T) (k : KeystoreOperation)
    : result BinderStatus T * KeystoreOperation :=
  let '(r, k') := m k in (map_or_log_err r Ok, k').

(** The methods of [IKeystoreOperation]. *)
Definition ks_updateAad (aad_input : bytes) (locked : bool) :=
  binder (with_locked_operation (update_aad aad_input) false locked).
Definition ks_update (input : bytes) (locked : bool) :=
  binder (with_locked_operation (update input) false locked).
Definition ks_finish (input signature : option bytes) (locked : bool) :=
  binder (with_locked_operation (finish input signature) true locked).
Definition ks_abort (locked : bool) :=
  binder (with_locked_operation (abort Abort) true locked).
End Methods.

(** ** One call on an operation *)

Inductive OpCall :=
| CUpdateAad (input : bytes)
| CUpdate (input : bytes)
| CFinish (input signature : option bytes)
| CAbort.

#[global] Instance OpCall_eq_dec : EqDecision OpCall.
Proof. solve_decision. Defined.

Definition call_input (c : OpCall) : bytes :=
  match c with
  | CUpdateAad i | CUpdate i => i
  | CFinish i _ => default [] i
  | CAbort => []
  end.

(** The tokens a KeyMint call carries. *)
Definition km_tokens (c : KmCall) : option HardwareAuthToken * option TimeStampToken :=
  match c with
  | KmUpdateAad _ hat tst | KmUpdate _ hat tst | KmFinish _ _ hat tst _ => (hat, tst)
  | KmAbort => (None, None)
  end.

Definition km_is_update (c : KmCall) : bool :=
  match c with KmUpdateAad _ _ _ | KmUpdate _ _ _ => true | _ => false end.
Definition km_is_finish (c : KmCall) : bool :=
  match c with KmFinish _ _ _ _ _ => true | _ => false end.

(** The KeyMint call a client call turns into. *)
Definition forwards (c : OpCall) (k : KmCall) : Prop :=
  match c, k with
  | CUpdateAad i, KmUpdateAad i' _ _ => i' = i
  | CUpdate i, KmUpdate i' _ _ => i' = i
  | CFinish i sig, KmFinish i' sig' _ _ _ => i' = i /\ sig' = sig
  | CAbort, KmAbort => True
  | _, _ => False
  end.

Section Facts.
Context {AI : Aidl} {Db : Type}.
Variable usage : Db -> Z -> result AnyError unit * Db.

Abbreviation W := (World Db).
Abbreviation K := (KeystoreOperation (Db := Db)).
Implicit Types (w : W) (k : K).

Definition exec (env : Env) (c : OpCall) : sr W AnyError (option bytes) :=
  match c with
  | CUpdateAad i => _ ← update_aad env i; mret None
  | CUpdate i => update env i
  | CFinish i sig => finish usage env i sig
  | CAbort => _ ← abort env Abort; mret None
  end.

(** The same through the binder object. *)
Definition ks_exec (env : Env) (c : OpCall) (locked : bool) : sr K AnyError (option bytes) :=
  with_locked_operation env (exec env c)
    (match c with CFinish _ _ | CAbort => true | _ => false end) locked.

(** What a call that reaches KeyMint leaves behind. *)
Inductive data_effect (kc : KmCall) : result AnyError (option bytes) -> Outcome -> bool -> Prop :=
| eff_update out : km_is_update kc = true -> data_effect kc (Ok out) Unknown true
| eff_finish out : km_is_finish kc = true -> data_effect kc (Ok out) Success true
| eff_usage e : km_is_finish kc = true -> data_effect kc (Err e) Unknown true
| eff_usage_panic : km_is_finish kc = true -> data_effect kc Panic Unknown true
| eff_rejected e : data_effect kc (Err (KsError e))
    (OutcomeError (match e with Km code => code | _ => val ErrorCode.UNKNOWN_ERROR end)) false.

(** A data call on an active operation: it stops before KeyMint, or makes
    the one KeyMint call it stands for, with the tokens of the operation. *)
Definition call_effect (env : Env) (c : OpCall) w (r : result AnyError (option bytes)) w' : Prop :=
  (calls w' = calls w /\ outcome (op w') = Unknown /\ (is_err r = true \/ r = Panic)) \/
  (interface_ok env = true /\ Z.of_nat (length (call_input c)) <= MAX_RECEIVE_DATA /\
   exists kc b, calls w' = calls w ++ [(kc, b)] /\ forwards c kc /\
     data_effect kc r (outcome (op w')) b /\
     exists s info' s', get_auth_tokens s (auth_info (op w)) = (Ok (km_tokens kc), info', s')).

Lemma exec_finalized env c w :
  outcome (op w) <> Unknown -> exec env c w = (Err (KsError invalid_handle), w).
Proof.
  intros Ho. assert (check_active w = (Err (KsError invalid_handle), w)) as Hc
    by (unfold check_active; by destruct (outcome (op w))).
  destruct c; simpl; unfold update_aad, update, finish, abort, mbind, sr_bind; by rewrite Hc.
Qed.

Lemma check_input_length_Ok (data : bytes) :
  check_input_length data = Ok tt <-> Z.of_nat (length data) <= MAX_RECEIVE_DATA.
Proof. unfold check_input_length. case_goal; bool_prop; split; (done || lia). Qed.

(** The common beginning of the data calls. *)
Definition enter {T} (env : Env) (chk : result AnyError unit)
    (auth : Enforcements -> AuthInfo -> result AnyError T * AuthInfo * Enforcements) : sr W AnyError T :=
  _ ← check_active; _ ← lift chk; _ ← touch env; _ ← get_interface env; with_auth_info auth.

(** What a step leaves alone. *)
Record frame w w' : Prop := {
  fr_logged : logged w' = logged w;
  fr_index : index (op w') = index (op w);
  fr_owner : owner (op w') = owner (op w);
  fr_forced : forced (op w') = forced (op w);
  fr_limit : key_usage_limited (auth_info (op w')) = key_usage_limited (auth_info (op w))
}.
Lemma frame_refl w : frame w w. Proof. done. Qed.
Lemma frame_trans w1 w2 w3 : frame w1 w2 -> frame w2 w3 -> frame w1 w3.
Proof. intros [] []; constructor; congruence. Qed.

Definition keeps_limit {T}
    (auth : Enforcements -> AuthInfo -> result AnyError T * AuthInfo * Enforcements) : Prop :=
  forall s info r info' s', auth s info = (r, info', s') ->
    key_usage_limited info' = key_usage_limited info.

Lemma enter_spec {T} env chk (auth : _ -> _ -> result AnyError T * _ * _) w r w' :
  keeps_limit auth -> outcome (op w) = Unknown -> enter env chk auth w = (r, w') ->
  frame w w' /\ calls w' = calls w /\ outcome (op w') = Unknown /\ kdb w' = kdb w /\
  match r with
  | Ok t => chk = Ok tt /\ interface_ok env = true /\
      exists info' s', auth (enf w) (auth_info (op w)) = (Ok t, info', s')
  | _ => True
  end.
Proof.
  intros Hk Ho. unfold enter, check_active, mbind, sr_bind. rewrite Ho. unfold lift.
  destruct chk as [[]| |]; [|intros; simplify_eq; split_and!; by try constructor..].
  unfold touch, modify, get_interface, throw.
  destruct (interface_ok env); [|intros; simplify_eq; split_and!; by try constructor].
  unfold mret, sr_ret, with_auth_info. simpl.
  destruct (auth _ _) as [[r0 info] s'] eqn:Ha. apply Hk in Ha as Hl. intros; simplify_eq. simpl.
  split; [by constructor|]. repeat (split; [done|]). destruct r; eauto.
Qed.

Lemma submit_spec env kc w r w' :
  update_outcome (km_call env kc) w = (r, w') ->
  frame w w' /\ kdb w' = kdb w /\
  match r with
  | Ok _ => calls w' = calls w ++ [(kc, true)] /\ outcome (op w') = outcome (op w)
  | Err e => calls w' = calls w ++ [(kc, false)] /\ exists e', e = KsError e' /\
      outcome (op w') = OutcomeError (match e' with Km code => code | _ => val ErrorCode.UNKNOWN_ERROR end)
  | Panic => False
  end.
Proof.
  unfold update_outcome, km_call. destruct (km_reply env kc) as [st|out]; simpl; [|intros; by simplify_eq].
  destruct (km_status_error st) eqn:E; intros; simplify_eq; simpl;
    (split; [by constructor|]); eauto 10.
Qed.

Lemma get_auth_tokens_keeps_limit : keeps_limit get_auth_tokens.
Proof.
  intros s info r info' s'. unfold get_auth_tokens.
  destruct (state info); intros; simplify_eq; try done.
  repeat case_match; by simplify_eq.
Qed.

Lemma before_finish_spec s info r info' s' :
  before_finish s info = (r, info', s') -> exists s1 r',
    get_auth_tokens s1 info = (r', info', s') /\
    forall hat tst ct, r = Ok (hat, tst, ct) -> r' = Ok (hat, tst).
Proof.
  unfold before_finish.
  destruct (match confirmation_token_receiver info with true => _ | false => _ end) as [ct s1].
  destruct (get_auth_tokens s1 info) as [[r' i'] s2] eqn:Hg. intros; simplify_eq.
  exists s1, r'. split; [done|]. destruct r' as [[??]| |]; naive_solver.
Qed.

Lemma before_finish_keeps_limit : keeps_limit before_finish.
Proof. intros s info r info' s' (s1 & r' & Hg & _)%before_finish_spec. by eapply get_auth_tokens_keeps_limit. Qed.

Lemma sr_bind_case {A B} (m : sr W AnyError A) (f : A -> sr W AnyError B) w r w' :
  (m ≫= f) w = (r, w') ->
  (exists a w1, m w = (Ok a, w1) /\ f a w1 = (r, w')) \/
  (exists r0, m w = (r0, w') /\ match r0 with Ok _ => False | Err e => r = Err e | Panic => r = Panic end).
Proof. unfold mbind, sr_bind. destruct (m w) as [[a|e|] w1]; intros H; simplify_eq;
  [left; eauto|right; by exists (Err e)|right; by exists Panic]. Qed.

(** A data call is its common beginning, then the KeyMint call, then what
    follows it. *)
Lemma enter_submit {T} env c chk (auth : _ -> _ -> result AnyError T * _ * _) (mk : T -> KmCall)
    (k : T -> bytes -> sr W AnyError (option bytes)) w r w' :
  keeps_limit auth -> outcome (op w) = Unknown ->
  (chk = Ok tt -> Z.of_nat (length (call_input c)) <= MAX_RECEIVE_DATA) ->
  (forall t, forwards c (mk t)) ->
  (forall s info t info' s', auth s info = (Ok t, info', s') ->
     exists s1, get_auth_tokens s1 info = (Ok (km_tokens (mk t)), info', s')) ->
  (forall t out w1 r w2, outcome (op w1) = Unknown -> k t out w1 = (r, w2) ->
     frame w1 w2 /\ calls w2 = calls w1 /\ data_effect (mk t) r (outcome (op w2)) true) ->
  (enter env chk auth ≫= fun t => update_outcome (km_call env (mk t)) ≫= k t) w = (r, w') ->
  frame w w' /\ call_effect env c w r w'.
Proof.
  intros Hk Ho Hlen Hf Hauth Hrest H. apply sr_bind_case in H as [(t & w1 & He & H)|(r0 & He & Hr)].
  2:{ apply enter_spec in He as (Hfr & Hc & Ho' & _); [|done..]. split; [done|]. left.
      repeat (split; [done|]). destruct r0; [done| |]; subst; eauto. }
  apply enter_spec in He as (Hfr & Hc & Ho' & _ & Hchk & Hi & info' & s' & Ha); [|done..].
  apply Hauth in Ha as (s1 & Hs1).
  apply sr_bind_case in H as [(out & w2 & Hs & H)|(r0 & Hs & Hr)].
  - apply submit_spec in Hs as (Hfr2 & _ & Hc2 & Ho2).
    destruct (Hrest _ _ _ _ _ (eq_trans Ho2 Ho') H) as (Hfr3 & Hc3 & Heff).
    split; [by eapply frame_trans, frame_trans|]. right. repeat (split; [by auto|]).
    exists (mk t), true. rewrite Hc3, Hc2, Hc. eauto 10.
  - apply submit_spec in Hs as (Hfr2 & _ & Hs). destruct r0 as [|e|]; [done| |done].
    destruct Hs as (Hc2 & e' & -> & Ho2). subst r.
    split; [by eapply frame_trans|]. right. repeat (split; [by auto|]).
    exists (mk t), false. rewrite Hc2, Hc, Ho2. split; [done|]. split; [done|].
    split; [constructor|eauto].
Qed.

(** The methods in that shape. *)
Lemma enter_unfold {T B} env chk (auth : _ -> _ -> result AnyError T * _ * _) (k : T -> sr W AnyError B) w :
  (_ ← check_active; _ ← lift chk; _ ← touch env; _ ← get_interface env;
   t ← with_auth_info auth; k t) w = (enter env chk auth ≫= k) w.
Proof.
  unfold enter, mbind, sr_bind. destruct (check_active w) as [[[]| |] w1]; try done.
  unfold lift. destruct chk as [[]| |]; try done. unfold touch, modify, get_interface.
  destruct (interface_ok env); [|done]. unfold mret, sr_ret.
  by destruct (with_auth_info auth _) as [[]].
Qed.

Lemma op_after_finish_frame w r w' :
  op_after_finish usage w = (r, w') -> op w' = op w /\ calls w' = calls w /\ logged w' = logged w.
Proof. unfold op_after_finish. destruct (after_finish _ _ _). intros; by simplify_eq. Qed.

Lemma exec_data env c w r w' :
  c <> CAbort -> outcome (op w) = Unknown -> exec env c w = (r, w') ->
  frame w w' /\ call_effect env c w r w'.
Proof.
  intros Hc Ho H. destruct c as [i|i|i sig|]; [| | |done]; simpl in H.
  - eapply (enter_submit env (CUpdateAad i) (check_input_length i) before_update
      (fun '(hat, tst) => KmUpdateAad i hat tst) (fun _ _ => mret None)); try done.
    + apply get_auth_tokens_keeps_limit.
    + apply check_input_length_Ok.
    + by intros [].
    + intros s info [] info' s' Hg. by exists s.
    + intros [] out w1 r0 w2 Ho1. unfold mret, sr_ret. intros; simplify_eq. rewrite Ho1. by repeat constructor.
    + rewrite <- H, <- enter_unfold. unfold update_aad, mbind, sr_bind, mret, sr_ret.
      by repeat (case_match; simplify_eq).
  - eapply (enter_submit env (CUpdate i) (check_input_length i) before_update
      (fun '(hat, tst) => KmUpdate i hat tst) (fun _ out => mret (non_empty out))); try done.
    + apply get_auth_tokens_keeps_limit.
    + apply check_input_length_Ok.
    + by intros [].
    + intros s info [] info' s' Hg. by exists s.
    + intros [] out w1 r0 w2 Ho1. unfold mret, sr_ret. intros; simplify_eq. rewrite Ho1. by repeat constructor.
    + rewrite <- H, <- enter_unfold. unfold update, mbind, sr_bind.
      by repeat (case_match; simplify_eq).
  - eapply (enter_submit env (CFinish i sig) (match i with Some i => check_input_length i | None => Ok tt end)
      before_finish (fun '(hat, tst, ct) => KmFinish i sig hat tst ct)
      (fun _ out => _ ← op_after_finish usage; _ ← modify (set_op (set_outcome Success)); mret (non_empty out)));
      try done.
    + apply before_finish_keeps_limit.
    + destruct i; [apply check_input_length_Ok|done].
    + by intros [[] ].
    + intros s info [[hat tst] ct] info' s' (s1 & r' & Hg & Hr)%before_finish_spec.
      exists s1. by rewrite Hg, (Hr hat tst ct eq_refl).
    + intros [[] ct] out w1 r0 w2 Ho1 [([] & w3 & Hu & Hr)|(r' & Hu & Hr)]%sr_bind_case.
      * apply op_after_finish_frame in Hu as (Hop & Hca & Hlo). unfold mbind, sr_bind, modify, mret, sr_ret in Hr.
        simplify_eq. simpl. rewrite <- Hca.
        split; [constructor; simpl; congruence|]. by repeat constructor.
      * apply op_after_finish_frame in Hu as (Hop & Hca & Hlo).
        split; [constructor; congruence|]. rewrite Hop, Ho1. split; [done|].
        destruct r'; [done|subst; by constructor..].
    + rewrite <- H, <- enter_unfold. unfold finish, mbind, sr_bind.
      by repeat (case_match; simplify_eq).
Qed.

Lemma abort_spec env o w r w' :
  outcome (op w) = Unknown -> abort env o w = (r, w') ->
  frame w w' /\ outcome (op w') = o /\ r <> Panic /\
  if interface_ok env then exists b, calls w' = calls w ++ [(KmAbort, b)] else calls w' = calls w.
Proof.
  intros Ho. unfold abort, check_active, mbind, sr_bind. rewrite Ho.
  unfold modify, get_interface, sr_map_err, km_call, throw, mret, sr_ret. simpl.
  destruct (interface_ok env); [|intros; by simplify_eq].
  destruct (km_reply env KmAbort); simpl; intros; simplify_eq; simpl;
    (split; [by constructor|]); eauto.
Qed.

Lemma prune_spec env locked t w r w' :
  prune env locked t w = (r, w') ->
  frame w w' /\ kdb w' = kdb w /\ enf w' = enf w /\
  ((w' = w /\ (r = Err op_busy \/ r = Err invalid_handle)) \/
   (outcome (op w) = Unknown /\ outcome (op w') = Pruned /\ last_usage (op w) = t /\
    if interface_ok env then r = Ok tt /\ exists b, calls w' = calls w ++ [(KmAbort, b)]
    else r = Err sys /\ calls w' = calls w)).
Proof.
  assert (forall e, e = op_busy \/ e = invalid_handle -> (Err e, w) = (r, w') ->
    w' = w /\ (r = Err op_busy \/ r = Err invalid_handle)) as Hstop
    by (intros e [->| ->] H; simplify_eq; auto).
  unfold prune, throw. destruct locked.
  { intros [-> Hr]%Hstop; [|auto]. split; [by constructor|]. auto. }
  unfold mbind, sr_bind, gets, modify, km_call. simpl.
  destruct (bool_decide_reflect (outcome (op w) = Unknown)) as [Ho|Ho]; simpl.
  2:{ intros [-> Hr]%Hstop; [|auto]. split; [by constructor|]. auto. }
  destruct (Z.eqb_spec (last_usage (op w)) t); simpl.
  2:{ intros [-> Hr]%Hstop; [|auto]. split; [by constructor|]. auto. }
  clear Hstop. destruct (interface_ok env); simpl; intros; simplify_eq;
    (split; [by constructor|]); simpl; eauto 12.
Qed.

(** ** The life of an operation *)

(** The end of an operation's KeyMint trace, with the outcome that is logged
    for it; [Unknown] is logged for an operation that was dropped. *)
Inductive ended : Outcome -> list (KmCall * bool) -> Prop :=
| ended_finish kc : km_is_finish kc = true -> ended Success [(kc, true)]
| ended_abort b : ended Abort [(KmAbort, b)]
| ended_pruned b : ended Pruned [(KmAbort, b)]
| ended_rejected e kc : kc <> KmAbort -> ended (OutcomeError e) [(kc, false)]
| ended_dropped b : ended Unknown [(KmAbort, b)]
| ended_uncounted kc b : km_is_finish kc = true -> ended Unknown [(kc, true); (KmAbort, b)].

Definition accepted_update (c : KmCall * bool) : Prop := km_is_update c.1 = true /\ c.2 = true.

(** An operation is its accepted updates, and its end once it has one. *)
Definition ks_inv k : Prop := exists l t,
  calls (world k) = l ++ t /\ Forall accepted_update l /\
  if held k then logged (world k) = [] /\
                 (outcome (op (world k)) = Unknown /\ t = [] \/
                  outcome (op (world k)) = Pruned /\ ended Pruned t)
  else exists o, logged (world k) = [o] /\ ended o t.

Lemma drop_spec env w :
  interface_ok env = true ->
  logged (drop env w) = logged w ++ [outcome (op w)] /\
  (if bool_decide (outcome (op w) = Unknown)
   then exists b, calls (drop env w) = calls w ++ [(KmAbort, b)]
   else calls (drop env w) = calls w).
Proof.
  intros Hi. unfold drop. destruct (outcome (op w)) eqn:Ho; try done. simpl.
  set (w1 := {| op := op w; enf := _; kdb := _; calls := _; logged := _ |}).
  destruct (abort env Dropped w1) as [r w2] eqn:Ha.
  apply abort_spec in Ha as (Hf & _ & _ & Hb); [|done]. rewrite Hi in Hb. simpl.
  destruct Hf. rewrite fr_logged0. done.
Qed.

Inductive ks_step : K -> K -> Prop :=
| ks_step_call env c locked k r k' :
    interface_ok env = true -> ks_exec env c locked k = (r, k') -> r <> Panic -> ks_step k k'
| ks_step_prune env locked t k r w' :
    interface_ok env = true -> held k = true -> prune env locked t (world k) = (r, w') ->
    ks_step k {| held := true; world := w' |}
| ks_step_release env k :
    interface_ok env = true -> held k = true -> ks_step k {| held := false; world := drop env (world k) |}.

Lemma drop_ended env w l t :
  interface_ok env = true -> logged w = [] -> calls w = l ++ t -> Forall accepted_update l ->
  (if bool_decide (outcome (op w) = Unknown)
   then t = [] \/ exists kc, km_is_finish kc = true /\ t = [(kc, true)]
   else ended (outcome (op w)) t) ->
  ks_inv {| held := false; world := drop env w |}.
Proof.
  intros Hi Hlog Hc Hl Ht. destruct (drop_spec env w Hi) as [Hlog' Hc'].
  rewrite Hlog in Hlog'. case_bool_decide as Ho.
  - destruct Hc' as [b Hc']. rewrite Hc, <- app_assoc in Hc'. rewrite Ho in Hlog'.
    eexists l, _. split; [done|]. split; [done|]. exists Unknown. split; [done|].
    destruct Ht as [->|(kc & Hf & ->)]; by constructor.
  - rewrite Hc in Hc'. eexists l, t. split; [done|]. split; [done|]. by eexists.
Qed.

Lemma forwards_not_abort c kc : c <> CAbort -> forwards c kc -> kc <> KmAbort.
Proof. destruct c, kc; simpl; naive_solver. Qed.

(** A call on an active operation, seen from the trace. *)
Lemma exec_trace env c w r w' :
  interface_ok env = true -> outcome (op w) = Unknown -> exec env c w = (r, w') -> r <> Panic ->
  logged w' = logged w /\ exists t, calls w' = calls w ++ t /\
    match r with
    | Ok _ =>
      match c with
      | CFinish _ _ => ended Success t /\ outcome (op w') = Success
      | CAbort => ended Abort t /\ outcome (op w') = Abort
      | _ => Forall accepted_update t /\ outcome (op w') = Unknown
      end
    | _ => if bool_decide (outcome (op w') = Unknown)
           then t = [] \/ exists kc, km_is_finish kc = true /\ t = [(kc, true)]
           else ended (outcome (op w')) t
    end.
Proof.
  intros Hi Ho H Hp. destruct (decide (c = CAbort)) as [->|Hc].
  - simpl in H. apply sr_bind_case in H as [(? & w1 & Ha & H)|(r0 & Ha & H)];
      apply abort_spec in Ha as (Hf & Ha & _ & Hb); try done; rewrite Hi in Hb; destruct Hb as [b Hb].
    + unfold mret, sr_ret in H. simplify_eq. destruct Hf. split; [done|]. eexists; split; [done|].
      split; [constructor|done].
    + destruct r0; subst; [done| |done]. destruct Hf. split; [done|]. eexists; split; [done|].
      rewrite Ha. case_bool_decide; [done|constructor].
  - apply exec_data in H as ([] & Heff); [|done..]. split; [done|].
    destruct Heff as [(Hca & Ho' & [Hr|Hr])|(_ & _ & kc & b & Hca & Hfw & Heff & _)].
    + exists []. rewrite app_nil_r. split; [done|]. rewrite Ho'. destruct r; [done| |done].
      rewrite bool_decide_eq_true_2 by done. auto.
    + done.
    + eexists; split; [done|]. inversion Heff; subst; [| | |done|].
      * destruct c, kc; try done; (split; [by repeat constructor|done]).
      * destruct c, kc; try done; (split; [by repeat constructor|done]).
      * rewrite bool_decide_eq_true_2 by done. right. eauto.
      * case_bool_decide; [done|]. constructor. by eapply forwards_not_abort.
Qed.

Lemma ks_inv_step k k' : ks_step k k' -> ks_inv k -> ks_inv k'.
Proof.
  intros Hstep (l & t & Hc & Hl & Hh). destruct Hstep as [env c locked k r k' Hi H Hp|
    env locked u k r w' Hi Hheld H|env k Hi Hheld].
  - unfold ks_exec, with_locked_operation in H.
    destruct locked; [simplify_eq; by exists l, t|].
    destruct (held k) eqn:Hheld.
    2:{ simplify_eq. by exists l, t. }
    destruct Hh as [Hlog Hh]. destruct (exec env c (world k)) as [r0 w0] eqn:He. simpl in H.
    destruct Hh as [[Ho ->]|[Ho Hend]].
    + rewrite app_nil_r in Hc. destruct r0 as [out|e|]; [| |by simplify_eq].
      * apply exec_trace in He as (Hlog' & t & Hc' & Ht); [|done..]. rewrite Hlog in Hlog'. rewrite Hc in Hc'.
        simpl in H. rewrite orb_false_r in H.
        destruct c; injection H as <- <-; simpl; destruct Ht as [Ht Ho'].
        -- exists (l ++ t), []. rewrite app_nil_r. split; [done|]. split; [by apply Forall_app|]. simpl. auto.
        -- exists (l ++ t), []. rewrite app_nil_r. split; [done|]. split; [by apply Forall_app|]. simpl. auto.
        -- eapply drop_ended; [done..|]. by rewrite Ho'.
        -- eapply drop_ended; [done..|]. by rewrite Ho'.
      * apply exec_trace in He as (Hlog' & t & Hc' & Ht); [|done..]. rewrite Hlog in Hlog'. rewrite Hc in Hc'.
        simpl in H. rewrite orb_true_r in H. injection H as <- <-. by eapply drop_ended.
    + rewrite exec_finalized in He by (by rewrite Ho). injection He as <- <-. simpl in H.
      rewrite orb_true_r in H. injection H as <- <-. eapply drop_ended; [done..|]. by rewrite Ho.
  - rewrite Hheld in Hh. destruct Hh as [Hlog Hh]. apply prune_spec in H as ([] & _ & _ & H).
    destruct H as [[-> _]|(Ho & Ho' & _ & H)].
    + by exists l, t.
    + destruct Hh as [[_ ->]|[Ho2 _]]; [|congruence]. rewrite Hi in H. destruct H as (_ & b & H).
      rewrite app_nil_r in Hc. exists l, [(KmAbort, b)]. simpl. rewrite H, Hc. split; [done|]. split; [done|].
      split; [congruence|]. right. split; [done|constructor].
  - rewrite Hheld in Hh. destruct Hh as [Hlog Hh]. eapply drop_ended; [done..|].
    destruct Hh as [[-> ->]|[-> Hend]]; simpl; auto.
Qed.

Definition ks_fresh k : Prop :=
  held k = true /\ outcome (op (world k)) = Unknown /\ calls (world k) = [] /\ logged (world k) = [].

Lemma ks_reachable_inv k k' : ks_fresh k -> rtc ks_step k k' -> ks_inv k'.
Proof.
  intros (Hh & Ho & Hc & Hl). assert (ks_inv k) as Hk.
  { exists [], []. rewrite Hh, Hc, Hl, Ho. do 2 (split; [done|]). auto. }
  clear -Hk. induction 1; eauto using ks_inv_step.
Qed.

(** C8: The KeyMint protocol.  Whatever mix of client calls, pruning and
    release an operation sees (while its binder yields its interface and no
    method panics), its calls to KeyMint are accepted updates followed by the
    end that its outcome tells.  While the binder object holds the operation
    nothing is logged, and either it is still active and only updates were
    sent, or it was pruned and the last call was an abort.  Once the binder
    object gave it up exactly one outcome was logged, and the calls end the
    way that outcome says: [Success] with an accepted finish, an error with a
    rejected call, [Abort] and [Pruned] with an abort, and [Unknown] (an
    operation that was dropped) with an abort too, where an accepted finish
    whose use could not be counted may stand before it.  No KeyMint operation
    is leaked. *)
Theorem km_protocol k k' :
  ks_fresh k -> rtc ks_step k k' ->
  exists l t, calls (world k') = l ++ t /\ Forall accepted_update l /\
    if held k'
    then logged (world k') = [] /\
         (outcome (op (world k')) = Unknown /\ t = [] \/
          outcome (op (world k')) = Pruned /\ exists b, t = [(KmAbort, b)])
    else exists o, logged (world k') = [o] /\ ended o t.
Proof.
  intros Hk (l & t & Hc & Hl & Hh)%ks_reachable_inv; [|done]. exists l, t. split; [done|]. split; [done|].
  destruct (held k'); [|done]. destruct Hh as [Hlog [Hh|[Ho He]]]; split; auto. right. inversion He. eauto.
Qed.

(** A finalized operation is inert: every method and pruning report
    [INVALID_OPERATION_HANDLE], change nothing and do not reach KeyMint. *)
Theorem finalized_is_inert env c t w :
  outcome (op w) <> Unknown ->
  exec env c w = (Err (KsError invalid_handle), w) /\
  prune env false t w = (Err invalid_handle, w) /\
  calls (drop env w) = calls w.
Proof.
  intros Ho. split; [by apply exec_finalized|]. split.
  - unfold prune, mbind, sr_bind, gets, throw. by rewrite bool_decide_eq_false_2.
  - unfold drop. by destruct (outcome (op w)).
Qed.

(** What reaches KeyMint.  A client call causes at most one KeyMint
    call, the one it stands for; its input is at most 32 KiB; and it
    carries the tokens the operation's authorization state yields, so a call
    whose authorization fails never reaches KeyMint. *)
Theorem km_call_is_authorized env c w r w' :
  c <> CAbort -> outcome (op w) = Unknown -> exec env c w = (r, w') ->
  calls w' = calls w \/
  exists kc b, calls w' = calls w ++ [(kc, b)] /\ forwards c kc /\
    Z.of_nat (length (call_input c)) <= MAX_RECEIVE_DATA /\
    exists s info' s', get_auth_tokens s (auth_info (op w)) = (Ok (km_tokens kc), info', s').
Proof.
  intros Hc Ho H. apply exec_data in H as (_ & [(? & _)|(_ & ? & kc & b & ? & ? & _ & ?)]); eauto 10.
Qed.

(** Too much data is refused before anything happens: the call fails
    with [TOO_MUCH_DATA], and operation, tokens and KeyMint are untouched. *)
Theorem too_much_data env c w :
  outcome (op w) = Unknown -> MAX_RECEIVE_DATA < Z.of_nat (length (call_input c)) ->
  exec env c w = (Err (KsError (Rc (val ResponseCode.TOO_MUCH_DATA))), w).
Proof.
  intros Ho Hlen. assert (check_active w = (Ok tt, w)) as Ha by (unfold check_active; by rewrite Ho).
  assert (check_input_length (call_input c) = Err (KsError (Rc (val ResponseCode.TOO_MUCH_DATA)))) as Hl.
  { unfold check_input_length. by rewrite (proj2 (Z.ltb_lt _ _)). }
  destruct c as [i|i|[i|] sig|]; simpl in *; try (unfold MAX_RECEIVE_DATA in Hlen; lia);
    unfold update_aad, update, finish, mbind, sr_bind, lift; by rewrite Ha, Hl.
Qed.

(** Output of a usage limited key is only released after the use was
    counted: if [finish] returns its output, KeyMint accepted the finish,
    the outcome is [Success], and the usage counter of the key was updated
    successfully. *)
Theorem finish_counts_usage env input sig w out w' :
  outcome (op w) = Unknown -> finish usage env input sig w = (Ok out, w') ->
  outcome (op w') = Success /\
  (exists kc, km_is_finish kc = true /\ calls w' = calls w ++ [(kc, true)]) /\
  forall key_id, key_usage_limited (auth_info (op w)) = Some key_id ->
    usage (kdb w) key_id = (Ok tt, kdb w').
Proof.
  intros Ho H. pose proof H as Heff. apply (exec_data env (CFinish input sig)) in Heff as (_ & Heff); [|done..].
  destruct Heff as [(_ & _ & [?|?])|(_ & _ & kc & b & Hc & Hf & Heff & _)]; [done..|].
  assert (km_is_finish kc = true) as Hfin by (by destruct kc).
  inversion Heff as [? Hup Hr Ho' Hb|? Hfi Hr Ho' Hb| | |]; [by destruct kc|]. subst b.
  split; [done|]. split; [eauto|]. intros key_id Hlim.
  unfold finish in H. rewrite enter_unfold in H. sr_ok H.
  apply enter_spec in E as ([] & _ & _ & Hdb & _); [|apply before_finish_keeps_limit|done].
  destruct a as [[hat tst] ct]. sr_ok H.
  apply submit_spec in E as ([] & Hdb1 & _). unfold op_after_finish, after_finish in E0.
  rewrite fr_limit1, fr_limit0, Hlim, Hdb1, Hdb in E0.
  destruct (usage _ _) as [ru db'] eqn:Hu. simplify_eq. destruct a0.
  unfold modify in E1. unfold mret, sr_ret in H. simplify_eq. done.
Qed.
End Facts.

(** ** A concrete operation: a key limited in its use, no authorization, a
    KeyMint that accepts everything. *)

#[local] Existing Instance aidl_published.

Definition demo_usage (db : nat) (key_id : Z) : result AnyError unit * nat := (Ok tt, S db).
Definition demo_env : Env :=
  {| instant_now := 7; interface_ok := true; km_reply := fun _ => inr [1; 2; 3] |}.
Definition demo_op (o : Outcome) : Operation :=
  set_outcome o (new_operation 0 1 1000
    {| state := NoAuthRequired; key_usage_limited := Some 9; confirmation_token_receiver := false |}
    false {| sec_level := 1; purpose := 2; op_params := []; key_upgraded := false |} 5).
Definition demo_world (o : Outcome) : World nat :=
  {| op := demo_op o; enf := default_enforcements; kdb := O; calls := []; logged := [] |}.
Definition demo_ks : KeystoreOperation :=
  {| held := true; world := demo_world Unknown |}.
(** After an update and a finish. *)
Definition demo_ks1 := snd (ks_exec demo_usage demo_env (CUpdate [5]) false demo_ks).
Definition demo_ks2 := snd (ks_exec demo_usage demo_env (CFinish None None) false demo_ks1).

Lemma demo_run : rtc (ks_step demo_usage) demo_ks demo_ks2.
Proof.
  apply rtc_l with demo_ks1; [|apply rtc_once].
  - apply (ks_step_call _ demo_env (CUpdate [5]) false _ (Ok (Some [1; 2; 3]))); [done| |done].
    vm_compute. reflexivity.
  - apply (ks_step_call _ demo_env (CFinish None None) false _ (Ok (Some [1; 2; 3]))); [done| |done].
    vm_compute. reflexivity.
Qed.

Lemma km_protocol_witness : exists l t, calls (world demo_ks2) = l ++ t /\ logged (world demo_ks2) = [Success] /\ ended Success t.
Proof.
  destruct (km_protocol demo_usage demo_ks demo_ks2) as (l & t & H1 & _ & H2).
  - repeat split.
  - exact demo_run.
  - destruct H2 as (o & H2 & H3). exists l, t. split; [exact H1|]. split; [reflexivity|]. vm_compute in H2. injection H2 as <-. exact H3.
Defined.

Lemma finalized_is_inert_witness :
  exec demo_usage demo_env CAbort (demo_world Success) = (Err (KsError invalid_handle), demo_world Success).
Proof. apply (finalized_is_inert demo_usage demo_env CAbort 0 (demo_world Success)). discriminate. Defined.

Lemma km_call_is_authorized_witness : exists w' : World nat,
  calls w' = [(KmUpdate [5] None None, true)] /\
  (calls w' = [] \/ exists kc b, calls w' = [(kc, b)] /\ forwards (CUpdate [5]) kc).
Proof.
  eexists. split; cycle 1.
  - destruct (km_call_is_authorized demo_usage demo_env (CUpdate [5]) (demo_world Unknown) (Ok (Some [1; 2; 3]))
      (world demo_ks1)) as [H|(kc & b & H1 & H2 & _)]; [discriminate|reflexivity|reflexivity|left; exact H|].
    right. exists kc, b. split; [exact H1|exact H2].
  - reflexivity.
Defined.

Lemma too_much_data_witness :
  exec demo_usage demo_env (CUpdate (repeat 0 32769)) (demo_world Unknown)
    = (Err (KsError (Rc (val ResponseCode.TOO_MUCH_DATA))), demo_world Unknown).
Proof. apply too_much_data; [reflexivity|]. vm_compute. reflexivity. Defined.

Lemma finish_counts_usage_witness : exists w',
  finish demo_usage demo_env None None (demo_world Unknown) = (Ok (Some [1; 2; 3]), w') /\
  demo_usage (kdb (demo_world Unknown)) 9 = (Ok tt, kdb w').
Proof.
  eexists. split; [reflexivity|].
  apply (finish_counts_usage demo_usage demo_env None None (demo_world Unknown) (Some [1; 2; 3])); reflexivity.
Defined.
