(* ===== verification/OperationDb.v ===== *)
(** * The operation database and pruning ([keystore2/src/operation.rs])

    [OperationDb] keeps weak references to all operations in slots; it exists
    to free a KeyMint slot when KeyMint runs out of them.  An operation that
    is alive is an entry of [live], named by an identifier; a slot holds an
    identifier, and upgrading it is the lookup in [live].

    The rounding of the logarithm is that of the target's floating point
    unit, so [log6] is a parameter: [log6 n] stands for
    [(n as f64).log(6.0).floor() as u64]. *)

From stdpp Require Import base list gmap strings.
From Stdlib Require Import ZArith Lia.
From S2P Require Import Prelude Aidl Errors KeyParameter AuthInfo Operation.

Abbreviation opid := nat.

Record OperationDb := {
  slots : list opid;
  live : gmap opid Operation;
  next_op : opid;
  km_aborts : list Z             (* the KeyMint operations [prune] aborted *)
}.

Definition new_db : OperationDb := {| slots := []; live := ∅; next_op := 0; km_aborts := [] |}.

Definition with_live (f : gmap opid Operation -> gmap opid Operation) (d : OperationDb) : OperationDb :=
  {| slots := slots d; live := f (live d); next_op := next_op d; km_aborts := km_aborts d |}.

(** The search for a free slot: the first whose operation is gone. *)
Fixpoint free_slot (m : gmap opid Operation) (l : list opid) : option nat :=
  match l with
  | [] => None
  | i :: l => match m !! i with
              | None => Some O
              | Some _ => S <$> free_slot m l
              end
  end.

(** [OperationDb::create_operation]. *)
Definition create_operation (d : OperationDb) (km own : Z) (info : AuthInfo) (frc : bool)
    (log : LoggingInfo) (now : Z) : OperationDb * opid :=
  let id := next_op d in
  let idx := default (length (slots d)) (free_slot (live d) (slots d)) in
  ({| slots := match free_slot (live d) (slots d) with
               | Some i => <[i := id]> (slots d)
               | None => slots d ++ [id]
               end;
      live := <[id := new_operation idx km own info frc log now]> (live d);
      next_op := S id;
      km_aborts := km_aborts d |}, id).

(** [OperationDb::get]. *)
Definition get (d : OperationDb) (idx : nat) : option (opid * Operation) :=
  i ← slots d !! idx; o ← live d !! i; Some (i, o).

Record PruningInfo := {
  p_last_usage : Z;
  p_owner : Z;
  p_index : nat;
  p_forced : bool
}.

(** [Operation::get_pruning_info]; [locked]: another thread holds the outcome
    lock. *)
Definition get_pruning_info (locked : bool) (o : Operation) : option PruningInfo :=
  if negb locked && negb (bool_decide (outcome o = Unknown)) then None
  else Some {| p_last_usage := last_usage o; p_owner := owner o; p_index := index o;
               p_forced := forced o |}.

Definition gather (locked : opid -> bool) (d : OperationDb) : list PruningInfo :=
  omap (fun i => o ← live d !! i; get_pruning_info (locked i) o) (slots d).

(** The [owners] map: operations per owner. *)
Definition siblings (infos : list PruningInfo) (own : Z) : Z :=
  Z.of_nat (length (filter (fun p => p_owner p = own) infos)).

Record CandidateInfo := {
  c_index : nat;
  c_malus : Z;
  c_last_usage : Z;
  c_age : Z
}.

(** [now.checked_duration_since(last_usage)], zero if the clock went back; in
    nanoseconds. *)
Definition age_of (now : Z) (p : PruningInfo) : Z := Z.max 0 (now - p_last_usage p).
Definition as_secs (age : Z) : Z := age / 1000000000.

Section Prune.
Context {AI : Aidl}.
Variable log6 : Z -> Z.

Definition malus_of (now : Z) (infos : list PruningInfo) (p : PruningInfo) : Z :=
  if p_forced p then 0 else siblings infos (p_owner p) + log6 (as_secs (age_of now p) + 1).

Definition caller_malus (infos : list PruningInfo) (caller : Z) (frc : bool) : Z :=
  if frc then 0 else 1 + siblings infos caller.

(** One step of the fold over the running operations. *)
Definition consider (now : Z) (infos : list PruningInfo) (cm : Z)
    (acc : option CandidateInfo) (p : PruningInfo) : option CandidateInfo :=
  let age := age_of now p in
  let malus := malus_of now infos p in
  let c := {| c_index := p_index p; c_malus := malus; c_last_usage := p_last_usage p; c_age := age |} in
  match acc with
  | None => if cm <? malus then Some c else None
  | Some b =>
    if (c_malus b <? malus) || ((malus =? c_malus b) && (c_age b <? age)) then Some c else Some b
  end.

(** The least recently used operation of the caller. *)
Definition consider_sibling (now caller : Z) (acc : option CandidateInfo) (p : PruningInfo)
    : option CandidateInfo :=
  let age := age_of now p in
  let c := {| c_index := p_index p; c_malus := 0; c_last_usage := p_last_usage p; c_age := age |} in
  if p_owner p =? caller then
    match acc with
    | Some b => if c_age b <? age then Some c else Some b
    | None => Some c
    end
  else acc.

Definition find_candidate (now caller : Z) (frc : bool) (infos : list PruningInfo)
    : option CandidateInfo :=
  let cm := caller_malus infos caller frc in
  match fold_left (consider now infos cm) infos None with
  | Some c => Some c
  | None => fold_left (consider_sibling now caller) infos None
  end.

(** What the threads around a round of [prune] do: [r_gather] and [r_prune]
    tell whose outcome lock is held, [r_between] what happens to the
    database between the evaluation and the attempt to prune. *)
Record Round := {
  r_now : Z;
  r_gather : opid -> bool;
  r_between : OperationDb -> OperationDb;
  r_prune : opid -> bool;
  r_env : opid -> Env
}.

(** [Operation::prune] on an operation of the database. *)
Definition prune_op (rd : Round) (i : opid) (o : Operation) (seen : Z) (d : OperationDb)
    : result Error unit * OperationDb :=
  let w := {| op := o; enf := default_enforcements; kdb := tt; calls := []; logged := [] |} in
  let '(r, w') := Operation.prune (r_env rd i) (r_prune rd i) seen w in
  (r, {| slots := slots d; live := <[i := op w']> (live d); next_op := next_op d;
         km_aborts := km_aborts d ++ (if decide (calls w' = []) then [] else [km_op o]) |}).

(** One round of the loop: [None] is [continue]. *)
Definition prune_round (rd : Round) (caller : Z) (frc : bool) (d : OperationDb)
    : option (result Error unit) * OperationDb :=
  let cand := find_candidate (r_now rd) caller frc (gather (r_gather rd) d) in
  let d := r_between rd d in
  match cand with
  | None => (Some (Err (Rc (val ResponseCode.BACKEND_BUSY))), d)
  | Some c =>
    match get d (c_index c) with
    | None => (Some (Ok tt), d)
    | Some (i, o) =>
      let '(r, d') := prune_op rd i o (c_last_usage c) d in
      match r with
      | Ok tt => (Some (Ok tt), d')
      | Err (Km e) => if e =? val ErrorCode.INVALID_OPERATION_HANDLE then (Some (Ok tt), d') else (None, d')
      | Err (Rc e) => if e =? val ResponseCode.OPERATION_BUSY then (Some (Ok tt), d') else (None, d')
      | Err _ => (None, d')
      | Panic => (Some Panic, d')
      end
    end
  end.

(** [OperationDb::prune]; [None] when the rounds are used up. *)
Fixpoint prune (rounds : list Round) (caller : Z) (frc : bool) (d : OperationDb)
    : option (result Error unit) * OperationDb :=
  match rounds with
  | [] => (None, d)
  | rd :: rounds =>
    match prune_round rd caller frc d with
    | (Some r, d') => (Some r, d')
    | (None, d') => prune rounds caller frc d'
    end
  end.
End Prune.

Section Facts.
Context {AI : Aidl}.
Variable log6 : Z -> Z.
Implicit Types (infos l : list PruningInfo) (p q : PruningInfo) (c : CandidateInfo) (d : OperationDb).

(** [c] describes operation [p]. *)
Definition describes (now : Z) c p : Prop :=
  c_index c = p_index p /\ c_last_usage c = p_last_usage p /\ c_age c = age_of now p.

(** [p] is at least as weak as [q]. *)
Definition weaker_eq (now : Z) infos p q : Prop :=
  malus_of log6 now infos q < malus_of log6 now infos p \/
  (malus_of log6 now infos q = malus_of log6 now infos p /\ age_of now q <= age_of now p).

Lemma fold_consider now infos cm l :
  match fold_left (consider log6 now infos cm) l None with
  | Some c => exists p, p ∈ l /\ describes now c p /\ c_malus c = malus_of log6 now infos p /\
      cm < malus_of log6 now infos p /\ forall q, q ∈ l -> weaker_eq now infos p q
  | None => forall q, q ∈ l -> malus_of log6 now infos q <= cm
  end.
Proof.
  induction l as [|x l IH] using rev_ind; [by intros q ?%not_elem_of_nil|].
  rewrite fold_left_app. cbn [fold_left]. unfold consider at 1.
  destruct (fold_left _ l None) as [b|].
  - destruct IH as (p & Hp & Hd & Hm & Hcm & Hmax). destruct Hd as (? & ? & Hage).
    destruct (_ || _) eqn:Hb.
    + exists x. split; [set_solver|]. split; [done|]. split; [done|]. simpl.
      assert (weaker_eq now infos x p) as Hxp.
      { unfold weaker_eq. rewrite <- Hm, <- Hage. apply orb_true_iff in Hb as [Hb|Hb]; bool_prop; auto with lia. }
      split; [unfold weaker_eq in Hxp; lia|].
      intros q [Hq| ->%list_elem_of_singleton]%elem_of_app; [|right; lia].
      specialize (Hmax q Hq). unfold weaker_eq in *. lia.
    + exists p. split; [set_solver|]. repeat (split; [done|]).
      intros q [Hq| ->%list_elem_of_singleton]%elem_of_app; [by apply Hmax|].
      unfold weaker_eq. rewrite <- Hm, <- Hage. bool_prop.
      destruct (Z.eqb_spec (malus_of log6 now infos x) (c_malus b)); simpl in *; bool_prop; lia.
  - destruct (Z.ltb_spec cm (malus_of log6 now infos x)).
    + exists x. split; [set_solver|]. repeat (split; [done|]).
      intros q [Hq| ->%list_elem_of_singleton]%elem_of_app; [|right; lia].
      specialize (IH q Hq). left. lia.
    + intros q [Hq| ->%list_elem_of_singleton]%elem_of_app; auto.
Qed.

Lemma fold_sibling now caller l :
  match fold_left (consider_sibling now caller) l None with
  | Some c => exists p, p ∈ l /\ describes now c p /\ p_owner p = caller /\
      forall q, q ∈ l -> p_owner q = caller -> age_of now q <= age_of now p
  | None => forall q, q ∈ l -> p_owner q <> caller
  end.
Proof.
  induction l as [|x l IH] using rev_ind; [by intros q ?%not_elem_of_nil|].
  rewrite fold_left_app. cbn [fold_left]. unfold consider_sibling at 1.
  destruct (Z.eqb_spec (p_owner x) caller) as [Hx|Hx].
  - destruct (fold_left _ l None) as [b|].
    + destruct IH as (p & Hp & Hd & Ho & Hmax). destruct Hd as (? & ? & Hage).
      destruct (Z.ltb_spec (c_age b) (age_of now x)).
      * exists x. split; [set_solver|]. repeat (split; [done|]).
        intros q [Hq| ->%list_elem_of_singleton]%elem_of_app Hqo; [|done]. specialize (Hmax q Hq Hqo). lia.
      * exists p. split; [set_solver|]. repeat (split; [done|]).
        intros q [Hq| ->%list_elem_of_singleton]%elem_of_app Hqo; [auto|lia].
    + exists x. split; [set_solver|]. repeat (split; [done|]).
      intros q [Hq| ->%list_elem_of_singleton]%elem_of_app Hqo; [|done]. by apply IH in Hq.
  - destruct (fold_left _ l None) as [b|].
    + destruct IH as (p & Hp & Hd & Ho & Hmax). exists p. split; [set_solver|]. repeat (split; [done|]).
      intros q [Hq| ->%list_elem_of_singleton]%elem_of_app Hqo; [auto|done].
    + intros q [Hq| ->%list_elem_of_singleton]%elem_of_app; auto.
Qed.

(** What [find_candidate] selects. *)
Lemma find_candidate_cases now caller frc infos :
  match find_candidate log6 now caller frc infos with
  | Some c => exists p, p ∈ infos /\ describes now c p /\
      ((caller_malus infos caller frc < malus_of log6 now infos p /\
        forall q, q ∈ infos -> weaker_eq now infos p q) \/
       ((forall q, q ∈ infos -> malus_of log6 now infos q <= caller_malus infos caller frc) /\
        p_owner p = caller /\
        forall q, q ∈ infos -> p_owner q = caller -> age_of now q <= age_of now p))
  | None => forall q, q ∈ infos ->
      malus_of log6 now infos q <= caller_malus infos caller frc /\ p_owner q <> caller
  end.
Proof.
  unfold find_candidate.
  pose proof (fold_consider now infos (caller_malus infos caller frc) infos) as H1.
  destruct (fold_left (consider _ _ _ _) infos None) as [c|].
  - destruct H1 as (p & ? & ? & _ & ? & ?). exists p. eauto 10.
  - pose proof (fold_sibling now caller infos) as H2.
    destruct (fold_left (consider_sibling _ _) infos None) as [c|]; [|naive_solver].
    destruct H2 as (p & ? & ? & ? & ?). exists p. eauto 10.
Qed.

Lemma siblings_nonneg infos o : 0 <= siblings infos o.
Proof. unfold siblings. lia. Qed.

(** ** The slots *)

Definition db_inv d : Prop :=
  (forall i o, live d !! i = Some o -> slots d !! index o = Some i) /\
  (forall i o, live d !! i = Some o -> (i < next_op d)%nat).

Lemma free_slot_Some m (l : list opid) n :
  free_slot m l = Some n -> exists i, l !! n = Some i /\ m !! i = None.
Proof.
  revert n. induction l as [|i l IH]; intros n; simpl; [done|].
  destruct (m !! i) eqn:Hi; [|intros; simplify_eq; simpl; eauto].
  intros (k & Hk & ->)%fmap_Some. by apply IH.
Qed.

(** Methods change neither place nor owner of an operation. *)
Definition same_place (o o' : Operation) : Prop := index o' = index o.

Lemma db_inv_update d i o o' :
  db_inv d -> live d !! i = Some o -> same_place o o' -> db_inv (with_live (insert i o') d).
Proof.
  intros [H1 H2] Hi Hs. split; simpl; intros j oj; rewrite lookup_insert; case_decide; intros; simplify_eq; eauto.
  rewrite Hs. eauto.
Qed.

Lemma create_operation_inv d km own info frc log now :
  db_inv d -> db_inv (fst (create_operation d km own info frc log now)).
Proof.
  intros [H1 H2]. unfold create_operation. simpl.
  assert (live d !! next_op d = None) as Hfresh.
  { destruct (live d !! next_op d) eqn:E; [apply H2 in E; lia|done]. }
  split; simpl; intros j oj; rewrite lookup_insert; case_decide as Hj; intros Hoj; simplify_eq; simpl.
  - destruct (free_slot _ _) as [n|] eqn:Hf; simpl.
    + apply free_slot_Some in Hf as (i & Hi & _). rewrite list_lookup_insert_eq; [done|].
      by eapply lookup_lt_Some.
    + rewrite lookup_app_r by done. by rewrite Nat.sub_diag.
  - destruct (free_slot _ _) as [n|] eqn:Hf; simpl.
    + apply free_slot_Some in Hf as (i & Hi & Hd). rewrite list_lookup_insert_ne; [by apply H1|].
      intros ->. specialize (H1 _ _ Hoj). rewrite Hi in H1. simplify_eq.
    + apply H1 in Hoj. by apply lookup_app_l_Some.
  - lia.
  - apply H2 in Hoj. lia.
Qed.

Lemma get_Some d n i o : get d n = Some (i, o) <-> slots d !! n = Some i /\ live d !! i = Some o.
Proof.
  unfold get. destruct (slots d !! n) as [j|]; simpl; [|naive_solver].
  destruct (live d !! j) eqn:E; simpl; naive_solver.
Qed.

(** Operation [i] is pruned, nothing else changes. *)
Definition pruned (d d' : OperationDb) (i : opid) (o : Operation) (aborted : bool) : Prop :=
  live d !! i = Some o /\ outcome o = Unknown /\
  slots d' = slots d /\ next_op d' = next_op d /\
  live d' = <[i := set_outcome Pruned o]> (live d) /\
  km_aborts d' = km_aborts d ++ (if aborted then [km_op o] else []).

Lemma prune_op_spec rd i o seen d r d' :
  live d !! i = Some o -> prune_op rd i o seen d = (r, d') ->
  (d' = d /\ (r = Err op_busy \/ r = Err invalid_handle) /\
   (r_prune rd i = true \/ last_usage o <> seen \/ outcome o <> Unknown)) \/
  (r_prune rd i = false /\ last_usage o = seen /\
   pruned d d' i o (interface_ok (r_env rd i)) /\
   r = if interface_ok (r_env rd i) then Ok tt else Err sys).
Proof.
  intros Hi. unfold prune_op, Operation.prune, throw.
  destruct (r_prune rd i).
  { simpl. intros; simplify_eq. left. rewrite insert_id, app_nil_r by done. destruct d. auto. }
  unfold mbind, sr_bind, gets, modify, km_call. simpl.
  destruct (bool_decide_reflect (outcome o = Unknown)) as [Ho|Ho]; simpl.
  2:{ intros; simplify_eq. left. rewrite insert_id, app_nil_r by done. destruct d. auto. }
  destruct (Z.eqb_spec (last_usage o) seen) as [Hl|Hl]; simpl.
  2:{ intros; simplify_eq. left. rewrite insert_id, app_nil_r by done. destruct d. auto. }
  right. unfold pruned. destruct (interface_ok (r_env rd i)); simpl in *; simplify_eq; simpl; auto 10.
Qed.

(** A round without concurrent activity. *)
Definition quiet (rd : Round) : Prop :=
  (forall i, r_gather rd i = false) /\ (forall d, r_between rd d = d) /\ (forall i, r_prune rd i = false).

Lemma elem_of_gather locked d p :
  p ∈ gather locked d -> exists i o, i ∈ slots d /\ live d !! i = Some o /\
    get_pruning_info (locked i) o = Some p.
Proof.
  unfold gather. intros (i & Hi & Hp)%list_elem_of_omap. apply bind_Some in Hp as (o & ? & ?). eauto 10.
Qed.

Lemma get_pruning_info_Some locked o p :
  get_pruning_info locked o = Some p ->
  p_index p = index o /\ p_last_usage p = last_usage o /\ p_owner p = owner o /\ p_forced p = forced o /\
  (locked = false -> outcome o = Unknown).
Proof.
  unfold get_pruning_info. destruct (negb locked && _) eqn:E; [done|]. intros; simplify_eq. simpl.
  repeat split. intros ->. simpl in E. by bool_prop.
Qed.

(** Where a candidate comes from. *)
Lemma candidate_source rd caller frc d c :
  find_candidate log6 (r_now rd) caller frc (gather (r_gather rd) d) = Some c ->
  exists i o, i ∈ slots d /\ live d !! i = Some o /\ c_index c = index o /\ c_last_usage c = last_usage o /\
    (r_gather rd i = false -> outcome o = Unknown).
Proof.
  intros H. pose proof (find_candidate_cases (r_now rd) caller frc (gather (r_gather rd) d)) as Hc.
  rewrite H in Hc. destruct Hc as (p & Hp & (H1 & H2 & _) & _).
  apply elem_of_gather in Hp as (i & o & Hi & Ho & Hp). apply get_pruning_info_Some in Hp as (H3 & H4 & _ & _ & H5).
  exists i, o. repeat split; try done; congruence.
Qed.

(** The three ways a round ends. *)
Lemma prune_round_cases rd caller frc d res d' :
  prune_round log6 rd caller frc d = (res, d') ->
  match find_candidate log6 (r_now rd) caller frc (gather (r_gather rd) d) with
  | None => res = Some (Err (Rc (val ResponseCode.BACKEND_BUSY))) /\ d' = r_between rd d
  | Some c =>
    (res = Some (Ok tt) /\ d' = r_between rd d /\
     forall i o, get (r_between rd d) (c_index c) = Some (i, o) ->
       r_prune rd i = true \/ last_usage o <> c_last_usage c \/ outcome o <> Unknown) \/
    exists i o, get (r_between rd d) (c_index c) = Some (i, o) /\ r_prune rd i = false /\
      last_usage o = c_last_usage c /\
      pruned (r_between rd d) d' i o (interface_ok (r_env rd i)) /\
      res = if interface_ok (r_env rd i) then Some (Ok tt) else None
  end.
Proof.
  unfold prune_round. destruct (find_candidate _ _ _ _ _) as [c|]; [|intros; by simplify_eq].
  destruct (get _ _) as [[i o]|] eqn:Hg; [|intros; simplify_eq; left; naive_solver].
  destruct (prune_op rd i o _ _) as [r d1] eqn:Hp.
  apply get_Some in Hg as Hg'. destruct Hg' as [_ Hl].
  apply prune_op_spec in Hp as [(-> & Hr & Hwhy)|(Hlock & Hu & Hpr & ->)]; [| |done].
  - intros H. left. assert (res = Some (Ok tt) /\ d' = r_between rd d) as [-> ->].
    { unfold op_busy, invalid_handle in Hr. destruct Hr as [-> | ->]; rewrite Z.eqb_refl in H; by simplify_eq. }
    split; [done|]. split; [done|]. intros; by simplify_eq.
  - intros H. right. exists i, o. split; [done|]. split; [done|]. split; [done|].
    destruct (interface_ok (r_env rd i)); [by simplify_eq|]. unfold sys in H. simpl in H.
    assert ((val ResponseCode.SYSTEM_ERROR =? val ResponseCode.OPERATION_BUSY) = false) as Hne.
    { apply Z.eqb_neq. intros He. by apply val_inj in He. }
    rewrite Hne in H. by simplify_eq.
Qed.

(** ** Reachable databases *)

Inductive db_step : OperationDb -> OperationDb -> Prop :=
| db_create d km own info frc log now :
    db_step d (fst (create_operation d km own info frc log now))
| db_method d i o o' :       (* any method of a live operation *)
    live d !! i = Some o -> same_place o o' -> db_step d (with_live (insert i o') d)
| db_drop d i : db_step d (with_live (delete i) d)
| db_prune_round rd caller frc d res d' :
    (forall d, db_inv d -> db_inv (r_between rd d)) ->
    prune_round log6 rd caller frc d = (res, d') -> db_step d d'.

Lemma pruned_inv d d' i o b : db_inv d -> pruned d d' i o b -> db_inv d'.
Proof.
  intros H (Hl & _ & Hs & Hn & Hl' & _). destruct (db_inv_update d i o (set_outcome Pruned o)) as [H1 H2]; [done..|].
  simpl in *. split; rewrite Hl', ?Hs, ?Hn; auto.
Qed.

Lemma db_inv_step d d' : db_step d d' -> db_inv d -> db_inv d'.
Proof.
  destruct 1 as [|? i o o' Hi Hs|d i|rd caller frc d res d' Hb H]; intros Hinv.
  - by apply create_operation_inv.
  - by eapply db_inv_update.
  - destruct Hinv as [H1 H2]. split; simpl; intros j oj [_ Hj]%lookup_delete_Some; eauto.
  - apply prune_round_cases in H. destruct (find_candidate _ _ _ _ _).
    + destruct H as [(_ & -> & _)|(i & o & _ & _ & _ & Hp & _)]; [auto|].
      eapply pruned_inv; [|done]. auto.
    + destruct H as [_ ->]. auto.
Qed.

Lemma db_reachable_inv d : rtc db_step new_db d -> db_inv d.
Proof.
  assert (db_inv new_db) as H0 by (split; intros i o Hi; simpl in Hi; by rewrite lookup_empty in Hi).
  revert H0. induction 2 as [|d1 d2 d3 Hs _ IH]; [done|]. by apply IH, (db_inv_step d1).
Qed.

(** Which operation is chosen.  If some running operation has a malus
    above the caller's (the number of its owner's running operations plus
    the logarithmic age, zero for a forced operation, against one plus the
    caller's running operations, zero for a forced caller), the candidate has
    the largest malus and, among those, the largest age.  Otherwise it is the
    caller's least recently used operation, and there is no candidate only if
    the caller has none. *)
Theorem find_candidate_spec now caller frc infos :
  let cm := caller_malus infos caller frc in
  let malus := malus_of log6 now infos in
  match find_candidate log6 now caller frc infos with
  | Some c => exists p, p ∈ infos /\ c_index c = p_index p /\ c_last_usage c = p_last_usage p /\
      ((cm < malus p /\ forall q, q ∈ infos ->
          malus q < malus p \/ (malus q = malus p /\ age_of now q <= age_of now p)) \/
       ((forall q, q ∈ infos -> malus q <= cm) /\ p_owner p = caller /\
        forall q, q ∈ infos -> p_owner q = caller -> age_of now q <= age_of now p))
  | None => forall q, q ∈ infos -> malus q <= cm /\ p_owner q <> caller
  end.
Proof.
  simpl. pose proof (find_candidate_cases now caller frc infos) as H.
  destruct (find_candidate _ _ _ _ _); [|done].
  destruct H as (p & Hp & (H1 & H2 & _) & H). exists p. done.
Qed.

(** Fair play.  A caller that does not force its way never gets an
    operation of somebody else that is young (used in the last five
    seconds) and its owner's only one; and nobody, not even a forced caller,
    gets a forced operation of somebody else. *)
Theorem bystanders_are_safe now caller frc infos c p :
  (forall n, 1 <= n < 6 -> log6 n = 0) ->
  find_candidate log6 now caller frc infos = Some c ->
  p_owner p <> caller ->
  p_forced p = true \/
    (frc = false /\ siblings infos (p_owner p) <= 1 /\ age_of now p < 5000000000) ->
  (forall q, q ∈ infos -> p_index q = p_index p -> q = p) ->
  c_index c <> p_index p.
Proof.
  intros Hlog Hf Ho Hyoung Huniq Hidx.
  pose proof (find_candidate_cases now caller frc infos) as H. rewrite Hf in H.
  destruct H as (q & Hq & (H1 & _ & _) & H). rewrite H1 in Hidx. apply Huniq in Hidx; [|done]. subst q.
  destruct H as [[H _]|(_ & H & _)]; [|done]. unfold caller_malus, malus_of in H.
  pose proof (siblings_nonneg infos caller).
  destruct Hyoung as [Hp|(-> & Hs & Ha)].
  - rewrite Hp in H. destruct frc; lia.
  - destruct (p_forced p); [lia|]. unfold as_secs in H.
    assert (0 <= age_of now p / 1000000000 < 5).
    { split; [apply Z.div_pos; unfold age_of; lia|]. apply Z.div_lt_upper_bound; lia. }
    rewrite Hlog in H; lia.
Qed.

(** Slots and indices agree: in every reachable database, looking up the
    index of a live operation yields that operation. *)
Theorem slot_index_coherent d i o :
  rtc db_step new_db d -> live d !! i = Some o -> get d (index o) = Some (i, o).
Proof. intros [H _]%db_reachable_inv Hi. apply get_Some. auto. Qed.

(** One round of [prune] under any concurrent activity.  It changes at
    most one operation: one that is active, whose lock is free, and that was
    not used since it was evaluated; that one is marked pruned and aborted at
    KeyMint.  [BACKEND_BUSY] is reported only when there was no candidate. *)
Theorem prune_round_effect rd caller frc d res d' :
  prune_round log6 rd caller frc d = (res, d') ->
  match res with
  | Some (Err e) => e = Rc (val ResponseCode.BACKEND_BUSY) /\ d' = r_between rd d /\
      find_candidate log6 (r_now rd) caller frc (gather (r_gather rd) d) = None
  | Some Panic => False
  | _ => d' = r_between rd d \/
      exists i o c, find_candidate log6 (r_now rd) caller frc (gather (r_gather rd) d) = Some c /\
        slots (r_between rd d) !! c_index c = Some i /\ r_prune rd i = false /\
        last_usage o = c_last_usage c /\ pruned (r_between rd d) d' i o (is_ok (default (Err sys) res))
  end.
Proof.
  intros H. apply prune_round_cases in H.
  destruct (find_candidate _ _ _ _ _) as [c|]; [|by destruct H as [-> ->]].
  destruct H as [(-> & -> & _)|(i & o & Hg & Hl & Hu & Hp & ->)]; [by left|].
  apply get_Some in Hg as [Hs _].
  destruct (interface_ok _); (right; exists i, o, c; split_and!; done).
Qed.

(** Without concurrent activity a round frees a slot whenever it
    reports success: exactly one active operation is now pruned and aborted
    at KeyMint, the candidate. *)
Theorem quiet_prune_frees_slot rd caller frc d d' :
  rtc db_step new_db d -> quiet rd -> prune_round log6 rd caller frc d = (Some (Ok tt), d') ->
  exists i o c, find_candidate log6 (r_now rd) caller frc (gather (r_gather rd) d) = Some c /\
    c_index c = index o /\ pruned d d' i o true.
Proof.
  intros Hinv%db_reachable_inv (Hq1 & Hq2 & Hq3) H. apply prune_round_cases in H. rewrite Hq2 in H.
  destruct (find_candidate _ _ _ _ _) as [c|] eqn:Hc; [|by destruct H].
  apply candidate_source in Hc as (i & o & _ & Hi & Hidx & Hu & Hout). specialize (Hout (Hq1 i)).
  assert (get d (c_index c) = Some (i, o)) as Hg.
  { apply get_Some. rewrite Hidx. split; [by apply Hinv|done]. }
  destruct H as [(_ & _ & H)|(j & oj & Hj & _ & _ & Hp & Hres)].
  - destruct (H _ _ Hg) as [Hx|[Hx|Hx]]; [by rewrite Hq3 in Hx|congruence|done].
  - rewrite Hg in Hj. simplify_eq. destruct (interface_ok _); [|done]. exists j, oj, c. done.
Qed.

(** ** Termination *)

Definition active d : gmap opid Operation := filter (fun kv => outcome kv.2 = Unknown) (live d).

Lemma pruned_active d d' i o b : pruned d d' i o b -> (size (active d') < size (active d))%nat.
Proof.
  intros (Hl & Ho & _ & _ & Hl' & _). unfold active. rewrite Hl'.
  rewrite map_filter_insert_False by done. rewrite map_filter_delete.
  rewrite map_size_delete_Some; [|eexists; by apply map_lookup_filter_Some].
  assert (size (filter (fun kv : opid * Operation => outcome kv.2 = Unknown) (live d)) <> 0%nat); [|lia].
  apply map_size_non_empty_iff. intros He.
  assert (filter (fun kv : opid * Operation => outcome kv.2 = Unknown) (live d) !! i = Some o) as Hs
    by (by apply map_lookup_filter_Some).
  by rewrite He, lookup_empty in Hs.
Qed.

(** [prune] terminates: without concurrent activity it takes at most one
    round more than there are active operations, even if KeyMint's
    interface is gone for all of them. *)
Theorem prune_terminates rounds caller frc d :
  Forall quiet rounds -> (size (active d) < length rounds)%nat ->
  exists r d', prune log6 rounds caller frc d = (Some r, d').
Proof.
  intros Hq. revert d. induction Hq as [|rd rounds Hrd Hq IH]; intros d Hlen; simpl in *; [lia|].
  destruct (prune_round log6 rd caller frc d) as [[r|] d1] eqn:Hr; [eauto|].
  apply IH. apply prune_round_cases in Hr. destruct Hrd as (_ & Hb & _). rewrite Hb in Hr.
  destruct (find_candidate _ _ _ _ _); [|by destruct Hr].
  destruct Hr as [[? _]|(i & o & _ & _ & _ & Hp & _)]; [done|]. apply pruned_active in Hp. lia.
Qed.
End Facts.

(** ** A concrete database: owner 1000 runs two operations, owner 2000 one. *)

#[local] Existing Instance aidl_published.

(** The exact integer logarithm to base 6, for numbers below [6^fuel]. *)
Fixpoint exact_log6 (fuel : nat) (n : Z) : Z :=
  match fuel with
  | O => 0
  | S fuel => if n <? 6 then 0 else 1 + exact_log6 fuel (n / 6)
  end.
Definition demo_log6 : Z -> Z := exact_log6 64.

Lemma demo_log6_small n : 1 <= n < 6 -> demo_log6 n = 0.
Proof. intros H. unfold demo_log6. cbn [exact_log6]. by rewrite (proj2 (Z.ltb_lt n 6)) by lia. Qed.

Definition demo_add (own t : Z) (d : OperationDb) : OperationDb :=
  fst (create_operation d t own
    {| state := NoAuthRequired; key_usage_limited := None; confirmation_token_receiver := false |}
    false {| sec_level := 1; purpose := 2; op_params := []; key_upgraded := false |} t).
Definition demo_db : OperationDb := demo_add 2000 9000000000 (demo_add 1000 8000000000 (demo_add 1000 7000000000 new_db)).
Definition demo_round : Round :=
  {| r_now := 10000000000; r_gather := fun _ => false; r_between := fun d => d; r_prune := fun _ => false;
     r_env := fun _ => {| instant_now := 0; interface_ok := true; km_reply := fun _ => inr [] |} |}.
Definition demo_infos : list PruningInfo := gather (fun _ => false) demo_db.
Definition demo_victim : PruningInfo := {| p_last_usage := 9000000000; p_owner := 2000; p_index := 2; p_forced := false |}.
Definition demo_after : OperationDb := snd (prune_round demo_log6 demo_round 3000 false demo_db).

Lemma demo_db_reachable : rtc (db_step demo_log6) new_db demo_db.
Proof.
  unfold demo_db. eapply rtc_l; [apply db_create|]. eapply rtc_l; [apply db_create|].
  eapply rtc_l; [apply db_create|]. apply rtc_refl.
Qed.

Lemma demo_prune : prune_round demo_log6 demo_round 3000 false demo_db = (Some (Ok tt), demo_after).
Proof. vm_compute. reflexivity. Qed.

Lemma bystanders_are_safe_witness : exists c,
  find_candidate demo_log6 10000000000 3000 false demo_infos = Some c /\ c_index c <> 2%nat.
Proof.
  eexists. split; [vm_compute; reflexivity|].
  apply (bystanders_are_safe demo_log6 10000000000 3000 false demo_infos _ demo_victim demo_log6_small).
  - vm_compute. reflexivity.
  - discriminate.
  - right. vm_compute. split; [reflexivity|]. split; [congruence|reflexivity].
  - intros q Hq Hi. vm_compute in Hq. set_solver.
Defined.

Lemma slot_index_coherent_witness : exists i o, live demo_db !! i = Some o /\ get demo_db (index o) = Some (i, o).
Proof.
  exists 1%nat. eexists. split; [vm_compute; reflexivity|].
  apply (slot_index_coherent demo_log6 demo_db 1%nat _ demo_db_reachable). vm_compute. reflexivity.
Defined.

Lemma prune_round_effect_witness : demo_after = r_between demo_round demo_db \/
  exists i o c, find_candidate demo_log6 10000000000 3000 false demo_infos = Some c /\
    pruned demo_db demo_after i o true.
Proof.
  destruct (prune_round_effect demo_log6 demo_round 3000 false demo_db _ _ demo_prune)
    as [H|(i & o & c & H1 & _ & _ & _ & H2)]; [left; exact H|right; exists i, o, c; split; assumption].
Defined.

Lemma quiet_prune_frees_slot_witness : exists i o, pruned demo_db demo_after i o true.
Proof.
  destruct (quiet_prune_frees_slot demo_log6 demo_round 3000 false demo_db demo_after demo_db_reachable)
    as (i & o & c & _ & _ & H); [repeat split|exact demo_prune|exists i, o; exact H].
Defined.

Lemma prune_terminates_witness : exists r d',
  prune demo_log6 (repeat demo_round 4) 3000 false demo_db = (Some r, d').
Proof.
  apply (prune_terminates demo_log6 (repeat demo_round 4) 3000 false demo_db).
  - repeat constructor.
  - vm_compute. lia.
Defined.
