(* ===== verification/DbTypes.v ===== *)
(** * Column types and metadata of the key database
    ([keystore2/src/database.rs], [database/utils.rs])

    The types that are stored in single columns, with their conversions, and
    the metadata collections the macro [impl_metadata!] generates.  The macro
    is the class [MetaEntry]: what it generates per variant (tag, encoding,
    decoding) is an instance, what it generates once per collection is defined
    over the class. *)

From stdpp Require Import base list gmap strings.
From Stdlib Require Import ZArith Lia.
From S2P Require Import Prelude Aidl Errors Sql.

Module KeyType.
Inductive t := Client | Super | Attestation.
#[global] Instance eq_dec : EqDecision t.
Proof. solve_decision. Defined.

Definition to_sql (k : t) : Value :=
  Integer match k with Client => 0 | Super => 1 | Attestation => 2 end.
Definition column_result (v : Value) : result AnyError t :=
  match get_i64 v with
  | Some 0 => Ok Client
  | Some 1 => Ok Super
  | Some 2 => Ok Attestation
  | _ => Err OtherError
  end.
Lemma key_type_roundtrip k : column_result (to_sql k) = Ok k.
Proof. by destruct k. Qed.
End KeyType.

Module KeyLifeCycle.
Inductive t := Existing | Live | Unreferenced.
#[global] Instance eq_dec : EqDecision t.
Proof. solve_decision. Defined.

Definition to_sql (k : t) : Value :=
  Integer match k with Existing => 0 | Live => 1 | Unreferenced => 2 end.
Definition column_result (v : Value) : result AnyError t :=
  match get_i64 v with
  | Some 0 => Ok Existing
  | Some 1 => Ok Live
  | Some 2 => Ok Unreferenced
  | _ => Err OtherError
  end.
Lemma key_life_cycle_roundtrip k : column_result (to_sql k) = Ok k.
Proof. by destruct k. Qed.
End KeyLifeCycle.

(** [SubComponentType] is a [u32]. *)
Module SubComponentType.
Definition KEY_BLOB : Z := 0.
Definition CERT : Z := 1.
Definition CERT_CHAIN : Z := 2.
End SubComponentType.

(** [KeyEntryLoadBits], a bitmap. *)
Module LoadBits.
Definition NONE : Z := 0.
Definition KM : Z := 1.
Definition PUBLIC : Z := 2.
Definition BOTH : Z := 3.
Definition load_public (b : Z) : bool := negb (Z.land b PUBLIC =? 0).
Definition load_km (b : Z) : bool := negb (Z.land b KM =? 0).
End LoadBits.

(** [Uuid]: 16 bytes. *)
Abbreviation Uuid := bytes (only parsing).

(** [(sec_level.0 as u128).to_be_bytes()]. *)
Fixpoint be_bytes (n : nat) (z : Z) : bytes :=
  match n with
  | O => []
  | S n => be_bytes n (z / 256) ++ [z mod 256]
  end.
Definition uuid_of_security_level (sec_level : Z) : Uuid := be_bytes 16 (as_u128 sec_level).

Definition uuid_column_result (v : Value) : result AnyError Uuid :=
  match get_bytes v with
  | Some b => if decide (length b = 16%nat) then Ok b else Err OtherError
  | None => Err OtherError
  end.

Definition KEYSTORE_UUID : Uuid :=
  [0x41; 0xe3; 0xb9; 0xce; 0x27; 0x58; 0x4e; 0x91; 0xbc; 0xfd; 0xa5; 0x5d; 0x91; 0x85; 0xab; 0x11].

Inductive EncryptedBy :=
| Password
| EncKeyId (id : Z).

Definition encrypted_by_to_sql (e : EncryptedBy) : Value :=
  match e with Password => Null | EncKeyId id => Integer id end.
Definition encrypted_by_column_result (v : Value) : result AnyError EncryptedBy :=
  match v with
  | Null => Ok Password
  | _ => EncKeyId <$> ok_or (get_i64 v) OtherError
  end.

#[global] Instance EncryptedBy_eq_dec : EqDecision EncryptedBy.
Proof. solve_decision. Defined.

(** [DateTime]: milliseconds since the epoch, an [i64]. *)
Abbreviation DateTime := Z (only parsing).
Definition to_secs_epoch (d : DateTime) : Z := Z.quot d 1000.

(** ** Metadata *)

Class MetaEntry (E : Type) := {
  db_tag : E -> Z;
  meta_to_sql : E -> Value;
  meta_new_from_sql : Z -> Value -> result AnyError E;
  meta_wf : E -> Prop;
  meta_roundtrip : forall e, meta_wf e -> meta_new_from_sql (db_tag e) (meta_to_sql e) = Ok e;
  meta_tag_kept : forall t v e, meta_new_from_sql t v = Ok e -> db_tag e = t
}.

Inductive KeyMetaEntry :=
| CreationDate (d : DateTime)
| AttestationExpirationDate (d : DateTime)
| AttestationMacedPublicKey (b : bytes)
| AttestationRawPubKey (b : bytes)
| Sec1PublicKey (b : bytes).

Module KeyMetaTag.
Definition CreationDate : Z := 0.
Definition AttestationExpirationDate : Z := 1.
Definition AttestationMacedPublicKey : Z := 2.
Definition AttestationRawPubKey : Z := 3.
Definition Sec1PublicKey : Z := 4.
End KeyMetaTag.

Inductive BlobMetaEntry :=
| BMEncryptedBy (e : EncryptedBy)
| Salt (b : bytes)
| Iv (b : bytes)
| AeadTag (b : bytes)
| KmUuid (u : Uuid)
| PublicKey (b : bytes)
| BMMaxBootLevel (level : Z).

Module BlobMetaTag.
Definition EncryptedBy : Z := 0.
Definition Salt : Z := 1.
Definition Iv : Z := 2.
Definition AeadTag : Z := 3.
Definition KmUuid : Z := 4.
Definition PublicKey : Z := 5.
Definition MaxBootLevel : Z := 6.
End BlobMetaTag.

#[global] Instance KeyMetaEntry_eq_dec : EqDecision KeyMetaEntry.
Proof. solve_decision. Defined.
#[global] Instance BlobMetaEntry_eq_dec : EqDecision BlobMetaEntry.
Proof. solve_decision. Defined.

Definition key_meta_tag (e : KeyMetaEntry) : Z :=
  match e with
  | CreationDate _ => KeyMetaTag.CreationDate
  | AttestationExpirationDate _ => KeyMetaTag.AttestationExpirationDate
  | AttestationMacedPublicKey _ => KeyMetaTag.AttestationMacedPublicKey
  | AttestationRawPubKey _ => KeyMetaTag.AttestationRawPubKey
  | Sec1PublicKey _ => KeyMetaTag.Sec1PublicKey
  end.
Definition key_meta_to_sql (e : KeyMetaEntry) : Value :=
  match e with
  | CreationDate d | AttestationExpirationDate d => Integer d
  | AttestationMacedPublicKey b | AttestationRawPubKey b | Sec1PublicKey b => BlobVal b
  end.
Definition key_meta_from_sql (t : Z) (v : Value) : result AnyError KeyMetaEntry :=
  if t =? KeyMetaTag.CreationDate then CreationDate <$> ok_or (get_i64 v) OtherError
  else if t =? KeyMetaTag.AttestationExpirationDate then AttestationExpirationDate <$> ok_or (get_i64 v) OtherError
  else if t =? KeyMetaTag.AttestationMacedPublicKey then AttestationMacedPublicKey <$> ok_or (get_bytes v) OtherError
  else if t =? KeyMetaTag.AttestationRawPubKey then AttestationRawPubKey <$> ok_or (get_bytes v) OtherError
  else if t =? KeyMetaTag.Sec1PublicKey then Sec1PublicKey <$> ok_or (get_bytes v) OtherError
  else Err OtherError.

Definition blob_meta_tag (e : BlobMetaEntry) : Z :=
  match e with
  | BMEncryptedBy _ => BlobMetaTag.EncryptedBy
  | Salt _ => BlobMetaTag.Salt
  | Iv _ => BlobMetaTag.Iv
  | AeadTag _ => BlobMetaTag.AeadTag
  | KmUuid _ => BlobMetaTag.KmUuid
  | PublicKey _ => BlobMetaTag.PublicKey
  | BMMaxBootLevel _ => BlobMetaTag.MaxBootLevel
  end.
Definition blob_meta_to_sql (e : BlobMetaEntry) : Value :=
  match e with
  | BMEncryptedBy e => encrypted_by_to_sql e
  | Salt b | Iv b | AeadTag b | KmUuid b | PublicKey b => BlobVal b
  | BMMaxBootLevel level => Integer level
  end.
Definition blob_meta_from_sql (t : Z) (v : Value) : result AnyError BlobMetaEntry :=
  if t =? BlobMetaTag.EncryptedBy then BMEncryptedBy <$> encrypted_by_column_result v
  else if t =? BlobMetaTag.Salt then Salt <$> ok_or (get_bytes v) OtherError
  else if t =? BlobMetaTag.Iv then Iv <$> ok_or (get_bytes v) OtherError
  else if t =? BlobMetaTag.AeadTag then AeadTag <$> ok_or (get_bytes v) OtherError
  else if t =? BlobMetaTag.KmUuid then KmUuid <$> uuid_column_result v
  else if t =? BlobMetaTag.PublicKey then PublicKey <$> ok_or (get_bytes v) OtherError
  else if t =? BlobMetaTag.MaxBootLevel then BMMaxBootLevel <$> ok_or (get_i32 v) OtherError
  else Err OtherError.

Definition blob_meta_wf (e : BlobMetaEntry) : Prop :=
  match e with
  | KmUuid u => length u = 16%nat
  | BMMaxBootLevel level => i32_range level
  | _ => True
  end.

#[global] Program Instance key_meta_entry : MetaEntry KeyMetaEntry :=
  {| db_tag := key_meta_tag; meta_to_sql := key_meta_to_sql; meta_new_from_sql := key_meta_from_sql;
     meta_wf := fun _ => True |}.
Next Obligation. by intros []. Qed.
Next Obligation.
  intros t v e. unfold key_meta_from_sql. repeat case_match; bool_prop; subst; try done;
    destruct (get_i64 v), (get_bytes v); simpl; intros; by simplify_eq.
Qed.

#[global] Program Instance blob_meta_entry : MetaEntry BlobMetaEntry :=
  {| db_tag := blob_meta_tag; meta_to_sql := blob_meta_to_sql; meta_new_from_sql := blob_meta_from_sql;
     meta_wf := blob_meta_wf |}.
Next Obligation.
  intros [[]|b|b|b|u|b|lvl] Hwf; try done; simpl in *; unfold blob_meta_from_sql; simpl.
  - unfold uuid_column_result. simpl. by rewrite decide_True.
  - by rewrite decide_True.
Qed.
Next Obligation.
  intros t v e. unfold blob_meta_from_sql. repeat case_match; bool_prop; subst; try done;
    destruct (encrypted_by_column_result v), (get_bytes v), (uuid_column_result v), (get_i32 v);
    simpl; intros; by simplify_eq.
Qed.

Section Collection.
Context {E : Type} `{!MetaEntry E}.

Abbreviation MetaData := (gmap Z E).

(** [add]: replaces an entry of the same variant. *)
Definition meta_add (e : E) (m : MetaData) : MetaData := <[db_tag e := e]> m.

Definition meta_data_wf (m : MetaData) : Prop :=
  map_Forall (fun t e => db_tag e = t /\ meta_wf e) m.

Lemma meta_add_wf e m : meta_wf e -> meta_data_wf m -> meta_data_wf (meta_add e m).
Proof. intros. by apply map_Forall_insert_2. Qed.
End Collection.

Abbreviation KeyMetaData := (gmap Z KeyMetaEntry).
Abbreviation BlobMetaData := (gmap Z BlobMetaEntry).

(** The accessors the code uses. *)
Definition encrypted_by (m : BlobMetaData) : option EncryptedBy :=
  match m !! BlobMetaTag.EncryptedBy with Some (BMEncryptedBy e) => Some e | _ => None end.
Definition max_boot_level_of (m : BlobMetaData) : option Z :=
  match m !! BlobMetaTag.MaxBootLevel with Some (BMMaxBootLevel l) => Some l | _ => None end.

(** ** Metadata tables *)

(** A row of [keymetadata] or [blobmetadata]; (owner, tag) is unique. *)
Record MetaRow := {
  m_owner : Z;
  m_tag : Z;
  m_data : Value
}.

#[global] Instance MetaRow_eq_dec : EqDecision MetaRow.
Proof. solve_decision. Defined.

Definition meta_key (r : MetaRow) : Z * Z := (m_owner r, m_tag r).

(** [INSERT or REPLACE]. *)
Definition insert_or_replace (r : MetaRow) (rows : list MetaRow) : list MetaRow :=
  filter (fun x => meta_key x <> meta_key r) rows ++ [r].

Section Tables.
Context {E : Type} `{!MetaEntry E}.

(** [store_in_db]. *)
Definition meta_store (owner : Z) (m : gmap Z E) (rows : list MetaRow) : list MetaRow :=
  fold_left (fun rows '(t, e) =>
      insert_or_replace {| m_owner := owner; m_tag := t; m_data := meta_to_sql e |} rows)
    (map_to_list m) rows.

(** [load_from_db]. *)
Definition meta_load (owner : Z) (rows : list MetaRow) : result AnyError (gmap Z E) :=
  try_fold (fun m r => e ← meta_new_from_sql (m_tag r) (m_data r); Ok (<[m_tag r := e]> m))
    ∅ (filter (fun r => m_owner r = owner) rows).
End Tables.

Section TableFacts.
Context {E : Type} `{!MetaEntry E}.
Implicit Types (rows : list MetaRow) (m : gmap Z E).

Definition meta_row (owner : Z) (te : Z * E) : MetaRow :=
  {| m_owner := owner; m_tag := te.1; m_data := meta_to_sql te.2 |}.

Lemma meta_store_unfold owner m rows :
  meta_store owner m rows = fold_left (fun rows te => insert_or_replace (meta_row owner te) rows) (map_to_list m) rows.
Proof.
  unfold meta_store. generalize (map_to_list m). intros l. revert rows.
  induction l as [|[t e] l IH]; intros rows; simpl; [done|]. apply IH.
Qed.

Lemma insert_or_replace_fresh r rows :
  Forall (fun x => meta_key x <> meta_key r) rows -> insert_or_replace r rows = rows ++ [r].
Proof.
  intros H. unfold insert_or_replace. f_equal. induction H as [|x l Hx _ IH]; [done|].
  by rewrite filter_cons_True, IH.
Qed.

(** Metadata of an owner that has none yet are simply appended. *)
Lemma meta_store_fresh owner m rows :
  Forall (fun x => m_owner x <> owner) rows ->
  meta_store owner m rows = rows ++ (meta_row owner <$> map_to_list m).
Proof.
  intros Hrows. rewrite meta_store_unfold.
  assert (forall l rows, NoDup l.*1 ->
    Forall (fun x => m_owner x = owner -> m_tag x ∉ l.*1) rows ->
    fold_left (fun rows te => insert_or_replace (meta_row owner te) rows) l rows = rows ++ (meta_row owner <$> l)) as Hgen.
  { clear. induction l as [|te l IH]; intros rows Hnd Hf; simpl; [by rewrite app_nil_r|].
    apply NoDup_cons in Hnd as [Hte Hnd]. rewrite insert_or_replace_fresh.
    - rewrite IH; [by rewrite <- app_assoc|done|]. apply Forall_app. split.
      + eapply Forall_impl; [exact Hf|]. simpl. intros x Hx Ho. specialize (Hx Ho). set_solver.
      + by repeat constructor.
    - eapply Forall_impl; [exact Hf|]. unfold meta_key. simpl. intros x Hx [= Ho Ht]. specialize (Hx Ho). set_solver. }
  apply Hgen; [apply NoDup_fst_map_to_list|].
  eapply Forall_impl; [exact Hrows|]. simpl. intros x Hx Ho. by destruct Hx.
Qed.

Lemma insert_or_replace_other r rows (P : Z -> Prop) `{!∀ x, Decision (P x)} :
  ~ P (m_owner r) ->
  filter (fun x => P (m_owner x)) (insert_or_replace r rows) = filter (fun x => P (m_owner x)) rows.
Proof.
  intros HP. unfold insert_or_replace. rewrite filter_app, filter_cons_False by done. rewrite filter_nil, app_nil_r.
  induction rows as [|x l IH]; [done|]. rewrite !filter_cons.
  destruct (decide (meta_key x <> meta_key r)) as [Hk|Hk]; rewrite ?filter_cons; destruct (decide (P (m_owner x))); rewrite ?IH; try done.
  apply dec_stable in Hk. unfold meta_key in Hk. simplify_eq. congruence.
Qed.

(** Storing for one owner leaves the rows of the others alone. *)
Lemma meta_store_other owner m rows (P : Z -> Prop) `{!∀ x, Decision (P x)} :
  ~ P owner ->
  filter (fun x => P (m_owner x)) (meta_store owner m rows) = filter (fun x => P (m_owner x)) rows.
Proof.
  intros HP. rewrite meta_store_unfold. generalize (map_to_list m). intros l. revert rows.
  induction l as [|te l IH]; intros rows; simpl; [done|]. rewrite IH. by apply insert_or_replace_other.
Qed.

Lemma insert_or_replace_nodup r rows :
  NoDup (meta_key <$> rows) -> NoDup (meta_key <$> insert_or_replace r rows).
Proof.
  intros H. unfold insert_or_replace. rewrite fmap_app. apply NoDup_app. split; [|split].
  - by apply NoDup_fmap_filter.
  - intros k (x & -> & [Hx _]%list_elem_of_filter)%list_elem_of_fmap ?%list_elem_of_singleton. done.
  - apply NoDup_singleton.
Qed.

Lemma meta_store_nodup owner m rows :
  NoDup (meta_key <$> rows) -> NoDup (meta_key <$> meta_store owner m rows).
Proof.
  rewrite meta_store_unfold. generalize (map_to_list m). intros l. revert rows.
  induction l as [|te l IH]; intros rows H; simpl; [done|]. by apply IH, insert_or_replace_nodup.
Qed.

(** Every row stored belongs to the owner or was there. *)
Lemma meta_store_elem owner m rows x :
  x ∈ meta_store owner m rows -> m_owner x = owner \/ x ∈ rows.
Proof.
  rewrite meta_store_unfold. generalize (map_to_list m). intros l. revert rows.
  induction l as [|te l IH]; intros rows; simpl; [auto|].
  intros [?|Hx]%IH; [auto|]. unfold insert_or_replace in Hx.
  apply elem_of_app in Hx as [[_ Hx]%list_elem_of_filter| ->%list_elem_of_singleton]; auto.
Qed.

Lemma meta_load_ext owner rows rows' :
  filter (fun r => m_owner r = owner) rows = filter (fun r => m_owner r = owner) rows' ->
  meta_load (E := E) owner rows = meta_load owner rows'.
Proof. unfold meta_load. by intros ->. Qed.

(** What was stored is loaded again. *)
Lemma meta_load_store owner m rows :
  meta_data_wf m -> Forall (fun x => m_owner x <> owner) rows ->
  meta_load owner (meta_store owner m rows) = Ok m.
Proof.
  intros Hwf Hrows. unfold meta_load. rewrite meta_store_fresh by done. rewrite filter_app.
  assert (filter (fun r => m_owner r = owner) rows = []) as ->.
  { induction Hrows as [|x l Hx _ IH]; [done|]. by rewrite filter_cons_False. }
  simpl.
  assert (forall l m0, Forall (fun te : Z * E => db_tag te.2 = te.1 /\ meta_wf te.2) l ->
    try_fold (fun m r => e ← meta_new_from_sql (m_tag r) (m_data r); Ok (<[m_tag r := e]> m)) m0
      (filter (fun r => m_owner r = owner) (meta_row owner <$> l)) =
    Ok (fold_left (fun m te => <[te.1 := te.2]> m) l m0 : gmap Z E)) as Hgen.
  { clear. intros l. induction l as [|[t e] l IH]; intros m0 Hl; [done|].
    apply Forall_cons in Hl as [[Ht He] Hl]. rewrite fmap_cons, filter_cons_True by done. simpl in *. subst t.
    rewrite meta_roundtrip by done. simpl. by apply IH. }
  rewrite Hgen.
  - f_equal. rewrite <- (fold_left_rev_right (fun te (m : gmap Z E) => <[te.1 := te.2]> m)).
    rewrite <- (list_to_map_to_list m) at 2.
    etrans; [|apply (list_to_map_proper (M := gmap Z) (rev (map_to_list m)) (map_to_list m))].
    + done.
    + rewrite <- (Permutation_rev (map_to_list m)). apply NoDup_fst_map_to_list.
    + symmetry. apply Permutation_rev.
  - apply Forall_forall. intros [t e] Hin%elem_of_map_to_list. by apply Hwf.
Qed.
End TableFacts.
