(* ===== verification/Database.v ===== *)
(** * The key database ([keystore2/src/database.rs])

    The tables as lists of rows, in insertion order, and the operations of
    [KeystoreDB] on them.  An SQL statement is written as the comprehension it
    denotes; a nullable column is an [option], and a comparison with [NULL] is
    never true.

    [with_transaction] commits if its closure succeeds and leaves no trace if
    it fails ([transaction]); its retry loop on a busy or locked database is
    not visible in the result.  A closure returns a flag beside its result
    that tells whether the garbage collector is to be notified; so do the
    operations here.

    A random id is drawn until one is not taken: [draws] is the sequence of
    the numbers drawn; a sequence without a usable number stands for a loop
    that is still running, and the operation has no result then. *)

From stdpp Require Import base list gmap strings.
From Stdlib Require Import ZArith Lia.
From S2P Require Import Prelude Aidl Errors Sql KeyParameter DbTypes.

(** ** Tables *)

Record KeyRow := {
  k_id : Z;
  k_type : KeyType.t;
  k_domain : option Z;
  k_namespace : option Z;
  k_alias : option string;
  k_state : KeyLifeCycle.t;
  k_uuid : Uuid
}.

Record BlobRow := {
  b_id : Z;
  b_type : Z;
  b_key : Z;
  b_blob : bytes
}.

Record ParamRow := {
  p_key : Z;
  p_tag : Z;
  p_data : Value;
  p_level : Z
}.

Record GrantRow := {
  g_id : Z;
  g_grantee : Z;
  g_key : Z;
  g_vec : Z
}.

#[global] Instance KeyRow_eq_dec : EqDecision KeyRow.
Proof. solve_decision. Defined.
#[global] Instance BlobRow_eq_dec : EqDecision BlobRow.
Proof. solve_decision. Defined.
#[global] Instance ParamRow_eq_dec : EqDecision ParamRow.
Proof. solve_decision. Defined.
#[global] Instance GrantRow_eq_dec : EqDecision GrantRow.
Proof. solve_decision. Defined.

Record Tables := {
  keyentry : list KeyRow;
  blobentry : list BlobRow;
  blobmetadata : list MetaRow;
  keyparameter : list ParamRow;
  keymetadata : list MetaRow;
  grants : list GrantRow
}.

(** [init_tables]. *)
Definition empty_tables : Tables :=
  {| keyentry := []; blobentry := []; blobmetadata := []; keyparameter := []; keymetadata := [];
     grants := [] |}.

Definition on_keyentry (f : list KeyRow -> list KeyRow) (s : Tables) : Tables :=
  {| keyentry := f (keyentry s); blobentry := blobentry s; blobmetadata := blobmetadata s;
     keyparameter := keyparameter s; keymetadata := keymetadata s; grants := grants s |}.
Definition on_blobentry (f : list BlobRow -> list BlobRow) (s : Tables) : Tables :=
  {| keyentry := keyentry s; blobentry := f (blobentry s); blobmetadata := blobmetadata s;
     keyparameter := keyparameter s; keymetadata := keymetadata s; grants := grants s |}.
Definition on_blobmetadata (f : list MetaRow -> list MetaRow) (s : Tables) : Tables :=
  {| keyentry := keyentry s; blobentry := blobentry s; blobmetadata := f (blobmetadata s);
     keyparameter := keyparameter s; keymetadata := keymetadata s; grants := grants s |}.
Definition on_keyparameter (f : list ParamRow -> list ParamRow) (s : Tables) : Tables :=
  {| keyentry := keyentry s; blobentry := blobentry s; blobmetadata := blobmetadata s;
     keyparameter := f (keyparameter s); keymetadata := keymetadata s; grants := grants s |}.
Definition on_keymetadata (f : list MetaRow -> list MetaRow) (s : Tables) : Tables :=
  {| keyentry := keyentry s; blobentry := blobentry s; blobmetadata := blobmetadata s;
     keyparameter := keyparameter s; keymetadata := f (keymetadata s); grants := grants s |}.
Definition on_grants (f : list GrantRow -> list GrantRow) (s : Tables) : Tables :=
  {| keyentry := keyentry s; blobentry := blobentry s; blobmetadata := blobmetadata s;
     keyparameter := keyparameter s; keymetadata := keymetadata s; grants := f (grants s) |}.

(** [DELETE ... WHERE p] and [UPDATE ... SET f WHERE p]. *)
Definition delete_where {A} (p : A -> bool) (l : list A) : list A := filter (fun r => p r = false) l.
Definition update_where {A} (p : A -> bool) (f : A -> A) (l : list A) : list A :=
  map (fun r => if p r then f r else r) l.
Definition select_where {A} (p : A -> bool) (l : list A) : list A := filter (fun r => p r = true) l.
(** The number of rows a statement affects. *)
Definition affected {A} (p : A -> bool) (l : list A) : Z := Z.of_nat (length (select_where p l)).

(** [column = ?] on a nullable column. *)
Definition col_eq {A} `{EqDecision A} (c : option A) (a : A) : bool := bool_decide (c = Some a).

(** ** Helpers of [db_utils] and identifiers *)

Section Db.
Context {AI : Aidl}.

Abbreviation T := (sr Tables AnyError).

Definition err_sys : AnyError := KsError sys.
Definition err_rc (n : ResponseCode.name) : AnyError := KsError (Rc (val n)).
Definition err_km (n : ErrorCode.name) : AnyError := KsError (Km (val n)).

(** A query that reads the tables. *)
Definition query {A} (f : Tables -> result AnyError A) : T A := fun s => (f s, s).

(** [with_rows_extract_one]. *)
Definition with_rows_extract_one {A B} (rows : list A) (f : option A -> result AnyError B)
    : result AnyError B :=
  let r := f (head rows) in
  match rows with
  | _ :: _ :: _ => Err err_sys
  | _ => r
  end.

Definition UNASSIGNED_KEY_ID : Z := -1.

(** The loop of [insert_with_retry]: the first number drawn that may be
    assigned and is not taken. *)
Fixpoint first_free (draws : list Z) (used : list Z) : option Z :=
  match draws with
  | [] => None
  | i :: draws =>
    if (i =? UNASSIGNED_KEY_ID) || bool_decide (i ∈ used) then first_free draws used else Some i
  end.

Definition insert_with_retry (draws : list Z) (used : Tables -> list Z)
    (inserter : Z -> Tables -> Tables) : T Z := fun s =>
  match first_free draws (used s) with
  | Some id => (Ok id, inserter id s)
  | None => (Panic, s)
  end.

Definition key_ids (s : Tables) : list Z := k_id <$> keyentry s.
Definition grant_ids (s : Tables) : list Z := g_id <$> grants s.

Definition app_or_selinux (d : Z) : bool := (d =? val Domain.APP) || (d =? val Domain.SELINUX).

(** ** Writing a key *)

Definition create_key_entry_internal (draws : list Z) (d namespace : Z) (key_type : KeyType.t)
    (km_uuid : Uuid) : T Z :=
  if negb (app_or_selinux d) then throw err_sys
  else insert_with_retry draws key_ids (fun id => on_keyentry (fun l => l ++
    [{| k_id := id; k_type := key_type; k_domain := Some (as_u32 d); k_namespace := Some namespace;
        k_alias := None; k_state := KeyLifeCycle.Existing; k_uuid := km_uuid |}])).

(** [INTEGER PRIMARY KEY]: one above the largest id. *)
Definition next_blob_id (s : Tables) : Z := 1 + foldr Z.max 0 (b_id <$> blobentry s).
Definition max_blob_id (s : Tables) : Z := foldr Z.max 0 (b_id <$> blobentry s).

Definition set_blob_internal (key_id sc_type : Z) (blob : option bytes)
    (blob_metadata : option BlobMetaData) : T unit :=
  match blob with
  | Some blob =>
    _ ← modify (fun s => on_blobentry (fun l => l ++
          [{| b_id := next_blob_id s; b_type := sc_type; b_key := key_id; b_blob := blob |}]) s);
    match blob_metadata with
    | Some m => modify (fun s => on_blobmetadata (meta_store (max_blob_id s) m) s)
    | None => mret tt
    end
  | None =>
    if (sc_type =? SubComponentType.CERT) || (sc_type =? SubComponentType.CERT_CHAIN) then
      modify (on_blobentry (delete_where (fun r => (b_type r =? sc_type) && (b_key r =? key_id))))
    else throw err_sys
  end.

Definition insert_keyparameter_internal (key_id : Z) (params : list KeyParameter) : T unit :=
  modify (on_keyparameter (fun l => l ++ map (fun p =>
    {| p_key := key_id; p_tag := get_tag (kp_value p); p_data := to_sql (kp_value p);
       p_level := security_level p |}) params)).

Definition key_metadata_store (key_id : Z) (m : KeyMetaData) : T unit :=
  modify (on_keymetadata (meta_store key_id m)).

(** The two updates of [rebind_alias]. *)
Definition alias_match (al : string) (d namespace : Z) (key_type : KeyType.t) (r : KeyRow) : bool :=
  col_eq (k_alias r) al && col_eq (k_domain r) (as_u32 d) && col_eq (k_namespace r) namespace
  && bool_decide (k_type r = key_type).
Definition unbound (r : KeyRow) : KeyRow :=
  {| k_id := k_id r; k_type := k_type r; k_domain := None; k_namespace := None; k_alias := None;
     k_state := KeyLifeCycle.Unreferenced; k_uuid := k_uuid r |}.
Definition new_match (newid d namespace : Z) (key_type : KeyType.t) (r : KeyRow) : bool :=
  (k_id r =? newid) && col_eq (k_domain r) (as_u32 d) && col_eq (k_namespace r) namespace
  && bool_decide (k_state r = KeyLifeCycle.Existing) && bool_decide (k_type r = key_type).
Definition bound_live (al : string) (r : KeyRow) : KeyRow :=
  {| k_id := k_id r; k_type := k_type r; k_domain := k_domain r; k_namespace := k_namespace r;
     k_alias := Some al; k_state := KeyLifeCycle.Live; k_uuid := k_uuid r |}.

Definition rebind_alias (newid : Z) (al : string) (d namespace : Z) (key_type : KeyType.t) : T bool :=
  if negb (app_or_selinux d) then throw err_sys
  else
    updated ← gets (fun s => affected (alias_match al d namespace key_type) (keyentry s));
    _ ← modify (on_keyentry (update_where (alias_match al d namespace key_type) unbound));
    n ← gets (fun s => affected (new_match newid d namespace key_type) (keyentry s));
    _ ← modify (on_keyentry (update_where (new_match newid d namespace key_type) (bound_live al)));
    if negb (n =? 1) then throw err_sys
    else mret (negb (updated =? 0)).

Record CertificateInfo := {
  cert : option bytes;
  cert_chain : option bytes
}.

(** The patterns [store_new_key] and [store_new_certificate] accept. *)
Definition new_key_location (key : KeyDescriptor) : result AnyError (string * Z * Z) :=
  match alias key, blob key with
  | Some al, None => if app_or_selinux (domain key) then Ok (al, domain key, nspace key)
                     else Err (err_rc ResponseCode.INVALID_ARGUMENT)
  | _, _ => Err (err_rc ResponseCode.INVALID_ARGUMENT)
  end.

Definition store_new_key (draws : list Z) (key : KeyDescriptor) (key_type : KeyType.t)
    (params : list KeyParameter) (blob_info : bytes * BlobMetaData) (cert_info : CertificateInfo)
    (metadata : KeyMetaData) (km_uuid : Uuid) : T (bool * Z) :=
  loc ← lift (new_key_location key);
  let '(al, d, namespace) := loc in
  transaction (
    key_id ← create_key_entry_internal draws d namespace key_type km_uuid;
    _ ← set_blob_internal key_id SubComponentType.KEY_BLOB (Some blob_info.1) (Some blob_info.2);
    _ ← match cert cert_info with
        | Some c => set_blob_internal key_id SubComponentType.CERT (Some c) None
        | None => mret tt
        end;
    _ ← match cert_chain cert_info with
        | Some c => set_blob_internal key_id SubComponentType.CERT_CHAIN (Some c) None
        | None => mret tt
        end;
    _ ← insert_keyparameter_internal key_id params;
    _ ← key_metadata_store key_id metadata;
    need_gc ← rebind_alias key_id al d namespace key_type;
    mret (need_gc, key_id)).

(** [now] is [DateTime::now()]. *)
Definition store_new_certificate (draws : list Z) (now : result AnyError Z) (key : KeyDescriptor)
    (key_type : KeyType.t) (c : bytes) (km_uuid : Uuid) : T (bool * Z) :=
  loc ← lift (new_key_location key);
  let '(al, d, namespace) := loc in
  transaction (
    key_id ← create_key_entry_internal draws d namespace key_type km_uuid;
    _ ← set_blob_internal key_id SubComponentType.CERT_CHAIN (Some c) None;
    date ← lift now;
    _ ← key_metadata_store key_id (meta_add (CreationDate date) ∅);
    need_gc ← rebind_alias key_id al d namespace key_type;
    mret (need_gc, key_id)).

Definition create_key_entry (draws : list Z) (d namespace : Z) (key_type : KeyType.t) (km_uuid : Uuid)
    : T (bool * Z) :=
  transaction (id ← create_key_entry_internal draws d namespace key_type km_uuid; mret (false, id)).

Definition set_blob (key_id sc_type : Z) (blob : option bytes) (blob_metadata : option BlobMetaData)
    : T (bool * unit) :=
  transaction (_ ← set_blob_internal key_id sc_type blob blob_metadata; mret (true, tt)).

Definition set_deleted_blob (blob : bytes) (blob_metadata : BlobMetaData) : T (bool * unit) :=
  transaction (
    _ ← set_blob_internal UNASSIGNED_KEY_ID SubComponentType.KEY_BLOB (Some blob) (Some blob_metadata);
    mret (true, tt)).

(** ** Reading a key *)

Definition id_match (key : KeyDescriptor) (al : string) (key_type : KeyType.t) (r : KeyRow) : bool :=
  bool_decide (k_type r = key_type) && col_eq (k_domain r) (as_u32 (domain key))
  && col_eq (k_namespace r) (nspace key) && col_eq (k_alias r) al
  && bool_decide (k_state r = KeyLifeCycle.Live).

Definition load_key_entry_id (key : KeyDescriptor) (key_type : KeyType.t) (s : Tables)
    : result AnyError Z :=
  al ← ok_or (alias key) err_sys;
  with_rows_extract_one (select_where (id_match key al key_type) (keyentry s))
    (fun row => k_id <$> ok_or row (err_rc ResponseCode.KEY_NOT_FOUND)).

Definition set_domain (key : KeyDescriptor) (d : Z) : KeyDescriptor :=
  {| domain := d; nspace := nspace key; alias := alias key; blob := blob key |}.
Definition set_nspace (key : KeyDescriptor) (n : Z) : KeyDescriptor :=
  {| domain := domain key; nspace := n; alias := alias key; blob := blob key |}.

(** [(SELECT state FROM keyentry WHERE id = keyentryid) = Live]. *)
Definition is_live_key (s : Tables) (key_id : Z) : bool :=
  match head (select_where (fun r => k_id r =? key_id) (keyentry s)) with
  | Some r => bool_decide (k_state r = KeyLifeCycle.Live)
  | None => false
  end.

Definition load_access_tuple (key : KeyDescriptor) (key_type : KeyType.t) (caller_uid : Z) (s : Tables)
    : result AnyError (Z * KeyDescriptor * option Z) :=
  if app_or_selinux (domain key) then
    let access_key := if domain key =? val Domain.APP then set_nspace key caller_uid else key in
    key_id ← load_key_entry_id access_key key_type s;
    Ok (key_id, access_key, None)
  else if domain key =? val Domain.GRANT then
    '(key_id, access_vector) ←
      with_rows_extract_one
        (select_where (fun g => (g_grantee g =? caller_uid) && (g_id g =? nspace key)
                                && is_live_key s (g_key g)) (grants s))
        (fun row => (fun g => (g_key g, g_vec g)) <$> ok_or row (err_rc ResponseCode.KEY_NOT_FOUND));
    Ok (key_id, key, Some access_vector)
  else if domain key =? val Domain.KEY_ID then
    '(d, namespace) ←
      with_rows_extract_one
        (select_where (fun r => (k_id r =? nspace key) && bool_decide (k_state r = KeyLifeCycle.Live))
           (keyentry s))
        (fun row => r ← ok_or row (err_rc ResponseCode.KEY_NOT_FOUND);
                    d ← ok_or (k_domain r) OtherError;
                    n ← ok_or (k_namespace r) OtherError;
                    Ok (d, n));
    let access_vector :=
      if negb (d =? val Domain.APP) || negb (namespace =? caller_uid) then
        g_vec <$> head (select_where (fun g => (g_grantee g =? caller_uid) && (g_key g =? nspace key))
                          (grants s))
      else None in
    Ok (nspace key, set_nspace (set_domain key d) namespace, access_vector)
  else Err err_sys.

(** [SELECT MAX(id), ... GROUP BY subcomponent_type]: per type the row with
    the largest id. *)
Definition latest_blobs (key_id : Z) (s : Tables) : list BlobRow :=
  let mine := select_where (fun r => b_key r =? key_id) (blobentry s) in
  select_where (fun r => forallb (fun r' => negb (b_type r' =? b_type r) || (b_id r' <=? b_id r)) mine) mine.

Record Blobs := {
  key_blob : option (Z * bytes);
  cert_blob : option bytes;
  cert_chain_blob : option bytes;
  has_km_blob : bool
}.
Definition no_blobs : Blobs :=
  {| key_blob := None; cert_blob := None; cert_chain_blob := None; has_km_blob := false |}.

Definition extract_blob (load_bits : Z) (a : Blobs) (row : BlobRow) : result AnyError Blobs :=
  let has := has_km_blob a || (b_type row =? SubComponentType.KEY_BLOB) in
  if (b_type row =? SubComponentType.KEY_BLOB) && LoadBits.load_km load_bits then
    Ok {| key_blob := Some (b_id row, b_blob row); cert_blob := cert_blob a;
          cert_chain_blob := cert_chain_blob a; has_km_blob := has |}
  else if (b_type row =? SubComponentType.CERT) && LoadBits.load_public load_bits then
    Ok {| key_blob := key_blob a; cert_blob := Some (b_blob row);
          cert_chain_blob := cert_chain_blob a; has_km_blob := has |}
  else if (b_type row =? SubComponentType.CERT_CHAIN) && LoadBits.load_public load_bits then
    Ok {| key_blob := key_blob a; cert_blob := cert_blob a;
          cert_chain_blob := Some (b_blob row); has_km_blob := has |}
  else if (b_type row =? SubComponentType.CERT) || (b_type row =? SubComponentType.CERT_CHAIN)
       || (b_type row =? SubComponentType.KEY_BLOB) then
    Ok {| key_blob := key_blob a; cert_blob := cert_blob a; cert_chain_blob := cert_chain_blob a;
          has_km_blob := has |}
  else Err err_sys.

Definition load_blob_components (key_id load_bits : Z) (s : Tables)
    : result AnyError (bool * option (bytes * BlobMetaData) * option bytes * option bytes) :=
  b ← try_fold (extract_blob load_bits) no_blobs (latest_blobs key_id s);
  blob_info ← match key_blob b with
              | None => Ok None
              | Some (blob_id, blob) =>
                m ← meta_load blob_id (blobmetadata s); Ok (Some (blob, m))
              end;
  Ok (has_km_blob b, blob_info, cert_blob b, cert_chain_blob b).

Definition load_key_parameters (key_id : Z) (s : Tables) : result AnyError (list KeyParameter) :=
  try_map (fun r => v ← new_from_sql (p_tag r) (p_data r);
                    Ok {| kp_value := v; security_level := p_level r |})
    (select_where (fun r => p_key r =? key_id) (keyparameter s)).

Definition get_key_km_uuid (key_id : Z) (s : Tables) : result AnyError Uuid :=
  k_uuid <$> ok_or (head (select_where (fun r => k_id r =? key_id) (keyentry s))) OtherError.

Record KeyEntry := {
  ke_id : Z;
  ke_key_blob_info : option (bytes * BlobMetaData);
  ke_cert : option bytes;
  ke_cert_chain : option bytes;
  ke_km_uuid : Uuid;
  ke_parameters : list KeyParameter;
  ke_metadata : KeyMetaData;
  ke_pure_cert : bool
}.

Definition load_key_components (load_bits key_id : Z) (s : Tables) : result AnyError KeyEntry :=
  metadata ← meta_load key_id (keymetadata s);
  '(has_km, key_blob_info, cert_b, cert_chain_b) ← load_blob_components key_id load_bits s;
  parameters ← load_key_parameters key_id s;
  km_uuid ← get_key_km_uuid key_id s;
  Ok {| ke_id := key_id; ke_key_blob_info := key_blob_info; ke_cert := cert_b;
        ke_cert_chain := cert_chain_b; ke_km_uuid := km_uuid; ke_parameters := parameters;
        ke_metadata := metadata; ke_pure_cert := negb has_km |}.

Definition key_id_descriptor (key_id : Z) : KeyDescriptor :=
  {| domain := val Domain.KEY_ID; nspace := key_id; alias := None; blob := None |}.

(** [load_key_entry].  [lock_free]: the non blocking attempt to lock the key
    id succeeds; otherwise the transaction is rolled back, and [waited] is
    the database when the lock was obtained.  For a descriptor by key id the
    lock is taken before the transaction.  The result names the locked key. *)
Definition load_key_entry (key : KeyDescriptor) (key_type : KeyType.t) (load_bits caller_uid : Z)
    (check_permission : KeyDescriptor -> option Z -> result AnyError unit)
    (lock_free : bool) (waited : Tables) (s : Tables) : result AnyError (Z * KeyEntry) :=
  '(key_id, access_key_descriptor, access_vector) ← load_access_tuple key key_type caller_uid s;
  _ ← check_permission access_key_descriptor access_vector;
  s' ← (if (domain key =? val Domain.KEY_ID) || lock_free then Ok s
        else _ ← load_access_tuple (key_id_descriptor key_id) key_type caller_uid waited; Ok waited);
  let key_id := if domain key =? val Domain.KEY_ID then nspace key else key_id in
  entry ← load_key_components load_bits key_id s';
  Ok (key_id, entry).

Definition key_exists (d namespace : Z) (al : string) (key_type : KeyType.t) (s : Tables)
    : result AnyError bool :=
  match load_key_entry_id {| domain := d; nspace := namespace; alias := Some al; blob := None |}
          key_type s with
  | Ok _ => Ok true
  | Err (KsError (Rc c)) => if c =? val ResponseCode.KEY_NOT_FOUND then Ok false else Err (KsError (Rc c))
  | Err e => Err e
  | Panic => Panic
  end.

Definition list_keys (d namespace : Z) (key_type : KeyType.t) (s : Tables) : list KeyDescriptor :=
  omap (fun r => al ← k_alias r;
                 Some {| domain := d; nspace := namespace; alias := Some al; blob := None |})
    (select_where (fun r => col_eq (k_domain r) (as_u32 d) && col_eq (k_namespace r) namespace
       && bool_decide (is_Some (k_alias r)) && bool_decide (k_state r = KeyLifeCycle.Live)
       && bool_decide (k_type r = key_type)) (keyentry s)).

(** [load_key_descriptor]: [None] if there is no such row; a key without a
    domain or namespace cannot be read. *)
Definition load_key_descriptor (key_id : Z) (s : Tables) : result AnyError (option KeyDescriptor) :=
  match head (select_where (fun r => k_id r =? key_id) (keyentry s)) with
  | None => Ok None
  | Some r =>
    d ← ok_or (k_domain r) OtherError;
    n ← ok_or (k_namespace r) OtherError;
    Ok (Some {| domain := d; nspace := n; alias := k_alias r; blob := None |})
  end.
End Db.

(** ** Deleting, granting, counting *)

Section Maintenance.
Context {AI : Aidl}.

Abbreviation T := (sr Tables AnyError).

Definition mark_unreferenced (key_id : Z) : T bool :=
  updated ← gets (fun s => affected (fun r => k_id r =? key_id) (keyentry s));
  _ ← modify (on_keyentry (delete_where (fun r => k_id r =? key_id)));
  _ ← modify (on_keymetadata (delete_where (fun r => m_owner r =? key_id)));
  _ ← modify (on_keyparameter (delete_where (fun r => p_key r =? key_id)));
  _ ← modify (on_grants (delete_where (fun r => g_key r =? key_id)));
  mret (negb (updated =? 0)).

Definition unbind_key (key : KeyDescriptor) (key_type : KeyType.t) (caller_uid : Z)
    (check_permission : KeyDescriptor -> option Z -> result AnyError unit) : T (bool * unit) :=
  transaction (
    tuple ← query (load_access_tuple key key_type caller_uid);
    let '(key_id, access_key_descriptor, access_vector) := tuple in
    _ ← lift (check_permission access_key_descriptor access_vector);
    need_gc ← mark_unreferenced key_id;
    mret (need_gc, tt)).

(** [data = data - 1 WHERE data > 0]; the column of a usage count limit
    holds an integer. *)
Definition decrement (v : Value) : Value :=
  match v with
  | Integer n => if 0 <? n then Integer (n - 1) else v
  | _ => v
  end.

Definition limit_match (key_id : Z) (r : ParamRow) : bool :=
  (p_key r =? key_id) && (p_tag r =? val Tag.USAGE_COUNT_LIMIT).

Definition set_p_data (f : Value -> Value) (r : ParamRow) : ParamRow :=
  {| p_key := p_key r; p_tag := p_tag r; p_data := f (p_data r); p_level := p_level r |}.

Definition check_and_update_key_usage_count (key_id : Z) : T (bool * unit) :=
  transaction (
    limit ← query (fun s =>
      match head (select_where (limit_match key_id) (keyparameter s)) with
      | Some r => Some <$> ok_or (get_i32 (p_data r)) OtherError
      | None => Ok None
      end);
    limit ← lift (ok_or limit (err_km ErrorCode.INVALID_KEY_BLOB));
    _ ← modify (on_keyparameter (update_where (limit_match key_id) (set_p_data decrement)));
    if limit =? 1 then need_gc ← mark_unreferenced key_id; mret (need_gc, tt)
    else if limit =? 0 then throw (err_km ErrorCode.INVALID_KEY_BLOB)
    else mret (false, tt)).

(** *** Grants *)

Definition grant (draws : list Z) (key : KeyDescriptor) (caller_uid grantee_uid access_vector : Z)
    (check_permission : KeyDescriptor -> Z -> result AnyError unit) : T (bool * KeyDescriptor) :=
  transaction (
    tuple ← query (load_access_tuple key KeyType.Client caller_uid);
    let '(key_id, access_key_descriptor, _) := tuple in
    _ ← lift (check_permission access_key_descriptor access_vector);
    existing ← gets (fun s => g_id <$> head (select_where (fun g =>
                  (g_key g =? key_id) && (g_grantee g =? grantee_uid)) (grants s)));
    grant_id ←
      match existing with
      | Some grant_id =>
        _ ← modify (on_grants (update_where (fun g => g_id g =? grant_id) (fun g =>
              {| g_id := g_id g; g_grantee := g_grantee g; g_key := g_key g; g_vec := access_vector |})));
        mret grant_id
      | None =>
        insert_with_retry draws grant_ids (fun id => on_grants (fun l => l ++
          [{| g_id := id; g_grantee := grantee_uid; g_key := key_id; g_vec := access_vector |}]))
      end;
    mret (false, {| domain := val Domain.GRANT; nspace := grant_id; alias := None; blob := None |})).

Definition ungrant (key : KeyDescriptor) (caller_uid grantee_uid : Z)
    (check_permission : KeyDescriptor -> result AnyError unit) : T (bool * unit) :=
  transaction (
    tuple ← query (load_access_tuple key KeyType.Client caller_uid);
    let '(key_id, access_key_descriptor, _) := tuple in
    _ ← lift (check_permission access_key_descriptor);
    _ ← modify (on_grants (delete_where (fun g => (g_key g =? key_id) && (g_grantee g =? grantee_uid))));
    mret (false, tt)).

(** *** Bulk deletion *)

(** The keys a statement [WHERE keyentryid IN (SELECT id ... WHERE p)] is
    about, and the four deletions that remove them. *)
Definition ids_where (p : KeyRow -> bool) (s : Tables) : list Z := k_id <$> select_where p (keyentry s).
Definition delete_keys_where (p : KeyRow -> bool) : T unit :=
  _ ← modify (fun s => on_keymetadata (delete_where (fun r => bool_decide (m_owner r ∈ ids_where p s))) s);
  _ ← modify (fun s => on_keyparameter (delete_where (fun r => bool_decide (p_key r ∈ ids_where p s))) s);
  _ ← modify (fun s => on_grants (delete_where (fun r => bool_decide (g_key r ∈ ids_where p s))) s);
  modify (on_keyentry (delete_where p)).

Definition in_namespace (d namespace : Z) (r : KeyRow) : bool :=
  col_eq (k_domain r) d && col_eq (k_namespace r) namespace && bool_decide (k_type r = KeyType.Client).

Definition unbind_keys_for_namespace (d namespace : Z) : T (bool * unit) :=
  if negb (app_or_selinux d) then throw (err_rc ResponseCode.INVALID_ARGUMENT)
  else transaction (_ ← delete_keys_where (in_namespace d namespace); mret (true, tt)).

Definition is_unreferenced (r : KeyRow) : bool := bool_decide (k_state r = KeyLifeCycle.Unreferenced).

Definition cleanup_unreferenced : T unit := delete_keys_where is_unreferenced.

(** [cleanup_leftovers]: the number of rows affected. *)
Definition set_state (st : KeyLifeCycle.t) (r : KeyRow) : KeyRow :=
  {| k_id := k_id r; k_type := k_type r; k_domain := k_domain r; k_namespace := k_namespace r;
     k_alias := k_alias r; k_state := st; k_uuid := k_uuid r |}.
Definition is_existing (r : KeyRow) : bool := bool_decide (k_state r = KeyLifeCycle.Existing).
Definition cleanup_leftovers : T (bool * Z) :=
  transaction (
    n ← gets (fun s => affected is_existing (keyentry s));
    _ ← modify (on_keyentry (update_where is_existing (set_state KeyLifeCycle.Unreferenced)));
    mret (true, n)).

Variable AID_USER_OFFSET : Z.
Definition USER_SUPER_KEY_alias : string := "USER_SUPER_KEY".

Definition of_user (user_id : Z) (r : KeyRow) : bool :=
  (bool_decide (k_type r = KeyType.Client) && col_eq (k_domain r) (as_u32 (val Domain.APP))
   && match k_namespace r with Some n => Z.quot n AID_USER_OFFSET =? user_id | None => false end
   && bool_decide (k_state r = KeyLifeCycle.Live))
  || (bool_decide (k_type r = KeyType.Super) && col_eq (k_namespace r) user_id
      && col_eq (k_alias r) USER_SUPER_KEY_alias && bool_decide (k_state r = KeyLifeCycle.Live)).

(** The body of the loop of [unbind_keys_for_user]. *)
Definition unbind_user_key (keep_non_super_encrypted_keys : bool) (key_id : Z) : T bool :=
  skip ← (if keep_non_super_encrypted_keys then
            query (fun s => '(_, info, _, _) ← load_blob_components key_id LoadBits.KM s;
                            Ok match info with
                               | Some (_, blob_metadata) => bool_decide (encrypted_by blob_metadata = None)
                               | None => false
                               end)
          else mret false);
  if (skip : bool) then mret false else mark_unreferenced key_id.

Fixpoint unbind_user_keys (keep : bool) (ids : list Z) (notify_gc : bool) : T bool :=
  match ids with
  | [] => mret notify_gc
  | id :: ids => b ← unbind_user_key keep id; unbind_user_keys keep ids (b || notify_gc)
  end.

Definition unbind_keys_for_user (user_id : Z) (keep_non_super_encrypted_keys : bool) : T (bool * unit) :=
  transaction (
    ids ← gets (ids_where (of_user user_id));
    notify_gc ← unbind_user_keys keep_non_super_encrypted_keys ids false;
    mret (notify_gc, tt)).

(** *** Garbage *)

(** [id NOT IN (SELECT MAX(id) ... WHERE q GROUP BY keyentryid,
    subcomponent_type)] for a row that satisfies [q]: some row of the same
    key and type has a larger id. *)
Definition superseded (s : Tables) (r : BlobRow) : bool :=
  existsb (fun r' => (b_key r' =? b_key r) && (b_type r' =? b_type r) && (b_id r <? b_id r')) (blobentry s).
Definition orphaned (s : Tables) (r : BlobRow) : bool := negb (bool_decide (b_key r ∈ key_ids s)).
Definition garbage (s : Tables) (r : BlobRow) : bool := superseded s r || orphaned s r.
Definition is_key_blob (r : BlobRow) : bool := b_type r =? SubComponentType.KEY_BLOB.

Definition delete_blob (blob_id : Z) : T unit :=
  _ ← modify (on_blobmetadata (delete_where (fun r => m_owner r =? blob_id)));
  modify (on_blobentry (delete_where (fun r => b_id r =? blob_id))).

Definition handle_next_superseded_blobs (blob_ids_to_delete : list Z) (max_blobs : nat)
    : T (bool * list (Z * bytes * BlobMetaData)) :=
  transaction (
    _ ← sr_for delete_blob blob_ids_to_delete;
    _ ← cleanup_unreferenced;
    rows ← gets (fun s => take max_blobs (select_where (fun r => is_key_blob r && garbage s r) (blobentry s)));
    found ← query (fun s => try_map (fun r => m ← meta_load (b_id r) (blobmetadata s);
                                             Ok (b_id r, b_blob r, m)) rows);
    match found with
    | _ :: _ => mret (false, found)
    | [] =>
      _ ← modify (fun s => on_blobentry (delete_where (fun r => negb (is_key_blob r) && garbage s r)) s);
      mret (false, [])
    end).

(** *** Moving a key *)

Definition occupied (al : string) (d namespace : Z) (r : KeyRow) : bool :=
  col_eq (k_alias r) al && col_eq (k_domain r) d && col_eq (k_namespace r) namespace.
Definition moved (al : string) (d namespace : Z) (r : KeyRow) : KeyRow :=
  {| k_id := k_id r; k_type := k_type r; k_domain := Some d; k_namespace := Some namespace;
     k_alias := Some al; k_state := k_state r; k_uuid := k_uuid r |}.

Definition migrate_key_namespace (key_id : Z) (destination : KeyDescriptor) (caller_uid : Z)
    (check_permission : KeyDescriptor -> result AnyError unit) : T (bool * unit) :=
  destination ← lift
    (if domain destination =? val Domain.APP then Ok (set_nspace destination caller_uid)
     else if domain destination =? val Domain.SELINUX then Ok destination
     else Err (err_rc ResponseCode.INVALID_ARGUMENT));
  _ ← lift (check_permission destination);
  al ← lift (ok_or (alias destination) (err_rc ResponseCode.INVALID_ARGUMENT));
  transaction (
    taken ← gets (fun s => existsb (occupied al (domain destination) (nspace destination)) (keyentry s));
    if (taken : bool) then throw (err_rc ResponseCode.INVALID_ARGUMENT)
    else
      n ← gets (fun s => affected (fun r => k_id r =? key_id) (keyentry s));
      _ ← modify (on_keyentry (update_where (fun r => k_id r =? key_id)
                    (moved al (domain destination) (nspace destination))));
      if negb (n =? 1) then throw err_sys else mret (false, tt)).

(** *** Super keys *)

Definition super_row (id d namespace : Z) (al : string) (km_uuid : Uuid) : KeyRow :=
  {| k_id := id; k_type := KeyType.Super; k_domain := Some d; k_namespace := Some namespace;
     k_alias := Some al; k_state := KeyLifeCycle.Live; k_uuid := km_uuid |}.

Definition store_super_key (draws : list Z) (user_id : Z) (al : string) (blob : bytes)
    (blob_metadata : BlobMetaData) (key_metadata : KeyMetaData) : T (bool * KeyEntry) :=
  transaction (
    key_id ← insert_with_retry draws key_ids (fun id => on_keyentry (fun l =>
               l ++ [super_row id (val Domain.APP) user_id al KEYSTORE_UUID]));
    _ ← key_metadata_store key_id key_metadata;
    _ ← set_blob_internal key_id SubComponentType.KEY_BLOB (Some blob) (Some blob_metadata);
    entry ← query (load_key_components LoadBits.KM key_id);
    mret (false, entry)).

Definition load_super_key (al : string) (user_id : Z) (s : Tables) : result AnyError (option (Z * KeyEntry)) :=
  match load_key_entry_id {| domain := val Domain.APP; nspace := user_id; alias := Some al; blob := None |}
          KeyType.Super s with
  | Ok id => key_entry ← load_key_components LoadBits.KM id s; Ok (Some (id, key_entry))
  | Err (KsError (Rc c)) => if c =? val ResponseCode.KEY_NOT_FOUND then Ok None else Err (KsError (Rc c))
  | Err e => Err e
  | Panic => Panic
  end.

Definition super_match (d namespace : Z) (al : string) (r : KeyRow) : bool :=
  bool_decide (k_type r = KeyType.Super) && col_eq (k_domain r) d && col_eq (k_namespace r) namespace
  && col_eq (k_alias r) al && bool_decide (k_state r = KeyLifeCycle.Live).

Definition get_or_create_key_with (draws : list Z) (d namespace : Z) (al : string) (km_uuid : Uuid)
    (create_new_key : result AnyError (bytes * BlobMetaData)) : T (bool * (Z * KeyEntry)) :=
  transaction (
    id ← query (fun s => with_rows_extract_one (select_where (super_match d namespace al) (keyentry s))
                     (fun row => Ok (k_id <$> row)));
    r ← match id with
        | Some id => entry ← query (load_key_components LoadBits.KM id); mret (id, entry)
        | None =>
          id ← insert_with_retry draws key_ids (fun id => on_keyentry (fun l =>
                 l ++ [super_row id d namespace al km_uuid]));
          new ← lift create_new_key;
          _ ← set_blob_internal id SubComponentType.KEY_BLOB (Some new.1) (Some new.2);
          mret (id, {| ke_id := id; ke_key_blob_info := Some new; ke_cert := None; ke_cert_chain := None;
                       ke_km_uuid := repeat 0 16; ke_parameters := []; ke_metadata := ∅;
                       ke_pure_cert := false |})
        end;
    mret (false, r)).
End Maintenance.
