(* ===== verification/DbInvariant.v ===== *)
(** * The invariant of the key database

    What holds of the tables between two operations of [KeystoreDB]: unique
    ids, no dangling reference into [keyentry], at most one client key per
    location, grants only for keys that went live, blob metadata only for key
    blobs; and that every operation preserves it. *)

From stdpp Require Import base list gmap strings.
From Stdlib Require Import ZArith Lia.
From S2P Require Import Prelude Aidl Errors Sql KeyParameter DbTypes Database.

(** ** Rows *)

Section Rows.
Context {A : Type}.
Implicit Types (p : A -> bool) (l : list A).

Lemma elem_of_delete_where p l x : x ∈ delete_where p l <-> x ∈ l /\ p x = false.
Proof. unfold delete_where. rewrite list_elem_of_filter. naive_solver. Qed.
Lemma elem_of_select_where p l x : x ∈ select_where p l <-> x ∈ l /\ p x = true.
Proof. unfold select_where. rewrite list_elem_of_filter. naive_solver. Qed.
Lemma elem_of_update_where p f l x :
  x ∈ update_where p f l <-> exists y, y ∈ l /\ x = if p y then f y else y.
Proof. unfold update_where. rewrite list_elem_of_fmap. naive_solver. Qed.

Lemma NoDup_delete_where {B} (g : A -> B) p l : NoDup (g <$> l) -> NoDup (g <$> delete_where p l).
Proof. apply NoDup_fmap_filter. Qed.
Lemma fmap_update_where {B} (g : A -> B) p f l :
  (forall r, g (f r) = g r) -> g <$> update_where p f l = g <$> l.
Proof.
  intros H. unfold update_where. rewrite <- list_fmap_compose. apply list_fmap_ext.
  intros i x _. simpl. by destruct (p x).
Qed.
Lemma Forall_delete_where (P : A -> Prop) p l : Forall P l -> Forall P (delete_where p l).
Proof. apply Forall_filter_bool. Qed.

Lemma head_select_Some p l x : head (select_where p l) = Some x -> x ∈ l /\ p x = true.
Proof. intros H. apply elem_of_select_where. destruct (select_where p l); simplify_eq/=. by left. Qed.
Lemma head_select_None p l : head (select_where p l) = None <-> forall x, x ∈ l -> p x = false.
Proof.
  split.
  - intros H x Hx. destruct (p x) eqn:E; [|done].
    assert (x ∈ select_where p l) as Hin by (by apply elem_of_select_where).
    destruct (select_where p l); [by apply not_elem_of_nil in Hin|done].
  - intros H. destruct (select_where p l) as [|x l'] eqn:E; [done|].
    assert (x ∈ select_where p l) as [Hx Hp]%elem_of_select_where by (rewrite E; left).
    by rewrite H in Hp.
Qed.

Lemma select_where_ext p q l : (forall x, x ∈ l -> p x = q x) -> select_where p l = select_where q l.
Proof.
  intros H. unfold select_where. induction l as [|x l IH]; [done|]. rewrite !filter_cons, IH, (H x) by set_solver. done.
Qed.

Lemma select_where_app p l l' : select_where p (l ++ l') = select_where p l ++ select_where p l'.
Proof. apply filter_app. Qed.

Lemma select_where_nil p l : (forall x, x ∈ l -> p x = false) -> select_where p l = [].
Proof. intros H. apply head_select_None in H. by destruct (select_where p l). Qed.
End Rows.

#[export] Hint Resolve NoDup_delete_where Forall_delete_where : keystore.

(** ** The invariant *)

Section Inv.
Context {AI : Aidl}.
Implicit Types (s : Tables) (l : list KeyRow).

Record keys_ok l : Prop := {
  ok_ids : NoDup (k_id <$> l);
  ok_assigned : UNASSIGNED_KEY_ID ∉ k_id <$> l;
  ok_alias : forall r r', r ∈ l -> r' ∈ l -> k_type r = KeyType.Client -> k_type r' = KeyType.Client ->
    is_Some (k_alias r) -> k_alias r = k_alias r' -> k_domain r = k_domain r' ->
    k_namespace r = k_namespace r' -> r = r';
  ok_live : forall r, r ∈ l -> k_type r = KeyType.Client -> k_state r = KeyLifeCycle.Live ->
    is_Some (k_alias r) /\ is_Some (k_domain r) /\ is_Some (k_namespace r)
}.

(** The key a grant may refer to. *)
Definition grantable l (key_id : Z) : Prop :=
  exists r, r ∈ l /\ k_id r = key_id /\ k_state r <> KeyLifeCycle.Existing.

Record db_wf s : Prop := {
  wf_keys : keys_ok (keyentry s);
  wf_gids : NoDup (grant_ids s);
  wf_grant_once : NoDup ((fun g => (g_key g, g_grantee g)) <$> grants s);
  wf_blobs : NoDup (b_id <$> blobentry s);
  wf_blob_pos : Forall (fun r => 0 < b_id r) (blobentry s);
  wf_blobmeta : NoDup (meta_key <$> blobmetadata s);
  wf_keymeta : NoDup (meta_key <$> keymetadata s);
  wf_params : Forall (fun r => p_key r ∈ key_ids s) (keyparameter s);
  wf_meta : Forall (fun r => m_owner r ∈ key_ids s) (keymetadata s);
  wf_bmeta : Forall (fun r => exists b, b ∈ blobentry s /\ b_id b = m_owner r /\
                              b_type b = SubComponentType.KEY_BLOB) (blobmetadata s);
  wf_grants : Forall (fun g => grantable (keyentry s) (g_key g)) (grants s)
}.

Lemma empty_wf : db_wf empty_tables.
Proof.
  assert (keys_ok []) as Hk by (constructor; simpl; [constructor|apply not_elem_of_nil|by intros ?? ?%not_elem_of_nil|by intros ? ?%not_elem_of_nil]).
  constructor; unfold grant_ids; simpl; first [done|constructor].
Qed.

Lemma keys_ok_unique l r r' : keys_ok l -> r ∈ l -> r' ∈ l -> k_id r = k_id r' -> r = r'.
Proof. intros [Hnd _ _ _]. by apply NoDup_fmap_inj. Qed.

(** Replacing the key table by one that keeps what is referenced. *)
Lemma wf_set_keyentry s f :
  db_wf s -> keys_ok (f (keyentry s)) ->
  (forall r, r ∈ keyentry s -> exists r', r' ∈ f (keyentry s) /\ k_id r' = k_id r /\
     (k_state r <> KeyLifeCycle.Existing -> k_state r' <> KeyLifeCycle.Existing)) ->
  db_wf (on_keyentry f s).
Proof.
  intros [] Hok Hkeep.
  assert (forall id, id ∈ key_ids s -> id ∈ k_id <$> f (keyentry s)) as Hids.
  { intros id (r & -> & Hr)%list_elem_of_fmap. destruct (Hkeep r Hr) as (r' & Hr' & <- & _).
    by apply list_elem_of_fmap_2. }
  constructor; simpl; try done.
  - eapply Forall_impl; [done|]. simpl. intros r. apply Hids.
  - eapply Forall_impl; [done|]. simpl. intros r. apply Hids.
  - eapply Forall_impl; [done|]. simpl. intros g (r & Hr & Hid & Hst).
    destruct (Hkeep r Hr) as (r' & Hr' & Hid' & Hst'). exists r'. split; [done|]. split; [congruence|auto].
Qed.

(** A new key row: not yet live, or not a client key. *)
Lemma wf_add_key s r :
  db_wf s -> k_id r ∉ key_ids s -> k_id r <> UNASSIGNED_KEY_ID ->
  (k_type r = KeyType.Client -> k_alias r = None /\ k_state r <> KeyLifeCycle.Live) ->
  db_wf (on_keyentry (fun l => l ++ [r]) s).
Proof.
  intros Hwf Hid Hun Hc. apply wf_set_keyentry; [done| |].
  - destruct (wf_keys _ Hwf) as [Hnd Has Hal Hli]. constructor.
    + rewrite fmap_app. apply NoDup_app. split; [done|]. split; [|apply NoDup_singleton].
      intros x Hx ->%list_elem_of_singleton. done.
    + rewrite fmap_app. simpl. unfold key_ids in Hid. set_solver.
    + intros r1 r2 [H1| ->%list_elem_of_singleton]%elem_of_app [H2| ->%list_elem_of_singleton]%elem_of_app T1 T2 Hs E1 E2 E3;
        [by apply Hal| | |done].
      * destruct (Hc T2) as [Ha _]. rewrite E1, Ha in Hs. by destruct Hs.
      * destruct (Hc T1) as [Ha _]. rewrite Ha in Hs. by destruct Hs.
    + intros r1 [H1| ->%list_elem_of_singleton]%elem_of_app T1 Hst; [by apply Hli|].
      by destruct (Hc T1).
  - intros r' Hr'. exists r'. set_solver.
Qed.

(** Deleting keys with everything that refers to them. *)
Definition purge (p : KeyRow -> bool) s : Tables :=
  {| keyentry := delete_where p (keyentry s); blobentry := blobentry s; blobmetadata := blobmetadata s;
     keyparameter := delete_where (fun r => bool_decide (p_key r ∈ ids_where p s)) (keyparameter s);
     keymetadata := delete_where (fun r => bool_decide (m_owner r ∈ ids_where p s)) (keymetadata s);
     grants := delete_where (fun r => bool_decide (g_key r ∈ ids_where p s)) (grants s) |}.

Lemma elem_of_ids_where p s id : id ∈ ids_where p s <-> exists r, r ∈ keyentry s /\ p r = true /\ k_id r = id.
Proof. unfold ids_where. rewrite list_elem_of_fmap. setoid_rewrite elem_of_select_where. naive_solver. Qed.

Lemma delete_keys_where_purge p s : delete_keys_where p s = (Ok tt, purge p s).
Proof. done. Qed.

Lemma keys_ok_delete p l : keys_ok l -> keys_ok (delete_where p l).
Proof.
  intros [Hnd Has Hal Hli]. constructor.
  - by apply NoDup_delete_where.
  - intros (r & Hr & [Hin _]%elem_of_delete_where)%list_elem_of_fmap. apply Has. rewrite Hr. by apply list_elem_of_fmap_2.
  - intros r r' [? _]%elem_of_delete_where [? _]%elem_of_delete_where. by apply Hal.
  - intros r [? _]%elem_of_delete_where. by apply Hli.
Qed.

(** A key that is not among the deleted ones stays. *)
Lemma purge_keeps p s id :
  db_wf s -> id ∈ key_ids s -> id ∉ ids_where p s -> id ∈ key_ids (purge p s).
Proof.
  intros Hwf (r & -> & Hr)%list_elem_of_fmap Hnot. unfold key_ids. simpl. apply list_elem_of_fmap_2.
  apply elem_of_delete_where. split; [done|]. destruct (p r) eqn:E; [|done].
  destruct Hnot. apply elem_of_ids_where. eauto.
Qed.

Lemma wf_purge p s : db_wf s -> db_wf (purge p s).
Proof.
  intros Hwf. pose proof Hwf as []. constructor; simpl; eauto with keystore.
  - by apply keys_ok_delete.
  - unfold grant_ids. simpl. by apply NoDup_delete_where.
  - apply Forall_forall. intros r [Hr Hn]%elem_of_delete_where. bool_prop. rewrite Forall_forall in wf_params0.
    apply purge_keeps; auto.
  - apply Forall_forall. intros r [Hr Hn]%elem_of_delete_where. bool_prop. rewrite Forall_forall in wf_meta0.
    apply purge_keeps; auto.
  - apply Forall_forall. intros g [Hg Hn]%elem_of_delete_where. bool_prop. rewrite Forall_forall in wf_grants0.
    destruct (wf_grants0 g Hg) as (r & Hr & Hid & Hst). exists r. split; [|done].
    apply elem_of_delete_where. split; [done|]. destruct (p r) eqn:E; [|done].
    destruct Hn. apply elem_of_ids_where. eauto.
Qed.

(** [mark_unreferenced] is such a deletion. *)
Lemma ids_where_id id s x : x ∈ ids_where (fun r => k_id r =? id) s <-> x = id /\ id ∈ key_ids s.
Proof.
  rewrite elem_of_ids_where. unfold key_ids. rewrite list_elem_of_fmap. split.
  - intros (r & Hr & E & <-). bool_prop. subst id. eauto.
  - intros [-> (r & -> & Hr)]. exists r. split; [done|]. split; [apply Z.eqb_refl|done].
Qed.

Lemma delete_where_ext {A} (p q : A -> bool) (rows : list A) :
  (forall x, x ∈ rows -> p x = q x) -> delete_where p rows = delete_where q rows.
Proof.
  intros H. unfold delete_where. induction rows as [|x rows IH]; [done|].
  rewrite !filter_cons, IH, (H x) by set_solver. done.
Qed.

Lemma mark_unreferenced_purge id s :
  db_wf s ->
  mark_unreferenced id s = (Ok (negb (affected (fun r => k_id r =? id) (keyentry s) =? 0)),
                            purge (fun r => k_id r =? id) s).
Proof.
  intros []. unfold mark_unreferenced, mbind, sr_bind, gets, modify, mret, sr_ret, purge. simpl. f_equal.
  assert (forall x, x ∈ key_ids s -> (x =? id) = bool_decide (x ∈ ids_where (fun r => k_id r =? id) s)) as Heq.
  { intros x Hx. case_bool_decide as Hin; rewrite ids_where_id in Hin.
    - apply Z.eqb_eq. by destruct Hin.
    - apply Z.eqb_neq. intros ->. naive_solver. }
  unfold on_grants, on_keyparameter, on_keymetadata, on_keyentry. simpl. f_equal.
  - apply delete_where_ext. intros r Hr. apply Heq. rewrite Forall_forall in wf_params0. auto.
  - apply delete_where_ext. intros r Hr. apply Heq. rewrite Forall_forall in wf_meta0. auto.
  - apply delete_where_ext. intros g Hg. apply Heq. rewrite Forall_forall in wf_grants0.
    destruct (wf_grants0 g Hg) as (r & Hr & <- & _). by apply list_elem_of_fmap_2.
Qed.

(** ** Blobs *)

Lemma max_blob_bound (bl : list BlobRow) r : r ∈ bl -> b_id r <= foldr Z.max 0 (b_id <$> bl).
Proof. induction bl as [|x bl IH]; [by intros ?%not_elem_of_nil|]. intros [->|Hr]%elem_of_cons; rewrite fmap_cons; cbn [foldr]; [|specialize (IH Hr)]; lia. Qed.

Lemma max_blob_nonneg (zs : list Z) : 0 <= foldr Z.max 0 zs.
Proof. induction zs; simpl; lia. Qed.

Definition add_blob (key_id sc_type : Z) (blob : bytes) s : Tables :=
  on_blobentry (fun rows => rows ++ [{| b_id := next_blob_id s; b_type := sc_type; b_key := key_id; b_blob := blob |}]) s.

Lemma max_blob_add key_id sc_type blob s :
  max_blob_id (add_blob key_id sc_type blob s) = next_blob_id s.
Proof.
  assert (forall zs m, (forall x, x ∈ zs -> x <= m) -> foldr Z.max m zs = m) as Hf.
  { clear. induction zs as [|x zs IH]; intros m Hle; simpl; [done|]. rewrite IH by set_solver.
    assert (x <= m) by set_solver. lia. }
  unfold max_blob_id, add_blob. simpl. rewrite fmap_app, foldr_app. cbn [fmap list_fmap foldr b_id].
  pose proof (max_blob_nonneg (b_id <$> blobentry s)).
  rewrite Z.max_l by (unfold next_blob_id; lia). apply Hf. intros x (r & -> & Hr)%list_elem_of_fmap.
  apply max_blob_bound in Hr. unfold next_blob_id. lia.
Qed.

Lemma wf_add_blob key_id sc_type blob s : db_wf s -> db_wf (add_blob key_id sc_type blob s).
Proof.
  intros []. assert (next_blob_id s ∉ b_id <$> blobentry s) as Hfresh.
  { intros (r & Hr & Hin)%list_elem_of_fmap. apply max_blob_bound in Hin. unfold next_blob_id in Hr. lia. }
  constructor; simpl; try done.
  - rewrite fmap_app. apply NoDup_app. split; [done|]. split; [|apply NoDup_singleton].
    intros x Hx ->%list_elem_of_singleton. done.
  - apply Forall_app. split; [done|]. constructor; [|constructor]. simpl.
    unfold next_blob_id. pose proof (max_blob_nonneg (b_id <$> blobentry s)). lia.
  - eapply Forall_impl; [done|]. simpl. intros r (b & Hb & ?). exists b. set_solver.
Qed.

(** No metadata is waiting for the next blob. *)
Lemma next_blob_no_meta s : db_wf s -> Forall (fun r => m_owner r <> next_blob_id s) (blobmetadata s).
Proof.
  intros []. eapply Forall_impl; [exact wf_bmeta0|]. simpl. intros r (b & Hb & <- & _).
  apply max_blob_bound in Hb. unfold next_blob_id. lia.
Qed.

Lemma wf_blob_metadata s (m : BlobMetaData) b :
  db_wf s -> b ∈ blobentry s -> b_type b = SubComponentType.KEY_BLOB ->
  db_wf (on_blobmetadata (meta_store (b_id b) m) s).
Proof.
  intros [] Hb Ht. constructor; simpl; try done.
  - by apply meta_store_nodup.
  - apply Forall_forall. intros r [Ho|Hr]%meta_store_elem; [by exists b|].
    rewrite Forall_forall in wf_bmeta0. auto.
Qed.

Lemma wf_key_metadata s id (m : KeyMetaData) :
  db_wf s -> id ∈ key_ids s -> db_wf (on_keymetadata (meta_store id m) s).
Proof.
  intros [] Hid. constructor; simpl; try done.
  - by apply meta_store_nodup.
  - apply Forall_forall. intros r [->|Hr]%meta_store_elem; [done|]. rewrite Forall_forall in wf_meta0. auto.
Qed.

(** ** Operations preserve the invariant *)

Definition preserves {A} (m : sr Tables AnyError A) : Prop := triple db_wf m (fun _ => db_wf).

Lemma preserves_transaction {A} (m : sr Tables AnyError A) : preserves m -> preserves (transaction m).
Proof. apply triple_transaction. Qed.

Lemma first_free_Some draws used id :
  first_free draws used = Some id -> id ∈ draws /\ id <> UNASSIGNED_KEY_ID /\ id ∉ used.
Proof.
  induction draws as [|i draws IH]; simpl; [done|]. destruct (_ || _) eqn:E.
  - intros (? & ? & ?)%IH. split; [by right|done].
  - intros; simplify_eq. bool_prop. split; [by left|done].
Qed.

Lemma insert_with_retry_Ok draws used ins s id s' :
  insert_with_retry draws used ins s = (Ok id, s') ->
  id <> UNASSIGNED_KEY_ID /\ id ∉ used s /\ s' = ins id s.
Proof.
  unfold insert_with_retry. destruct (first_free _ _) eqn:E; [|done].
  apply first_free_Some in E as (_ & ? & ?). intros; by simplify_eq.
Qed.

(** A new key, to which its artifacts can be attached. *)
Definition wf_with (id : Z) s : Prop := db_wf s /\ id ∈ key_ids s.

Lemma create_key_entry_internal_wf draws d n kt u :
  triple db_wf (create_key_entry_internal draws d n kt u) wf_with.
Proof.
  unfold create_key_entry_internal. destruct (negb _); [apply triple_throw|].
  intros s id s' Hwf (Hun & Hid & ->)%insert_with_retry_Ok. split.
  - apply wf_add_key; [done..|]. done.
  - unfold key_ids. simpl. rewrite fmap_app. set_solver.
Qed.

(** Metadata belong to key blobs. *)
Definition blob_args_ok (sc_type : Z) (m : option BlobMetaData) : Prop :=
  sc_type = SubComponentType.KEY_BLOB \/ m = None.

Lemma set_blob_internal_Ok key_id sc_type blob m s s' :
  set_blob_internal key_id sc_type blob m s = (Ok tt, s') ->
  keyentry s' = keyentry s /\ keyparameter s' = keyparameter s /\ keymetadata s' = keymetadata s /\
  grants s' = grants s /\
  match blob with
  | Some b => blobentry s' = blobentry (add_blob key_id sc_type b s) /\
      blobmetadata s' = match m with Some m => meta_store (next_blob_id s) m (blobmetadata s)
                                | None => blobmetadata s end
  | None => sc_type <> SubComponentType.KEY_BLOB /\ blobmetadata s' = blobmetadata s /\
      blobentry s' = delete_where (fun r => (b_type r =? sc_type) && (b_key r =? key_id)) (blobentry s)
  end.
Proof.
  unfold set_blob_internal. destruct blob as [b|].
  - intros H. sr_ok H. unfold modify in E. simplify_eq. fold (add_blob key_id sc_type b s) in H.
    destruct m as [m|]; unfold modify, mret, sr_ret in H; simplify_eq; [|done].
    rewrite max_blob_add. done.
  - destruct (_ || _) eqn:E; [|done]. unfold modify. intros; simplify_eq. simpl.
    repeat (split; [done|]). split; [|done]. intros ->. done.
Qed.

Lemma set_blob_internal_wf key_id sc_type blob m :
  blob_args_ok sc_type m -> preserves (set_blob_internal key_id sc_type blob m).
Proof.
  intros Hargs. unfold set_blob_internal. destruct blob as [b|].
  - intros s [] s' Hwf H. sr_ok H. unfold modify in E. simplify_eq. fold (add_blob key_id sc_type b s) in H.
    apply (wf_add_blob key_id sc_type b) in Hwf as Hwf1.
    destruct m as [m|]; unfold modify, mret, sr_ret in H; simplify_eq; [|done].
    destruct Hargs as [->|]; [|done]. rewrite max_blob_add.
    set (row := {| b_id := next_blob_id s; b_type := SubComponentType.KEY_BLOB; b_key := key_id; b_blob := b |}).
    apply (wf_blob_metadata _ m row); [done| |done]. simpl. set_solver.
  - destruct (_ || _) eqn:E; [|apply triple_throw]. apply triple_modify. intros s Hwf. pose proof Hwf as [].
    constructor; simpl; eauto with keystore.
    apply Forall_forall. intros r Hr. rewrite Forall_forall in wf_bmeta0.
    destruct (wf_bmeta0 r Hr) as (b & Hb & Hid & Ht). exists b. split; [|done].
    apply elem_of_delete_where. split; [done|].
    destruct (b_type b =? sc_type) eqn:E2; [|done]. bool_prop. rewrite Ht in E2. subst sc_type. done.
Qed.

Lemma set_blob_internal_with id key_id sc_type blob m :
  blob_args_ok sc_type m -> triple (wf_with id) (set_blob_internal key_id sc_type blob m) (fun _ => wf_with id).
Proof.
  intros Hargs s [] s' [Hwf Hid] H. split; [by eapply set_blob_internal_wf|].
  apply set_blob_internal_Ok in H as (Hk & _). unfold key_ids in *. by rewrite Hk.
Qed.

Lemma insert_keyparameter_wf id params :
  triple (wf_with id) (insert_keyparameter_internal id params) (fun _ => wf_with id).
Proof.
  apply triple_modify. intros s [[] Hid]. split; [|done]. constructor; simpl; try done.
  apply Forall_app. split; [done|]. apply Forall_forall. intros r (p & -> & _)%list_elem_of_fmap. done.
Qed.

Lemma key_metadata_store_wf id m : triple (wf_with id) (key_metadata_store id m) (fun _ => wf_with id).
Proof. apply triple_modify. intros s [Hwf Hid]. split; [by apply wf_key_metadata|done]. Qed.

(** *** Rebinding an alias *)

Lemma alias_match_true al d n kt r :
  alias_match al d n kt r = true <->
  k_alias r = Some al /\ k_domain r = Some (as_u32 d) /\ k_namespace r = Some n /\ k_type r = kt.
Proof.
  unfold alias_match, col_eq. rewrite !andb_true_iff, !bool_decide_eq_true. tauto.
Qed.

Lemma new_match_true id d n kt r :
  new_match id d n kt r = true <->
  k_id r = id /\ k_domain r = Some (as_u32 d) /\ k_namespace r = Some n /\
  k_state r = KeyLifeCycle.Existing /\ k_type r = kt.
Proof.
  unfold new_match, col_eq. rewrite !andb_true_iff, !bool_decide_eq_true, Z.eqb_eq. tauto.
Qed.

Lemma keys_ok_unbind p l : keys_ok l -> keys_ok (update_where p unbound l).
Proof.
  intros [Hnd Has Hal Hli]. constructor.
  - by rewrite (fmap_update_where k_id).
  - by rewrite (fmap_update_where k_id).
  - intros r r' (y & Hy & ->)%elem_of_update_where (y' & Hy' & ->)%elem_of_update_where T1 T2 Hs E1 E2 E3.
    destruct (p y), (p y'); simpl in *; try (by destruct Hs); try (by rewrite E1 in Hs; destruct Hs); auto.
  - intros r (y & Hy & ->)%elem_of_update_where T1. destruct (p y); simpl in *; [done|auto].
Qed.

Lemma keys_ok_bind id al d n kt l :
  keys_ok l -> (forall r, r ∈ l -> alias_match al d n kt r = false) ->
  keys_ok (update_where (new_match id d n kt) (bound_live al) l).
Proof.
  intros Hok Hfree. pose proof Hok as [Hnd Has Hal Hli].
  assert (forall y y', y ∈ l -> y' ∈ l -> new_match id d n kt y = true -> k_type y' = KeyType.Client ->
    k_type y = KeyType.Client -> Some al = k_alias y' -> k_domain y = k_domain y' ->
    k_namespace y = k_namespace y' -> False) as Hclash.
  { intros y y' Hy Hy' (_ & Hd & Hn & _ & Ht)%new_match_true T' T Ea Ed En.
    specialize (Hfree y' Hy'). rewrite (proj2 (alias_match_true al d n kt y')) in Hfree; [done|].
    repeat split; congruence. }
  constructor.
  - by rewrite (fmap_update_where k_id).
  - by rewrite (fmap_update_where k_id).
  - intros r r' (y & Hy & ->)%elem_of_update_where (y' & Hy' & ->)%elem_of_update_where T1 T2 Hs E1 E2 E3.
    destruct (new_match id d n kt y) eqn:M, (new_match id d n kt y') eqn:M'; simpl in *.
    + apply new_match_true in M as (M & _), M' as (M' & _). f_equal. apply (keys_ok_unique l); congruence.
    + destruct (Hclash y y'); congruence.
    + destruct (Hclash y' y); congruence.
    + by apply Hal.
  - intros r (y & Hy & ->)%elem_of_update_where T1. destruct (new_match id d n kt y) eqn:M; simpl in *; [|auto].
    apply new_match_true in M as (_ & -> & -> & _). intros _. by split_and!.
Qed.

Lemma unbind_no_match al d n kt l r :
  r ∈ update_where (alias_match al d n kt) unbound l -> alias_match al d n kt r = false.
Proof.
  intros (y & _ & ->)%elem_of_update_where. destruct (alias_match al d n kt y) eqn:E; done.
Qed.

Lemma rebind_alias_Ok id al d n kt s b s' :
  rebind_alias id al d n kt s = (Ok b, s') ->
  s' = on_keyentry (fun l => update_where (new_match id d n kt) (bound_live al)
                               (update_where (alias_match al d n kt) unbound l)) s /\
  affected (new_match id d n kt) (update_where (alias_match al d n kt) unbound (keyentry s)) = 1 /\
  b = negb (affected (alias_match al d n kt) (keyentry s) =? 0) /\ app_or_selinux d = true.
Proof.
  unfold rebind_alias. destruct (app_or_selinux d); simpl; [|done].
  unfold mbind, sr_bind, gets, modify, throw, mret, sr_ret. simpl.
  destruct (_ =? 1) eqn:E; simpl; [|done]. bool_prop. intros; by simplify_eq.
Qed.

Lemma rebind_alias_wf id al d n kt : preserves (rebind_alias id al d n kt).
Proof.
  intros s b s' Hwf (-> & _)%rebind_alias_Ok. apply wf_set_keyentry; [done| |].
  - apply keys_ok_bind; [by apply keys_ok_unbind, wf_keys|]. intros r. apply unbind_no_match.
  - intros r Hr.
    set (r1 := if alias_match al d n kt r then unbound r else r).
    exists (if new_match id d n kt r1 then bound_live al r1 else r1). split; [|split].
    + apply elem_of_update_where. exists r1. split; [|done]. apply elem_of_update_where. by exists r.
    + subst r1. destruct (alias_match _ _ _ _ r), (new_match _ _ _ _ _); done.
    + subst r1. destruct (alias_match _ _ _ _ r), (new_match _ _ _ _ _); done.
Qed.

Lemma triple_pre {A} (P P' : Tables -> Prop) (m : sr Tables AnyError A) Q :
  triple P' m Q -> (forall s, P s -> P' s) -> triple P m Q.
Proof. intros H HP. by eapply triple_conseq. Qed.

Lemma store_new_key_wf draws key kt params bi ci md u :
  preserves (store_new_key draws key kt params bi ci md u).
Proof.
  unfold store_new_key. eapply triple_bind; [by apply (triple_lift _ _ (fun _ => db_wf))|].
  intros [[al d] n]. apply triple_transaction.
  eapply triple_bind; [apply create_key_entry_internal_wf|]. intros id.
  eapply triple_bind; [apply (set_blob_internal_with id); by left|]. intros [].
  eapply triple_bind.
  { destruct (cert ci); [apply (set_blob_internal_with id); by right|by apply (triple_ret _ _ (fun _ => wf_with id))]. }
  intros []. eapply triple_bind.
  { destruct (cert_chain ci); [apply (set_blob_internal_with id); by right|by apply (triple_ret _ _ (fun _ => wf_with id))]. }
  intros []. eapply triple_bind; [apply insert_keyparameter_wf|]. intros [].
  eapply triple_bind; [apply key_metadata_store_wf|]. intros [].
  eapply triple_bind; [eapply triple_pre; [apply rebind_alias_wf|by intros ? []]|].
  intros b. by apply triple_ret.
Qed.

Lemma store_new_certificate_wf draws now key kt c u :
  preserves (store_new_certificate draws now key kt c u).
Proof.
  unfold store_new_certificate. eapply triple_bind; [by apply (triple_lift _ _ (fun _ => db_wf))|].
  intros [[al d] n]. apply triple_transaction.
  eapply triple_bind; [apply create_key_entry_internal_wf|]. intros id.
  eapply triple_bind; [apply (set_blob_internal_with id); by right|]. intros [].
  eapply triple_bind; [by apply (triple_lift _ _ (fun _ => wf_with id))|]. intros date.
  eapply triple_bind; [apply key_metadata_store_wf|]. intros [].
  eapply triple_bind; [eapply triple_pre; [apply rebind_alias_wf|by intros ? []]|].
  intros b. by apply triple_ret.
Qed.

Lemma create_key_entry_wf draws d n kt u : preserves (create_key_entry draws d n kt u).
Proof.
  apply triple_transaction. eapply triple_bind; [apply create_key_entry_internal_wf|].
  intros id. apply triple_ret. by intros ? [].
Qed.

Lemma set_blob_wf id sc b m : blob_args_ok sc m -> preserves (set_blob id sc b m).
Proof.
  intros H. apply triple_transaction. eapply triple_bind; [by apply set_blob_internal_wf|].
  intros []. by apply triple_ret.
Qed.

Lemma set_deleted_blob_wf b m : preserves (set_deleted_blob b m).
Proof.
  apply triple_transaction. eapply triple_bind; [by apply set_blob_internal_wf; left|].
  intros []. by apply triple_ret.
Qed.

Lemma mark_unreferenced_wf id : preserves (mark_unreferenced id).
Proof.
  intros s b s' Hwf. rewrite mark_unreferenced_purge by done. intros; simplify_eq. by apply wf_purge.
Qed.

Lemma triple_query {A} (P : Tables -> Prop) (f : Tables -> result AnyError A) (Q : A -> Tables -> Prop) :
  (forall a s, f s = Ok a -> P s -> Q a s) -> triple P (query f) Q.
Proof. unfold triple, query. intros H s a s' HP Hm. simplify_eq. auto. Qed.

Lemma unbind_key_wf key kt uid chk : preserves (unbind_key key kt uid chk).
Proof.
  apply triple_transaction. eapply triple_bind; [by apply (triple_query _ _ (fun _ => db_wf))|].
  intros [[id dk] av]. eapply triple_bind; [by apply (triple_lift _ _ (fun _ => db_wf))|]. intros [].
  eapply triple_bind; [apply mark_unreferenced_wf|]. intros b. by apply triple_ret.
Qed.

Lemma check_and_update_wf id : preserves (check_and_update_key_usage_count id).
Proof.
  apply triple_transaction. eapply triple_bind; [by apply (triple_query _ _ (fun _ => db_wf))|]. intros o.
  eapply triple_bind; [by apply (triple_lift _ _ (fun _ => db_wf))|]. intros limit.
  eapply triple_bind.
  { apply (triple_modify _ _ (fun _ => db_wf)). intros s []. constructor; simpl; try done.
    apply Forall_forall. intros r (y & Hy & ->)%elem_of_update_where. rewrite Forall_forall in wf_params0.
    specialize (wf_params0 y Hy). by destruct (limit_match id y). }
  intros []. destruct (limit =? 1).
  - eapply triple_bind; [apply mark_unreferenced_wf|]. intros b. by apply triple_ret.
  - destruct (limit =? 0); [apply triple_throw|by apply triple_ret].
Qed.

Lemma unbind_namespace_wf d n : preserves (unbind_keys_for_namespace d n).
Proof.
  unfold unbind_keys_for_namespace. destruct (negb _); [apply triple_throw|]. apply triple_transaction.
  eapply (triple_bind _ _ _ (fun _ => db_wf)); [|intros []; by apply triple_ret].
  intros s [] s' Hwf. rewrite delete_keys_where_purge. intros; simplify_eq. by apply wf_purge.
Qed.

Lemma cleanup_unreferenced_wf : preserves cleanup_unreferenced.
Proof.
  intros s [] s' Hwf. unfold cleanup_unreferenced. rewrite delete_keys_where_purge. intros; simplify_eq. by apply wf_purge.
Qed.

(** Any set of keys may become unreferenced. *)
Lemma wf_unreferenced (p : KeyRow -> bool) s :
  db_wf s -> db_wf (on_keyentry (update_where p (set_state KeyLifeCycle.Unreferenced)) s).
Proof.
  intros Hwf. apply wf_set_keyentry; [done| |].
  - destruct (wf_keys _ Hwf) as [Hnd Has Hal Hli]. constructor.
    + by rewrite (fmap_update_where k_id).
    + by rewrite (fmap_update_where k_id).
    + intros r r' (y & Hy & ->)%elem_of_update_where (y' & Hy' & ->)%elem_of_update_where T1 T2 Hs E1 E2 E3.
      assert (y = y') as ->; [|done].
      apply Hal; try done; destruct (p y), (p y'); done.
    + intros r (y & Hy & ->)%elem_of_update_where T1. destruct (p y); [done|auto].
  - intros r Hr. exists (if p r then set_state KeyLifeCycle.Unreferenced r else r).
    split; [apply elem_of_update_where; by exists r|]. by destruct (p r).
Qed.

Lemma cleanup_leftovers_wf : preserves cleanup_leftovers.
Proof.
  apply triple_transaction. eapply triple_bind; [by apply (triple_gets db_wf _ (fun _ => db_wf))|]. intros n.
  eapply (triple_bind _ _ _ (fun _ => db_wf)); [|intros []; by apply triple_ret].
  apply triple_modify. intros s. apply wf_unreferenced.
Qed.

Lemma unbind_user_key_wf keep id : preserves (unbind_user_key keep id).
Proof.
  unfold unbind_user_key. eapply (triple_bind _ _ _ (fun _ => db_wf)).
  - destruct keep; [by apply triple_query|by apply triple_ret].
  - intros []; [by apply triple_ret|apply mark_unreferenced_wf].
Qed.

Lemma unbind_keys_for_user_wf off user keep : preserves (unbind_keys_for_user off user keep).
Proof.
  apply triple_transaction. eapply triple_bind; [by apply (triple_gets db_wf _ (fun _ => db_wf))|]. intros ids.
  eapply (triple_bind _ _ _ (fun _ => db_wf)); [|intros b; by apply triple_ret].
  generalize false. induction ids as [|id ids IH]; intros b; simpl; [by apply triple_ret|].
  eapply triple_bind; [apply unbind_user_key_wf|]. intros b'. apply IH.
Qed.

Lemma delete_blob_wf id : preserves (delete_blob id).
Proof.
  intros s [] s' Hwf. unfold delete_blob, mbind, sr_bind, modify. intros; simplify_eq. pose proof Hwf as [].
  constructor; simpl; eauto with keystore.
  apply Forall_forall. intros r [Hr Hn]%elem_of_delete_where. bool_prop. rewrite Forall_forall in wf_bmeta0.
  destruct (wf_bmeta0 r Hr) as (b & Hb & Hid & Ht). exists b. split; [|done].
  apply elem_of_delete_where. split; [done|]. apply Z.eqb_neq. congruence.
Qed.

Lemma sr_for_wf {A} (f : A -> sr Tables AnyError unit) xs :
  (forall a, preserves (f a)) -> preserves (sr_for f xs).
Proof.
  intros Hf s [] s' Hwf H. eapply sr_for_preserves; [|done|done]. intros a s1 s2 _ Hs1 Hr. by eapply (Hf a).
Qed.

Lemma handle_next_superseded_blobs_wf ids n : preserves (handle_next_superseded_blobs ids n).
Proof.
  apply triple_transaction. eapply triple_bind; [apply (sr_for_wf delete_blob), delete_blob_wf|]. intros [].
  eapply triple_bind; [apply cleanup_unreferenced_wf|]. intros [].
  eapply triple_bind; [by apply (triple_gets db_wf _ (fun _ => db_wf))|]. intros rows.
  eapply triple_bind; [by apply (triple_query _ _ (fun _ => db_wf))|]. intros [|x xs]; [|by apply triple_ret].
  eapply (triple_bind _ _ _ (fun _ => db_wf)); [|intros []; by apply triple_ret].
  apply triple_modify. intros s Hwf. pose proof Hwf as []. constructor; simpl; eauto with keystore.
  apply Forall_forall. intros r Hr. rewrite Forall_forall in wf_bmeta0.
  destruct (wf_bmeta0 r Hr) as (b & Hb & Hid & Ht). exists b. split; [|done].
  apply elem_of_delete_where. split; [done|]. unfold is_key_blob. by rewrite Ht.
Qed.

(** *** Access tuples and grants *)

Lemma extract_one_Ok {A B} (rows : list A) (f : option A -> result AnyError B) b :
  with_rows_extract_one rows f = Ok b -> f (head rows) = Ok b.
Proof. unfold with_rows_extract_one. by destruct rows as [|? [|? ?]]. Qed.

Lemma id_match_true key al kt r :
  id_match key al kt r = true <->
  k_type r = kt /\ k_domain r = Some (as_u32 (domain key)) /\ k_namespace r = Some (nspace key) /\
  k_alias r = Some al /\ k_state r = KeyLifeCycle.Live.
Proof. unfold id_match, col_eq. rewrite !andb_true_iff, !bool_decide_eq_true. tauto. Qed.

Lemma load_key_entry_id_Ok key kt s id :
  load_key_entry_id key kt s = Ok id ->
  exists al r, alias key = Some al /\ r ∈ keyentry s /\ k_id r = id /\ id_match key al kt r = true.
Proof.
  unfold load_key_entry_id. rewrite bind_Ok. intros (al & Hal%ok_or_Ok & H%extract_one_Ok).
  destruct (head _) as [r|] eqn:Hh; simplify_eq/=. apply head_select_Some in Hh as [Hr Hm]. eauto 10.
Qed.

Definition live_key s (id : Z) : Prop :=
  exists r, r ∈ keyentry s /\ k_id r = id /\ k_state r = KeyLifeCycle.Live.

(** An access tuple is for a live key. *)
Lemma load_access_tuple_live key kt uid s id dk av :
  load_access_tuple key kt uid s = Ok (id, dk, av) -> live_key s id.
Proof.
  unfold load_access_tuple. destruct (app_or_selinux (domain key)).
  - rewrite bind_Ok. intros (id' & H & Hr). simplify_eq.
    apply load_key_entry_id_Ok in H as (al & r & _ & Hr & Hid & Hm). apply id_match_true in Hm. exists r. naive_solver.
  - destruct (domain key =? val Domain.GRANT).
    + rewrite bind_Ok. intros ([id' av'] & H%extract_one_Ok & Hr). simplify_eq.
      destruct (head _) as [g|] eqn:Hh; simplify_eq/=. apply head_select_Some in Hh as [_ Hm]. bool_prop.
      unfold is_live_key in *. destruct (head (select_where _ (keyentry s))) as [r|] eqn:Hk; [|done].
      apply head_select_Some in Hk as [Hr Hid]. bool_prop. by exists r.
    + destruct (domain key =? val Domain.KEY_ID); [|done].
      rewrite bind_Ok. intros ([d n] & H%extract_one_Ok & Hr). simplify_eq.
      destruct (head _) as [r|] eqn:Hh; simplify_eq/=. apply head_select_Some in Hh as [Hin Hm]. bool_prop. by exists r.
Qed.

Lemma live_grantable s id : live_key s id -> grantable (keyentry s) id.
Proof. intros (r & Hr & Hid & Hst). exists r. by rewrite Hst. Qed.

Lemma grant_wf draws key uid grantee av chk : preserves (grant draws key uid grantee av chk).
Proof.
  apply triple_transaction.
  eapply triple_bind; [apply (triple_query _ _ (fun t s => db_wf s /\ live_key s t.1.1))|].
  { intros [[id dk] v] s H Hwf. split; [done|]. by eapply load_access_tuple_live. }
  intros [[id dk] v]. simpl. eapply triple_bind; [by apply (triple_lift _ _ (fun _ s => db_wf s /\ live_key s id))|].
  intros []. eapply triple_bind.
  { apply (triple_gets _ _ (fun ex s => (db_wf s /\ live_key s id) /\ (ex = None -> forall g, g ∈ grants s ->
      (g_key g =? id) && (g_grantee g =? grantee) = false))).
    intros s Hs. split; [done|]. intros Hn%fmap_None. by apply head_select_None. }
  intros ex. eapply (triple_bind _ _ _ (fun _ => db_wf)); [|intros gid; by apply triple_ret].
  destruct ex as [gid|].
  - eapply (triple_bind _ _ _ (fun _ => db_wf)); [|intros []; by apply triple_ret].
    apply triple_modify. intros s [[[] _] _]. constructor; simpl; try done.
    + unfold grant_ids. simpl. by rewrite (fmap_update_where g_id).
    + by rewrite (fmap_update_where (fun g => (g_key g, g_grantee g))).
    + apply Forall_forall. intros g (y & Hy & ->)%elem_of_update_where. rewrite Forall_forall in wf_grants0.
      specialize (wf_grants0 y Hy). by destruct (g_id y =? gid).
  - intros s gid s' [[Hwf Hlive] Hnew] (_ & Hfresh & ->)%insert_with_retry_Ok. pose proof Hwf as [].
    constructor; simpl; try done.
    + unfold grant_ids in *. simpl. rewrite fmap_app. apply NoDup_app. split; [done|]. split; [|apply NoDup_singleton].
      intros x Hx ->%list_elem_of_singleton. done.
    + rewrite fmap_app. apply NoDup_app. split; [done|]. split; [|apply NoDup_singleton].
      intros x (g & -> & Hg)%list_elem_of_fmap [= Hk Hgr]%list_elem_of_singleton.
      specialize (Hnew eq_refl g Hg). rewrite Hk, Hgr, !Z.eqb_refl in Hnew. done.
    + apply Forall_app. split; [done|]. constructor; [|constructor]. by apply live_grantable.
Qed.

Lemma ungrant_wf key uid grantee chk : preserves (ungrant key uid grantee chk).
Proof.
  apply triple_transaction. eapply triple_bind; [by apply (triple_query _ _ (fun _ => db_wf))|].
  intros [[id dk] av]. eapply triple_bind; [by apply (triple_lift _ _ (fun _ => db_wf))|]. intros [].
  eapply (triple_bind _ _ _ (fun _ => db_wf)); [|intros []; by apply triple_ret].
  apply triple_modify. intros s []. constructor; simpl; eauto with keystore.
  unfold grant_ids. simpl. by apply NoDup_delete_where.
Qed.

(** *** Moving a key; super keys *)

Lemma keys_ok_move id al d n l :
  keys_ok l -> existsb (occupied al d n) l = false ->
  keys_ok (update_where (fun r => k_id r =? id) (moved al d n) l).
Proof.
  intros Hok Hfree. pose proof Hok as [Hnd Has Hal Hli].
  assert (forall y, y ∈ l -> k_alias y = Some al -> k_domain y = Some d -> k_namespace y = Some n -> False) as Hno.
  { intros y Hy E1 E2 E3. apply not_true_iff_false in Hfree. apply Hfree, existsb_exists.
    exists y. split; [by apply list_elem_of_In|]. unfold occupied, col_eq. by rewrite E1, E2, E3, !bool_decide_eq_true_2. }
  constructor.
  - by rewrite (fmap_update_where k_id).
  - by rewrite (fmap_update_where k_id).
  - intros r r' (y & Hy & ->)%elem_of_update_where (y' & Hy' & ->)%elem_of_update_where T1 T2 Hs E1 E2 E3.
    destruct (Z.eqb_spec (k_id y) id), (Z.eqb_spec (k_id y') id); simpl in *.
    + f_equal. apply (keys_ok_unique l); congruence.
    + by destruct (Hno y' Hy').
    + by destruct (Hno y Hy).
    + by apply Hal.
  - intros r (y & Hy & ->)%elem_of_update_where T1. destruct (k_id y =? id); simpl in *; [|auto]. intros _. by split_and!.
Qed.

Lemma migrate_key_namespace_wf id dest uid chk : preserves (migrate_key_namespace id dest uid chk).
Proof.
  unfold migrate_key_namespace. eapply triple_bind; [by apply (triple_lift _ _ (fun _ => db_wf))|]. intros dst.
  eapply triple_bind; [by apply (triple_lift _ _ (fun _ => db_wf))|]. intros [].
  eapply triple_bind; [by apply (triple_lift _ _ (fun _ => db_wf))|]. intros al. apply triple_transaction.
  eapply triple_bind; [by apply (triple_gets db_wf _ (fun b s => db_wf s /\
    b = existsb (occupied al (domain dst) (nspace dst)) (keyentry s)))|].
  intros []; [apply triple_throw|].
  eapply triple_bind; [by apply (triple_gets _ _ (fun _ s => db_wf s /\
    false = existsb (occupied al (domain dst) (nspace dst)) (keyentry s)))|]. intros n.
  eapply (triple_bind _ _ _ (fun _ => db_wf)).
  - apply triple_modify. intros s [Hwf Hfree]. apply wf_set_keyentry; [done|by apply keys_ok_move; [apply wf_keys|]|].
    intros r Hr. exists (if k_id r =? id then moved al (domain dst) (nspace dst) r else r).
    split; [apply elem_of_update_where; by exists r|]. by destruct (k_id r =? id).
  - intros []. destruct (negb _); [apply triple_throw|by apply triple_ret].
Qed.

Lemma insert_super_wf draws d n al u :
  triple db_wf (insert_with_retry draws key_ids (fun id => on_keyentry (fun rows =>
    rows ++ [super_row id d n al u]))) wf_with.
Proof.
  intros s id s' Hwf (Hun & Hid & ->)%insert_with_retry_Ok. split; [by apply wf_add_key|].
  unfold key_ids. simpl. rewrite fmap_app. set_solver.
Qed.

Lemma store_super_key_wf draws user al b bm km : preserves (store_super_key draws user al b bm km).
Proof.
  apply triple_transaction. eapply triple_bind; [apply insert_super_wf|]. intros id.
  eapply triple_bind; [apply key_metadata_store_wf|]. intros [].
  eapply triple_bind; [apply (set_blob_internal_with id); by left|]. intros [].
  eapply triple_bind; [by apply (triple_query _ _ (fun _ => wf_with id))|]. intros e.
  apply triple_ret. by intros s [].
Qed.

Lemma get_or_create_key_with_wf draws d n al u new : preserves (get_or_create_key_with draws d n al u new).
Proof.
  apply triple_transaction. eapply triple_bind; [by apply (triple_query _ _ (fun _ => db_wf))|]. intros oid.
  eapply (triple_bind _ _ _ (fun _ => db_wf)); [|intros r; by apply triple_ret].
  destruct oid as [id|].
  - eapply triple_bind; [by apply (triple_query _ _ (fun _ => db_wf))|]. intros e. by apply triple_ret.
  - eapply triple_bind; [apply insert_super_wf|]. intros id.
    eapply triple_bind; [by apply (triple_lift _ _ (fun _ => wf_with id))|]. intros nw.
    eapply triple_bind; [apply (set_blob_internal_with id); by left|]. intros [].
    apply triple_ret. by intros s [].
Qed.
End Inv.
