(* ===== verification/DbAttestation.v ===== *)
(** * The attestation key pool ([keystore2/src/database.rs])

    Remotely provisioned keys live in [keyentry] rows of type [Attestation]:
    created without alias, domain and namespace; signed (alias set) when their
    certificate chain arrives; assigned (domain and namespace set) to a
    client; deleted when they expire. *)

From stdpp Require Import base list gmap strings.
From Stdlib Require Import ZArith Lia.
From S2P Require Import Prelude Aidl Errors Sql KeyParameter DbTypes Database DbInvariant.

Section Attestation.
Context {AI : Aidl}.

Abbreviation T := (sr Tables AnyError).

Definition attestation_row (id : Z) (km_uuid : Uuid) : KeyRow :=
  {| k_id := id; k_type := KeyType.Attestation; k_domain := None; k_namespace := None; k_alias := None;
     k_state := KeyLifeCycle.Live; k_uuid := km_uuid |}.

Definition create_attestation_key_entry (draws : list Z) (maced_public_key raw_public_key private_key : bytes)
    (km_uuid : Uuid) : T (bool * unit) :=
  transaction (
    key_id ← insert_with_retry draws key_ids (fun id => on_keyentry (fun l => l ++ [attestation_row id km_uuid]));
    _ ← set_blob_internal key_id SubComponentType.KEY_BLOB (Some private_key) None;
    _ ← key_metadata_store key_id
          (meta_add (AttestationRawPubKey raw_public_key)
             (meta_add (AttestationMacedPublicKey maced_public_key) ∅));
    mret (false, tt)).

(** Not yet signed. *)
Definition unsigned (km_uuid : Uuid) (r : KeyRow) : bool :=
  bool_decide (k_alias r = None) && bool_decide (k_domain r = None) && bool_decide (k_namespace r = None)
  && bool_decide (k_type r = KeyType.Attestation) && bool_decide (k_uuid r = km_uuid).

Definition set_alias (al : string) (r : KeyRow) : KeyRow :=
  {| k_id := k_id r; k_type := k_type r; k_domain := k_domain r; k_namespace := k_namespace r;
     k_alias := Some al; k_state := k_state r; k_uuid := k_uuid r |}.

Definition store_signed_attestation_certificate_chain (raw_public_key batch_cert chain : bytes)
    (expiration_date : Z) (km_uuid : Uuid) : T (bool * unit) :=
  transaction (
    key_id ← query (fun s =>
      with_rows_extract_one
        (select_where (fun r => (m_tag r =? KeyMetaTag.AttestationRawPubKey)
           && sql_eq (m_data r) (BlobVal raw_public_key)
           && bool_decide (m_owner r ∈ ids_where (unsigned km_uuid) s)) (keymetadata s))
        (fun row => m_owner <$> ok_or row (err_rc ResponseCode.KEY_NOT_FOUND)));
    num_updated ← gets (fun s => affected (fun r => k_id r =? key_id) (keyentry s));
    _ ← modify (on_keyentry (update_where (fun r => k_id r =? key_id) (set_alias "signed")));
    if negb (num_updated =? 1) then throw err_sys
    else
      _ ← key_metadata_store key_id (meta_add (AttestationExpirationDate expiration_date) ∅);
      _ ← set_blob_internal key_id SubComponentType.CERT_CHAIN (Some chain) None;
      _ ← set_blob_internal key_id SubComponentType.CERT (Some batch_cert) None;
      mret (false, tt)).

(** Signed but not assigned; assigned to a client. *)
Definition assignable (km_uuid : Uuid) (r : KeyRow) : bool :=
  bool_decide (is_Some (k_alias r)) && bool_decide (k_domain r = None)
  && bool_decide (k_type r = KeyType.Attestation) && bool_decide (k_state r = KeyLifeCycle.Live)
  && bool_decide (k_uuid r = km_uuid).
Definition assigned_to (d namespace : Z) (km_uuid : Uuid) (r : KeyRow) : bool :=
  col_eq (k_domain r) (as_u32 d) && col_eq (k_namespace r) namespace
  && bool_decide (k_type r = KeyType.Attestation) && bool_decide (k_state r = KeyLifeCycle.Live)
  && bool_decide (k_uuid r = km_uuid).

(** [SELECT MIN(id)]: [NULL] on no rows. *)
Definition min_id (ids : list Z) : option Z :=
  match ids with [] => None | i :: ids => Some (foldr Z.min i ids) end.

Definition assign_match (d namespace : Z) (km_uuid : Uuid) (s : Tables) (r : KeyRow) : bool :=
  bool_decide (min_id (ids_where (assignable km_uuid) s) = Some (k_id r))
  && (affected (assigned_to d namespace km_uuid) (keyentry s) =? 0).

Definition set_location (d namespace : Z) (r : KeyRow) : KeyRow :=
  {| k_id := k_id r; k_type := k_type r; k_domain := Some d; k_namespace := Some namespace;
     k_alias := k_alias r; k_state := k_state r; k_uuid := k_uuid r |}.

Definition assign_attestation_key (d namespace : Z) (km_uuid : Uuid) : T (bool * unit) :=
  if negb (app_or_selinux d) then throw err_sys
  else transaction (
    n ← gets (fun s => affected (assign_match d namespace km_uuid s) (keyentry s));
    _ ← modify (fun s => on_keyentry (update_where (assign_match d namespace km_uuid s)
                  (set_location (as_u32 d) namespace)) s);
    if n =? 0 then throw (err_rc ResponseCode.OUT_OF_KEYS)
    else if 1 <? n then throw err_sys
    else mret (false, tt)).

(** [LIMIT n]: a negative limit is none. *)
Definition limit {A} (n : Z) (l : list A) : list A := if n <? 0 then l else take (Z.to_nat n) l.

Definition fetch_unsigned_attestation_keys (num_keys : Z) (km_uuid : Uuid) (s : Tables)
    : result AnyError (list bytes) :=
  try_map (fun r => ok_or (get_bytes (m_data r)) OtherError)
    (select_where (fun r => (m_tag r =? KeyMetaTag.AttestationMacedPublicKey)
       && bool_decide (m_owner r ∈ limit num_keys (ids_where (unsigned km_uuid) s))) (keymetadata s)).

Definition is_attestation (r : KeyRow) : bool := bool_decide (k_type r = KeyType.Attestation).

(** The loop of the two deletions: how many rows went away. *)
Fixpoint mark_all (ids : list Z) (num_deleted : Z) : T Z :=
  match ids with
  | [] => mret num_deleted
  | id :: ids => b ← mark_unreferenced id; mark_all ids (if (b : bool) then num_deleted + 1 else num_deleted)
  end.

(** [now]: the time since the epoch in milliseconds, if the clock is past it. *)
Definition delete_expired_attestation_keys (now : result AnyError Z) : T (bool * Z) :=
  transaction (
    dates ← query (fun s =>
      try_map (fun r => d ← ok_or (get_i64 (m_data r)) OtherError; Ok (m_owner r, d))
        (select_where (fun r => (m_tag r =? KeyMetaTag.AttestationExpirationDate)
           && bool_decide (m_owner r ∈ ids_where is_attestation s)) (keymetadata s)));
    now ← lift now;
    let curr_time := as_i64 now in
    num_deleted ← mark_all (fst <$> select_where (fun kt => snd kt <? curr_time) dates) 0;
    mret (negb (num_deleted =? 0), num_deleted)).

Definition delete_all_attestation_keys : T (bool * Z) :=
  transaction (
    ids ← gets (ids_where is_attestation);
    num_deleted ← mark_all ids 0;
    mret (negb (num_deleted =? 0), num_deleted)).

Record AttestationPoolStatus := {
  expiring : Z;
  unassigned : Z;
  attested : Z;
  total : Z
}.

Definition pool_row (km_uuid : Uuid) (r : KeyRow) : bool :=
  is_attestation r && bool_decide (k_uuid r = km_uuid) && bool_decide (k_state r = KeyLifeCycle.Live).

Definition get_attestation_pool_status (date : Z) (km_uuid : Uuid) (s : Tables)
    : result AnyError AttestationPoolStatus :=
  times ← try_map (fun r => ok_or (get_i64 (m_data r)) OtherError)
    (select_where (fun r => (m_tag r =? KeyMetaTag.AttestationExpirationDate)
       && bool_decide (m_owner r ∈ ids_where (fun k => bool_decide (is_Some (k_alias k)) && pool_row km_uuid k) s))
       (keymetadata s));
  let rows := select_where (pool_row km_uuid) (keyentry s) in
  Ok {| expiring := affected (fun t => t <? date) times;
        unassigned := affected (fun r => bool_decide (is_Some (k_alias r)) && bool_decide (k_domain r = None)) rows;
        attested := affected (fun r => bool_decide (is_Some (k_alias r))) rows;
        total := Z.of_nat (length rows) |}.

Record CertificateChain := {
  private_key : bytes;
  batch_cert : bytes;
  chain : bytes
}.

Definition sort_component (a : CertificateChain) (r : BlobRow) : result AnyError CertificateChain :=
  if b_type r =? SubComponentType.KEY_BLOB then
    Ok {| private_key := b_blob r; batch_cert := batch_cert a; chain := chain a |}
  else if b_type r =? SubComponentType.CERT_CHAIN then
    Ok {| private_key := private_key a; batch_cert := batch_cert a; chain := b_blob r |}
  else if b_type r =? SubComponentType.CERT then
    Ok {| private_key := private_key a; batch_cert := b_blob r; chain := chain a |}
  else Err err_sys.

Definition retrieve_attestation_key_and_cert_chain (d namespace : Z) (km_uuid : Uuid) (s : Tables)
    : result AnyError (option CertificateChain) :=
  if negb (app_or_selinux d) then Err err_sys
  else
    let rows := select_where (fun r => bool_decide (b_key r ∈ ids_where (assigned_to d namespace km_uuid) s))
                  (blobentry s) in
    match length rows with
    | 0%nat => Ok None
    | 3%nat => Some <$> try_fold sort_component {| private_key := []; batch_cert := []; chain := [] |} rows
    | _ => Err err_sys
    end.
End Attestation.

Section Facts.
Context {AI : Aidl}.
Implicit Types (s : Tables) (l : list KeyRow).

(** Changing rows that are not client keys. *)
Lemma keys_ok_update_other p f l :
  (forall r, r ∈ l -> p r = true -> k_type r <> KeyType.Client) ->
  (forall r, k_id (f r) = k_id r /\ k_type (f r) = k_type r) ->
  keys_ok l -> keys_ok (update_where p f l).
Proof.
  intros Hp Hf [Hnd Has Hal Hli].
  assert (forall y, y ∈ l -> k_type (if p y then f y else y) = KeyType.Client ->
    (if p y then f y else y) = y /\ k_type y = KeyType.Client) as Hsame.
  { intros y Hy Ht. destruct (p y) eqn:E; [|done]. destruct (Hf y) as [_ Hty]. rewrite Hty in Ht.
    by destruct (Hp y Hy E). }
  constructor.
  - rewrite (fmap_update_where k_id); [done|]. intros r. apply Hf.
  - rewrite (fmap_update_where k_id); [done|]. intros r. apply Hf.
  - intros r r' (y & Hy & ->)%elem_of_update_where (y' & Hy' & ->)%elem_of_update_where T1 T2.
    destruct (Hsame y Hy T1) as [E1 T1'], (Hsame y' Hy' T2) as [E2 T2']. rewrite E1, E2. by apply Hal.
  - intros r (y & Hy & ->)%elem_of_update_where T1.
    destruct (Hsame y Hy T1) as [E1 T1']. rewrite E1. by apply Hli.
Qed.

Lemma wf_update_other p f s :
  (forall r, r ∈ keyentry s -> p r = true -> k_type r <> KeyType.Client) ->
  (forall r, k_id (f r) = k_id r /\ k_type (f r) = k_type r /\ k_state (f r) = k_state r) ->
  db_wf s -> db_wf (on_keyentry (update_where p f) s).
Proof.
  intros Hp Hf Hwf. apply wf_set_keyentry; [done| |].
  - apply keys_ok_update_other; [done|naive_solver|by apply wf_keys].
  - intros r Hr. exists (if p r then f r else r). split; [apply elem_of_update_where; by exists r|].
    destruct (p r); [|done]. destruct (Hf r) as (-> & _ & ->). done.
Qed.

Lemma create_attestation_wf draws mk rk pk u : preserves (create_attestation_key_entry draws mk rk pk u).
Proof.
  apply triple_transaction. eapply triple_bind.
  { intros s id s' Hwf (Hun & Hid & ->)%insert_with_retry_Ok. instantiate (1 := wf_with). split; [by apply wf_add_key|].
    unfold key_ids. simpl. rewrite fmap_app. set_solver. }
  intros id. eapply triple_bind; [apply (set_blob_internal_with id); by left|]. intros [].
  eapply triple_bind; [apply key_metadata_store_wf|]. intros []. apply triple_ret. by intros s [].
Qed.

Lemma ids_where_type (P : KeyRow -> Prop) p s id :
  keys_ok (keyentry s) -> id ∈ ids_where p s -> (forall r, p r = true -> P r) ->
  forall r, r ∈ keyentry s -> (k_id r =? id) = true -> P r.
Proof.
  intros Hok (r0 & Hr0 & Hp & Hid)%elem_of_ids_where HP r Hr E. bool_prop.
  assert (r = r0) as -> by (apply (keys_ok_unique (keyentry s)); congruence). auto.
Qed.

Lemma store_signed_wf rk bc ch ex u : preserves (store_signed_attestation_certificate_chain rk bc ch ex u).
Proof.
  apply triple_transaction. eapply triple_bind.
  { apply (triple_query _ _ (fun id s => db_wf s /\ id ∈ ids_where (unsigned u) s)).
    intros id s H Hwf. split; [done|]. apply extract_one_Ok in H. destruct (head _) as [m|] eqn:Hh; simplify_eq/=.
    apply head_select_Some in Hh as [_ Hm]. by bool_prop. }
  intros id. eapply triple_bind; [by apply (triple_gets _ _ (fun _ s => db_wf s /\ id ∈ ids_where (unsigned u) s))|].
  intros n. eapply (triple_bind _ _ _ (fun _ => wf_with id)).
  - apply triple_modify. intros s [Hwf Hid]. split.
    + apply wf_update_other; [|done|done]. intros r Hr E.
      eapply (ids_where_type (fun r => k_type r <> KeyType.Client) (unsigned u)); [by apply wf_keys|done| |done|done].
      intros r' Hu. unfold unsigned in Hu. bool_prop. congruence.
    + apply elem_of_ids_where in Hid as (r & Hr & _ & <-). unfold key_ids. simpl.
      rewrite (fmap_update_where k_id) by done. by apply list_elem_of_fmap_2.
  - intros []. destruct (negb _); [apply triple_throw|].
    eapply triple_bind; [apply key_metadata_store_wf|]. intros [].
    eapply triple_bind; [apply (set_blob_internal_with id); by right|]. intros [].
    eapply triple_bind; [apply (set_blob_internal_with id); by right|]. intros [].
    apply triple_ret. by intros s [].
Qed.

Lemma min_id_elem ids i : min_id ids = Some i -> i ∈ ids /\ forall j, j ∈ ids -> i <= j.
Proof.
  destruct ids as [|x ids]; [done|]. simpl. intros [= <-]. induction ids as [|y ids [IH1 IH2]]; simpl.
  - split; [set_solver|]. intros j ->%list_elem_of_singleton. lia.
  - split.
    + destruct (Z.min_spec y (foldr Z.min x ids)) as [[_ ->]|[_ ->]]; set_solver.
    + intros j Hj. assert (j = y \/ j ∈ x :: ids) as [->|Hj'] by set_solver; [lia|]. specialize (IH2 j Hj'). lia.
Qed.

(** The row an assignment changes was assignable. *)
Lemma assign_match_spec d n u s r :
  keys_ok (keyentry s) -> r ∈ keyentry s -> assign_match d n u s r = true ->
  assignable u r = true /\ (forall r', r' ∈ keyentry s -> assigned_to d n u r' = false) /\
  (forall r', r' ∈ keyentry s -> assignable u r' = true -> k_id r <= k_id r').
Proof.
  intros Hok Hr H. unfold assign_match in H. bool_prop.
  apply min_id_elem in H as [Hin Hmin]. split; [|split].
  - eapply (ids_where_type (fun r => assignable u r = true) (assignable u)); eauto. apply Z.eqb_refl.
  - intros r' Hr'. destruct (assigned_to d n u r') eqn:E; [|done]. unfold affected in *.
    assert (r' ∈ select_where (assigned_to d n u) (keyentry s)) as Hs by (by apply elem_of_select_where).
    destruct (select_where _ _); [by apply not_elem_of_nil in Hs|]. simpl in *. lia.
  - intros r' Hr' Ha. apply Hmin. apply elem_of_ids_where. eauto.
Qed.

Lemma assignable_true u r :
  assignable u r = true <-> is_Some (k_alias r) /\ k_domain r = None /\ k_type r = KeyType.Attestation /\
    k_state r = KeyLifeCycle.Live /\ k_uuid r = u.
Proof. unfold assignable. rewrite !andb_true_iff, !bool_decide_eq_true. tauto. Qed.

Lemma assigned_to_true d n u r :
  assigned_to d n u r = true <-> k_domain r = Some (as_u32 d) /\ k_namespace r = Some n /\
    k_type r = KeyType.Attestation /\ k_state r = KeyLifeCycle.Live /\ k_uuid r = u.
Proof. unfold assigned_to, col_eq. rewrite !andb_true_iff, !bool_decide_eq_true. tauto. Qed.

Lemma assign_attestation_Ok d n u s r s' :
  assign_attestation_key d n u s = (Ok r, s') ->
  app_or_selinux d = true /\ affected (assign_match d n u s) (keyentry s) = 1 /\
  s' = on_keyentry (update_where (assign_match d n u s) (set_location (as_u32 d) n)) s.
Proof.
  unfold assign_attestation_key. destruct (app_or_selinux d); simpl; [|done]. intros H. apply (proj1 (transaction_Ok _ _ _ _)) in H.
  unfold mbind, sr_bind, gets, modify, throw, mret, sr_ret in H. simpl in H.
  destruct (_ =? 0) eqn:E0; [done|]. destruct (1 <? _) eqn:E1; [done|]. simplify_eq. bool_prop.
  split; [done|]. split; [|done]. unfold affected in *. lia.
Qed.

Lemma assign_attestation_wf d n u : preserves (assign_attestation_key d n u).
Proof.
  intros s r s' Hwf (_ & _ & ->)%assign_attestation_Ok. apply wf_update_other; [|done|done].
  intros r' Hr' (Ha & _)%assign_match_spec; [|by apply wf_keys|done]. apply assignable_true in Ha.
  destruct Ha as (_ & _ & -> & _). done.
Qed.

Lemma mark_all_wf ids n : preserves (mark_all ids n).
Proof.
  revert n. induction ids as [|id ids IH]; intros n; simpl; [by apply triple_ret|].
  eapply triple_bind; [apply mark_unreferenced_wf|]. intros b. apply IH.
Qed.

Lemma delete_expired_wf now : preserves (delete_expired_attestation_keys now).
Proof.
  apply triple_transaction. eapply triple_bind; [by apply (triple_query _ _ (fun _ => db_wf))|]. intros dates.
  eapply triple_bind; [by apply (triple_lift _ _ (fun _ => db_wf))|]. intros t.
  eapply triple_bind; [apply mark_all_wf|]. intros n. by apply triple_ret.
Qed.

Lemma delete_all_wf : preserves delete_all_attestation_keys.
Proof.
  apply triple_transaction. eapply triple_bind; [by apply (triple_gets db_wf _ (fun _ => db_wf))|]. intros ids.
  eapply triple_bind; [apply mark_all_wf|]. intros n. by apply triple_ret.
Qed.
End Facts.
