(* ===== verification/DbKeys.v ===== *)
(** * Keys in the database: storing, loading, counting, deleting *)

From stdpp Require Import base list gmap strings.
From Stdlib Require Import ZArith Lia.
From S2P Require Import Prelude Aidl Errors Sql KeyParameter DbTypes Database DbInvariant.

Section Keys.
Context {AI : Aidl}.
Implicit Types (s : Tables).

Lemma affected_pos {A} (p : A -> bool) (l : list A) x :
  x ∈ l -> p x = true -> (affected p l =? 0) = false.
Proof.
  intros Hx Hp. apply Z.eqb_neq. unfold affected.
  assert (x ∈ select_where p l) as Hin by (by apply elem_of_select_where).
  destruct (select_where p l) as [|y t]; [by apply not_elem_of_nil in Hin|]. simpl. lia.
Qed.

(** ** What [store_new_key] writes *)

Definition new_row (id : Z) (kt : KeyType.t) (d n : Z) (u : Uuid) : KeyRow :=
  {| k_id := id; k_type := kt; k_domain := Some (as_u32 d); k_namespace := Some n; k_alias := None;
     k_state := KeyLifeCycle.Existing; k_uuid := u |}.

(** The key table after binding [al] to the new row. *)
Definition rebound (id : Z) (al : string) (d n : Z) (kt : KeyType.t) (l : list KeyRow) : list KeyRow :=
  update_where (new_match id d n kt) (bound_live al) (update_where (alias_match al d n kt) unbound l).

Definition param_row (id : Z) (p : KeyParameter) : ParamRow :=
  {| p_key := id; p_tag := get_tag (kp_value p); p_data := to_sql (kp_value p); p_level := security_level p |}.

Definition blob_row (bid sc id : Z) (b : bytes) : BlobRow :=
  {| b_id := bid; b_type := sc; b_key := id; b_blob := b |}.

(** The blobs of a new key, numbered from [bid]. *)
Definition new_blobs (bid id : Z) (b : bytes) (ci : CertificateInfo) : list BlobRow :=
  blob_row bid SubComponentType.KEY_BLOB id b ::
  match cert ci, cert_chain ci with
  | Some c, Some ch => [blob_row (1 + bid) SubComponentType.CERT id c;
                        blob_row (1 + (1 + bid)) SubComponentType.CERT_CHAIN id ch]
  | Some c, None => [blob_row (1 + bid) SubComponentType.CERT id c]
  | None, Some ch => [blob_row (1 + bid) SubComponentType.CERT_CHAIN id ch]
  | None, None => []
  end.

Lemma next_blob_same s s' : blobentry s' = blobentry s -> next_blob_id s' = next_blob_id s.
Proof. unfold next_blob_id. by intros ->. Qed.

Lemma next_blob_add id sc b s : next_blob_id (add_blob id sc b s) = 1 + next_blob_id s.
Proof. pose proof (max_blob_add id sc b s) as H. unfold max_blob_id in H. unfold next_blob_id at 1. by rewrite H. Qed.

Lemma store_new_key_Ok draws key kt params bi ci md u s gc id s' :
  store_new_key draws key kt params bi ci md u s = (Ok (gc, id), s') ->
  exists al, new_key_location key = Ok (al, domain key, nspace key) /\
    alias key = Some al /\ app_or_selinux (domain key) = true /\
    id <> UNASSIGNED_KEY_ID /\ id ∉ key_ids s /\
    keyentry s' = rebound id al (domain key) (nspace key) kt
                    (keyentry s ++ [new_row id kt (domain key) (nspace key) u]) /\
    blobentry s' = blobentry s ++ new_blobs (next_blob_id s) id bi.1 ci /\
    blobmetadata s' = meta_store (next_blob_id s) bi.2 (blobmetadata s) /\
    keyparameter s' = keyparameter s ++ (param_row id <$> params) /\
    keymetadata s' = meta_store id md (keymetadata s) /\
    grants s' = grants s /\
    gc = negb (affected (alias_match al (domain key) (nspace key) kt)
                 (keyentry s ++ [new_row id kt (domain key) (nspace key) u]) =? 0).
Proof.
  unfold store_new_key. intros H. apply sr_bind_Ok in H as ([[al d] n] & s0 & Hloc & H).
  unfold lift in Hloc. injection Hloc as Hloc <-. exists al.
  assert (alias key = Some al /\ app_or_selinux (domain key) = true /\ d = domain key /\ n = nspace key)
    as (Hal & Hd & -> & ->).
  { unfold new_key_location in Hloc. destruct (alias key), (blob key), (app_or_selinux (domain key)) eqn:?; by simplify_eq. }
  split; [done|]. split; [done|]. split; [done|].
  apply (proj1 (transaction_Ok _ _ _ _)) in H.
  apply sr_bind_Ok in H as (id' & s1 & Hc & H). unfold create_key_entry_internal in Hc. rewrite Hd in Hc.
  apply insert_with_retry_Ok in Hc as (Hun & Hid & ->).
  set (s1 := on_keyentry _ s) in H.
  assert (s1 = on_keyentry (fun l => l ++ [new_row id' kt (domain key) (nspace key) u]) s) as Hs1 by done.
  clearbody s1.
  apply sr_bind_Ok in H as ([] & s2 & H2 & H). apply set_blob_internal_Ok in H2 as (K2 & P2 & M2 & G2 & B2 & BM2).
  apply sr_bind_Ok in H as ([] & s3 & H3 & H).
  assert (keyentry s3 = keyentry s2 /\ keyparameter s3 = keyparameter s2 /\ keymetadata s3 = keymetadata s2 /\
    grants s3 = grants s2 /\ blobmetadata s3 = blobmetadata s2 /\
    blobentry s3 = match cert ci with Some c => blobentry (add_blob id' SubComponentType.CERT c s2)
                                 | None => blobentry s2 end) as (K3 & P3 & M3 & G3 & BM3 & B3).
  { destruct (cert ci); [by apply set_blob_internal_Ok in H3 as (? & ? & ? & ? & ? & ?)|].
    unfold mret, sr_ret in H3. by simplify_eq. }
  apply sr_bind_Ok in H as ([] & s4 & H4 & H).
  assert (keyentry s4 = keyentry s3 /\ keyparameter s4 = keyparameter s3 /\ keymetadata s4 = keymetadata s3 /\
    grants s4 = grants s3 /\ blobmetadata s4 = blobmetadata s3 /\
    blobentry s4 = match cert_chain ci with Some c => blobentry (add_blob id' SubComponentType.CERT_CHAIN c s3)
                                       | None => blobentry s3 end) as (K4 & P4 & M4 & G4 & BM4 & B4).
  { destruct (cert_chain ci); [by apply set_blob_internal_Ok in H4 as (? & ? & ? & ? & ? & ?)|].
    unfold mret, sr_ret in H4. by simplify_eq. }
  apply sr_bind_Ok in H as ([] & s5 & H5 & H). unfold insert_keyparameter_internal, modify in H5. injection H5 as <-.
  apply sr_bind_Ok in H as ([] & s6 & H6 & H). unfold key_metadata_store, modify in H6. injection H6 as <-.
  apply sr_bind_Ok in H as (gc' & s7 & H7 & H). unfold mret, sr_ret in H. simplify_eq.
  apply rebind_alias_Ok in H7 as (-> & _ & Hgc & _). simpl in *.
  rewrite K4, K3, K2 in *. rewrite P4, P3, P2, M4, M3, M2, G4, G3, G2, BM4, BM3, BM2.
  split; [done|]. split; [done|]. split; [done|]. split; [|by split_and!].
  rewrite B4. simpl in B2.
  assert (next_blob_id s2 = 1 + next_blob_id s) as N2.
  { rewrite <- (next_blob_add id SubComponentType.KEY_BLOB bi.1 s). by apply next_blob_same. }
  unfold new_blobs, blob_row. destruct (cert ci) as [c|], (cert_chain ci) as [ch|]; simpl in *.
  - assert (next_blob_id s3 = 1 + next_blob_id s2) as N3.
    { rewrite <- (next_blob_add id SubComponentType.CERT c s2). by apply next_blob_same. }
    rewrite B3, B2, N3, N2, <- !app_assoc. done.
  - rewrite B3, B2, N2, <- !app_assoc. done.
  - rewrite (next_blob_same s2 s3), B3, B2, N2, <- !app_assoc by done. done.
  - rewrite B3, B2. done.
Qed.

(** ** What [load_key_entry] finds *)

Lemma select_unique {A B} (g : A -> B) (p : A -> bool) (l : list A) x :
  NoDup (g <$> l) -> x ∈ l -> p x = true -> (forall y, y ∈ l -> p y = true -> g y = g x) ->
  select_where p l = [x].
Proof.
  intros Hnd Hx Hp Huniq. assert (NoDup (g <$> select_where p l)) as Hnd' by (by apply NoDup_fmap_filter).
  assert (x ∈ select_where p l) as Hin by (by apply elem_of_select_where).
  assert (forall y, y ∈ select_where p l -> y = x) as Hall.
  { intros y [Hy Hpy]%elem_of_select_where. apply (NoDup_fmap_inj g l); [done..|]. auto. }
  destruct (select_where p l) as [|y [|z t]].
  - by apply not_elem_of_nil in Hin.
  - f_equal. apply Hall. by left.
  - exfalso. assert (y = x) as -> by (apply Hall; left). assert (z = x) as -> by (apply Hall; right; left).
    simpl in Hnd'. apply NoDup_cons in Hnd' as [Hn _]. apply Hn. by left.
Qed.

Lemma in_rebound id al d n kt (l : list KeyRow) r :
  r ∈ rebound id al d n kt l ->
  exists y, y ∈ l /\ k_id r = k_id y /\ k_type r = k_type y /\ k_uuid r = k_uuid y /\
    ((k_id y = id /\ r = bound_live al y /\ new_match id d n kt y = true) \/
     (alias_match al d n kt y = true /\ r = unbound y) \/
     (alias_match al d n kt y = false /\ new_match id d n kt y = false /\ r = y)).
Proof.
  intros (r1 & (y & Hy & ->)%elem_of_update_where & ->)%elem_of_update_where. exists y. split; [done|].
  destruct (alias_match al d n kt y) eqn:A.
  - assert (new_match id d n kt (unbound y) = false) as ->.
    { apply not_true_iff_false. intros H%new_match_true. naive_solver. }
    repeat (split; [done|]). auto.
  - destruct (new_match id d n kt y) eqn:N; repeat (split; [done|]); [left|right; right]; [|done].
    apply new_match_true in N as N'. destruct N' as [? _]. done.
Qed.

Lemma rebound_new id al d n kt u (l : list KeyRow) :
  bound_live al (new_row id kt d n u) ∈ rebound id al d n kt (l ++ [new_row id kt d n u]).
Proof.
  apply elem_of_update_where. exists (new_row id kt d n u). split.
  - apply elem_of_update_where. exists (new_row id kt d n u). split; [set_solver|done].
  - rewrite (proj2 (new_match_true id d n kt _)); done.
Qed.

Lemma rebound_ids id al d n kt (l : list KeyRow) : k_id <$> rebound id al d n kt l = k_id <$> l.
Proof. unfold rebound. by rewrite !(fmap_update_where k_id). Qed.

(** After storing, the alias leads to the new key and nowhere else. *)
Lemma rebound_lookup id al d n kt u s key :
  db_wf s -> id ∉ key_ids s -> domain key = d -> nspace key = n ->
  select_where (id_match key al kt) (rebound id al d n kt (keyentry s ++ [new_row id kt d n u]))
    = [bound_live al (new_row id kt d n u)].
Proof.
  intros Hwf Hid <- <-. apply (select_unique k_id).
  - rewrite rebound_ids, fmap_app. apply NoDup_app. destruct (wf_keys _ Hwf) as [Hnd _ _ _].
    split; [done|]. split; [|apply NoDup_singleton]. intros x Hx ->%list_elem_of_singleton. done.
  - apply rebound_new.
  - apply id_match_true. done.
  - intros r Hr (Ht & Hd & Hn & Ha & Hst)%id_match_true.
    apply in_rebound in Hr as (y & Hy & Hid' & _ & _ & [(<- & -> & _)|[(_ & ->)|(Hno & _ & ->)]]); [done|done|].
    rewrite (proj2 (alias_match_true _ _ _ _ _)) in Hno; done.
Qed.

Definition stored_entry (id : Z) (params : list KeyParameter) (bi : bytes * BlobMetaData)
    (ci : CertificateInfo) (md : KeyMetaData) (u : Uuid) : KeyEntry :=
  {| ke_id := id; ke_key_blob_info := Some bi; ke_cert := cert ci; ke_cert_chain := cert_chain ci;
     ke_km_uuid := u; ke_parameters := params; ke_metadata := md; ke_pure_cert := false |}.

Lemma select_where_all {A} (p : A -> bool) (l : list A) :
  (forall x, x ∈ l -> p x = true) -> select_where p l = l.
Proof.
  intros H. unfold select_where. induction l as [|x l IH]; [done|].
  rewrite filter_cons_True by (apply H; by left). rewrite IH; [done|]. intros y Hy. apply H. by right.
Qed.

Lemma new_blobs_cases bid id b ci r :
  r ∈ new_blobs bid id b ci -> b_key r = id /\
    (b_type r = SubComponentType.KEY_BLOB /\ r = blob_row bid SubComponentType.KEY_BLOB id b \/
     b_type r = SubComponentType.CERT /\ (exists c, cert ci = Some c /\ r = blob_row (1 + bid) SubComponentType.CERT id c) \/
     b_type r = SubComponentType.CERT_CHAIN /\ (exists c, cert_chain ci = Some c /\
       r = blob_row (if cert ci then 1 + (1 + bid) else 1 + bid) SubComponentType.CERT_CHAIN id c)).
Proof.
  unfold new_blobs. destruct (cert ci), (cert_chain ci); intros Hr;
    repeat (apply elem_of_cons in Hr as [->|Hr]; [simpl; by eauto 10|]); by apply not_elem_of_nil in Hr.
Qed.

Lemma new_blobs_key bid id b ci r : r ∈ new_blobs bid id b ci -> b_key r = id.
Proof. by intros [? _]%new_blobs_cases. Qed.

(** One blob per type. *)
Lemma new_blobs_type bid id b ci r r' :
  r ∈ new_blobs bid id b ci -> r' ∈ new_blobs bid id b ci -> b_type r = b_type r' -> r = r'.
Proof.
  intros [_ Hr]%new_blobs_cases [_ Hr']%new_blobs_cases Ht.
  destruct Hr as [(T & ->)|[(T & c & Hc & ->)|(T & c & Hc & ->)]],
    Hr' as [(T' & ->)|[(T' & c' & Hc' & ->)|(T' & c' & Hc' & ->)]]; simpl in *; first [discriminate Ht|congruence].
Qed.

(** The blobs of a key that had none before. *)
Lemma latest_new_blobs s s' id bid b ci :
  Forall (fun r => b_key r <> id) (blobentry s) ->
  blobentry s' = blobentry s ++ new_blobs bid id b ci ->
  latest_blobs id s' = new_blobs bid id b ci.
Proof.
  intros Hno Hb. unfold latest_blobs. rewrite Hb, select_where_app.
  rewrite (select_where_nil _ (blobentry s)).
  2:{ rewrite Forall_forall in Hno. intros x Hx. apply Z.eqb_neq. auto. }
  cbn [app]. rewrite (select_where_all (fun r => b_key r =? id)).
  - apply select_where_all. intros r Hr. apply forallb_forall. intros r' Hr'%list_elem_of_In.
    destruct (Z.eqb_spec (b_type r') (b_type r)) as [Ht|]; [|done]. simpl. apply Z.leb_le.
    rewrite (new_blobs_type bid id b ci r' r) by done. lia.
  - intros r Hr. apply Z.eqb_eq. by eapply new_blobs_key.
Qed.

Lemma load_params_of s s' id params :
  db_wf s -> id ∉ key_ids s -> Forall (fun p => kpv_wf (kp_value p)) params ->
  keyparameter s' = keyparameter s ++ (param_row id <$> params) ->
  load_key_parameters id s' = Ok params.
Proof.
  intros Hwf Hid Hp Hk. unfold load_key_parameters. rewrite Hk, select_where_app, (select_where_nil _ (keyparameter s)).
  - cbn [app]. rewrite select_where_all.
    2:{ intros r (p & -> & _)%list_elem_of_fmap. apply Z.eqb_refl. }
    apply try_map_Ok. clear Hk. induction Hp as [|p params Hp _ IH]; [constructor|]. constructor; [|exact IH].
    simpl. rewrite sql_roundtrip by done. by destruct p.
  - intros r Hr. apply Z.eqb_neq. intros He. apply Hid. rewrite <- He.
    pose proof (wf_params _ Hwf) as Hf. rewrite Forall_forall in Hf. auto.
Qed.

Lemma components_of_stored s s' id al d n kt params bi ci md u :
  db_wf s -> id ∉ key_ids s -> Forall (fun r => b_key r <> id) (blobentry s) ->
  Forall (fun p => kpv_wf (kp_value p)) params -> meta_data_wf bi.2 -> meta_data_wf md ->
  keyentry s' = rebound id al d n kt (keyentry s ++ [new_row id kt d n u]) ->
  blobentry s' = blobentry s ++ new_blobs (next_blob_id s) id bi.1 ci ->
  blobmetadata s' = meta_store (next_blob_id s) bi.2 (blobmetadata s) ->
  keyparameter s' = keyparameter s ++ (param_row id <$> params) ->
  keymetadata s' = meta_store id md (keymetadata s) ->
  load_key_components LoadBits.BOTH id s' = Ok (stored_entry id params bi ci md u).
Proof.
  intros Hwf Hid Hnb Hp Hbm Hm K B BM P M. unfold load_key_components.
  rewrite M, meta_load_store; [simpl|done|].
  2:{ eapply Forall_impl; [apply (wf_meta _ Hwf)|]. simpl. intros r Hr Ho. apply Hid. by rewrite <- Ho. }
  unfold load_blob_components. rewrite (latest_new_blobs s s' id _ _ ci Hnb B).
  assert (try_fold (extract_blob LoadBits.BOTH) no_blobs (new_blobs (next_blob_id s) id bi.1 ci) =
    Ok {| key_blob := Some (next_blob_id s, bi.1); cert_blob := cert ci; cert_chain_blob := cert_chain ci;
          has_km_blob := true |}) as ->.
  { unfold new_blobs. by destruct (cert ci), (cert_chain ci). }
  simpl. rewrite BM, meta_load_store; [simpl|done|by apply next_blob_no_meta].
  rewrite (load_params_of s s' id params) by done. simpl.
  unfold get_key_km_uuid. rewrite K.
  assert (select_where (fun r => k_id r =? id) (rebound id al d n kt (keyentry s ++ [new_row id kt d n u]))
    = [bound_live al (new_row id kt d n u)]) as ->.
  { apply (select_unique k_id).
    - rewrite rebound_ids, fmap_app. apply NoDup_app. destruct (wf_keys _ Hwf) as [Hnd _ _ _].
      split; [done|]. split; [|apply NoDup_singleton]. intros x Hx ->%list_elem_of_singleton. done.
    - apply rebound_new.
    - simpl. apply Z.eqb_refl.
    - intros y _ Hy. bool_prop. done. }
  by destruct bi.
Qed.

Lemma new_row_nodup id kt d n u s :
  db_wf s -> id ∉ key_ids s -> NoDup (k_id <$> keyentry s ++ [new_row id kt d n u]).
Proof.
  intros Hwf Hid. rewrite fmap_app. apply NoDup_app. destruct (wf_keys _ Hwf) as [Hnd _ _ _].
  split; [done|]. split; [|apply NoDup_singleton]. intros x Hx ->%list_elem_of_singleton. done.
Qed.

(** ** Keys that are gone *)

(** No descriptor leads anyone to key [id]. *)
Definition unreachable s (id : Z) : Prop :=
  forall key kt uid dk av, load_access_tuple key kt uid s <> Ok (id, dk, av).

Lemma not_live_unreachable s id : ~ live_key s id -> unreachable s id.
Proof. intros H key kt uid dk av Hl. by eapply H, load_access_tuple_live. Qed.

Lemma purge_not_live p s id : keys_ok (keyentry s) -> id ∈ ids_where p s -> ~ live_key (purge p s) id.
Proof.
  intros Hok (r0 & Hr0 & Hp & Hid)%elem_of_ids_where (r & Hr & Hid' & _). simpl in Hr.
  apply elem_of_delete_where in Hr as [Hr Hn]. assert (r = r0) as -> by (apply (keys_ok_unique (keyentry s)); congruence).
  congruence.
Qed.

Lemma select_delete {A} (p q : A -> bool) (l : list A) :
  (forall x, x ∈ l -> q x = true -> p x = false) -> select_where q (delete_where p l) = select_where q l.
Proof.
  intros H. unfold select_where, delete_where. induction l as [|x l IH]; [done|].
  assert (forall y, y ∈ l -> q y = true -> p y = false) as H' by (intros y Hy; apply H; by right).
  specialize (IH H'). rewrite (filter_cons _ x l). destruct (decide (p x = false)) as [Hp|Hp].
  - rewrite !filter_cons, IH. done.
  - rewrite IH, filter_cons_False; [done|]. intros Hq. apply Hp, H; [by left|done].
Qed.

Lemma filter_owner_select (l : list MetaRow) id :
  filter (fun r => m_owner r = id) l = select_where (fun r => m_owner r =? id) l.
Proof.
  unfold select_where. induction l as [|x l IH]; [done|]. rewrite !filter_cons, IH.
  destruct (decide (m_owner x = id)) as [->|]; destruct (decide _) as [E|E]; try done.
  - by rewrite Z.eqb_refl in E.
  - by apply Z.eqb_eq in E.
Qed.

(** ** Frames *)

(** What is read about key [id] is the same in both databases. *)
Record same_view (id : Z) s s' : Prop := {
  sv_meta : filter (fun r => m_owner r = id) (keymetadata s') = filter (fun r => m_owner r = id) (keymetadata s);
  sv_blobs : latest_blobs id s' = latest_blobs id s;
  sv_blobmeta : forall b, b ∈ latest_blobs id s ->
    filter (fun r => m_owner r = b_id b) (blobmetadata s') = filter (fun r => m_owner r = b_id b) (blobmetadata s);
  sv_params : select_where (fun r => p_key r =? id) (keyparameter s')
              = select_where (fun r => p_key r =? id) (keyparameter s);
  sv_row : select_where (fun r => k_id r =? id) (keyentry s') = select_where (fun r => k_id r =? id) (keyentry s)
}.

Lemma extract_key_blob_in bits (l : list BlobRow) a0 a bid b :
  try_fold (extract_blob bits) a0 l = Ok a -> key_blob a = Some (bid, b) ->
  key_blob a0 = Some (bid, b) \/ exists row, row ∈ l /\ b_id row = bid.
Proof.
  revert a0. induction l as [|x l IH]; intros a0; simpl; [intros; simplify_eq; auto|].
  rewrite bind_Ok. intros (a1 & H1 & H2) Hk. destruct (IH a1 H2 Hk) as [Ha|(row & Hrow & Hb)].
  - unfold extract_blob in H1. repeat case_in H1; simplify_eq; simpl in Ha; auto.
    simplify_eq. right. exists x. split; [by left|done].
  - right. exists row. split; [by right|done].
Qed.

Lemma same_view_load bits id s s' :
  same_view id s s' -> load_key_components bits id s' = load_key_components bits id s.
Proof.
  intros []. unfold load_key_components, load_blob_components, load_key_parameters, get_key_km_uuid.
  rewrite (meta_load_ext (E := KeyMetaEntry) _ _ _ sv_meta0), sv_blobs0, sv_params0, sv_row0.
  destruct (meta_load id (keymetadata s)); [simpl|done..].
  destruct (try_fold _ _ _) as [bl| |] eqn:Hf; [simpl|done..].
  destruct (key_blob bl) as [[bid b]|] eqn:Hkb; [|done].
  destruct (extract_key_blob_in _ _ _ _ _ _ Hf Hkb) as [?|(row & Hrow & <-)]; [done|].
  by rewrite (meta_load_ext (E := BlobMetaEntry) _ _ _ (sv_blobmeta0 row Hrow)).
Qed.

(** Deleting other keys changes nothing about a key. *)
Lemma purge_view p s id : id ∉ ids_where p s -> same_view id s (purge p s).
Proof.
  intros Hid. constructor; simpl; [|done|done|..].
  - rewrite !filter_owner_select. apply select_delete. intros r Hr E. bool_prop.
    apply bool_decide_eq_false. by rewrite E.
  - apply select_delete. intros r Hr E. bool_prop. apply bool_decide_eq_false. by rewrite E.
  - apply select_delete. intros r Hr E. bool_prop. destruct (p r) eqn:Hp; [|done].
    destruct Hid. apply elem_of_ids_where. eauto.
Qed.

(** So does storing one. *)
Lemma store_view id al d n kt u bi ci (md : KeyMetaData) params s s' r :
  db_wf s -> id ∉ key_ids s -> r ∈ keyentry s -> alias_match al d n kt r = false ->
  keyentry s' = rebound id al d n kt (keyentry s ++ [new_row id kt d n u]) ->
  blobentry s' = blobentry s ++ new_blobs (next_blob_id s) id bi.1 ci ->
  blobmetadata s' = meta_store (next_blob_id s) bi.2 (blobmetadata s) ->
  keyparameter s' = keyparameter s ++ (param_row id <$> params) ->
  keymetadata s' = meta_store id md (keymetadata s) ->
  r ∈ keyentry s' /\ same_view (k_id r) s s'.
Proof.
  intros Hwf Hid Hr Ha K B BM P M.
  assert (k_id r <> id) as Hne by (intros He; apply Hid; rewrite <- He; by apply list_elem_of_fmap_2).
  assert (r ∈ keyentry s') as Hr'.
  { rewrite K. apply elem_of_update_where. exists r. split.
    - apply elem_of_update_where. exists r. rewrite Ha. split; [set_solver|done].
    - assert (new_match id d n kt r = false) as ->; [|done]. apply not_true_iff_false. by intros [? _]%new_match_true. }
  split; [done|]. constructor.
  - rewrite M. exact (meta_store_other id md _ (fun o => o = k_id r) (not_eq_sym Hne)).
  - unfold latest_blobs. rewrite B, select_where_app, (select_where_nil _ (new_blobs _ _ _ _)), app_nil_r; [done|].
    intros b Hb%new_blobs_key. apply Z.eqb_neq. congruence.
  - intros b Hb. rewrite BM. refine (meta_store_other (next_blob_id s) bi.2 _ (fun o => o = b_id b) _).
    unfold latest_blobs in Hb. apply elem_of_select_where in Hb as [Hb _].
    apply elem_of_select_where in Hb as [Hb _]. apply max_blob_bound in Hb. unfold next_blob_id. lia.
  - rewrite P, select_where_app, (select_where_nil _ (param_row id <$> params)), app_nil_r; [done|].
    intros x (p & -> & _)%list_elem_of_fmap. apply Z.eqb_neq. simpl. congruence.
  - rewrite (select_unique k_id _ _ r), (select_unique k_id _ _ r); try done; try apply Z.eqb_refl;
      try (intros y _ Hy; by apply Z.eqb_eq).
    + by apply wf_keys.
    + rewrite K, rebound_ids. by apply new_row_nodup.
Qed.

(** The key that held the alias. *)
Lemma rebound_unreachable id al d n kt u s s' r :
  db_wf s -> id ∉ key_ids s -> r ∈ keyentry s -> alias_match al d n kt r = true ->
  keyentry s' = rebound id al d n kt (keyentry s ++ [new_row id kt d n u]) -> unreachable s' (k_id r).
Proof.
  intros Hwf Hid Hr Ha K. apply not_live_unreachable. intros (r' & Hr' & Hid' & Hst). rewrite K in Hr'.
  assert (k_id r <> id) as Hne by (intros He; apply Hid; rewrite <- He; by apply list_elem_of_fmap_2).
  apply in_rebound in Hr' as (y & Hy & Hiy & _ & _ & Hcase). rewrite Hid' in Hiy.
  assert (y = r) as ->.
  { apply elem_of_app in Hy as [Hy| ->%list_elem_of_singleton]; [|done].
    apply (keys_ok_unique (keyentry s)); [by apply wf_keys|done..]. }
  destruct Hcase as [(He & _)|[(_ & ->)|(Hn & _)]]; [done|done|congruence].
Qed.

(** What was stored is loaded, complete. *)
Lemma store_load_entry draws key kt params bi ci md u s gc id s' chk lock_free waited :
  db_wf s -> store_new_key draws key kt params bi ci md u s = (Ok (gc, id), s') ->
  Forall (fun p => kpv_wf (kp_value p)) params -> meta_data_wf bi.2 -> meta_data_wf md ->
  Forall (fun r => b_key r <> id) (blobentry s) ->
  (forall dk av, chk dk av = Ok tt) -> lock_free = true ->
  load_key_entry key kt LoadBits.BOTH (nspace key) chk lock_free waited s'
    = Ok (id, stored_entry id params bi ci md u).
Proof.
  intros Hwf H Hp Hbm Hm Hnb Hchk ->. apply store_new_key_Ok in H as (al & _ & Hal & Hd & _ & Hid & K & B & BM & P & M & _).
  assert ((domain key =? val Domain.KEY_ID) = false) as Hnk.
  { unfold app_or_selinux in Hd. apply orb_true_iff in Hd as [Hd|Hd]; bool_prop; rewrite Hd, val_eqb; done. }
  unfold load_key_entry, load_access_tuple. rewrite Hd.
  set (ak := if domain key =? val Domain.APP then set_nspace key (nspace key) else key).
  assert (alias ak = Some al /\ domain ak = domain key /\ nspace ak = nspace key) as (A1 & A2 & A3).
  { unfold ak. by destruct (domain key =? val Domain.APP). }
  unfold load_key_entry_id. rewrite A1. simpl. rewrite K, (rebound_lookup id al _ _ kt u s ak) by done. simpl.
  rewrite Hchk. simpl. rewrite Hnk. simpl.
  rewrite (components_of_stored s s' id al (domain key) (nspace key) kt params bi ci md u) by done. done.
Qed.

(** ** Claims *)

(** C1: Store, then load.  A key stored under an alias is what the owner
    loads by that alias, complete: the new id, the key blob with its
    metadata, certificate and chain, every parameter with its security
    level, the key metadata and the KeyMint instance, whatever was stored
    under the alias before. *)
Theorem store_then_load draws key kt params bi ci md u s gc id s' chk lock_free waited :
  db_wf s -> store_new_key draws key kt params bi ci md u s = (Ok (gc, id), s') ->
  Forall (fun p => kpv_wf (kp_value p)) params -> meta_data_wf bi.2 -> meta_data_wf md ->
  Forall (fun r => b_key r <> id) (blobentry s) ->
  (forall dk av, chk dk av = Ok tt) -> lock_free = true ->
  load_key_entry key kt LoadBits.BOTH (nspace key) chk lock_free waited s'
    = Ok (id, stored_entry id params bi ci md u).
Proof. apply store_load_entry. Qed.

(** C10: Storing a key disturbs no other key.  The key that held the alias is
    out of everybody's reach, by alias, by id and by grant, and the garbage
    collector is notified; every other key keeps its row and, loaded by id,
    all of its components. *)
Theorem store_new_key_isolated draws key kt params bi ci md u s gc id s' r al :
  db_wf s -> store_new_key draws key kt params bi ci md u s = (Ok (gc, id), s') ->
  alias key = Some al -> r ∈ keyentry s ->
  if alias_match al (domain key) (nspace key) kt r then unreachable s' (k_id r) /\ gc = true
  else r ∈ keyentry s' /\
    forall bits, load_key_components bits (k_id r) s' = load_key_components bits (k_id r) s.
Proof.
  intros Hwf H Hal Hr. apply store_new_key_Ok in H as (al' & _ & Hal' & Hd & _ & Hid & K & B & BM & P & M & _ & Hgc).
  rewrite Hal in Hal'. injection Hal' as <-.
  destruct (alias_match al (domain key) (nspace key) kt r) eqn:Ha.
  - split; [by eapply rebound_unreachable|].
    rewrite Hgc, (affected_pos _ _ r); [done|set_solver|done].
  - eapply store_view in K as [Hr' Hv]; [|done..]. split; [done|]. intros bits. by apply same_view_load.
Qed.

(** ** Access *)

(** How a caller came to key row [r]: as owner of its location, or by a
    grant; and what the permission check was told about it. *)
Definition true_access (key : KeyDescriptor) (uid : Z) s (r : KeyRow) (dk : KeyDescriptor) (av : option Z) : Prop :=
  k_state r = KeyLifeCycle.Live /\
  if domain key =? val Domain.APP then
    k_domain r = Some (val Domain.APP) /\ k_namespace r = Some uid /\ k_alias r = alias key /\
    domain dk = val Domain.APP /\ nspace dk = uid /\ av = None
  else if domain key =? val Domain.SELINUX then
    k_domain r = Some (val Domain.SELINUX) /\ k_namespace r = Some (nspace key) /\ k_alias r = alias key /\
    domain dk = val Domain.SELINUX /\ nspace dk = nspace key /\ av = None
  else if domain key =? val Domain.GRANT then
    dk = key /\ exists g, g ∈ grants s /\ g_id g = nspace key /\ g_grantee g = uid /\ g_key g = k_id r /\
      av = Some (g_vec g)
  else
    k_id r = nspace key /\ k_domain r = Some (domain dk) /\ k_namespace r = Some (nspace dk) /\
    forall v, av = Some v -> exists g, g ∈ grants s /\ g_grantee g = uid /\ g_key g = k_id r /\ v = g_vec g.

Lemma is_live_key_spec s id : is_live_key s id = true -> live_key s id.
Proof.
  unfold is_live_key. destruct (head _) as [r|] eqn:H; [|done]. intros Hst. bool_prop.
  apply head_select_Some in H as [Hr Hid]. bool_prop. by exists r.
Qed.

Lemma load_access_tuple_true key kt uid s id dk av :
  load_access_tuple key kt uid s = Ok (id, dk, av) ->
  exists r, r ∈ keyentry s /\ k_id r = id /\ true_access key uid s r dk av.
Proof.
  unfold load_access_tuple, true_access, app_or_selinux.
  destruct (Z.eqb_spec (domain key) (val Domain.APP)) as [HA|_]; simpl.
  { rewrite bind_Ok. intros (id' & H & Hr). simplify_eq.
    apply load_key_entry_id_Ok in H as (al & r & Hal & Hr & <- & Hm). apply id_match_true in Hm. simpl in *.
    destruct Hm as (_ & Hd & Hn & Ha & Hst). rewrite HA, as_u32_domain in Hd.
    exists r. split_and!; simpl; first [done|congruence]. }
  destruct (Z.eqb_spec (domain key) (val Domain.SELINUX)) as [HS|_]; simpl.
  { rewrite bind_Ok. intros (id' & H & Hr). simplify_eq.
    apply load_key_entry_id_Ok in H as (al & r & Hal & Hr & <- & Hm). apply id_match_true in Hm.
    destruct Hm as (_ & Hd & Hn & Ha & Hst). rewrite HS, as_u32_domain in Hd.
    exists r. split_and!; simpl; first [done|congruence]. }
  destruct (Z.eqb_spec (domain key) (val Domain.GRANT)) as [_|_].
  { rewrite bind_Ok. intros ([id' av'] & H%extract_one_Ok & Hr). simplify_eq.
    destruct (head _) as [g|] eqn:Hh; simplify_eq/=. apply head_select_Some in Hh as [Hg Hm]. bool_prop.
    match goal with H : is_live_key _ _ = true |- _ => apply is_live_key_spec in H as (r & Hr & Hid & Hst) end.
    exists r. split; [done|]. split; [done|]. split; [done|]. split; [done|]. exists g. by split_and!. }
  destruct (Z.eqb_spec (domain key) (val Domain.KEY_ID)) as [_|_]; [|done].
  rewrite bind_Ok. intros ([d n] & H%extract_one_Ok & Hr). simplify_eq.
  destruct (head _) as [r|] eqn:Hh; simplify_eq/=. apply head_select_Some in Hh as [Hin Hm]. bool_prop.
  rewrite bind_Ok in H. destruct H as (d' & Hd%ok_or_Ok & H). rewrite bind_Ok in H.
  destruct H as (n' & Hn%ok_or_Ok & H). simplify_eq. exists r. split; [done|]. split; [done|].
  split; [done|]. split; [done|]. split; [done|]. split; [done|]. intros v Hv.
  destruct (negb _ || negb _); [|done]. apply fmap_Some in Hv as (g & Hg & ->).
  apply head_select_Some in Hg as [Hg Hm]. bool_prop. exists g. by split_and!; try congruence.
Qed.

(** C9: No key without its permission check.  If [load_key_entry] returns a
    key, the permission check accepted, and it was told the truth about that
    very key: its domain and namespace as stored, with the caller's own uid
    as namespace for app keys whatever the descriptor says, or the vector of
    a grant that was made to the caller for it.  This holds too when the
    call had to wait for the key's lock and others changed the database
    meanwhile: then the same key is still live when it is read. *)
Theorem load_key_entry_authorized key kt bits uid chk lock_free waited s id e :
  load_key_entry key kt bits uid chk lock_free waited s = Ok (id, e) ->
  exists r dk av, r ∈ keyentry s /\ k_id r = id /\ true_access key uid s r dk av /\ chk dk av = Ok tt /\
    (load_key_components bits id s = Ok e \/
     (lock_free = false /\ live_key waited id /\ load_key_components bits id waited = Ok e)).
Proof.
  unfold load_key_entry. rewrite bind_Ok. intros ([[id' dk] av] & Ht & H).
  rewrite bind_Ok in H. destruct H as ([] & Hchk & H). rewrite bind_Ok in H. destruct H as (s1 & Hs1 & H).
  rewrite bind_Ok in H. destruct H as (e' & He & H). simplify_eq.
  apply load_access_tuple_true in Ht as (r & Hr & Hid & Htrue).
  assert ((if domain key =? val Domain.KEY_ID then nspace key else id') = id') as Hsame.
  { destruct (Z.eqb_spec (domain key) (val Domain.KEY_ID)) as [HK|_]; [|done].
    destruct Htrue as [_ Htrue]. rewrite HK, !val_eqb in Htrue. simpl in Htrue. destruct Htrue as [Hn _]. congruence. }
  rewrite Hsame in *. exists r, dk, av. repeat (split; [done|]).
  destruct (domain key =? val Domain.KEY_ID) eqn:HK; simpl in Hs1; [simplify_eq; auto|].
  destruct lock_free; simpl in Hs1; [simplify_eq; auto|]. right.
  rewrite bind_Ok in Hs1. destruct Hs1 as ([[id2 dk2] av2] & Ht2 & Hw). simplify_eq.
  split; [done|]. split; [|done].
  pose proof Ht2 as Hl. apply load_access_tuple_live in Hl. unfold load_access_tuple, app_or_selinux in Ht2. simpl in Ht2.
  rewrite !val_eqb in Ht2. simpl in Ht2. rewrite bind_Ok in Ht2. destruct Ht2 as ([d n] & _ & Ht2). by simplify_eq.
Qed.

(** ** Deleting *)

Lemma unbind_key_Ok key kt uid chk s gc s' :
  db_wf s -> unbind_key key kt uid chk s = (Ok (gc, tt), s') ->
  exists id dk av, load_access_tuple key kt uid s = Ok (id, dk, av) /\ chk dk av = Ok tt /\ gc = true /\
    unreachable s' id /\
    (forall p, p ∈ keyparameter s' -> p_key p <> id) /\ (forall m, m ∈ keymetadata s' -> m_owner m <> id) /\
    (forall g, g ∈ grants s' -> g_key g <> id) /\
    (forall id', id' <> id -> (live_key s id' -> live_key s' id') /\
       forall bits, load_key_components bits id' s' = load_key_components bits id' s).
Proof.
  intros Hwf H. apply (proj1 (transaction_Ok _ _ _ _)) in H.
  apply sr_bind_Ok in H as ([[id dk] av] & s0 & Ht & H). unfold query in Ht. injection Ht as Ht <-.
  apply sr_bind_Ok in H as ([] & s1 & Hc & H). unfold lift in Hc. injection Hc as Hc <-.
  apply sr_bind_Ok in H as (b & s2 & Hm & H). rewrite mark_unreferenced_purge in Hm by done.
  unfold mret, sr_ret in H. simplify_eq. exists id, dk, av. split; [done|]. split; [done|].
  apply load_access_tuple_live in Ht as (r & Hr & Hid & Hst).
  assert (id ∈ key_ids s) as Hin by (rewrite <- Hid; by apply list_elem_of_fmap_2).
  assert (id ∈ ids_where (fun r => k_id r =? id) s) as Hpur by (by apply ids_where_id).
  split.
  { rewrite (affected_pos _ _ r); [done|done|by apply Z.eqb_eq]. }
  split; [by apply not_live_unreachable, purge_not_live; [apply wf_keys|]|].
  split; [|split; [|split]].
  - intros p [_ Hp]%elem_of_delete_where He. bool_prop. by rewrite He in Hp.
  - intros p [_ Hp]%elem_of_delete_where He. bool_prop. by rewrite He in Hp.
  - intros p [_ Hp]%elem_of_delete_where He. bool_prop. by rewrite He in Hp.
  - intros id' Hne. split.
    + intros (r' & Hr' & Hid' & Hst'). exists r'. split; [|done]. apply elem_of_delete_where. split; [done|].
      apply Z.eqb_neq. congruence.
    + intros bits. apply same_view_load, purge_view. rewrite ids_where_id. naive_solver.
Qed.

(** A key that was unbound is gone for everyone.  The caller passed the
    permission check for it; afterwards no descriptor, alias, id or grant
    leads anyone to it, its parameters, metadata and grants are deleted and
    the garbage collector is notified; every other key is untouched. *)
Theorem unbind_key_removes key kt uid chk s gc s' :
  db_wf s -> unbind_key key kt uid chk s = (Ok (gc, tt), s') ->
  exists id dk av, load_access_tuple key kt uid s = Ok (id, dk, av) /\ chk dk av = Ok tt /\ gc = true /\
    unreachable s' id /\
    (forall p, p ∈ keyparameter s' -> p_key p <> id) /\ (forall m, m ∈ keymetadata s' -> m_owner m <> id) /\
    (forall g, g ∈ grants s' -> g_key g <> id) /\
    (forall id', id' <> id -> (live_key s id' -> live_key s' id') /\
       forall bits, load_key_components bits id' s' = load_key_components bits id' s).
Proof. apply unbind_key_Ok. Qed.

(** ** Limited use keys *)

(** Key [id] may be used [n] more times. *)
Definition uses_left (id n : Z) s : Prop :=
  id ∈ key_ids s /\ exists r, select_where (limit_match id) (keyparameter s) = [r] /\ p_data r = Integer n.

(** [k] uses in a row. *)
Fixpoint use_times (k : nat) (id : Z) : sr Tables AnyError unit :=
  match k with
  | O => mret tt
  | S k => _ ← check_and_update_key_usage_count id; use_times k id
  end.

Lemma select_update {A} (p : A -> bool) (f : A -> A) (l : list A) :
  (forall x, p (f x) = p x) -> select_where p (update_where p f l) = f <$> select_where p l.
Proof.
  intros Hp. unfold select_where, update_where. induction l as [|x l IH]; [done|]. cbn [map].
  destruct (p x) eqn:E.
  - rewrite !filter_cons_True by (by rewrite ?Hp). by rewrite IH.
  - rewrite !filter_cons_False by (by rewrite E). by rewrite IH.
Qed.

Lemma wf_decrement id s :
  db_wf s -> db_wf (on_keyparameter (update_where (limit_match id) (set_p_data decrement)) s).
Proof.
  intros [? ? ? ? ? ? ? Hp ? ? ?]. constructor; simpl; try done. apply Forall_forall.
  intros x (y & Hy & ->)%elem_of_update_where. rewrite Forall_forall in Hp.
  specialize (Hp y Hy). by destruct (limit_match id y).
Qed.

Lemma use_not_last id n s :
  uses_left id n s -> 1 < n < 2^31 -> exists s',
    check_and_update_key_usage_count id s = (Ok (false, tt), s') /\ uses_left id (n - 1) s' /\ (db_wf s -> db_wf s').
Proof.
  intros (Hid & r & Hr & Hn) Hlt. eexists. split; [|split; [split|]].
  - unfold check_and_update_key_usage_count, transaction, mbind, sr_bind, query, lift, modify, mret, sr_ret.
    rewrite Hr. cbn [head]. rewrite Hn, get_i32_Integer by (unfold i32_range; lia). simpl.
    rewrite (proj2 (Z.eqb_neq n 1)), (proj2 (Z.eqb_neq n 0)) by lia. reflexivity.
  - done.
  - exists (set_p_data decrement r). simpl. rewrite select_update by done. rewrite Hr. split; [done|].
    simpl. rewrite Hn. simpl. by rewrite (proj2 (Z.ltb_lt 0 n)) by lia.
  - apply wf_decrement.
Qed.

Lemma use_last id s :
  db_wf s -> uses_left id 1 s -> exists s',
    check_and_update_key_usage_count id s = (Ok (true, tt), s') /\ ~ live_key s' id /\
    (forall p, p ∈ keyparameter s' -> p_key p <> id).
Proof.
  intros Hwf (Hid & r & Hr & Hn).
  set (s1 := on_keyparameter (update_where (limit_match id) (set_p_data decrement)) s).
  assert (db_wf s1) as Hwf1 by (by apply wf_decrement).
  assert (id ∈ ids_where (fun r => k_id r =? id) s1) as Hin by (by apply ids_where_id).
  exists (purge (fun r => k_id r =? id) s1). split; [|split].
  - unfold check_and_update_key_usage_count, transaction.
    unfold mbind, sr_bind, query, lift, modify, mret, sr_ret. rewrite Hr. cbn [head].
    rewrite Hn, get_i32_Integer by (unfold i32_range; lia).
    cbn -[mark_unreferenced on_keyparameter]. fold s1. rewrite mark_unreferenced_purge by done. do 4 f_equal. apply elem_of_ids_where in Hin as (k & Hk & Hkid & _).
    by rewrite (affected_pos _ _ k).
  - by apply purge_not_live; [apply wf_keys|].
  - intros p [_ Hp]%elem_of_delete_where He. bool_prop. by rewrite He in Hp.
Qed.

(** C11: A key limited to [n] uses is used exactly [n] times: each of the
    first [n] attempts to count a use succeeds; the last of them deletes the
    key, so that nobody reaches it any more; every further attempt fails with
    [INVALID_KEY_BLOB] and changes nothing. *)
Theorem usage_limit_exact n id s :
  db_wf s -> uses_left id (Z.of_nat n) s -> (0 < n)%nat -> Z.of_nat n < 2^31 ->
  exists s', use_times n id s = (Ok tt, s') /\ unreachable s' id /\
    check_and_update_key_usage_count id s' = (Err (err_km ErrorCode.INVALID_KEY_BLOB), s').
Proof.
  revert s. induction n as [|n IH]; intros s Hwf Hu Hpos Hlt; [lia|]. cbn [use_times].
  destruct (decide (n = 0%nat)) as [->|Hn].
  - destruct (use_last id s Hwf Hu) as (s' & Hs' & Hlive & Hnone). exists s'.
    unfold mbind, sr_bind. rewrite Hs'. split; [done|]. split; [by apply not_live_unreachable|].
    unfold check_and_update_key_usage_count, transaction, mbind, sr_bind, query.
    rewrite (select_where_nil (limit_match id)); [done|]. intros p Hp. unfold limit_match.
    by rewrite (proj2 (Z.eqb_neq _ _) (Hnone p Hp)).
  - destruct (use_not_last id (Z.of_nat (S n)) s Hu ltac:(lia)) as (s1 & Hs1 & Hu1 & Hwf1).
    destruct (IH s1) as (s' & Hs' & Hrest); [by apply Hwf1| |lia|lia|].
    { replace (Z.of_nat n) with (Z.of_nat (S n) - 1) by lia. done. }
    exists s'. split; [|done]. unfold mbind, sr_bind. by rewrite Hs1.
Qed.
End Keys.

(** ** A concrete database: uid 1000 stores a key for two uses. *)

#[local] Existing Instance aidl_published.

Definition demo_desc (al : string) : KeyDescriptor :=
  {| domain := val Domain.APP; nspace := 1000; alias := Some al; blob := None |}.
Definition demo_params : list KeyParameter :=
  [{| kp_value := UsageCountLimit 2; security_level := 1 |}].
Definition demo_bm : BlobMetaData := meta_add (KmUuid (repeat 7 16)) ∅.
Definition demo_md : KeyMetaData := meta_add (CreationDate 5) ∅.
Definition demo_ci : CertificateInfo := {| cert := Some [1; 2]; cert_chain := None |}.
Definition demo_store (draws : list Z) (al : string) :=
  store_new_key draws (demo_desc al) KeyType.Client demo_params ([9; 9], demo_bm) demo_ci demo_md (repeat 7 16).
Definition demo_db1 : Tables := snd (demo_store [-1; 77] "k" empty_tables).
Definition demo_db2 : Tables := snd (demo_store [77; 78] "k" demo_db1).
Definition demo_check (dk : KeyDescriptor) (av : option Z) : result AnyError unit := Ok tt.

Lemma demo_store1 : demo_store [-1; 77] "k" empty_tables = (Ok (false, 77), demo_db1).
Proof. vm_compute. reflexivity. Qed.
Lemma demo_store2 : demo_store [77; 78] "k" demo_db1 = (Ok (true, 78), demo_db2).
Proof. vm_compute. reflexivity. Qed.

Lemma demo_db1_wf : db_wf demo_db1.
Proof.
  apply (store_new_key_wf [-1; 77] (demo_desc "k") KeyType.Client demo_params ([9; 9], demo_bm) demo_ci demo_md
    (repeat 7 16) empty_tables (false, 77) demo_db1 empty_wf). exact demo_store1.
Qed.

Lemma demo_bm_wf : meta_data_wf demo_bm.
Proof. apply meta_add_wf; [reflexivity|apply map_Forall_empty]. Qed.
Lemma demo_md_wf : meta_data_wf demo_md.
Proof. apply meta_add_wf; [exact I|apply map_Forall_empty]. Qed.

Lemma store_then_load_witness :
  load_key_entry (demo_desc "k") KeyType.Client LoadBits.BOTH 1000 demo_check true empty_tables demo_db2
    = Ok (78, stored_entry 78 demo_params ([9; 9], demo_bm) demo_ci demo_md (repeat 7 16)).
Proof.
  apply (store_then_load [77; 78] (demo_desc "k") KeyType.Client demo_params ([9; 9], demo_bm) demo_ci demo_md
    (repeat 7 16) demo_db1 true 78 demo_db2 demo_check true empty_tables demo_db1_wf demo_store2).
  - repeat constructor; vm_compute; congruence.
  - exact demo_bm_wf.
  - exact demo_md_wf.
  - repeat constructor; discriminate.
  - reflexivity.
  - reflexivity.
Defined.

Definition demo_row : KeyRow := bound_live "k" (new_row 77 KeyType.Client 0 1000 (repeat 7 16)).

Lemma store_new_key_isolated_witness : demo_row ∈ keyentry demo_db1 /\ unreachable demo_db2 77.
Proof.
  assert (demo_row ∈ keyentry demo_db1) as Hin by (vm_compute; left).
  split; [exact Hin|].
  exact (proj1 (store_new_key_isolated [77; 78] (demo_desc "k") KeyType.Client demo_params ([9; 9], demo_bm) demo_ci demo_md
    (repeat 7 16) demo_db1 true 78 demo_db2 demo_row "k" demo_db1_wf demo_store2 eq_refl Hin)).
Defined.

Lemma load_key_entry_authorized_witness : exists r, r ∈ keyentry demo_db1 /\ k_id r = 77 /\
  k_namespace r = Some 1000.
Proof.
  destruct (load_key_entry_authorized (demo_desc "k") KeyType.Client LoadBits.BOTH 1000 demo_check true empty_tables
    demo_db1 77 (stored_entry 77 demo_params ([9; 9], demo_bm) demo_ci demo_md (repeat 7 16)))
    as (r & dk & av & H1 & H2 & (_ & _ & H3 & _) & _); [vm_compute; reflexivity|].
  exists r. split; [exact H1|]. split; assumption.
Defined.

Lemma unbind_key_removes_witness : exists id,
  unreachable (snd (unbind_key (demo_desc "k") KeyType.Client 1000 demo_check demo_db1)) id.
Proof.
  destruct (unbind_key_removes (demo_desc "k") KeyType.Client 1000 demo_check demo_db1 true
    (snd (unbind_key (demo_desc "k") KeyType.Client 1000 demo_check demo_db1)) demo_db1_wf)
    as (id & dk & av & _ & _ & _ & H & _); [vm_compute; reflexivity|].
  exists id. exact H.
Defined.

Lemma usage_limit_exact_witness : exists s', use_times 2 77 demo_db1 = (Ok tt, s') /\ unreachable s' 77.
Proof.
  destruct (usage_limit_exact 2 77 demo_db1 demo_db1_wf) as (s' & H1 & H2 & _).
  - split; [vm_compute; left|]. eexists. split; [vm_compute; reflexivity|reflexivity].
  - lia.
  - vm_compute. reflexivity.
  - exists s'. split; assumption.
Defined.
