(* ===== verification/DbSystem.v ===== *)
(** * The database as a whole

    Every operation of [KeystoreDB] that changes the tables, as one type of
    requests; the invariant of the reachable databases, and that an operation
    that fails leaves no trace. *)

From stdpp Require Import base list gmap strings.
From Stdlib Require Import ZArith Lia.
From S2P Require Import Prelude Aidl Errors Sql KeyParameter DbTypes Database DbInvariant DbAttestation DbKeys.

Section System.
Context {AI : Aidl}.
Variable AID_USER_OFFSET : Z.

Inductive DbOp :=
| StoreNewKey (draws : list Z) (key : KeyDescriptor) (kt : KeyType.t) (params : list KeyParameter)
    (blob_info : bytes * BlobMetaData) (cert_info : CertificateInfo) (metadata : KeyMetaData) (u : Uuid)
| StoreNewCertificate (draws : list Z) (now : result AnyError Z) (key : KeyDescriptor) (kt : KeyType.t)
    (c : bytes) (u : Uuid)
| CreateKeyEntry (draws : list Z) (d n : Z) (kt : KeyType.t) (u : Uuid)
| SetBlob (key_id sc_type : Z) (blob : option bytes) (m : option BlobMetaData)
| SetDeletedBlob (blob : bytes) (m : BlobMetaData)
| UnbindKey (key : KeyDescriptor) (kt : KeyType.t) (uid : Z)
    (chk : KeyDescriptor -> option Z -> result AnyError unit)
| CountUsage (key_id : Z)
| Grant (draws : list Z) (key : KeyDescriptor) (uid grantee av : Z)
    (chk : KeyDescriptor -> Z -> result AnyError unit)
| Ungrant (key : KeyDescriptor) (uid grantee : Z) (chk : KeyDescriptor -> result AnyError unit)
| UnbindNamespace (d n : Z)
| UnbindUser (user : Z) (keep : bool)
| CleanupLeftovers
| HandleSuperseded (ids : list Z) (max_blobs : nat)
| Migrate (key_id : Z) (dest : KeyDescriptor) (uid : Z) (chk : KeyDescriptor -> result AnyError unit)
| StoreSuperKey (draws : list Z) (user : Z) (al : string) (blob : bytes) (bm : BlobMetaData) (km : KeyMetaData)
| GetOrCreate (draws : list Z) (d n : Z) (al : string) (u : Uuid) (new : result AnyError (bytes * BlobMetaData))
| CreateAttestation (draws : list Z) (maced raw priv : bytes) (u : Uuid)
| StoreSigned (raw batch ch : bytes) (expiration : Z) (u : Uuid)
| AssignAttestation (d n : Z) (u : Uuid)
| DeleteExpired (now : result AnyError Z)
| DeleteAllAttestation.

(** Runs a request; what is kept of the result is the hint to notify the
    garbage collector. *)
Definition hint {A} (m : sr Tables AnyError (bool * A)) : sr Tables AnyError bool :=
  r ← m; mret r.1.

Definition run_op (o : DbOp) : sr Tables AnyError bool :=
  match o with
  | StoreNewKey draws key kt params bi ci md u => hint (store_new_key draws key kt params bi ci md u)
  | StoreNewCertificate draws now key kt c u => hint (store_new_certificate draws now key kt c u)
  | CreateKeyEntry draws d n kt u => hint (create_key_entry draws d n kt u)
  | SetBlob key_id sc b m => hint (set_blob key_id sc b m)
  | SetDeletedBlob b m => hint (set_deleted_blob b m)
  | UnbindKey key kt uid chk => hint (unbind_key key kt uid chk)
  | CountUsage key_id => hint (check_and_update_key_usage_count key_id)
  | Grant draws key uid grantee av chk => hint (grant draws key uid grantee av chk)
  | Ungrant key uid grantee chk => hint (ungrant key uid grantee chk)
  | UnbindNamespace d n => hint (unbind_keys_for_namespace d n)
  | UnbindUser user keep => hint (unbind_keys_for_user AID_USER_OFFSET user keep)
  | CleanupLeftovers => hint cleanup_leftovers
  | HandleSuperseded ids n => hint (handle_next_superseded_blobs ids n)
  | Migrate key_id dest uid chk => hint (migrate_key_namespace key_id dest uid chk)
  | StoreSuperKey draws user al b bm km => hint (store_super_key draws user al b bm km)
  | GetOrCreate draws d n al u new => hint (get_or_create_key_with draws d n al u new)
  | CreateAttestation draws mk rk pk u => hint (create_attestation_key_entry draws mk rk pk u)
  | StoreSigned rk bc ch ex u => hint (store_signed_attestation_certificate_chain rk bc ch ex u)
  | AssignAttestation d n u => hint (assign_attestation_key d n u)
  | DeleteExpired now => hint (delete_expired_attestation_keys now)
  | DeleteAllAttestation => hint delete_all_attestation_keys
  end.

(** Every caller passes blob metadata with key blobs only. *)
Definition op_ok (o : DbOp) : Prop :=
  match o with
  | SetBlob _ sc _ m => blob_args_ok sc m
  | _ => True
  end.

(** ** A failed operation leaves no trace *)

Definition atomic {A} (m : sr Tables AnyError A) : Prop :=
  forall s r s', m s = (r, s') -> (exists a, r = Ok a) \/ s' = s.

Lemma atomic_transaction {A} (m : sr Tables AnyError A) : atomic (transaction m).
Proof. intros s r s'. apply transaction_atomic. Qed.
Lemma atomic_throw {A} e : atomic (throw e : sr Tables AnyError A).
Proof. intros s r s' H. unfold throw in H. simplify_eq. auto. Qed.
Lemma atomic_lift {A B} (r : result AnyError A) (f : A -> sr Tables AnyError B) :
  (forall a, atomic (f a)) -> atomic (lift r ≫= f).
Proof.
  intros Hf s r' s'. unfold mbind, sr_bind, lift. destruct r; [apply Hf|intros; simplify_eq; auto..].
Qed.
Lemma atomic_hint {A} (m : sr Tables AnyError (bool * A)) : atomic m -> atomic (hint m).
Proof.
  intros Hm s r s'. unfold hint, mbind, sr_bind, mret, sr_ret. destruct (m s) as [[a|e|] s1] eqn:E;
    intros; simplify_eq; eauto; apply Hm in E as [[? ?]|?]; naive_solver.
Qed.

Hint Resolve atomic_transaction atomic_throw atomic_lift atomic_hint : keystore.

Lemma run_op_atomic o : atomic (run_op o).
Proof.
  destruct o; simpl; apply atomic_hint; try apply atomic_transaction.
  - apply atomic_lift. intros [[al d] n]. apply atomic_transaction.
  - apply atomic_lift. intros [[al d] n]. apply atomic_transaction.
  - unfold unbind_keys_for_namespace. destruct (negb _); auto with keystore.
  - do 3 (apply atomic_lift; intros). apply atomic_transaction.
  - unfold assign_attestation_key. destruct (negb _); auto with keystore.
Qed.

Lemma preserves_hint {A} (m : sr Tables AnyError (bool * A)) : preserves m -> preserves (hint m).
Proof. intros H. eapply triple_bind; [exact H|]. intros r. by apply triple_ret. Qed.

Lemma run_op_preserves o : op_ok o -> preserves (run_op o).
Proof.
  intros Hok. destruct o; simpl; apply preserves_hint.
  - apply store_new_key_wf.
  - apply store_new_certificate_wf.
  - apply create_key_entry_wf.
  - by apply set_blob_wf.
  - apply set_deleted_blob_wf.
  - apply unbind_key_wf.
  - apply check_and_update_wf.
  - apply grant_wf.
  - apply ungrant_wf.
  - apply unbind_namespace_wf.
  - apply unbind_keys_for_user_wf.
  - apply cleanup_leftovers_wf.
  - apply handle_next_superseded_blobs_wf.
  - apply migrate_key_namespace_wf.
  - apply store_super_key_wf.
  - apply get_or_create_key_with_wf.
  - apply create_attestation_wf.
  - apply store_signed_wf.
  - apply assign_attestation_wf.
  - apply delete_expired_wf.
  - apply delete_all_wf.
Qed.

(** ** Reachable databases *)

Inductive db_step : Tables -> Tables -> Prop :=
| db_step_op o s r s' : op_ok o -> run_op o s = (r, s') -> db_step s s'.

Definition db_reachable (s : Tables) : Prop := rtc db_step empty_tables s.

Lemma db_step_wf s s' : db_step s s' -> db_wf s -> db_wf s'.
Proof.
  intros [o s0 r s1 Hok Hr] Hwf. destruct (run_op_atomic o s0 r s1 Hr) as [[a ->]| ->]; [|done].
  exact (run_op_preserves o Hok s0 a s1 Hwf Hr).
Qed.

Lemma reachable_wf s : db_reachable s -> db_wf s.
Proof.
  intros H. pose proof empty_wf as H0. revert H0. unfold db_reachable in H.
  induction H as [|s1 s2 s3 Hs _ IH]; [done|]. intros Hwf. by apply IH, (db_step_wf s1).
Qed.

(** C2: The invariant of the database.  After any sequence of operations,
    successful or not: key, grant and blob ids are unique, no key has the id
    that stands for none, and blob ids are positive; two client keys never
    share domain, namespace and alias (super keys are stored without such a
    check, their callers look for one first); a live client key has all three;
    parameters and metadata belong to keys in the key table, blob metadata to
    key blobs, one row per owner and tag; every grant refers to a key in the
    table that went live, and there is one per key and grantee.  A blob need
    not have a key: that is what the collector looks for. *)
Theorem db_reachable_wf s :
  db_reachable s ->
  NoDup (key_ids s) /\ NoDup (grant_ids s) /\ NoDup (b_id <$> blobentry s) /\
  UNASSIGNED_KEY_ID ∉ key_ids s /\ (forall b, b ∈ blobentry s -> 0 < b_id b) /\
  (forall r, r ∈ keyentry s -> k_type r = KeyType.Client -> k_state r = KeyLifeCycle.Live ->
     is_Some (k_alias r) /\ is_Some (k_domain r) /\ is_Some (k_namespace r)) /\
  NoDup (meta_key <$> blobmetadata s) /\ NoDup (meta_key <$> keymetadata s) /\
  (forall r r', r ∈ keyentry s -> r' ∈ keyentry s -> k_type r = KeyType.Client -> k_type r' = KeyType.Client ->
     is_Some (k_alias r) -> k_alias r = k_alias r' -> k_domain r = k_domain r' ->
     k_namespace r = k_namespace r' -> r = r') /\
  (forall p, p ∈ keyparameter s -> p_key p ∈ key_ids s) /\
  (forall m, m ∈ keymetadata s -> m_owner m ∈ key_ids s) /\
  (forall m, m ∈ blobmetadata s -> exists b, b ∈ blobentry s /\ b_id b = m_owner m /\
     b_type b = SubComponentType.KEY_BLOB) /\
  (forall g, g ∈ grants s -> grantable (keyentry s) (g_key g)) /\
  (forall g g', g ∈ grants s -> g' ∈ grants s -> g_key g = g_key g' -> g_grantee g = g_grantee g' -> g = g').
Proof.
  intros H%reachable_wf. destruct H as [[] ? ? ? ? ? ? ? ? ? ?]. 
  repeat (split; [first [done|by apply Forall_forall]|]).
  intros g g' Hg Hg' Hk Hgr. eapply (NoDup_fmap_inj (fun g => (g_key g, g_grantee g))); [done..|].
  simpl. congruence.
Qed.

(** Operations are all or nothing: one that does not succeed, whatever
    the reason (a denied permission, a missing key, a constraint), leaves the
    tables as they were. *)
Theorem failed_operation_leaves_no_trace o s r s' :
  run_op o s = (r, s') -> is_ok r = false -> s' = s.
Proof. intros [[a ->]| ->]%run_op_atomic; done. Qed.
End System.

(** ** A run: a key is stored, then deleted by somebody who may not. *)

#[local] Existing Instance aidl_published.

Definition demo_store_op : DbOp :=
  StoreNewKey [-1; 77] (demo_desc "k") KeyType.Client demo_params ([9; 9], demo_bm) demo_ci demo_md (repeat 7 16).

Lemma db_reachable_wf_witness : NoDup (key_ids demo_db1).
Proof.
  apply (db_reachable_wf 100000 demo_db1). apply rtc_once.
  apply (db_step_op 100000 demo_store_op empty_tables (Ok false)); [exact I|vm_compute; reflexivity].
Defined.

Definition demo_denied_op : DbOp :=
  UnbindKey (demo_desc "k") KeyType.Client 1000 (fun _ _ => Err (KsError perm)).

Lemma failed_operation_leaves_no_trace_witness : snd (run_op 100000 demo_denied_op demo_db1) = demo_db1.
Proof.
  apply (failed_operation_leaves_no_trace 100000 demo_denied_op demo_db1 (Err (KsError perm)));
    vm_compute; reflexivity.
Defined.
