(* ===== verification/DbGrants.v ===== *)
(** * Grants in the database *)

From stdpp Require Import base list gmap strings.
From Stdlib Require Import ZArith Lia.
From S2P Require Import Prelude Aidl Errors Sql KeyParameter DbTypes Database DbInvariant DbKeys.

Section Grants.
Context {AI : Aidl}.
Implicit Types (s : Tables).

Definition grant_descriptor (id : Z) : KeyDescriptor :=
  {| domain := val Domain.GRANT; nspace := id; alias := None; blob := None |}.

Lemma live_is_live s id : keys_ok (keyentry s) -> live_key s id -> is_live_key s id = true.
Proof.
  intros Hok (r & Hr & Hid & Hst). unfold is_live_key.
  rewrite (select_unique k_id _ _ r); [simpl|by apply Hok|done|by apply Z.eqb_eq|].
  - by rewrite bool_decide_eq_true_2.
  - intros y _ Hy. bool_prop. congruence.
Qed.

(** The state after a successful [grant]. *)
Lemma grant_Ok draws key uid grantee av chk s gc gd s' :
  db_wf s -> grant draws key uid grantee av chk s = (Ok (gc, gd), s') ->
  exists id dk a gid, load_access_tuple key KeyType.Client uid s = Ok (id, dk, a) /\ chk dk av = Ok tt /\
    gd = grant_descriptor gid /\ keyentry s' = keyentry s /\
    {| g_id := gid; g_grantee := grantee; g_key := id; g_vec := av |} ∈ grants s' /\
    (forall g, g ∈ grants s -> (g_key g, g_grantee g) <> (id, grantee) -> g ∈ grants s').
Proof.
  intros Hwf H. apply (proj1 (transaction_Ok _ _ _ _)) in H.
  apply sr_bind_Ok in H as ([[id dk] a] & s0 & Ht & H). unfold query in Ht. injection Ht as Ht <-.
  apply sr_bind_Ok in H as ([] & s1 & Hc & H). unfold lift in Hc. injection Hc as Hc <-.
  apply sr_bind_Ok in H as (ex & s2 & He & H). unfold gets in He. injection He as He <-.
  apply sr_bind_Ok in H as (gid & s3 & Hg & H). unfold mret, sr_ret in H. simplify_eq.
  exists id, dk, a, gid. split; [done|]. split; [done|]. split; [done|].
  destruct (g_id <$> _) as [gid'|] eqn:Hex.
  - unfold mbind, sr_bind, modify, mret, sr_ret in Hg. simplify_eq. split; [done|].
    apply fmap_Some in Hex as (g & Hg & ->). apply head_select_Some in Hg as [Hg Hm]. bool_prop. subst.
    split; simpl.
    + apply elem_of_update_where. exists g. split; [done|]. by rewrite Z.eqb_refl.
    + intros g' Hg' Hne. apply elem_of_update_where. exists g'. split; [done|].
      destruct (Z.eqb_spec (g_id g') (g_id g)) as [E|]; [|done].
      assert (g' = g) as -> by (apply (NoDup_fmap_inj g_id (grants s)); [apply (wf_gids _ Hwf)|done..]). done.
  - apply insert_with_retry_Ok in Hg as (_ & _ & ->). simpl. split; [done|]. split; [set_solver|].
    intros g Hg _. set_solver.
Qed.

(** What a grant gives.  After a successful [grant] the grantee reaches
    the granted key by the returned descriptor, with exactly the permissions
    granted, also when an older grant was replaced; nobody else reaches
    anything by it; and all other grants are as they were. *)
Theorem grant_gives_access draws key uid grantee av chk s gc gd s' :
  db_wf s -> grant draws key uid grantee av chk s = (Ok (gc, gd), s') ->
  exists id dk a, load_access_tuple key KeyType.Client uid s = Ok (id, dk, a) /\ chk dk av = Ok tt /\
    (forall kt, load_access_tuple gd kt grantee s' = Ok (id, gd, Some av)) /\
    (forall kt uid', uid' <> grantee ->
       load_access_tuple gd kt uid' s' = Err (err_rc ResponseCode.KEY_NOT_FOUND)) /\
    (forall g, g ∈ grants s -> (g_key g, g_grantee g) <> (id, grantee) -> g ∈ grants s').
Proof.
  intros Hwf H. pose proof (grant_wf _ _ _ _ _ _ s (gc, gd) s' Hwf H) as Hwf'.
  apply grant_Ok in H as (id & dk & a & gid & Ht & Hc & -> & K & Hin & Hrest); [|done].
  exists id, dk, a. split; [done|]. split; [done|].
  assert (is_live_key s' id = true) as Hlive.
  { apply live_is_live; [by apply wf_keys|]. unfold live_key. rewrite K. by eapply load_access_tuple_live. }
  unfold load_access_tuple, grant_descriptor, app_or_selinux. simpl. rewrite !val_eqb. simpl.
  split; [intros kt|split; [intros kt uid' Hne|done]].
  - rewrite (select_unique g_id _ _ _ (wf_gids _ Hwf') Hin); [done|simpl; by rewrite !Z.eqb_refl, Hlive|].
    intros g Hg Hm. simpl in *. by bool_prop.
  - rewrite select_where_nil; [done|]. intros g Hg.
    destruct (Z.eqb_spec (g_id g) gid) as [E|]; [|by rewrite andb_false_r].
    assert (g = {| g_id := gid; g_grantee := grantee; g_key := id; g_vec := av |}) as ->.
    { apply (NoDup_fmap_inj g_id (grants s')); [apply (wf_gids _ Hwf')|done..]. }
    simpl. by rewrite (proj2 (Z.eqb_neq grantee uid')) by congruence.
Qed.

Lemma ungrant_Ok key uid grantee chk s gc s' :
  ungrant key uid grantee chk s = (Ok (gc, tt), s') ->
  exists id dk a, load_access_tuple key KeyType.Client uid s = Ok (id, dk, a) /\ chk dk = Ok tt /\
    s' = on_grants (delete_where (fun g => (g_key g =? id) && (g_grantee g =? grantee))) s.
Proof.
  intros H. apply (proj1 (transaction_Ok _ _ _ _)) in H.
  apply sr_bind_Ok in H as ([[id dk] a] & s0 & Ht & H). unfold query in Ht. injection Ht as Ht <-.
  apply sr_bind_Ok in H as ([] & s1 & Hc & H). unfold lift in Hc. injection Hc as Hc <-.
  unfold mbind, sr_bind, modify, mret, sr_ret in H. simplify_eq. eauto 10.
Qed.

(** What [ungrant] takes away.  Afterwards the grantee reaches the key by
    no grant descriptor, and by key id only without a permission vector; the
    grants of other keys and other grantees stay. *)
Theorem ungrant_revokes key uid grantee chk s gc s' :
  ungrant key uid grantee chk s = (Ok (gc, tt), s') ->
  exists id dk a, load_access_tuple key KeyType.Client uid s = Ok (id, dk, a) /\ chk dk = Ok tt /\
    (forall gid kt d v, load_access_tuple (grant_descriptor gid) kt grantee s' <> Ok (id, d, v)) /\
    (forall kt d v, load_access_tuple (key_id_descriptor id) kt grantee s' = Ok (id, d, v) -> v = None) /\
    (forall g, g ∈ grants s' <-> g ∈ grants s /\ (g_key g, g_grantee g) <> (id, grantee)).
Proof.
  intros (id & dk & a & Ht & Hc & ->)%ungrant_Ok. exists id, dk, a. split; [done|]. split; [done|].
  assert (forall g, g ∈ delete_where (fun g => (g_key g =? id) && (g_grantee g =? grantee)) (grants s) <->
    g ∈ grants s /\ (g_key g, g_grantee g) <> (id, grantee)) as Hgr.
  { intros g. rewrite elem_of_delete_where, andb_false_iff, !Z.eqb_neq. split.
    - intros [? [?|?]]; split; congruence.
    - intros [? Hne]. split; [done|]. destruct (decide (g_key g = id)); [right; congruence|by left]. }
  split; [|split; [|exact Hgr]].
  - intros gid kt d v (r & _ & Hid & Hta)%load_access_tuple_true. destruct Hta as [_ Hta].
    unfold grant_descriptor in Hta. simpl in Hta. rewrite !val_eqb in Hta. simpl in Hta.
    destruct Hta as (_ & g & Hg & _ & Hgt & Hgk & _). apply Hgr in Hg as [_ Hg]. apply Hg. congruence.
  - intros kt d v (r & _ & Hid & Hta)%load_access_tuple_true. destruct Hta as [_ Hta].
    unfold key_id_descriptor in Hta. simpl in Hta. rewrite !val_eqb in Hta. simpl in Hta.
    destruct Hta as (_ & _ & _ & Hv). destruct v as [v|]; [|done].
    destruct (Hv v eq_refl) as (g & Hg & Hgt & Hgk & _). apply Hgr in Hg as [_ Hg]. destruct Hg. congruence.
Qed.
End Grants.

(** ** Uid 1000 grants its key to uid 2000 and takes the grant back. *)

#[local] Existing Instance aidl_published.

Definition demo_grant := grant [5] (demo_desc "k") 1000 2000 256 (fun _ _ => Ok tt).
Definition demo_granted : Tables := snd (demo_grant demo_db1).

Lemma demo_grant_ok : demo_grant demo_db1 = (Ok (false, grant_descriptor 5), demo_granted).
Proof. vm_compute. reflexivity. Qed.

Lemma grant_gives_access_witness : exists id, forall kt,
  load_access_tuple (grant_descriptor 5) kt 2000 demo_granted = Ok (id, grant_descriptor 5, Some 256).
Proof.
  destruct (grant_gives_access [5] (demo_desc "k") 1000 2000 256 (fun _ _ => Ok tt) demo_db1 false (grant_descriptor 5)
    demo_granted demo_db1_wf demo_grant_ok) as (id & dk & a & _ & _ & H & _).
  exists id. exact H.
Defined.

Definition demo_ungrant := ungrant (demo_desc "k") 1000 2000 (fun _ => Ok tt).
Lemma ungrant_revokes_witness : exists id, forall gid kt d v,
  load_access_tuple (grant_descriptor gid) kt 2000 (snd (demo_ungrant demo_granted)) <> Ok (id, d, v).
Proof.
  destruct (ungrant_revokes (demo_desc "k") 1000 2000 (fun _ => Ok tt) demo_granted false
    (snd (demo_ungrant demo_granted))) as (id & dk & a & _ & _ & H & _); [vm_compute; reflexivity|].
  exists id. exact H.
Defined.
