(* ===== verification/DbGc.v ===== *)
(** * Garbage: superseded and orphaned blobs

    What [handle_next_superseded_blobs] hands to the garbage collector, what
    it deletes, and that neither concerns a blob a key still uses. *)

From stdpp Require Import base list gmap strings.
From Stdlib Require Import ZArith Lia.
From S2P Require Import Prelude Aidl Errors Sql KeyParameter DbTypes Database DbInvariant DbKeys.

Section Gc.
Context {AI : Aidl}.
Implicit Types (s : Tables).

Lemma superseded_spec s r :
  superseded s r = true <->
  exists r', r' ∈ blobentry s /\ b_key r' = b_key r /\ b_type r' = b_type r /\ b_id r < b_id r'.
Proof.
  unfold superseded. rewrite existsb_exists. setoid_rewrite <- list_elem_of_In. split.
  - intros (r' & Hr' & H). bool_prop. eauto.
  - intros (r' & Hr' & Hk & Ht & Hlt). exists r'. split; [done|].
    rewrite Hk, Ht, !Z.eqb_refl. simpl. by apply Z.ltb_lt.
Qed.

Lemma latest_spec id s r :
  r ∈ latest_blobs id s <->
  r ∈ blobentry s /\ b_key r = id /\
  forall r', r' ∈ blobentry s -> b_key r' = id -> b_type r' = b_type r -> b_id r' <= b_id r.
Proof.
  unfold latest_blobs. rewrite !elem_of_select_where, forallb_forall, Z.eqb_eq. split.
  - intros [[Hr Hk] Hmax]. repeat split; [done..|]. intros r' Hr' Hk' Ht'.
    specialize (Hmax r'). rewrite <- list_elem_of_In, elem_of_select_where, Ht', Z.eqb_refl in Hmax. simpl in Hmax.
    apply Z.leb_le, Hmax. split; [done|by apply Z.eqb_eq].
  - intros (Hr & Hk & Hmax). split; [done|]. intros r' [Hr' Hk']%list_elem_of_In%elem_of_select_where. bool_prop.
    destruct (Z.eqb_spec (b_type r') (b_type r)); [|done]. simpl. apply Z.leb_le. auto.
Qed.

(** The blob a key uses is not garbage. *)
Lemma latest_not_garbage id s r : id ∈ key_ids s -> r ∈ latest_blobs id s -> garbage s r = false.
Proof.
  intros Hid (Hr & Hk & Hmax)%latest_spec. unfold garbage, orphaned. apply orb_false_iff. split.
  - apply not_true_iff_false. intros (r' & Hr' & Hk' & Ht' & Hlt)%superseded_spec.
    specialize (Hmax r' Hr' ltac:(congruence) Ht'). lia.
  - apply negb_false_iff, bool_decide_eq_true. by rewrite Hk.
Qed.

(** Every blob of a key is outranked by the one in use. *)
Lemma latest_exists id s r :
  r ∈ blobentry s -> b_key r = id ->
  exists r', r' ∈ latest_blobs id s /\ b_type r' = b_type r /\ b_id r <= b_id r'.
Proof.
  intros Hr Hk.
  assert (forall l : list BlobRow, exists m, (m = r \/ m ∈ l) /\ b_key m = id /\ b_type m = b_type r /\ b_id r <= b_id m /\
    forall x, x ∈ l -> b_key x = id -> b_type x = b_type r -> b_id x <= b_id m) as Hmax.
  { clear -Hk. induction l as [|x l (m & Hm & Hmk & Hmt & Hle & Hmax)].
    - exists r. split; [auto|]. repeat split; [done|lia|]. by intros x ?%not_elem_of_nil.
    - destruct (decide (b_key x = id /\ b_type x = b_type r /\ b_id m < b_id x)) as [(Hxk & Hxt & Hlt)|Hno].
      + exists x. split; [right; left|]. repeat split; [done|done|lia|].
        intros y [->|Hy]%elem_of_cons Hyk Hyt; [lia|]. specialize (Hmax y Hy Hyk Hyt). lia.
      + exists m. split; [destruct Hm; [auto|right; by right]|]. repeat split; [done..|].
        intros y [->|Hy]%elem_of_cons Hyk Hyt; [|auto]. destruct (decide (b_id m < b_id x)); [naive_solver|lia]. }
  destruct (Hmax (blobentry s)) as (m & Hm & Hmk & Hmt & Hle & Hmx). exists m.
  split; [|done]. apply latest_spec. split; [by destruct Hm as [->|]|]. split; [done|].
  intros x Hx Hxk Hxt. apply Hmx; [done..|congruence].
Qed.

(** Deleting only garbage leaves what a key uses in place. *)
Lemma delete_garbage_latest D s s' id :
  id ∈ key_ids s -> blobentry s' = delete_where D (blobentry s) ->
  (forall r, r ∈ blobentry s -> D r = true -> garbage s r = true) ->
  latest_blobs id s' = latest_blobs id s.
Proof.
  intros Hid Hb HD. unfold latest_blobs at 1. rewrite Hb.
  assert (select_where (fun r => b_key r =? id) (delete_where D (blobentry s)) =
          delete_where D (select_where (fun r => b_key r =? id) (blobentry s))) as Hcomm.
  { unfold select_where, delete_where. rewrite !list_filter_filter. apply list_filter_iff. naive_solver. }
  rewrite Hcomm. set (mine := select_where (fun r => b_key r =? id) (blobentry s)).
  assert (forall r, r ∈ latest_blobs id s -> D r = false) as Hkeep.
  { intros r Hr. apply not_true_iff_false. intros E. apply latest_spec in Hr as Hr'. destruct Hr' as [Hin _].
    apply (latest_not_garbage id s r Hid) in Hr. by rewrite (HD r Hin E) in Hr. }
  unfold latest_blobs. fold mine. etrans; [|apply (select_delete D)].
  - apply select_where_ext. intros r [Hr _]%elem_of_delete_where.
    apply eq_iff_eq_true. rewrite !forallb_forall. setoid_rewrite <- list_elem_of_In. split; intros Hall r' Hr'.
    + destruct (Z.eqb_spec (b_type r') (b_type r)) as [Ht|]; [|done]. simpl. apply Z.leb_le.
      unfold mine in Hr'. apply elem_of_select_where in Hr' as [Hr' Hk']. bool_prop.
      destruct (latest_exists id s r' Hr' Hk') as (m & Hm & Hmt & Hle).
      apply latest_spec in Hm as Hm'. destruct Hm' as (Hmin & Hmk & _).
      specialize (Hall m). rewrite elem_of_delete_where in Hall.
      assert (m ∈ mine) as Hmm by (apply elem_of_select_where; split; [done|by apply Z.eqb_eq]).
      specialize (Hall (conj Hmm (Hkeep m Hm))). rewrite Hmt, Ht, Z.eqb_refl in Hall. simpl in Hall. bool_prop. lia.
    + apply Hall. by apply elem_of_delete_where in Hr' as [? _].
  - intros r Hr Hl. apply Hkeep. unfold latest_blobs. fold mine. by apply elem_of_select_where.
Qed.

(** What remains is garbage only if it was. *)
Lemma garbage_mono s s' r :
  keyentry s' = keyentry s -> (forall b, b ∈ blobentry s' -> b ∈ blobentry s) ->
  garbage s' r = true -> garbage s r = true.
Proof.
  intros Hk Hb. unfold garbage, orphaned, key_ids. rewrite Hk, !orb_true_iff. intros [H|H]; [left|by right].
  apply superseded_spec in H as (r' & Hr' & ?). apply superseded_spec. eauto.
Qed.

(** ** The deletions of the first phase *)

Lemma delete_blobs_state ids s s' :
  sr_for delete_blob ids s = (Ok tt, s') ->
  s' = {| keyentry := keyentry s;
          blobentry := delete_where (fun r => bool_decide (b_id r ∈ ids)) (blobentry s);
          blobmetadata := delete_where (fun r => bool_decide (m_owner r ∈ ids)) (blobmetadata s);
          keyparameter := keyparameter s; keymetadata := keymetadata s; grants := grants s |}.
Proof.
  assert (forall {A} (g : A -> Z) id zs (l : list A),
    delete_where (fun r => bool_decide (g r ∈ zs)) (delete_where (fun r => g r =? id) l) =
    delete_where (fun r => bool_decide (g r ∈ id :: zs)) l) as Hdel.
  { intros A g id zs l. unfold delete_where. rewrite list_filter_filter. apply list_filter_iff. intros x.
    rewrite !bool_decide_eq_false, Z.eqb_neq. set_solver. }
  assert (forall {A} (l : list A) (g : A -> Z), delete_where (fun r => bool_decide (g r ∈ ([] : list Z))) l = l) as Hnil.
  { intros A l g. unfold delete_where. induction l as [|x l IH]; [done|]. by rewrite filter_cons_True, IH. }
  revert s. induction ids as [|id ids IH]; intros s.
  - intros [= <-]. rewrite !Hnil. by destruct s.
  - cbn [sr_for]. intros ([] & s1 & H1 & H2)%sr_bind_Ok. unfold delete_blob, mbind, sr_bind, modify in H1.
    simplify_eq. apply IH in H2 as ->. simpl. by rewrite !Hdel.
Qed.

(** Only garbage is requested to be deleted. *)
Definition only_garbage (ids : list Z) s : Prop :=
  forall r, r ∈ blobentry s -> b_id r ∈ ids -> garbage s r = true.

Lemma delete_blobs_view ids s s' id :
  db_wf s -> only_garbage ids s -> id ∈ key_ids s -> sr_for delete_blob ids s = (Ok tt, s') -> same_view id s s'.
Proof.
  intros Hwf Hg Hid ->%delete_blobs_state. constructor; simpl; try done.
  - eapply delete_garbage_latest; [done|done|]. intros r Hr E. simpl in E. bool_prop. by apply Hg.
  - intros b Hb. rewrite !filter_owner_select. apply select_delete. intros m Hm E. bool_prop.
    apply bool_decide_eq_false. rewrite E. intros Hin. apply latest_spec in Hb as Hb'. destruct Hb' as [Hbin _].
    apply (latest_not_garbage id s b Hid) in Hb. by rewrite (Hg b Hbin Hin) in Hb.
Qed.

Lemma same_view_trans id s1 s2 s3 : same_view id s1 s2 -> same_view id s2 s3 -> same_view id s1 s3.
Proof.
  intros [A1 A2 A3 A4 A5] [B1 B2 B3 B4 B5]. constructor; try congruence.
  intros b Hb. rewrite B3 by (by rewrite A2). auto.
Qed.

(** Everything a successful round went through: the tables after the
    deletions, and the end of the round. *)
Lemma handle_round ids n s b found s' :
  handle_next_superseded_blobs ids n s = (Ok (b, found), s') ->
  exists s1, sr_for delete_blob ids s = (Ok tt, s1) /\
    let s2 := purge is_unreferenced s1 in
    let rows := take n (select_where (fun r => is_key_blob r && garbage s2 r) (blobentry s2)) in
    Forall2 (fun r f => f.1 = (b_id r, b_blob r) /\ meta_load (b_id r) (blobmetadata s2) = Ok f.2) rows found /\
    s' = match found with
         | [] => on_blobentry (delete_where (fun r => negb (is_key_blob r) && garbage s2 r)) s2
         | _ => s2
         end.
Proof.
  intros H. apply (proj1 (transaction_Ok _ _ _ _)) in H.
  apply sr_bind_Ok in H as ([] & s1 & H1 & H). exists s1. split; [done|]. simpl.
  apply sr_bind_Ok in H as ([] & s2 & H2 & H). unfold cleanup_unreferenced in H2.
  rewrite delete_keys_where_purge in H2. injection H2 as <-.
  apply sr_bind_Ok in H as (rows & s3 & H3 & H). unfold gets in H3. injection H3 as <- <-.
  apply sr_bind_Ok in H as (fd & s4 & H4 & H). unfold query in H4. injection H4 as H4 <-.
  apply try_map_Ok in H4. split.
  - assert (found = fd) as ->.
    { destruct fd; unfold mbind, sr_bind, modify, mret, sr_ret in H; by simplify_eq. }
    eapply Forall2_impl; [exact H4|]. simpl. intros r f Hf. apply bind_Ok in Hf as (m & Hm & Hf). by simplify_eq.
  - destruct fd; unfold mbind, sr_bind, modify, mret, sr_ret in H; by simplify_eq.
Qed.

(** Only garbage is handed out: every blob [handle_next_superseded_blobs]
    returns for destruction is a key blob of the database that is superseded
    by a newer one of the same key or whose key is gone, and there are at most
    as many as asked for. *)
Theorem gc_returns_garbage ids n s b found s' :
  handle_next_superseded_blobs ids n s = (Ok (b, found), s') ->
  (length found <= n)%nat /\
  forall bid bl m, (bid, bl, m) ∈ found -> exists r, r ∈ blobentry s' /\ b_id r = bid /\ b_blob r = bl /\
    is_key_blob r = true /\ garbage s' r = true.
Proof.
  intros (s1 & _ & Hf & Hs')%handle_round. simpl in *. split.
  - apply Forall2_length in Hf. rewrite <- Hf, length_take. lia.
  - intros bid bl m Hin. apply list_elem_of_lookup in Hin as [i Hi].
    destruct (Forall2_lookup_r _ _ _ _ _ Hf Hi) as (r & Hr & [He _]). simpl in He. injection He as -> ->.
    destruct found as [|f0 found]; [done|]. subst s'.
    apply list_elem_of_lookup_2, elem_of_take in Hr as (j & Hj & _).
    apply list_elem_of_lookup_2, elem_of_select_where in Hj as [Hr Hg]. bool_prop. exists r. by split_and!.
Qed.

Lemma gc_round_keeps ids n s b found s' id bits :
  db_wf s -> only_garbage ids s ->
  handle_next_superseded_blobs ids n s = (Ok (b, found), s') -> id ∈ key_ids s' ->
  load_key_components bits id s' = load_key_components bits id s.
Proof.
  intros Hwf Hg (s1 & H1 & _ & Hs')%handle_round Hid. simpl in Hs'. apply same_view_load.
  pose proof (delete_blobs_state _ _ _ H1) as E1.
  assert (key_ids s' = key_ids (purge is_unreferenced s1)) as Hids by (subst s'; by destruct found).
  rewrite Hids in Hid. apply list_elem_of_fmap in Hid as (r & -> & [Hr Hn]%elem_of_delete_where).
  assert (keyentry s1 = keyentry s) as K1 by (by rewrite E1).
  assert (k_id r ∈ key_ids s) as Hid by (unfold key_ids; rewrite <- K1; by apply list_elem_of_fmap_2).
  assert (same_view (k_id r) s (purge is_unreferenced s1)) as Hv.
  { eapply same_view_trans; [by eapply delete_blobs_view|]. apply purge_view. intros (r' & Hr' & Hp & He)%elem_of_ids_where.
    assert (r = r') as -> by (apply (keys_ok_unique (keyentry s)); [by apply wf_keys|congruence..]). congruence. }
  destruct found; [|by subst s']. eapply same_view_trans; [exact Hv|]. subst s'. constructor; simpl; try done.
  eapply delete_garbage_latest; [|done|].
  - unfold key_ids. simpl. apply list_elem_of_fmap_2. by apply elem_of_delete_where.
  - intros x Hx E. simpl in E. by apply andb_true_iff in E as [_ ?].
Qed.

Lemma gc_round_complete ids n s b s' :
  (0 < n)%nat -> handle_next_superseded_blobs ids n s = (Ok (b, []), s') ->
  forall r, r ∈ blobentry s' -> garbage s' r = false.
Proof.
  intros Hn (s1 & _ & Hf & Hs')%handle_round. simpl in *. intros r Hr.
  destruct (garbage s' r) eqn:E; [|done]. exfalso.
  assert (garbage (purge is_unreferenced s1) r = true) as Hg.
  { eapply garbage_mono; [| |exact E]; [by subst s'|]. intros x Hx. subst s'. by apply elem_of_delete_where in Hx as [? _]. }
  subst s'. simpl in Hr. apply elem_of_delete_where in Hr as [Hr Hnk]. rewrite Hg, andb_true_r in Hnk. bool_prop.
  apply Forall2_nil_inv_r in Hf.
  assert (r ∈ select_where (fun r => is_key_blob r && garbage (purge is_unreferenced s1) r) (blobentry s1)) as Hin.
  { apply elem_of_select_where. rewrite Hnk, Hg. done. }
  destruct (select_where _ _) as [|x l]; [by apply not_elem_of_nil in Hin|]. by destruct n; [lia|].
Qed.
(** C12: Garbage collection never touches a key: if only garbage is deleted,
    every key that is still in the key table afterwards loads exactly as
    before. *)
Theorem gc_preserves_keys ids n s b found s' id bits :
  db_wf s -> only_garbage ids s ->
  handle_next_superseded_blobs ids n s = (Ok (b, found), s') -> id ∈ key_ids s' ->
  load_key_components bits id s' = load_key_components bits id s.
Proof. apply gc_round_keeps. Qed.

(** When nothing is returned (and something was asked for), the database
    holds no garbage at all any more: every blob left belongs to a key in the
    table and is the current one of its kind. *)
Theorem gc_complete ids n s b s' :
  (0 < n)%nat -> handle_next_superseded_blobs ids n s = (Ok (b, []), s') ->
  forall r, r ∈ blobentry s' -> garbage s' r = false.
Proof. apply gc_round_complete. Qed.

End Gc.

(** ** After key 77 was replaced, its blob is garbage. *)

#[local] Existing Instance aidl_published.

Definition demo_gc1 : Tables := snd (handle_next_superseded_blobs [] 5 demo_db2).
Definition demo_found := [(1, [9; 9], demo_bm)].

Lemma demo_gc1_ok : handle_next_superseded_blobs [] 5 demo_db2 = (Ok (false, demo_found), demo_gc1).
Proof. vm_compute. reflexivity. Qed.

Lemma demo_db2_wf : db_wf demo_db2.
Proof.
  apply (store_new_key_wf [77; 78] (demo_desc "k") KeyType.Client demo_params ([9; 9], demo_bm) demo_ci demo_md
    (repeat 7 16) demo_db1 (true, 78) demo_db2 demo_db1_wf). exact demo_store2.
Qed.

Lemma gc_returns_garbage_witness : exists r, r ∈ blobentry demo_gc1 /\ b_id r = 1 /\ garbage demo_gc1 r = true.
Proof.
  destruct (gc_returns_garbage [] 5 demo_db2 false demo_found demo_gc1 demo_gc1_ok) as [_ H].
  destruct (H 1 [9; 9] demo_bm) as (r & H1 & H2 & _ & _ & H3); [left|].
  exists r. split; [exact H1|]. split; assumption.
Defined.

Lemma gc_preserves_keys_witness :
  load_key_components LoadBits.BOTH 78 demo_gc1 = load_key_components LoadBits.BOTH 78 demo_db2.
Proof.
  apply (gc_preserves_keys [] 5 demo_db2 false demo_found demo_gc1 78 LoadBits.BOTH demo_db2_wf); [|exact demo_gc1_ok|].
  - intros r _ Hin. apply not_elem_of_nil in Hin. destruct Hin.
  - vm_compute. left.
Defined.

Lemma gc_complete_witness :
  Forall (fun r => garbage (snd (handle_next_superseded_blobs [1] 5 demo_gc1)) r = false)
    (blobentry (snd (handle_next_superseded_blobs [1] 5 demo_gc1))).
Proof.
  apply Forall_forall. apply (gc_complete [1] 5 demo_gc1 false); [lia|]. vm_compute. reflexivity.
Defined.
