(* ===== verification/DbBulk.v ===== *)
(** * Bulk deletion and the attestation pool: what is deleted, what stays *)

From stdpp Require Import base list gmap strings.
From Stdlib Require Import ZArith Lia.
From S2P Require Import Prelude Aidl Errors Sql KeyParameter DbTypes Database DbInvariant DbAttestation DbKeys DbGc.

Section Bulk.
Context {AI : Aidl}.
Implicit Types (s : Tables).

(** Whether [unbind_keys_for_user] skips key [id]: it was told to keep keys
    that are not super encrypted, and the key has a key blob that is not. *)
Definition skipped (keep : bool) s (id : Z) : bool :=
  keep && match load_blob_components id LoadBits.KM s with
          | Ok (_, Some (_, m), _, _) => bool_decide (encrypted_by m = None)
          | _ => false
          end.

Lemma same_view_blobs bits id s s' :
  same_view id s s' -> load_blob_components id bits s' = load_blob_components id bits s.
Proof.
  intros [_ Hl Hm _ _]. unfold load_blob_components. rewrite Hl.
  destruct (try_fold _ _ _) as [bl| |] eqn:Hf; [simpl|done..].
  destruct (key_blob bl) as [[bid b]|] eqn:Hkb; [|done].
  destruct (extract_key_blob_in _ _ _ _ _ _ Hf Hkb) as [?|(row & Hrow & <-)]; [done|].
  by rewrite (meta_load_ext (E := BlobMetaEntry) _ _ _ (Hm row Hrow)).
Qed.

(** One iteration: the key is skipped, or purged. *)
Lemma unbind_user_key_Ok keep id s b s' :
  db_wf s -> unbind_user_key keep id s = (Ok b, s') ->
  s' = if skipped keep s id then s else purge (fun r => k_id r =? id) s.
Proof.
  intros Hwf H. unfold unbind_user_key in H. apply sr_bind_Ok in H as (sk & s1 & H1 & H).
  assert (sk = skipped keep s id /\ s1 = s) as [-> ->].
  { unfold skipped. destruct keep; [|unfold mret, sr_ret in H1; by simplify_eq].
    unfold query in H1. injection H1 as H1 <-. split; [|done]. apply bind_Ok in H1 as (((([] & info) & c) & ch) & H1 & H2);
      rewrite H1; simplify_eq; simpl; by destruct info as [[]|]. }
  destruct (skipped keep s id).
  - unfold mret, sr_ret in H. by simplify_eq.
  - rewrite mark_unreferenced_purge in H by done. by simplify_eq.
Qed.

Lemma same_view_refl id s : same_view id s s.
Proof. done. Qed.

(** The loop: which rows stay, and that the keys that stay look the same. *)
Lemma unbind_user_keys_Ok keep ids s b0 b s' :
  db_wf s -> unbind_user_keys keep ids b0 s = (Ok b, s') ->
  (forall r, r ∈ keyentry s' <-> r ∈ keyentry s /\ (k_id r ∉ ids \/ skipped keep s (k_id r) = true)) /\
  (forall id, id ∉ ids \/ skipped keep s id = true -> same_view id s s').
Proof.
  revert s b0. induction ids as [|id ids IH]; intros s b0 Hwf; cbn [unbind_user_keys].
  - unfold mret, sr_ret. intros H. simplify_eq. split; [|intros; apply same_view_refl]. intros r. set_solver.
  - intros (b1 & s1 & H1 & H2)%sr_bind_Ok. pose proof (unbind_user_key_wf keep id s b1 s1 Hwf H1) as Hwf1.
    apply unbind_user_key_Ok in H1; [|done]. destruct (IH s1 _ Hwf1 H2) as [IHr IHv]. clear IH H2.
    assert (forall x, x <> id \/ skipped keep s x = true -> same_view x s s1) as Hv.
    { intros x Hx. subst s1. destruct (skipped keep s id) eqn:Hs; [apply same_view_refl|].
      apply purge_view. rewrite ids_where_id. intros [-> _]. destruct Hx; congruence. }
    assert (forall x, x <> id \/ skipped keep s x = true -> skipped keep s1 x = skipped keep s x) as Hsk.
    { intros x Hx. unfold skipped. by rewrite (same_view_blobs _ x s s1 (Hv x Hx)). }
    assert (forall r, r ∈ keyentry s1 <-> r ∈ keyentry s /\ (k_id r <> id \/ skipped keep s (k_id r) = true)) as Hr1.
    { intros r. subst s1. destruct (skipped keep s id) eqn:Hs; simpl.
      - split; [|by intros []]. intros Hr. split; [done|]. destruct (decide (k_id r = id)) as [E|E]; [right; by rewrite E|by left].
      - rewrite elem_of_delete_where, Z.eqb_neq. split; [naive_solver|]. intros [Hr [?|Hx]]; [done|].
        split; [done|]. intros E. congruence. }
    split.
    + intros r. rewrite IHr, Hr1. rewrite not_elem_of_cons. split.
      * intros [[Hr Ha] Hb]. split; [done|]. destruct Ha as [Ha|Ha]; [|auto].
        destruct Hb as [Hb|Hb]; [auto|]. right. rewrite <- Hsk; auto.
      * intros [Hr [[Ha Hb]|Hs]]; [auto|]. split; [auto|]. right. rewrite Hsk; auto.
    + intros x Hx. rewrite not_elem_of_cons in Hx. eapply same_view_trans; [apply Hv; naive_solver|].
      apply IHv. destruct Hx as [[? ?]|Hs]; [auto|]. right. rewrite Hsk; auto.
Qed.

(** The rows [unbind_keys_for_user] leaves. *)
Lemma unbind_user_rows off user keep s gc s' :
  db_wf s -> unbind_keys_for_user off user keep s = (Ok (gc, tt), s') ->
  (forall r, r ∈ keyentry s' <->
     r ∈ keyentry s /\ (of_user off user r = false \/ skipped keep s (k_id r) = true)) /\
  (forall id, id ∈ key_ids s' -> same_view id s s').
Proof.
  intros Hwf H. apply (proj1 (transaction_Ok _ _ _ _)) in H.
  apply sr_bind_Ok in H as (ids & s0 & H0 & H). unfold gets in H0. injection H0 as <- <-.
  apply sr_bind_Ok in H as (b & s1 & H1 & H). unfold mret, sr_ret in H. simplify_eq.
  apply unbind_user_keys_Ok in H1 as [Hr Hv]; [|done].
  assert (forall r, r ∈ keyentry s -> (k_id r ∉ ids_where (of_user off user) s <-> of_user off user r = false)) as Hids.
  { intros r Hin. rewrite elem_of_ids_where. split.
    - intros Hn. apply not_true_iff_false. intros Ho. eauto.
    - intros Ho (r' & Hr' & Ho' & He).
      assert (r' = r) as -> by (apply (keys_ok_unique (keyentry s)); [by apply wf_keys|done..]). congruence. }
  split.
  - intros r. rewrite Hr. split; intros [Hin Hc]; (split; [done|]); rewrite <- ?Hids in * by done; done.
  - intros id (r & -> & Hin)%list_elem_of_fmap. apply Hv. by apply Hr in Hin as [_ ?].
Qed.

(** Clearing a user.  [unbind_keys_for_user] deletes exactly the live app
    keys of the user's uids and the user's super key, except, when told to
    keep keys that are not super encrypted, those with a key blob that is
    not; and whatever key stays loads as before. *)
Theorem unbind_user_exact off user keep s gc s' :
  db_wf s -> unbind_keys_for_user off user keep s = (Ok (gc, tt), s') ->
  (forall r, r ∈ keyentry s' <->
     r ∈ keyentry s /\ (of_user off user r = false \/ skipped keep s (k_id r) = true)) /\
  (forall id bits, id ∈ key_ids s' -> load_key_components bits id s' = load_key_components bits id s).
Proof.
  intros Hwf H. apply unbind_user_rows in H as [Hr Hv]; [|done]. split; [done|].
  intros id bits Hid. by apply same_view_load, Hv.
Qed.

(** The user's other super keys survive: a screen lock bound super key of
    the user (any super key but [USER_SUPER_KEY]) is still in the table after
    [unbind_keys_for_user], even when no key is to be kept. *)
Theorem screen_lock_super_key_survives off user s gc s' r :
  db_wf s -> unbind_keys_for_user off user false s = (Ok (gc, tt), s') ->
  r ∈ keyentry s -> k_type r = KeyType.Super -> k_alias r <> Some USER_SUPER_KEY_alias -> r ∈ keyentry s'.
Proof.
  intros Hwf H Hr Ht Ha. apply unbind_user_rows in H as [Hrows _]; [|done]. apply Hrows. split; [done|]. left.
  unfold of_user, col_eq. rewrite Ht, (bool_decide_eq_false_2 (k_alias r = _)) by done.
  rewrite andb_false_r. simpl. done.
Qed.

(** Clearing a namespace deletes exactly the client keys of that domain
    and namespace, with their parameters, metadata and grants; all other keys
    load as before, and all other grants stay. *)
Theorem unbind_namespace_exact d n s gc s' :
  db_wf s -> unbind_keys_for_namespace d n s = (Ok (gc, tt), s') ->
  gc = true /\
  (forall r, r ∈ keyentry s' <-> r ∈ keyentry s /\ in_namespace d n r = false) /\
  (forall id bits, id ∈ key_ids s' -> load_key_components bits id s' = load_key_components bits id s) /\
  (forall g, g ∈ grants s' <-> g ∈ grants s /\ g_key g ∈ key_ids s').
Proof.
  intros Hwf H. unfold unbind_keys_for_namespace in H. destruct (negb _); [done|].
  apply (proj1 (transaction_Ok _ _ _ _)) in H. apply sr_bind_Ok in H as ([] & s1 & H1 & H).
  rewrite delete_keys_where_purge in H1. unfold mret, sr_ret in H. simplify_eq. split; [done|].
  assert (forall id, id ∈ key_ids s -> (id ∈ key_ids (purge (in_namespace d n) s) <-> id ∉ ids_where (in_namespace d n) s)) as Hids.
  { intros id Hid. split; [|by apply purge_keeps].
    intros (r & -> & [Hr Hn]%elem_of_delete_where)%list_elem_of_fmap (r' & Hr' & Hn' & He)%elem_of_ids_where.
    assert (r' = r) as -> by (apply (keys_ok_unique (keyentry s)); [by apply wf_keys|done..]). congruence. }
  split; [intros r; apply elem_of_delete_where|]. split.
  - intros id bits Hid. apply same_view_load, purge_view, Hids; [|done].
    apply list_elem_of_fmap in Hid as (r & -> & [Hr _]%elem_of_delete_where). by apply list_elem_of_fmap_2.
  - intros g. simpl. rewrite elem_of_delete_where, bool_decide_eq_false.
    assert (g ∈ grants s -> g_key g ∈ key_ids s) as Hg.
    { intros Hg. pose proof (wf_grants _ Hwf) as Hf. rewrite Forall_forall in Hf.
      destruct (Hf g Hg) as (r & Hr & <- & _). by apply list_elem_of_fmap_2. }
    split; intros [Hin Hk]; (split; [done|]); apply Hids; auto.
Qed.

(** The attestation pool gives each client one key.  A successful
    assignment moves exactly one row: the signed, unassigned, live key of
    that KeyMint instance with the smallest id; the client had none before
    and has exactly that one afterwards. *)
Theorem assign_attestation_exact d n u s gc s' :
  db_wf s -> assign_attestation_key d n u s = (Ok (gc, tt), s') ->
  exists r, r ∈ keyentry s /\ assignable u r = true /\
    (forall r', r' ∈ keyentry s -> assignable u r' = true -> k_id r <= k_id r') /\
    (forall r', r' ∈ keyentry s -> assigned_to d n u r' = false) /\
    select_where (assigned_to d n u) (keyentry s') = [set_location (as_u32 d) n r] /\
    (forall r', r' ∈ keyentry s -> r' <> r -> r' ∈ keyentry s').
Proof.
  intros Hwf (_ & Hn & ->)%assign_attestation_Ok. unfold affected in Hn.
  destruct (select_where (assign_match d n u s) (keyentry s)) as [|r [|? ?]] eqn:Hsel; simpl in Hn; try lia.
  assert (r ∈ keyentry s /\ assign_match d n u s r = true) as [Hr Hm].
  { apply (elem_of_select_where (assign_match d n u s)). rewrite Hsel. left. }
  destruct (assign_match_spec d n u s r (wf_keys _ Hwf) Hr Hm) as (Ha & Hnone & Hmin).
  assert (forall r', r' ∈ keyentry s -> assign_match d n u s r' = true -> r' = r) as Honly.
  { intros r' Hr' Hm'. assert (r' ∈ [r]) as ->%list_elem_of_singleton; [|done].
    rewrite <- Hsel. by apply elem_of_select_where. }
  exists r. split; [done|]. split; [done|]. split; [done|]. split; [done|]. split.
  - apply (select_unique k_id); simpl.
    + rewrite (fmap_update_where k_id) by done. by apply wf_keys.
    + apply elem_of_update_where. exists r. by rewrite Hm.
    + apply assignable_true in Ha as (? & ? & ? & ? & ?). apply assigned_to_true. by split_and!.
    + intros y (y0 & Hy0 & ->)%elem_of_update_where Hy. destruct (assign_match d n u s y0) eqn:E.
      * by rewrite (Honly y0 Hy0 E).
      * by rewrite (Hnone y0 Hy0) in Hy.
  - intros r' Hr' Hne. simpl. apply elem_of_update_where. exists r'. split; [done|].
    destruct (assign_match d n u s r') eqn:E; [|done]. by apply Honly in E.
Qed.
End Bulk.

(** ** A database with a key of user 0, a screen lock bound super key of user 0
    and a signed attestation key. *)

#[local] Existing Instance aidl_published.

Definition demo_super : Tables :=
  snd (store_super_key [90] 0 "screen lock" [3; 3] demo_bm demo_md demo_db1).
Definition demo_att1 : Tables := snd (create_attestation_key_entry [91] [4] [5] [6] (repeat 7 16) demo_super).
Definition demo_att2 : Tables :=
  snd (store_signed_attestation_certificate_chain [5] [11] [12] 100 (repeat 7 16) demo_att1).

Lemma demo_super_wf : db_wf demo_super.
Proof.
  destruct (store_super_key [90] 0 "screen lock" [3; 3] demo_bm demo_md demo_db1) as [[x| |] s] eqn:E;
    [|vm_compute in E; discriminate E..].
  pose proof (store_super_key_wf _ _ _ _ _ _ _ _ _ demo_db1_wf E) as H. unfold demo_super. by rewrite E.
Qed.

Lemma demo_att1_wf : db_wf demo_att1.
Proof.
  destruct (create_attestation_key_entry [91] [4] [5] [6] (repeat 7 16) demo_super) as [[x| |] s] eqn:E;
    [|vm_compute in E; discriminate E..].
  pose proof (create_attestation_wf _ _ _ _ _ _ _ _ demo_super_wf E) as H. unfold demo_att1. by rewrite E.
Qed.

Lemma demo_att2_wf : db_wf demo_att2.
Proof.
  destruct (store_signed_attestation_certificate_chain [5] [11] [12] 100 (repeat 7 16) demo_att1) as [[x| |] s] eqn:E;
    [|vm_compute in E; discriminate E..].
  pose proof (store_signed_wf _ _ _ _ _ _ _ _ demo_att1_wf E) as H. unfold demo_att2. by rewrite E.
Qed.

Definition demo_cleared : Tables := snd (unbind_keys_for_user 100000 0 false demo_att2).

Lemma unbind_user_exact_witness : demo_row ∈ keyentry demo_att2 /\ ~ demo_row ∈ keyentry demo_cleared.
Proof.
  split; [vm_compute; left|]. intros H.
  apply (unbind_user_exact 100000 0 false demo_att2 true demo_cleared demo_att2_wf) in H as [_ [H|H]];
    [vm_compute in H; discriminate H|vm_compute in H; discriminate H|vm_compute; reflexivity].
Defined.

Lemma screen_lock_super_key_survives_witness :
  super_row 90 (val Domain.APP) 0 "screen lock" KEYSTORE_UUID ∈ keyentry demo_cleared.
Proof.
  apply (screen_lock_super_key_survives 100000 0 demo_att2 true demo_cleared _ demo_att2_wf).
  - vm_compute. reflexivity.
  - vm_compute. right. left.
  - reflexivity.
  - vm_compute. intros H. discriminate H.
Defined.

Lemma unbind_namespace_exact_witness :
  demo_row ∈ keyentry demo_att2 /\
  ~ demo_row ∈ keyentry (snd (unbind_keys_for_namespace (val Domain.APP) 1000 demo_att2)).
Proof.
  split; [vm_compute; left|]. intros H.
  apply (unbind_namespace_exact (val Domain.APP) 1000 demo_att2 true _ demo_att2_wf) in H as [_ H];
    [vm_compute in H; discriminate H|vm_compute; reflexivity].
Defined.

Lemma assign_attestation_exact_witness : exists r, r ∈ keyentry demo_att2 /\ assignable (repeat 7 16) r = true.
Proof.
  destruct (assign_attestation_exact (val Domain.APP) 1000 (repeat 7 16) demo_att2 false
    (snd (assign_attestation_key (val Domain.APP) 1000 (repeat 7 16) demo_att2)) demo_att2_wf) as (r & H1 & H2 & _).
  - vm_compute. reflexivity.
  - exists r. split; assumption.
Defined.
