(* ===== verification/Crypto.v ===== *)
(** * Crypto wrappers ([keystore2/src/crypto/lib.rs], [keystore2/src/ec_crypto.rs])

    The safe wrappers around the C functions of the crypto library, with the
    length checks they make, and the ECDH message encryption built on them.
    The C functions are the fields of the class [Boring]; its laws state what
    BoringSSL documents about them.  Random bytes come from a tape: a read
    that finds the tape too short is the generator's failure.  Allocation and
    [mlock] of a [ZVec] are taken to succeed. *)

From stdpp Require Import base list gmap strings.
From Stdlib Require Import ZArith Lia.
From S2P Require Import Prelude Aidl Errors BootLevelKeys.

Definition GCM_IV_LENGTH : nat := 12.
Definition TAG_LENGTH : nat := 16.
Definition AES_128_KEY_LENGTH : nat := 16.
Definition AES_256_KEY_BYTES : nat := 32.
Definition SALT_LENGTH : nat := 16.
Definition LEGACY_IV_LENGTH : nat := 16.
Definition EVP_MAX_MD_SIZE : nat := 64.
Definition EC_MAX_BYTES : nat := 32.
Definition EC_PRIVATE_LENGTH : nat := 73.
Definition EC_POINT_LENGTH : nat := 133.

Inductive CryptoError :=
| DecryptionFailed
| EncryptionFailed
| InvalidIvLength
| InvalidAeadTagLength
| InvalidKeyLength
| InvalidSaltLength
| RandomNumberGenerationFailed
| HKDFExtractFailed
| HKDFExpandFailed
| ECDHComputeKeyFailed
| ECKEYGenerateKeyFailed
| ECKEYMarshalPrivateKeyFailed
| ECKEYParsePrivateKeyFailed
| ECPoint2OctFailed.

Definition Tape : Type := list Z.

(** The C functions.  A buffer the caller allocates is the result; a [false]
    or null return is [None]. *)
Class Boring := {
  EC_KEY : Type;
  EC_POINT : Type;
  AES_gcm_encrypt : bytes -> bytes -> bytes -> option (bytes * bytes);
  AES_gcm_decrypt : bytes -> bytes -> bytes -> bytes -> option bytes;
  generateKeyFromPassword : nat -> bytes -> option bytes -> bytes;
  HKDFExtract : bytes -> bytes -> option bytes;
  HKDFExpand : nat -> bytes -> bytes -> option bytes;
  ECKEYGenerateKey : Tape -> option EC_KEY * Tape;
  ECKEYMarshalPrivateKey : EC_KEY -> bytes;
  ECKEYParsePrivateKey : bytes -> option EC_KEY;
  EC_KEY_get0_public_key : EC_KEY -> EC_POINT;
  ECPOINTPoint2Oct : EC_POINT -> option bytes;
  ECPOINTOct2Point : bytes -> option EC_POINT;
  ECDHComputeKey : EC_POINT -> EC_KEY -> option bytes;

  (* AES-GCM: the tag buffer is 16 bytes, and decryption inverts encryption. *)
  gcm_tag_length : forall p k iv c t, AES_gcm_encrypt p k iv = Some (c, t) -> length t = TAG_LENGTH;
  gcm_inverse : forall p k iv c t, AES_gcm_encrypt p k iv = Some (c, t) -> AES_gcm_decrypt c k iv t = Some p;
  (* PBKDF2 and HKDF-Expand fill the requested buffer. *)
  pbkdf_length : forall n pw salt, length (generateKeyFromPassword n pw salt) = n;
  expand_length : forall n prk info k, HKDFExpand n prk info = Some k -> length k = n;
  (* Serialisation of keys and points is read back. *)
  parse_marshal : forall k, ECKEYParsePrivateKey (ECKEYMarshalPrivateKey k) = Some k;
  oct_point : forall p b, ECPOINTPoint2Oct p = Some b -> ECPOINTOct2Point b = Some p;
  (* Diffie-Hellman: both sides compute the same secret. *)
  ecdh_agree : forall a b,
    ECDHComputeKey (EC_KEY_get0_public_key a) b = ECDHComputeKey (EC_KEY_get0_public_key b) a;
}.

Section Crypto.
Context `{BO : Boring}.

Definition rnd (A : Type) : Type := sr Tape CryptoError A.

(** [randomBytes(buf, size)]. *)
Definition randomBytes (size : nat) : rnd bytes := fun t =>
  if (size <=? length t)%nat then (Ok (take size t), drop size t)
  else (Err RandomNumberGenerationFailed, t).

Definition generate_aes256_key : rnd bytes := randomBytes AES_256_KEY_BYTES.
Definition generate_random_data (size : nat) : rnd bytes := randomBytes size.
Definition generate_salt : rnd bytes := generate_random_data SALT_LENGTH.

Definition aes_key_length_ok (key : bytes) : bool :=
  (length key =? AES_128_KEY_LENGTH)%nat || (length key =? AES_256_KEY_BYTES)%nat.

Definition aes_gcm_decrypt (data iv tag key : bytes) : result CryptoError bytes :=
  iv ← (if (length iv =? GCM_IV_LENGTH)%nat then Ok iv
        else if (length iv =? LEGACY_IV_LENGTH)%nat then Ok (take GCM_IV_LENGTH iv)
        else Err InvalidIvLength);
  if negb (length tag =? TAG_LENGTH)%nat then Err InvalidAeadTagLength
  else if negb (aes_key_length_ok key) then Err InvalidKeyLength
  else ok_or (AES_gcm_decrypt data key iv tag) DecryptionFailed.

(** Returns [(ciphertext, iv, tag)]. *)
Definition aes_gcm_encrypt (plaintext key : bytes) : rnd (bytes * bytes * bytes) :=
  iv ← randomBytes GCM_IV_LENGTH;
  if negb (aes_key_length_ok key) then throw InvalidKeyLength
  else
    '(ciphertext, tag) ← lift (ok_or (AES_gcm_encrypt plaintext key iv) EncryptionFailed);
    mret (ciphertext, iv, tag).

(** [Password::derive_key]; a password is its bytes. *)
Definition derive_key (pw : bytes) (salt : option bytes) (key_length : nat) : result CryptoError bytes :=
  salt ← (match salt with
          | Some s => if negb (length s =? SALT_LENGTH)%nat then Err InvalidSaltLength else Ok (Some s)
          | None => Ok None
          end);
  if negb ((key_length =? AES_128_KEY_LENGTH)%nat || (key_length =? AES_256_KEY_BYTES)%nat)
  then Err InvalidKeyLength
  else Ok (generateKeyFromPassword key_length pw salt).

Definition hkdf_extract (secret salt : bytes) : result CryptoError bytes :=
  buf ← ok_or (HKDFExtract secret salt) HKDFExtractFailed;
  if (EVP_MAX_MD_SIZE <? length buf)%nat then Err HKDFExtractFailed else Ok buf.

Definition hkdf_expand (out_len : nat) (prk info : bytes) : result CryptoError bytes :=
  ok_or (HKDFExpand out_len prk info) HKDFExpandFailed.

Definition ecdh_compute_key (pub_key : EC_POINT) (priv_key : EC_KEY) : result CryptoError bytes :=
  buf ← ok_or (ECDHComputeKey pub_key priv_key) ECDHComputeKeyFailed;
  if (EC_MAX_BYTES <? length buf)%nat then Err ECDHComputeKeyFailed else Ok buf.

Definition ec_key_generate_key : rnd EC_KEY := fun t =>
  let '(k, t') := ECKEYGenerateKey t in (ok_or k ECKEYGenerateKeyFailed, t').

Definition ec_key_marshal_private_key (key : EC_KEY) : result CryptoError bytes :=
  let buf := ECKEYMarshalPrivateKey key in
  if (length buf =? EC_PRIVATE_LENGTH)%nat then Ok buf else Err ECKEYMarshalPrivateKeyFailed.

Definition ec_key_parse_private_key (buf : bytes) : result CryptoError EC_KEY :=
  ok_or (ECKEYParsePrivateKey buf) ECKEYParsePrivateKeyFailed.

Definition ec_point_point_to_oct (point : EC_POINT) : result CryptoError bytes :=
  match ECPOINTPoint2Oct point with
  | None | Some [] => Err ECPoint2OctFailed
  | Some buf => if (EC_POINT_LENGTH <? length buf)%nat then Err ECPoint2OctFailed else Ok buf
  end.

Definition ec_point_oct_to_point (buf : bytes) : result CryptoError EC_POINT :=
  ok_or (ECPOINTOct2Point buf) ECPoint2OctFailed.

(** ** [ECDHPrivateKey] *)

Definition generate : rnd EC_KEY := ec_key_generate_key.
Definition from_private_key (buf : bytes) : result CryptoError EC_KEY := ec_key_parse_private_key buf.
Definition private_key (k : EC_KEY) : result CryptoError bytes := ec_key_marshal_private_key k.
Definition public_key (k : EC_KEY) : result CryptoError bytes :=
  ec_point_point_to_oct (EC_KEY_get0_public_key k).

Definition AES_INFO : bytes := bytes_of_string "AES-256-GCM key".

Definition agree_key (k : EC_KEY) (salt other_public_key sender_public_key recipient_public_key : bytes)
    : result CryptoError bytes :=
  hkdf ← hkdf_extract sender_public_key salt;
  hkdf ← hkdf_extract recipient_public_key hkdf;
  other_public_key ← ec_point_oct_to_point other_public_key;
  secret ← ecdh_compute_key other_public_key k;
  prk ← hkdf_extract secret hkdf;
  hkdf_expand AES_256_KEY_BYTES prk AES_INFO.

(** Returns [(sender_public_key, salt, iv, ciphertext, tag)]. *)
Definition encrypt_message (recipient_public_key message : bytes)
    : rnd (bytes * bytes * bytes * bytes * bytes) :=
  sender_key ← generate;
  sender_public_key ← lift (public_key sender_key);
  salt ← generate_salt;
  aes_key ← lift (agree_key sender_key salt recipient_public_key sender_public_key recipient_public_key);
  '(ciphertext, iv, tag) ← aes_gcm_encrypt message aes_key;
  mret (sender_public_key, salt, iv, ciphertext, tag).

Definition decrypt_message (k : EC_KEY) (sender_public_key salt iv ciphertext tag : bytes)
    : result CryptoError bytes :=
  recipient_public_key ← public_key k;
  aes_key ← agree_key k salt sender_public_key sender_public_key recipient_public_key;
  aes_gcm_decrypt ciphertext iv tag aes_key.

(** ** Lemmas *)

Lemma randomBytes_Ok n t b t' :
  randomBytes n t = (Ok b, t') -> length b = n /\ t = b ++ t'.
Proof.
  unfold randomBytes. destruct (Nat.leb_spec n (length t)); intros; simplify_eq.
  rewrite length_take, take_drop. split; [lia|done].
Qed.

Lemma public_key_point k b : public_key k = Ok b -> ec_point_oct_to_point b = Ok (EC_KEY_get0_public_key k).
Proof.
  unfold public_key, ec_point_point_to_oct, ec_point_oct_to_point. intros H.
  destruct (ECPOINTPoint2Oct _) as [[|x l]|] eqn:E; try done. case_match; simplify_eq.
  by rewrite (oct_point _ _ E).
Qed.

Lemma aes_inverse p k t c iv tag t' :
  aes_gcm_encrypt p k t = (Ok (c, iv, tag), t') ->
  aes_key_length_ok k = true /\ length iv = GCM_IV_LENGTH /\ aes_gcm_decrypt c iv tag k = Ok p.
Proof.
  unfold aes_gcm_encrypt. rewrite sr_bind_Ok. intros (iv0 & t1 & [Hl _]%randomBytes_Ok & H).
  destruct (aes_key_length_ok k) eqn:Hk; [|done]. simpl in H. apply sr_bind_Ok in H as ([c0 tag0] & t2 & H1 & H2).
  unfold lift in H1. injection H1 as H1 <-. apply ok_or_Ok in H1. unfold mret, sr_ret in H2. simplify_eq.
  split; [done|]. split; [done|]. unfold aes_gcm_decrypt. rewrite Hl, Nat.eqb_refl. simpl.
  rewrite (gcm_tag_length _ _ _ _ _ H1), Nat.eqb_refl, Hk. simpl. by rewrite (gcm_inverse _ _ _ _ _ H1).
Qed.

(** Sender and recipient agree on the key. *)
Lemma agree_key_symmetric a b pa pb salt :
  public_key a = Ok pa -> public_key b = Ok pb ->
  agree_key a salt pb pa pb = agree_key b salt pa pa pb.
Proof.
  intros Ha%public_key_point Hb%public_key_point. unfold agree_key. rewrite Ha, Hb. simpl.
  unfold ecdh_compute_key. by rewrite ecdh_agree.
Qed.

Lemma from_marshalled k sk : private_key k = Ok sk -> from_private_key sk = Ok k.
Proof.
  unfold private_key, ec_key_marshal_private_key. case_match; intros; simplify_eq.
  unfold from_private_key, ec_key_parse_private_key. by rewrite parse_marshal.
Qed.

Lemma ecdh_decrypt k pk m t spk salt iv c tag t' :
  public_key k = Ok pk -> encrypt_message pk m t = (Ok (spk, salt, iv, c, tag), t') ->
  decrypt_message k spk salt iv c tag = Ok m.
Proof.
  intros Hpk H. unfold encrypt_message in H. apply sr_bind_Ok in H as (a & t1 & _ & H).
  apply sr_bind_Ok in H as (pa & t2 & Hpa & H). unfold lift in Hpa. injection Hpa as Hpa <-.
  apply sr_bind_Ok in H as (sa & t3 & _ & H). apply sr_bind_Ok in H as (key & t4 & Hkey & H).
  unfold lift in Hkey. injection Hkey as Hkey <-. apply sr_bind_Ok in H as ([[c0 iv0] tag0] & t5 & He & H).
  unfold mret, sr_ret in H. simplify_eq. unfold decrypt_message. rewrite Hpk. simpl.
  rewrite <- (agree_key_symmetric a k spk pk), Hkey by done. simpl. by apply aes_inverse in He as (_ & _ & ?).
Qed.

(** Encryption to a public key is undone by the private key: whatever
    [encrypt_message] produces for the public key of [k] (also after [k] was
    written out and read back), [decrypt_message] turns back into the
    message. *)
Theorem ecdh_message_roundtrip k pk m t spk salt iv c tag t' sk k' :
  public_key k = Ok pk -> encrypt_message pk m t = (Ok (spk, salt, iv, c, tag), t') ->
  private_key k = Ok sk -> from_private_key sk = Ok k' ->
  decrypt_message k' spk salt iv c tag = Ok m.
Proof.
  intros Hpk He Hsk Hk'. rewrite (from_marshalled _ _ Hsk) in Hk'. injection Hk' as <-. by eapply ecdh_decrypt.
Qed.

(** Authenticated encryption is a round trip, and older blobs stay
    readable: a message encrypted with a key is decrypted with it, also when
    its initialisation vector was stored with four extra bytes at the end. *)
Theorem aes_gcm_roundtrip p k t c iv tag t' pad :
  aes_gcm_encrypt p k t = (Ok (c, iv, tag), t') -> length pad = 4%nat ->
  aes_gcm_decrypt c iv tag k = Ok p /\ aes_gcm_decrypt c (iv ++ pad) tag k = Ok p.
Proof.
  intros (_ & Hl & H)%aes_inverse Hp. split; [done|]. unfold aes_gcm_decrypt in *.
  rewrite length_app, Hp, Hl in *. simpl in *.
  rewrite take_app_le, take_ge by (rewrite Hl; done). done.
Qed.
End Crypto.

(** ** A toy library that has the laws *)

Definition toy_boring : Boring.
Proof.
  refine {|
    EC_KEY := Z; EC_POINT := Z;
    AES_gcm_encrypt p k iv := Some (Z.add 1 <$> p, repeat 0 16);
    AES_gcm_decrypt c k iv t := Some (Z.add (-1) <$> c);
    generateKeyFromPassword n pw salt := repeat (foldr Z.add 0 pw) n;
    HKDFExtract secret salt := Some (take 32 secret);
    HKDFExpand n prk info := Some (repeat (foldr Z.add 0 prk) n);
    ECKEYGenerateKey t := match t with [] => (None, []) | k :: t => (Some k, t) end;
    ECKEYMarshalPrivateKey k := k :: repeat 0 72;
    ECKEYParsePrivateKey b := head b;
    EC_KEY_get0_public_key k := k;
    ECPOINTPoint2Oct p := Some [p];
    ECPOINTOct2Point b := head b;
    ECDHComputeKey p k := Some [p * k]
  |}.
  - intros. by simplify_eq.
  - intros p k iv c t H. simplify_eq. rewrite <- list_fmap_compose. f_equal.
    rewrite <- (list_fmap_id p) at 2. apply list_fmap_ext. intros. simpl. lia.
  - intros. by rewrite repeat_length.
  - intros. simplify_eq. by rewrite repeat_length.
  - done.
  - intros. by simplify_eq.
  - intros. by rewrite Z.mul_comm.
Defined.

#[local] Existing Instance toy_boring.

Definition toy_tape : Tape := [5] ++ repeat 6 16 ++ repeat 8 12.

Lemma ecdh_message_roundtrip_witness :
  decrypt_message (3 : @EC_KEY toy_boring) [5] (repeat 6 16) (repeat 8 12) [2; 3] (repeat 0 16) = Ok [1; 2].
Proof.
  apply (ecdh_message_roundtrip (3 : @EC_KEY toy_boring) [3] [1; 2] toy_tape [5] (repeat 6 16) (repeat 8 12) [2; 3] (repeat 0 16) []
    (3 :: repeat 0 72)); reflexivity.
Defined.

Lemma aes_gcm_roundtrip_witness :
  aes_gcm_decrypt [2; 3] (repeat 6 12 ++ repeat 0 4) (repeat 0 16) (repeat 9 32) = Ok [1; 2].
Proof.
  apply (aes_gcm_roundtrip [1; 2] (repeat 9 32) (repeat 6 12) [2; 3] (repeat 6 12) (repeat 0 16) [] (repeat 0 4)); reflexivity.
Defined.
