(* ===== verification/RawDevice.v ===== *)
(** * Direct use of a KeyMint device ([keystore2/src/raw_device.rs])

    [KeyMintDevice]: the keys Keystore creates for itself.  The device is the
    class [KeyMint], a state machine behind binder; a [World] is what such a
    call can change: the database, the device, and whether a garbage
    collection was asked for.  The types of super keys and key blobs
    ([super_key.rs]) are here because both files use them. *)

From stdpp Require Import base list gmap strings.
From Stdlib Require Import ZArith Lia.
From S2P Require Import Prelude Aidl Errors Sql KeyParameter DbTypes Database DbInvariant DbKeys Crypto.

(** ** Super keys and key blobs *)

Inductive SuperEncryptionAlgorithm := Aes256Gcm | EcdhP521.
#[global] Instance SuperEncryptionAlgorithm_eq_dec : EqDecision SuperEncryptionAlgorithm.
Proof. solve_decision. Defined.

Inductive SuperKeyIdentifier :=
| DatabaseId (id : Z)
| BootLevelId (level : Z).
#[global] Instance SuperKeyIdentifier_eq_dec : EqDecision SuperKeyIdentifier.
Proof. solve_decision. Defined.

(** An [Arc<SuperKey>]: [sk_addr] is the identity of the shared object, which
    weak references are about. *)
Inductive SuperKey :=
| MkSuperKey (addr : nat) (alg : SuperEncryptionAlgorithm) (k : bytes) (i : SuperKeyIdentifier)
    (re : option SuperKey).

Definition sk_addr (k : SuperKey) : nat := let 'MkSuperKey a _ _ _ _ := k in a.
Definition sk_algorithm (k : SuperKey) : SuperEncryptionAlgorithm := let 'MkSuperKey _ a _ _ _ := k in a.
Definition sk_key (k : SuperKey) : bytes := let 'MkSuperKey _ _ b _ _ := k in b.
Definition sk_id (k : SuperKey) : SuperKeyIdentifier := let 'MkSuperKey _ _ _ i _ := k in i.
Definition sk_reencrypt_with (k : SuperKey) : option SuperKey := let 'MkSuperKey _ _ _ _ r := k in r.

Inductive KeyBlob :=
| Sensitive (key : bytes) (reencrypt_with : SuperKey) (force_reencrypt : bool)
| NonSensitive (key : bytes)
| Ref (key : bytes).

(** [KeyBlob::force_reencrypt] and [Deref]. *)
Definition force_reencrypt_of (b : KeyBlob) : bool :=
  match b with Sensitive _ _ f => f | _ => false end.
Definition deref (b : KeyBlob) : bytes :=
  match b with Sensitive k _ _ => k | NonSensitive k => k | Ref k => k end.

(** ** The device *)

Record KeyCharacteristics := {
  kc_level : Z;
  kc_authorizations : list KmKeyParameter
}.
Record KeyCreationResult := {
  cr_blob : bytes;
  cr_characteristics : list KeyCharacteristics;
  cr_certificates : list bytes
}.
Record AttestationKey := {
  ak_blob : bytes;
  ak_params : list KmKeyParameter;
  ak_issuer : bytes
}.
Record BeginResult := {
  br_challenge : Z;
  br_params : list KmKeyParameter;
  br_operation : option Z
}.

Class KeyMint (K : Type) := {
  km_generateKey : list KmKeyParameter -> option AttestationKey -> sr K BinderStatus KeyCreationResult;
  km_importKey : list KmKeyParameter -> Z -> bytes -> option AttestationKey -> sr K BinderStatus KeyCreationResult;
  km_importWrappedKey : bytes -> bytes -> bytes -> list KmKeyParameter -> Z -> Z -> sr K BinderStatus KeyCreationResult;
  km_upgradeKey : bytes -> list KmKeyParameter -> sr K BinderStatus bytes;
  km_deleteKey : bytes -> sr K BinderStatus unit;
  km_convertStorageKeyToEphemeral : bytes -> sr K BinderStatus bytes;
  km_getKeyCharacteristics : bytes -> sr K BinderStatus (list KeyCharacteristics);
  km_begin : Z -> bytes -> list KmKeyParameter -> option HardwareAuthToken -> sr K BinderStatus BeginResult;
  km_finish : Z -> bytes -> sr K BinderStatus bytes
}.

Record World (K : Type) := {
  w_db : Tables;
  w_km : K;
  w_gc : bool
}.
Arguments w_db {K}.
Arguments w_km {K}.
Arguments w_gc {K}.

Section Device.
Context {AI : Aidl} {K : Type} `{KMI : !KeyMint K}.

Abbreviation M := (sr (World K) AnyError).

Definition set_db (s : Tables) (w : World K) : World K := {| w_db := s; w_km := w_km w; w_gc := w_gc w |}.
Definition set_km (k : K) (w : World K) : World K := {| w_db := w_db w; w_km := k; w_gc := w_gc w |}.

(** [with_transaction] of a database call: [need_gc] notifies the collector. *)
Definition with_db {A} (m : sr Tables AnyError (bool * A)) : M A := fun w =>
  match m (w_db w) with
  | (Ok (gc, a), s) => (Ok a, {| w_db := s; w_km := w_km w; w_gc := w_gc w || gc |})
  | (Err e, s) => (Err e, set_db s w)
  | (Panic, s) => (Panic, set_db s w)
  end.

(** A call to KeyMint whose status goes through [map_km_error]. *)
Definition with_km {A} (m : sr K BinderStatus A) : sr (World K) Error A := fun w =>
  let '(r, k) := m (w_km w) in (map_km_error r, set_km k w).

Definition any {A} (m : sr (World K) Error A) : M A := sr_map_err KsError m.

Definition key_characteristics_to_internal (l : list KeyCharacteristics) : list KeyParameter :=
  mjoin ((fun c => (fun kp => {| kp_value := from_km kp; security_level := kc_level c |})
                     <$> kc_authorizations c) <$> l).

(** [KeyMintDevice] of one uuid; [AID_KEYSTORE] is Keystore's own uid; [now]
    is the result of [DateTime::now()]. *)
Variable km_uuid : Uuid.
Variable AID_KEYSTORE : Z.
Variable now : result AnyError Z.

Definition internal_descriptor (al : string) : KeyDescriptor :=
  {| domain := val Domain.APP; nspace := AID_KEYSTORE; alias := Some al; blob := None |}.

Definition create_and_store_key (draws : list Z) (key_desc : KeyDescriptor) (key_type : KeyType.t)
    (creator : sr K BinderStatus KeyCreationResult) : M unit :=
  creation_result ← any (with_km creator);
  creation_date ← lift now;
  _ ← with_db (store_new_key draws key_desc key_type
        (key_characteristics_to_internal (cr_characteristics creation_result))
        (cr_blob creation_result, meta_add (KmUuid km_uuid) ∅)
        {| cert := None; cert_chain := None |} (meta_add (CreationDate creation_date) ∅) km_uuid);
  mret tt.

(** The permission check of internal keys always passes; the key id lock is
    free, since the caller holds the lock that serialises these calls. *)
Definition lookup_from_desc (key_desc : KeyDescriptor) (key_type : KeyType.t) : M (Z * KeyEntry) := fun w =>
  (load_key_entry key_desc key_type LoadBits.KM AID_KEYSTORE (fun _ _ => Ok tt) true (w_db w) (w_db w), w).

Definition not_found_is_none {A} (m : M A) : M (option A) := fun w =>
  match m w with
  | (Ok a, w') => (Ok (Some a), w')
  | (Err (KsError (Rc c)), w') =>
    if c =? val ResponseCode.KEY_NOT_FOUND then (Ok None, w') else (Err (KsError (Rc c)), w')
  | (Err e, w') => (Err e, w')
  | (Panic, w') => (Panic, w')
  end.

Definition upgrade_keyblob_if_required_with {A} (key_id : Z) (key_blob : KeyBlob)
    (f : bytes -> sr (World K) Error A) : M (A * KeyBlob) := fun w =>
  match f (deref key_blob) w with
  | (Ok a, w') => (Ok (a, key_blob), w')
  | (Panic, w') => (Panic, w')
  | (Err e, w') =>
    if bool_decide (e = Km (val ErrorCode.KEY_REQUIRES_UPGRADE)) then
      (upgraded ← any (with_km (km_upgradeKey (deref key_blob) []));
       _ ← with_db (set_blob key_id SubComponentType.KEY_BLOB (Some upgraded)
                      (Some (meta_add (KmUuid km_uuid) ∅)));
       a ← any (f upgraded);
       mret (a, NonSensitive upgraded)) w'
    else (Err (KsError e), w')
  end.

Definition km_uuid_of (m : BlobMetaData) : option Uuid :=
  match m !! BlobMetaTag.KmUuid with Some (KmUuid u) => Some u | _ => None end.

(** The usable blob of an entry: one that belongs to this device. *)
Definition own_blob (e : KeyEntry) : option bytes :=
  match ke_key_blob_info e with
  | Some (b, m) => if bool_decide (km_uuid_of m = Some km_uuid) then Some b else None
  | None => None
  end.

Definition generate_and_lookup (draws : list Z) (key_desc : KeyDescriptor) (key_type : KeyType.t)
    (params : list KmKeyParameter) : M (Z * KeyBlob) :=
  _ ← create_and_store_key draws key_desc key_type (km_generateKey params None);
  '(key_id, e) ← lookup_from_desc key_desc key_type;
  '(b, _) ← lift (ok_or (ke_key_blob_info e) (err_rc ResponseCode.KEY_NOT_FOUND));
  mret (key_id, NonSensitive b).

Definition lookup_or_generate_key (draws : list Z) (key_desc : KeyDescriptor) (key_type : KeyType.t)
    (params : list KmKeyParameter) (validate_characteristics : list KeyCharacteristics -> bool)
    : M (Z * KeyBlob) :=
  found ← not_found_is_none (lookup_from_desc key_desc key_type);
  reuse ← match found with
          | None => mret None
          | Some (key_id, e) =>
            match own_blob e with
            | None => mret None
            | Some b =>
              '(chars, b') ← upgrade_keyblob_if_required_with key_id (NonSensitive b)
                               (fun b => with_km (km_getKeyCharacteristics b));
              mret (if validate_characteristics chars then Some (key_id, b') else None)
            end
          end;
  match reuse with
  | Some r => mret r
  | None => generate_and_lookup draws key_desc key_type params
  end.

Definition use_key_in_one_step (key_id : Z) (key_blob : bytes) (purpose : Z)
    (operation_parameters : list KmKeyParameter) (auth_token : option HardwareAuthToken) (input : bytes)
    : M bytes :=
  '(begin_result, _) ← upgrade_keyblob_if_required_with key_id (Ref key_blob)
      (fun b => with_km (km_begin purpose b operation_parameters auth_token));
  operation ← lift (ok_or (br_operation begin_result) (KsError sys));
  any (with_km (km_finish operation input)).
End Device.


(** ** The blobs of a key after its blob was replaced *)

Section Persist.
Context {AI : Aidl}.

Definition is_key_blob (r : BlobRow) : bool := b_type r =? SubComponentType.KEY_BLOB.

Lemma forallb_app_one {A} (p : A -> bool) l x : forallb p (l ++ [x]) = forallb p l && p x.
Proof. rewrite forallb_app. simpl. by rewrite andb_true_r. Qed.

Lemma select_where_select {A} (p q : A -> bool) l :
  select_where p (select_where q l) = select_where (fun x => p x && q x) l.
Proof.
  unfold select_where. rewrite list_filter_filter. apply list_filter_iff. intros x. by rewrite andb_true_iff.
Qed.

(** The new blob takes the place of the old one of its type; the others stay. *)
Lemma latest_after_add key_id t b s :
  latest_blobs key_id (add_blob key_id t b s)
  = select_where (fun r => negb (b_type r =? t)) (latest_blobs key_id s) ++ [blob_row (next_blob_id s) t key_id b].
Proof.
  unfold latest_blobs, add_blob. simpl. fold (blob_row (next_blob_id s) t key_id b).
  set (new := blob_row _ _ _ _). rewrite select_where_app.
  rewrite (select_where_all _ [new]) by (intros x ->%list_elem_of_singleton; apply Z.eqb_refl).
  set (mine := select_where _ (blobentry s)). rewrite select_where_app.
  assert (forall r, r ∈ mine -> b_id r < next_blob_id s) as Hlt.
  { intros r [Hr _]%elem_of_select_where. apply max_blob_bound in Hr. unfold next_blob_id. lia. }
  f_equal.
  - rewrite select_where_select. apply select_where_ext. intros r Hr. rewrite forallb_app_one, andb_comm.
    f_equal. rewrite (Z.eqb_sym (b_type r)). change (b_type new) with t.
    destruct (t =? b_type r); [|done]. simpl. apply Z.leb_gt, Hlt, Hr.
  - apply select_where_all. intros x ->%list_elem_of_singleton. apply forallb_forall.
    intros r [Hr| ->%list_elem_of_singleton]%list_elem_of_In%elem_of_app; apply orb_true_iff; right; apply Z.leb_le.
    + apply Z.lt_le_incl, Hlt, Hr.
    + done.
Qed.

Definition same_certs (a a' : Blobs) : Prop :=
  cert_blob a' = cert_blob a /\ cert_chain_blob a' = cert_chain_blob a.

Lemma extract_without_key_blob bits (l : list BlobRow) a0 a0' a :
  try_fold (extract_blob bits) a0 l = Ok a -> same_certs a0 a0' ->
  exists a', try_fold (extract_blob bits) a0' (select_where (fun r => negb (is_key_blob r)) l) = Ok a'
    /\ same_certs a a'.
Proof.
  revert a0 a0'. induction l as [|x l IH]; intros a0 a0' H Hs; simpl in H; [simplify_eq; eauto|].
  apply bind_Ok in H as (a1 & H1 & H2). unfold select_where in *.
  destruct Hs as [Hc Hch]. destruct (is_key_blob x) eqn:Ek.
  - rewrite filter_cons_False by (rewrite Ek; intros [=]). unfold is_key_blob in Ek. apply (IH a1); [done|]. 
    apply Z.eqb_eq in Ek. unfold extract_blob in H1. rewrite Ek in H1. simpl in H1.
    destruct (LoadBits.load_km bits); simplify_eq; done.
  - rewrite filter_cons_True by (by rewrite Ek). unfold is_key_blob in Ek. simpl.
    assert (exists a1', extract_blob bits a0' x = Ok a1' /\ same_certs a1 a1') as (a1' & -> & Hs1).
    { unfold extract_blob in *. rewrite Ek in *. simpl in *.
      repeat case_in H1; simplify_eq; eexists; (split; [done|]); unfold same_certs; simpl; by rewrite ?Hc, ?Hch. }
    simpl. by apply (IH a1).
Qed.

Lemma try_fold_app_Ok {E A S} (f : S -> A -> result E S) l1 l2 s s1 :
  try_fold f s l1 = Ok s1 -> try_fold f s (l1 ++ l2) = try_fold f s1 l2.
Proof.
  revert s. induction l1 as [|x l1 IH]; intros s; simpl; [by intros; simplify_eq|].
  intros (s2 & -> & H)%bind_Ok. simpl. by apply IH.
Qed.

Lemma load_after_upgrade key_id bits up m s s' has kb c cc :
  db_wf s -> meta_data_wf m -> LoadBits.load_km bits = true ->
  set_blob_internal key_id SubComponentType.KEY_BLOB (Some up) (Some m) s = (Ok tt, s') ->
  load_blob_components key_id bits s = Ok (has, kb, c, cc) ->
  load_blob_components key_id bits s' = Ok (true, Some (up, m), c, cc).
Proof.
  intros Hwf Hm Hb (_ & _ & _ & _ & B & BM)%set_blob_internal_Ok H.
  unfold load_blob_components in *. apply bind_Ok in H as (a & Ha & H).
  apply bind_Ok in H as (info & _ & H). simplify_eq.
  assert (latest_blobs key_id s' = latest_blobs key_id (add_blob key_id SubComponentType.KEY_BLOB up s)) as ->
    by (unfold latest_blobs; by rewrite B).
  rewrite latest_after_add.
  destruct (extract_without_key_blob bits _ no_blobs no_blobs a Ha ltac:(done)) as (a' & Ha' & Hc & Hcc).
  rewrite (try_fold_app_Ok _ _ _ _ a') by done. simpl. unfold extract_blob at 1.
  simpl. rewrite Hb. simpl. rewrite BM, meta_load_store; [|done|by apply next_blob_no_meta].
  simpl. by rewrite orb_true_r, Hc, Hcc.
Qed.
End Persist.

Section DeviceSpec.
Context {AI : Aidl} {K : Type} `{KMI : !KeyMint K}.

(** A call that reaches nothing but the device. *)
Definition km_only {A} (f : bytes -> sr (World K) Error A) : Prop :=
  forall b v, exists k, (f b v).2 = set_km k v.

Lemma with_km_only {A} (m : bytes -> sr K BinderStatus A) : km_only (fun b => with_km (m b)).
Proof. intros b v. unfold with_km. destruct (m b (w_km v)) as [r k]. by exists k. Qed.

Lemma any_Ok {A} (m : sr (World K) Error A) w a w' : any m w = (Ok a, w') -> m w = (Ok a, w').
Proof. unfold any, sr_map_err. destruct (m w) as [[]]; simpl; intros; by simplify_eq. Qed.

Lemma set_blob_world key_id up m (w w' : World K) :
  with_db (set_blob key_id SubComponentType.KEY_BLOB (Some up) (Some m)) w = (Ok tt, w') ->
  w_gc w' = true /\
  set_blob_internal key_id SubComponentType.KEY_BLOB (Some up) (Some m) (w_db w) = (Ok tt, w_db w').
Proof.
  unfold with_db, set_blob. destruct (transaction _ _) as [[[gc []]| |] s] eqn:E; intros H; simplify_eq.
  rewrite transaction_Ok in E. apply sr_bind_Ok in E as ([] & s1 & E1 & E). unfold mret, sr_ret in E. simplify_eq. simpl.
  by rewrite orb_true_r.
Qed.

(** An upgraded key blob is never lost.  When a call on a key blob succeeds,
    the call was made with the blob that is returned, and either the blob
    needed no upgrade and the database was not touched, or the upgraded blob
    was stored first: from then on the key loads with that blob, marked as
    belonging to this device, with the certificates it had, and the garbage
    collector was told about the superseded one. *)
Theorem upgraded_blob_is_persisted {A} km_uuid key_id kb (f : bytes -> sr (World K) Error A) w a b' w' :
  km_only f -> db_wf (w_db w) -> length km_uuid = 16%nat ->
  upgrade_keyblob_if_required_with km_uuid key_id kb f w = (Ok (a, b'), w') ->
  (exists v, f (deref b') v = (Ok a, w')) /\
  (b' = kb /\ w_db w' = w_db w \/
   exists up, b' = NonSensitive up /\ w_gc w' = true /\
     forall bits has old c cc, LoadBits.load_km bits = true ->
       load_blob_components key_id bits (w_db w) = Ok (has, old, c, cc) ->
       load_blob_components key_id bits (w_db w') = Ok (true, Some (up, meta_add (KmUuid km_uuid) ∅), c, cc)).
Proof.
  intros Hf Hwf Hu. assert (meta_data_wf (meta_add (KmUuid km_uuid) ∅)) as Hm by (by apply meta_add_wf).
  unfold upgrade_keyblob_if_required_with.
  destruct (Hf (deref kb) w) as [k0 Hk0]. destruct (f (deref kb) w) as [[a0|e|] w0] eqn:E0; simpl in Hk0; subst w0; [|case_bool_decide|done].
  - intros; simplify_eq. split; [by exists w|]. by left.
  - intros Hr. apply sr_bind_Ok in Hr as (up & w1 & H1%any_Ok & Hr). apply sr_bind_Ok in Hr as ([] & w2 & H2 & Hr).
    apply sr_bind_Ok in Hr as (a1 & w3 & H3%any_Ok & Hr). unfold mret, sr_ret in Hr. simplify_eq.
    unfold with_km in H1. destruct (km_upgradeKey _ _ _) as [r k1]. simplify_eq.
    apply set_blob_world in H2 as [Hgc Hs]. split; [by exists w2|]. right. exists up. split; [done|].
    destruct (Hf up w2) as [k3 Hk3]. rewrite H3 in Hk3. simpl in Hk3. subst w'. split; [done|].
    intros bits has old c cc Hb Hl. by eapply load_after_upgrade.
  - done.
Qed.
End DeviceSpec.

(** A device that was updated: it wants the blob [[1]] upgraded. *)
Definition stale_km {AI : Aidl} : KeyMint unit := {|
  km_generateKey := fun _ _ k => (Ok {| cr_blob := [1]; cr_characteristics := []; cr_certificates := [] |}, k);
  km_importKey := fun _ _ b _ k => (Ok {| cr_blob := b; cr_characteristics := []; cr_certificates := [] |}, k);
  km_importWrappedKey := fun b _ _ _ _ _ k => (Ok {| cr_blob := b; cr_characteristics := []; cr_certificates := [] |}, k);
  km_upgradeKey := fun b _ k => (Ok (b ++ [0]), k);
  km_deleteKey := fun _ k => (Ok tt, k);
  km_convertStorageKeyToEphemeral := fun b k => (Ok b, k);
  km_getKeyCharacteristics := fun b k =>
    (if bool_decide (b = [1]) then Err (new_service_specific_error (val ErrorCode.KEY_REQUIRES_UPGRADE)) else Ok [], k);
  km_begin := fun _ _ _ _ k => (Ok {| br_challenge := 0; br_params := []; br_operation := Some 1 |}, k);
  km_finish := fun _ i k => (Ok i, k)
|}.

#[local] Existing Instances aidl_published stale_km.

Definition stale_world : World unit :=
  {| w_db := add_blob 7 SubComponentType.KEY_BLOB [1] empty_tables; w_km := tt; w_gc := false |}.

Definition stale_call : result AnyError (list KeyCharacteristics * KeyBlob) * World unit :=
  upgrade_keyblob_if_required_with (repeat 5 16) 7 (NonSensitive [1])
    (fun b => with_km (km_getKeyCharacteristics b)) stale_world.

Lemma upgraded_blob_is_persisted_witness :
  stale_call.1 = Ok ([], NonSensitive [1; 0]) /\
  load_blob_components 7 LoadBits.KM (w_db stale_call.2)
    = Ok (true, Some ([1; 0], meta_add (KmUuid (repeat 5 16)) ∅), None, None).
Proof.
  split; [vm_compute; reflexivity|].
  destruct (upgraded_blob_is_persisted (repeat 5 16) 7 (NonSensitive [1])
    (fun b => with_km (km_getKeyCharacteristics b)) stale_world [] (NonSensitive [1; 0]) stale_call.2)
    as [_ [[Heq _]|(up & [= <-] & _ & Hload)]].
  - apply with_km_only.
  - apply wf_add_blob, empty_wf.
  - reflexivity.
  - vm_compute. reflexivity.
  - discriminate Heq.
  - apply (Hload LoadBits.KM true (Some ([1], ∅)) None None); vm_compute; reflexivity.
Defined.
