(* ===== verification/SuperKey.v ===== *)
(** * Super keys ([keystore2/src/super_key.rs])

    [SuperKeyManager] holds the keys that encrypt other keys at rest: per
    user the key available from the first unlock on, the screen lock bound
    keys, and the boot level keys.  The index of keys by database id holds
    weak references: [upgrade] finds a key as long as somebody owns it.
    Owners are the fields of the manager, other super keys
    ([reencrypt_with]) and callers in flight ([held]).

    The legacy migrator is an interface ([Legacy]); the KeyMint device, the
    crypto library and the tape of random bytes are parameters as in
    [RawDevice] and [Crypto]. *)

From stdpp Require Import base list gmap strings.
From Stdlib Require Import ZArith Lia.
From S2P Require Import Prelude Aidl Errors Sql KeyParameter Perboot BootLevelKeys AuthInfo Enforcements DbTypes Database DbInvariant DbKeys Crypto RawDevice.

Definition MAX_MAX_BOOT_LEVEL : Z := 1000000000.
Definition BIOMETRIC_AUTH_TIMEOUT_S : Z := 15.

Record SuperKeyType := {
  kt_alias : string;
  kt_algorithm : SuperEncryptionAlgorithm
}.
Definition USER_SUPER_KEY : SuperKeyType := {| kt_alias := USER_SUPER_KEY_alias; kt_algorithm := Aes256Gcm |}.
Definition USER_SCREEN_LOCK_BOUND_KEY : SuperKeyType :=
  {| kt_alias := "USER_SCREEN_LOCK_BOUND_KEY"; kt_algorithm := Aes256Gcm |}.
Definition USER_SCREEN_LOCK_BOUND_P521_KEY : SuperKeyType :=
  {| kt_alias := "USER_SCREEN_LOCK_BOUND_P521_KEY"; kt_algorithm := EcdhP521 |}.

(** ** Metadata *)

Definition iv_of (m : BlobMetaData) : option bytes :=
  match m !! BlobMetaTag.Iv with Some (Iv b) => Some b | _ => None end.
Definition aead_tag_of (m : BlobMetaData) : option bytes :=
  match m !! BlobMetaTag.AeadTag with Some (AeadTag b) => Some b | _ => None end.
Definition salt_of (m : BlobMetaData) : option bytes :=
  match m !! BlobMetaTag.Salt with Some (Salt b) => Some b | _ => None end.
Definition public_key_of (m : BlobMetaData) : option bytes :=
  match m !! BlobMetaTag.PublicKey with Some (PublicKey b) => Some b | _ => None end.
Definition sec1_public_key_of (m : KeyMetaData) : option bytes :=
  match m !! KeyMetaTag.Sec1PublicKey with Some (Sec1PublicKey b) => Some b | _ => None end.

(** [SuperKeyIdentifier::from_metadata], [add_to_metadata]. *)
Definition from_metadata (m : BlobMetaData) : option SuperKeyIdentifier :=
  match encrypted_by m with
  | Some (EncKeyId id) => Some (DatabaseId id)
  | _ => BootLevelId <$> max_boot_level_of m
  end.
Definition add_to_metadata (i : SuperKeyIdentifier) (m : BlobMetaData) : BlobMetaData :=
  match i with
  | DatabaseId id => meta_add (BMEncryptedBy (EncKeyId id)) m
  | BootLevelId level => meta_add (BMMaxBootLevel level) m
  end.

(** ** State *)

Record LockedKey := {
  lk_algorithm : SuperEncryptionAlgorithm;
  lk_id : SuperKeyIdentifier;
  lk_nonce : bytes;
  lk_ciphertext : bytes
}.

Record BiometricUnlock := {
  bu_sids : list Z;
  bu_key_desc : KeyDescriptor;
  bu_screen_lock_bound : LockedKey;
  bu_screen_lock_bound_private : LockedKey
}.

Record UserSuperKeys := {
  per_boot : option SuperKey;
  screen_lock_bound : option SuperKey;
  screen_lock_bound_private : option SuperKey;
  biometric_unlock : option BiometricUnlock
}.
Definition no_user_keys : UserSuperKeys :=
  {| per_boot := None; screen_lock_bound := None; screen_lock_bound_private := None; biometric_unlock := None |}.

(** [SkmState], the keys other callers hold ([held]) and the next address. *)
Record Skm := {
  user_keys : gmap Z UserSuperKeys;
  key_index : gmap Z nat;
  boot_level_key_cache : option BootLevelKeyCache;
  held : list SuperKey;
  next_addr : nat
}.
Definition new_skm : Skm :=
  {| user_keys := ∅; key_index := ∅; boot_level_key_cache := None; held := []; next_addr := 0 |}.

Definition with_user_keys (f : gmap Z UserSuperKeys -> gmap Z UserSuperKeys) (s : Skm) : Skm :=
  {| user_keys := f (user_keys s); key_index := key_index s; boot_level_key_cache := boot_level_key_cache s;
     held := held s; next_addr := next_addr s |}.
Definition with_key_index (f : gmap Z nat -> gmap Z nat) (s : Skm) : Skm :=
  {| user_keys := user_keys s; key_index := f (key_index s); boot_level_key_cache := boot_level_key_cache s;
     held := held s; next_addr := next_addr s |}.
Definition with_cache (c : option BootLevelKeyCache) (s : Skm) : Skm :=
  {| user_keys := user_keys s; key_index := key_index s; boot_level_key_cache := c;
     held := held s; next_addr := next_addr s |}.
Definition with_held (l : list SuperKey) (s : Skm) : Skm :=
  {| user_keys := user_keys s; key_index := key_index s; boot_level_key_cache := boot_level_key_cache s;
     held := l; next_addr := next_addr s |}.

(** [user_keys.entry(user).or_default()]. *)
Definition entry (s : Skm) (user : Z) : UserSuperKeys := default no_user_keys (user_keys s !! user).
Definition set_entry (user : Z) (e : UserSuperKeys) (s : Skm) : Skm := with_user_keys (insert user e) s.

Definition set_per_boot (k : option SuperKey) (e : UserSuperKeys) : UserSuperKeys :=
  {| per_boot := k; screen_lock_bound := screen_lock_bound e;
     screen_lock_bound_private := screen_lock_bound_private e; biometric_unlock := biometric_unlock e |}.
Definition set_slb (k : option SuperKey) (e : UserSuperKeys) : UserSuperKeys :=
  {| per_boot := per_boot e; screen_lock_bound := k;
     screen_lock_bound_private := screen_lock_bound_private e; biometric_unlock := biometric_unlock e |}.
Definition set_slbp (k : option SuperKey) (e : UserSuperKeys) : UserSuperKeys :=
  {| per_boot := per_boot e; screen_lock_bound := screen_lock_bound e;
     screen_lock_bound_private := k; biometric_unlock := biometric_unlock e |}.
Definition set_biometric (b : option BiometricUnlock) (e : UserSuperKeys) : UserSuperKeys :=
  {| per_boot := per_boot e; screen_lock_bound := screen_lock_bound e;
     screen_lock_bound_private := screen_lock_bound_private e; biometric_unlock := b |}.

(** The objects an owner keeps alive: the key and what it refers to. *)
Fixpoint arcs (k : SuperKey) : list SuperKey :=
  let 'MkSuperKey _ _ _ _ re := k in
  k :: match re with Some k' => arcs k' | None => [] end.

Definition opt_arcs (o : option SuperKey) : list SuperKey :=
  match o with Some k => arcs k | None => [] end.
Definition entry_arcs (e : UserSuperKeys) : list SuperKey :=
  opt_arcs (per_boot e) ++ opt_arcs (screen_lock_bound e) ++ opt_arcs (screen_lock_bound_private e).
Definition owned (s : Skm) : list SuperKey :=
  mjoin ((fun ue => entry_arcs ue.2) <$> map_to_list (user_keys s)) ++ mjoin (arcs <$> held s).

(** [Weak::upgrade]. *)
Definition upgrade (s : Skm) (a : nat) : option SuperKey :=
  head (filter (fun k => sk_addr k = a) (owned s)).

(** [Arc::new]. *)
Definition alloc (alg : SuperEncryptionAlgorithm) (k : bytes) (i : SuperKeyIdentifier)
    (re : option SuperKey) {E} : sr Skm E SuperKey := fun s =>
  (Ok (MkSuperKey (next_addr s) alg k i re),
   {| user_keys := user_keys s; key_index := key_index s; boot_level_key_cache := boot_level_key_cache s;
      held := held s; next_addr := S (next_addr s) |}).

(** Errors of the crypto library carry no Keystore error code. *)
Definition crypto_err {A} (r : result CryptoError A) : result AnyError A := map_err (fun _ => OtherError) r.

(** What Keystore needs of the legacy migrator.  [lg_migrate] is
    [check_and_migrate_super_key]: [false] when the legacy store is empty.
    Asking for a super key does not touch the database, and deleting legacy
    keys keeps it well formed with its super keys as they are. *)
Class Legacy {AI : Aidl} (L : Type) := {
  lg_has_super_key : Z -> sr (L * Tables) AnyError bool;
  lg_migrate : Z -> bytes -> sr (L * Tables) AnyError bool;
  lg_bulk_delete_user : Z -> bool -> sr (L * Tables) AnyError unit;
  lg_load_super_key : L -> Z -> bytes -> result AnyError (option bytes);
  lg_has_super_key_db : forall user l s r l' s', lg_has_super_key user (l, s) = (r, (l', s')) -> s' = s;
  lg_bulk_delete_wf : forall user keep l s r l' s',
    lg_bulk_delete_user user keep (l, s) = (r, (l', s')) -> db_wf s -> db_wf s';
  lg_bulk_delete_super : forall user keep l s r l' s' al user',
    lg_bulk_delete_user user keep (l, s) = (r, (l', s')) -> db_wf s ->
    load_super_key al user' s' = load_super_key al user' s
}.

Section SuperKeys.
Context {AI : Aidl} `{BO : Boring} {K : Type} `{KMI : !KeyMint K} {L : Type} `{LG : !Legacy L}.

(** Everything a call can change. *)
Record Sys := {
  g_skm : Skm;
  g_world : World K;
  g_tape : Tape;
  g_legacy : L
}.

Abbreviation O := (sr Sys AnyError).

Definition on_skm {A} (m : sr Skm AnyError A) : O A := fun g =>
  let '(r, s) := m (g_skm g) in
  (r, {| g_skm := s; g_world := g_world g; g_tape := g_tape g; g_legacy := g_legacy g |}).
Definition on_world {A} (m : sr (World K) AnyError A) : O A := fun g =>
  let '(r, w) := m (g_world g) in
  (r, {| g_skm := g_skm g; g_world := w; g_tape := g_tape g; g_legacy := g_legacy g |}).
Definition on_tape {A} (m : sr Tape AnyError A) : O A := fun g =>
  let '(r, t) := m (g_tape g) in
  (r, {| g_skm := g_skm g; g_world := g_world g; g_tape := t; g_legacy := g_legacy g |}).
Definition on_legacy {A} (m : sr (L * Tables) AnyError A) : O A := fun g =>
  let '(r, (l, s)) := m (g_legacy g, w_db (g_world g)) in
  (r, {| g_skm := g_skm g; g_world := set_db s (g_world g); g_tape := g_tape g; g_legacy := l |}).
Definition on_db {A} (m : sr Tables AnyError (bool * A)) : O A := on_world (with_db m).
Definition read_db {A} (f : Tables -> result AnyError A) : O A := fun g => (f (w_db (g_world g)), g).
Definition draw {A} (m : rnd A) : sr Tape AnyError A := sr_map_err (fun _ => OtherError) m.

Definition rc {A} (n : ResponseCode.name) : result AnyError A := Err (err_rc n).

(** ** The manager *)

Definition hkdf (n : Z) (k info : bytes) : result AnyError bytes :=
  crypto_err (hkdf_expand (Z.to_nat n) k info).

Definition add_key_to_key_index (k : SuperKey) : sr Skm AnyError unit :=
  match sk_id k with
  | DatabaseId id => modify (with_key_index (insert id (sk_addr k)))
  | BootLevelId _ => throw err_sys
  end.

Definition forget_all_keys_for_user (user : Z) : sr Skm AnyError unit :=
  modify (with_user_keys (delete user)).

Definition install_per_boot_key_for_user (user : Z) (k : SuperKey) : sr Skm AnyError unit :=
  _ ← add_key_to_key_index k;
  modify (fun s => set_entry user (set_per_boot (Some k) (entry s user)) s).

Definition lookup_key (key_id : SuperKeyIdentifier) : sr Skm AnyError (option SuperKey) :=
  match key_id with
  | DatabaseId id => gets (fun s => key_index s !! id ≫= upgrade s)
  | BootLevelId level => fun s =>
    match boot_level_key_cache s with
    | None => (Ok None, s)
    | Some c =>
      let '(r, c') := aes_key hkdf c (as_u64 level) in
      (o ← lift r;
       match o with
       | None => mret None
       | Some k => sk ← alloc Aes256Gcm k key_id None; mret (Some sk)
       end) (with_cache (Some c') s)
    end
  end.

Definition get_per_boot_key_by_user_id (s : Skm) (user : Z) : option SuperKey :=
  user_keys s !! user ≫= per_boot.

(** [set_up_boot_level_cache]: [get_level_zero_key] is only run the first
    time. *)
Definition set_up_boot_level_cache (get_level_zero_key : O bytes) : O unit :=
  present ← on_skm (gets (fun s => bool_decide (is_Some (boot_level_key_cache s))));
  if (present : bool) then mret tt
  else
    level_zero_key ← get_level_zero_key;
    on_skm (modify (with_cache (Some (new_cache level_zero_key)))).

(** One value of the boot level property in [watch_boot_level]; the result
    says whether to go on watching. *)
Definition watch_boot_level_step (level : Z) : sr Skm AnyError bool := fun s =>
  match boot_level_key_cache s with
  | None => (Panic, s)
  | Some c =>
    if level <? MAX_MAX_BOOT_LEVEL then
      let '(r, c') := advance_boot_level hkdf c level in
      ((fun _ => true) <$> r, with_cache (Some c') s)
    else (Ok false, with_cache (Some (finish c)) s)
  end.

Definition sk_aes_gcm_decrypt (k : SuperKey) (data iv tag : bytes) : result AnyError bytes :=
  if bool_decide (sk_algorithm k = Aes256Gcm) then crypto_err (aes_gcm_decrypt data iv tag (sk_key k))
  else Err err_sys.

Definition unwrap_key_with_key (blob : bytes) (metadata : BlobMetaData) (key : SuperKey) : result AnyError bytes :=
  match sk_algorithm key with
  | Aes256Gcm =>
    match iv_of metadata, aead_tag_of metadata with
    | Some iv, Some tag => sk_aes_gcm_decrypt key blob iv tag
    | _, _ => rc ResponseCode.VALUE_CORRUPTED
    end
  | EcdhP521 =>
    match public_key_of metadata, salt_of metadata, iv_of metadata, aead_tag_of metadata with
    | Some pk, Some salt, Some iv, Some tag =>
      crypto_err (k ← from_private_key (sk_key key); decrypt_message k pk salt iv blob tag)
    | _, _, _, _ => rc ResponseCode.VALUE_CORRUPTED
    end
  end.

Definition unwrap_key_if_required (metadata : BlobMetaData) (blob : bytes) : sr Skm AnyError KeyBlob :=
  match from_metadata metadata with
  | Some key_id =>
    found ← lookup_key key_id;
    super_key ← lift (ok_or found (err_rc ResponseCode.LOCKED));
    key ← lift (unwrap_key_with_key blob metadata super_key);
    mret (Sensitive key (default super_key (sk_reencrypt_with super_key))
            (bool_decide (is_Some (sk_reencrypt_with super_key))))
  | None => mret (Ref blob)
  end.

(** ** Passwords *)

Definition encrypt_with_password (super_key pw : bytes) : sr Tape AnyError (bytes * BlobMetaData) :=
  salt ← draw generate_salt;
  derived_key ← lift (crypto_err (derive_key pw (Some salt) AES_256_KEY_BYTES));
  let metadata := meta_add (Salt salt) (meta_add (BMEncryptedBy Password) ∅) in
  '(encrypted_key, iv, tag) ← draw (aes_gcm_encrypt super_key derived_key);
  mret (encrypted_key, meta_add (AeadTag tag) (meta_add (Iv iv) metadata)).

(** The key material in a super key entry. *)
Definition decrypt_entry (e : KeyEntry) (pw : bytes) : result AnyError bytes :=
  match ke_key_blob_info e with
  | Some (blob, m) =>
    match encrypted_by m, salt_of m, iv_of m, aead_tag_of m with
    | Some Password, Some salt, Some iv, Some tag =>
      key ← crypto_err (derive_key pw (Some salt) AES_256_KEY_BYTES);
      crypto_err (aes_gcm_decrypt blob iv tag key)
    | _, _, _, _ => rc ResponseCode.VALUE_CORRUPTED
    end
  | None => rc ResponseCode.VALUE_CORRUPTED
  end.

Definition extract_super_key_from_key_entry (algorithm : SuperEncryptionAlgorithm) (e : KeyEntry) (pw : bytes)
    (reencrypt_with : option SuperKey) : sr Skm AnyError SuperKey :=
  key ← lift (decrypt_entry e pw);
  alloc algorithm key (DatabaseId (ke_id e)) reencrypt_with.

Definition populate_cache_from_super_key_blob (user : Z) (algorithm : SuperEncryptionAlgorithm) (e : KeyEntry)
    (pw : bytes) : sr Skm AnyError SuperKey :=
  super_key ← extract_super_key_from_key_entry algorithm e pw None;
  _ ← install_per_boot_key_for_user user super_key;
  mret super_key.

(** The closure of [unlock_user_key] that makes a missing super key: the
    legacy one if there is one, else a new one. *)
Definition create_new_key (user : Z) (pw : bytes) (legacy : L) : sr Tape AnyError (bytes * BlobMetaData) :=
  found ← lift (lg_load_super_key legacy user pw);
  super_key ← match found with None => draw generate_aes256_key | Some key => mret key end;
  encrypt_with_password super_key pw.

(** The closure runs, and draws from the tape, only when the key is not in
    the database. *)
Definition unlock_user_key (draws : list Z) (KEYSTORE_UUID : Uuid) (user : Z) (pw : bytes) : O unit :=
  absent ← read_db (fun s => Ok (bool_decide (select_where
             (super_match (val Domain.APP) user (kt_alias USER_SUPER_KEY)) (keyentry s) = [])));
  legacy ← gets g_legacy;
  made ← (if (absent : bool)
          then on_tape (fun t => let '(r, t') := create_new_key user pw legacy t in (Ok r, t'))
          else mret (Err OtherError));
  '(_, e) ← on_db (get_or_create_key_with draws (val Domain.APP) user (kt_alias USER_SUPER_KEY) KEYSTORE_UUID made);
  _ ← on_skm (populate_cache_from_super_key_blob user (kt_algorithm USER_SUPER_KEY) e pw);
  mret tt.

(** ** User states *)

Inductive UserState :=
| LskfUnlocked (k : SuperKey)
| LskfLocked
| Uninitialized.

Definition legacy_has_super_key (user : Z) : O bool := on_legacy (lg_has_super_key user).

Definition super_key_exists_in_db_for_user (user : Z) : O bool :=
  key_in_db ← read_db (key_exists (val Domain.APP) user (kt_alias USER_SUPER_KEY) KeyType.Super);
  if (key_in_db : bool) then mret true
  else legacy_has_super_key user.

(** [with_try_migrate_super_key] around [load_super_key]. *)
Definition load_or_migrate_super_key (user : Z) (pw : bytes) : O (option (Z * KeyEntry)) :=
  found ← read_db (load_super_key (kt_alias USER_SUPER_KEY) user);
  match found with
  | Some r => mret (Some r)
  | None =>
    migrated ← on_legacy (lg_migrate user pw);
    if (migrated : bool) then read_db (load_super_key (kt_alias USER_SUPER_KEY) user) else mret None
  end.

Definition check_and_unlock_super_key (user : Z) (pw : bytes) : O UserState :=
  found ← load_or_migrate_super_key user pw;
  match found with
  | Some (_, e) =>
    super_key ← on_skm (populate_cache_from_super_key_blob user (kt_algorithm USER_SUPER_KEY) e pw);
    mret (LskfUnlocked super_key)
  | None => mret Uninitialized
  end.

Definition check_and_initialize_super_key (draws : list Z) (user : Z) (pw : option bytes) : O UserState :=
  exists_in_db ← super_key_exists_in_db_for_user user;
  if (exists_in_db : bool) then mret LskfLocked
  else match pw with
  | Some pw =>
    super_key ← on_tape (draw generate_aes256_key);
    '(encrypted, metadata) ← on_tape (encrypt_with_password super_key pw);
    e ← on_db (store_super_key draws user (kt_alias USER_SUPER_KEY) encrypted metadata ∅);
    super_key ← on_skm (populate_cache_from_super_key_blob user (kt_algorithm USER_SUPER_KEY) e pw);
    mret (LskfUnlocked super_key)
  | None => mret Uninitialized
  end.

Definition user_state_get (user : Z) : O UserState :=
  k ← on_skm (gets (fun s => get_per_boot_key_by_user_id s user));
  match k with
  | Some k => mret (LskfUnlocked k)
  | None =>
    exists_in_db ← super_key_exists_in_db_for_user user;
    mret (if (exists_in_db : bool) then LskfLocked else Uninitialized)
  end.

Variable AID_USER_OFFSET : Z.

Definition reset_user (user : Z) (keep_non_super_encrypted_keys : bool) : O unit :=
  _ ← on_legacy (lg_bulk_delete_user user keep_non_super_encrypted_keys);
  _ ← on_db (unbind_keys_for_user AID_USER_OFFSET user keep_non_super_encrypted_keys);
  on_skm (forget_all_keys_for_user user).

Definition get_with_password_changed (draws : list Z) (user : Z) (pw : option bytes) : O UserState :=
  k ← on_skm (gets (fun s => get_per_boot_key_by_user_id s user));
  match k with
  | Some k =>
    match pw with
    | None => _ ← reset_user user true; mret Uninitialized
    | Some _ => mret (LskfUnlocked k)
    end
  | None => check_and_initialize_super_key draws user pw
  end.

Definition get_with_password_unlock (user : Z) (pw : bytes) : O UserState :=
  k ← on_skm (gets (fun s => get_per_boot_key_by_user_id s user));
  match k with
  | Some k => mret (LskfUnlocked k)
  | None => check_and_unlock_super_key user pw
  end.

(** ** Super encryption *)

Definition encrypt_with_aes_super_key (key_blob : bytes) (super_key : SuperKey)
    : sr Tape AnyError (bytes * BlobMetaData) :=
  if negb (bool_decide (sk_algorithm super_key = Aes256Gcm)) then throw err_sys
  else
    '(encrypted_key, iv, tag) ← draw (aes_gcm_encrypt key_blob (sk_key super_key));
    mret (encrypted_key, add_to_metadata (sk_id super_key) (meta_add (AeadTag tag) (meta_add (Iv iv) ∅))).

Definition super_encrypt_on_key_init (user : Z) (key_blob : bytes) : O (bytes * BlobMetaData) :=
  st ← user_state_get user;
  match st with
  | LskfUnlocked super_key => on_tape (encrypt_with_aes_super_key key_blob super_key)
  | LskfLocked => lift (rc ResponseCode.LOCKED)
  | Uninitialized => lift (rc ResponseCode.UNINITIALIZED)
  end.

(** The screen lock bound branch of [handle_super_encryption_on_key_init] when
    the symmetric key is not in memory: encryption to the public key. *)
Definition encrypt_with_public_key (user : Z) (key_blob : bytes) : O (bytes * BlobMetaData) :=
  loaded ← read_db (load_super_key (kt_alias USER_SCREEN_LOCK_BOUND_P521_KEY) user);
  '(key_id, e) ← lift (ok_or loaded err_sys);
  pk ← lift (ok_or (sec1_public_key_of (ke_metadata e)) err_sys);
  '(ephem_key, salt, iv, encrypted_key, tag) ← on_tape (draw (encrypt_message pk key_blob));
  mret (encrypted_key,
        add_to_metadata (DatabaseId key_id)
          (meta_add (AeadTag tag) (meta_add (Iv iv) (meta_add (Salt salt) (meta_add (PublicKey ephem_key) ∅))))).

Variable LSKF_BINDING_FLAG : Z.

Definition handle_super_encryption_on_key_init (dom : Z) (key_parameters : list KeyParameter)
    (flags : option Z) (user : Z) (key_blob : bytes) : O (bytes * BlobMetaData) :=
  match super_encryption_required LSKF_BINDING_FLAG dom key_parameters flags with
  | SENone => mret (key_blob, ∅)
  | LskfBound => super_encrypt_on_key_init user key_blob
  | ScreenLockBound =>
    _ ← on_skm (modify (fun s => set_entry user (entry s user) s));
    k ← on_skm (gets (fun s => screen_lock_bound (entry s user)));
    match k with
    | Some super_key => on_tape (encrypt_with_aes_super_key key_blob super_key)
    | None => encrypt_with_public_key user key_blob
    end
  | BootLevel level =>
    found ← on_skm (lookup_key (BootLevelId level));
    super_key ← lift (ok_or found (err_rc ResponseCode.LOCKED));
    on_tape (encrypt_with_aes_super_key key_blob super_key)
  end.

Definition reencrypt_if_required (before : KeyBlob) (key_after_upgrade : bytes)
    : sr Tape AnyError (KeyBlob * option BlobMetaData) :=
  match before with
  | Sensitive _ super_key _ =>
    '(key, metadata) ← encrypt_with_aes_super_key key_after_upgrade super_key;
    mret (NonSensitive key, Some metadata)
  | _ => mret (Ref key_after_upgrade, None)
  end.

(** ** Screen lock bound keys *)

(** Key material of a new super key, and the public key to store with it. *)
Definition new_super_key (algorithm : SuperEncryptionAlgorithm) : sr Tape AnyError (bytes * option bytes) :=
  match algorithm with
  | Aes256Gcm => k ← draw generate_aes256_key; mret (k, None)
  | EcdhP521 =>
    key ← draw generate;
    sk ← lift (crypto_err (private_key key));
    pk ← lift (crypto_err (public_key key));
    mret (sk, Some pk)
  end.

Definition get_or_create_super_key (draws : list Z) (user : Z) (key_type : SuperKeyType) (pw : bytes)
    (reencrypt_with : option SuperKey) : O SuperKey :=
  loaded ← read_db (load_super_key (kt_alias key_type) user);
  match loaded with
  | Some (_, e) => on_skm (extract_super_key_from_key_entry (kt_algorithm key_type) e pw reencrypt_with)
  | None =>
    '(super_key, pk) ← on_tape (new_super_key (kt_algorithm key_type));
    '(encrypted, metadata) ← on_tape (encrypt_with_password super_key pw);
    let key_metadata := match pk with Some pk => meta_add (Sec1PublicKey pk) ∅ | None => ∅ end in
    e ← on_db (store_super_key draws user (kt_alias key_type) encrypted metadata key_metadata);
    on_skm (alloc (kt_algorithm key_type) super_key (DatabaseId (ke_id e)) reencrypt_with)
  end.

(** [get_or_try_to_insert_with] on a field of the user's entry: the value is
    stored when it could be made. *)
Definition get_or_try_to_insert_with (user : Z) (get : UserSuperKeys -> option SuperKey)
    (set : option SuperKey -> UserSuperKeys -> UserSuperKeys) (f : O SuperKey) : O SuperKey :=
  k ← on_skm (gets (fun s => get (entry s user)));
  match k with
  | Some k => mret k
  | None =>
    k ← f;
    _ ← on_skm (modify (fun s => set_entry user (set (Some k) (entry s user)) s));
    mret k
  end.

Definition unlock_screen_lock_bound_key (draws draws' : list Z) (user : Z) (pw : bytes) : O unit :=
  _ ← on_skm (modify (fun s => set_entry user (entry s user) s));
  aes ← get_or_try_to_insert_with user screen_lock_bound set_slb
          (get_or_create_super_key draws user USER_SCREEN_LOCK_BOUND_KEY pw None);
  ecdh ← get_or_try_to_insert_with user screen_lock_bound_private set_slbp
          (get_or_create_super_key draws' user USER_SCREEN_LOCK_BOUND_P521_KEY pw (Some aes));
  _ ← on_skm (add_key_to_key_index aes);
  on_skm (add_key_to_key_index ecdh).

(** *** Biometric unlock *)

Variable km_uuid : Uuid.
Variable AID_KEYSTORE : Z.
Variable now : result AnyError Z.
(** AIDL constants used only here. *)
Variables BLOCK_MODE_GCM PADDING_NONE AUTHENTICATOR_FINGERPRINT : Z.

(** [LockedKey::new]: the super key, encrypted with [key]. *)
Definition new_locked_key (key : bytes) (to_encrypt : SuperKey) : sr Tape AnyError LockedKey :=
  '(ciphertext, nonce, tag) ← draw (aes_gcm_encrypt (sk_key to_encrypt) key);
  mret {| lk_algorithm := sk_algorithm to_encrypt; lk_id := sk_id to_encrypt; lk_nonce := nonce;
          lk_ciphertext := ciphertext ++ tag |}.

(** [LockedKey::decrypt]. *)
Definition decrypt_locked_key (lk : LockedKey) (key_id : Z) (e : KeyEntry) (auth_token : HardwareAuthToken)
    (reencrypt_with : option SuperKey) : O SuperKey :=
  '(key_blob, _) ← lift (ok_or (ke_key_blob_info e) (err_rc ResponseCode.KEY_NOT_FOUND));
  key ← on_world (use_key_in_one_step km_uuid key_id key_blob (val KeyPurpose.DECRYPT)
          (into_km <$> [KeyParameter.Algorithm (val Algorithm.AES); KeySize 256; KeyParameter.BlockMode BLOCK_MODE_GCM;
                        KeyParameter.PaddingMode PADDING_NONE; Nonce (lk_nonce lk); MacLength 128])
          (Some auth_token) (lk_ciphertext lk));
  on_skm (alloc (lk_algorithm lk) key (lk_id lk) reencrypt_with).

Definition biometric_key_params (sids : list Z) : list KeyParameterValue :=
  [KeyParameter.Algorithm (val Algorithm.AES); KeySize 256; KeyParameter.BlockMode BLOCK_MODE_GCM;
   KeyParameter.PaddingMode PADDING_NONE; CallerNonce; KeyParameter.KeyPurpose (val KeyPurpose.DECRYPT);
   MinMacLength 128; AuthTimeout BIOMETRIC_AUTH_TIMEOUT_S;
   KeyParameter.HardwareAuthenticatorType AUTHENTICATOR_FINGERPRINT] ++ (UserSecureID <$> sids).

(** The closure of [lock_screen_lock_bound_key] that sets up the biometric
    unlock; [alias_of] renders the alias of the user's biometric key, and
    [device] is the result of [KeyMintDevice::get]. *)
Definition set_up_biometric_unlock (alias_of : Z -> string) (device : result AnyError unit) (draws : list Z)
    (user : Z) (sids : list Z) (aes ecdh : SuperKey) : O unit :=
  let key_desc := internal_descriptor AID_KEYSTORE (alias_of user) in
  encrypting_key ← on_tape (draw generate_aes256_key);
  _ ← lift device;
  _ ← on_world (create_and_store_key km_uuid now draws key_desc KeyType.Client
                  (km_importKey (into_km <$> biometric_key_params sids) (val KeyFormat.RAW) encrypting_key None));
  slb ← on_tape (new_locked_key encrypting_key aes);
  slbp ← on_tape (new_locked_key encrypting_key ecdh);
  on_skm (modify (fun s => set_entry user (set_biometric (Some
    {| bu_sids := sids; bu_key_desc := key_desc; bu_screen_lock_bound := slb;
       bu_screen_lock_bound_private := slbp |}) (entry s user)) s)).

(** An error is logged and dropped; a panic goes on. *)
Definition ignore_error (m : O unit) : O unit := fun g =>
  match m g with
  | (Err _, g') => (Ok tt, g')
  | r => r
  end.

Definition lock_screen_lock_bound_key (alias_of : Z -> string) (device : result AnyError unit) (draws : list Z)
    (user : Z) (unlocking_sids : list Z) : O unit :=
  _ ← on_skm (modify (fun s => set_entry user (entry s user) s));
  e ← on_skm (gets (fun s => entry s user));
  _ ← match unlocking_sids, screen_lock_bound e, screen_lock_bound_private e with
      | _ :: _, Some aes, Some ecdh =>
        ignore_error (set_up_biometric_unlock alias_of device draws user unlocking_sids aes ecdh)
      | _, _, _ => mret tt
      end;
  on_skm (modify (fun s => set_entry user (set_slb None (set_slbp None (entry s user))) s)).

(** The two [decrypt] calls for one auth token. *)
Definition try_biometric (b : BiometricUnlock) (key_id : Z) (e : KeyEntry) (tok : HardwareAuthToken)
    : O (SuperKey * SuperKey) :=
  slb ← decrypt_locked_key (bu_screen_lock_bound b) key_id e tok None;
  slbp ← decrypt_locked_key (bu_screen_lock_bound_private b) key_id e tok (Some slb);
  mret (slb, slbp).

Definition install_screen_lock_keys (user : Z) (slb slbp : SuperKey) : sr Skm AnyError unit :=
  _ ← modify (fun s => set_entry user (set_slbp (Some slbp) (set_slb (Some slb) (entry s user))) s);
  _ ← add_key_to_key_index slb;
  add_key_to_key_index slbp.

(** The loop over the secure ids: the first token that works ends it. *)
Fixpoint try_sids (tokens : PerbootDB) (user : Z) (b : BiometricUnlock) (key_id : Z) (e : KeyEntry) (sids : list Z)
    : O unit :=
  match sids with
  | [] => mret tt
  | sid :: sids => fun g =>
    match db_find_auth_token_entry tokens (fun t => (userId (auth_token t) =? sid)
                                                    || (authenticatorId (auth_token t) =? sid)) with
    | None => try_sids tokens user b key_id e sids g
    | Some (t, _) =>
      match try_biometric b key_id e (auth_token t) g with
      | (Ok (slb, slbp), g') => on_skm (install_screen_lock_keys user slb slbp) g'
      | (Err _, g') => try_sids tokens user b key_id e sids g'
      | (Panic, g') => (Panic, g')
      end
    end
  end.

Definition try_unlock_user_with_biometric (device : result AnyError unit) (tokens : PerbootDB) (user : Z) : O unit :=
  _ ← on_skm (modify (fun s => set_entry user (entry s user) s));
  e ← on_skm (gets (fun s => entry s user));
  match biometric_unlock e with
  | None => mret tt
  | Some b =>
    '(key_id, ke) ← on_world (lookup_from_desc AID_KEYSTORE (bu_key_desc b) KeyType.Client);
    _ ← lift device;
    try_sids tokens user b key_id ke (bu_sids b)
  end.
End SuperKeys.
Arguments Sys K L : clear implicits.

(** The legacy store of a device that never had one: every query is answered
    by [do_serialized] without the migrator. *)
Program Definition no_legacy {AI : Aidl} : Legacy unit := {|
  lg_has_super_key := fun _ ls => (Ok false, ls);
  lg_migrate := fun _ _ ls => (Ok false, ls);
  lg_bulk_delete_user := fun _ _ ls => (Ok tt, ls);
  lg_load_super_key := fun _ _ _ => Ok None
|}.
Solve All Obligations with intros; simplify_eq/=; done.

(** A device for the examples: it accepts everything, and its operations
    return their input. *)
Definition toy_km : KeyMint unit := {|
  km_generateKey := fun _ _ k => (Ok {| cr_blob := [1]; cr_characteristics := []; cr_certificates := [] |}, k);
  km_importKey := fun _ _ b _ k => (Ok {| cr_blob := b; cr_characteristics := []; cr_certificates := [] |}, k);
  km_importWrappedKey := fun b _ _ _ _ _ k => (Ok {| cr_blob := b; cr_characteristics := []; cr_certificates := [] |}, k);
  km_upgradeKey := fun b _ k => (Ok (b ++ [0]), k);
  km_deleteKey := fun _ k => (Ok tt, k);
  km_convertStorageKeyToEphemeral := fun b k => (Ok b, k);
  km_getKeyCharacteristics := fun _ k => (Ok [], k);
  km_begin := fun _ _ _ _ k => (Ok {| br_challenge := 0; br_params := []; br_operation := Some 1 |}, k);
  km_finish := fun _ i k => (Ok i, k)
|}.

(** A system just booted, with an empty database. *)
Definition demo_sys : Sys unit unit :=
  {| g_skm := new_skm; g_world := {| w_db := empty_tables; w_km := tt; w_gc := false |};
     g_tape := repeat 3 600; g_legacy := tt |}.
