(* ===== verification/SuperKeyCrypto.v ===== *)
(** * Super encryption is undone by the right key

    What [super_key.rs] encrypts it can decrypt again: with the super key it
    used, after a reboot with the password, and for keys encrypted while the
    screen was locked with the private key.  Also the cost of a boot level. *)

From stdpp Require Import base list gmap strings.
From Stdlib Require Import ZArith Lia.
From S2P Require Import Prelude Aidl Errors Sql KeyParameter BootLevelKeys Enforcements DbTypes Database DbInvariant DbKeys Crypto RawDevice SuperKey.

(** Looking up an entry of a metadata collection that was just built. *)
Ltac meta_lookup :=
  unfold iv_of, aead_tag_of, salt_of, public_key_of, encrypted_by, max_boot_level_of, from_metadata,
    add_to_metadata, meta_add; simpl;
  repeat first [rewrite lookup_insert_eq | rewrite lookup_insert_ne by done | rewrite lookup_empty]; simpl.

Section Wrap.
Context {AI : Aidl} `{BO : Boring} {K : Type} `{KMI : !KeyMint K} {L : Type} `{LG : !Legacy L}.

Lemma draw_Ok {A} (m : rnd A) t a t' : draw m t = (Ok a, t') -> m t = (Ok a, t').
Proof. unfold draw, sr_map_err. destruct (m t) as [[]]; simpl; intros; by simplify_eq. Qed.

(** Encryption with a symmetric super key. *)
Lemma wrap_Ok blob k t c m t' :
  encrypt_with_aes_super_key blob k t = (Ok (c, m), t') ->
  sk_algorithm k = Aes256Gcm /\ from_metadata m = Some (sk_id k) /\
  forall k', sk_algorithm k' = Aes256Gcm -> sk_key k' = sk_key k -> unwrap_key_with_key c m k' = Ok blob.
Proof.
  unfold encrypt_with_aes_super_key. case_bool_decide as Ha; [|done]. simpl. rewrite sr_bind_Ok.
  intros ([[c0 iv] tag] & t1 & (_ & _ & He)%draw_Ok%aes_inverse & H). unfold mret, sr_ret in H. simplify_eq.
  split; [done|]. split.
  - destruct (sk_id k); by meta_lookup.
  - intros k' Ha' Hk'. unfold unwrap_key_with_key, sk_aes_gcm_decrypt. rewrite Ha', Hk', bool_decide_eq_true_2 by done.
    destruct (sk_id k); meta_lookup; by rewrite He.
Qed.

(** Inversion of the liftings. *)
Lemma on_tape_Ok {A} (m : sr Tape AnyError A) (g : Sys K L) a g' :
  on_tape m g = (Ok a, g') ->
  exists t, m (g_tape g) = (Ok a, t) /\
    g' = {| g_skm := g_skm g; g_world := g_world g; g_tape := t; g_legacy := g_legacy g |}.
Proof. unfold on_tape. destruct (m _) as [r t]. intros. simplify_eq. eauto. Qed.

Lemma on_skm_Ok {A} (m : sr Skm AnyError A) (g : Sys K L) a g' :
  on_skm m g = (Ok a, g') ->
  exists s, m (g_skm g) = (Ok a, s) /\
    g' = {| g_skm := s; g_world := g_world g; g_tape := g_tape g; g_legacy := g_legacy g |}.
Proof. unfold on_skm. destruct (m _) as [r s]. intros. simplify_eq. eauto. Qed.

Lemma read_db_Ok {A} (f : Tables -> result AnyError A) (g : Sys K L) a g' :
  read_db f g = (Ok a, g') -> f (w_db (g_world g)) = Ok a /\ g' = g.
Proof. unfold read_db. intros. by simplify_eq. Qed.

Lemma lift_Ok {S E A} (r : result E A) (s : S) a s' : lift r s = (Ok a, s') -> r = Ok a /\ s' = s.
Proof. unfold lift. intros. by simplify_eq. Qed.

Lemma on_legacy_Ok {A} (m : sr (L * Tables) AnyError A) (g : Sys K L) a g' :
  on_legacy m g = (Ok a, g') -> exists l s, m (g_legacy g, w_db (g_world g)) = (Ok a, (l, s)) /\
    g' = {| g_skm := g_skm g; g_world := set_db s (g_world g); g_tape := g_tape g; g_legacy := l |}.
Proof. unfold on_legacy. destruct (m _) as [r [l s]]. intros. simplify_eq. eauto. Qed.

Lemma crypto_err_Ok {A} (r : result CryptoError A) a : crypto_err r = Ok a -> r = Ok a.
Proof. destruct r; simpl; intros; by simplify_eq. Qed.

(** Encryption to the public key of the user. *)
Lemma wrap_public_Ok user blob (g : Sys K L) c m g' :
  encrypt_with_public_key user blob g = (Ok (c, m), g') ->
  exists id e pk,
    load_super_key (kt_alias USER_SCREEN_LOCK_BOUND_P521_KEY) user (w_db (g_world g)) = Ok (Some (id, e)) /\
    sec1_public_key_of (ke_metadata e) = Some pk /\ from_metadata m = Some (DatabaseId id) /\
    forall k' ec, sk_algorithm k' = EcdhP521 -> private_key ec = Ok (sk_key k') -> public_key ec = Ok pk ->
      unwrap_key_with_key c m k' = Ok blob.
Proof.
  unfold encrypt_with_public_key. intros H. apply sr_bind_Ok in H as (o & g1 & [Hl ->]%read_db_Ok & H).
  apply sr_bind_Ok in H as ([id e] & g2 & [Ho ->]%lift_Ok & H). apply ok_or_Ok in Ho as ->.
  apply sr_bind_Ok in H as (pk & g3 & [Hpk ->]%lift_Ok & H). apply ok_or_Ok in Hpk.
  apply sr_bind_Ok in H as ([[[[eph salt] iv] c0] tag] & g4 & (t & Ht%draw_Ok & ->)%on_tape_Ok & H).
  unfold mret, sr_ret in H. simplify_eq. exists id, e, pk. split; [done|]. split; [done|]. split; [by meta_lookup|].
  intros k' ec Ha Hs Hp. unfold unwrap_key_with_key. rewrite Ha. meta_lookup.
  assert (from_private_key (sk_key k') = Ok ec) as Hf by (by eapply from_marshalled).
  rewrite Hf. simpl. by erewrite ecdh_decrypt.
Qed.

(** A blob whose metadata names the super key [i], and which any manager that
    finds a [good] key under that name turns back into [blob]. *)
Definition readable_with (i : SuperKeyIdentifier) (good : SuperKey -> Prop) (c : bytes) (m : BlobMetaData) (blob : bytes) : Prop :=
  from_metadata m = Some i /\
    forall s s' k', lookup_key i s = (Ok (Some k'), s') -> good k' ->
      exists re f, unwrap_key_if_required m c s = (Ok (Sensitive blob re f), s').

Definition same_material (k k' : SuperKey) : Prop :=
  sk_algorithm k' = sk_algorithm k /\ sk_key k' = sk_key k.

Lemma readable_unwrap (good : SuperKey -> Prop) c m i blob :
  from_metadata m = Some i -> (forall k', good k' -> unwrap_key_with_key c m k' = Ok blob) ->
  readable_with i good c m blob.
Proof.
  intros Hi Hk. split; [done|]. intros s s' k' Hl Hg. unfold unwrap_key_if_required. rewrite Hi.
  unfold mbind, sr_bind. rewrite Hl. unfold lift. simpl. rewrite (Hk k' Hg). eauto.
Qed.

Lemma wrap_readable blob k t c m t' :
  encrypt_with_aes_super_key blob k t = (Ok (c, m), t') -> readable_with (sk_id k) (same_material k) c m blob.
Proof.
  intros (Ha & Hi & Hk)%wrap_Ok. eapply readable_unwrap; [done|]. intros k' [H1 H2]. apply Hk; congruence.
Qed.

(** A boot level key is named by its level. *)
Lemma boot_level_key_id level s k s' : lookup_key (BootLevelId level) s = (Ok (Some k), s') -> sk_id k = BootLevelId level.
Proof.
  unfold lookup_key. destruct (boot_level_key_cache s) as [c|]; [|done]. destruct (aes_key _ _ _) as [r c'].
  intros H. apply sr_bind_Ok in H as ([b|] & s1 & _ & H); [|done].
  apply sr_bind_Ok in H as (k1 & s2 & Ha & H). unfold alloc in Ha. unfold mret, sr_ret in H. by simplify_eq.
Qed.

(** What [handle_super_encryption_on_key_init] returns. *)
Lemma super_encryption_sealed flag dom params flags user blob (g : Sys K L) c m g' :
  handle_super_encryption_on_key_init flag dom params flags user blob g = (Ok (c, m), g') ->
  match super_encryption_required flag dom params flags with
  | SENone => c = blob /\ m = ∅
  | LskfBound => exists k, get_per_boot_key_by_user_id (g_skm g) user = Some k /\
      readable_with (sk_id k) (same_material k) c m blob
  | ScreenLockBound =>
    match screen_lock_bound (entry (g_skm g) user) with
    | Some k => readable_with (sk_id k) (same_material k) c m blob
    | None => exists id e pk,
        load_super_key (kt_alias USER_SCREEN_LOCK_BOUND_P521_KEY) user (w_db (g_world g)) = Ok (Some (id, e)) /\
        sec1_public_key_of (ke_metadata e) = Some pk /\
        readable_with (DatabaseId id) (fun k' => sk_algorithm k' = EcdhP521 /\
          exists ec, private_key ec = Ok (sk_key k') /\ public_key ec = Ok pk) c m blob
    end
  | BootLevel level => exists k s1, lookup_key (BootLevelId level) (g_skm g) = (Ok (Some k), s1) /\
      readable_with (BootLevelId level) (same_material k) c m blob
  end.
Proof.
  unfold handle_super_encryption_on_key_init. destruct (super_encryption_required _ _ _ _) as [| | |level]; intros H.
  - unfold mret, sr_ret in H. by simplify_eq.
  - apply sr_bind_Ok in H as (st & g1 & Hst & H). apply sr_bind_Ok in Hst as (o & g2 & (s2 & Hs & ->)%on_skm_Ok & Hst).
    unfold gets in Hs. injection Hs as <- <-. destruct (get_per_boot_key_by_user_id _ _) as [k|].
    + unfold mret, sr_ret in Hst. simplify_eq. apply on_tape_Ok in H as (t & H & _). eauto using wrap_readable.
    + apply sr_bind_Ok in Hst as (b & g3 & _ & Hst). unfold mret, sr_ret in Hst. simplify_eq. by destruct b.
  - apply sr_bind_Ok in H as ([] & g1 & (s1 & Hs1 & ->)%on_skm_Ok & H). unfold modify in Hs1. injection Hs1 as <-.
    apply sr_bind_Ok in H as (o & g2 & (s2 & Hs2 & ->)%on_skm_Ok & H). unfold gets in Hs2. injection Hs2 as <- <-.
    unfold entry in H at 1. simpl in H. rewrite lookup_insert_eq in H. simpl in H.
    destruct (screen_lock_bound (entry _ _)) as [k|].
    + apply on_tape_Ok in H as (t & H & _). eauto using wrap_readable.
    + apply wrap_public_Ok in H as (id & e & pk & Hl & Hpk & Hm & Hk). exists id, e, pk. split_and!; [done..|].
      eapply readable_unwrap; [done|]. intros k' (? & ec & ? & ?). eauto.
  - apply sr_bind_Ok in H as (o & g1 & (s1 & Hs1 & ->)%on_skm_Ok & H).
    apply sr_bind_Ok in H as (k & g2 & [Hk ->]%lift_Ok & H). apply ok_or_Ok in Hk as ->.
    apply on_tape_Ok in H as (t & H & _). exists k, s1. split; [done|]. rewrite <- (boot_level_key_id _ _ _ _ Hs1). eauto using wrap_readable.
Qed.

(** C14: Super encryption loses nothing and names its key.  What
    [handle_super_encryption_on_key_init] stores for a new key is the blob
    itself when no super encryption is required; otherwise its metadata name
    the super key the parameters require, by its identifier, and whenever a
    manager later finds that key under that identifier,
    [unwrap_key_if_required] returns the original blob.  The key is
    the user's per boot key, the screen lock bound key or, while that is
    locked away, the key pair whose public half is in the database, or the
    boot level key: as the key's parameters require. *)
Theorem super_encryption_roundtrip flag dom params flags user blob (g : Sys K L) c m g' :
  handle_super_encryption_on_key_init flag dom params flags user blob g = (Ok (c, m), g') ->
  match super_encryption_required flag dom params flags with
  | SENone => c = blob /\ m = ∅
  | LskfBound => exists k, get_per_boot_key_by_user_id (g_skm g) user = Some k /\
      readable_with (sk_id k) (same_material k) c m blob
  | ScreenLockBound =>
    match screen_lock_bound (entry (g_skm g) user) with
    | Some k => readable_with (sk_id k) (same_material k) c m blob
    | None => exists id e pk,
        load_super_key (kt_alias USER_SCREEN_LOCK_BOUND_P521_KEY) user (w_db (g_world g)) = Ok (Some (id, e)) /\
        sec1_public_key_of (ke_metadata e) = Some pk /\
        readable_with (DatabaseId id) (fun k' => sk_algorithm k' = EcdhP521 /\
          exists ec, private_key ec = Ok (sk_key k') /\ public_key ec = Ok pk) c m blob
    end
  | BootLevel level => exists k s1, lookup_key (BootLevelId level) (g_skm g) = (Ok (Some k), s1) /\
      readable_with (BootLevelId level) (same_material k) c m blob
  end.
Proof. apply super_encryption_sealed. Qed.

(** ** The password brings the key back *)

Definition super_desc (user : Z) (al : string) : KeyDescriptor :=
  {| domain := val Domain.APP; nspace := user; alias := Some al; blob := None |}.

Lemma key_exists_false user al s :
  key_exists (val Domain.APP) user al KeyType.Super s = Ok false ->
  select_where (id_match (super_desc user al) al KeyType.Super) (keyentry s) = [].
Proof.
  unfold key_exists, load_key_entry_id. simpl. fold (super_desc user al).
  destruct (select_where _ _) as [|r [|? ?]]; simpl; [done..|]. by rewrite val_eqb.
Qed.

Lemma store_super_key_then_load draws user al b bm km s gc e s' :
  store_super_key draws user al b bm km s = (Ok (gc, e), s') ->
  select_where (id_match (super_desc user al) al KeyType.Super) (keyentry s) = [] ->
  load_super_key al user s' = Ok (Some (ke_id e, e)).
Proof.
  intros H Hnone. apply (proj1 (transaction_Ok _ _ _ _)) in H.
  apply sr_bind_Ok in H as (id & s1 & (_ & _ & ->)%insert_with_retry_Ok & H).
  apply sr_bind_Ok in H as ([] & s2 & H2 & H). unfold key_metadata_store, modify in H2. injection H2 as <-.
  apply sr_bind_Ok in H as ([] & s3 & (Hke & _)%set_blob_internal_Ok & H).
  apply sr_bind_Ok in H as (e' & s4 & H4 & H). unfold query in H4. injection H4 as H4 <-.
  unfold mret, sr_ret in H. simplify_eq. simpl in Hke.
  assert (ke_id e = id) as Hid.
  { unfold load_key_components in H4. apply bind_Ok in H4 as (md & _ & H4).
    apply bind_Ok in H4 as ([[[hk info] c] ch] & _ & H4). apply bind_Ok in H4 as (ps & _ & H4).
    apply bind_Ok in H4 as (u & _ & H4). by simplify_eq. }
  unfold load_super_key, load_key_entry_id. simpl. fold (super_desc user al). rewrite Hke.
  assert (select_where (id_match (super_desc user al) al KeyType.Super)
    (keyentry s ++ [super_row id (val Domain.APP) user al KEYSTORE_UUID])
    = [super_row id (val Domain.APP) user al KEYSTORE_UUID]) as ->.
  { unfold select_where in *. rewrite filter_app, Hnone. simpl. rewrite filter_cons_True; [done|].
    apply id_match_true. simpl. by rewrite as_u32_domain. }
  simpl. by rewrite Hid, H4.
Qed.

Lemma on_db_Ok {A} (m : sr Tables AnyError (bool * A)) (g : Sys K L) a g' :
  on_db m g = (Ok a, g') -> exists gc s, m (w_db (g_world g)) = (Ok (gc, a), s) /\
    g' = {| g_skm := g_skm g; g_world := {| w_db := s; w_km := w_km (g_world g); w_gc := w_gc (g_world g) || gc |};
            g_tape := g_tape g; g_legacy := g_legacy g |}.
Proof.
  unfold on_db, on_world, with_db. destruct (m _) as [[[gc x]| |] s]; intros; simplify_eq. eauto.
Qed.

(** Populating the cache: the key is what the password decrypts. *)
Lemma populate_Ok user alg e pw s k s' :
  populate_cache_from_super_key_blob user alg e pw s = (Ok k, s') ->
  exists key, decrypt_entry e pw = Ok key /\ k = MkSuperKey (next_addr s) alg key (DatabaseId (ke_id e)) None /\
    s' = snd (populate_cache_from_super_key_blob user alg e pw s).
Proof.
  intros H. rewrite H. unfold populate_cache_from_super_key_blob, extract_super_key_from_key_entry in H.
  apply sr_bind_Ok in H as (k1 & s1 & H1 & H). apply sr_bind_Ok in H1 as (key & s2 & [Hd ->]%lift_Ok & H1).
  unfold alloc in H1. injection H1 as <- <-. apply sr_bind_Ok in H as ([] & s3 & _ & H).
  unfold mret, sr_ret in H. simplify_eq. eauto.
Qed.

Lemma populate_run user alg e pw s key :
  decrypt_entry e pw = Ok key ->
  exists s', populate_cache_from_super_key_blob user alg e pw s
    = (Ok (MkSuperKey (next_addr s) alg key (DatabaseId (ke_id e)) None), s') /\
    get_per_boot_key_by_user_id s' user = Some (MkSuperKey (next_addr s) alg key (DatabaseId (ke_id e)) None).
Proof.
  intros Hd. unfold populate_cache_from_super_key_blob, extract_super_key_from_key_entry, mbind, sr_bind, lift.
  rewrite Hd. eexists. split; [reflexivity|]. unfold get_per_boot_key_by_user_id. simpl. by rewrite lookup_insert_eq.
Qed.

(** The password brings the super key back.  When a user sets a password
    and a super key is created for it, then after a reboot (whatever state
    the new manager is in, whatever the legacy store holds) unlocking with
    the same password yields the same key material under the same id, and
    the user is unlocked. *)
Theorem unlock_after_reboot draws user pw (g : Sys K L) k g' s0 t l :
  check_and_initialize_super_key draws user (Some pw) g = (Ok (LskfUnlocked k), g') ->
  exists k' g2,
    check_and_unlock_super_key user pw {| g_skm := s0; g_world := g_world g'; g_tape := t; g_legacy := l |}
      = (Ok (LskfUnlocked k'), g2) /\
    same_material k k' /\ sk_id k' = sk_id k /\ get_per_boot_key_by_user_id (g_skm g2) user = Some k'.
Proof.
  unfold check_and_initialize_super_key. intros H. apply sr_bind_Ok in H as ([] & g1 & H1 & H); [done|].
  apply sr_bind_Ok in H1 as (b & g2 & [Hex ->]%read_db_Ok & H1). destruct b; [done|].
  apply on_legacy_Ok in H1 as (l1 & s1 & Hl1%lg_has_super_key_db & ->). subst s1. apply key_exists_false in Hex.
  apply sr_bind_Ok in H as (sk & g3 & (t3 & _ & ->)%on_tape_Ok & H).
  apply sr_bind_Ok in H as ([enc m] & g4 & (t4 & _ & ->)%on_tape_Ok & H).
  apply sr_bind_Ok in H as (e & g5 & (gc & s5 & Hst & ->)%on_db_Ok & H).
  apply sr_bind_Ok in H as (k1 & g6 & (s6 & (key & Hd & -> & _)%populate_Ok & ->)%on_skm_Ok & H).
  unfold mret, sr_ret in H. simplify_eq. simpl in *.
  apply store_super_key_then_load in Hst; [|done].
  destruct (populate_run user Aes256Gcm e pw s0 key Hd) as (s' & Hp & Hg).
  eexists _, _. split; [|split; [|split]].
  - unfold check_and_unlock_super_key, load_or_migrate_super_key, read_db, on_skm, mbind, sr_bind. simpl.
    rewrite Hst. simpl. rewrite Hp. reflexivity.
  - done.
  - done.
  - exact Hg.
Qed.

(** ** The price of a boot level *)

(** Finding the key of an accessible boot level leaves a cache that holds a
    key for every level up to it.  The level of a key is an [i32] that the
    client chooses and that is cast to [usize]: for a negative one the
    answer comes only after more than 2^63 keys were derived and stored. *)
Theorem boot_level_cost k0 s c level k s' :
  boot_level_key_cache s = Some c -> BootLevelKeys.reachable hkdf k0 c ->
  level_accessible c (as_u64 level) = true -> lookup_key (BootLevelId level) s = (Ok k, s') ->
  exists c', boot_level_key_cache s' = Some c' /\ as_u64 level < current c + Z.of_nat (length (cache c')) /\
    (i32_range level -> level < 0 -> 2 ^ 63 - current c <= Z.of_nat (length (cache c'))).
Proof.
  intros Hc Hr Hacc H. unfold lookup_key in H. rewrite Hc in H.
  apply (rtc_inv hkdf k0) in Hr as [Hinv _]; [|apply new_cache_inv].
  unfold aes_key, expand_key in H. destruct (get_hkdf_key hkdf c (as_u64 level)) as [r c'] eqn:Hg.
  destruct (get_hkdf_key_spec _ _ _ _ _ _ Hinv Hacc Hg) as (_ & _ & _ & Hk).
  apply level_accessible_spec in Hacc as [Hle _].
  assert (exists c2, boot_level_key_cache s' = Some c2 /\ c2 = c' /\ is_ok r = true) as (c2 & Hs & -> & Hok).
  { apply sr_bind_Ok in H as (o & s1 & [Ho ->]%lift_Ok & H). destruct r as [ok| |]; [|done..].
    destruct o as [key|]; [apply sr_bind_Ok in H as (x & s2 & Hx & H); unfold alloc in Hx; injection Hx as <- <-|];
      unfold mret, sr_ret in H; simplify_eq; eauto. }
  exists c'. split; [done|]. destruct r; [|done..]. destruct Hk as (k' & _ & _ & Hlen).
  split; [lia|]. intros Hi Hneg. unfold as_u64, i32_range in *.
  assert (level mod 2 ^ 64 = level + 2 ^ 64) as E by (rewrite <- (Z.mod_add level 1) by lia; apply Z.mod_small; lia).
  lia.
Qed.
End Wrap.

(** ** User 0 sets a password, and a key is stored *)

#[local] Existing Instances aidl_published toy_boring toy_km no_legacy.

Definition demo_pw : bytes := [7; 7].
Definition demo_init := check_and_initialize_super_key [50] 0 (Some demo_pw) demo_sys.
Definition demo_user : Sys unit unit := snd demo_init.
Definition demo_super_key : SuperKey := MkSuperKey 0 Aes256Gcm (repeat 3 32) (DatabaseId 50) None.

Lemma demo_init_ok : demo_init = (Ok (LskfUnlocked demo_super_key), demo_user).
Proof. vm_compute. reflexivity. Qed.

Lemma unlock_after_reboot_witness : exists k' g2,
  check_and_unlock_super_key 0 demo_pw
    {| g_skm := new_skm; g_world := g_world demo_user; g_tape := []; g_legacy := tt |} = (Ok (LskfUnlocked k'), g2) /\
  sk_key k' = repeat 3 32.
Proof.
  destruct (unlock_after_reboot [50] 0 demo_pw demo_sys demo_super_key demo_user new_skm [] tt demo_init_ok)
    as (k' & g2 & H1 & [_ H2] & _). exists k', g2. split; assumption.
Defined.

Definition demo_bound : list KeyParameter := [{| kp_value := UserSecureID 5; security_level := 1 |}].
Definition demo_wrapped := handle_super_encryption_on_key_init 1 0 demo_bound None 0 [4; 5; 6] demo_user.

Lemma super_encryption_roundtrip_witness : exists c m,
  fst demo_wrapped = Ok (c, m) /\ from_metadata m = Some (DatabaseId 50) /\
  readable_with (DatabaseId 50) (same_material demo_super_key) c m [4; 5; 6].
Proof.
  destruct demo_wrapped as [[[c m]| |] g'] eqn:E; [|vm_compute in E; discriminate E..].
  exists c, m. split; [reflexivity|].
  destruct (super_encryption_roundtrip 1 0 demo_bound None 0 [4; 5; 6] demo_user c m g' E) as (k & H1 & H2).
  vm_compute in H1. injection H1 as <-. split; [exact (proj1 H2)|exact H2].
Defined.
