(* ===== verification/SuperKeySafety.v ===== *)
(** * Locked keys are gone

    The screen lock bound keys of a user are reachable through the index of
    super keys only as long as somebody owns them.  Over every sequence of
    the manager's operations, interleaved with whatever the rest of the
    system does, locking the screen ends all ownership that is not a call in
    flight, and nothing ever brings those objects back. *)

From stdpp Require Import base list gmap strings.
From Stdlib Require Import ZArith Lia.
From S2P Require Import Prelude Aidl Errors Sql KeyParameter Perboot BootLevelKeys Enforcements DbTypes Database DbInvariant DbKeys Crypto RawDevice SuperKey SuperKeyCrypto.

Section Owned.
Implicit Types (s : Skm) (k : SuperKey) (e : UserSuperKeys).

Lemma elem_of_owned s k :
  k ∈ owned s <-> (exists u e, user_keys s !! u = Some e /\ k ∈ entry_arcs e) \/
                  (exists h, h ∈ held s /\ k ∈ arcs h).
Proof.
  unfold owned. rewrite elem_of_app, !list_elem_of_join. split.
  - intros [(l & Hk & ([u e] & -> & Hu)%list_elem_of_fmap)|(l & Hk & (h & -> & Hh)%list_elem_of_fmap)]; [left|right; eauto].
    apply elem_of_map_to_list in Hu. eauto.
  - intros [(u & e & Hu & Hk)|(h & Hh & Hk)]; [left|right].
    + exists (entry_arcs e). split; [done|]. apply list_elem_of_fmap. exists (u, e). split; [done|]. by apply elem_of_map_to_list.
    + exists (arcs h). split; [done|]. by apply list_elem_of_fmap_2.
Qed.

(** What the screen lock fields of a user keep alive. *)
Definition slot_arcs e : list SuperKey := opt_arcs (screen_lock_bound e) ++ opt_arcs (screen_lock_bound_private e).

Lemma elem_of_entry_arcs e k : k ∈ entry_arcs e <-> k ∈ opt_arcs (per_boot e) \/ k ∈ slot_arcs e.
Proof. unfold entry_arcs, slot_arcs. set_solver. Qed.

(** Objects have been allocated; the screen lock fields of a user share no
    object with any other field of any user. *)
Record skm_inv s : Prop := {
  inv_alloc : forall k, k ∈ owned s -> (sk_addr k < next_addr s)%nat;
  inv_per_boot : forall u v e e' k k', user_keys s !! u = Some e -> user_keys s !! v = Some e' ->
    k ∈ slot_arcs e -> k' ∈ opt_arcs (per_boot e') -> sk_addr k <> sk_addr k';
  inv_users : forall u v e e' k k', u <> v -> user_keys s !! u = Some e -> user_keys s !! v = Some e' ->
    k ∈ slot_arcs e -> k' ∈ slot_arcs e' -> sk_addr k <> sk_addr k'
}.

Lemma new_skm_inv : skm_inv new_skm.
Proof.
  constructor; simpl; [|intros u v e e' k k' Hu; by rewrite lookup_empty in Hu|intros u v e e' k k' _ Hu; by rewrite lookup_empty in Hu].
  intros k [(u & e & Hu & _)|(h & Hh & _)]%elem_of_owned.
  - simpl in Hu. by rewrite lookup_empty in Hu.
  - by apply not_elem_of_nil in Hh.
Qed.

(** A key that nobody owns yet. *)
Definition unowned s k : Prop :=
  (sk_addr k < next_addr s)%nat /\ forall x, x ∈ owned s -> sk_addr x <> sk_addr k.

(** [s'] owns nothing but what [s] owned or what was allocated since. *)
Definition evolves s s' : Prop :=
  (next_addr s <= next_addr s')%nat /\
  forall k, k ∈ owned s' -> k ∈ owned s \/ (next_addr s <= sk_addr k)%nat.

Lemma evolves_refl s : evolves s s.
Proof. split; [done|auto]. Qed.

Lemma evolves_trans s1 s2 s3 : evolves s1 s2 -> evolves s2 s3 -> evolves s1 s3.
Proof.
  intros [H1 H2] [H3 H4]. split; [lia|]. intros k [Hk|Hk]%H4; [auto|]. right. lia.
Qed.

(** An object nobody owns is never owned again. *)
Definition dead s (a : nat) : Prop := (a < next_addr s)%nat /\ forall k, k ∈ owned s -> sk_addr k <> a.

Lemma dead_stays s s' a : evolves s s' -> dead s a -> dead s' a.
Proof. intros [H1 H2] [Ha Hd]. split; [lia|]. intros k [Hk|Hk]%H2; [auto|lia]. Qed.

Lemma dead_upgrade s a : dead s a -> upgrade s a = None.
Proof.
  intros [_ Hd]. unfold upgrade. destruct (filter _ _) as [|x l] eqn:E; [done|].
  assert (x ∈ filter (fun k => sk_addr k = a) (owned s)) as [Hx Hin]%list_elem_of_filter by (rewrite E; left).
  by apply Hd in Hin.
Qed.

(** The two together, from a starting point [s0]. *)
Definition good s0 s : Prop := evolves s0 s /\ skm_inv s.

(** Ownership only depends on the users and the held keys. *)
Lemma good_same s0 s s' :
  good s0 s -> user_keys s' = user_keys s -> held s' = held s -> (next_addr s <= next_addr s')%nat -> good s0 s'.
Proof.
  intros [[E1 E2] [I1 I2 I3]] Hu Hh Hn.
  assert (forall k, k ∈ owned s' -> k ∈ owned s) as Ho by (intros k; by rewrite !elem_of_owned, Hu, Hh).
  split; [split; [lia|intros k Hk; apply E2; auto]|]. constructor; rewrite ?Hu; [|done..].
  intros k Hk%Ho%I1. lia.
Qed.

Lemma elem_of_set_entry s u e k :
  k ∈ owned (set_entry u e s) -> k ∈ entry_arcs e \/ k ∈ owned s.
Proof.
  rewrite !elem_of_owned. simpl. intros [(v & e' & Hv & Hk)|?]; [|auto].
  apply lookup_insert_Some in Hv as [[_ <-]|[_ Hv]]; [by left|right; left; eauto].
Qed.

Lemma entry_owned s u k : k ∈ entry_arcs (entry s u) -> k ∈ owned s /\ exists e, user_keys s !! u = Some e /\ entry s u = e.
Proof.
  unfold entry. destruct (user_keys s !! u) as [e|] eqn:E; simpl; [|by intros ?%not_elem_of_nil].
  intros Hk. split; [apply elem_of_owned; eauto|eauto].
Qed.

(** The slots of the current entry, as the invariant sees them. *)
Lemma entry_slot s u x : x ∈ slot_arcs (entry s u) -> x ∈ owned s /\ user_keys s !! u = Some (entry s u).
Proof.
  intros Hx. destruct (entry_owned s u x) as (? & e & ? & ->); [|done]. apply elem_of_entry_arcs. by right.
Qed.
Lemma entry_per_boot s u x :
  x ∈ opt_arcs (per_boot (entry s u)) -> x ∈ owned s /\ user_keys s !! u = Some (entry s u).
Proof.
  intros Hx. destruct (entry_owned s u x) as (? & e & ? & ->); [|done]. apply elem_of_entry_arcs. by left.
Qed.
Lemma user_slot s u e x : user_keys s !! u = Some e -> x ∈ slot_arcs e -> x ∈ owned s.
Proof. intros. apply elem_of_owned. left. exists u, e. split; [done|]. apply elem_of_entry_arcs. by right. Qed.
Lemma user_per_boot s u e x : user_keys s !! u = Some e -> x ∈ opt_arcs (per_boot e) -> x ∈ owned s.
Proof. intros. apply elem_of_owned. left. exists u, e. split; [done|]. apply elem_of_entry_arcs. by left. Qed.

(** An entry is replaced by one whose new objects nobody owns. *)
Lemma good_set_entry s0 s u e :
  good s0 s ->
  (forall x, x ∈ slot_arcs e -> x ∈ slot_arcs (entry s u) \/ (unowned s x /\ (next_addr s0 <= sk_addr x)%nat)) ->
  (forall x, x ∈ opt_arcs (per_boot e) ->
     x ∈ opt_arcs (per_boot (entry s u)) \/ (unowned s x /\ (next_addr s0 <= sk_addr x)%nat)) ->
  (forall x y, x ∈ slot_arcs e -> y ∈ opt_arcs (per_boot e) -> sk_addr x <> sk_addr y) ->
  good s0 (set_entry u e s).
Proof.
  intros [[E1 E2] [I1 I2 I3]] Hs Hp Hd.
  assert (forall x, x ∈ owned (set_entry u e s) -> x ∈ owned s \/ (unowned s x /\ (next_addr s0 <= sk_addr x)%nat)) as Ho.
  { intros x [[Hx|Hx]%elem_of_entry_arcs|Hx]%elem_of_set_entry; [| |auto].
    - apply Hp in Hx as [?%entry_per_boot|?]; naive_solver.
    - apply Hs in Hx as [?%entry_slot|?]; naive_solver. }
  split; [split; [done|]|constructor].
  - intros x [Hx|[_ Hx]]%Ho; auto.
  - intros x [Hx|[[Hx _] _]]%Ho; [by apply I1|done].
  - intros v w ev ew x y Hv Hw Hx Hy. simpl in *.
    apply lookup_insert_Some in Hv as [[<- <-]|[Hne Hv]]; apply lookup_insert_Some in Hw as [[<- <-]|[Hne' Hw]].
    + by apply Hd.
    + destruct (Hs x Hx) as [Hx'|[[_ Hf] _]].
      * pose proof (entry_slot _ _ _ Hx') as [_ Hu]. exact (I2 _ _ _ _ _ _ Hu Hw Hx' Hy).
      * intros E. by eapply (Hf y); [eapply user_per_boot|].
    + destruct (Hp y Hy) as [Hy'|[[_ Hf] _]].
      * pose proof (entry_per_boot _ _ _ Hy') as [_ Hu]. exact (I2 _ _ _ _ _ _ Hv Hu Hx Hy').
      * eapply Hf. by eapply user_slot.
    + exact (I2 _ _ _ _ _ _ Hv Hw Hx Hy).
  - intros v w ev ew x y Hvw Hv Hw Hx Hy. simpl in *.
    apply lookup_insert_Some in Hv as [[<- <-]|[Hne Hv]]; apply lookup_insert_Some in Hw as [[<- <-]|[Hne' Hw]].
    + done.
    + destruct (Hs x Hx) as [Hx'|[[_ Hf] _]].
      * pose proof (entry_slot _ _ _ Hx') as [_ Hu]. exact (I3 _ _ _ _ _ _ Hvw Hu Hw Hx' Hy).
      * intros E. by eapply (Hf y); [eapply user_slot|].
    + destruct (Hs y Hy) as [Hy'|[[_ Hf] _]].
      * pose proof (entry_slot _ _ _ Hy') as [_ Hu]. exact (I3 _ _ _ _ _ _ Hvw Hv Hu Hx Hy').
      * eapply Hf. by eapply user_slot.
    + exact (I3 _ _ _ _ _ _ Hvw Hv Hw Hx Hy).
Qed.

(** Dropping owners. *)
Lemma good_drop s0 s s' :
  good s0 s -> (next_addr s <= next_addr s')%nat -> (forall x, x ∈ owned s' -> x ∈ owned s) ->
  (forall u e, user_keys s' !! u = Some e -> user_keys s !! u = Some e) -> good s0 s'.
Proof.
  intros [[E1 E2] [I1 I2 I3]] Hn Ho Hu. split; [split; [lia|auto]|]. constructor.
  - intros k Hk%Ho%I1. lia.
  - intros u v e e' k k' H1%Hu H2%Hu. eauto.
  - intros u v e e' k k' Huv H1%Hu H2%Hu. eauto.
Qed.
End Owned.

(** ** Operations *)

Section Ops.
Context {AI : Aidl} `{BO : Boring} {K : Type} `{KMI : !KeyMint K} {L : Type} `{LG : !Legacy L}.
Implicit Types (g : Sys K L) (s : Skm).

Abbreviation O := (sr (Sys K L) AnyError).

(** [m] started in a good state with [P] ends in a good state, whatever its
    result; if it succeeds, with [Q]. *)
Definition keeps {A} (s0 : Skm) (P : Skm -> Prop) (m : O A) (Q : A -> Skm -> Prop) : Prop :=
  forall g r g', good s0 (g_skm g) -> P (g_skm g) -> m g = (r, g') ->
    good s0 (g_skm g') /\ match r with Ok a => Q a (g_skm g') | _ => True end.

(** Code that leaves the manager alone. *)
Definition still {A} (m : O A) : Prop := forall g r g', m g = (r, g') -> g_skm g' = g_skm g.

Lemma still_ret {A} (a : A) : still (mret a).
Proof. intros g r g' H. unfold mret, sr_ret in H. by simplify_eq. Qed.
Lemma still_lift {A} (r : result AnyError A) : still (lift r).
Proof. intros g r' g' H. unfold lift in H. by simplify_eq. Qed.
Lemma still_read {A} (f : Tables -> result AnyError A) : still (read_db f).
Proof. intros g r g' H. unfold read_db in H. by simplify_eq. Qed.
Lemma still_world {A} (m : sr (World K) AnyError A) : still (on_world m).
Proof. intros g r g' H. unfold on_world in H. destruct (m _). by simplify_eq. Qed.
Lemma still_db {A} (m : sr Tables AnyError (bool * A)) : still (on_db m).
Proof. apply still_world. Qed.
Lemma still_tape {A} (m : sr Tape AnyError A) : still (on_tape m).
Proof. intros g r g' H. unfold on_tape in H. destruct (m _). by simplify_eq. Qed.
Lemma still_legacy {A} (m : sr (L * Tables) AnyError A) : still (on_legacy m).
Proof. intros g r g' H. unfold on_legacy in H. destruct (m _) as [? []]. by simplify_eq. Qed.
Lemma still_has user : still (legacy_has_super_key user).
Proof. apply still_legacy. Qed.
Lemma still_gets {A} (f : Skm -> A) : still (on_skm (gets f)).
Proof. intros g r g' H. unfold on_skm, gets in H. by simplify_eq. Qed.
Lemma still_bind {A B} (m : O A) (f : A -> O B) : still m -> (forall a, still (f a)) -> still (m ≫= f).
Proof.
  intros Hm Hf g r g' H. unfold mbind, sr_bind in H. destruct (m g) as [[a| |] g1] eqn:E; apply Hm in E;
    simplify_eq; [|done..]. apply Hf in H. congruence.
Qed.
#[local] Hint Resolve still_ret still_lift still_read still_world still_db still_tape still_legacy still_has still_gets
  still_bind : keystore.

Lemma keeps_still {A} s0 P (m : O A) : still m -> keeps s0 P m (fun _ => P).
Proof. intros Hm g r g' Hg HP H. apply Hm in H. rewrite H. split; [done|]. by destruct r. Qed.

Lemma keeps_bind {A B} s0 P (m : O A) R (f : A -> O B) Q :
  keeps s0 P m R -> (forall a, keeps s0 (R a) (f a) Q) -> keeps s0 P (m ≫= f) Q.
Proof.
  intros Hm Hf g r g' Hg HP H. unfold mbind, sr_bind in H. destruct (m g) as [[a| |] g1] eqn:E;
    destruct (Hm _ _ _ Hg HP E) as [Hg1 HR]; [by eapply Hf|by simplify_eq..].
Qed.

Lemma keeps_conseq {A} s0 P P' (m : O A) Q Q' :
  (forall s, P' s -> P s) -> (forall a s, Q a s -> Q' a s) -> keeps s0 P m Q -> keeps s0 P' m Q'.
Proof.
  intros HP HQ Hm g r g' Hg H' H. destruct (Hm g r g' Hg (HP _ H') H) as [? HR]. split; [done|]. destruct r; auto.
Qed.

Lemma keeps_ret {A} s0 P (a : A) : keeps s0 P (mret a) (fun _ => P).
Proof. apply keeps_still, still_ret. Qed.

Lemma keeps_ret_val {A} s0 (Q : A -> Skm -> Prop) (a : A) : keeps s0 (Q a) (mret a) Q.
Proof. intros g r g' Hg HQ H. unfold mret, sr_ret in H. by simplify_eq. Qed.

Lemma keeps_gets {A} s0 P (f : Skm -> A) : keeps s0 P (on_skm (gets f)) (fun a s => P s /\ a = f s).
Proof. intros g r g' Hg HP H. unfold on_skm, gets in H. by simplify_eq. Qed.

Lemma keeps_modify s0 (P Q : Skm -> Prop) f :
  (forall s, good s0 s -> P s -> good s0 (f s) /\ Q (f s)) -> keeps s0 P (on_skm (modify f)) (fun _ => Q).
Proof. intros Hf g r g' Hg HP H. unfold on_skm, modify in H. simplify_eq. simpl. auto. Qed.

(** The users and the held keys are as given. *)
Definition frozen (U : gmap Z UserSuperKeys) (H : list SuperKey) s : Prop := user_keys s = U /\ held s = H.

Lemma owned_frozen U H s s' : frozen U H s -> frozen U H s' -> forall x, x ∈ owned s <-> x ∈ owned s'.
Proof. intros [H1 H2] [H3 H4] x. by rewrite !elem_of_owned, H1, H2, H3, H4. Qed.

(** A key fresh from [Arc::new], with what it refers to. *)
Definition made (s0 : Skm) (re : option SuperKey) (k : SuperKey) s : Prop :=
  unowned s k /\ (next_addr s0 <= sk_addr k)%nat /\ arcs k = k :: opt_arcs re.

Definition stable (P : Skm -> Prop) : Prop := forall s s',
  P s -> user_keys s' = user_keys s -> held s' = held s -> (next_addr s <= next_addr s')%nat -> P s'.
Lemma stable_True : stable (fun _ => True).
Proof. done. Qed.
Lemma stable_frozen U H : stable (frozen U H).
Proof. intros s s' [<- <-]. done. Qed.
Lemma stable_unowned k : stable (fun s => unowned s k).
Proof.
  intros s s' [H1 H2] Hu Hh Hn. split; [lia|]. intros x Hx. apply H2. revert Hx. by rewrite !elem_of_owned, Hu, Hh.
Qed.
Lemma stable_made s0 re k : stable (made s0 re k).
Proof. intros s s' (H1 & H2) Hu Hh Hn. split; [by eapply (stable_unowned k s)|done]. Qed.
Lemma stable_entry user (f : UserSuperKeys -> Prop) : stable (fun s => f (entry s user)).
Proof. unfold entry. intros s s' H Hu _ _. by rewrite Hu. Qed.

Lemma keeps_alloc s0 P alg key i re :
  stable P -> keeps s0 P (on_skm (alloc alg key i re)) (fun k s => made s0 re k s /\ P s).
Proof.
  intros HP g r g' Hg Hpre E. unfold on_skm, alloc in E. simplify_eq. simpl.
  split; [apply (good_same _ _ _ Hg); simpl; [done|done|lia]|].
  split; [|apply (HP (g_skm g)); simpl; [done|done|done|lia]]. destruct Hg as [[E1 E2] [I1 _ _]].
  split; [|split; [done|by destruct re]]. split; [simpl; lia|].
  intros x Hx. assert (x ∈ owned (g_skm g)) as Hx' by (revert Hx; rewrite !elem_of_owned; done).
  apply I1 in Hx'. simpl. lia.
Qed.

(** Code that changes neither the users nor the held keys. *)
Definition calm {A} (m : sr Skm AnyError A) : Prop := forall s r s',
  m s = (r, s') -> user_keys s' = user_keys s /\ held s' = held s /\ (next_addr s <= next_addr s')%nat.

Lemma calm_lookup i : calm (lookup_key i).
Proof.
  intros s r s' H. destruct i as [id|level]; simpl in H; [unfold gets in H; by simplify_eq|].
  destruct (boot_level_key_cache s) as [c|]; [|by simplify_eq]. destruct (aes_key _ _ _) as [r1 c'].
  unfold mbind, sr_bind, lift, alloc, mret, sr_ret in H. destruct r1 as [[k|]| |]; simplify_eq; simpl; split_and!; try done; lia.
Qed.
Lemma calm_index k : calm (add_key_to_key_index k).
Proof. intros s r s' H. unfold add_key_to_key_index, modify, throw in H. destruct (sk_id k); by simplify_eq. Qed.
Lemma calm_watch level : calm (watch_boot_level_step level).
Proof.
  intros s r s' H. unfold watch_boot_level_step in H. destruct (boot_level_key_cache s); [|by simplify_eq].
  destruct (_ <? _); [destruct (advance_boot_level _ _ _)|]; by simplify_eq.
Qed.
Lemma calm_bind {A B} (m : sr Skm AnyError A) (f : A -> sr Skm AnyError B) :
  calm m -> (forall a, calm (f a)) -> calm (m ≫= f).
Proof.
  intros Hm Hf s r s' H. unfold mbind, sr_bind in H. destruct (m s) as [[a| |] s1] eqn:E; apply Hm in E as (H1 & H2 & H3);
    [apply Hf in H as (-> & -> & ?); split_and!; [done..|lia]|by simplify_eq..].
Qed.
Lemma calm_lift {A} (r : result AnyError A) : calm (lift r).
Proof. intros s r' s' H. unfold lift in H. by simplify_eq. Qed.
Lemma calm_ret {A} (a : A) : calm (mret a).
Proof. intros s r' s' H. unfold mret, sr_ret in H. by simplify_eq. Qed.
Lemma calm_unwrap m b : calm (unwrap_key_if_required m b).
Proof.
  unfold unwrap_key_if_required. destruct (from_metadata m); [|apply calm_ret].
  repeat (apply calm_bind; [apply calm_lookup || apply calm_lift|intros ?]). apply calm_ret.
Qed.

Lemma keeps_calm {A} s0 P (m : sr Skm AnyError A) : stable P -> calm m -> keeps s0 P (on_skm m) (fun _ => P).
Proof.
  intros HP Hm g r g' Hg Hpre H. unfold on_skm in H. destruct (m (g_skm g)) as [r1 s1] eqn:E. simplify_eq. simpl.
  apply Hm in E as (H1 & H2 & H3). split; [by eapply good_same|]. destruct r; [by eapply HP|done..].
Qed.

(** A lemma for every snapshot of the users is one for all states. *)
Lemma keeps_frozen {A} s0 (m : O A) Q :
  (forall U H, keeps s0 (frozen U H) m Q) -> keeps s0 (fun _ => True) m Q.
Proof. intros Hm g r g' Hg _ H. by eapply Hm. Qed.

(** The user's entry changes in its screen lock fields only. *)
Lemma good_slots s0 s u e :
  good s0 s -> per_boot e = per_boot (entry s u) ->
  (forall x, x ∈ slot_arcs e -> x ∈ slot_arcs (entry s u) \/ (unowned s x /\ (next_addr s0 <= sk_addr x)%nat)) ->
  good s0 (set_entry u e s).
Proof.
  intros Hg Hp Hs. apply good_set_entry; [done|done|rewrite Hp; auto|].
  intros x y Hx Hy. rewrite Hp in Hy. pose proof (entry_per_boot _ _ _ Hy) as [Ho Hu].
  destruct (Hs x Hx) as [Hx'|[[_ Hf] _]]; [|intros E; by eapply (Hf y)].
  destruct Hg as [_ [_ I2 _]]. exact (I2 _ _ _ _ _ _ Hu Hu Hx' Hy).
Qed.

Lemma keeps_touch s0 P user :
  stable P -> (forall s, P s -> P (set_entry user (entry s user) s)) ->
  keeps s0 P (on_skm (modify (fun s => set_entry user (entry s user) s))) (fun _ => P).
Proof. intros _ HP. apply keeps_modify. intros s Hg Hs. split; [|auto]. apply good_slots; auto. Qed.

Lemma keeps_extract s0 U H alg e pw re :
  keeps s0 (frozen U H) (on_skm (extract_super_key_from_key_entry alg e pw re))
    (fun k s => made s0 re k s /\ frozen U H s).
Proof.
  intros g r g' Hg HP E. unfold extract_super_key_from_key_entry, on_skm, mbind, sr_bind, lift in E.
  destruct (decrypt_entry e pw) as [key| |]; [|by simplify_eq; destruct g..].
  eapply (keeps_alloc s0 (frozen U H) alg key (DatabaseId (ke_id e)) re); [apply stable_frozen|done..|]. unfold on_skm. exact E.
Qed.

Lemma keeps_install_per_boot s0 user k :
  keeps s0 (made s0 None k) (on_skm (modify (fun s => set_entry user (set_per_boot (Some k) (entry s user)) s)))
    (fun _ _ => True).
Proof.
  apply keeps_modify. intros s Hg (Hf & Hn & Ha). split; [|done]. apply good_set_entry; [done|by left| |].
  - intros x. simpl. rewrite Ha. simpl. rewrite list_elem_of_singleton. intros ->. by right.
  - intros x y Hx. simpl. rewrite Ha. simpl. rewrite list_elem_of_singleton. intros ->.
    apply entry_slot in Hx as [Hx _]. by apply Hf.
Qed.

Lemma keeps_populate s0 user alg e pw :
  keeps s0 (fun _ => True) (on_skm (populate_cache_from_super_key_blob user alg e pw)) (fun _ _ => True).
Proof.
  apply keeps_frozen. intros U H.
  assert (keeps s0 (frozen U H)
    (k ← on_skm (extract_super_key_from_key_entry alg e pw None);
     _ ← on_skm (add_key_to_key_index k);
     _ ← on_skm (modify (fun s => set_entry user (set_per_boot (Some k) (entry s user)) s));
     mret k) (fun _ _ => True)) as Hk.
  { eapply keeps_bind; [apply keeps_extract|]. intros k. eapply keeps_bind.
    - eapply keeps_conseq; [intros s [Hm _]; exact Hm|intros a s Hs; exact Hs|]. apply keeps_calm; [apply stable_made|apply calm_index].
    - intros []. eapply keeps_bind; [apply keeps_install_per_boot|]. intros []. apply keeps_ret. }
  intros g r g' Hg HP E. eapply Hk; [exact Hg|exact HP|]. rewrite <- E. clear.
  unfold populate_cache_from_super_key_blob, install_per_boot_key_for_user, on_skm, mbind, sr_bind, mret, sr_ret, modify.
  destruct (extract_super_key_from_key_entry _ _ _ _ _) as [[k| |] s1]; simpl; [|done..].
  destruct (add_key_to_key_index k s1) as [[[]| |] s2]; done.
Qed.

Lemma keeps_unlock_user s0 draws uuid user pw :
  keeps s0 (fun _ => True) (unlock_user_key draws uuid user pw) (fun _ _ => True).
Proof.
  unfold unlock_user_key. eapply keeps_bind; [apply keeps_still; auto with keystore|]. intros absent.
  eapply keeps_bind; [apply keeps_still; intros ? ? ? [= _ <-]; done|]. intros legacy.
  eapply keeps_bind; [apply keeps_still; destruct absent; auto with keystore|]. intros new.
  eapply keeps_bind; [apply keeps_still; auto with keystore|]. intros [i e].
  eapply keeps_bind; [apply keeps_populate|]. intros k. apply keeps_ret.
Qed.

Lemma keeps_get_or_create s0 U H draws user kt pw re :
  keeps s0 (frozen U H) (get_or_create_super_key draws user kt pw re) (fun k s => made s0 re k s /\ frozen U H s).
Proof.
  unfold get_or_create_super_key. eapply keeps_bind; [apply keeps_still; auto with keystore|]. intros [[i e]|].
  - apply keeps_extract.
  - eapply keeps_bind; [apply keeps_still; auto with keystore|]. intros [sk pk].
    eapply keeps_bind; [apply keeps_still; auto with keystore|]. intros [enc m].
    eapply keeps_bind; [apply keeps_still; auto with keystore|]. intros e. apply keeps_alloc, stable_frozen.
Qed.

(** Filling a screen lock field: what the new key refers to is in a slot of
    the same user already. *)
Lemma keeps_fill s0 P user get set re (f : O SuperKey) :
  (forall k e, get (set (Some k) e) = Some k /\ per_boot (set (Some k) e) = per_boot e) ->
  (forall k e x, x ∈ slot_arcs (set (Some k) e) -> x ∈ arcs k \/ x ∈ slot_arcs e) ->
  (forall s x, P s -> x ∈ opt_arcs re -> x ∈ slot_arcs (entry s user)) -> stable P ->
  (forall U H, keeps s0 (frozen U H) f (fun k s => made s0 re k s /\ frozen U H s)) ->
  keeps s0 P (get_or_try_to_insert_with user get set f) (fun k s => get (entry s user) = Some k).
Proof.
  intros Hget Hset Hre HP Hf. unfold get_or_try_to_insert_with.
  eapply keeps_bind; [apply keeps_gets|]. intros [k|].
  { eapply keeps_conseq; [intros s Hs; exact Hs|intros a s Hs; exact Hs|]. intros g r g' Hg [_ Hk] E.
    unfold mret, sr_ret in E. by simplify_eq. }
  intros g r g' Hg [HPg _] E.
  assert (keeps s0 (frozen (user_keys (g_skm g)) (held (g_skm g)))
    (k ← f; _ ← on_skm (modify (fun s => set_entry user (set (Some k) (entry s user)) s)); mret k)
    (fun k s => get (entry s user) = Some k)) as Hk.
  { eapply keeps_bind; [apply Hf|]. intros k. eapply (keeps_bind s0 _ _ (fun _ s => get (entry s user) = Some k));
      [|intros []; apply (keeps_ret_val s0 (fun k s => get (entry s user) = Some k))].
    apply keeps_modify. intros s Hgs [(Hu & Hn & Ha) [Hus Hhs]]. destruct (Hget k (entry s user)) as [Hgk Hpk].
    assert (entry s user = entry (g_skm g) user) as Hen by (unfold entry; by rewrite Hus).
    split; [|unfold entry; simpl; by rewrite lookup_insert_eq].
    apply good_slots; [done|done|]. intros x [Hx|Hx]%Hset; [|by left]. rewrite Ha in Hx.
    apply elem_of_cons in Hx as [->|Hx]; [by right|]. left. rewrite Hen. by apply Hre. }
  by eapply Hk.
Qed.

Lemma keeps_unlock_screen s0 draws draws' user pw :
  keeps s0 (fun _ => True) (unlock_screen_lock_bound_key draws draws' user pw) (fun _ _ => True).
Proof.
  unfold unlock_screen_lock_bound_key. eapply keeps_bind; [by apply keeps_touch|]. intros [].
  eapply keeps_bind.
  { apply (keeps_fill s0 (fun _ => True) user screen_lock_bound set_slb None); [done| |by intros s x _ ?%not_elem_of_nil|done|].
    - intros k e x. unfold slot_arcs. simpl. set_solver.
    - intros U H. apply keeps_get_or_create. }
  intros aes. eapply keeps_bind.
  { apply (keeps_fill s0 (fun s => screen_lock_bound (entry s user) = Some aes) user
      screen_lock_bound_private set_slbp (Some aes)); [done| | | |].
    - intros k e x. unfold slot_arcs. simpl. set_solver.
    - intros s x Hs Hx. unfold slot_arcs. rewrite Hs. set_solver.
    - apply (stable_entry user (fun e => screen_lock_bound e = Some aes)).
    - intros U H. apply keeps_get_or_create. }
  intros ecdh. apply (keeps_conseq s0 (fun _ => True) _ _ (fun _ _ => True)); [done|done|].
  eapply keeps_bind; [apply keeps_calm; [apply stable_True|apply calm_index]|]. intros [].
  apply keeps_calm; [apply stable_True|apply calm_index].
Qed.

(** *** Locking and biometric unlock *)

Context (km_uuid : Uuid) (AID_KEYSTORE : Z) (now : result AnyError Z) (gcm none fingerprint : Z).

Abbreviation lock := (lock_screen_lock_bound_key km_uuid AID_KEYSTORE now gcm none fingerprint).
Abbreviation biometric := (try_unlock_user_with_biometric km_uuid AID_KEYSTORE gcm none).

Lemma still_then {A B} (m : O A) (f : A -> O B) g r g' :
  still m -> (m ≫= f) g = (r, g') -> g_skm g' = g_skm g \/ exists a g1, g_skm g1 = g_skm g /\ f a g1 = (r, g').
Proof.
  intros Hm H. unfold mbind, sr_bind in H. destruct (m g) as [[a| |] g1] eqn:E; apply Hm in E; simplify_eq; eauto.
Qed.

(** Setting up the biometric unlock, whatever comes of it, changes at most
    the biometric record. *)
Lemma set_up_effect alias_of device draws user sids aes ecdh g r g' :
  set_up_biometric_unlock km_uuid AID_KEYSTORE now gcm none fingerprint alias_of device draws user sids aes ecdh g = (r, g') ->
  exists b, g_skm g' = g_skm g \/ g_skm g' = set_entry user (set_biometric b (entry (g_skm g) user)) (g_skm g).
Proof.
  unfold set_up_biometric_unlock. intros H.
  repeat (apply still_then in H as [H|(? & ? & <- & H)]; [exists None; by left| |auto with keystore]).
  unfold on_skm, modify in H. simplify_eq. eexists. right. reflexivity.
Qed.

Definition cleared user s : Skm := set_entry user (set_slb None (set_slbp None (entry s user))) s.

Lemma good_cleared s0 user s : good s0 s -> good s0 (cleared user s).
Proof. intros Hg. apply good_slots; [done|done|]. intros x Hx. by apply not_elem_of_nil in Hx. Qed.

(** Clearing the slots ends the life of what was in them. *)
Lemma cleared_dead user s k :
  skm_inv s -> k ∈ slot_arcs (entry s user) ->
  (forall h x, h ∈ held s -> x ∈ arcs h -> sk_addr x <> sk_addr k) -> dead (cleared user s) (sk_addr k).
Proof.
  intros [I1 I2 I3] Hk Hh. pose proof (entry_slot _ _ _ Hk) as [Ho Hu]. split; [by apply I1|].
  intros x [(v & e & Hv & Hx)|(h & Hin & Hx)]%elem_of_owned; [|by eapply Hh].
  simpl in Hv. apply not_eq_sym. apply lookup_insert_Some in Hv as [[<- <-]|[Hne Hv]].
  - apply elem_of_entry_arcs in Hx as [Hx|Hx%not_elem_of_nil]; [|done]. exact (I2 _ _ _ _ _ _ Hu Hu Hk Hx).
  - apply elem_of_entry_arcs in Hx as [Hx|Hx]; [exact (I2 _ _ _ _ _ _ Hu Hv Hk Hx)|exact (I3 _ _ _ _ _ _ Hne Hu Hv Hk Hx)].
Qed.

(** The middle part of [lock], whatever comes of it. *)
Lemma attempt_effect alias_of device draws user sids e0 g r g' :
  (match sids, screen_lock_bound e0, screen_lock_bound_private e0 with
   | _ :: _, Some aes, Some ecdh =>
     ignore_error (set_up_biometric_unlock km_uuid AID_KEYSTORE now gcm none fingerprint alias_of device draws user sids aes ecdh)
   | _, _, _ => mret tt
   end) g = (r, g') ->
  is_err r = false /\
  exists b, g_skm g' = g_skm g \/ g_skm g' = set_entry user (set_biometric b (entry (g_skm g) user)) (g_skm g).
Proof.
  assert (forall g r g', (mret tt : O unit) g = (r, g') -> is_err r = false /\ exists b : option BiometricUnlock,
    g_skm g' = g_skm g \/ g_skm g' = set_entry user (set_biometric b (entry (g_skm g) user)) (g_skm g)) as Hret.
  { intros g1 r1 g1' H. unfold mret, sr_ret in H. simplify_eq. split; [done|]. exists None. by left. }
  destruct sids as [|sid sids]; [apply Hret|]. destruct (screen_lock_bound e0) as [aes|]; [|apply Hret].
  destruct (screen_lock_bound_private e0) as [ecdh|]; [|apply Hret]. intros H. unfold ignore_error in H.
  destruct (set_up_biometric_unlock _ _ _ _ _ _ _ _ _ _ _ _ _ g) as [r1 g1] eqn:E. apply set_up_effect in E as [b Hb].
  destruct r1; simplify_eq; split; eauto.
Qed.

(** What [lock] leaves: the manager it found, up to the user's biometric
    record, with the slots cleared. *)
Lemma lock_effect alias_of device draws user sids g r g' :
  lock alias_of device draws user sids g = (r, g') ->
  exists e, per_boot e = per_boot (entry (g_skm g) user) /\ slot_arcs e = slot_arcs (entry (g_skm g) user) /\
    let s := set_entry user e (g_skm g) in
    (r = Ok tt /\ g_skm g' = cleared user s) \/ (r = Panic /\ g_skm g' = s).
Proof.
  unfold lock_screen_lock_bound_key. intros H. unfold mbind at 1, sr_bind at 1 in H.
  unfold on_skm at 1, modify at 1 in H. cbn [g_skm] in H. unfold mbind at 1, sr_bind at 1 in H.
  unfold on_skm at 1, gets at 1 in H. cbn [g_skm] in H. set (g1 := {| g_skm := _; g_world := _; g_tape := _; g_legacy := _ |}) in H.
  unfold mbind at 1, sr_bind at 1 in H.
  match type of H with (match ?m g1 with _ => _ end) = _ => destruct (m g1) as [r1 g2] eqn:E end. apply attempt_effect in E as [Hr [b Hb]].
  assert (exists e, per_boot e = per_boot (entry (g_skm g) user) /\ slot_arcs e = slot_arcs (entry (g_skm g) user) /\
    g_skm g2 = set_entry user e (g_skm g)) as (e & He1 & He2 & He).
  { destruct Hb as [->| ->]; [exists (entry (g_skm g) user); done|].
    exists (set_biometric b (entry (g_skm g) user)). split; [done|]. split; [done|].
    unfold set_entry, with_user_keys, entry. simpl. by rewrite lookup_insert_eq, insert_insert_eq. }
  exists e. split; [done|]. split; [done|]. simpl. rewrite <- He.
  destruct r1 as [[]| |]; [left|done|right]; unfold on_skm, modify in H; by simplify_eq.
Qed.

Lemma keeps_decrypt s0 P lk key_id e tok re :
  stable P -> keeps s0 P (decrypt_locked_key km_uuid gcm none lk key_id e tok re) (fun k s => made s0 re k s /\ P s).
Proof.
  intros HP. unfold decrypt_locked_key. eapply keeps_bind; [apply keeps_still; auto with keystore|]. intros [b m].
  eapply keeps_bind; [apply keeps_still; auto with keystore|]. intros key. by apply keeps_alloc.
Qed.

Lemma keeps_try s0 b key_id e tok :
  keeps s0 (fun _ => True) (try_biometric km_uuid gcm none b key_id e tok)
    (fun ks s => made s0 None ks.1 s /\ made s0 (Some ks.1) ks.2 s).
Proof.
  unfold try_biometric. eapply keeps_bind; [apply keeps_decrypt, stable_True|]. intros slb.
  eapply keeps_bind.
  - eapply keeps_conseq; [intros s [Hm _]; exact Hm|intros a s Hs; exact Hs|]. apply keeps_decrypt, stable_made.
  - intros slbp. eapply keeps_conseq; [intros s Hs; exact Hs|intros a s Hs; exact Hs|].
    intros g r g' Hg [H1 H2] E. unfold mret, sr_ret in E. by simplify_eq.
Qed.

Lemma keeps_install s0 user slb slbp :
  keeps s0 (fun s => made s0 None slb s /\ made s0 (Some slb) slbp s)
    (on_skm (install_screen_lock_keys user slb slbp)) (fun _ _ => True).
Proof.
  assert (keeps s0 (fun s => made s0 None slb s /\ made s0 (Some slb) slbp s)
    (_ ← on_skm (modify (fun s => set_entry user (set_slbp (Some slbp) (set_slb (Some slb) (entry s user))) s));
     _ ← on_skm (add_key_to_key_index slb); on_skm (add_key_to_key_index slbp)) (fun _ _ => True)) as Hk.
  { eapply (keeps_bind _ _ _ (fun _ _ => True)).
    - apply keeps_modify. intros s Hg [(Hf1 & Hn1 & Ha1) (Hf2 & Hn2 & Ha2)]. split; [|done].
      apply good_slots; [done|done|]. intros x Hx. right. unfold slot_arcs in Hx. simpl in Hx. rewrite Ha2 in Hx.
      simpl in Hx. rewrite Ha1 in Hx. simpl in Hx. rewrite !elem_of_cons in Hx.
      destruct Hx as [->|[->|[->|Hx%not_elem_of_nil]]]; done.
    - intros []. eapply keeps_bind; [apply keeps_calm; [apply stable_True|apply calm_index]|]. intros [].
      apply keeps_calm; [apply stable_True|apply calm_index]. }
  intros g r g' Hg HP E. eapply Hk; [exact Hg|exact HP|]. rewrite <- E. clear.
  unfold install_screen_lock_keys, on_skm, mbind, sr_bind, modify. simpl.
  destruct (add_key_to_key_index slb _) as [[[]| |] s2]; simpl; [|done..]. by destruct (add_key_to_key_index slbp s2).
Qed.

Lemma keeps_sids s0 tokens user b key_id e sids :
  keeps s0 (fun _ => True) (try_sids km_uuid gcm none tokens user b key_id e sids) (fun _ _ => True).
Proof.
  induction sids as [|sid sids IH]; [apply keeps_ret|]. intros g r g' Hg _ E. cbn [try_sids] in E.
  destruct (db_find_auth_token_entry _ _) as [[t ?]|]; [|by eapply IH].
  destruct (try_biometric _ _ _ _ _ _ _ g) as [r1 g1] eqn:Et. destruct (keeps_try s0 _ _ _ _ _ _ _ Hg I Et) as [Hg1 Hm].
  destruct r1 as [[slb slbp]| |]; [by eapply keeps_install|by eapply IH|by simplify_eq].
Qed.

Lemma keeps_biometric s0 device tokens user :
  keeps s0 (fun _ => True) (biometric device tokens user) (fun _ _ => True).
Proof.
  unfold try_unlock_user_with_biometric. eapply keeps_bind; [by apply keeps_touch|]. intros [].
  eapply keeps_bind; [apply keeps_still; auto with keystore|]. intros e. destruct (biometric_unlock e) as [b|]; [|apply keeps_ret].
  eapply keeps_bind; [apply keeps_still; auto with keystore|]. intros [key_id ke].
  eapply keeps_bind; [apply keeps_still; auto with keystore|]. intros []. apply keeps_sids.
Qed.

(** *** User states and key creation *)

Context (AID_USER_OFFSET LSKF_BINDING_FLAG : Z).

Lemma still_exists user : still (super_key_exists_in_db_for_user user).
Proof. unfold super_key_exists_in_db_for_user. apply still_bind; [auto with keystore|]. intros []; auto with keystore. Qed.

Lemma still_load user pw : still (load_or_migrate_super_key user pw).
Proof.
  unfold load_or_migrate_super_key. apply still_bind; [auto with keystore|]. intros []; [auto with keystore|].
  apply still_bind; [auto with keystore|]. intros []; auto with keystore.
Qed.

Lemma still_get user : still (user_state_get user).
Proof.
  unfold user_state_get. apply still_bind; [auto with keystore|]. intros []; [auto with keystore|].
  apply still_bind; [apply still_exists|]. auto with keystore.
Qed.

Lemma keeps_unlock s0 user pw : keeps s0 (fun _ => True) (check_and_unlock_super_key user pw) (fun _ _ => True).
Proof.
  unfold check_and_unlock_super_key. eapply keeps_bind; [apply keeps_still, still_load|]. intros [[i e]|]; [|apply keeps_ret].
  eapply keeps_bind; [apply keeps_populate|]. intros k. apply keeps_ret.
Qed.

Lemma keeps_initialize s0 draws user pw :
  keeps s0 (fun _ => True) (check_and_initialize_super_key draws user pw) (fun _ _ => True).
Proof.
  unfold check_and_initialize_super_key. eapply keeps_bind; [apply keeps_still, still_exists|]. intros []; [apply keeps_ret|].
  destruct pw as [pw|]; [|apply keeps_ret]. eapply keeps_bind; [apply keeps_still; auto with keystore|]. intros sk.
  eapply keeps_bind; [apply keeps_still; auto with keystore|]. intros [enc m].
  eapply keeps_bind; [apply keeps_still; auto with keystore|]. intros e.
  eapply keeps_bind; [apply keeps_populate|]. intros k. apply keeps_ret.
Qed.

Lemma keeps_forget s0 user : keeps s0 (fun _ => True) (on_skm (forget_all_keys_for_user user)) (fun _ _ => True).
Proof.
  apply keeps_modify. intros s Hg _. split; [|done]. apply (good_drop _ _ _ Hg); [done| |].
  - intros x. rewrite !elem_of_owned. simpl. intros [(u & e & Hu & Hx)|?]; [|auto].
    apply lookup_delete_Some in Hu as [_ Hu]. eauto.
  - intros u e Hu. simpl in Hu. by apply lookup_delete_Some in Hu as [_ Hu].
Qed.

Lemma keeps_reset s0 user keep : keeps s0 (fun _ => True) (reset_user AID_USER_OFFSET user keep) (fun _ _ => True).
Proof.
  unfold reset_user. eapply keeps_bind; [apply keeps_still; auto with keystore|]. intros [].
  eapply keeps_bind; [apply keeps_still; auto with keystore|]. intros []. apply keeps_forget.
Qed.

Lemma keeps_password_changed s0 draws user pw :
  keeps s0 (fun _ => True) (get_with_password_changed AID_USER_OFFSET draws user pw) (fun _ _ => True).
Proof.
  unfold get_with_password_changed. eapply keeps_bind; [apply keeps_still; auto with keystore|].
  intros [k|]; [|apply keeps_initialize]. destruct pw; [apply keeps_ret|].
  eapply keeps_bind; [apply keeps_reset|]. intros []. apply keeps_ret.
Qed.

Lemma keeps_password_unlock s0 user pw :
  keeps s0 (fun _ => True) (get_with_password_unlock user pw) (fun _ _ => True).
Proof.
  unfold get_with_password_unlock. eapply keeps_bind; [apply keeps_still; auto with keystore|].
  intros [k|]; [apply keeps_ret|apply keeps_unlock].
Qed.

Lemma keeps_handle s0 dom params flags user b :
  keeps s0 (fun _ => True) (handle_super_encryption_on_key_init LSKF_BINDING_FLAG dom params flags user b) (fun _ _ => True).
Proof.
  unfold handle_super_encryption_on_key_init. destruct (super_encryption_required _ _ _ _).
  - apply keeps_ret.
  - apply keeps_still. apply still_bind; [apply still_get|]. intros []; auto with keystore.
  - eapply keeps_bind; [by apply keeps_touch|]. intros []. eapply keeps_bind; [apply keeps_still; auto with keystore|].
    intros [k|]; apply keeps_still; [auto with keystore|]. unfold encrypt_with_public_key.
    apply still_bind; [auto with keystore|]. intros o. apply still_bind; [auto with keystore|]. intros [i e].
    apply still_bind; [auto with keystore|]. intros pk. apply still_bind; [auto with keystore|].
    intros [[[[? ?] ?] ?] ?]. auto with keystore.
  - eapply keeps_bind; [apply keeps_calm; [apply stable_True|apply calm_lookup]|]. intros o.
    eapply keeps_bind; [apply keeps_still; auto with keystore|]. intros k. apply keeps_still. auto with keystore.
Qed.

Lemma keeps_set_up_cache s0 (level_zero : O bytes) :
  still level_zero -> keeps s0 (fun _ => True) (set_up_boot_level_cache level_zero) (fun _ _ => True).
Proof.
  intros Hl. unfold set_up_boot_level_cache. eapply keeps_bind; [apply keeps_still; auto with keystore|].
  intros []; [apply keeps_ret|]. eapply keeps_bind; [by apply keeps_still|]. intros k.
  apply keeps_modify. intros s Hg _. split; [|done]. by apply (good_same _ _ _ Hg).
Qed.

(** ** The system *)

(** One step: an operation of the manager, with any result; a caller that
    starts or stops holding a key it can reach; or anything that happens
    outside the manager. *)
Inductive step : Sys K L -> Sys K L -> Prop :=
| step_lookup i g r g' : on_skm (lookup_key i) g = (r, g') -> step g g'
| step_unwrap m b g r g' : on_skm (unwrap_key_if_required m b) g = (r, g') -> step g g'
| step_watch level g r g' : on_skm (watch_boot_level_step level) g = (r, g') -> step g g'
| step_set_up_cache (level_zero : O bytes) g r g' :
    still level_zero -> set_up_boot_level_cache level_zero g = (r, g') -> step g g'
| step_password_changed draws user pw g r g' :
    get_with_password_changed AID_USER_OFFSET draws user pw g = (r, g') -> step g g'
| step_password_unlock user pw g r g' : get_with_password_unlock user pw g = (r, g') -> step g g'
| step_reset user keep g r g' : reset_user AID_USER_OFFSET user keep g = (r, g') -> step g g'
| step_handle dom params flags user b g r g' :
    handle_super_encryption_on_key_init LSKF_BINDING_FLAG dom params flags user b g = (r, g') -> step g g'
| step_unlock_screen draws draws' user pw g r g' : unlock_screen_lock_bound_key draws draws' user pw g = (r, g') -> step g g'
| step_lock_screen alias_of device draws user sids g r g' : lock alias_of device draws user sids g = (r, g') -> step g g'
| step_unlock_user draws uuid user pw g r g' : unlock_user_key draws uuid user pw g = (r, g') -> step g g'
| step_biometric device tokens user g r g' : biometric device tokens user g = (r, g') -> step g g'
| step_hold k g : k ∈ owned (g_skm g) -> (forall x, x ∈ arcs k -> x ∈ owned (g_skm g)) ->
    step g {| g_skm := with_held (k :: held (g_skm g)) (g_skm g); g_world := g_world g;
              g_tape := g_tape g; g_legacy := g_legacy g |}
| step_release l g : l ⊆ held (g_skm g) ->
    step g {| g_skm := with_held l (g_skm g); g_world := g_world g; g_tape := g_tape g; g_legacy := g_legacy g |}
| step_outside g w t l : step g {| g_skm := g_skm g; g_world := w; g_tape := t; g_legacy := l |}.

Lemma good_held s0 s l :
  good s0 s -> (forall h x, h ∈ l -> x ∈ arcs h -> x ∈ owned s) -> good s0 (with_held l s).
Proof.
  intros Hg Hl. apply (good_drop _ _ _ Hg); [done| |done]. intros x. rewrite elem_of_owned. simpl.
  intros [(u & e & Hu & Hx)|(h & Hh & Hx)]; [apply elem_of_owned; eauto|eauto].
Qed.

Lemma step_good s0 g g' : step g g' -> good s0 (g_skm g) -> good s0 (g_skm g').
Proof.
  intros Hs Hg. destruct Hs as [i g r g' E|m b g r g' E|level g r g' E|lz g r g' Hl E|draws user pw g r g' E|user pw g r g' E
    |user keep g r g' E|dom params flags user b g r g' E|draws draws' user pw g r g' E|alias_of device draws user sids g r g' E
    |draws uuid user pw g r g' E|device tokens user g r g' E|k g Hk Ha|l g Hl|g w t l].
  - eapply (keeps_calm s0 (fun _ => True)); [apply stable_True|apply calm_lookup|done..].
  - eapply (keeps_calm s0 (fun _ => True)); [apply stable_True|apply calm_unwrap|done..].
  - eapply (keeps_calm s0 (fun _ => True)); [apply stable_True|apply calm_watch|done..].
  - by eapply keeps_set_up_cache.
  - by eapply keeps_password_changed.
  - by eapply keeps_password_unlock.
  - by eapply keeps_reset.
  - by eapply keeps_handle.
  - by eapply keeps_unlock_screen.
  - apply lock_effect in E as (e & He1 & He2 & Hr). assert (good s0 (set_entry user e (g_skm g))) as Hg'.
    { apply good_slots; [done|done|]. rewrite He2. auto. }
    destruct Hr as [[_ ->]|[_ ->]]; [by apply good_cleared|done].
  - by eapply keeps_unlock_user.
  - by eapply keeps_biometric.
  - apply good_held; [done|]. intros h x [->|Hh]%elem_of_cons Hx; [by apply Ha|]. apply elem_of_owned. eauto.
  - apply good_held; [done|]. intros h x Hh Hx. apply elem_of_owned. right. exists h. split; [by apply Hl|done].
  - done.
Qed.

Lemma steps_good s0 g g' : rtc step g g' -> good s0 (g_skm g) -> good s0 (g_skm g').
Proof. induction 1; eauto using step_good. Qed.

(** A manager as it is after boot. *)
Definition booted g : Prop := g_skm g = new_skm.

(** C13: Locking the screen takes the keys away, for good.  In every state the
    system can reach from boot, once [lock_screen_lock_bound_key] returns,
    each key object that was in the user's screen lock fields, and that no
    call in flight holds, is gone: from then on, whatever happens, its weak
    reference never upgrades again, so a key blob that is encrypted with it
    is answered with [LOCKED] as long as the index refers to that object. *)
Theorem locked_screen_keys_are_gone alias_of device draws user sids g0 g r g' k g'' :
  booted g0 -> rtc step g0 g -> lock alias_of device draws user sids g = (r, g') -> r <> Panic ->
  k ∈ slot_arcs (entry (g_skm g) user) ->
  (forall h x, h ∈ held (g_skm g) -> x ∈ arcs h -> sk_addr x <> sk_addr k) ->
  rtc step g' g'' ->
  upgrade (g_skm g'') (sk_addr k) = None /\
  forall m b i, from_metadata m = Some (DatabaseId i) -> key_index (g_skm g'') !! i = Some (sk_addr k) ->
    unwrap_key_if_required m b (g_skm g'') = (Err (err_rc ResponseCode.LOCKED), g_skm g'').
Proof.
  intros Hb Hr E Hp Hk Hheld Hs.
  assert (skm_inv (g_skm g)) as Hinv.
  { apply (steps_good new_skm) in Hr as [_ ?]; [done|]. rewrite Hb. split; [apply evolves_refl|apply new_skm_inv]. }
  assert (dead (g_skm g') (sk_addr k)) as Hd.
  { apply lock_effect in E as (e & He1 & He2 & [[_ ->]|[-> _]]); [|done].
    apply cleared_dead; [| |done].
    - apply (good_slots (g_skm g)); [split; [apply evolves_refl|done]|done|]. rewrite He2. auto.
    - unfold entry. simpl. rewrite lookup_insert_eq. simpl. by rewrite He2. }
  assert (dead (g_skm g'') (sk_addr k)) as Hd'.
  { eapply dead_stays; [|exact Hd]. apply (steps_good (g_skm g')) in Hs as [? _]; [done|].
    split; [apply evolves_refl|]. apply (step_lock_screen alias_of device draws user sids) in E.
    apply (step_good (g_skm g)) in E as [_ ?]; [done|]. split; [apply evolves_refl|done]. }
  split; [by apply dead_upgrade|]. intros m b i Hm Hi. unfold unwrap_key_if_required. rewrite Hm.
  unfold mbind, sr_bind, lookup_key, gets. rewrite Hi. simpl. by rewrite dead_upgrade.
Qed.
End Ops.

(** ** User 0 unlocks and locks the screen *)

#[local] Existing Instances aidl_published toy_boring toy_km no_legacy.

Definition demo_unlocked : Sys unit unit := snd (unlock_screen_lock_bound_key [51] [52] 0 demo_pw demo_sys).
Definition demo_slb : SuperKey := MkSuperKey 0 Aes256Gcm (repeat 3 32) (DatabaseId 51) None.
Definition demo_lock := lock_screen_lock_bound_key (repeat 7 16) 1017 (Ok 0) 32 1 2 (fun _ => "bio") (Ok tt) [] 0 [] demo_unlocked.

Lemma locked_screen_keys_are_gone_witness :
  upgrade (g_skm demo_unlocked) 0 = Some demo_slb /\ upgrade (g_skm (snd demo_lock)) 0 = None.
Proof.
  split; [vm_compute; reflexivity|].
  apply (locked_screen_keys_are_gone (repeat 7 16) 1017 (Ok 0) 32 1 2 100000 1 (fun _ => "bio") (Ok tt) [] 0 [] demo_sys demo_unlocked
    (Ok tt) (snd demo_lock) demo_slb (snd demo_lock)).
  - reflexivity.
  - eapply rtc_l; [|apply rtc_refl]. eapply (step_unlock_screen _ _ _ _ _ _ _ _ [51] [52] 0 demo_pw demo_sys).
    unfold demo_unlocked. apply surjective_pairing.
  - vm_compute. reflexivity.
  - intros H. discriminate H.
  - vm_compute. left.
  - intros h x Hh. vm_compute in Hh. apply not_elem_of_nil in Hh. destruct Hh.
  - apply rtc_refl.
Defined.
