(* ===== verification/SuperKeyUsers.v ===== *)
(** * Users: what a reset leaves behind

    [UserState::reset_user] and what the states of a user are afterwards. *)

From stdpp Require Import base list gmap strings.
From Stdlib Require Import ZArith Lia.
From S2P Require Import Prelude Aidl Errors Sql KeyParameter BootLevelKeys Enforcements DbTypes Database DbInvariant DbKeys DbBulk Crypto RawDevice SuperKey SuperKeyCrypto.

Section Users.
Context {AI : Aidl} `{BO : Boring} {K : Type} `{KMI : !KeyMint K} {L : Type} `{LG : !Legacy L}.
Context (off : Z).
Implicit Types (g : Sys K L).

(** The three parts of a reset. *)
Lemma reset_Ok user keep g g' :
  reset_user off user keep g = (Ok tt, g') -> exists l s gc s',
    lg_bulk_delete_user user keep (g_legacy g, w_db (g_world g)) = (Ok tt, (l, s)) /\
    unbind_keys_for_user off user keep s = (Ok (gc, tt), s') /\
    w_db (g_world g') = s' /\ g_legacy g' = l /\ g_skm g' = with_user_keys (delete user) (g_skm g).
Proof.
  unfold reset_user. intros H. apply sr_bind_Ok in H as ([] & g1 & (l & s & Hl & ->)%on_legacy_Ok & H).
  apply sr_bind_Ok in H as ([] & g2 & (gc & s' & Hu & ->)%on_db_Ok & H). simpl in Hu.
  apply on_skm_Ok in H as (sk & Hs & ->). unfold forget_all_keys_for_user, modify in Hs. injection Hs as <-. eauto 10.
Qed.

Lemma super_key_of_user user r :
  id_match (super_desc user USER_SUPER_KEY_alias) USER_SUPER_KEY_alias KeyType.Super r = true -> of_user off user r = true.
Proof.
  intros (H1 & H2 & H3 & H4 & H5)%id_match_true. unfold of_user, col_eq. rewrite H1, H3, H4, H5.
  apply orb_true_iff. right. by rewrite !bool_decide_eq_true_2.
Qed.

(** Without the keys to keep, no super key of the user is left. *)
Lemma unbind_no_super_key user s gc s' :
  db_wf s -> unbind_keys_for_user off user false s = (Ok (gc, tt), s') ->
  key_exists (val Domain.APP) user USER_SUPER_KEY_alias KeyType.Super s' = Ok false.
Proof.
  intros Hwf Hu. apply unbind_user_rows in Hu as [Hr _]; [|done].
  assert (select_where (id_match (super_desc user USER_SUPER_KEY_alias) USER_SUPER_KEY_alias KeyType.Super) (keyentry s') = []) as Hnone.
  { destruct (select_where _ _) as [|r rs] eqn:E; [done|]. exfalso.
    assert (r ∈ r :: rs) as Hin by left. rewrite <- E in Hin. apply elem_of_select_where in Hin as [Hin Hm].
    apply Hr in Hin as [_ [Ho|Ho]]; [|done]. by rewrite super_key_of_user in Ho. }
  unfold key_exists, load_key_entry_id. simpl. fold (super_desc user USER_SUPER_KEY_alias). rewrite Hnone. simpl.
  by rewrite Z.eqb_refl.
Qed.

(** A reset user is a new user.  After [reset_user] has deleted all keys of
    a user, no trace of the user's super key is left in the cache or in the
    key database: unless the legacy store still has one, the user's state is
    [Uninitialized], so that the next password creates a new super key. *)
Theorem reset_user_uninitialized user g g' :
  db_wf (w_db (g_world g)) -> reset_user off user false g = (Ok tt, g') ->
  fst (lg_has_super_key user (g_legacy g', w_db (g_world g'))) = Ok false ->
  fst (user_state_get user g') = Ok Uninitialized.
Proof.
  intros Hwf H Hno. apply reset_Ok in H as (l & s & gc & s' & Hl & Hu & Hdb & Hlg & Hs).
  apply lg_bulk_delete_wf in Hl; [|done]. apply unbind_no_super_key in Hu; [|done].
  unfold user_state_get, super_key_exists_in_db_for_user, mbind, sr_bind, on_skm, gets, read_db, legacy_has_super_key.
  rewrite Hs. unfold get_per_boot_key_by_user_id. simpl. rewrite lookup_delete_eq. simpl. rewrite Hdb, Hu.
  unfold on_legacy. simpl. rewrite Hdb in Hno. rewrite Hdb.
  destruct (lg_has_super_key user (g_legacy g', s')) as [r [l1 s1]]. simpl in Hno. by subst r.
Qed.

(** *** What survives *)

Lemma load_super_key_Ok al user s id e :
  load_super_key al user s = Ok (Some (id, e)) ->
  exists r, select_where (id_match (super_desc user al) al KeyType.Super) (keyentry s) = [r] /\ k_id r = id /\
    load_key_components LoadBits.KM id s = Ok e.
Proof.
  unfold load_super_key, load_key_entry_id. simpl. fold (super_desc user al).
  destruct (select_where _ _) as [|r [|? ?]]; simpl.
  - by rewrite Z.eqb_refl.
  - intros H. apply bind_Ok in H as (e' & He & H). simplify_eq. eauto.
  - by rewrite val_eqb.
Qed.

(** A super key under another alias than [USER_SUPER_KEY] is loaded after
    [unbind_keys_for_user] as before. *)
Lemma other_super_key_survives al user keep s gc s' id e :
  db_wf s -> al <> USER_SUPER_KEY_alias -> unbind_keys_for_user off user keep s = (Ok (gc, tt), s') ->
  load_super_key al user s = Ok (Some (id, e)) -> load_super_key al user s' = Ok (Some (id, e)).
Proof.
  intros Hwf Hal Hu (r & Hsel & Hid & He)%load_super_key_Ok.
  pose proof (unbind_keys_for_user_wf off user keep s (gc, tt) s' Hwf Hu) as Hwf'.
  apply unbind_user_rows in Hu as [Hrows Hview]; [|done].
  assert (r ∈ keyentry s /\ id_match (super_desc user al) al KeyType.Super r = true) as [Hr Hm].
  { apply (elem_of_select_where (id_match (super_desc user al) al KeyType.Super)). rewrite Hsel. left. }
  assert (r ∈ keyentry s') as Hr'.
  { apply Hrows. split; [done|]. left. apply id_match_true in Hm as (H1 & _ & _ & H4 & _).
    unfold of_user, col_eq. rewrite H1, H4, (bool_decide_eq_false_2 (Some al = _)) by naive_solver.
    rewrite andb_false_r. done. }
  assert (select_where (id_match (super_desc user al) al KeyType.Super) (keyentry s') = [r]) as Hsel'.
  { apply (select_unique k_id); [by apply wf_keys|done|done|]. intros y [Hy _]%Hrows Hym.
    assert (y ∈ [r]) as ->%list_elem_of_singleton; [|done]. rewrite <- Hsel. by apply elem_of_select_where. }
  unfold load_super_key, load_key_entry_id. simpl. fold (super_desc user al). rewrite Hsel'. simpl. rewrite Hid.
  rewrite (same_view_load LoadBits.KM id s s'); [by rewrite He|]. apply Hview. rewrite <- Hid. by apply list_elem_of_fmap_2.
Qed.

(** The screen lock bound key outlives the user.  [reset_user] leaves the
    user's [USER_SCREEN_LOCK_BOUND_KEY] in the database, still encrypted with
    the old password.  When the user sets a new password,
    [unlock_screen_lock_bound_key] finds that entry and succeeds only if the
    new password decrypts it. *)
Theorem screen_lock_key_outlives_reset user keep g g' id e draws draws' pw g'' :
  db_wf (w_db (g_world g)) ->
  load_super_key (kt_alias USER_SCREEN_LOCK_BOUND_KEY) user (w_db (g_world g)) = Ok (Some (id, e)) ->
  reset_user off user keep g = (Ok tt, g') ->
  load_super_key (kt_alias USER_SCREEN_LOCK_BOUND_KEY) user (w_db (g_world g')) = Ok (Some (id, e)) /\
  (unlock_screen_lock_bound_key draws draws' user pw g' = (Ok tt, g'') -> exists key, decrypt_entry e pw = Ok key).
Proof.
  intros Hwf Hload H. apply reset_Ok in H as (l & s & gc & s' & Hl & Hu & Hdb & Hlg & Hs).
  pose proof (lg_bulk_delete_wf _ _ _ _ _ _ _ Hl Hwf) as Hwf1.
  rewrite <- (lg_bulk_delete_super _ _ _ _ _ _ _ (kt_alias USER_SCREEN_LOCK_BOUND_KEY) user Hl Hwf) in Hload. assert (load_super_key (kt_alias USER_SCREEN_LOCK_BOUND_KEY) user s' = Ok (Some (id, e))) as Hload'.
  { by eapply other_super_key_survives. }
  rewrite Hdb. split; [done|]. intros Hun. unfold unlock_screen_lock_bound_key in Hun.
  apply sr_bind_Ok in Hun as ([] & g1 & (s1 & E1 & ->)%on_skm_Ok & Hun). unfold modify in E1. injection E1 as <-.
  apply sr_bind_Ok in Hun as (aes & g2 & Haes & _). unfold get_or_try_to_insert_with in Haes.
  apply sr_bind_Ok in Haes as (o & g3 & (s3 & E3 & ->)%on_skm_Ok & Haes). unfold gets in E3. injection E3 as <- <-.
  unfold entry in Haes at 1. simpl in Haes. rewrite lookup_insert_eq in Haes. simpl in Haes.
  unfold entry in Haes at 1. rewrite Hs in Haes. simpl in Haes. rewrite lookup_delete_eq in Haes. simpl in Haes.
  apply sr_bind_Ok in Haes as (k & g4 & Hk & _). unfold get_or_create_super_key in Hk.
  apply sr_bind_Ok in Hk as (o & g5 & [Hr ->]%read_db_Ok & Hk). simpl in Hr, Hload'. rewrite Hdb, Hload' in Hr. simplify_eq.
  apply on_skm_Ok in Hk as (s6 & Hk & _). apply sr_bind_Ok in Hk as (key & s7 & [Hd _]%lift_Ok & _). eauto.
Qed.
End Users.

(** ** User 0, with both kinds of super keys, is removed *)

#[local] Existing Instances aidl_published toy_boring toy_km no_legacy.

(** The key material [repeat 3 32], encrypted with the password. *)
Definition demo_enc : bytes * BlobMetaData :=
  match fst (encrypt_with_password (repeat 3 32) demo_pw (repeat 3 100)) with Ok r => r | _ => ([], ∅) end.
Definition demo_t1 : Tables :=
  snd (store_super_key [50] 0 (kt_alias USER_SUPER_KEY) demo_enc.1 demo_enc.2 ∅ empty_tables).
Definition demo_t2 : Tables :=
  snd (store_super_key [51] 0 (kt_alias USER_SCREEN_LOCK_BOUND_KEY) demo_enc.1 demo_enc.2 ∅ demo_t1).
Definition demo_full : Sys unit unit :=
  {| g_skm := g_skm demo_user; g_world := {| w_db := demo_t2; w_km := tt; w_gc := false |};
     g_tape := repeat 3 600; g_legacy := tt |}.
Definition demo_reset : Sys unit unit := snd (reset_user 100000 0 false demo_full).

Lemma demo_t1_wf : db_wf demo_t1.
Proof.
  unfold demo_t1. destruct (store_super_key _ _ _ _ _ _ empty_tables) as [[x| |] s] eqn:E;
    [|vm_compute in E; discriminate E..]. exact (store_super_key_wf _ _ _ _ _ _ _ _ _ empty_wf E).
Qed.
Lemma demo_t2_wf : db_wf demo_t2.
Proof.
  unfold demo_t2. destruct (store_super_key _ _ _ _ _ _ demo_t1) as [[x| |] s] eqn:E;
    [|vm_compute in E; discriminate E..]. exact (store_super_key_wf _ _ _ _ _ _ _ _ _ demo_t1_wf E).
Qed.

Lemma reset_user_uninitialized_witness :
  fst (user_state_get 0 demo_full) = Ok (LskfUnlocked demo_super_key) /\
  fst (user_state_get 0 demo_reset) = Ok Uninitialized.
Proof.
  split; [vm_compute; reflexivity|].
  apply (reset_user_uninitialized 100000 0 demo_full demo_reset).
  - exact demo_t2_wf.
  - vm_compute. reflexivity.
  - reflexivity.
Defined.

Lemma screen_lock_key_outlives_reset_witness : exists e,
  load_super_key (kt_alias USER_SCREEN_LOCK_BOUND_KEY) 0 (w_db (g_world demo_reset)) = Ok (Some (51, e)).
Proof.
  destruct (load_super_key (kt_alias USER_SCREEN_LOCK_BOUND_KEY) 0 demo_t2) as [[[id e]|]| |] eqn:E;
    [|vm_compute in E; discriminate E..].
  assert (id = 51) as -> by (vm_compute in E; congruence). exists e.
  apply (screen_lock_key_outlives_reset 100000 0 false demo_full demo_reset 51 e [] [] [1] demo_reset).
  - exact demo_t2_wf.
  - exact E.
  - vm_compute. reflexivity.
Defined.
