(* ===== verification/LegacyAlias.v ===== *)
(** * Names of legacy key files ([keystore2/src/legacy_blob.rs])

    Keystore 1.0 kept each key in a file whose name holds the owner and the
    alias.  Here are the text functions: the alias encoding, the known
    prefixes and the decimal numbers in the names.  A Rust [str] is a
    [string] of bytes; [utf8_valid] is the check of [String::from_utf8]. *)

From stdpp Require Import base list gmap strings pretty.
From Stdlib Require Import ZArith Lia Ascii.
From S2P Require Import Prelude Aidl Errors.

Definition byte (c : ascii) : Z := Z.of_N (N_of_ascii c).
Definition chr (z : Z) : ascii := ascii_of_N (Z.to_N z).

(** A byte pattern [lo..=hi]. *)
Definition between (lo hi : Z) (c : ascii) : bool := (lo <=? byte c) && (byte c <=? hi).

(** Well formed UTF-8: no overlong form, no surrogate, nothing above
    U+10FFFF. *)
Definition cont : ascii -> bool := between 128 191.
Fixpoint utf8_valid (s : string) : bool :=
  match s with
  | EmptyString => true
  | String c s =>
    if byte c <? 128 then utf8_valid s
    else match s with
    | EmptyString => false
    | String c2 s =>
      if between 194 223 c then cont c2 && utf8_valid s
      else match s with
      | EmptyString => false
      | String c3 s =>
        if between 224 239 c then
          between (if byte c =? 224 then 160 else 128) (if byte c =? 237 then 159 else 191) c2
          && cont c3 && utf8_valid s
        else match s with
        | EmptyString => false
        | String c4 s =>
          between 240 244 c
          && between (if byte c =? 240 then 144 else 128) (if byte c =? 244 then 143 else 191) c2
          && cont c3 && cont c4 && utf8_valid s
        end
      end
    end
  end.

(** The errors of this module: its own two, text that is not UTF-8, a failed
    read, and errors of other modules. *)
Inductive LegacyError :=
| BadLen
| BadEncoding
| BadUtf8
| IoError
| AnyErr (e : AnyError).

Definition to_any (e : LegacyError) : AnyError := match e with AnyErr e => e | _ => OtherError end.

(** ** The alias encoding *)

Definition plain (c : ascii) : bool := between (byte "0") (byte "~") c.

Definition high_char (c : ascii) : ascii := chr (byte "+" + Z.shiftr (byte c) 6).
Definition low_char (c : ascii) : ascii := chr (byte "0" + Z.land (byte c) 63).

Fixpoint encode_alias (name : string) : string :=
  match name with
  | EmptyString => EmptyString
  | String c name =>
    if plain c then String c (encode_alias name)
    else String (high_char c) (String (low_char c) (encode_alias name))
  end.

(** The loop of [decode_alias]: the bytes pushed from here on.  [multi] holds
    the two high bits of a character whose second part is expected. *)
Fixpoint decode_bytes (multi : option Z) (name : string) : result LegacyError string :=
  match name with
  | EmptyString => match multi with Some _ => Err BadEncoding | None => Ok EmptyString end
  | String c name =>
    match multi with
    | Some m =>
      if between (byte "0") (byte "o") c
      then String (chr (Z.lor m (byte c - byte "0"))) <$> decode_bytes None name
      else Err BadEncoding
    | None =>
      if between (byte "+") (byte ".") c
      then decode_bytes (Some (Z.shiftl (byte c - byte "+") 6)) name
      else if plain c then String c <$> decode_bytes None name
      else Err BadEncoding
    end
  end.

Definition decode_alias (name : string) : result LegacyError string :=
  s ← decode_bytes None name;
  if utf8_valid s then Ok s else Err BadUtf8.

(** ** Known prefixes *)

Definition starts_with (s p : string) : bool := String.prefix p s.

Fixpoint strip_prefix (p s : string) : option string :=
  match p, s with
  | EmptyString, _ => Some s
  | String a p, String b s => if Ascii.eqb a b then strip_prefix p s else None
  | _, EmptyString => None
  end.

Definition KNOWN_KEYSTORE_PREFIXES : list string := ["USRPKEY_"; "USRSKEY_"; "USRCERT_"; "CACERT_"].

Definition is_keystore_alias (encoded_alias : string) : bool :=
  existsb (starts_with encoded_alias) KNOWN_KEYSTORE_PREFIXES.

Definition ok {E A} (r : result E A) : option A := match r with Ok a => Some a | _ => None end.

Definition extract_legacy_alias (encoded_alias : string) : option string :=
  if is_keystore_alias encoded_alias then None else ok (decode_alias encoded_alias).

Fixpoint extract_alias_with (prefixes : list string) (encoded_alias : string) : option string :=
  match prefixes with
  | [] => None
  | p :: prefixes =>
    match strip_prefix p encoded_alias with
    | Some al => ok (decode_alias al)
    | None => extract_alias_with prefixes encoded_alias
    end
  end.
Definition extract_keystore_alias : string -> option string := extract_alias_with KNOWN_KEYSTORE_PREFIXES.

(** ** Numbers in names *)

(** [uid.to_string()]. *)
Definition to_string (n : Z) : string := pretty (Z.to_N n).

(** [str::parse] at an unsigned type: an optional plus sign, then digits, with
    overflow an error. *)
Fixpoint parse_digits (limit acc : Z) (s : string) : option Z :=
  match s with
  | EmptyString => Some acc
  | String c s =>
    if between (byte "0") (byte "9") c then
      let acc := 10 * acc + (byte c - byte "0") in
      if acc <? limit then parse_digits limit acc s else None
    else None
  end.
Definition parse_unsigned (limit : Z) (s : string) : option Z :=
  match s with
  | EmptyString => None
  | String "+"%char EmptyString => None
  | String "+"%char s => parse_digits limit 0 s
  | _ => parse_digits limit 0 s
  end.
Definition parse_u32 : string -> option Z := parse_unsigned (2^32).

(** [s.find('_')], as the text before and after the separator. *)
Fixpoint split_underscore (s : string) : option (string * string) :=
  match s with
  | EmptyString => None
  | String c s => if Ascii.eqb c "_" then Some (EmptyString, s)
                  else (fun ab => (String c ab.1, ab.2)) <$> split_underscore s
  end.

(** ** Bytes and characters *)

Lemma byte_range c : 0 <= byte c < 256.
Proof. unfold byte. pose proof (N_ascii_bounded c). lia. Qed.

Lemma chr_byte c : chr (byte c) = c.
Proof. unfold chr, byte. by rewrite N2Z.id, ascii_N_embedding. Qed.

Lemma byte_chr z : 0 <= z < 256 -> byte (chr z) = z.
Proof. intros. unfold byte, chr. rewrite N_ascii_embedding; lia. Qed.

(** A claim about one character is decided by trying all 256. *)
Definition all_ascii : list ascii := (fun n => ascii_of_nat n) <$> seq 0 256.

Lemma char_forall (P : ascii -> bool) : forallb P all_ascii = true -> forall c, P c = true.
Proof.
  intros H c. rewrite forallb_forall in H. apply H, list_elem_of_In, list_elem_of_fmap.
  exists (nat_of_ascii c). split; [by rewrite ascii_nat_embedding|].
  apply elem_of_seq. pose proof (nat_ascii_bounded c). lia.
Qed.

Lemma str_app_cons c s t : String c s +:+ t = String c (s +:+ t).
Proof. done. Qed.

Lemma str_app_assoc s t u : (s +:+ t) +:+ u = s +:+ t +:+ u.
Proof. induction s as [|c s IH]; [done|]. by rewrite !str_app_cons, IH. Qed.

Fixpoint all_chars (p : ascii -> bool) (s : string) : bool :=
  match s with EmptyString => true | String c s => p c && all_chars p s end.

Lemma all_chars_impl (p q : ascii -> bool) s :
  (forall c, p c = true -> q c = true) -> all_chars p s = true -> all_chars q s = true.
Proof. intros H. induction s as [|c s IH]; simpl; [done|]. rewrite !andb_true_iff. naive_solver. Qed.

Lemma all_chars_app p s t : all_chars p (s +:+ t) = all_chars p s && all_chars p t.
Proof. induction s as [|c s IH]; [done|]. rewrite str_app_cons. simpl. by rewrite IH, andb_assoc. Qed.

(** ** The encoding *)

(** The characters of an encoded alias: ['+'..'.'] and ['0'..'~']. *)
Definition file_char (c : ascii) : bool := between (byte "+") (byte ".") c || plain c.

Lemma char_plain c : plain c = true -> between (byte "+") (byte ".") c = false.
Proof.
  pose proof (char_forall (fun c => negb (plain c && between (byte "+") (byte ".") c)) eq_refl c) as H.
  cbv beta in H. destruct (plain c), (between _ _ c); done.
Qed.

Lemma char_escaped c : plain c = false ->
  between (byte "+") (byte ".") (high_char c) = true /\ between (byte "0") (byte "o") (low_char c) = true /\
  plain (low_char c) = true /\
  chr (Z.lor (Z.shiftl (byte (high_char c) - byte "+") 6) (byte (low_char c) - byte "0")) = c.
Proof.
  intros Hp. pose proof (char_forall (fun c => plain c ||
    (between (byte "+") (byte ".") (high_char c) && between (byte "0") (byte "o") (low_char c) && plain (low_char c) &&
     Ascii.eqb (chr (Z.lor (Z.shiftl (byte (high_char c) - byte "+") 6) (byte (low_char c) - byte "0"))) c)) eq_refl c) as H.
  cbv beta in H. rewrite Hp, !orb_false_l, !andb_true_iff in H. destruct H as (((-> & ->) & ->) & ->%Ascii.eqb_eq). done.
Qed.

Lemma encode_alias_chars s : all_chars file_char (encode_alias s) = true.
Proof.
  induction s as [|c s IH]; [done|]. simpl. destruct (plain c) eqn:E; simpl; rewrite IH, ?andb_true_r; unfold file_char.
  - by rewrite E, orb_true_r.
  - apply char_escaped in E as (-> & _ & -> & _). by rewrite orb_true_r.
Qed.

Lemma decode_encode_bytes s : decode_bytes None (encode_alias s) = Ok s.
Proof.
  induction s as [|c s IH]; [done|]. cbn [encode_alias]. destruct (plain c) eqn:E; cbn [decode_bytes].
  - by rewrite char_plain, E, IH.
  - apply char_escaped in E as (-> & -> & _ & ->). by rewrite IH.
Qed.

Lemma encode_alias_inj s t : encode_alias s = encode_alias t -> s = t.
Proof. intros H. apply (f_equal (decode_bytes None)) in H. rewrite !decode_encode_bytes in H. congruence. Qed.

Lemma encode_alias_plain s : all_chars plain s = true -> encode_alias s = s.
Proof. induction s as [|c s IH]; simpl; [done|]. intros [-> H]%andb_true_iff. by rewrite IH. Qed.

Lemma encode_alias_app s t : encode_alias (s +:+ t) = encode_alias s +:+ encode_alias t.
Proof.
  induction s as [|c s IH]; [done|]. rewrite str_app_cons. cbn [encode_alias]. rewrite IH.
  destruct (plain c); by rewrite ?str_app_cons.
Qed.

(** ** Prefixes *)

Lemma strip_prefix_app p s : strip_prefix p (p +:+ s) = Some s.
Proof. induction p as [|c p IH]; [done|]. rewrite str_app_cons. simpl. by rewrite Ascii.eqb_refl. Qed.

Lemma strip_prefix_Some p s t : strip_prefix p s = Some t -> s = p +:+ t.
Proof.
  revert s. induction p as [|c p IH]; intros s; simpl; [by intros [= ->]|]. destruct s as [|d s]; [done|].
  destruct (Ascii.eqb_spec c d) as [->|]; [|done]. intros ->%IH. by rewrite str_app_cons.
Qed.

Lemma starts_with_strip s p : starts_with s p = bool_decide (is_Some (strip_prefix p s)).
Proof.
  unfold starts_with. revert s. induction p as [|c p IH]; intros s; cbn [String.prefix strip_prefix].
  - rewrite bool_decide_eq_true_2 by eauto. by destruct s.
  - destruct s as [|d s]; [done|]. simpl. destruct (ascii_dec c d) as [->|Hne].
    + rewrite Ascii.eqb_refl. apply IH.
    + by rewrite (proj2 (Ascii.eqb_neq c d)).
Qed.

(** A prefix of plain characters is not mangled by the encoding. *)
Lemma strip_prefix_encoded p s :
  all_chars plain p = true -> strip_prefix p (encode_alias s) = encode_alias <$> strip_prefix p s.
Proof.
  revert s. induction p as [|c p IH]; intros s; cbn [all_chars]; [done|]. intros [Hc Hp]%andb_true_iff.
  destruct s as [|d s]; [done|]. cbn [encode_alias]. destruct (plain d) eqn:Hd; cbn [strip_prefix].
  - destruct (Ascii.eqb c d); [by apply IH|done].
  - assert (Ascii.eqb c (high_char d) = false) as ->.
    { apply Ascii.eqb_neq. intros ->. apply char_plain in Hc. apply char_escaped in Hd as [Hd _]. congruence. }
    destruct (Ascii.eqb_spec c d) as [->|]; [congruence|done].
Qed.

Lemma prefixes_plain : Forall (fun p => all_chars plain p = true) KNOWN_KEYSTORE_PREFIXES.
Proof. repeat constructor. Qed.

(** "We can check the encoded alias because the prefixes we are interested in
    are all in the printable range that don't get mangled." *)
Lemma is_keystore_alias_encoded s : is_keystore_alias (encode_alias s) = is_keystore_alias s.
Proof.
  unfold is_keystore_alias. pose proof prefixes_plain as H.
  induction H as [|p l Hp _ IH]; [done|]. cbn [existsb]. rewrite IH. f_equal.
  rewrite !starts_with_strip, (strip_prefix_encoded p s Hp).
  destruct (strip_prefix p s); [by rewrite !bool_decide_eq_true_2 by eauto|done].
Qed.

(** ** Numbers *)

Definition digit (c : ascii) : bool := between (byte "0") (byte "9") c.

Lemma pretty_char x : (x < 10)%N -> digit (pretty_N_char x) = true /\ byte (pretty_N_char x) - byte "0" = Z.of_N x.
Proof.
  intros Hx. assert (x = 0 \/ x = 1 \/ x = 2 \/ x = 3 \/ x = 4 \/ x = 5 \/ x = 6 \/ x = 7 \/ x = 8 \/ x = 9)%N as H by lia.
  repeat (destruct H as [->|H]; [done|]). by subst.
Qed.

Lemma pretty_go_digits x s : all_chars digit s = true -> all_chars digit (pretty_N_go x s) = true.
Proof.
  revert s. induction (N.lt_wf_0 x) as [x _ IH]; intros s Hs.
  assert (x = 0 \/ 0 < x)%N as [->|Hx] by lia; [done|]. rewrite pretty_N_go_step by done.
  apply IH; [by apply N.div_lt|]. simpl. rewrite Hs. destruct (pretty_char (x mod 10)) as [-> _]; [|done].
  by apply N.mod_lt.
Qed.

Lemma pretty_go_parse limit x s :
  (Z.of_N x < limit) -> parse_digits limit 0 (pretty_N_go x s) = parse_digits limit (Z.of_N x) s.
Proof.
  revert s. induction (N.lt_wf_0 x) as [x _ IH]; intros s Hx.
  assert (x = 0 \/ 0 < x)%N as [->|Hpos] by lia; [done|]. rewrite pretty_N_go_step by done.
  rewrite IH; [|by apply N.div_lt|]. 2:{ pose proof (N.div_lt x 10 Hpos eq_refl). lia. }
  destruct (pretty_char (x mod 10)) as [Hd Hv]; [by apply N.mod_lt|].
  cbn [parse_digits]. unfold digit in Hd. rewrite Hd, Hv.
  assert (10 * Z.of_N (x / 10) + Z.of_N (x mod 10) = Z.of_N x) as ->.
  { pose proof (N.div_mod x 10). lia. }
  by rewrite (proj2 (Z.ltb_lt _ _)).
Qed.

Lemma to_string_digits n : all_chars digit (to_string n) = true /\ to_string n <> EmptyString.
Proof.
  unfold to_string, pretty, pretty_N. case_decide; [done|]. split; [by apply pretty_go_digits|].
  intros E. assert (forall x s, s <> EmptyString -> pretty_N_go x s <> EmptyString) as Hne.
  { clear. intros x. induction (N.lt_wf_0 x) as [x _ IH]; intros s Hs.
    assert (x = 0 \/ 0 < x)%N as [->|Hx] by lia; [done|]. rewrite pretty_N_go_step by done. by apply IH; [apply N.div_lt|]. }
  rewrite pretty_N_go_step in E by lia. by eapply Hne in E.
Qed.

Lemma parse_unsigned_to_string limit n : 0 <= n < limit -> parse_unsigned limit (to_string n) = Some n.
Proof.
  intros [H0 H1]. destruct (to_string_digits n) as [Hd Hne].
  assert (parse_unsigned limit (to_string n) = parse_digits limit 0 (to_string n)) as ->.
  { destruct (to_string n) as [|c s]; [done|]. cbn [all_chars] in Hd. apply andb_true_iff in Hd as [Hd _].
    unfold parse_unsigned. destruct (ascii_dec c "+") as [->|Hc]; [done|].
    destruct c as [[] [] [] [] [] [] [] []]; done. }
  unfold to_string, pretty, pretty_N. case_decide as Hz.
  - assert (n = 0) as -> by lia. change (parse_digits limit 0 "0") with (if 0 <? limit then Some 0 else None).
    by rewrite (proj2 (Z.ltb_lt 0 limit)) by lia.
  - rewrite pretty_go_parse by lia. simpl. f_equal. lia.
Qed.
Lemma parse_to_string n : u32_range n -> parse_u32 (to_string n) = Some n.
Proof. apply parse_unsigned_to_string. Qed.

(** The separator is the first underscore after the digits. *)
Lemma split_digits d s : all_chars digit d = true -> split_underscore (d +:+ "_" +:+ s) = Some (d, s).
Proof.
  induction d as [|c d IH]; cbn [all_chars]; [done|]. intros [Hc Hd]%andb_true_iff. rewrite str_app_cons.
  cbn [split_underscore]. rewrite IH by done. destruct (Ascii.eqb_spec c "_") as [->|]; [done|done].
Qed.

Lemma to_string_inj m n : 0 <= m -> 0 <= n -> to_string m = to_string n -> m = n.
Proof. intros Hm Hn H. apply pretty_N_inj in H. lia. Qed.

(** ** Claims *)

(** Aliases survive their encoding, and names are safe.  Decoding an encoded
    alias gives the alias back, for every alias a Rust string can hold; the
    encoded name has only characters from ['+'..'.'] and ['0'..'~'], so
    neither a path separator nor a zero byte, whatever the alias contains. *)
Theorem alias_roundtrip s :
  utf8_valid s = true ->
  decode_alias (encode_alias s) = Ok s /\
  all_chars (fun c => file_char c && negb (Ascii.eqb c "/") && negb (byte c =? 0)) (encode_alias s) = true.
Proof.
  intros Hs. split.
  - unfold decode_alias. rewrite decode_encode_bytes. simpl. by rewrite Hs.
  - eapply all_chars_impl; [|apply encode_alias_chars]. intros c.
    pose proof (char_forall (fun c => negb (file_char c) || (file_char c && negb (Ascii.eqb c "/") && negb (byte c =? 0)))
      eq_refl c) as H. cbv beta in H. intros Hc. by rewrite Hc in H |- *.
Qed.

(** The test vector of the source: an alias with an emoji. *)
Definition smiley : string := String (chr 240) (String (chr 159) (String (chr 152) (String (chr 151) EmptyString))).

Lemma alias_roundtrip_witness :
  encode_alias ("#({}test[])" +:+ smiley) = "+S+X{}test[]+Y.`-O-H-G" /\
  decode_alias "+S+X{}test[]+Y.`-O-H-G" = Ok ("#({}test[])" +:+ smiley).
Proof.
  split; [vm_compute; reflexivity|].
  apply (alias_roundtrip ("#({}test[])" +:+ smiley)). vm_compute. reflexivity.
Defined.

(** The broken names of the source's test. *)
Example alias_test_errors :
  decode_alias "+S+{}test[]+Y" = Err BadEncoding /\ decode_alias "+S+X{}test[]+" = Err BadEncoding /\
  decode_alias ".`-O+H-G" = Err BadUtf8.
Proof. vm_compute. done. Qed.
