(* ===== verification/LegacyBlob.v ===== *)
(** * Legacy key blobs ([keystore2/src/legacy_blob.rs])

    The parser of the files Keystore 1.0 left behind: the blob header with
    its payload, and the lists of key parameters in characteristics files.
    A file is the list of its bytes; numbers in a parameter list are in
    native byte order, which is little endian on every device. *)

From stdpp Require Import base list gmap strings.
From Stdlib Require Import ZArith Lia.
From S2P Require Import Prelude Aidl Errors Sql KeyParameter BootLevelKeys Database Crypto LegacyAlias.

Definition SUPPORTED_LEGACY_BLOB_VERSION : Z := 3.

(** [mod flags]. *)
Definition ENCRYPTED : Z := Z.shiftl 1 0.
Definition FALLBACK : Z := Z.shiftl 1 1.
Definition SUPER_ENCRYPTED : Z := Z.shiftl 1 2.
Definition CRITICAL_TO_DEVICE_ENCRYPTION : Z := Z.shiftl 1 3.
Definition STRONGBOX_FLAG : Z := Z.shiftl 1 4.

(** [mod blob_types]. *)
Definition GENERIC : Z := 1.
Definition SUPER_KEY_TYPE : Z := 2.
Definition KM_BLOB : Z := 4.
Definition KEY_CHARACTERISTICS : Z := 5.
Definition KEY_CHARACTERISTICS_CACHE : Z := 6.
Definition SUPER_KEY_AES256 : Z := 7.

Inductive BlobValue :=
| Generic (b : bytes)
| Characteristics (b : bytes)
| CharacteristicsCache (b : bytes)
| PwEncrypted (iv tag data salt : bytes) (key_size : nat)
| Encrypted (iv tag data : bytes)
| Decrypted (b : bytes).

Record Blob := { blob_flags : Z; blob_value : BlobValue }.

Definition is_fallback (b : Blob) : bool := negb (Z.land (blob_flags b) FALLBACK =? 0).
Definition is_encrypted (b : Blob) : bool := negb (Z.land (blob_flags b) (Z.lor SUPER_ENCRYPTED ENCRYPTED) =? 0).
Definition is_critical_to_device_encryption (b : Blob) : bool :=
  negb (Z.land (blob_flags b) CRITICAL_TO_DEVICE_ENCRYPTION =? 0).
Definition is_strongbox (b : Blob) : bool := negb (Z.land (blob_flags b) STRONGBOX_FLAG =? 0).

(** ** Layout of a blob file *)

Definition IV_SIZE : nat := LEGACY_IV_LENGTH.
Definition GCM_TAG_LENGTH : nat := TAG_LENGTH.
Definition SALT_SIZE : nat := SALT_LENGTH.
Definition COMMON_HEADER_SIZE : nat := 4 + IV_SIZE + GCM_TAG_LENGTH + 4.
Definition VERSION_OFFSET : nat := 0.
Definition TYPE_OFFSET : nat := 1.
Definition FLAGS_OFFSET : nat := 2.
Definition SALT_SIZE_OFFSET : nat := 3.
Definition LENGTH_OFFSET : nat := 4 + IV_SIZE + GCM_TAG_LENGTH.
Definition IV_OFFSET : nat := 4.
Definition AEAD_TAG_OFFSET : nat := IV_OFFSET + IV_SIZE.

(** [&buffer[start..start + len]], [buffer[i]] and [&buffer[start..]]: a panic
    out of range. *)
Definition slice (start len : nat) (b : bytes) : result LegacyError bytes :=
  if (start + len <=? length b)%nat then Ok (take len (drop start b)) else Panic.
Definition at_ (i : nat) (b : bytes) : result LegacyError Z :=
  match b !! i with Some x => Ok x | None => Panic end.
Definition slice_from (start : nat) (b : bytes) : result LegacyError bytes :=
  if (start <=? length b)%nat then Ok (drop start b) else Panic.

(** [u32::from_be_bytes]. *)
Definition from_be (b : bytes) : Z := fold_left (fun acc x => 256 * acc + x) b 0.

(** [uN::from_ne_bytes] on a little endian machine. *)
Fixpoint from_le (b : bytes) : Z := match b with [] => 0 | x :: b => x + 256 * from_le b end.

(** The sizes below are numerals in arithmetic. *)
Ltac sizes := unfold COMMON_HEADER_SIZE, VERSION_OFFSET, FLAGS_OFFSET, TYPE_OFFSET, SALT_SIZE_OFFSET, LENGTH_OFFSET,
  AEAD_TAG_OFFSET, IV_OFFSET, SALT_SIZE, SALT_LENGTH, IV_SIZE, GCM_TAG_LENGTH, LEGACY_IV_LENGTH, TAG_LENGTH in *.

Section Parser.
Context {AI : Aidl}.

Definition value_corrupted {A} : result LegacyError A := Err (AnyErr (err_rc ResponseCode.VALUE_CORRUPTED)).

(** The arms of the match on type, encryption and salt. *)
Definition blob_of (blob_type fl : Z) (is_encrypted : bool) (salt : option bytes) (value iv tag : bytes)
    : result LegacyError Blob :=
  let blob v := Ok {| blob_flags := fl; blob_value := v |} in
  if blob_type =? GENERIC then blob (Generic value)
  else if blob_type =? KEY_CHARACTERISTICS then blob (Characteristics value)
  else if blob_type =? KEY_CHARACTERISTICS_CACHE then blob (CharacteristicsCache value)
  else if blob_type =? SUPER_KEY_TYPE then
    match salt with
    | Some salt => blob (PwEncrypted iv tag value salt AES_128_KEY_LENGTH)
    | None => value_corrupted
    end
  else if blob_type =? SUPER_KEY_AES256 then
    match salt with
    | Some salt => blob (PwEncrypted iv tag value salt AES_256_KEY_BYTES)
    | None => value_corrupted
    end
  else if blob_type =? KM_BLOB then
    if is_encrypted then blob (Encrypted iv tag value) else blob (Decrypted value)
  else value_corrupted.

Definition new_from_stream (buffer : bytes) : result LegacyError Blob :=
  if (length buffer <? COMMON_HEADER_SIZE)%nat then Err BadLen
  else
    version ← at_ VERSION_OFFSET buffer;
    fl ← at_ FLAGS_OFFSET buffer;
    blob_type ← at_ TYPE_OFFSET buffer;
    let is_encrypted := negb (Z.land fl (Z.lor ENCRYPTED SUPER_ENCRYPTED) =? 0) in
    salt_size ← at_ SALT_SIZE_OFFSET buffer;
    salt ← (if salt_size =? Z.of_nat SALT_SIZE
            then Some <$> slice (length buffer - SALT_SIZE) SALT_SIZE buffer else Ok None);
    if negb (version =? SUPPORTED_LEGACY_BLOB_VERSION) then value_corrupted
    else
      len ← from_be <$> slice LENGTH_OFFSET 4 buffer;
      if Z.of_nat (length buffer) <? Z.of_nat COMMON_HEADER_SIZE + len then Err BadLen
      else
        value ← slice COMMON_HEADER_SIZE (Z.to_nat len) buffer;
        iv ← slice IV_OFFSET IV_SIZE buffer;
        tag ← slice AEAD_TAG_OFFSET GCM_TAG_LENGTH buffer;
        blob_of blob_type fl is_encrypted salt value iv tag.

(** [decrypt] gets the ciphertext, iv, tag, and for a password encrypted blob
    the salt and the key size. *)
Definition new_from_stream_decrypt_with (stream : bytes)
    (decrypt : bytes -> bytes -> bytes -> option bytes -> option nat -> result AnyError bytes)
    : result LegacyError Blob :=
  blob ← new_from_stream stream;
  match blob_value blob with
  | Encrypted iv tag data =>
    d ← map_err AnyErr (decrypt data iv tag None None); Ok {| blob_flags := blob_flags blob; blob_value := Decrypted d |}
  | PwEncrypted iv tag data salt key_size =>
    d ← map_err AnyErr (decrypt data iv tag (Some salt) (Some key_size));
    Ok {| blob_flags := blob_flags blob; blob_value := Decrypted d |}
  | _ => Ok blob
  end.

(** ** Key parameter lists *)

(** [read_exact] of [n] bytes: what was read, and the rest. *)
Definition read_exact (n : nat) (stream : bytes) : result LegacyError (bytes * bytes) :=
  if (length stream <? n)%nat then Err IoError else Ok (take n stream, drop n stream).

Definition read_bool (stream : bytes) : result LegacyError (bool * bytes) :=
  '(b, rest) ← read_exact 1 stream; x ← at_ 0 b; Ok (negb (x =? 0), rest).
Definition read_ne_u32 (stream : bytes) : result LegacyError (Z * bytes) :=
  '(b, rest) ← read_exact 4 stream; Ok (from_le b, rest).
Definition read_ne_i32 (stream : bytes) : result LegacyError (Z * bytes) :=
  '(b, rest) ← read_exact 4 stream; Ok (as_i32 (from_le b), rest).
Definition read_ne_i64 (stream : bytes) : result LegacyError (Z * bytes) :=
  '(b, rest) ← read_exact 8 stream; Ok (as_i64 (from_le b), rest).

Definition tag_type (tag : Z) : Z := as_i32 (Z.land (as_u32 tag) 4278190080).

(** [slice.get(start..end)] with sizes from the file. *)
Definition get_range (start size : Z) (b : bytes) : option bytes :=
  if start + size <=? Z.of_nat (length b) then Some (take (Z.to_nat size) (drop (Z.to_nat start) b)) else None.

(** One round of the loop: [None] for an entry that is skipped. *)
Definition read_element (indirect_buffer element_stream : bytes)
    : result LegacyError (option KeyParameterValue * bytes) :=
  '(tag, es) ← read_ne_i32 element_stream;
  match name_of TagType.all (tag_type tag) with
  | Some (TagType.ENUM | TagType.ENUM_REP | TagType.UINT | TagType.UINT_REP) =>
    '(z, es) ← read_ne_i32 es; Ok (ok (new_from_tag_primitive_pair tag (I32 z)), es)
  | Some (TagType.ULONG | TagType.ULONG_REP | TagType.DATE) =>
    '(z, es) ← read_ne_i64 es; Ok (ok (new_from_tag_primitive_pair tag (I64 z)), es)
  | Some TagType.BOOL =>
    '(b, es) ← read_bool es;
    Ok (if (b : bool) then ok (new_from_tag_primitive_pair tag (I32 1)) else None, es)
  | Some (TagType.BYTES | TagType.BIGNUM) =>
    '(blob_size, es) ← read_ne_u32 es;
    '(indirect_offset, es) ← read_ne_u32 es;
    blob ← ok_or (get_range indirect_offset blob_size indirect_buffer) (AnyErr OtherError);
    Ok (ok (new_from_tag_primitive_pair tag (PVec blob)), es)
  | Some TagType.INVALID => Ok (None, es)
  | None => value_corrupted
  end.

Fixpoint read_elements (n : nat) (indirect_buffer element_stream : bytes)
    : result LegacyError (list KeyParameterValue) :=
  match n with
  | O => Ok []
  | S n =>
    '(p, es) ← read_element indirect_buffer element_stream;
    ps ← read_elements n indirect_buffer es;
    Ok (match p with Some p => p :: ps | None => ps end)
  end.

Definition read_key_parameters (stream : bytes) : result LegacyError (list KeyParameterValue * bytes) :=
  '(indirect_size, stream) ← read_ne_u32 stream;
  indirect_buffer ← ok_or (get_range 0 indirect_size stream) (AnyErr (err_rc ResponseCode.VALUE_CORRUPTED));
  stream ← slice_from (Z.to_nat indirect_size) stream;
  '(element_count, stream) ← read_ne_u32 stream;
  '(element_size, stream) ← read_ne_u32 stream;
  element_stream ← ok_or (get_range 0 element_size stream) (AnyErr (err_rc ResponseCode.VALUE_CORRUPTED));
  stream ← slice_from (Z.to_nat element_size) stream;
  params ← read_elements (Z.to_nat element_count) indirect_buffer element_stream;
  Ok (params, stream).

(** ** No input makes the parser panic *)

Definition no_panic {E A} (r : result E A) : Prop := r <> Panic.

Lemma no_panic_bind {E A B} (m : result E A) (f : A -> result E B) :
  no_panic m -> (forall a, m = Ok a -> no_panic (f a)) -> no_panic (m ≫= f).
Proof. intros Hm Hf. destruct m; simpl; [by apply Hf|done|done]. Qed.

Lemma no_panic_fmap {E A B} (m : result E A) (f : A -> B) : no_panic m -> no_panic (f <$> m).
Proof. by destruct m. Qed.

Lemma at_no_panic i b : (i < length b)%nat -> no_panic (at_ i b).
Proof. intros H. unfold at_. by destruct (lookup_lt_is_Some_2 b i H) as [x ->]. Qed.

Lemma slice_no_panic i n b : (i + n <= length b)%nat -> no_panic (slice i n b).
Proof. intros H. unfold slice. by rewrite (proj2 (Nat.leb_le _ _)). Qed.

Lemma slice_from_no_panic i b : (i <= length b)%nat -> no_panic (slice_from i b).
Proof. intros H. unfold slice_from. by rewrite (proj2 (Nat.leb_le _ _)). Qed.

Lemma blob_of_no_panic ty fl e salt v iv tag : no_panic (blob_of ty fl e salt v iv tag).
Proof. unfold blob_of, no_panic, value_corrupted. repeat case_match; done. Qed.

Lemma from_be_nonneg b : Forall (fun x => 0 <= x < 256) b -> 0 <= from_be b.
Proof.
  unfold from_be. cut (forall acc, 0 <= acc -> Forall (fun x => 0 <= x < 256) b ->
    0 <= fold_left (fun acc x => 256 * acc + x) b acc); [intros H; apply H; lia|].
  induction b as [|x b IH]; intros acc Ha Hb; [done|]. inversion Hb; subst. simpl. apply IH; [lia|done].
Qed.

Lemma new_from_stream_no_panic buffer : Forall (fun x => 0 <= x < 256) buffer -> no_panic (new_from_stream buffer).
Proof.
  intros Hb. unfold new_from_stream. destruct (Nat.ltb_spec (length buffer) COMMON_HEADER_SIZE) as [|Hlen]; [done|].
  do 4 (apply no_panic_bind; [apply at_no_panic; sizes; lia|intros ? _]).
  apply no_panic_bind.
  { case_match; [|done]. apply no_panic_fmap, slice_no_panic. sizes; lia. }
  intros salt _. case_match; [done|]. apply no_panic_bind; [apply no_panic_fmap, slice_no_panic; sizes; lia|].
  intros len Hl. case_match eqn:Hle; [done|]. apply Z.ltb_ge in Hle.
  assert (0 <= len).
  { unfold slice in Hl. case_match; [|done]. simpl in Hl. simplify_eq.
    apply from_be_nonneg. by apply Forall_take, Forall_drop. }
  apply no_panic_bind; [apply slice_no_panic; sizes; lia|intros v _].
  do 2 (apply no_panic_bind; [apply slice_no_panic; sizes; lia|intros ? _]).
  apply blob_of_no_panic.
Qed.

Lemma read_exact_no_panic n s : no_panic (read_exact n s).
Proof. unfold read_exact. by case_match. Qed.

Lemma read_ne_no_panic s : no_panic (read_ne_u32 s) /\ no_panic (read_ne_i32 s) /\ no_panic (read_ne_i64 s).
Proof. split_and!; (apply no_panic_bind; [apply read_exact_no_panic|by intros [] _]). Qed.

Lemma read_bool_no_panic s : no_panic (read_bool s).
Proof.
  apply no_panic_bind; [apply read_exact_no_panic|]. intros [b r] Hb. apply no_panic_bind; [|done].
  apply at_no_panic. unfold read_exact in Hb. case_match; simplify_eq. destruct s; simpl in *; [done|lia].
Qed.

Lemma get_range_ok_or_no_panic {E} a b l (e : E) : no_panic (ok_or (get_range a b l) e).
Proof. unfold ok_or. by case_match. Qed.

Lemma read_element_no_panic ib es : no_panic (read_element ib es).
Proof.
  apply no_panic_bind; [apply read_ne_no_panic|]. intros [t es1] _.
  repeat case_match; try done; (apply no_panic_bind; [first [apply read_ne_no_panic|apply read_bool_no_panic]|]);
    intros [? ?] _; try done;
    (apply no_panic_bind; [apply read_ne_no_panic|]); intros [? ?] _;
    (apply no_panic_bind; [apply get_range_ok_or_no_panic|done]).
Qed.

Lemma read_elements_no_panic n ib es : no_panic (read_elements n ib es).
Proof.
  revert es. induction n as [|n IH]; intros es; [done|]. simpl.
  apply no_panic_bind; [apply read_element_no_panic|]. intros [p es1] _. apply no_panic_bind; [apply IH|done].
Qed.

Lemma get_range_0 n s b : get_range 0 n s = Some b -> (Z.to_nat n <= length s)%nat.
Proof. unfold get_range. case_match; bool_prop; [|done]. lia. Qed.

Lemma read_key_parameters_no_panic s : no_panic (read_key_parameters s).
Proof.
  apply no_panic_bind; [apply read_ne_no_panic|]. intros [n1 s1] _.
  apply no_panic_bind; [apply get_range_ok_or_no_panic|]. intros ib ?%ok_or_Ok%get_range_0.
  apply no_panic_bind; [by apply slice_from_no_panic|]. intros s2 _.
  apply no_panic_bind; [apply read_ne_no_panic|]. intros [n2 s3] _.
  apply no_panic_bind; [apply read_ne_no_panic|]. intros [n3 s4] _.
  apply no_panic_bind; [apply get_range_ok_or_no_panic|]. intros el ?%ok_or_Ok%get_range_0.
  apply no_panic_bind; [by apply slice_from_no_panic|]. intros s5 _.
  apply no_panic_bind; [apply read_elements_no_panic|done].
Qed.

(** ** What a read consumes *)

Lemma read_exact_Ok n s b r : read_exact n s = Ok (b, r) -> s = b ++ r /\ length b = n.
Proof.
  unfold read_exact. case_match eqn:H; [done|]. apply Nat.ltb_ge in H. intros ?; simplify_eq.
  rewrite take_drop, length_take. split; [done|lia].
Qed.

Lemma read_exact_map_Ok {A} (f : bytes -> A) n s a r :
  (read_exact n s ≫= fun '(b, rest) => Ok (f b, rest)) = Ok (a, r) -> length s = (n + length r)%nat.
Proof. rewrite bind_Ok. intros ([b r'] & [-> Hb]%read_exact_Ok & ?). simplify_eq. rewrite length_app. lia. Qed.

Lemma read_bool_Ok s a r : read_bool s = Ok (a, r) -> length s = (1 + length r)%nat.
Proof.
  unfold read_bool. rewrite bind_Ok. intros ([b r'] & [-> Hb]%read_exact_Ok & (? & _ & ?)%bind_Ok). simplify_eq.
  rewrite length_app. lia.
Qed.

Lemma read_element_consumes ib es p r :
  read_element ib es = Ok (p, r) -> (length r + (if p then 5 else 4) <= length es)%nat.
Proof.
  unfold read_element. rewrite bind_Ok. intros ([t r1] & Ht%read_exact_map_Ok & H).
  destruct (name_of _ _) as [[]|]; simplify_eq; try (simpl; lia);
    apply bind_Ok in H as ([v r2] & Hv & H); (apply read_exact_map_Ok in Hv || apply read_bool_Ok in Hv);
    try (apply bind_Ok in H as ([v' r3] & Hv'%read_exact_map_Ok & (? & _ & H)%bind_Ok)); simplify_eq;
    repeat case_match; simplify_eq; lia.
Qed.

Lemma read_elements_bound n ib es ps :
  read_elements n ib es = Ok ps -> (4 * n <= length es /\ 5 * length ps <= length es)%nat.
Proof.
  revert es ps. induction n as [|n IH]; intros es ps; simpl; [intros; simplify_eq; simpl; lia|].
  rewrite bind_Ok. intros ([p r] & Hp & H). apply read_element_consumes in Hp.
  apply bind_Ok in H as (qs & Hq & H). simplify_eq. apply IH in Hq. case_match; simpl; lia.
Qed.

(** No content of a legacy file makes the parser panic, neither the blob
    header nor a parameter list; and a parameter list that parses has at most
    one parameter for every five bytes of it. *)
Theorem legacy_parser_total (buffer : bytes) :
  Forall (fun x => 0 <= x < 256) buffer ->
  new_from_stream buffer <> Panic /\ read_key_parameters buffer <> Panic /\
  (forall ps rest, read_key_parameters buffer = Ok (ps, rest) ->
     (5 * length ps + 12 + length rest <= length buffer)%nat).
Proof.
  intros Hb. split_and!; [by apply new_from_stream_no_panic|apply read_key_parameters_no_panic|].
  intros ps rest. unfold read_key_parameters. rewrite bind_Ok. intros ([n1 s1] & H1%read_exact_map_Ok & H).
  apply bind_Ok in H as (ib & _ & (s2 & H2 & H)%bind_Ok).
  apply bind_Ok in H as ([n2 s3] & H3%read_exact_map_Ok & ([n3 s4] & H4%read_exact_map_Ok & H)%bind_Ok).
  apply bind_Ok in H as (el & Hel%ok_or_Ok & (s5 & H5 & (qs & Hq%read_elements_bound & Hr)%bind_Ok)%bind_Ok).
  unfold slice_from in *. unfold get_range in Hel. repeat case_match; simplify_eq. bool_prop.
  rewrite length_take, length_drop in Hq. rewrite length_drop in *. lia.
Qed.
End Parser.

Lemma legacy_parser_total_witness :
  exists ps rest, @read_key_parameters aidl_published [0;0;0;0; 1;0;0;0; 8;0;0;0; 1;0;0;32; 2;0;0;0; 9] = Ok (ps, rest)
    /\ (5 * length ps + 12 + length rest <= 21)%nat.
Proof.
  eexists _, _. split; [vm_compute; reflexivity|].
  apply (@legacy_parser_total aidl_published [0;0;0;0; 1;0;0;0; 8;0;0;0; 1;0;0;32; 2;0;0;0; 9]).
  - repeat constructor; lia.
  - vm_compute. reflexivity.
Defined.

(** ** The writer

    The documented formats, as Keystore 1.0 wrote them. *)

(** [n] bytes of [z], least significant first; [be] the other way round. *)
Fixpoint le (n : nat) (z : Z) : bytes :=
  match n with O => [] | S n => z mod 256 :: le n (z / 256) end.
Definition be (n : nat) (z : Z) : bytes := rev (le n z).

Lemma le_length n z : length (le n z) = n.
Proof. revert z. induction n; intros z; simpl; auto. Qed.

Lemma from_le_le n z : from_le (le n z) = z mod 256 ^ Z.of_nat n.
Proof.
  revert z. induction n as [|n IH]; intros z; [by rewrite Z.mod_1_r|]. simpl le. simpl from_le. rewrite IH.
  rewrite Nat2Z.inj_succ, Z.pow_succ_r by lia. rewrite Z.rem_mul_r; lia.
Qed.

Lemma from_be_be n z : from_be (be n z) = z mod 256 ^ Z.of_nat n.
Proof.
  rewrite <- from_le_le. unfold from_be, be. rewrite <- fold_left_rev_right, rev_involutive.
  induction (le n z) as [|x l IH]; [done|]. simpl. rewrite IH. lia.
Qed.
#[global] Arguments le : simpl never.

(** The type each tag is declared with. *)
Definition type_of (n : Tag.name) : TagType.name :=
  match n with
  | Tag.INVALID => TagType.INVALID
  | Tag.PURPOSE | Tag.BLOCK_MODE | Tag.DIGEST | Tag.PADDING => TagType.ENUM_REP
  | Tag.ALGORITHM | Tag.EC_CURVE | Tag.USER_AUTH_TYPE | Tag.ORIGIN => TagType.ENUM
  | Tag.KEY_SIZE | Tag.MIN_MAC_LENGTH | Tag.MIN_SECONDS_BETWEEN_OPS | Tag.MAX_USES_PER_BOOT |
    Tag.USAGE_COUNT_LIMIT | Tag.USER_ID | Tag.AUTH_TIMEOUT | Tag.OS_VERSION | Tag.OS_PATCHLEVEL |
    Tag.VENDOR_PATCHLEVEL | Tag.BOOT_PATCHLEVEL | Tag.MAC_LENGTH | Tag.MAX_BOOT_LEVEL => TagType.UINT
  | Tag.CALLER_NONCE | Tag.INCLUDE_UNIQUE_ID | Tag.BOOTLOADER_ONLY | Tag.ROLLBACK_RESISTANCE |
    Tag.EARLY_BOOT_ONLY | Tag.NO_AUTH_REQUIRED | Tag.ALLOW_WHILE_ON_BODY | Tag.TRUSTED_USER_PRESENCE_REQUIRED |
    Tag.TRUSTED_CONFIRMATION_REQUIRED | Tag.UNLOCKED_DEVICE_REQUIRED |
    Tag.RESET_SINCE_ID_ROTATION => TagType.BOOL
  | Tag.RSA_PUBLIC_EXPONENT => TagType.ULONG
  | Tag.ACTIVE_DATETIME | Tag.ORIGINATION_EXPIRE_DATETIME | Tag.USAGE_EXPIRE_DATETIME | Tag.CREATION_DATETIME |
    Tag.CERTIFICATE_NOT_BEFORE | Tag.CERTIFICATE_NOT_AFTER => TagType.DATE
  | Tag.USER_SECURE_ID => TagType.ULONG_REP
  | Tag.APPLICATION_ID | Tag.APPLICATION_DATA | Tag.ROOT_OF_TRUST | Tag.UNIQUE_ID | Tag.ATTESTATION_CHALLENGE |
    Tag.ATTESTATION_APPLICATION_ID | Tag.ATTESTATION_ID_BRAND | Tag.ATTESTATION_ID_DEVICE |
    Tag.ATTESTATION_ID_PRODUCT | Tag.ATTESTATION_ID_SERIAL | Tag.ATTESTATION_ID_IMEI | Tag.ATTESTATION_ID_MEID |
    Tag.ATTESTATION_ID_MANUFACTURER | Tag.ATTESTATION_ID_MODEL | Tag.ASSOCIATED_DATA | Tag.NONCE |
    Tag.CONFIRMATION_TOKEN | Tag.CERTIFICATE_SUBJECT => TagType.BYTES
  | Tag.CERTIFICATE_SERIAL => TagType.BIGNUM
  end.

(** The number of a tag is its type together with a small number
    (android.hardware.security.keymint.Tag). *)
Class TypedTags `{AI : Aidl} := {
  tag_type_val : forall n : Tag.name, tag_type (val n) = val (type_of n);
  tag_range : forall n : Tag.name, i32_range (val n);
}.
Arguments TypedTags : clear implicits.

#[global] Instance typed_tags_published : TypedTags aidl_published.
Proof. split; intros n; destruct n; vm_compute; intuition congruence. Qed.

Lemma read_exact_app n b r : length b = n -> read_exact n (b ++ r) = Ok (b, r).
Proof.
  intros <-. unfold read_exact. rewrite length_app, (proj2 (Nat.ltb_ge _ _)) by lia.
  by rewrite take_app_length, drop_app_length.
Qed.

Lemma read_ne_u32_le z r : u32_range z -> read_ne_u32 (le 4 z ++ r) = Ok (z, r).
Proof.
  intros H. unfold read_ne_u32. rewrite read_exact_app by apply le_length. simpl. do 2 f_equal.
  change (from_le (le 4 z) = z). rewrite from_le_le. by apply Z.mod_small.
Qed.

Lemma as_i32_mod z : i32_range z -> as_i32 (z mod 2 ^ 32) = z.
Proof. unfold i32_range, as_i32. intros H. rewrite Z.add_mod_idemp_l by lia. rewrite Z.mod_small; lia. Qed.

Lemma as_i64_mod z : i64_range z -> as_i64 (z mod 2 ^ 64) = z.
Proof. unfold i64_range, as_i64. intros H. rewrite Z.add_mod_idemp_l by lia. rewrite Z.mod_small; lia. Qed.

Lemma read_ne_i32_le z r : i32_range z -> read_ne_i32 (le 4 z ++ r) = Ok (z, r).
Proof.
  intros H. unfold read_ne_i32. rewrite read_exact_app by apply le_length.
  change (Ok (as_i32 (from_le (le 4 z)), r) = Ok (E:=LegacyError) (z, r)). rewrite from_le_le. by rewrite as_i32_mod.
Qed.

Lemma read_ne_i64_le z r : i64_range z -> read_ne_i64 (le 8 z ++ r) = Ok (z, r).
Proof.
  intros H. unfold read_ne_i64. rewrite read_exact_app by apply le_length.
  change (Ok (as_i64 (from_le (le 8 z)), r) = Ok (E:=LegacyError) (z, r)). rewrite from_le_le. by rewrite as_i64_mod.
Qed.

Section Writer.
Context {AI : Aidl} {TT : TypedTags AI}.

(** The number or bytes a parameter carries. *)
Definition number (v : KeyParameterValue) : Z := match to_sql v with Integer z => z | _ => 0 end.
Definition indirect (v : KeyParameterValue) : bytes := match to_sql v with BlobVal b => b | _ => [] end.

Definition write_element (offset : Z) (v : KeyParameterValue) : bytes :=
  le 4 (get_tag v) ++
  match type_of (tag_name v) with
  | TagType.ENUM | TagType.ENUM_REP | TagType.UINT | TagType.UINT_REP => le 4 (number v)
  | TagType.ULONG | TagType.ULONG_REP | TagType.DATE => le 8 (number v)
  | TagType.BOOL => [1]
  | TagType.BYTES | TagType.BIGNUM => le 4 (Z.of_nat (length (indirect v))) ++ le 4 offset
  | TagType.INVALID => []
  end.

Fixpoint write_elements (offset : Z) (ps : list KeyParameterValue) : bytes :=
  match ps with
  | [] => []
  | v :: ps => write_element offset v ++ write_elements (offset + Z.of_nat (length (indirect v))) ps
  end.

Definition write_key_parameters (ps : list KeyParameterValue) : bytes :=
  let ib := flat_map indirect ps in
  let es := write_elements 0 ps in
  le 4 (Z.of_nat (length ib)) ++ ib ++ le 4 (Z.of_nat (length ps)) ++ le 4 (Z.of_nat (length es)) ++ es.

(** A parameter the format can hold. *)
Definition writable (v : KeyParameterValue) : Prop := kpv_wf v /\ v <> Invalid.

Lemma get_range_mid pre b post :
  get_range (Z.of_nat (length pre)) (Z.of_nat (length b)) (pre ++ b ++ post) = Some b.
Proof.
  unfold get_range. rewrite !length_app, (proj2 (Z.leb_le _ _)) by lia.
  rewrite !Nat2Z.id, drop_app_length, take_app_length. done.
Qed.

Lemma get_range_front b post : get_range 0 (Z.of_nat (length b)) (b ++ post) = Some b.
Proof. apply (get_range_mid []). Qed.

(** What a parameter is read from, by the type of its tag. *)
Lemma payload v : writable v ->
  match type_of (tag_name v) with
  | TagType.ENUM | TagType.ENUM_REP | TagType.UINT | TagType.UINT_REP =>
    i32_range (number v) /\ new_from_tag_primitive_pair (get_tag v) (I32 (number v)) = Ok v
  | TagType.ULONG | TagType.ULONG_REP | TagType.DATE =>
    i64_range (number v) /\ new_from_tag_primitive_pair (get_tag v) (I64 (number v)) = Ok v
  | TagType.BOOL => new_from_tag_primitive_pair (get_tag v) (I32 1) = Ok v
  | TagType.BYTES | TagType.BIGNUM => new_from_tag_primitive_pair (get_tag v) (PVec (indirect v)) = Ok v
  | TagType.INVALID => False
  end.
Proof.
  intros [Hwf Hv]. unfold new_from_tag_primitive_pair. rewrite tag_lookup.
  destruct v; cbn [tag_name type_of number indirect to_sql kpv_wf prim_i32 prim_i64 prim_vec] in *; done.
Qed.

Lemma read_write_element pre post v es :
  writable v -> Z.of_nat (length pre + length (indirect v)) < 2 ^ 32 ->
  read_element (pre ++ indirect v ++ post) (write_element (Z.of_nat (length pre)) v ++ es) = Ok (Some v, es).
Proof.
  intros Hv Hlen. unfold read_element, write_element. rewrite <- !(assoc_L (++)).
  rewrite read_ne_i32_le by apply tag_range. cbn [mbind result_bind]. unfold get_tag at 1. rewrite tag_type_val.
  rewrite (name_of_val _ _ (TagType.tag_type_all_complete _)). pose proof (payload v Hv) as Hp.
  destruct (type_of (tag_name v)); try done; rewrite <- ?(assoc_L (++)).
  all: try (destruct Hp as [Hr Hp]; first [rewrite read_ne_i32_le by done|rewrite read_ne_i64_le by done];
    cbn [mbind result_bind]; by rewrite Hp).
  all: try (rewrite !read_ne_u32_le by (unfold u32_range; lia); cbn [mbind result_bind];
    rewrite read_ne_u32_le by (unfold u32_range; lia); cbn [mbind result_bind];
    rewrite get_range_mid; simpl; by rewrite Hp).
  simpl. rewrite drop_0. by rewrite Hp.
Qed.

Lemma read_write_elements pre ps :
  Forall writable ps -> Z.of_nat (length (pre ++ flat_map indirect ps)) < 2 ^ 32 ->
  read_elements (length ps) (pre ++ flat_map indirect ps) (write_elements (Z.of_nat (length pre)) ps) = Ok ps.
Proof.
  revert pre. induction ps as [|v ps IH]; intros pre Hw Hlen; [done|]. inversion Hw; subst.
  cbn [read_elements write_elements flat_map length] in *. rewrite !length_app in Hlen.
  rewrite read_write_element by (try done; lia). cbn [mbind result_bind].
  rewrite (assoc_L (++)), <- Nat2Z.inj_add, <- length_app, IH; [done|done|].
  rewrite !length_app. lia.
Qed.

Lemma read_write_parameters ps rest :
  Forall writable ps ->
  Z.of_nat (length (flat_map indirect ps)) < 2 ^ 32 -> Z.of_nat (length (write_elements 0 ps)) < 2 ^ 32 ->
  Z.of_nat (length ps) < 2 ^ 32 ->
  read_key_parameters (write_key_parameters ps ++ rest) = Ok (ps, rest).
Proof.
  intros Hw H1 H2 H3. unfold read_key_parameters, write_key_parameters. rewrite <- !(assoc_L (++)).
  rewrite read_ne_u32_le by (unfold u32_range; lia). cbn [mbind result_bind].
  rewrite get_range_front. cbn [ok_or mbind result_bind]. unfold slice_from.
  rewrite Nat2Z.id, (proj2 (Nat.leb_le _ _)) by (rewrite length_app; lia). cbn [mbind result_bind]. rewrite drop_app_length.
  rewrite read_ne_u32_le by (unfold u32_range; lia). cbn [mbind result_bind]. rewrite read_ne_u32_le by (unfold u32_range; lia). cbn [mbind result_bind].
  rewrite get_range_front. cbn [ok_or mbind result_bind].
  rewrite !Nat2Z.id, (proj2 (Nat.leb_le _ _)) by (rewrite length_app; lia). cbn [mbind result_bind]. rewrite drop_app_length.
  assert (read_elements (length ps) (flat_map indirect ps) (write_elements 0 ps) = Ok ps) as ->
    by exact (read_write_elements [] ps Hw H1). done.
Qed.

(** Reading a parameter list gives back what was written, for every list of
    parameters the format can hold and whatever follows it in the file. *)
Theorem key_parameters_roundtrip ps rest :
  Forall writable ps ->
  Z.of_nat (length (flat_map indirect ps)) < 2 ^ 32 -> Z.of_nat (length (write_elements 0 ps)) < 2 ^ 32 ->
  Z.of_nat (length ps) < 2 ^ 32 ->
  read_key_parameters (write_key_parameters ps ++ rest) = Ok (ps, rest).
Proof. apply read_write_parameters. Qed.
End Writer.

Lemma key_parameters_roundtrip_witness :
  let ps := [KeyPurpose 2; UserSecureID 77; NoAuthRequired; ApplicationID [1;2;3]; AttestationIdBrand [9]] in
  @read_key_parameters aidl_published (@write_key_parameters aidl_published ps ++ [5]) = Ok (ps, [5]).
Proof.
  intros ps. apply (@key_parameters_roundtrip aidl_published _); [|vm_compute; reflexivity..].
  repeat constructor; try done; try (vm_compute; congruence).
Defined.

(** ** Blob files *)

(** A blob file: header, payload, and the salt of a password encrypted blob
    at the very end. *)
Definition blob_file (ty fl : Z) (iv tag payload salt : bytes) : bytes :=
  [SUPPORTED_LEGACY_BLOB_VERSION; ty; fl; Z.of_nat (length salt)] ++ iv ++ tag ++
  be 4 (Z.of_nat (length payload)) ++ payload ++ salt.

(** The file a blob is read from. *)
Definition file_of (b : Blob) : bytes :=
  let fl := blob_flags b in
  let zero := replicate 16 0 in
  match blob_value b with
  | Generic v => blob_file GENERIC fl zero zero v []
  | Characteristics v => blob_file KEY_CHARACTERISTICS fl zero zero v []
  | CharacteristicsCache v => blob_file KEY_CHARACTERISTICS_CACHE fl zero zero v []
  | PwEncrypted iv tag v salt k =>
    blob_file (if (k =? AES_128_KEY_LENGTH)%nat then SUPER_KEY_TYPE else SUPER_KEY_AES256) fl iv tag v salt
  | Encrypted iv tag v => blob_file KM_BLOB fl iv tag v []
  | Decrypted v => blob_file KM_BLOB fl zero zero v []
  end.

Definition payload_of (v : BlobValue) : bytes :=
  match v with
  | Generic v | Characteristics v | CharacteristicsCache v | Decrypted v => v
  | PwEncrypted _ _ v _ _ => v
  | Encrypted _ _ v => v
  end.

(** A blob the format can hold. *)
Definition blob_wf (b : Blob) : Prop :=
  Z.of_nat (length (payload_of (blob_value b))) < 2 ^ 32 /\
  match blob_value b with
  | PwEncrypted iv tag _ salt k =>
    length iv = 16%nat /\ length tag = 16%nat /\ length salt = 16%nat /\ (k = AES_128_KEY_LENGTH \/ k = AES_256_KEY_BYTES)
  | Encrypted iv tag _ => length iv = 16%nat /\ length tag = 16%nat /\ is_encrypted b = true
  | Decrypted _ => is_encrypted b = false
  | _ => True
  end.

Lemma slice_at l pre b post n k : l = pre ++ b ++ post -> length pre = n -> length b = k -> slice n k l = Ok b.
Proof.
  intros -> <- <-. unfold slice. rewrite !length_app, (proj2 (Nat.leb_le _ _)) by lia.
  by rewrite drop_app_length, take_app_length.
Qed.

Section BlobFile.
Context (ty fl : Z) (iv tag p salt : bytes).
Hypothesis iv_length : length iv = 16%nat.
Hypothesis tag_length : length tag = 16%nat.
Let hdr : bytes := [SUPPORTED_LEGACY_BLOB_VERSION; ty; fl; Z.of_nat (length salt)].
Let file : bytes := blob_file ty fl iv tag p salt.

Lemma be_length n z : length (be n z) = n.
Proof. unfold be. by rewrite length_rev, le_length. Qed.

Local Ltac parts pre b post :=
  apply (slice_at _ pre b post); unfold file, blob_file;
  [rewrite ?app_nil_r; by rewrite ?(assoc_L (++))|rewrite ?length_app, ?iv_length, ?tag_length, ?be_length; simpl; try lia|].

Lemma file_length : length file = (40 + length p + length salt)%nat.
Proof. unfold file, blob_file. rewrite !length_app, iv_length, tag_length, be_length. simpl. lia. Qed.

Lemma file_iv : slice IV_OFFSET IV_SIZE file = Ok iv.
Proof. parts hdr iv (tag ++ be 4 (Z.of_nat (length p)) ++ p ++ salt); done. Qed.

Lemma file_tag : slice AEAD_TAG_OFFSET GCM_TAG_LENGTH file = Ok tag.
Proof. parts (hdr ++ iv) tag (be 4 (Z.of_nat (length p)) ++ p ++ salt); done. Qed.

Lemma file_len : slice LENGTH_OFFSET 4 file = Ok (be 4 (Z.of_nat (length p))).
Proof. parts (hdr ++ iv ++ tag) (be 4 (Z.of_nat (length p))) (p ++ salt); [done|apply be_length]. Qed.

Lemma file_payload : slice COMMON_HEADER_SIZE (length p) file = Ok p.
Proof. parts (hdr ++ iv ++ tag ++ be 4 (Z.of_nat (length p))) p salt; done. Qed.

Lemma file_salt : length salt = SALT_SIZE -> slice (length file - SALT_SIZE) SALT_SIZE file = Ok salt.
Proof.
  intros Hs. rewrite file_length, Hs. replace (40 + length p + SALT_SIZE - SALT_SIZE)%nat with (40 + length p)%nat by lia.
  parts (hdr ++ iv ++ tag ++ be 4 (Z.of_nat (length p)) ++ p) salt (@nil Z); done.
Qed.

Context {AI : Aidl}.

Lemma new_from_blob_file :
  salt = [] \/ length salt = SALT_SIZE -> Z.of_nat (length p) < 2 ^ 32 ->
  new_from_stream file =
  blob_of ty fl (negb (Z.land fl (Z.lor ENCRYPTED SUPER_ENCRYPTED) =? 0))
    (if (length salt =? SALT_SIZE)%nat then Some salt else None) p iv tag.
Proof.
  intros Hs Hp. unfold new_from_stream. rewrite (proj2 (Nat.ltb_ge _ _)) by (rewrite file_length; sizes; lia).
  change (at_ VERSION_OFFSET file) with (Ok (E:=LegacyError) SUPPORTED_LEGACY_BLOB_VERSION).
  change (at_ FLAGS_OFFSET file) with (Ok (E:=LegacyError) fl).
  change (at_ TYPE_OFFSET file) with (Ok (E:=LegacyError) ty).
  change (at_ SALT_SIZE_OFFSET file) with (Ok (E:=LegacyError) (Z.of_nat (length salt))).
  cbn [mbind result_bind].
  assert ((if Z.of_nat (length salt) =? Z.of_nat SALT_SIZE
    then Some <$> slice (length file - SALT_SIZE) SALT_SIZE file else Ok None) =
    Ok (if (length salt =? SALT_SIZE)%nat then Some salt else None)) as ->.
  { destruct Hs as [->|Hs]; [done|]. rewrite Hs, Z.eqb_refl, Nat.eqb_refl, file_salt by done. done. }
  cbn [mbind result_bind]. rewrite Z.eqb_refl. cbn [negb]. rewrite file_len. cbn [fmap result_fmap mbind result_bind].
  rewrite from_be_be, Z.mod_small by (simpl Z.of_nat; lia). rewrite file_length, (proj2 (Z.ltb_ge _ _)) by (sizes; lia).
  rewrite Nat2Z.id, file_payload. cbn [mbind result_bind]. rewrite file_iv. cbn [mbind result_bind]. by rewrite file_tag.
Qed.
End BlobFile.

Section Files.
Context {AI : Aidl}.

Lemma blob_roundtrip (b : Blob) : blob_wf b -> new_from_stream (file_of b) = Ok b.
Proof.
  destruct b as [fl v]. unfold blob_wf, is_encrypted, file_of. cbn [blob_flags blob_value].
  rewrite (Z.lor_comm SUPER_ENCRYPTED ENCRYPTED).
  destruct v as [v|v|v|iv tag v salt k|iv tag v|v]; cbn [payload_of]; intros [Hp Hb].
  - by rewrite new_from_blob_file by auto.
  - by rewrite new_from_blob_file by auto.
  - by rewrite new_from_blob_file by auto.
  - destruct Hb as (Hi & Ht & Hs & Hk). rewrite new_from_blob_file by auto. rewrite Hs.
    by destruct Hk as [->| ->].
  - destruct Hb as (Hi & Ht & He). rewrite new_from_blob_file by auto. by rewrite He.
  - rewrite new_from_blob_file by auto. by rewrite Hb.
Qed.

(** The parser reads back every blob from the file that holds it: type,
    flags, initialization vector, tag, payload, salt and key size. *)
Theorem blob_file_roundtrip (b : Blob) : blob_wf b -> new_from_stream (file_of b) = Ok b.
Proof. apply blob_roundtrip. Qed.
End Files.

Lemma blob_file_roundtrip_witness :
  let b := {| blob_flags := SUPER_ENCRYPTED; blob_value := Encrypted (replicate 16 1) (replicate 16 2) [7;8;9] |} in
  @new_from_stream aidl_published (file_of b) = Ok b.
Proof. intros b. apply (@blob_file_roundtrip aidl_published b). by repeat split. Defined.
