(* ===== verification/LegacyFs.v ===== *)
(** * The legacy key files ([keystore2/src/legacy_blob.rs], [LegacyBlobLoader])

    One directory per Android user, [user_<n>], with a file per key, its
    characteristics and its certificates.  The file system is a map from
    directory and file names to contents; a path in [broken_dirs] or
    [broken_files] fails with an I/O error other than "not found".
    (A call that is interrupted is repeated by with_retry_interrupted, so an
    interruption is not an outcome.)  The order of directory entries is
    not specified; here it is that of the map. *)

From stdpp Require Import base list gmap strings sorting.
From Stdlib Require Import ZArith Lia Ascii.
From S2P Require Import Prelude Aidl Errors KeyParameter Database Crypto RawDevice SuperKey LegacyAlias LegacyBlob.

Record Fs := {
  dirs : gmap string (gmap string bytes);
  root_broken : bool;
  broken_dirs : gset string;
  broken_files : gset (string * string)
}.

Definition with_dirs (f : gmap string (gmap string bytes) -> gmap string (gmap string bytes)) (fs : Fs) : Fs :=
  {| dirs := f (dirs fs); root_broken := root_broken fs; broken_dirs := broken_dirs fs; broken_files := broken_files fs |}.

Inductive IoKind := NotFound | OtherIo.
#[global] Instance IoKind_eq_dec : EqDecision IoKind.
Proof. solve_decision. Defined.

(** [File::open] and reading it, [read_dir], [remove_file], [remove_dir]. *)
Definition open_file (fs : Fs) (d f : string) : result IoKind bytes :=
  if decide ((d, f) ∈ broken_files fs) then Err OtherIo
  else ok_or (dirs fs !! d ≫= (fun m => m !! f)) NotFound.
Definition read_dir (fs : Fs) (d : string) : result IoKind (list string) :=
  if decide (d ∈ broken_dirs fs) then Err OtherIo
  else match dirs fs !! d with Some m => Ok ((map_to_list m).*1) | None => Err NotFound end.
Definition remove_file (d f : string) : sr Fs IoKind unit := fun fs =>
  match open_file fs d f with
  | Ok _ => (Ok tt, with_dirs (alter (delete f) d) fs)
  | Err e => (Err e, fs)
  | Panic => (Panic, fs)
  end.
Definition remove_dir (d : string) : sr Fs IoKind unit := fun fs =>
  match read_dir fs d with
  | Ok [] => (Ok tt, with_dirs (delete d) fs)
  | Ok _ => (Err OtherIo, fs)
  | Err e => (Err e, fs)
  | Panic => (Panic, fs)
  end.

Definition io_err {A} (r : result IoKind A) : result LegacyError A := map_err (fun _ => IoError) r.

(** [if let Err(e) = r]: what the code looks at. *)
Definition io_error {S A} (m : sr S IoKind A) {E} : sr S E (option IoKind) := fun s =>
  match m s with
  | (Ok _, s') => (Ok None, s')
  | (Err e, s') => (Ok (Some e), s')
  | (Panic, s') => (Panic, s')
  end.

(** [&s[n..]]: a panic past the end or inside a character. *)
Fixpoint drop_str (n : nat) (s : string) : string :=
  match n, s with
  | O, _ => s
  | S n, String _ s => drop_str n s
  | S _, EmptyString => EmptyString
  end.
Definition str_from {E} (n : nat) (s : string) : result E string :=
  if (String.length s <? n)%nat then Panic
  else match drop_str n s with
  | String c _ as t => if cont c then Panic else Ok t
  | EmptyString => Ok EmptyString
  end.

(** ** File names *)

Definition make_user_path_name (user_id : Z) : string := "user_" +:+ to_string user_id.
Definition make_blob_filename (uid : Z) (alias prefix : string) : string :=
  to_string uid +:+ "_" +:+ encode_alias (prefix +:+ "_" +:+ alias).
Definition make_chr_filename (uid : Z) (alias prefix : string) : string :=
  "." +:+ to_string uid +:+ "_chr_" +:+ encode_alias (prefix +:+ "_" +:+ alias).
Definition super_key_file : string := ".masterkey".
Definition make_legacy_keystore_entry_filename (uid : Z) (alias : string) : option string :=
  if is_keystore_alias alias then None else Some (to_string uid +:+ "_" +:+ encode_alias alias).

Section Loader.
Context {AI : Aidl} {BO : Boring}.
(** [AID_USER_OFFSET] of the platform: [multiuser_get_user_id] divides by it. *)
Context (off : Z).

Definition uid_to_android_user (uid : Z) : Z := uid / off.
Definition dir_of (uid : Z) : string := make_user_path_name (uid_to_android_user uid).

(** ** Reading *)

Definition read_generic_blob (fs : Fs) (d f : string) : result LegacyError (option Blob) :=
  match open_file fs d f with
  | Ok b => Some <$> new_from_stream b
  | Err NotFound => Ok None
  | Err _ => Err IoError
  | Panic => Panic
  end.

Definition keystore_enforced (v : KeyParameterValue) : KeyParameter :=
  {| kp_value := v; security_level := val SecurityLevel.KEYSTORE |}.

(** The one or two lists of a characteristics file. *)
Definition characteristics_of (hw_sec_level : Z) (v : BlobValue) : result LegacyError (list KeyParameter) :=
  match v with
  | Characteristics stream =>
    sw ← fst <$> read_key_parameters stream; Ok (map keystore_enforced sw)
  | CharacteristicsCache stream =>
    hw ← read_key_parameters stream;
    sw ← fst <$> read_key_parameters hw.2;
    Ok (map (fun v => {| kp_value := v; security_level := hw_sec_level |}) hw.1 ++ map keystore_enforced sw)
  | _ => value_corrupted
  end.

Definition read_characteristics_file (fs : Fs) (uid : Z) (prefix alias : string) (hw_sec_level : Z)
    : result LegacyError (list KeyParameter) :=
  blob ← read_generic_blob fs (dir_of uid) (make_chr_filename uid alias prefix);
  match blob with
  | None => Ok []
  | Some blob => characteristics_of hw_sec_level (blob_value blob)
  end.

Fixpoint first_km_blob (fs : Fs) (uid : Z) (alias : string) (prefixes : list string)
    : result LegacyError (option (Blob * string)) :=
  match prefixes with
  | [] => Ok None
  | prefix :: prefixes =>
    blob ← read_generic_blob fs (dir_of uid) (make_blob_filename uid alias prefix);
    match blob with
    | Some blob => Ok (Some (blob, prefix))
    | None => first_km_blob fs uid alias prefixes
    end
  end.
Definition read_km_blob_file (fs : Fs) (uid : Z) (alias : string) : result LegacyError (option (Blob * string)) :=
  first_km_blob fs uid alias ["USRPKEY"; "USRSKEY"].

Definition read_cert (fs : Fs) (uid : Z) (alias prefix : string) : result LegacyError (option bytes) :=
  blob ← read_generic_blob fs (dir_of uid) (make_blob_filename uid alias prefix);
  match blob with
  | Some {| blob_value := Generic data |} => Ok (Some data)
  | Some _ => value_corrupted
  | None => Ok None
  end.

(** The key blob, decrypted if it is encrypted and there is a key manager. *)
Definition unwrap_legacy_blob (uid : Z) (key_manager : option Skm) (km_blob : Blob) : result LegacyError Blob :=
  match blob_value km_blob with
  | Decrypted _ => Ok km_blob
  | Encrypted iv tag data =>
    match key_manager with
    | Some skm =>
      match get_per_boot_key_by_user_id skm (uid_to_android_user uid) with
      | Some key =>
        d ← map_err AnyErr (sk_aes_gcm_decrypt key data iv tag);
        Ok {| blob_flags := blob_flags km_blob; blob_value := Decrypted d |}
      | None => Err (AnyErr (err_rc ResponseCode.LOCKED))
      end
    | None => Ok km_blob
    end
  | _ => value_corrupted
  end.

Definition LoadedKey : Type := option (Blob * list KeyParameter) * option bytes * option bytes.

Definition load_by_uid_alias (fs : Fs) (uid : Z) (alias : string) (key_manager : option Skm)
    : result LegacyError LoadedKey :=
  found ← read_km_blob_file fs uid alias;
  km_blob ← match found with
            | Some (b, prefix) =>
              km_blob ← unwrap_legacy_blob uid key_manager b;
              let hw_sec_level := if is_strongbox km_blob then val SecurityLevel.STRONGBOX
                                  else val SecurityLevel.TRUSTED_ENVIRONMENT in
              key_parameters ← read_characteristics_file fs uid prefix alias hw_sec_level;
              Ok (Some (km_blob, key_parameters))
            | None => Ok None
            end;
  user_cert ← read_cert fs uid alias "USRCERT";
  ca_cert ← read_cert fs uid alias "CACERT";
  Ok (km_blob, user_cert, ca_cert).

Definition read_legacy_keystore_entry (fs : Fs) (uid : Z) (alias : string) : result LegacyError (option bytes) :=
  match make_legacy_keystore_entry_filename uid alias with
  | None => Ok None
  | Some f =>
    blob ← read_generic_blob fs (dir_of uid) f;
    Ok (blob ≫= fun b => match blob_value b with Generic b => Some b | _ => None end)
  end.

(** ** Super keys *)

Definition has_super_key (fs : Fs) (user_id : Z) : bool :=
  bool_decide (is_Some (dirs fs !! make_user_path_name user_id ≫= fun m => m !! super_key_file)).

Definition load_super_key (fs : Fs) (user_id : Z) (pw : bytes) : result LegacyError (option bytes) :=
  blob ← read_generic_blob fs (make_user_path_name user_id) super_key_file;
  match blob with
  | Some b =>
    match blob_value b with
    | PwEncrypted iv tag data salt key_size =>
      if negb (Z.land (blob_flags b) ENCRYPTED =? 0) then
        key ← map_err AnyErr (crypto_err (derive_key pw (Some salt) key_size));
        Some <$> map_err AnyErr (crypto_err (aes_gcm_decrypt data iv tag key))
      else Ok (Some data)
    | _ => value_corrupted
    end
  | None => Ok None
  end.

(** ** Listing *)

Definition is_empty (fs : Fs) : result LegacyError bool :=
  if root_broken fs then Err IoError
  else Ok (negb (existsb (fun f => utf8_valid f && starts_with f "user_") ((map_to_list (dirs fs)).*1))).

(** [is_dir] looks at the directory without reading it. *)
Definition is_empty_user (fs : Fs) (user_id : Z) : result LegacyError bool :=
  let d := make_user_path_name user_id in
  match dirs fs !! d with
  | None => Ok true
  | Some _ => (fun l => bool_decide (l = [])) <$> io_err (read_dir fs d)
  end.

Definition list_user (fs : Fs) (user_id : Z) : result LegacyError (list string) :=
  match read_dir fs (make_user_path_name user_id) with
  | Ok l => Ok (filter (fun f => utf8_valid f = true) l)
  | Err NotFound => Ok []
  | Err _ => Err IoError
  | Panic => Panic
  end.

(** The uid and alias a file name holds, if any. *)
Definition entry_of (extract : string -> option string) (v : string) : option (Z * string) :=
  '(u, rest) ← split_underscore v;
  uid ← parse_u32 u;
  alias ← extract rest;
  Some (uid, alias).

(** [acc.entry(uid).or_default().insert(alias)]. *)
Definition add_entry (acc : gmap Z (gset string)) (e : Z * string) : gmap Z (gset string) :=
  <[e.1 := {[e.2]} ∪ default ∅ (acc !! e.1)]> acc.

Definition list_entries_for_user (extract : string -> option string) (fs : Fs) (user_id : Z)
    : result LegacyError (gmap Z (gset string)) :=
  user_entries ← list_user fs user_id;
  Ok (fold_left add_entry (omap (entry_of extract) user_entries) ∅).

Definition list_keystore_entries_for_user : Fs -> Z -> result LegacyError (gmap Z (gset string)) :=
  list_entries_for_user extract_keystore_alias.
Definition list_legacy_keystore_entries_for_user : Fs -> Z -> result LegacyError (gmap Z (gset string)) :=
  list_entries_for_user extract_legacy_alias.

Definition list_keystore_entries_for_uid (fs : Fs) (uid : Z) : result LegacyError (list string) :=
  user_entries ← list_user fs (uid_to_android_user uid);
  let uid_str := to_string uid +:+ "_" in
  Ok (dedup (merge_sort String.le (omap (fun v => strip_prefix uid_str v ≫= extract_keystore_alias) user_entries))).

(** The loop over the directory entries: the text after the uid is cut off
    before the uid is compared. *)
Fixpoint list_legacy_loop (uid_str : string) (files : list string) : result LegacyError (list string) :=
  match files with
  | [] => Ok []
  | f :: files =>
    if utf8_valid f then
      encoded_alias ← str_from (String.length uid_str + 1) f;
      if starts_with f uid_str && negb (is_keystore_alias encoded_alias) then
        a ← decode_alias encoded_alias; l ← list_legacy_loop uid_str files; Ok (a :: l)
      else list_legacy_loop uid_str files
    else list_legacy_loop uid_str files
  end.

Definition list_legacy_keystore_entries_for_uid (fs : Fs) (uid : Z) : result LegacyError (list string) :=
  match read_dir fs (dir_of uid) with
  | Ok l => list_legacy_loop (to_string uid) l
  | Err NotFound => Ok []
  | Err _ => Err IoError
  | Panic => Panic
  end.

(** ** Removing *)

Definition remove_user_dir_if_empty (user_id : Z) : sr Fs LegacyError unit :=
  e ← (fun fs => (is_empty_user fs user_id, fs));
  if (e : bool) then _ ← io_error (remove_dir (make_user_path_name user_id)); mret tt else mret tt.

Definition remove_legacy_keystore_entry (uid : Z) (alias : string) : sr Fs LegacyError unit :=
  match make_legacy_keystore_entry_filename uid alias with
  | None => mret tt
  | Some f =>
    e ← io_error (remove_file (dir_of uid) f);
    match e with
    | Some NotFound => mret tt
    | Some _ => throw IoError
    | None => remove_user_dir_if_empty (uid_to_android_user uid)
    end
  end.

(** The loop over USRPKEY and USRSKEY: ends at the first file that is there. *)
Fixpoint remove_km_blob (uid : Z) (alias : string) (prefixes : list string) : sr Fs LegacyError bool :=
  match prefixes with
  | [] => mret false
  | prefix :: prefixes =>
    e ← io_error (remove_file (dir_of uid) (make_blob_filename uid alias prefix));
    if bool_decide (e = Some NotFound) then remove_km_blob uid alias prefixes
    else
      _ ← io_error (remove_file (dir_of uid) (make_chr_filename uid alias prefix));
      mret true
  end.

(** The loop over USRCERT and CACERT: the flag is set in the arm of an error
    other than "not found". *)
Fixpoint remove_certs (uid : Z) (alias : string) (something_was_deleted : bool) (prefixes : list string)
    : sr Fs LegacyError bool :=
  match prefixes with
  | [] => mret something_was_deleted
  | prefix :: prefixes =>
    e ← io_error (remove_file (dir_of uid) (make_blob_filename uid alias prefix));
    remove_certs uid alias (match e with Some OtherIo => true | _ => something_was_deleted end) prefixes
  end.

Definition remove_keystore_entry (uid : Z) (alias : string) : sr Fs LegacyError bool :=
  km_deleted ← remove_km_blob uid alias ["USRPKEY"; "USRSKEY"];
  something_was_deleted ← remove_certs uid alias km_deleted ["USRCERT"; "CACERT"];
  _ ← (if (something_was_deleted : bool) then remove_user_dir_if_empty (uid_to_android_user uid) else mret tt);
  mret something_was_deleted.

Definition remove_super_key (user_id : Z) : sr Fs LegacyError unit :=
  _ ← io_error (remove_file (make_user_path_name user_id) super_key_file);
  e ← gets (fun fs => default false (ok (is_empty_user fs user_id)));
  if (e : bool) then _ ← io_error (remove_dir (make_user_path_name user_id)); mret tt else mret tt.
End Loader.

(** ** Names *)

(** The names Keystore 1.0 used before the alias. *)
Definition KEY_PREFIXES : list string := ["USRPKEY"; "USRSKEY"; "USRCERT"; "CACERT"].

Ltac known := unfold KEY_PREFIXES; rewrite !elem_of_cons; auto 6.

Lemma entry_name_inj u u' s s' :
  0 <= u -> 0 <= u' ->
  to_string u +:+ "_" +:+ encode_alias s = to_string u' +:+ "_" +:+ encode_alias s' -> u = u' /\ s = s'.
Proof.
  intros Hu Hu' H. apply (f_equal split_underscore) in H.
  rewrite !split_digits in H by apply to_string_digits.
  injection H as H1 H2. split; [by apply to_string_inj|by apply encode_alias_inj].
Qed.

Lemma prefixed_inj p p' a a' :
  p ∈ KEY_PREFIXES -> p' ∈ KEY_PREFIXES -> p +:+ "_" +:+ a = p' +:+ "_" +:+ a' -> p = p' /\ a = a'.
Proof.
  unfold KEY_PREFIXES. rewrite !elem_of_cons, !elem_of_nil.
  intros [->|[->|[->|[->|[]]]]] [->|[->|[->|[->|[]]]]] H; by simplify_eq.
Qed.

Lemma blob_filename_inj u u' a a' p p' :
  0 <= u -> 0 <= u' -> p ∈ KEY_PREFIXES -> p' ∈ KEY_PREFIXES ->
  make_blob_filename u a p = make_blob_filename u' a' p' -> u = u' /\ a = a' /\ p = p'.
Proof.
  unfold make_blob_filename. intros Hu Hu' Hp Hp' [-> H]%entry_name_inj; [|done..].
  apply prefixed_inj in H as [-> ->]; auto.
Qed.

Lemma dot_inj s t : "." +:+ s = "." +:+ t -> s = t.
Proof. intros H. by injection H. Qed.

Lemma chr_sep s : "_chr_" +:+ s = "_" +:+ "chr_" +:+ s.
Proof. done. Qed.

Lemma chr_filename_inj u u' a a' p p' :
  0 <= u -> 0 <= u' -> p ∈ KEY_PREFIXES -> p' ∈ KEY_PREFIXES ->
  make_chr_filename u a p = make_chr_filename u' a' p' -> u = u' /\ a = a' /\ p = p'.
Proof.
  unfold make_chr_filename. intros Hu Hu' Hp Hp' H%dot_inj. apply (f_equal split_underscore) in H.
  rewrite !chr_sep in H.
  rewrite !split_digits in H by apply to_string_digits. injection H as H1 H2.
  apply to_string_inj in H1; [|done..]. apply encode_alias_inj in H2. apply prefixed_inj in H2 as [-> ->]; auto.
Qed.

Lemma digits_not_dot n s t : to_string n +:+ s <> String "." t.
Proof.
  destruct (to_string_digits n) as [Hd Hne]. destruct (to_string n) as [|c r]; [done|].
  cbn [all_chars] in Hd. apply andb_true_iff in Hd as [Hc _]. rewrite str_app_cons. intros [= -> _]. done.
Qed.

Lemma blob_chr_ne u u' a a' p p' : make_blob_filename u a p <> make_chr_filename u' a' p'.
Proof. apply digits_not_dot. Qed.

(** ** Files *)

Definition file (fs : Fs) (d f : string) : option bytes := dirs fs !! d ≫= fun m => m !! f.
Definition healthy (fs : Fs) : Prop := root_broken fs = false /\ broken_dirs fs = ∅ /\ broken_files fs = ∅.

Lemma open_healthy fs d f : healthy fs -> open_file fs d f = ok_or (file fs d f) NotFound.
Proof. intros (_ & _ & H). unfold open_file. rewrite H. by case_decide; [set_solver|]. Qed.

Lemma file_remove fs d f d' f' :
  file (with_dirs (alter (delete f) d) fs) d' f' = if decide (d' = d /\ f' = f) then None else file fs d' f'.
Proof.
  unfold file. simpl. destruct (decide (d' = d)) as [->|Hd].
  - rewrite lookup_alter_eq. destruct (dirs fs !! d) as [m|]; simpl; [|by case_decide].
    destruct (decide (f' = f)) as [->|Hf].
    + by rewrite lookup_delete_eq, decide_True.
    + rewrite lookup_delete_ne by done. rewrite decide_False by naive_solver. done.
  - rewrite lookup_alter_ne by done. rewrite decide_False by naive_solver. done.
Qed.

(** Removing a file, whether or not it is there. *)
Lemma remove_file_spec fs d f E :
  healthy fs -> exists fs', @io_error _ _ (remove_file d f) E fs =
    (Ok (if file fs d f then None else Some NotFound), fs') /\ healthy fs' /\
    (forall d' f', file fs' d' f' = if decide (d' = d /\ f' = f) then None else file fs d' f').
Proof.
  intros Hh. unfold io_error, remove_file. rewrite open_healthy by done. destruct (file fs d f) eqn:Hf; simpl.
  - eexists. split_and!; [done|by destruct Hh|]. intros. apply file_remove.
  - exists fs. split_and!; [done|done|]. intros d' f'. by case_decide; [destruct_and!; subst|].
Qed.

Lemma remove_dir_spec fs d E :
  healthy fs -> dirs fs !! d = Some ∅ -> exists fs', @io_error _ _ (remove_dir d) E fs = (Ok None, fs') /\ healthy fs' /\
    dirs fs' !! d = None /\ (forall d' f', file fs' d' f' = file fs d' f').
Proof.
  intros Hh Hd. pose proof Hh as (_ & Hb & _). unfold io_error, remove_dir, read_dir. rewrite Hb, Hd.
  rewrite decide_False by set_solver. rewrite map_to_list_empty. simpl. eexists. split_and!; [done|by destruct Hh| |].
  - simpl. by rewrite lookup_delete_eq.
  - intros d' f'. unfold file. simpl. destruct (decide (d' = d)) as [->|].
    + by rewrite lookup_delete_eq, Hd.
    + by rewrite lookup_delete_ne.
Qed.

Section Proofs.
Context {AI : Aidl} {BO : Boring} (off : Z).
Implicit Types fs : Fs.

Lemma remove_user_dir_spec fs user :
  healthy fs -> exists fs', remove_user_dir_if_empty user fs = (Ok tt, fs') /\ healthy fs' /\
    dirs fs' !! make_user_path_name user <> Some ∅ /\ (forall d f, file fs' d f = file fs d f).
Proof.
  intros Hh. pose proof Hh as (_ & Hb & _).
  unfold remove_user_dir_if_empty, mbind, sr_bind, is_empty_user, read_dir. rewrite Hb.
  rewrite (decide_False (P:=_ ∈ ∅)) by set_solver.
  destruct (dirs fs !! make_user_path_name user) as [m|] eqn:Hd; simpl.
  - case_bool_decide as He; simpl.
    + apply fmap_nil_inv, map_to_list_empty_iff in He. subst m.
      destruct (remove_dir_spec fs (make_user_path_name user) LegacyError Hh Hd) as (fs' & -> & ? & Hn & ?).
      simpl. exists fs'. rewrite Hn. done.
    + exists fs. split_and!; [done|done| |done]. rewrite Hd. intros [= ->]. by rewrite map_to_list_empty in He.
  - destruct (remove_dir (make_user_path_name user) fs) as [r fs'] eqn:Hr. unfold io_error. rewrite Hr.
    unfold remove_dir, read_dir in Hr. rewrite Hd, Hb, decide_False in Hr by set_solver. simplify_eq.
    exists fs'. rewrite Hd. done.
Qed.

(** What a load looks at. *)
Lemma read_generic_ext fs fs' d f :
  healthy fs -> healthy fs' -> file fs d f = file fs' d f -> read_generic_blob fs d f = read_generic_blob fs' d f.
Proof. intros Hh Hh' H. unfold read_generic_blob. by rewrite !open_healthy, H. Qed.

Lemma read_km_prefix fs uid alias b p : read_km_blob_file off fs uid alias = Ok (Some (b, p)) -> p ∈ KEY_PREFIXES.
Proof.
  unfold read_km_blob_file, first_km_blob. rewrite bind_Ok. intros ([] & _ & H); [simplify_eq; known|].
  apply bind_Ok in H as ([] & _ & H); simplify_eq. known.
Qed.

(** Two stores that agree on an entry's files load the same entry. *)
Lemma load_ext fs fs' uid alias km :
  healthy fs -> healthy fs' ->
  (forall p f, p ∈ KEY_PREFIXES -> f = make_blob_filename uid alias p \/ f = make_chr_filename uid alias p ->
     file fs (dir_of off uid) f = file fs' (dir_of off uid) f) ->
  load_by_uid_alias off fs uid alias km = load_by_uid_alias off fs' uid alias km.
Proof.
  intros Hh Hh' H.
  assert (Hr : forall p f, p ∈ KEY_PREFIXES -> f = make_blob_filename uid alias p \/ f = make_chr_filename uid alias p ->
    read_generic_blob fs (dir_of off uid) f = read_generic_blob fs' (dir_of off uid) f).
  { intros p f Hp Hf. apply read_generic_ext; eauto. }
  unfold load_by_uid_alias, read_cert.
  assert (read_km_blob_file off fs uid alias = read_km_blob_file off fs' uid alias) as ->.
  { unfold read_km_blob_file, first_km_blob.
    rewrite (Hr "USRPKEY" (make_blob_filename uid alias "USRPKEY")) by (by left || known).
    rewrite (Hr "USRSKEY" (make_blob_filename uid alias "USRSKEY")) by (by left || known). done. }
  rewrite (Hr "USRCERT" (make_blob_filename uid alias "USRCERT")) by (by left || known).
  rewrite (Hr "CACERT" (make_blob_filename uid alias "CACERT")) by (by left || known).
  destruct (read_km_blob_file off fs' uid alias) as [[[b p]|]| |] eqn:Hk; try done.
  apply read_km_prefix in Hk. unfold read_characteristics_file. cbn [mbind result_bind].
  by rewrite (Hr p (make_chr_filename uid alias p)) by eauto.
Qed.

(** *** Removing an entry *)

Definition present (fs : Fs) (uid : Z) (alias prefix : string) : bool :=
  bool_decide (is_Some (file fs (dir_of off uid) (make_blob_filename uid alias prefix))).

(** The key files a removal deletes: those of the first prefix found. *)
Definition km_files (fs : Fs) (uid : Z) (alias : string) : list string :=
  let names p := [make_blob_filename uid alias p; make_chr_filename uid alias p] in
  if present fs uid alias "USRPKEY" then names "USRPKEY"
  else if present fs uid alias "USRSKEY" then names "USRSKEY" else [].
Definition removed_files (fs : Fs) (uid : Z) (alias : string) : list string :=
  km_files fs uid alias ++ [make_blob_filename uid alias "USRCERT"; make_blob_filename uid alias "CACERT"].

(** [fs'] is [fs] without the files [l] of directory [d]. *)
Definition without (d : string) (l : list string) (fs fs' : Fs) : Prop :=
  healthy fs' /\ forall d' f, file fs' d' f = if decide (d' = d /\ f ∈ l) then None else file fs d' f.

Lemma without_nil d fs : healthy fs -> without d [] fs fs.
Proof. intros H. split; [done|]. intros d' f. by rewrite decide_False by set_solver. Qed.

Lemma without_trans d l1 l2 fs fs1 fs2 : without d l1 fs fs1 -> without d l2 fs1 fs2 -> without d (l1 ++ l2) fs fs2.
Proof.
  intros [_ H1] [Hh H2]. split; [done|]. intros d' f. rewrite H2, H1.
  repeat case_decide; set_solver.
Qed.

Lemma remove_file_without fs d f E :
  healthy fs -> exists fs', @io_error _ _ (remove_file d f) E fs =
    (Ok (if file fs d f then None else Some NotFound), fs') /\ without d [f] fs fs'.
Proof.
  intros H. destruct (remove_file_spec fs d f E H) as (fs' & -> & Hh & Hf). exists fs'. split; [done|]. split; [done|].
  intros d' f'. rewrite Hf. repeat case_decide; set_solver.
Qed.

Lemma remove_km_spec fs uid alias :
  healthy fs -> exists fs', remove_km_blob off uid alias ["USRPKEY"; "USRSKEY"] fs =
    (Ok (present fs uid alias "USRPKEY" || present fs uid alias "USRSKEY"), fs') /\
    without (dir_of off uid) (km_files fs uid alias) fs fs'.
Proof.
  intros Hh. unfold remove_km_blob, km_files, present, mbind, sr_bind.
  destruct (remove_file_without fs (dir_of off uid) (make_blob_filename uid alias "USRPKEY") LegacyError Hh) as (f1 & -> & W1).
  pose proof W1 as [Hh1 _].
  destruct (file fs (dir_of off uid) (make_blob_filename uid alias "USRPKEY")) eqn:H1; simpl.
  - destruct (remove_file_without f1 (dir_of off uid) (make_chr_filename uid alias "USRPKEY") LegacyError Hh1) as (f2 & -> & W2).
    exists f2. split; [done|]. exact (without_trans _ _ _ _ _ _ W1 W2).
  - assert (forall d' f, file f1 d' f = file fs d' f) as Hsame.
    { intros d' f. destruct W1 as [_ ->]. case_decide as Hc; [|done]. destruct Hc as [-> ->%list_elem_of_singleton]. by rewrite H1. }
    destruct (remove_file_without f1 (dir_of off uid) (make_blob_filename uid alias "USRSKEY") LegacyError Hh1) as (f2 & -> & W2).
    pose proof W2 as [Hh2 _].
    rewrite Hsame. destruct (file fs (dir_of off uid) (make_blob_filename uid alias "USRSKEY")) eqn:H2; simpl.
    + destruct (remove_file_without f2 (dir_of off uid) (make_chr_filename uid alias "USRSKEY") LegacyError Hh2) as (f3 & -> & W3).
      exists f3. split; [done|]. pose proof (without_trans _ _ _ _ _ _ W2 W3) as [Hh3 W]. split; [done|].
      intros d' f. by rewrite W, Hsame.
    + exists f2. split; [done|]. split; [done|]. intros d' f. rewrite decide_False by set_solver.
      destruct W2 as [_ ->]. case_decide as Hc; [|done]. destruct Hc as [-> ->%list_elem_of_singleton]. by rewrite H2.
Qed.

Lemma remove_certs_spec fs uid alias b :
  healthy fs -> exists fs', remove_certs off uid alias b ["USRCERT"; "CACERT"] fs = (Ok b, fs') /\
    without (dir_of off uid) [make_blob_filename uid alias "USRCERT"; make_blob_filename uid alias "CACERT"] fs fs'.
Proof.
  intros Hh. unfold remove_certs, mbind, sr_bind.
  destruct (remove_file_without fs (dir_of off uid) (make_blob_filename uid alias "USRCERT") LegacyError Hh) as (f1 & -> & W1).
  pose proof W1 as [Hh1 _].
  destruct (remove_file_without f1 (dir_of off uid) (make_blob_filename uid alias "CACERT") LegacyError Hh1) as (f2 & -> & W2).
  exists f2. split; [by repeat case_match; simplify_eq|]. exact (without_trans _ _ _ _ _ _ W1 W2).
Qed.

Lemma remove_entry_spec fs uid alias :
  healthy fs -> exists fs', remove_keystore_entry off uid alias fs =
    (Ok (present fs uid alias "USRPKEY" || present fs uid alias "USRSKEY"), fs') /\
    without (dir_of off uid) (removed_files fs uid alias) fs fs' /\
    (present fs uid alias "USRPKEY" || present fs uid alias "USRSKEY" = true -> dirs fs' !! dir_of off uid <> Some ∅).
Proof.
  intros Hh. unfold remove_keystore_entry, removed_files. unfold mbind at 1, sr_bind at 1.
  destruct (remove_km_spec fs uid alias Hh) as (f1 & -> & W1). pose proof W1 as [Hh1 _]. unfold mbind, sr_bind.
  destruct (remove_certs_spec f1 uid alias (present fs uid alias "USRPKEY" || present fs uid alias "USRSKEY") Hh1) as (f2 & -> & W2).
  pose proof (without_trans _ _ _ _ _ _ W1 W2) as W. pose proof W2 as [Hh2 _].
  destruct (_ || _).
  - destruct (remove_user_dir_spec f2 (uid_to_android_user off uid) Hh2) as (f3 & -> & Hh3 & Hne & Hf).
    exists f3. split_and!; [done| |done]. destruct W as [_ W]. split; [done|]. intros. by rewrite Hf.
  - exists f2. done.
Qed.

Lemma read_absent fs d f : healthy fs -> file fs d f = None -> read_generic_blob fs d f = Ok None.
Proof. intros Hh Hf. unfold read_generic_blob. by rewrite open_healthy, Hf. Qed.

Lemma load_absent fs uid alias km :
  healthy fs -> (forall p, p ∈ KEY_PREFIXES -> file fs (dir_of off uid) (make_blob_filename uid alias p) = None) ->
  load_by_uid_alias off fs uid alias km = Ok (None, None, None).
Proof.
  intros Hh Hn. unfold load_by_uid_alias, read_km_blob_file, first_km_blob, read_cert.
  rewrite !read_absent by (try done; apply Hn; known). simpl. done.
Qed.

Lemma removed_absent fs fs' uid alias km :
  present fs uid alias "USRPKEY" && present fs uid alias "USRSKEY" = false ->
  without (dir_of off uid) (removed_files fs uid alias) fs fs' -> load_by_uid_alias off fs' uid alias km = Ok (None, None, None).
Proof.
  intros Hone [Hh' W]. apply load_absent; [done|]. intros p Hp. rewrite W. case_decide as Hc; [done|].
  destruct (file fs _ _) eqn:Hf; [|done]. exfalso. apply Hc. split; [done|].
  assert (present fs uid alias p = true) as Hpr by (unfold present; rewrite Hf; done).
  unfold removed_files, km_files. unfold KEY_PREFIXES in Hp. rewrite !elem_of_cons, elem_of_nil in Hp.
  destruct Hp as [->|[->|[->|[->|[]]]]]; rewrite ?Hpr in *; [set_solver| |set_solver..].
  rewrite andb_true_r in Hone. rewrite Hone. set_solver.
Qed.

Lemma removed_name fs uid alias f :
  f ∈ removed_files fs uid alias ->
  exists q, q ∈ KEY_PREFIXES /\ (f = make_blob_filename uid alias q \/ f = make_chr_filename uid alias q).
Proof.
  unfold removed_files, km_files. intros Hin. repeat case_match; rewrite ?elem_of_app, ?elem_of_cons, ?elem_of_nil in Hin.
  all: destruct_or?; try done; subst; eexists; (split; [|first [by left|by right]]); known.
Qed.

Lemma removed_others fs fs' uid alias uid' alias' km :
  0 <= uid -> 0 <= uid' -> (uid', alias') <> (uid, alias) -> healthy fs ->
  without (dir_of off uid) (removed_files fs uid alias) fs fs' ->
  load_by_uid_alias off fs' uid' alias' km = load_by_uid_alias off fs uid' alias' km.
Proof.
  intros Hu Hu' Hne Hh [Hh' W]. apply load_ext; [done|done|]. intros p f Hp Hf. rewrite W.
  rewrite decide_False; [done|]. intros [_ Hin]. apply Hne.
  apply removed_name in Hin as (q & Hq & Hf').
  destruct Hf as [->| ->], Hf' as [Hf'|Hf'].
  - by apply blob_filename_inj in Hf' as (-> & -> & _).
  - by apply blob_chr_ne in Hf'.
  - symmetry in Hf'. by apply blob_chr_ne in Hf'.
  - by apply chr_filename_inj in Hf' as (-> & -> & _).
Qed.

(** Deleting a legacy key deletes that key and nothing else.  On a healthy
    file system, after [remove_keystore_entry] the key, its certificates and
    (with the key file) its characteristics are gone, every other entry of
    any uid loads exactly as before, and if a key file was deleted an empty
    user directory is gone too. *)
Theorem remove_keystore_entry_exact fs uid alias km :
  healthy fs -> 0 <= uid -> present fs uid alias "USRPKEY" && present fs uid alias "USRSKEY" = false ->
  exists fs', remove_keystore_entry off uid alias fs =
      (Ok (present fs uid alias "USRPKEY" || present fs uid alias "USRSKEY"), fs') /\
    load_by_uid_alias off fs' uid alias km = Ok (None, None, None) /\
    (forall uid' alias', 0 <= uid' -> (uid', alias') <> (uid, alias) ->
       load_by_uid_alias off fs' uid' alias' km = load_by_uid_alias off fs uid' alias' km) /\
    (present fs uid alias "USRPKEY" || present fs uid alias "USRSKEY" = true -> dirs fs' !! dir_of off uid <> Some ∅).
Proof.
  intros Hh Hu Hone. destruct (remove_entry_spec fs uid alias Hh) as (fs' & -> & W & Hd). exists fs'.
  split; [done|]. split_and!; [| |done].
  - by apply (removed_absent fs).
  - intros. by apply (removed_others fs fs' uid alias).
Qed.

(** *** Loading what Keystore 1.0 wrote *)

Lemma read_written fs d f b :
  healthy fs -> file fs d f = Some (file_of b) -> blob_wf b -> read_generic_blob fs d f = Ok (Some b).
Proof.
  intros Hh Hf Hw. unfold read_generic_blob. rewrite open_healthy, Hf by done. simpl. by rewrite blob_roundtrip.
Qed.

(** The file holds [key] in the clear, or encrypted with the super key the
    user has unlocked; the 12 byte nonce is padded to 16 bytes. *)
Definition holds (uid : Z) (key_manager : option Skm) (key : bytes) (b : Blob) : Prop :=
  match blob_value b with
  | Decrypted d => d = key
  | Encrypted iv tag c => exists skm sk nonce pad,
      key_manager = Some skm /\ get_per_boot_key_by_user_id skm (uid_to_android_user off uid) = Some sk /\
      sk_algorithm sk = Aes256Gcm /\ aes_key_length_ok (sk_key sk) = true /\
      iv = nonce ++ pad /\ length nonce = GCM_IV_LENGTH /\ AES_gcm_encrypt key (sk_key sk) nonce = Some (c, tag)
  | _ => False
  end.

Lemma gcm_decrypt_padded p k nonce pad c t :
  aes_key_length_ok k = true -> length nonce = GCM_IV_LENGTH -> length (nonce ++ pad) = 16%nat ->
  AES_gcm_encrypt p k nonce = Some (c, t) -> aes_gcm_decrypt c (nonce ++ pad) t k = Ok p.
Proof.
  intros Hk Hn Hl He. unfold aes_gcm_decrypt. rewrite Hl. cbn [Nat.eqb GCM_IV_LENGTH LEGACY_IV_LENGTH].
  rewrite <- Hn, take_app_length. simpl. rewrite (gcm_tag_length _ _ _ _ _ He), Nat.eqb_refl, Hk. simpl.
  by rewrite (gcm_inverse _ _ _ _ _ He).
Qed.

Lemma unwrap_holds uid km key b :
  blob_wf b -> holds uid km key b -> unwrap_legacy_blob off uid km b =
    Ok {| blob_flags := blob_flags b; blob_value := Decrypted key |}.
Proof.
  destruct b as [fl v]. unfold blob_wf, holds, unwrap_legacy_blob. cbn [blob_value blob_flags].
  destruct v as [| | | |iv tag c|d]; try done; [|by intros _ ->].
  intros [_ (Hi & Ht & _)] (skm & sk & nonce & pad & -> & Hsk & Ha & Hk & -> & Hn & He). rewrite Hsk.
  unfold sk_aes_gcm_decrypt. rewrite bool_decide_eq_true_2 by done.
  by rewrite (gcm_decrypt_padded key (sk_key sk) nonce pad c tag).
Qed.

Definition at_level (level : Z) (v : KeyParameterValue) : KeyParameter := {| kp_value := v; security_level := level |}.

(** The parameters of a characteristics file. *)
Definition fits (ps : list KeyParameterValue) : Prop :=
  Forall writable ps /\ Z.of_nat (length (flat_map indirect ps)) < 2 ^ 32 /\
  Z.of_nat (length (write_elements 0 ps)) < 2 ^ 32 /\ Z.of_nat (length ps) < 2 ^ 32.

Lemma read_cert_written fs uid alias p c :
  healthy fs -> (forall b, c = Some b -> Z.of_nat (length b) < 2 ^ 32) ->
  file fs (dir_of off uid) (make_blob_filename uid alias p) =
    (fun b => file_of {| blob_flags := 0; blob_value := Generic b |}) <$> c ->
  read_cert off fs uid alias p = Ok c.
Proof.
  intros Hh Hc Hf. unfold read_cert. destruct c as [b|]; simpl in Hf.
  - rewrite (read_written fs _ _ {| blob_flags := 0; blob_value := Generic b |} Hh Hf); [done|by split; [apply Hc|]].
  - by rewrite read_absent.
Qed.

(** C40: A legacy key is migrated as it was.  Given the files Keystore 1.0 wrote
    for a key (the blob, in the clear or encrypted with the user's super key,
    the hardware and software enforced parameters, and the certificates that
    exist), loading the entry returns the key itself, its flags, its
    parameters with the security level that enforces them, and the
    certificates. *)
Theorem legacy_key_roundtrip `{TT : !TypedTags AI} fs uid alias km key b hw sw cert ca :
  healthy fs -> blob_wf b -> holds uid km key b -> fits hw -> fits sw ->
  Z.of_nat (length (write_key_parameters hw ++ write_key_parameters sw)) < 2 ^ 32 ->
  (forall c, cert = Some c \/ ca = Some c -> Z.of_nat (length c) < 2 ^ 32) ->
  file fs (dir_of off uid) (make_blob_filename uid alias "USRPKEY") = Some (file_of b) ->
  file fs (dir_of off uid) (make_chr_filename uid alias "USRPKEY") =
    Some (file_of {| blob_flags := 0; blob_value := CharacteristicsCache (write_key_parameters hw ++ write_key_parameters sw) |}) ->
  file fs (dir_of off uid) (make_blob_filename uid alias "USRCERT") =
    (fun c => file_of {| blob_flags := 0; blob_value := Generic c |}) <$> cert ->
  file fs (dir_of off uid) (make_blob_filename uid alias "CACERT") =
    (fun c => file_of {| blob_flags := 0; blob_value := Generic c |}) <$> ca ->
  load_by_uid_alias off fs uid alias km =
    Ok (Some ({| blob_flags := blob_flags b; blob_value := Decrypted key |},
              map (at_level (if is_strongbox b then val SecurityLevel.STRONGBOX else val SecurityLevel.TRUSTED_ENVIRONMENT)) hw
              ++ map (at_level (val SecurityLevel.KEYSTORE)) sw), cert, ca).
Proof.
  intros Hh Hb Hkey (Hw1 & Hw2 & Hw3 & Hw4) (Hs1 & Hs2 & Hs3 & Hs4) Hlen Hc F1 F2 F3 F4.
  unfold load_by_uid_alias, read_km_blob_file, first_km_blob. rewrite (read_written fs _ _ b Hh F1 Hb). cbn [mbind result_bind].
  rewrite (unwrap_holds uid km key b) by done. cbn [mbind result_bind]. unfold read_characteristics_file.
  rewrite (read_written fs _ _ _ Hh F2) by (by split). cbn [mbind result_bind characteristics_of blob_value].
  rewrite read_write_parameters by done. cbn [mbind result_bind snd fst].
  assert (read_key_parameters (write_key_parameters sw) = Ok (sw, [])) as ->
    by (rewrite <- (app_nil_r (write_key_parameters sw)); by apply read_write_parameters).
  cbn [mbind result_bind fmap result_fmap fst].
  rewrite (read_cert_written fs uid alias "USRCERT" cert), (read_cert_written fs uid alias "CACERT" ca)
    by (try done; intros ? ?; apply Hc; auto). done.
Qed.

(** The user's password brings back the super key Keystore 1.0 wrote to
    [.masterkey], for both key sizes. *)
Theorem legacy_super_key_roundtrip fs user pw key k salt nonce pad tag c :
  healthy fs -> (k = AES_128_KEY_LENGTH \/ k = AES_256_KEY_BYTES) -> length salt = SALT_LENGTH ->
  length nonce = GCM_IV_LENGTH -> length (nonce ++ pad) = 16%nat -> Z.of_nat (length c) < 2 ^ 32 ->
  AES_gcm_encrypt key (generateKeyFromPassword k pw (Some salt)) nonce = Some (c, tag) ->
  file fs (make_user_path_name user) super_key_file =
    Some (file_of {| blob_flags := ENCRYPTED; blob_value := PwEncrypted (nonce ++ pad) tag c salt k |}) ->
  has_super_key fs user = true /\ load_super_key fs user pw = Ok (Some key).
Proof.
  intros Hh Hk Hs Hn Hl Hc He Hf. split; [unfold has_super_key; by rewrite <- (bool_decide_eq_true_2 (is_Some (Some (file_of {| blob_flags := ENCRYPTED; blob_value := PwEncrypted (nonce ++ pad) tag c salt k |})))), <- Hf|].
  unfold load_super_key. rewrite (read_written fs _ _ _ Hh Hf).
  2:{ split; [done|]. split_and!; try done. exact (gcm_tag_length _ _ _ _ _ He). }
  cbn [mbind result_bind blob_value blob_flags]. change (negb (Z.land ENCRYPTED ENCRYPTED =? 0)) with true. cbn iota.
  assert (derive_key pw (Some salt) k = Ok (generateKeyFromPassword k pw (Some salt))) as ->.
  { unfold derive_key. rewrite Hs, Nat.eqb_refl. simpl. by destruct Hk as [->| ->]. }
  simpl. rewrite (gcm_decrypt_padded key _ nonce pad c tag); try done.
  unfold aes_key_length_ok. rewrite pbkdf_length. by destruct Hk as [->| ->].
Qed.
End Proofs.
