(* ===== verification/LegacyList.v ===== *)
(** * Listing the legacy key files ([keystore2/src/legacy_blob.rs])

    What the listings of [LegacyBlobLoader] return for a directory that
    holds the files Keystore 1.0 wrote, and where one of them goes wrong. *)

From stdpp Require Import base list gmap strings sorting.
From Stdlib Require Import ZArith Lia Ascii.
From S2P Require Import Prelude Aidl Errors KeyParameter Database Crypto RawDevice SuperKey LegacyAlias LegacyBlob LegacyFs.

(** ** Sorting and duplicates *)

(** ** Names in a directory *)

Lemma ascii_utf8 s : all_chars (fun c => byte c <? 128) s = true -> utf8_valid s = true.
Proof. induction s as [|c s IH]; cbn [all_chars utf8_valid]; [done|]. intros [-> H]%andb_true_iff. by apply IH. Qed.

Lemma utf8_entry_name u s : utf8_valid (to_string u +:+ "_" +:+ encode_alias s) = true.
Proof.
  apply ascii_utf8. rewrite !all_chars_app, !andb_true_iff. split_and!; [|done|].
  - eapply all_chars_impl; [|apply to_string_digits]. intros c Hc.
    pose proof (char_forall (fun c => negb (digit c) || (byte c <? 128)) eq_refl c) as H. cbv beta in H. by rewrite Hc in H.
  - eapply all_chars_impl; [|apply encode_alias_chars]. intros c Hc.
    pose proof (char_forall (fun c => negb (file_char c) || (byte c <? 128)) eq_refl c) as H. cbv beta in H. by rewrite Hc in H.
Qed.

(** A known prefix in front of an encoded alias is found, and only then. *)
Lemma extract_encoded s x :
  extract_keystore_alias (encode_alias s) = Some x <->
  utf8_valid x = true /\ exists p, p ∈ KEY_PREFIXES /\ s = p +:+ "_" +:+ x.
Proof.
  unfold extract_keystore_alias, KNOWN_KEYSTORE_PREFIXES. cbn [extract_alias_with].
  rewrite !strip_prefix_encoded by done.
  assert (Hd : forall t, ok (decode_alias (encode_alias t)) = Some x <-> utf8_valid x = true /\ t = x).
  { intros t. unfold decode_alias. rewrite decode_encode_bytes. cbn [mbind result_bind].
    destruct (utf8_valid t) eqn:Hu; simpl; [naive_solver|]. split; [done|]. intros [? ->]. congruence. }
  assert (Hp : forall p, (exists t, strip_prefix (p +:+ "_") s = Some t /\ t = x) <-> s = p +:+ "_" +:+ x).
  { intros p. rewrite <- str_app_assoc. split; [intros (t & Ht%strip_prefix_Some & ->); done|].
    intros ->. exists x. by rewrite strip_prefix_app. }
  split.
  - intros H. repeat case_match; simplify_option_eq; apply Hd in H as [Hu ->]; (split; [done|]).
    + exists "USRPKEY". split; [known|]. by apply (Hp "USRPKEY"); eauto.
    + exists "USRSKEY". split; [known|]. by apply (Hp "USRSKEY"); eauto.
    + exists "USRCERT". split; [known|]. by apply (Hp "USRCERT"); eauto.
    + exists "CACERT". split; [known|]. by apply (Hp "CACERT"); eauto.
  - intros (Hu & p & Hin & ->). unfold KEY_PREFIXES in Hin. rewrite !elem_of_cons, elem_of_nil in Hin.
    destruct Hin as [->|[->|[->|[->|[]]]]]; simpl; by apply Hd.
Qed.

Definition entry_name (u : Z) (s : string) : string := to_string u +:+ "_" +:+ encode_alias s.

(** Every file has the name of an entry or starts with a dot. *)
Definition canonical (m : gmap string bytes) : Prop :=
  forall f, is_Some (m !! f) -> (exists u s, u32_range u /\ f = entry_name u s) \/ exists t, f = String "." t.

Lemma strip_uid u u' s e : 0 <= u -> 0 <= u' ->
  strip_prefix (to_string u +:+ "_") (entry_name u' s) = Some e <-> u = u' /\ e = encode_alias s.
Proof.
  intros Hu Hu'. unfold entry_name. split.
  - intros H%strip_prefix_Some. rewrite str_app_assoc in H. apply (f_equal split_underscore) in H.
    rewrite !split_digits in H by apply to_string_digits. injection H as H1 H2.
    split; [by apply to_string_inj|done].
  - intros [-> ->]. rewrite <- str_app_assoc. apply strip_prefix_app.
Qed.

Lemma strip_uid_dot u t : strip_prefix (to_string u +:+ "_") (String "." t) = None.
Proof.
  destruct (strip_prefix _ _) eqn:E; [|done]. apply strip_prefix_Some in E. rewrite str_app_assoc in E.
  symmetry in E. by apply digits_not_dot in E.
Qed.

Lemma split_dot t : entry_of extract_keystore_alias (String "." t) = None /\ entry_of extract_legacy_alias (String "." t) = None.
Proof.
  assert (forall e, entry_of e (String "." t) = None) as H; [|by split].
  intros e. unfold entry_of. cbn [split_underscore]. destruct (Ascii.eqb "." "_") eqn:E; [done|].
  destruct (split_underscore t) as [[a b]|]; simpl; [|done]. done.
Qed.

Lemma entry_of_name extract u s : u32_range u ->
  entry_of extract (entry_name u s) = (fun a => (u, a)) <$> extract (encode_alias s).
Proof.
  intros Hu. unfold entry_of, entry_name. rewrite split_digits by apply to_string_digits. simpl.
  rewrite parse_to_string by done. simpl. by destruct (extract _).
Qed.

(** ** Maps of sets *)

(** The pairs of a listing.  The order of a [HashMap] is not specified; here it is that of the map. *)
Definition entries (m : gmap Z (gset string)) : list (Z * string) :=
  mjoin ((fun us => (fun a => (us.1, a)) <$> elements us.2) <$> map_to_list m).

Lemma elem_of_entries (m : gmap Z (gset string)) u a : (u, a) ∈ entries m <-> a ∈ default ∅ (m !! u).
Proof.
  unfold entries. rewrite list_elem_of_join. setoid_rewrite list_elem_of_fmap. split.
  - intros (l & Hin & ([u' s] & -> & Hm%elem_of_map_to_list)). apply list_elem_of_fmap in Hin as (x & ? & Hx%elem_of_elements).
    simplify_eq/=. by rewrite Hm.
  - destruct (m !! u) as [s|] eqn:Hm; simpl; [|by intros ?%elem_of_empty]. intros Ha.
    exists ((fun x => (u, x)) <$> elements s). split; [apply list_elem_of_fmap; exists a; by rewrite elem_of_elements|].
    exists (u, s). by rewrite elem_of_map_to_list.
Qed.

Lemma NoDup_entries (m : gmap Z (gset string)) : NoDup (entries m).
Proof.
  unfold entries. assert (NoDup (map_to_list m).*1) as Hnd by apply NoDup_fst_map_to_list.
  induction (map_to_list m) as [|[u s] l IH]; [constructor|]. simpl in *. apply NoDup_cons in Hnd as [Hu Hnd].
  apply NoDup_app. split_and!; [|intros [u' a] Hin Hin'|by apply IH].
  - apply NoDup_fmap_2; [by intros ? ? [= ->]|apply NoDup_elements].
  - apply list_elem_of_fmap in Hin as (x & ? & _). simplify_eq.
    apply list_elem_of_join in Hin' as (l' & Hx & ([u2 s2] & -> & Hl)%list_elem_of_fmap).
    apply list_elem_of_fmap in Hx as (y & ? & _). simplify_eq/=. apply Hu, list_elem_of_fmap. exists (u2, s2). done.
Qed.

Section Listing.
Context {AI : Aidl} {BO : Boring} (off : Z).
Implicit Types fs : Fs.

Definition dir (fs : Fs) (d : string) : gmap string bytes := default ∅ (dirs fs !! d).

Lemma list_user_healthy fs user :
  healthy fs -> exists l, list_user fs user = Ok l /\
    forall f, f ∈ l <-> utf8_valid f = true /\ is_Some (dir fs (make_user_path_name user) !! f).
Proof.
  intros (_ & Hb & _). unfold list_user, read_dir, dir. rewrite Hb, decide_False by set_solver.
  destruct (dirs fs !! make_user_path_name user) as [m|]; simpl.
  - eexists. split; [done|]. intros f. rewrite list_elem_of_filter, list_elem_of_fmap. split.
    + intros (Hu & [k v] & -> & H%elem_of_map_to_list). eauto.
    + intros (Hu & [v Hv]). split; [done|]. exists (f, v). split; [done|]. by apply elem_of_map_to_list.
  - exists []. split; [done|]. intros f. rewrite lookup_empty. split; [by intros ?%not_elem_of_nil|].
    intros [_ [? ?]]. done.
Qed.

(** The entries of a user, for either way of reading an alias. *)
Lemma elem_of_add_entries (l : list (Z * string)) m u x :
  x ∈ default ∅ (fold_left add_entry l m !! u) <-> (u, x) ∈ l \/ x ∈ default ∅ (m !! u).
Proof.
  revert m. induction l as [|[v a] l IH]; intros m; simpl; [rewrite elem_of_nil; tauto|].
  rewrite IH, elem_of_cons. unfold add_entry. simpl. destruct (decide (v = u)) as [->|Hne].
  - rewrite lookup_insert_eq. simpl. rewrite elem_of_union, elem_of_singleton. naive_solver.
  - rewrite lookup_insert_ne by done. naive_solver.
Qed.

(** A key of [uid] is in the store: one of its four possible files is. *)
Definition has_entry fs uid alias : Prop :=
  exists p, p ∈ KEY_PREFIXES /\ is_Some (dir fs (dir_of off uid) !! make_blob_filename uid alias p).

Lemma has_entry_name fs uid alias :
  has_entry fs uid alias <->
  exists s, is_Some (dir fs (dir_of off uid) !! entry_name uid s) /\ exists p, p ∈ KEY_PREFIXES /\ s = p +:+ "_" +:+ alias.
Proof.
  unfold has_entry, make_blob_filename, entry_name. split.
  - intros (p & Hp & H). exists (p +:+ "_" +:+ alias). eauto.
  - intros (s & H & p & Hp & ->). eauto.
Qed.

(** The two listings of keys tell the truth.  For a user directory with the
    names Keystore 1.0 gave its files, the listing for a uid is sorted, has no
    duplicates, and holds exactly the aliases for which the uid has a key or
    certificate file; the listing for the user says the same of every uid. *)
Theorem legacy_listing_exact fs uid :
  healthy fs -> u32_range uid -> canonical (dir fs (dir_of off uid)) ->
  exists l m, list_keystore_entries_for_uid off fs uid = Ok l /\
    list_keystore_entries_for_user fs (uid_to_android_user off uid) = Ok m /\
    StronglySorted (fun a b => String.le a b /\ a <> b) l /\
    forall alias, utf8_valid alias = true ->
      (alias ∈ l <-> has_entry fs uid alias) /\ (alias ∈ default ∅ (m !! uid) <-> has_entry fs uid alias).
Proof.
  intros Hh Hu Hc. destruct (list_user_healthy fs (uid_to_android_user off uid) Hh) as (fl & Hl & Hfl).
  unfold list_keystore_entries_for_uid, list_keystore_entries_for_user, list_entries_for_user. rewrite Hl. simpl.
  eexists _, _. split_and!; [done|done| |].
  { apply (dedup_sorted String.le), Sorted_StronglySorted, (Sorted_merge_sort _); apply _. }
  intros alias Ha. rewrite has_entry_name. split.
  - rewrite elem_of_dedup, (merge_sort_Permutation String.le), list_elem_of_omap. split.
    + intros (f & [_ Hf]%Hfl & Hx). destruct (Hc f Hf) as [(u & s & Hu' & ->)|[t ->]].
      * apply bind_Some in Hx as (e & [<- ->]%strip_uid & He); [|apply Hu|apply Hu'].
        apply extract_encoded in He as [_ Hp]. eauto.
      * by rewrite strip_uid_dot in Hx.
    + intros (s & Hs & Hp). exists (entry_name uid s). split; [apply Hfl; split; [apply utf8_entry_name|done]|].
      apply bind_Some. exists (encode_alias s). split; [by apply strip_uid; [apply Hu|apply Hu|]|].
      by apply extract_encoded.
  - rewrite elem_of_add_entries, lookup_empty. simpl. rewrite elem_of_empty, list_elem_of_omap. split.
    + intros [(f & [_ Hf]%Hfl & Hx)|[]]. destruct (Hc f Hf) as [(u & s & Hu' & ->)|[t ->]].
      * rewrite entry_of_name in Hx by done. apply fmap_Some in Hx as (a & [_ Hp]%extract_encoded & ?). simplify_eq. eauto.
      * by rewrite (proj1 (split_dot t)) in Hx.
    + intros (s & Hs & Hp). left. exists (entry_name uid s). split; [apply Hfl; split; [apply utf8_entry_name|done]|].
      rewrite entry_of_name by done. apply fmap_Some. exists alias. split; [by apply extract_encoded|done].
Qed.
End Listing.

(** ** A store for the examples *)

Definition store (l : list (string * bytes)) : Fs :=
  {| dirs := {[ "user_0" := list_to_map l ]}; root_broken := false; broken_dirs := ∅; broken_files := ∅ |}.

Lemma legacy_listing_exact_witness :
  list_keystore_entries_for_uid 100000 (store [(make_blob_filename 1000 "b" "USRPKEY", [0]);
    (make_blob_filename 1000 "a" "USRCERT", [0]); (make_blob_filename 1000 "b" "CACERT", [0]); (".masterkey", [])]) 1000
    = Ok ["a"; "b"] /\
  exists l m, list_keystore_entries_for_uid 100000 (store [(make_blob_filename 1000 "b" "USRPKEY", [0])]) 1000 = Ok l /\
    list_keystore_entries_for_user (store [(make_blob_filename 1000 "b" "USRPKEY", [0])]) 0 = Ok m /\
    StronglySorted (fun a b => String.le a b /\ a <> b) l /\
    forall alias, utf8_valid alias = true ->
      (alias ∈ l <-> has_entry 100000 (store [(make_blob_filename 1000 "b" "USRPKEY", [0])]) 1000 alias) /\
      (alias ∈ default ∅ (m !! 1000) <-> has_entry 100000 (store [(make_blob_filename 1000 "b" "USRPKEY", [0])]) 1000 alias).
Proof.
  split; [vm_compute; reflexivity|].
  apply (legacy_listing_exact 100000 (store [(make_blob_filename 1000 "b" "USRPKEY", [0])]) 1000).
  - done.
  - unfold u32_range. lia.
  - intros f Hf. left. exists 1000, "USRPKEY_b". split; [unfold u32_range; lia|].
    destruct Hf as [v Hv]. change (dir _ _) with ({[make_blob_filename 1000 "b" "USRPKEY" := [0]]} : gmap string bytes) in Hv.
    apply lookup_singleton_Some in Hv as [<- _]. reflexivity.
Defined.

(** The listing of non-key entries for a uid compares the uid without the
    separator and cuts the name before it compares: entries of uid 10001 are
    listed for uid 1000, with an alias they do not have, whatever their real
    alias; and a name shorter than the uid is a panic. *)
Theorem legacy_entry_listing_leaks a :
  utf8_valid a = true ->
  list_legacy_keystore_entries_for_uid 100000 (store [(entry_name 10001 a, [])]) 1000 = Ok ["_" +:+ a] /\
  list_legacy_keystore_entries_for_uid 100000 (store [(entry_name 7 "a", [])]) 1000 = Panic.
Proof.
  intros Ha. split; [|vm_compute; reflexivity].
  unfold list_legacy_keystore_entries_for_uid, read_dir. rewrite decide_False by set_solver.
  change (dirs _ !! dir_of 100000 1000) with (Some ({[entry_name 10001 a := []]} : gmap string bytes)). cbv iota.
  rewrite map_to_list_singleton. cbn [fmap list_fmap fst list_legacy_loop].
  unfold entry_name. rewrite utf8_entry_name.
  change (to_string 10001) with "10001". change (to_string 1000) with "1000".
  change ("10001" +:+ "_" +:+ encode_alias a) with ("10001_" +:+ encode_alias a).
  assert (@str_from LegacyError (String.length "1000" + 1) ("10001_" +:+ encode_alias a) = Ok ("_" +:+ encode_alias a)) as -> by done.
  cbn [mbind result_bind].
  assert (starts_with ("10001_" +:+ encode_alias a) "1000" = true) as -> by (rewrite starts_with_strip; done).
  assert (is_keystore_alias ("_" +:+ encode_alias a) = false) as ->.
  { unfold is_keystore_alias, KNOWN_KEYSTORE_PREFIXES. cbn [existsb]. rewrite !starts_with_strip. done. }
  cbn [andb negb]. change ("_" +:+ encode_alias a) with (encode_alias ("_" +:+ a)).
  unfold decode_alias. rewrite decode_encode_bytes. cbn [mbind result_bind].
  assert (utf8_valid ("_" +:+ a) = true) as -> by done. done.
Qed.

Lemma legacy_entry_listing_leaks_witness :
  list_legacy_keystore_entries_for_uid 100000 (store [(entry_name 10001 "vpn", [])]) 1000 = Ok ["_vpn"].
Proof. apply (legacy_entry_listing_leaks "vpn"). reflexivity. Defined.

(** ** Examples on whole entries *)

Definition plain_file (v : BlobValue) : bytes := file_of {| blob_flags := 0; blob_value := v |}.
Definition legacy_demo_params : list KeyParameterValue := [KeyPurpose 2; ApplicationID [1; 2; 3]].

(** A key of uid 1000 with both parameter lists and a certificate. *)
Definition legacy_demo_store : Fs := store [
  (make_blob_filename 1000 "k" "USRPKEY", plain_file (Decrypted [7; 8]));
  (make_chr_filename 1000 "k" "USRPKEY",
    plain_file (CharacteristicsCache (@write_key_parameters aidl_published legacy_demo_params ++
                                      @write_key_parameters aidl_published [NoAuthRequired])));
  (make_blob_filename 1000 "k" "USRCERT", plain_file (Generic [9]))].

Lemma legacy_key_roundtrip_run :
  @load_by_uid_alias aidl_published toy_boring 100000 legacy_demo_store 1000 "k" None =
  Ok (Some ({| blob_flags := 0; blob_value := Decrypted [7; 8] |},
            map (at_level 1) legacy_demo_params ++ map (at_level 100) [NoAuthRequired]), Some [9], None).
Proof. vm_compute. reflexivity. Qed.

Lemma legacy_key_roundtrip_witness :
  @load_by_uid_alias aidl_published toy_boring 100000 legacy_demo_store 1000 "k" None =
  Ok (Some ({| blob_flags := 0; blob_value := Decrypted [7; 8] |},
            map (at_level 1) legacy_demo_params ++ map (at_level 100) [NoAuthRequired]), Some [9], None).
Proof.
  rewrite (@legacy_key_roundtrip aidl_published toy_boring 100000 _ legacy_demo_store 1000 "k" None [7; 8]
    {| blob_flags := 0; blob_value := Decrypted [7; 8] |} legacy_demo_params [NoAuthRequired] (Some [9]) None);
    [reflexivity|done|done|done| | |vm_compute; reflexivity| |vm_compute; reflexivity..].
  - split; [|vm_compute; done]. repeat constructor; try done; vm_compute; congruence.
  - split; [|vm_compute; done]. repeat constructor; try done.
  - intros c [?|?]; simplify_eq; done.
Defined.

Lemma remove_keystore_entry_exact_witness :
  exists fs', @remove_keystore_entry 100000 1000 "k" legacy_demo_store = (Ok true, fs') /\
    @load_by_uid_alias aidl_published toy_boring 100000 fs' 1000 "k" None = Ok (None, None, None) /\
    (forall uid' alias', 0 <= uid' -> (uid', alias') <> (1000, "k") ->
       @load_by_uid_alias aidl_published toy_boring 100000 fs' uid' alias' None =
       @load_by_uid_alias aidl_published toy_boring 100000 legacy_demo_store uid' alias' None) /\
    (present 100000 legacy_demo_store 1000 "k" "USRPKEY" || present 100000 legacy_demo_store 1000 "k" "USRSKEY" = true ->
       dirs fs' !! "user_0" <> Some ∅).
Proof.
  apply (@remove_keystore_entry_exact aidl_published toy_boring 100000 legacy_demo_store 1000 "k" None);
    [done|lia|vm_compute; reflexivity].
Defined.

Definition demo_super_store : Fs := store [(super_key_file,
  file_of {| blob_flags := ENCRYPTED;
             blob_value := PwEncrypted (repeat 6 12 ++ repeat 0 4) (repeat 0 16) [2; 3] (repeat 5 16) 16 |})].

Lemma legacy_super_key_roundtrip_witness :
  has_super_key demo_super_store 0 = true /\
  @load_super_key aidl_published toy_boring demo_super_store 0 [112] = Ok (Some [1; 2]).
Proof.
  apply (@legacy_super_key_roundtrip aidl_published toy_boring demo_super_store 0 [112] [1; 2] 16 (repeat 5 16)
    (repeat 6 12) (repeat 0 4) (repeat 0 16) [2; 3]); try done; try (vm_compute; reflexivity). by left.
Defined.

(** Deleting an entry that has only a certificate deletes the file but
    reports that nothing was deleted and leaves the empty user directory: the
    flag is set in the error branch of the loop over certificates. *)
Theorem remove_certificate_reports_nothing c :
  exists fs', remove_keystore_entry 100000 1000 "c" (store [(make_blob_filename 1000 "c" "USRCERT", c)]) = (Ok false, fs') /\
    present 100000 (store [(make_blob_filename 1000 "c" "USRCERT", c)]) 1000 "c" "USRCERT" = true /\
    dirs fs' !! "user_0" = Some ∅.
Proof. eexists. split; [vm_compute; reflexivity|]. split; reflexivity. Qed.
