(* ===== verification/LegacyMigrator.v ===== *)
(** * Migrating legacy keys ([keystore2/src/legacy_migrator.rs])

    [LegacyMigrator] brings keys of Keystore 1.0 into the database when they
    are first used, and deletes them in bulk.  Requests run one at a time on
    the migrator's worker thread; the worker's state ([Shelf]) appears when
    the migrator is first used and goes when no legacy file is left.

    The clock and the random numbers are inputs: [m_now] is what
    [DateTime::now] returns, [m_draws] has one sequence of draws for each
    database insertion to come, and [m_tape] is the worker's random tape. *)

From stdpp Require Import base list gmap strings.
From Stdlib Require Import ZArith Lia.
From S2P Require Import Prelude Aidl Errors KeyParameter DbTypes Database DbInvariant DbKeys Crypto RawDevice SuperKey SuperKeyCrypto LegacyAlias LegacyBlob LegacyFs LegacyList.

Definition WIFI_NAMESPACE : Z := 102.
Definition AID_WIFI : Z := 1010.

Inductive MState := STATE_UNINITIALIZED | STATE_READY | STATE_EMPTY.
#[global] Instance MState_eq_dec : EqDecision MState.
Proof. solve_decision. Defined.

(** [LegacyMigratorState], less the loader and the database. *)
Record Shelf := {
  recently_migrated : gset (Z * string);
  recently_migrated_super_key : gset Z;
  sec_level_to_km_uuid : gmap Z Uuid
}.

Inductive BulkDeleteRequest := BulkUid (uid : Z) | BulkUser (user_id : Z).

(** What a request on the worker thread can read and change. *)
Record Worker := {
  k_shelf : Shelf;
  k_fs : Fs;
  k_db : Tables;
  k_now : result AnyError Z;
  k_tape : Tape;
  k_draws : list (list Z);
  k_gc : bool
}.

Record Migrator := {
  m_state : MState;
  m_initializer : option (gmap Z Uuid);
  m_shelf : option Shelf;
  m_fs : Fs;
  m_now : result AnyError Z;
  m_tape : Tape;
  m_draws : list (list Z);
  m_gc : bool
}.

Section Migrator.
Context {AI : Aidl} {BO : Boring} (off : Z).

Abbreviation W := (sr Worker AnyError).

(** ** The worker's resources *)

Definition on_fs {A} (m : sr Fs LegacyError A) : W A := fun w =>
  let '(r, fs) := m (k_fs w) in
  (map_err to_any r,
   {| k_shelf := k_shelf w; k_fs := fs; k_db := k_db w; k_now := k_now w; k_tape := k_tape w; k_draws := k_draws w; k_gc := k_gc w |}).
Definition read_fs {A} (f : Fs -> result LegacyError A) : W A := fun w => (map_err to_any (f (k_fs w)), w).

(** A database call; the draws of the call are the next of the supply. *)
Definition on_worker_db {A} (m : list Z -> sr Tables AnyError (bool * A)) : W A := fun w =>
  let '(r, s) := m (default [] (head (k_draws w))) (k_db w) in
  (snd <$> r,
   {| k_shelf := k_shelf w; k_fs := k_fs w; k_db := s; k_now := k_now w; k_tape := k_tape w; k_draws := tail (k_draws w);
      k_gc := k_gc w || match r with Ok (gc, _) => gc | _ => false end |}).
Definition read_worker_db {A} (f : Tables -> result AnyError A) : W A := fun w => (f (k_db w), w).
Definition on_shelf (f : Shelf -> Shelf) : W unit := fun w =>
  (Ok tt, {| k_shelf := f (k_shelf w); k_fs := k_fs w; k_db := k_db w; k_now := k_now w; k_tape := k_tape w;
             k_draws := k_draws w; k_gc := k_gc w |}).
Definition on_worker_tape {A} (m : sr Tape AnyError A) : W A := fun w =>
  let '(r, t) := m (k_tape w) in
  (r, {| k_shelf := k_shelf w; k_fs := k_fs w; k_db := k_db w; k_now := k_now w; k_tape := t; k_draws := k_draws w; k_gc := k_gc w |}).

Definition note_migrated (uid : Z) (al : string) (s : Shelf) : Shelf :=
  {| recently_migrated := {[ (uid, al) ]} ∪ recently_migrated s;
     recently_migrated_super_key := recently_migrated_super_key s; sec_level_to_km_uuid := sec_level_to_km_uuid s |}.
Definition note_super_key (user : Z) (s : Shelf) : Shelf :=
  {| recently_migrated := recently_migrated s;
     recently_migrated_super_key := {[ user ]} ∪ recently_migrated_super_key s;
     sec_level_to_km_uuid := sec_level_to_km_uuid s |}.

(** ** Requests *)

Definition get_km_uuid (is_strongbox : bool) (s : Shelf) : result AnyError Uuid :=
  let sec_level := if is_strongbox then val SecurityLevel.STRONGBOX else val SecurityLevel.TRUSTED_ENVIRONMENT in
  ok_or (sec_level_to_km_uuid s !! sec_level) err_sys.

Definition list_uid_request (uid : Z) : W (list string) :=
  read_fs (fun fs => list_keystore_entries_for_uid off fs uid).

(** The legacy blob and the metadata it is stored with. *)
Definition legacy_blob_info (uid : Z) (al : string) (v : BlobValue) : W (bytes * BlobMetaData) :=
  match v with
  | Encrypted iv tag data =>
    let user_id := uid_to_android_user off uid in
    found ← read_worker_db (Database.load_super_key USER_SUPER_KEY_alias user_id);
    match found with
    | Some (_, entry) =>
      mret (data, meta_add (BMEncryptedBy (EncKeyId (ke_id entry))) (meta_add (AeadTag tag) (meta_add (Iv iv) ∅)))
    | None =>
      locked ← gets (fun w => LegacyFs.has_super_key (k_fs w) user_id);
      if (locked : bool) then throw (err_rc ResponseCode.LOCKED)
      else
        _ ← on_fs (remove_keystore_entry off uid al);
        throw (err_rc ResponseCode.KEY_NOT_FOUND)
    end
  | Decrypted data => mret (data, ∅)
  | _ => throw (err_rc ResponseCode.KEY_NOT_FOUND)
  end.

Definition store_legacy_key (uid : Z) (al : string) (key : KeyDescriptor) (km_blob : Blob) (params : list KeyParameter)
    (user_cert ca_cert : option bytes) : W unit :=
  info ← legacy_blob_info uid al (blob_value km_blob);
  km_uuid ← (fun w => (get_km_uuid (is_strongbox km_blob) (k_shelf w), w));
  let blob_metadata := meta_add (KmUuid km_uuid) info.2 in
  creation_date ← (fun w => (k_now w, w));
  _ ← on_worker_db (fun draws => store_new_key draws key KeyType.Client params (info.1, blob_metadata)
               {| cert := user_cert; cert_chain := ca_cert |} (meta_add (CreationDate creation_date) ∅) km_uuid);
  mret tt.

Definition check_and_migrate (uid : Z) (key : KeyDescriptor) : W unit :=
  al ← lift (ok_or (alias key) err_sys);
  recent ← gets (fun w => bool_decide ((uid, al) ∈ recently_migrated (k_shelf w)));
  if (recent : bool) then mret tt
  else
    let key := if domain key =? val Domain.APP then set_nspace key uid else key in
    '(km_blob_params, user_cert, ca_cert) ← read_fs (fun fs => load_by_uid_alias off fs uid al None);
    _ ← match km_blob_params with
        | Some (km_blob, params) => store_legacy_key uid al key km_blob params user_cert ca_cert
        | None =>
          match ca_cert with
          | Some ca_cert =>
            now ← gets k_now;
            _ ← on_worker_db (fun draws => store_new_certificate draws now key KeyType.Client ca_cert KEYSTORE_UUID);
            mret tt
          | None => throw (err_rc ResponseCode.KEY_NOT_FOUND)
          end
        end;
    _ ← on_shelf (note_migrated uid al);
    _ ← on_fs (remove_keystore_entry off uid al);
    mret tt.

Definition check_and_migrate_super_key (user_id : Z) (pw : bytes) : W unit :=
  recent ← gets (fun w => bool_decide (user_id ∈ recently_migrated_super_key (k_shelf w)));
  if (recent : bool) then mret tt
  else
    found ← read_fs (fun fs => LegacyFs.load_super_key fs user_id pw);
    match found with
    | Some super_key =>
      '(b, blob_metadata) ← on_worker_tape (encrypt_with_password super_key pw);
      _ ← on_worker_db (fun draws => store_super_key draws user_id USER_SUPER_KEY_alias b blob_metadata ∅);
      _ ← on_fs (remove_super_key user_id);
      on_shelf (note_super_key user_id)
    | None => throw (err_rc ResponseCode.KEY_NOT_FOUND)
    end.

(** The blob a deleted rollback resistant key leaves for the collector. *)
Definition mark_deleted (s : Shelf) (super_key_id : option Z) (b : Blob) : option (bytes * BlobMetaData) :=
  match blob_value b with
  | Encrypted iv tag data =>
    match get_km_uuid (is_strongbox b) s, super_key_id with
    | Ok km_uuid, Some id =>
      Some (data, meta_add (BMEncryptedBy (EncKeyId id)) (meta_add (AeadTag tag) (meta_add (Iv iv) (meta_add (KmUuid km_uuid) ∅))))
    | _, _ => None
    end
  | Decrypted data => Some (data, ∅)
  | _ => None
  end.

Definition is_rollback_resistant (kp : KeyParameter) : bool := bool_decide (kp_value kp = RollbackResistance).

Definition bulk_delete_entry (keep : bool) (super_key_id : option Z) (e : Z * string) : W unit :=
  let '(uid, al) := e in
  '(km_blob_params, _, _) ← read_fs (fun fs => load_by_uid_alias off fs uid al None);
  let need_gc := match km_blob_params with Some (_, params) => existsb is_rollback_resistant params | None => false end in
  let is_super_encrypted := match km_blob_params with Some (b, _) => is_encrypted b | None => false end in
  if keep && negb is_super_encrypted then mret tt
  else
    _ ← (if need_gc then
           s ← gets k_shelf;
           match km_blob_params ≫= fun bp => mark_deleted s super_key_id bp.1 with
           | Some (b, m) => on_worker_db (fun _ => set_deleted_blob b m)
           | None => mret tt
           end
         else mret tt);
    _ ← on_fs (remove_keystore_entry off uid al);
    mret tt.

Definition bulk_delete (request : BulkDeleteRequest) (keep_non_super_encrypted_keys : bool) : W unit :=
  aliases ← read_fs (fun fs =>
    match request with
    | BulkUid uid => (fun l => {[ uid := list_to_set l ]}) <$> list_keystore_entries_for_uid off fs uid
    | BulkUser user_id => list_keystore_entries_for_user fs user_id
    end);
  let user_id := match request with BulkUid uid => uid_to_android_user off uid | BulkUser user_id => user_id end in
  found ← read_worker_db (Database.load_super_key USER_SUPER_KEY_alias user_id);
  let super_key_id := (fun e => ke_id e.2) <$> found in
  sr_for (bulk_delete_entry keep_non_super_encrypted_keys super_key_id) (entries aliases).

Definition has_super_key_request (user_id : Z) : W bool :=
  gets (fun w => bool_decide (user_id ∈ recently_migrated_super_key (k_shelf w)) || LegacyFs.has_super_key (k_fs w) user_id).

Definition check_empty (fs : Fs) : MState :=
  if default false (ok (is_empty fs)) then STATE_EMPTY else STATE_READY.

(** ** The migrator *)

Abbreviation M := (sr (Migrator * Tables) AnyError).

Definition set_m_state (st : MState) (m : Migrator) : Migrator :=
  {| m_state := st; m_initializer := m_initializer m; m_shelf := m_shelf m; m_fs := m_fs m; m_now := m_now m;
     m_tape := m_tape m; m_draws := m_draws m; m_gc := m_gc m |}.
Definition set_m_initializer (i : option (gmap Z Uuid)) (m : Migrator) : Migrator :=
  {| m_state := m_state m; m_initializer := i; m_shelf := m_shelf m; m_fs := m_fs m; m_now := m_now m;
     m_tape := m_tape m; m_draws := m_draws m; m_gc := m_gc m |}.
Definition set_m_shelf (s : option Shelf) (m : Migrator) : Migrator :=
  {| m_state := m_state m; m_initializer := m_initializer m; m_shelf := s; m_fs := m_fs m; m_now := m_now m;
     m_tape := m_tape m; m_draws := m_draws m; m_gc := m_gc m |}.

Definition set_init (uuids : gmap Z Uuid) (m : Migrator) : Migrator :=
  if decide (m_state m <> STATE_UNINITIALIZED) then m
  else match m_initializer m with None => set_m_initializer (Some uuids) m | Some _ => m end.

Definition fresh_shelf (uuids : gmap Z Uuid) : Shelf :=
  {| recently_migrated := ∅; recently_migrated_super_key := ∅; sec_level_to_km_uuid := uuids |}.

(** Without a competing thread the second look at an uninitialized state
    finds it unchanged.  The initializer is gone even if the check for
    emptiness fails. *)
Definition check_state : sr Migrator AnyError MState := fun m =>
  match m_state m with
  | STATE_EMPTY => (Ok STATE_EMPTY, m)
  | STATE_READY => (Ok STATE_READY, m)
  | STATE_UNINITIALIZED =>
    match m_initializer m with
    | Some uuids =>
      let m := set_m_initializer None m in
      match map_err to_any (is_empty (m_fs m)) with
      | Ok true => (Ok STATE_EMPTY, set_m_state STATE_EMPTY m)
      | Ok false =>
        let shelf := match m_shelf m with Some s => s | None => fresh_shelf uuids end in
        (Ok STATE_READY, set_m_state STATE_READY (set_m_shelf (Some shelf) m))
      | Err e => (Err e, m)
      | Panic => (Panic, m)
      end
    | None => (Err err_sys, m)
    end
  end.

(** The job on the worker thread: [None] when there is no state on the shelf. *)
Definition run_request {A} (f : W A) (md : Migrator * Tables) : MState * option (result AnyError A) * (Migrator * Tables) :=
  let '(m, s) := md in
  match m_shelf m with
  | Some shelf =>
    let '(r, w) := f {| k_shelf := shelf; k_fs := m_fs m; k_db := s; k_now := m_now m; k_tape := m_tape m;
                        k_draws := m_draws m; k_gc := m_gc m |} in
    let new_state := check_empty (k_fs w) in
    (new_state, Some r,
     ({| m_state := m_state m; m_initializer := m_initializer m;
         m_shelf := if decide (new_state = STATE_EMPTY) then None else Some (k_shelf w);
         m_fs := k_fs w; m_now := m_now m; m_tape := k_tape w; m_draws := k_draws w; m_gc := k_gc w |}, k_db w))
  | None => (STATE_EMPTY, None, md)
  end.

(** A panic on the worker closes the channel: the requester sees an error,
    and the worker runs no further job. *)
Definition do_serialized {A} (f : W A) : sr (Migrator * Tables) AnyError (option A) := fun md =>
  let '(m, s) := md in
  match check_state m with
  | (Ok STATE_EMPTY, m) => (Ok None, (m, s))
  | (Ok _, m) =>
    let '(new_state, r, (m, s)) := run_request f (m, s) in
    let m := if decide (new_state = STATE_EMPTY) then set_m_state STATE_EMPTY m else m in
    match r with
    | Some (Ok a) => (Ok (Some a), (m, s))
    | Some (Err e) => (Err e, (m, s))
    | Some Panic => (Err OtherError, (m, s))
    | None => (Ok None, (m, s))
    end
  | (Err e, m) => (Err e, (m, s))
  | (Panic, m) => (Panic, (m, s))
  end.

Definition or_default {A} (a : A) (m : M (option A)) : M A := o ← m; mret (default a o).

Definition legacy_uid (d namespace : Z) : option Z :=
  if d =? val Domain.APP then Some (as_u32 namespace)
  else if (d =? val Domain.SELINUX) && (namespace =? WIFI_NAMESPACE) then Some AID_WIFI
  else None.

Definition list_uid (d namespace : Z) : M (list KeyDescriptor) :=
  match legacy_uid d namespace with
  | None => mret []
  | Some uid =>
    l ← or_default [] (do_serialized (list_uid_request uid));
    mret ((fun al => {| domain := d; nspace := namespace; alias := Some al; blob := None |}) <$> l)
  end.

(** The accessor works on the database; its error is looked at only for
    [KEY_NOT_FOUND]. *)
Definition is_not_found (e : AnyError) : bool :=
  match e with KsError (Rc c) => c =? val ResponseCode.KEY_NOT_FOUND | _ => false end.

Definition migration_uid (key : KeyDescriptor) (caller_uid : Z) : option Z :=
  match alias key with
  | None => None
  | Some _ =>
    if domain key =? val Domain.APP then Some caller_uid
    else if (domain key =? val Domain.SELINUX) && (nspace key =? WIFI_NAMESPACE) then Some AID_WIFI
    else None
  end.

Definition with_try_migrate {A} (key : KeyDescriptor) (caller_uid : Z) (key_accessor : M A) : M A := fun md =>
  match key_accessor md with
  | (Err e, md) =>
    if is_not_found e then
      match migration_uid key caller_uid with
      | None => (Err (err_rc ResponseCode.KEY_NOT_FOUND), md)
      | Some uid =>
        (r ← do_serialized (check_and_migrate uid key);
         match r with
         | Some _ => key_accessor
         | None => throw (err_rc ResponseCode.KEY_NOT_FOUND)
         end) md
      end
    else (Err e, md)
  | r => r
  end.

Definition with_try_migrate_super_key {A} (user_id : Z) (pw : bytes) (key_accessor : M (option A)) : M (option A) :=
  found ← key_accessor;
  match found with
  | Some a => mret (Some a)
  | None =>
    r ← do_serialized (check_and_migrate_super_key user_id pw);
    match r with
    | Some _ => key_accessor
    | None => mret None
    end
  end.

Definition bulk_delete_uid (d namespace : Z) : M unit :=
  match legacy_uid d namespace with
  | None => mret tt
  | Some uid => or_default tt (do_serialized (bulk_delete (BulkUid uid) false))
  end.

Definition bulk_delete_user (user_id : Z) (keep_non_super_encrypted_keys : bool) : M unit :=
  or_default tt (do_serialized (bulk_delete (BulkUser user_id) keep_non_super_encrypted_keys)).

Definition has_super_key (user_id : Z) : M bool :=
  or_default false (do_serialized (has_super_key_request user_id)).
End Migrator.

Section Proofs.
Context {AI : Aidl} {BO : Boring} (off : Z).
Implicit Types (w : Worker) (m : Migrator) (s : Tables).

Lemma on_fs_Ok {A} (f : sr Fs LegacyError A) w a w' :
  on_fs f w = (Ok a, w') -> exists fs, f (k_fs w) = (Ok a, fs) /\
    w' = {| k_shelf := k_shelf w; k_fs := fs; k_db := k_db w; k_now := k_now w; k_tape := k_tape w;
            k_draws := k_draws w; k_gc := k_gc w |}.
Proof. unfold on_fs. destruct (f (k_fs w)) as [[] fs]; intros; simplify_eq/=. eauto. Qed.

Lemma read_fs_Ok {A} (f : Fs -> result LegacyError A) w a w' :
  read_fs f w = (Ok a, w') -> f (k_fs w) = Ok a /\ w' = w.
Proof. unfold read_fs. destruct (f (k_fs w)); intros; by simplify_eq/=. Qed.

Lemma on_worker_db_Ok {A} (f : list Z -> sr Tables AnyError (bool * A)) w a w' :
  on_worker_db f w = (Ok a, w') -> exists draws gc s, f draws (k_db w) = (Ok (gc, a), s) /\
    k_db w' = s /\ k_fs w' = k_fs w /\ k_shelf w' = k_shelf w.
Proof.
  unfold on_worker_db. destruct (f _ (k_db w)) as [[[gc x]| |] s] eqn:E; intros; simplify_eq/=. eauto 10.
Qed.

(** What the resources a step does not use look like afterwards. *)
Lemma on_worker_db_frame {A} (f : list Z -> sr Tables AnyError (bool * A)) w r w' :
  on_worker_db f w = (r, w') -> k_fs w' = k_fs w /\ k_shelf w' = k_shelf w.
Proof. unfold on_worker_db. destruct (f _ (k_db w)) as [? ?]. intros; by simplify_eq. Qed.

Lemma on_fs_frame {A} (f : sr Fs LegacyError A) w r w' :
  on_fs f w = (r, w') -> k_db w' = k_db w /\ k_shelf w' = k_shelf w /\ k_fs w' = snd (f (k_fs w)).
Proof. unfold on_fs. destruct (f (k_fs w)) as [? ?]. intros; by simplify_eq. Qed.

(** A stored key is found by its descriptor. *)
Lemma stored_found draws key params bi ci md u s gc id s' :
  db_wf s -> store_new_key draws key KeyType.Client params bi ci md u s = (Ok (gc, id), s') ->
  load_key_entry_id key KeyType.Client s' = Ok id.
Proof.
  intros Hwf H. apply store_new_key_Ok in H as (al & _ & Hal & Hd & _ & Hid & K & _).
  unfold load_key_entry_id. rewrite Hal. simpl. rewrite K.
  by rewrite (rebound_lookup id al (domain key) (nspace key) KeyType.Client u s key).
Qed.

Lemma stored_certificate_found draws now key c u s gc id s' :
  db_wf s -> store_new_certificate draws now key KeyType.Client c u s = (Ok (gc, id), s') ->
  load_key_entry_id key KeyType.Client s' = Ok id.
Proof.
  intros Hwf H. unfold store_new_certificate in H. apply sr_bind_Ok in H as ([[al d] n] & s0 & Hloc & H).
  unfold lift in Hloc. injection Hloc as Hloc <-.
  assert (alias key = Some al /\ app_or_selinux (domain key) = true /\ d = domain key /\ n = nspace key)
    as (Hal & Hd & -> & ->).
  { unfold new_key_location in Hloc. destruct (alias key), (blob key), (app_or_selinux (domain key)) eqn:?; by simplify_eq. }
  apply (proj1 (transaction_Ok _ _ _ _)) in H.
  apply sr_bind_Ok in H as (id' & s1 & Hc & H). unfold create_key_entry_internal in Hc. rewrite Hd in Hc.
  apply insert_with_retry_Ok in Hc as (Hun & Hid & ->).
  apply sr_bind_Ok in H as ([] & s2 & (K2 & _)%set_blob_internal_Ok & H).
  apply sr_bind_Ok in H as (date & s3 & [_ ->]%lift_Ok & H).
  apply sr_bind_Ok in H as ([] & s4 & H4 & H). unfold key_metadata_store, modify in H4. injection H4 as <-.
  apply sr_bind_Ok in H as (gc' & s5 & (-> & _)%rebind_alias_Ok & H). unfold mret, sr_ret in H. simplify_eq.
  unfold load_key_entry_id. rewrite Hal. simpl. rewrite K2. simpl.
  pose proof (rebound_lookup id al (domain key) (nspace key) KeyType.Client u s key Hwf Hid eq_refl eq_refl) as Hr.
  unfold rebound in Hr. unfold new_row in Hr at 1. by rewrite Hr.
Qed.

(** The descriptor a legacy key is stored under. *)
Definition target (uid : Z) (key : KeyDescriptor) : KeyDescriptor :=
  if domain key =? val Domain.APP then set_nspace key uid else key.

(** The legacy key is encrypted with a super key that exists neither in the
    database nor in the legacy store. *)
Definition obsolete (uid : Z) (al : string) w : Prop :=
  exists b params uc ca iv tag data,
    load_by_uid_alias off (k_fs w) uid al None = Ok (Some (b, params), uc, ca) /\
    blob_value b = Encrypted iv tag data /\
    Database.load_super_key USER_SUPER_KEY_alias (uid_to_android_user off uid) (k_db w) = Ok None /\
    LegacyFs.has_super_key (k_fs w) (uid_to_android_user off uid) = false.

Lemma blob_info_frame uid al v w r w' :
  legacy_blob_info off uid al v w = (r, w') -> k_db w' = k_db w /\ k_shelf w' = k_shelf w /\
    (k_fs w' = k_fs w \/ (~ (exists a, r = Ok a) /\ (exists iv tag data, v = Encrypted iv tag data) /\
      Database.load_super_key USER_SUPER_KEY_alias (uid_to_android_user off uid) (k_db w) = Ok None /\
      LegacyFs.has_super_key (k_fs w) (uid_to_android_user off uid) = false)).
Proof.
  unfold legacy_blob_info, mbind, sr_bind, read_worker_db, gets, throw, mret, sr_ret.
  destruct v as [| | | |iv tag data|]; intros H; simplify_eq; auto.
  destruct (Database.load_super_key _ _ _) as [[[i e]|]| |] eqn:Hs; simplify_eq; auto.
  destruct (LegacyFs.has_super_key _ _) eqn:Hh; simplify_eq; auto.
  destruct (on_fs _ w) as [r1 w1] eqn:Hf. apply on_fs_frame in Hf as (H1 & H2 & _).
  destruct r1; simplify_eq; rewrite H1, H2; split_and!; auto; right; split_and!; eauto; by intros [? ?].
Qed.

Lemma store_legacy_key_spec uid al key b params uc ca w r w' :
  db_wf (k_db w) -> load_by_uid_alias off (k_fs w) uid al None = Ok (Some (b, params), uc, ca) ->
  store_legacy_key off uid al key b params uc ca w = (r, w') ->
  k_shelf w' = k_shelf w /\
  match r with
  | Ok _ => k_fs w' = k_fs w /\ is_ok (load_key_entry_id key KeyType.Client (k_db w')) = true
  | _ => k_fs w' = k_fs w \/ obsolete uid al w
  end.
Proof.
  intros Hwf Hload. unfold store_legacy_key. unfold mbind at 1, sr_bind at 1.
  destruct (legacy_blob_info _ _ _ _ w) as [r1 w1] eqn:Hi. apply blob_info_frame in Hi as (Hdb & Hsh & Hfs).
  assert (Hob : forall e, r1 <> Ok e -> k_fs w1 = k_fs w \/ obsolete uid al w).
  { intros e He. destruct Hfs as [?|(_ & (iv & tag & data & Hv) & H1 & H2)]; [by left|right]. unfold obsolete. eauto 12. }
  destruct r1 as [info|e|].
  2:{ intros ?; simplify_eq. split; [done|]. by apply (Hob (([] : bytes), ∅)). }
  2:{ intros ?; simplify_eq. split; [done|]. by apply (Hob (([] : bytes), ∅)). }
  destruct Hfs as [Hfs|[Hn _]]; [|by destruct Hn; eauto].
  unfold mbind, sr_bind. destruct (get_km_uuid _ _); [|intros ?; simplify_eq; split; [done|by left]..].
  destruct (k_now w1); [|intros ?; simplify_eq; split; [done|by left]..].
  destruct (on_worker_db _ w1) as [r2 w2] eqn:Hs. pose proof (on_worker_db_frame _ _ _ _ Hs) as [Hf2 Hsh2].
  unfold mret, sr_ret.
  destruct r2 as [id| |]; intros ?; simplify_eq; (split; [congruence|]); [|left; congruence..].
  apply on_worker_db_Ok in Hs as (draws & gc & s2 & Hst & Hd2 & _). split; [congruence|].
  rewrite Hd2. rewrite Hdb in Hst. apply stored_found in Hst; [|done]. by rewrite Hst.
Qed.

(** C29: A legacy key is never lost.  Whatever the outcome of a migration request,
    the legacy files are as before, or the key is in the database under the
    descriptor it is looked up with, or the key was encrypted with a super
    key that is nowhere to be found, so that it can never be used again. *)
Theorem migration_never_loses_a_key uid key w r w' al :
  db_wf (k_db w) -> alias key = Some al -> check_and_migrate off uid key w = (r, w') ->
  k_fs w' = k_fs w \/
  is_ok (load_key_entry_id (target uid key) KeyType.Client (k_db w')) = true \/
  obsolete uid al w.
Proof.
  intros Hwf Hal. unfold check_and_migrate. unfold mbind at 1, sr_bind at 1, lift. rewrite Hal. simpl.
  fold (target uid key). unfold mbind at 1, sr_bind at 1, gets. destruct (bool_decide _);
    [unfold mret, sr_ret; intros H; simplify_eq; by left|].
  unfold mbind at 1, sr_bind at 1, read_fs.
  destruct (load_by_uid_alias off (k_fs w) uid al None) as [[[kb uc] ca]| |] eqn:Hload; simpl;
    [|intros; simplify_eq; by left..].
  unfold mbind at 1, sr_bind at 1.
  assert (Hrest : forall w1 r w', is_ok (load_key_entry_id (target uid key) KeyType.Client (k_db w1)) = true ->
    (on_shelf (note_migrated uid al) ≫= (fun _ => on_fs (remove_keystore_entry off uid al) ≫= (fun _ => mret tt))) w1 = (r, w') ->
    is_ok (load_key_entry_id (target uid key) KeyType.Client (k_db w')) = true).
  { intros w1 r1 w2 Hok. unfold mbind, sr_bind, on_shelf.
    destruct (on_fs _ _) as [r2 w3] eqn:Hf. apply on_fs_frame in Hf as (Hd & _). simpl in Hd.
    destruct r2; unfold mret, sr_ret; intros; simplify_eq; by rewrite Hd. }
  destruct kb as [[b params]|].
  - destruct (store_legacy_key _ _ _ _ _ _ _ _ w) as [r1 w1] eqn:Hst.
    eapply store_legacy_key_spec in Hst as [_ Hs]; [|done|exact Hload].
    destruct r1; intros H; [|simplify_eq; naive_solver..]. right. left. eapply Hrest; [|exact H]. apply Hs.
  - destruct ca as [c|]; [|unfold throw; intros; simplify_eq; by left].
    unfold mbind at 1, sr_bind at 1, gets. unfold mbind at 1, sr_bind at 1.
    destruct (on_worker_db _ w) as [r1 w1] eqn:Hs. pose proof (on_worker_db_frame _ _ _ _ Hs) as [Hf1 _].
    destruct r1; intros H; [|simplify_eq; by left..]. right. left. eapply Hrest; [|exact H].
    apply on_worker_db_Ok in Hs as (draws & gc & s2 & Hst & -> & _). apply stored_certificate_found in Hst; [|done]. by rewrite Hst.
Qed.

(** *** A migrated key can be used *)

(** What a legacy blob is stored as; for an encrypted blob, under the id of
    the user's super key. *)
Definition migrated_blob uid (b : Blob) w (info : bytes * BlobMetaData) : Prop :=
  match blob_value b with
  | Decrypted data => info = (data, ∅)
  | Encrypted iv tag data => exists i e,
      Database.load_super_key USER_SUPER_KEY_alias (uid_to_android_user off uid) (k_db w) = Ok (Some (i, e)) /\
      info = (data, meta_add (BMEncryptedBy (EncKeyId (ke_id e))) (meta_add (AeadTag tag) (meta_add (Iv iv) ∅)))
  | _ => False
  end.

Lemma blob_info_Ok uid al b w info w' :
  legacy_blob_info off uid al (blob_value b) w = (Ok info, w') -> w' = w /\ migrated_blob uid b w info.
Proof.
  unfold legacy_blob_info, migrated_blob, mbind, sr_bind, read_worker_db, gets, throw, mret, sr_ret.
  destruct (blob_value b) as [| | | |iv tag data|]; intros H; simplify_eq; auto.
  destruct (Database.load_super_key _ _ _) as [[[i e]|]| |] eqn:Hs; simplify_eq; eauto.
  destruct (LegacyFs.has_super_key _ _); simplify_eq. by destruct (on_fs _ w) as [[] ?].
Qed.

Lemma migrated_blob_wf uid b w info : migrated_blob uid b w info -> meta_data_wf info.2.
Proof.
  unfold migrated_blob. destruct (blob_value b); try done.
  - intros (i & e & _ & ->). repeat (apply meta_add_wf; [done|]). apply map_Forall_empty.
  - intros ->. apply map_Forall_empty.
Qed.

(** C30: A legacy key that is migrated is complete in the database.  After a
    successful migration the owner loads, under the alias, the legacy key
    blob (with initialization vector, tag and the id of the user's super key
    if it is encrypted), all its parameters with their security levels, both
    certificates and the KeyMint instance the blob belongs to; and the legacy
    files of the key are gone. *)
Theorem migrated_key_is_complete uid key al w w' b params uc ca km chk waited :
  db_wf (k_db w) -> healthy (k_fs w) -> 0 <= uid ->
  present off (k_fs w) uid al "USRPKEY" && present off (k_fs w) uid al "USRSKEY" = false ->
  (forall id, id ∉ key_ids (k_db w) -> Forall (fun r => b_key r <> id) (blobentry (k_db w))) ->
  map_Forall (fun _ u => length u = 16%nat) (sec_level_to_km_uuid (k_shelf w)) ->
  Forall (fun p => kpv_wf (kp_value p)) params -> (forall dk av, chk dk av = Ok tt) ->
  alias key = Some al -> domain key = val Domain.APP -> (uid, al) ∉ recently_migrated (k_shelf w) ->
  load_by_uid_alias off (k_fs w) uid al None = Ok (Some (b, params), uc, ca) ->
  check_and_migrate off uid key w = (Ok tt, w') ->
  exists id info u date, migrated_blob uid b w info /\
    get_km_uuid (is_strongbox b) (k_shelf w) = Ok u /\
    load_key_entry (target uid key) KeyType.Client LoadBits.BOTH uid chk true waited (k_db w') =
      Ok (id, stored_entry id params (info.1, meta_add (KmUuid u) info.2) {| cert := uc; cert_chain := ca |}
                (meta_add (CreationDate date) ∅) u) /\
    load_by_uid_alias off (k_fs w') uid al km = Ok (None, None, None).
Proof.
  intros Hwf Hh Hu Hone Horph Huuid Hp Hchk Hal Hdom Hrec Hload H. unfold check_and_migrate in H.
  unfold mbind at 1, sr_bind at 1, lift in H. rewrite Hal in H. simpl in H. fold (target uid key) in H.
  unfold mbind at 1, sr_bind at 1, gets in H. rewrite bool_decide_eq_false_2 in H by done.
  apply sr_bind_Ok in H as ([[kb uc'] ca'] & w0 & [Hl ->]%read_fs_Ok & H). rewrite Hload in Hl. simplify_eq.
  apply sr_bind_Ok in H as ([] & w1 & Hst & H).
  apply sr_bind_Ok in H as ([] & w2 & Hsh & H). unfold on_shelf in Hsh. simplify_eq.
  apply sr_bind_Ok in H as (del & w3 & (fs3 & Hrm & ->)%on_fs_Ok & H). unfold mret, sr_ret in H. simplify_eq. simpl in *.
  unfold store_legacy_key in Hst. apply sr_bind_Ok in Hst as (info & wa & [-> Hinfo]%blob_info_Ok & Hst).
  apply sr_bind_Ok in Hst as (u & wb & Hu' & Hst). simplify_eq.
  apply sr_bind_Ok in Hst as (date & wc & Hd & Hst). simplify_eq.
  apply sr_bind_Ok in Hst as (id & wd & Hs & Hst). unfold mret, sr_ret in Hst. simplify_eq.
  apply on_worker_db_Ok in Hs as (draws & gc & s2 & Hst & Hdb & Hfs & _).
  exists id, info, u, date. split; [done|]. split; [done|]. split.
  - rewrite Hdb. assert (nspace (target uid key) = uid) as Hn by (unfold target; by rewrite Hdom, Z.eqb_refl).
    pose proof (store_load_entry _ _ _ _ _ _ _ _ _ _ _ _ chk true waited Hwf Hst Hp) as Hle. rewrite Hn in Hle.
    apply Hle; try done.
    + apply meta_add_wf; [|by eapply migrated_blob_wf].
      unfold get_km_uuid in *. match goal with H : ok_or (sec_level_to_km_uuid _ !! _) _ = _ |- _ => apply ok_or_Ok in H; exact (Huuid _ _ H) end.
    + apply meta_add_wf; [done|apply map_Forall_empty].
    + apply Horph. by apply store_new_key_Ok in Hst as (_ & _ & _ & _ & _ & ? & _).
  - rewrite Hfs in Hrm. destruct (remove_entry_spec off _ uid al Hh) as (fs4 & Hrm' & W & _).
    rewrite Hrm in Hrm'. simplify_eq. by eapply removed_absent.
Qed.
End Proofs.
