(* ===== verification/LegacySystem.v ===== *)
(** * The legacy migrator as a whole

    The states of the migrator in every sequence of requests, what a failed
    initialization leaves behind, and what migrating a super key and deleting
    in bulk do. *)

From stdpp Require Import base list gmap strings.
From Stdlib Require Import ZArith Lia.
From S2P Require Import Prelude Aidl Errors KeyParameter DbTypes Database DbInvariant DbKeys DbGc Crypto RawDevice SuperKey SuperKeyCrypto LegacyAlias LegacyBlob LegacyFs LegacyList LegacyMigrator.

Section States.
Context {AI : Aidl} {BO : Boring} (off : Z).
Implicit Types (w : Worker) (m : Migrator) (s : Tables).

(** Requests and initialization, in any order; a request is any closure. *)
Inductive mig_step : Migrator * Tables -> Migrator * Tables -> Prop :=
| step_init uuids m s : mig_step (m, s) (set_init uuids m, s)
| step_request A (f : sr Worker AnyError A) md r md' : do_serialized f md = (r, md') -> mig_step md md'.

Definition new_migrator (fs : Fs) (now : result AnyError Z) (t : Tape) (draws : list (list Z)) : Migrator :=
  {| m_state := STATE_UNINITIALIZED; m_initializer := None; m_shelf := None; m_fs := fs; m_now := now; m_tape := t;
     m_draws := draws; m_gc := false |}.

Inductive mig_reachable : Migrator * Tables -> Prop :=
| mig_start fs now t draws s : mig_reachable (new_migrator fs now t draws, s)
| mig_next md md' : mig_reachable md -> mig_step md md' -> mig_reachable md'.

Definition mig_inv m : Prop :=
  match m_state m with
  | STATE_UNINITIALIZED => m_shelf m = None
  | STATE_READY => is_Some (m_shelf m) /\ m_initializer m = None
  | STATE_EMPTY => m_shelf m = None /\ is_empty (m_fs m) = Ok true /\ m_initializer m = None
  end.

Lemma check_state_inv m r m' :
  mig_inv m -> check_state m = (r, m') -> mig_inv m' /\ (forall st, r = Ok st -> st = m_state m') /\ m_fs m' = m_fs m.
Proof.
  unfold mig_inv, check_state. intros Hi H. destruct (m_state m) eqn:Hst.
  - destruct (m_initializer m); [|simplify_eq; by rewrite Hst].
    destruct (is_empty _) as [[]|e|] eqn:He; simplify_eq/=; rewrite ?Hst; split_and!; try done; try naive_solver.
  - simplify_eq. rewrite Hst. split_and!; try done; naive_solver.
  - simplify_eq. rewrite Hst. split_and!; try done; naive_solver.
Qed.

Lemma check_state_initialized m st m' : check_state m = (Ok st, m') -> st <> STATE_UNINITIALIZED.
Proof.
  unfold check_state. destruct (m_state m), (m_initializer m); intros H; simplify_eq; try done;
    by destruct (is_empty _) as [[]| |]; simplify_eq/=.
Qed.

Lemma check_empty_spec fs : check_empty fs = STATE_EMPTY <-> is_empty fs = Ok true.
Proof. unfold check_empty. destruct (is_empty fs) as [[]| |]; naive_solver. Qed.

Lemma do_serialized_inv {A} (f : sr Worker AnyError A) m s r m' s' :
  mig_inv m -> do_serialized f (m, s) = (r, (m', s')) -> mig_inv m' /\ (m_state m = STATE_EMPTY -> m' = m /\ s' = s).
Proof.
  intros Hi. unfold do_serialized. destruct (check_state m) as [r1 m1] eqn:Hc.
  pose proof (check_state_inv _ _ _ Hi Hc) as (Hi1 & Hst & _).
  assert (m_state m = STATE_EMPTY -> (r1, m1) = (Ok STATE_EMPTY, m)) as Hem.
  { intros E. unfold check_state in Hc. by rewrite E in Hc; simplify_eq. }
  destruct r1 as [st| |]; [|intros H; simplify_eq; (split; [done|]); intros E; by specialize (Hem E)..].
  destruct st.
  - by apply check_state_initialized in Hc.
  - specialize (Hst _ eq_refl). unfold mig_inv in Hi1. rewrite <- Hst in Hi1. destruct Hi1 as [[sh Hsh] Hin].
    unfold run_request. rewrite Hsh. destruct (f _) as [r2 w2]. intros H. split.
    + assert (mig_inv (if decide (check_empty (k_fs w2) = STATE_EMPTY)
        then set_m_state STATE_EMPTY {| m_state := m_state m1; m_initializer := m_initializer m1;
          m_shelf := if decide (check_empty (k_fs w2) = STATE_EMPTY) then None else Some (k_shelf w2);
          m_fs := k_fs w2; m_now := m_now m1; m_tape := k_tape w2; m_draws := k_draws w2; m_gc := k_gc w2 |}
        else {| m_state := m_state m1; m_initializer := m_initializer m1;
          m_shelf := if decide (check_empty (k_fs w2) = STATE_EMPTY) then None else Some (k_shelf w2);
          m_fs := k_fs w2; m_now := m_now m1; m_tape := k_tape w2; m_draws := k_draws w2; m_gc := k_gc w2 |})) as Hfin.
      { destruct (decide (check_empty (k_fs w2) = STATE_EMPTY)) as [He|He]; unfold mig_inv; simpl.
        - split_and!; [done|by apply check_empty_spec|done].
        - rewrite <- Hst. eauto. }
      destruct r2; by simplify_eq.
    + intros E. specialize (Hem E). congruence.
  - intros H. simplify_eq. split; [done|]. intros E. specialize (Hem E). by simplify_eq.
Qed.

(** The migrator's state tells the truth.  In every sequence of
    initializations and requests, while it is ready its worker has a state to
    run requests on; once it is empty there is no legacy user directory left,
    the worker's state is gone, and it stays empty: every later request is
    answered without the worker and changes nothing. *)
Theorem migrator_states m s :
  mig_reachable (m, s) ->
  mig_inv m /\
  (m_state m = STATE_EMPTY -> forall m' s', mig_step (m, s) (m', s') -> m' = m /\ s' = s).
Proof.
  intros H. assert (mig_inv m) as Hi.
  { remember (m, s) as md eqn:E. assert (mig_inv md.1) as Hi; [|by subst]. clear E m s.
    induction H as [fs now t draws s|[m s] [m' s'] _ IH Hs]; [done|]. simpl in *.
    inversion Hs as [uuids m0 s0|A f md r md' Hd]; subst.
    - unfold mig_inv, set_init in *. destruct (decide _) as [Hd|Hd]; [done|].
      apply dec_stable in Hd. rewrite Hd in IH. destruct (m_initializer m); simpl; by rewrite Hd.
    - by eapply do_serialized_inv in Hd as [? _]. }
  split; [done|]. intros E m' s' Hs. inversion Hs as [uuids m0 s0|A f md r md' Hd]; subst.
  - unfold set_init. by rewrite decide_True by (rewrite E; done).
  - eapply do_serialized_inv in Hd as [_ ?]; auto.
Qed.

(** One failed look at the legacy directory disables the migrator for good.
    If the check for emptiness fails on first use, the initializer is
    consumed while the state stays uninitialized: this request and every
    later one fails, also when the directory is readable again, so that a
    key that does not exist is reported as a system error. *)
Theorem failed_initialization_is_permanent {A B} (f : sr Worker AnyError A) m s uuids key uid (acc : sr (Migrator * Tables) AnyError B) :
  m_state m = STATE_UNINITIALIZED -> m_initializer m = Some uuids -> root_broken (m_fs m) = true ->
  exists m', do_serialized f (m, s) = (Err OtherError, (m', s)) /\
    forall fs s' md, md = ({| m_state := m_state m'; m_initializer := m_initializer m'; m_shelf := m_shelf m'; m_fs := fs;
           m_now := m_now m'; m_tape := m_tape m'; m_draws := m_draws m'; m_gc := m_gc m' |}, s') ->
      do_serialized f md = (Err err_sys, md) /\
      (domain key = val Domain.APP -> is_Some (alias key) -> acc md = (Err (err_rc ResponseCode.KEY_NOT_FOUND), md) ->
       with_try_migrate off key uid acc md = (Err err_sys, md)).
Proof.
  intros Hst Hin Hb. unfold do_serialized at 1, check_state. rewrite Hst, Hin. simpl. unfold is_empty. rewrite Hb. simpl.
  eexists. split; [done|]. intros fs s' md ->. cbn [set_m_initializer m_state m_initializer]. rewrite Hst.
  split; [done|]. intros Hd [al Hal] Hacc. unfold with_try_migrate. rewrite Hacc. simpl. rewrite Z.eqb_refl.
  unfold migration_uid. rewrite Hal, Hd, Z.eqb_refl. done.
Qed.
End States.

(** ** Bulk deletion *)

Section Bulk.
Context {AI : Aidl} {BO : Boring} (off : Z).
Implicit Types (w : Worker) (fs : Fs).

Definition super_encrypted fs (e : Z * string) : bool :=
  match load_by_uid_alias off fs e.1 e.2 None with Ok (Some (b, _), _, _) => is_encrypted b | _ => false end.

(** The entries a bulk deletion is to delete. *)
Definition doomed (keep : bool) fs (e : Z * string) : bool := negb (keep && negb (super_encrypted fs e)).

(** No entry has two key files. *)
Definition single fs : Prop :=
  forall uid al, present off fs uid al "USRPKEY" && present off fs uid al "USRSKEY" = false.

Lemma present_file fs fs' uid al p :
  file fs' (dir_of off uid) (make_blob_filename uid al p) = file fs (dir_of off uid) (make_blob_filename uid al p) ->
  present off fs' uid al p = present off fs uid al p.
Proof. unfold present. by intros ->. Qed.

Lemma without_single d l fs fs' : without d l fs fs' -> single fs -> single fs'.
Proof.
  intros [_ W] Hs uid al. specialize (Hs uid al). apply andb_false_iff in Hs. apply andb_false_iff.
  assert (forall p, present off fs uid al p = false -> present off fs' uid al p = false) as H; [|naive_solver].
  intros p Hp. unfold present in *. rewrite W. case_decide; [by rewrite bool_decide_eq_false_2 by (by intros [])|done].
Qed.

Lemma super_key_not_removed fs uid al : super_key_file ∉ removed_files off fs uid al.
Proof.
  intros (q & _ & [H|H])%removed_name.
  - symmetry in H. by apply digits_not_dot in H.
  - unfold super_key_file, make_chr_filename in H. change ".masterkey" with ("." +:+ "masterkey") in H.
    apply dot_inj in H. destruct (to_string_digits uid) as [Hd Hne]. destruct (to_string uid) as [|c r]; [done|].
    cbn [all_chars] in Hd. apply andb_true_iff in Hd as [Hc _]. rewrite str_app_cons in H.
    injection H as <- _. done.
Qed.

Lemma set_deleted_keys b m s r s' : set_deleted_blob b m s = (r, s') -> keyentry s' = keyentry s.
Proof.
  intros H. destruct (transaction_atomic _ _ _ _ H) as [[[gc []] ->]| ->]; [|done].
  apply (proj1 (transaction_Ok _ _ _ _)) in H. apply sr_bind_Ok in H as ([] & s1 & (K & _)%set_blob_internal_Ok & H).
  unfold mret, sr_ret in H. by simplify_eq.
Qed.

(** One entry of the loop. *)
Lemma bulk_entry_spec keep sid e w w' :
  healthy (k_fs w) -> bulk_delete_entry off keep sid e w = (Ok tt, w') ->
  k_shelf w' = k_shelf w /\ keyentry (k_db w') = keyentry (k_db w) /\ (db_wf (k_db w) -> db_wf (k_db w')) /\
  if doomed keep (k_fs w) e then without (dir_of off e.1) (removed_files off (k_fs w) e.1 e.2) (k_fs w) (k_fs w')
  else k_fs w' = k_fs w.
Proof.
  destruct e as [uid al]. intros Hh H. unfold bulk_delete_entry in H.
  apply sr_bind_Ok in H as ([[kb uc] ca] & w0 & [Hl ->]%read_fs_Ok & H).
  assert (match kb with Some (b, _) => is_encrypted b | None => false end = super_encrypted (k_fs w) (uid, al)) as Henc.
  { unfold super_encrypted. cbn [fst snd]. rewrite Hl. by destruct kb as [[]|]. }
  rewrite Henc in H. unfold doomed. destruct (keep && _); simpl.
  { unfold mret, sr_ret in H. by simplify_eq. }
  apply sr_bind_Ok in H as ([] & w1 & Hg & H).
  apply sr_bind_Ok in H as (del & w2 & (fs2 & Hrm & ->)%on_fs_Ok & H). unfold mret, sr_ret in H. simplify_eq. simpl.
  assert (k_fs w1 = k_fs w /\ k_shelf w1 = k_shelf w /\ keyentry (k_db w1) = keyentry (k_db w) /\
    (db_wf (k_db w) -> db_wf (k_db w1))) as (Hf & -> & -> & Hwf).
  { destruct (match kb with Some (_, params) => _ | None => _ end); [|unfold mret, sr_ret in Hg; by simplify_eq].
    apply sr_bind_Ok in Hg as (sh & w3 & Hs & Hg). unfold gets in Hs. simplify_eq.
    destruct (kb ≫= _) as [[b m]|]; [|unfold mret, sr_ret in Hg; by simplify_eq].
    apply on_worker_db_Ok in Hg as (dr & gc & s2 & Hd & -> & -> & ->). split_and!; [done|done|by eapply set_deleted_keys|].
    intros Hwf. by eapply set_deleted_blob_wf in Hd. }
  split_and!; [done|done|done|].
  destruct (remove_entry_spec off (k_fs w) uid al Hh) as (fs3 & Hrm' & W & _). rewrite Hf, Hrm' in Hrm. by simplify_eq.
Qed.

Definition gone fs (e : Z * string) : Prop := forall km, load_by_uid_alias off fs e.1 e.2 km = Ok (None, None, None).
Definition same_load fs fs' (e : Z * string) : Prop :=
  forall km, load_by_uid_alias off fs' e.1 e.2 km = load_by_uid_alias off fs e.1 e.2 km.

Lemma same_load_doomed keep fs fs' e : same_load fs fs' e -> doomed keep fs' e = doomed keep fs e.
Proof. intros H. unfold doomed, super_encrypted. by rewrite H. Qed.

(** What the loop leaves, relative to the entries it was given. *)
Record bulk_done (keep : bool) (l : list (Z * string)) w w' : Prop := {
  bd_healthy : healthy (k_fs w');
  bd_shelf : k_shelf w' = k_shelf w;
  bd_keys : keyentry (k_db w') = keyentry (k_db w);
  bd_wf : db_wf (k_db w) -> db_wf (k_db w');
  bd_gone : forall e, e ∈ l -> doomed keep (k_fs w) e = true -> gone (k_fs w') e;
  bd_same : forall e, 0 <= e.1 -> e ∉ l \/ doomed keep (k_fs w) e = false -> same_load (k_fs w) (k_fs w') e;
  bd_super : forall d, file (k_fs w') d super_key_file = file (k_fs w) d super_key_file
}.

Lemma bulk_loop keep sid l w w' :
  healthy (k_fs w) -> single (k_fs w) -> NoDup l -> Forall (fun e : Z * string => 0 <= e.1) l ->
  sr_for (bulk_delete_entry off keep sid) l w = (Ok tt, w') -> bulk_done keep l w w'.
Proof.
  revert w. induction l as [|e l IH]; intros w Hh Hs Hnd Hpos H.
  { simpl in H. unfold mret, sr_ret in H. simplify_eq. constructor; try done; try (by intros ? ? ? ?).
    by intros ? ?%not_elem_of_nil. }
  apply NoDup_cons in Hnd as [He Hnd]. inversion Hpos as [|? ? Hu Hpos']; subst.
  simpl in H. apply sr_bind_Ok in H as ([] & w1 & H1 & H).
  apply bulk_entry_spec in H1 as (Hsh & Hk & Hwf & Hfs); [|done].
  assert (healthy (k_fs w1) /\ single (k_fs w1) /\ (forall d, file (k_fs w1) d super_key_file = file (k_fs w) d super_key_file) /\
    (forall e', 0 <= e'.1 -> e' <> e -> same_load (k_fs w) (k_fs w1) e')) as (Hh1 & Hs1 & Hsk & Hsame).
  { destruct (doomed _ _ _); [|rewrite Hfs; split_and!; try done; by intros ? ? ? ?].
    pose proof Hfs as [Hh1 W]. split_and!; [done|by eapply without_single| |].
    - intros d. rewrite W, decide_False; [done|]. intros [_ Hin]. by apply super_key_not_removed in Hin.
    - intros [u a] Hu' Hne km. destruct e as [u0 a0]. by apply (removed_others off (k_fs w) (k_fs w1) u0 a0). }
  apply IH in H as [B1 B2 B3 B4 B5 B6 B7]; [|done..].
  constructor; try congruence; try (by auto); try (by intros d; rewrite B7).
  - intros e' [->|Hin]%elem_of_cons Hd.
    + intros km. rewrite (B6 e) by auto. rewrite Hd in Hfs. by eapply removed_absent.
    + apply B5; [done|]. rewrite (same_load_doomed keep (k_fs w)); [done|].
      apply Hsame; [rewrite Forall_forall in Hpos'; auto|]. by intros ->.
  - intros e' Hpe Hc km. destruct (decide (e' = e)) as [->|Hne].
    + destruct Hc as [Hc|Hd]; [set_solver|]. rewrite Hd in Hfs. rewrite B6 by auto. by rewrite Hfs.
    + pose proof (Hsame e' Hpe Hne) as Hsm. rewrite B6, Hsm; [done|done|].
      destruct Hc as [Hc|Hd]; [left; set_solver|right; by rewrite (same_load_doomed keep (k_fs w))].
Qed.

Lemma parse_digits_nonneg limit s : forall acc z, 0 <= acc -> parse_digits limit acc s = Some z -> 0 <= z.
Proof.
  induction s as [|c s IH]; intros acc z Ha; simpl; [congruence|]. case_match eqn:Hc; [|done].
  case_match; [|done]. apply IH. apply andb_true_iff in Hc as [Hc _]. apply Z.leb_le in Hc. lia.
Qed.

Lemma parse_u32_nonneg s z : parse_u32 s = Some z -> 0 <= z.
Proof.
  unfold parse_u32, parse_unsigned. intros Hp. repeat case_match; try done; by eapply parse_digits_nonneg in Hp.
Qed.

(** The entries a request is about. *)
Definition listed (request : BulkDeleteRequest) fs (e : Z * string) : Prop :=
  match request with
  | BulkUid uid => e.1 = uid /\ exists l, list_keystore_entries_for_uid off fs uid = Ok l /\ e.2 ∈ l
  | BulkUser user => exists m, list_keystore_entries_for_user fs user = Ok m /\ e.2 ∈ default ∅ (m !! e.1)
  end.

Lemma listed_nonneg user fs m u a :
  list_keystore_entries_for_user fs user = Ok m -> a ∈ default ∅ (m !! u) -> 0 <= u.
Proof.
  unfold list_keystore_entries_for_user, list_entries_for_user. rewrite bind_Ok. intros (l & _ & ?). simplify_eq.
  rewrite <- elem_of_entries.
  cut (forall (es : list (Z * string)) (m0 : gmap Z (gset string)), Forall (fun e : Z * string => 0 <= e.1) es ->
    (forall u a, a ∈ default ∅ (m0 !! u) -> 0 <= u) -> forall u a, a ∈ default ∅ (fold_left add_entry es m0 !! u) -> 0 <= u).
  { intros H. rewrite elem_of_entries. apply H; [|by intros ? ?; rewrite lookup_empty; intros ?%elem_of_empty].
    apply Forall_forall. intros [u' a'] (f & _ & Hf)%list_elem_of_omap. unfold entry_of in Hf.
    apply bind_Some in Hf as ([x y] & _ & Hf). apply bind_Some in Hf as (z & Hz%parse_u32_nonneg & Hf).
    apply bind_Some in Hf as (b & _ & ?). by simplify_eq. }
  induction es as [|[v b] es IH]; intros m0 Hf H0; [done|]. inversion Hf; subst. simpl in *. apply IH; [done|].
  unfold add_entry. simpl. intros u' a'. destruct (decide (v = u')) as [->|]; [done|]. rewrite lookup_insert_ne by done. apply H0.
Qed.

(** Bulk deletion deletes what it is asked to, and nothing else.  After a
    successful request every listed entry of the uid or user is gone, except
    (if asked for) those that are not super encrypted, which load as before;
    so does every entry that is not listed.  No key in the database and no
    legacy super key is touched: the database at most gains blobs for the
    garbage collector. *)
Theorem bulk_delete_exact request keep w w' :
  healthy (k_fs w) -> single (k_fs w) -> (forall uid, request = BulkUid uid -> 0 <= uid) ->
  bulk_delete off request keep w = (Ok tt, w') ->
  (forall e, listed request (k_fs w) e -> doomed keep (k_fs w) e = true -> gone (k_fs w') e) /\
  (forall e, 0 <= e.1 -> ~ listed request (k_fs w) e \/ doomed keep (k_fs w) e = false -> same_load (k_fs w) (k_fs w') e) /\
  keyentry (k_db w') = keyentry (k_db w) /\ (db_wf (k_db w) -> db_wf (k_db w')) /\
  (forall user, LegacyFs.has_super_key (k_fs w') user = LegacyFs.has_super_key (k_fs w) user).
Proof.
  intros Hh Hs Hu H. unfold bulk_delete in H. apply sr_bind_Ok in H as (m & w0 & [Hm ->]%read_fs_Ok & H).
  apply sr_bind_Ok in H as (found & w1 & Hf & H). unfold read_worker_db in Hf. simplify_eq.
  assert (forall e, e ∈ entries m <-> listed request (k_fs w1) e) as Hl.
  { intros [u a]. rewrite elem_of_entries. unfold listed. destruct request as [uid|user]; simpl.
    - destruct (list_keystore_entries_for_uid off _ uid) as [l| |] eqn:Hq; simplify_eq/=.
      destruct (decide (uid = u)) as [->|Hne].
      + rewrite lookup_singleton_eq. simpl. rewrite elem_of_list_to_set.
        split; [by eauto|]. intros [_ (l' & ? & ?)]. by simplify_eq.
      + rewrite lookup_singleton_ne by done. simpl. rewrite elem_of_empty. split; [done|]. intros [? _]. congruence.
    - split; [|intros (m' & Hm' & ?)]; destruct (list_keystore_entries_for_user _ user) eqn:Hq; simplify_eq/=; eauto. }
  apply bulk_loop in H as [B1 B2 B3 B4 B5 B6 B7]; [|done|done|apply NoDup_entries|].
  2:{ apply Forall_forall. intros [u a] Hin. pose proof (proj1 (Hl _) Hin) as Hin'. unfold listed in Hin'.
      destruct request as [uid|user]; [destruct Hin' as [-> _]; auto|].
      destruct Hin' as (m' & Hm' & Ha). by eapply listed_nonneg. }
  split_and!; [| |done|done|].
  - intros e He%Hl Hd. by apply B5.
  - intros e Hp Hc. apply B6; [done|]. by rewrite Hl.
  - intros user. unfold LegacyFs.has_super_key. specialize (B7 (make_user_path_name user)). unfold file in B7. by rewrite B7.
Qed.

(** *** Rollback resistant keys *)

(** What [bulk_delete] hands to the collector for a rollback resistant key
    that is stored in the clear has no KeyMint instance, so the collector
    cannot ask for its deletion; for a super encrypted one it has. *)
Theorem bulk_deleted_blob_uuid (s : Shelf) sid b data m :
  mark_deleted s sid b = Some (data, m) ->
  (m !! BlobMetaTag.KmUuid = None <-> exists d, blob_value b = Decrypted d).
Proof.
  unfold mark_deleted. destruct (blob_value b) as [| | | |iv tag c|d]; try done.
  - destruct (get_km_uuid _ _) as [u| |] eqn:Hu; [|done..]. destruct sid as [i|]; [|done]. intros H. simplify_eq.
    split; [|by intros [? ?]]. vm_compute. done.
  - intros H. simplify_eq. rewrite lookup_empty. naive_solver.
Qed.
End Bulk.

(** ** Super keys *)

Section Super.
Context {AI : Aidl} {BO : Boring} (off : Z).
Implicit Types (w : Worker) (fs : Fs) (s : Tables).

(** The collector never lets blobs of a deleted key outlive a new key with
    the same id. *)
Definition no_stale_blobs s : Prop :=
  forall id, id ∉ key_ids s -> Forall (fun r => b_key r <> id) (blobentry s).

Lemma store_super_entry draws user al b bm km s gc e s' :
  db_wf s -> no_stale_blobs s -> meta_data_wf bm ->
  store_super_key draws user al b bm km s = (Ok (gc, e), s') -> ke_key_blob_info e = Some (b, bm).
Proof.
  intros Hwf Hst Hm H. apply (proj1 (transaction_Ok _ _ _ _)) in H.
  apply sr_bind_Ok in H as (id & s1 & (_ & Hid & ->)%insert_with_retry_Ok & H).
  apply sr_bind_Ok in H as ([] & s2 & H2 & H). unfold key_metadata_store, modify in H2. injection H2 as <-.
  apply sr_bind_Ok in H as ([] & s3 & (_ & _ & _ & _ & B & BM)%set_blob_internal_Ok & H).
  apply sr_bind_Ok in H as (e' & s4 & H4 & H). unfold query in H4. injection H4 as H4 <-.
  unfold mret, sr_ret in H. simplify_eq. simpl in B, BM.
  unfold load_key_components in H4. apply bind_Ok in H4 as (md & _ & H4).
  apply bind_Ok in H4 as ([[[hk info] c] ch] & Hbc & H4). apply bind_Ok in H4 as (ps & _ & H4).
  apply bind_Ok in H4 as (u & _ & H4). simplify_eq. simpl.
  unfold load_blob_components in Hbc. set (ci := {| cert := None; cert_chain := None |}).
  rewrite (latest_new_blobs s s' id (next_blob_id s) b ci (Hst id Hid) B) in Hbc. simpl in Hbc.
  change (next_blob_id _) with (next_blob_id s) in BM.
  rewrite BM, meta_load_store in Hbc; [|done|by apply next_blob_no_meta]. simpl in Hbc. by simplify_eq.
Qed.

Lemma password_roundtrip key pw t b m t' e :
  encrypt_with_password key pw t = (Ok (b, m), t') -> ke_key_blob_info e = Some (b, m) -> decrypt_entry e pw = Ok key.
Proof.
  unfold encrypt_with_password. intros H He. apply sr_bind_Ok in H as (salt & t1 & _ & H).
  apply sr_bind_Ok in H as (dk & t2 & [Hdk ->]%lift_Ok & H).
  apply sr_bind_Ok in H as ([[c iv] tag] & t3 & (_ & _ & Hd)%draw_Ok%aes_inverse & H). unfold mret, sr_ret in H. simplify_eq.
  unfold decrypt_entry. rewrite He. set (m := meta_add _ _).
  change (encrypted_by m) with (Some Password). change (salt_of m) with (Some salt).
  change (iv_of m) with (Some iv). change (aead_tag_of m) with (Some tag).
  cbv beta iota. rewrite Hdk. simpl. by rewrite Hd.
Qed.

Lemma password_meta_wf key pw t b m t' : encrypt_with_password key pw t = (Ok (b, m), t') -> meta_data_wf m.
Proof.
  unfold encrypt_with_password. intros H. sr_ok H. destruct a1 as [[c iv] tag]. unfold mret, sr_ret in H. simplify_eq.
  repeat (apply meta_add_wf; [done|]). apply map_Forall_empty.
Qed.

Lemma remove_super_key_spec fs user r fs' :
  healthy fs -> remove_super_key user fs = (r, fs') -> LegacyFs.has_super_key fs' user = false.
Proof.
  intros Hh. unfold remove_super_key. unfold mbind at 1, sr_bind at 1.
  destruct (remove_file_spec fs (make_user_path_name user) super_key_file LegacyError Hh) as (f1 & -> & Hh1 & Hf).
  intros H. assert (file fs' (make_user_path_name user) super_key_file = None) as Hn.
  2:{ unfold LegacyFs.has_super_key. unfold file in Hn. by rewrite Hn. }
  unfold mbind, sr_bind, gets in H. specialize (Hf (make_user_path_name user) super_key_file).
  rewrite decide_True in Hf by done.
  destruct (default false _); [|unfold mret, sr_ret in H; by simplify_eq].
  unfold io_error, remove_dir in H. destruct (read_dir f1 _) as [[|? ?]| |]; unfold mret, sr_ret in H; simplify_eq; try done.
  unfold file. simpl. by rewrite lookup_delete_eq.
Qed.

(** A legacy super key moves to the database.  If the password opens the
    legacy super key and the migration succeeds, the database has a super key
    for the user from which the same password recovers the same key, the
    legacy file is gone, and the migrator still knows that the user has a
    super key. *)
Theorem super_key_migrates user pw key w w' :
  db_wf (k_db w) -> no_stale_blobs (k_db w) -> healthy (k_fs w) ->
  Database.load_super_key USER_SUPER_KEY_alias user (k_db w) = Ok None ->
  user ∉ recently_migrated_super_key (k_shelf w) ->
  LegacyFs.load_super_key (k_fs w) user pw = Ok (Some key) ->
  check_and_migrate_super_key user pw w = (Ok tt, w') ->
  exists id e, Database.load_super_key USER_SUPER_KEY_alias user (k_db w') = Ok (Some (id, e)) /\
    decrypt_entry e pw = Ok key /\ LegacyFs.has_super_key (k_fs w') user = false /\
    has_super_key_request user w' = (Ok true, w').
Proof.
  intros Hwf Hst Hh Hnone Hrec Hload H. unfold check_and_migrate_super_key in H.
  unfold mbind at 1, sr_bind at 1, gets in H. rewrite bool_decide_eq_false_2 in H by done.
  apply sr_bind_Ok in H as (found & w0 & [Hl ->]%read_fs_Ok & H). rewrite Hload in Hl. simplify_eq.
  apply sr_bind_Ok in H as ([b m] & w1 & Ht & H). unfold on_worker_tape in Ht.
  destruct (encrypt_with_password key pw (k_tape w)) as [r t'] eqn:He. simplify_eq.
  apply sr_bind_Ok in H as (e & w2 & (draws & gc & s2 & Hs & Hdb & Hfs & Hsh)%on_worker_db_Ok & H). simpl in *.
  apply sr_bind_Ok in H as ([] & w3 & (fs3 & Hrm & ->)%on_fs_Ok & H). unfold on_shelf in H. simplify_eq. simpl.
  exists (ke_id e), e. split_and!.
  - eapply store_super_key_then_load; [exact Hs|]. unfold Database.load_super_key in Hnone.
    destruct (load_key_entry_id _ _ _) as [i|er|] eqn:Hid.
    + exfalso. simpl in Hnone. destruct (load_key_components _ _ _); done.
    + unfold load_key_entry_id in Hid. simpl in Hid. fold (super_desc user USER_SUPER_KEY_alias) in Hid.
      destruct (select_where _ _) as [|r rs]; [done|]. exfalso. destruct rs; simplify_eq/=; by rewrite val_eqb in Hnone.
    + done.
  - eapply password_roundtrip; [exact He|]. eapply store_super_entry; [exact Hwf|exact Hst| |exact Hs]. by eapply password_meta_wf.
  - rewrite Hfs in Hrm. by eapply remove_super_key_spec.
  - unfold has_super_key_request, gets. simpl. rewrite bool_decide_eq_true_2 by set_solver. done.
Qed.
End Super.

(** ** The interface of the super key manager *)

Section Interface.
Context {AI : Aidl} {BO : Boring} (off : Z).
Implicit Types (w : Worker) (s : Tables).

(** The keys of the database are as before, whatever was added for the
    collector. *)
Definition keys_untouched s s' : Prop :=
  db_wf s -> db_wf s' /\ keyentry s' = keyentry s /\ forall id, id ∈ key_ids s -> same_view id s s'.

Lemma keys_untouched_refl s : keys_untouched s s.
Proof. by intros Hwf. Qed.

Lemma keys_untouched_trans s1 s2 s3 : keys_untouched s1 s2 -> keys_untouched s2 s3 -> keys_untouched s1 s3.
Proof.
  intros H1 H2 Hwf. destruct (H1 Hwf) as (Hwf2 & K2 & V2). destruct (H2 Hwf2) as (Hwf3 & K3 & V3).
  split_and!; [done|congruence|]. intros id Hid. eapply same_view_trans; [by apply V2|]. apply V3. unfold key_ids. by rewrite K2.
Qed.

Lemma deleted_blob_untouched b m s r s' : set_deleted_blob b m s = (r, s') -> keys_untouched s s'.
Proof.
  intros H Hwf. destruct (transaction_atomic _ _ _ _ H) as [[[gc []] ->]| ->]; [|done].
  pose proof (set_deleted_blob_wf b m s _ s' Hwf H) as Hwf'.
  apply (proj1 (transaction_Ok _ _ _ _)) in H.
  apply sr_bind_Ok in H as ([] & s1 & (K & P & M & G & B & BM)%set_blob_internal_Ok & H).
  unfold mret, sr_ret in H. simplify_eq. split_and!; [done|done|]. intros id Hid.
  assert (id <> UNASSIGNED_KEY_ID) as Hne.
  { intros ->. by destruct (ok_assigned _ (wf_keys _ Hwf)). }
  simpl in B. assert (latest_blobs id s' = latest_blobs id s) as HL.
  { unfold latest_blobs. rewrite B, select_where_app. rewrite (select_where_nil _ [_]); [by rewrite app_nil_r|].
    intros x ->%list_elem_of_singleton. apply Z.eqb_neq. cbn [b_key]. congruence. }
  constructor; rewrite ?K, ?P, ?M; try done. intros r Hr. rewrite BM.
  refine (meta_store_other (next_blob_id s) m _ (fun o => o = b_id r) _).
  unfold latest_blobs in Hr. apply elem_of_select_where in Hr as [Hr _].
  apply elem_of_select_where in Hr as [Hr _]. apply max_blob_bound in Hr. unfold next_blob_id. lia.
Qed.

Lemma untouched_load_super_key al user s s' :
  keys_untouched s s' -> db_wf s -> Database.load_super_key al user s' = Database.load_super_key al user s.
Proof.
  intros H Hwf. destruct (H Hwf) as (Hwf' & K & V). unfold Database.load_super_key, load_key_entry_id. simpl. rewrite K.
  destruct (select_where _ (keyentry s)) as [|r [|? ?]] eqn:Hsel; [done| |done]. simpl.
  rewrite (same_view_load LoadBits.KM (k_id r) s s'); [done|]. apply V. apply list_elem_of_fmap_2.
  assert (r ∈ [r]) as Hr by left. rewrite <- Hsel in Hr. by apply elem_of_select_where in Hr as [? _].
Qed.

(** Requests that leave the keys of the database alone. *)
Definition leaves_keys {A} (f : sr Worker AnyError A) : Prop :=
  forall w r w', f w = (r, w') -> keys_untouched (k_db w) (k_db w').

Lemma leaves_bind {A B} (f : sr Worker AnyError A) (g : A -> sr Worker AnyError B) :
  leaves_keys f -> (forall a, leaves_keys (g a)) -> leaves_keys (f ≫= g).
Proof.
  intros Hf Hg w r w' H. unfold mbind, sr_bind in H. destruct (f w) as [[a| |] w1] eqn:E;
    [|simplify_eq; by eapply Hf..]. eapply keys_untouched_trans; [by eapply Hf|by eapply Hg].
Qed.

Lemma leaves_same {A} (f : sr Worker AnyError A) : (forall w r w', f w = (r, w') -> k_db w' = k_db w) -> leaves_keys f.
Proof. intros H w r w' E. rewrite (H _ _ _ E). apply keys_untouched_refl. Qed.

Lemma leaves_fs {A} (f : sr Fs LegacyError A) : leaves_keys (on_fs f).
Proof. apply leaves_same. intros w r w' H. by apply on_fs_frame in H as [? _]. Qed.

Lemma leaves_state {A} (f : sr Worker AnyError A) : (forall w, snd (f w) = w) -> leaves_keys f.
Proof. intros H. apply leaves_same. intros w r w' E. specialize (H w). rewrite E in H. simpl in H. by subst. Qed.

Lemma leaves_bulk_entry keep sid e : leaves_keys (bulk_delete_entry off keep sid e).
Proof.
  destruct e as [uid al]. unfold bulk_delete_entry. apply leaves_bind; [by apply leaves_state|]. intros [[kb uc] ca].
  destruct (_ && _); [by apply leaves_state|]. apply leaves_bind.
  - destruct (match kb with Some (_, ps) => _ | None => _ end); [|by apply leaves_state].
    apply leaves_bind; [by apply leaves_state|]. intros sh. destruct (_ ≫= _) as [[b m]|]; [|by apply leaves_state].
    intros w r w' H. unfold on_worker_db in H. destruct (set_deleted_blob b m (k_db w)) as [r1 s1] eqn:E. simplify_eq.
    by eapply deleted_blob_untouched.
  - intros _. apply leaves_bind; [apply leaves_fs|]. intros _. by apply leaves_state.
Qed.

Lemma leaves_bulk request keep : leaves_keys (bulk_delete off request keep).
Proof.
  unfold bulk_delete. apply leaves_bind; [by apply leaves_state|]. intros m. apply leaves_bind; [by apply leaves_state|].
  intros found. induction (entries m) as [|e l IH]; [by apply leaves_state|].
  apply leaves_bind; [apply leaves_bulk_entry|]. intros _. exact IH.
Qed.

Lemma run_request_db {A} (f : sr Worker AnyError A) m s (P : Tables -> Tables -> Prop) :
  (forall s, P s s) -> (forall w r w', f w = (r, w') -> P (k_db w) (k_db w')) -> P s (snd (snd (run_request f (m, s)))).
Proof.
  intros Hr Hf. unfold run_request. destruct (m_shelf m) as [sh|]; [|apply Hr].
  destruct (f _) as [r w] eqn:E. simpl. exact (Hf _ _ _ E).
Qed.

Lemma do_serialized_db {A} (f : sr Worker AnyError A) m s r m' s' (P : Tables -> Tables -> Prop) :
  (forall s, P s s) -> (forall w r w', f w = (r, w') -> P (k_db w) (k_db w')) ->
  do_serialized f (m, s) = (r, (m', s')) -> P s s'.
Proof.
  intros Hr Hf. unfold do_serialized. destruct (check_state m) as [r1 m1].
  pose proof (run_request_db f m1 s P Hr Hf) as Hrun. destruct (run_request f (m1, s)) as [[st r2] [m2 s2]]. simpl in Hrun.
  destruct r1 as [[]| |]; try destruct r2 as [[]|]; intros H; simplify_eq; done.
Qed.

Lemma or_default_run {A} (a : A) (f : sr (Migrator * Tables) AnyError (option A)) md r md' :
  or_default a f md = (r, md') -> exists r0, f md = (r0, md').
Proof. unfold or_default, mbind, sr_bind. destruct (f md) as [[]]; intros H; unfold mret, sr_ret in *; simplify_eq; eauto. Qed.

Definition migrate_super_key (user : Z) (pw : bytes) : sr (Migrator * Tables) AnyError bool :=
  r ← do_serialized (check_and_migrate_super_key user pw); mret (match r with Some _ => true | None => false end).

(** The migrator offers what the super key manager relies on. *)
#[export] Program Instance migrator_legacy : Legacy Migrator := {|
  lg_has_super_key := has_super_key;
  lg_migrate := migrate_super_key;
  lg_bulk_delete_user := bulk_delete_user off;
  lg_load_super_key := fun m user pw => map_err to_any (LegacyFs.load_super_key (m_fs m) user pw)
|}.
Next Obligation.
  intros user m s r m' s' (r0 & H)%or_default_run. eapply (do_serialized_db _ _ _ _ _ _ (fun a b => b = a)) in H; [exact H|done|].
  intros w r1 w' E. unfold has_super_key_request, gets in E. by simplify_eq.
Qed.
Next Obligation.
  intros user keep m s r m' s' (r0 & H)%or_default_run Hwf.
  eapply (do_serialized_db _ _ _ _ _ _ keys_untouched) in H; [|apply keys_untouched_refl|apply leaves_bulk].
  by apply H.
Qed.
Next Obligation.
  intros user keep m s r m' s' al user' (r0 & H)%or_default_run Hwf.
  eapply (do_serialized_db _ _ _ _ _ _ keys_untouched) in H; [|apply keys_untouched_refl|apply leaves_bulk].
  by apply untouched_load_super_key.
Qed.
End Interface.
