(* ===== verification/LegacyReset.v ===== *)
(** * Users with legacy keys

    The super key manager ([SuperKey]) together with the legacy migrator
    ([LegacyMigrator]): what a reset of a user leaves in the legacy store. *)

From stdpp Require Import base list gmap strings.
From Stdlib Require Import ZArith Lia.
From S2P Require Import Prelude Aidl Errors KeyParameter BootLevelKeys DbTypes Database DbInvariant DbKeys DbBulk DbGc Crypto RawDevice SuperKey SuperKeyCrypto SuperKeyUsers LegacyAlias LegacyBlob LegacyFs LegacyList LegacyMigrator LegacySystem.

Section Reset.
Context {AI : Aidl} {BO : Boring} {K : Type} {KMI : KeyMint K} (off : Z).
#[local] Instance this_migrator : Legacy Migrator := migrator_legacy off.
Implicit Types (g : Sys K Migrator) (m : Migrator) (s : Tables).

Lemma has_super_key_not_empty fs user : healthy fs -> LegacyFs.has_super_key fs user = true -> check_empty fs = STATE_READY.
Proof.
  intros (Hr & _ & _) Hs. unfold check_empty, is_empty. rewrite Hr. simpl.
  assert (existsb (fun f => utf8_valid f && starts_with f "user_") ((map_to_list (dirs fs)).*1) = true) as ->; [|done].
  apply existsb_exists. exists (make_user_path_name user). split.
  - apply list_elem_of_In, list_elem_of_fmap. unfold LegacyFs.has_super_key in Hs. apply bool_decide_eq_true in Hs as [x Hx].
    apply bind_Some in Hx as (d & Hd & _). exists (make_user_path_name user, d). by rewrite elem_of_map_to_list.
  - unfold make_user_path_name. apply andb_true_iff. split.
    + apply ascii_utf8. rewrite all_chars_app. apply andb_true_iff. split; [done|].
      eapply all_chars_impl; [|apply to_string_digits]. intros c Hc.
      pose proof (char_forall (fun c => negb (digit c) || (byte c <? 128)) eq_refl c) as H. cbv beta in H. by rewrite Hc in H.
    + rewrite starts_with_strip, strip_prefix_app. done.
Qed.

(** A request that succeeds while a legacy super key stays. *)
Lemma request_ready {A} (f : sr Worker AnyError A) m s sh user a md' :
  m_state m = STATE_READY -> m_shelf m = Some sh ->
  do_serialized f (m, s) = (Ok (Some a), md') ->
  exists w, f {| k_shelf := sh; k_fs := m_fs m; k_db := s; k_now := m_now m; k_tape := m_tape m;
                 k_draws := m_draws m; k_gc := m_gc m |} = (Ok a, w) /\ md'.2 = k_db w /\ m_fs md'.1 = k_fs w /\
    (healthy (k_fs w) -> LegacyFs.has_super_key (k_fs w) user = true -> m_state md'.1 = STATE_READY /\ is_Some (m_shelf md'.1)).
Proof.
  intros Hst Hsh. unfold do_serialized, check_state, run_request. rewrite Hst, Hsh.
  destruct (f _) as [[x| |] w]; intros H; simplify_eq/=. exists w. split_and!; [done|done| |].
  - by destruct (decide _).
  - intros Hh Hs. rewrite (has_super_key_not_empty _ _ Hh Hs). done.
Qed.

(** The legacy super key outlives the user.  When a user is reset while the
    legacy store still holds the user's super key, the reset deletes neither
    the [.masterkey] file nor the migrator's memory of it: afterwards the
    user is [LskfLocked] rather than [Uninitialized], so that a new password
    creates no new super key. *)
Theorem legacy_super_key_outlives_reset user g g' sh :
  db_wf (w_db (g_world g)) -> healthy (m_fs (g_legacy g)) -> single off (m_fs (g_legacy g)) ->
  m_state (g_legacy g) = STATE_READY -> m_shelf (g_legacy g) = Some sh ->
  LegacyFs.has_super_key (m_fs (g_legacy g)) user = true ->
  reset_user off user false g = (Ok tt, g') ->
  fst (user_state_get user g') = Ok LskfLocked.
Proof.
  intros Hwf Hh Hs Hst Hsh Hsk H. apply reset_Ok in H as (l & s & gc & s' & Hl & Hu & Hdb & Hlg & Hskm).
  pose proof (lg_bulk_delete_wf _ _ _ _ _ _ _ Hl Hwf) as Hwf1.
  apply unbind_no_super_key in Hu; [|done]. rewrite <- Hdb in Hu. clear Hdb s'.
  cbn [lg_bulk_delete_user this_migrator migrator_legacy] in Hl. unfold bulk_delete_user, or_default in Hl.
  apply sr_bind_Ok in Hl as (o & md & Hd & Hl). unfold mret, sr_ret in Hl. destruct md as [l1 s1]. simplify_eq.
  destruct o as [[]|].
  2:{ unfold do_serialized, check_state, run_request in Hd. rewrite Hst, Hsh in Hd. by destruct (bulk_delete _ _ _ _) as [[]]. }
  apply (request_ready _ _ _ sh user) in Hd as (w & Hb & Hdb' & Hfs & Hready); [|done|done]. simpl in *.
  assert (healthy (k_fs w)) as Hhw.
  { unfold bulk_delete in Hb. apply sr_bind_Ok in Hb as (mm & w0 & [Hmm ->]%read_fs_Ok & Hb).
    apply sr_bind_Ok in Hb as (found & w1 & Hf & Hb). unfold read_worker_db in Hf. simplify_eq.
    eapply bulk_loop in Hb as [? _ _ _ _ _ _]; [done|done|done|apply NoDup_entries|].
    apply Forall_forall. intros [u a] Hin. apply elem_of_entries in Hin. simpl in Hmm. by eapply listed_nonneg. }
  apply bulk_delete_exact in Hb as (_ & _ & _ & _ & Hsame); [|done|done|done]. simpl in Hsame.
  rewrite <- (Hsame user) in Hsk. destruct (Hready Hhw Hsk) as [Hst' [sh' Hsh']].
  unfold user_state_get, super_key_exists_in_db_for_user, mbind, sr_bind, on_skm, gets, read_db.
  rewrite Hskm. unfold get_per_boot_key_by_user_id. simpl. rewrite lookup_delete_eq. simpl.
  change (kt_alias USER_SUPER_KEY) with USER_SUPER_KEY_alias. rewrite Hu.
  unfold legacy_has_super_key, on_legacy. simpl. unfold has_super_key, or_default, mbind, sr_bind, do_serialized, check_state, run_request.
  rewrite Hst', Hsh'. simpl. rewrite Hfs, Hsk, orb_true_r. done.
Qed.
End Reset.

(** ** Examples *)

Section Examples.
#[local] Existing Instances aidl_published toy_boring toy_km.

(** A store none of whose files is an old secret key. *)
Lemma single_store l :
  (forall f uid al, f ∈ l.*1 -> f <> make_blob_filename uid al "USRSKEY") -> single 100000 (store l).
Proof.
  intros H uid al. apply andb_false_iff. right. unfold present. apply bool_decide_eq_false. intros [b Hb].
  unfold file in Hb. apply bind_Some in Hb as (m & Hm & Hb). unfold store in Hm. simpl in Hm.
  apply lookup_singleton_Some in Hm as [_ <-]. apply elem_of_list_to_map_2 in Hb.
  eapply H; [|reflexivity]. apply list_elem_of_fmap. by exists (make_blob_filename uid al "USRSKEY", b).
Qed.

Lemma not_secret_key u a p uid al :
  p ∈ KEY_PREFIXES -> p <> "USRSKEY" -> make_blob_filename u a p <> make_blob_filename uid al "USRSKEY".
Proof.
  intros Hp Hne H. unfold make_blob_filename in H. apply (f_equal split_underscore) in H.
  rewrite !split_digits in H by apply to_string_digits. assert (encode_alias (p +:+ "_" +:+ a) = encode_alias ("USRSKEY" +:+ "_" +:+ al)) as He by congruence.
  apply encode_alias_inj in He. clear H. rename He into H. by apply prefixed_inj in H as [? _]; [|done|known].
Qed.

Definition demo_worker (fs : Fs) : Worker :=
  {| k_shelf := fresh_shelf {[ 1 := repeat 7 16 ]}; k_fs := fs; k_db := empty_tables; k_now := Ok 5; k_tape := repeat 3 200;
     k_draws := [[77]; [78]]; k_gc := false |}.

Definition demo_migrated : Worker := snd (check_and_migrate 100000 1000 (demo_desc "k") (demo_worker legacy_demo_store)).

Lemma demo_migrated_ok : check_and_migrate 100000 1000 (demo_desc "k") (demo_worker legacy_demo_store) = (Ok tt, demo_migrated).
Proof. vm_compute. reflexivity. Qed.

Lemma migration_never_loses_a_key_witness :
  k_fs demo_migrated = legacy_demo_store \/
  is_ok (load_key_entry_id (target 1000 (demo_desc "k")) KeyType.Client (k_db demo_migrated)) = true \/
  obsolete 100000 1000 "k" (demo_worker legacy_demo_store).
Proof.
  apply (migration_never_loses_a_key 100000 1000 (demo_desc "k") (demo_worker legacy_demo_store) (Ok tt) demo_migrated "k").
  - exact empty_wf.
  - reflexivity.
  - exact demo_migrated_ok.
Defined.

Definition demo_legacy_params : list KeyParameter := map (at_level 1) legacy_demo_params ++ map (at_level 100) [NoAuthRequired].

Lemma migrated_key_is_complete_witness :
  exists id info u date,
    migrated_blob 100000 1000 {| blob_flags := 0; blob_value := Decrypted [7; 8] |} (demo_worker legacy_demo_store) info /\
    get_km_uuid (is_strongbox {| blob_flags := 0; blob_value := Decrypted [7; 8] |}) (k_shelf (demo_worker legacy_demo_store)) = Ok u /\
    load_key_entry (target 1000 (demo_desc "k")) KeyType.Client LoadBits.BOTH 1000 demo_check true empty_tables (k_db demo_migrated) =
      Ok (id, stored_entry id demo_legacy_params (info.1, meta_add (KmUuid u) info.2) {| cert := Some [9]; cert_chain := None |}
                (meta_add (CreationDate date) ∅) u) /\
    load_by_uid_alias 100000 (k_fs demo_migrated) 1000 "k" None = Ok (None, None, None).
Proof.
  apply (migrated_key_is_complete 100000 1000 (demo_desc "k") "k" (demo_worker legacy_demo_store) demo_migrated
    {| blob_flags := 0; blob_value := Decrypted [7; 8] |} demo_legacy_params (Some [9]) None None demo_check empty_tables).
  - exact empty_wf.
  - by repeat split.
  - done.
  - vm_compute. reflexivity.
  - intros id _. constructor.
  - intros i u Hu. change (({[1 := repeat 7 16]} : gmap Z Uuid) !! i = Some u) in Hu.
    apply lookup_singleton_Some in Hu as [_ <-]. reflexivity.
  - repeat constructor; vm_compute; congruence.
  - reflexivity.
  - reflexivity.
  - reflexivity.
  - apply not_elem_of_empty.
  - exact legacy_key_roundtrip_run.
  - exact demo_migrated_ok.
Defined.

(** *** The migrator *)

Definition demo_migrator (fs : Fs) : Migrator :=
  set_init {[ 1 := repeat 7 16 ]} (new_migrator fs (Ok 5) (repeat 3 200) [[77]; [78]]).

Lemma demo_migrator_reachable fs s : mig_reachable (demo_migrator fs, s).
Proof. eapply mig_next; [apply mig_start|apply step_init]. Qed.

(** One request that empties the store, seen from the state after it. *)
Definition demo_emptied : Migrator * Tables :=
  snd (bulk_delete_uid 100000 0 1000 (demo_migrator legacy_demo_store, empty_tables)).

Lemma migrator_states_witness :
  m_state demo_emptied.1 = STATE_EMPTY /\ mig_inv demo_emptied.1.
Proof.
  split; [vm_compute; reflexivity|].
  assert (mig_reachable (demo_emptied.1, demo_emptied.2)) as Hr.
  { eapply mig_next; [apply (demo_migrator_reachable legacy_demo_store empty_tables)|].
    eapply (step_request _ (bulk_delete 100000 (BulkUid 1000) false) _ (Ok (Some tt))). vm_compute. reflexivity. }
  destruct (migrator_states _ _ Hr) as [Hi _]. exact Hi.
Defined.

Definition broken_store : Fs := {| dirs := ∅; root_broken := true; broken_dirs := ∅; broken_files := ∅ |}.

Lemma failed_initialization_is_permanent_witness :
  exists m', do_serialized (list_uid_request 100000 1000) (demo_migrator broken_store, empty_tables) =
      (Err OtherError, (m', empty_tables)) /\
    do_serialized (list_uid_request 100000 1000) (m', empty_tables) = (Err err_sys, (m', empty_tables)).
Proof.
  destruct (failed_initialization_is_permanent 100000 (list_uid_request 100000 1000) (demo_migrator broken_store) empty_tables
    {[ 1 := repeat 7 16 ]} (demo_desc "k") 1000 (throw OtherError : sr _ _ unit) eq_refl eq_refl eq_refl) as (m' & H1 & H2).
  exists m'. split; [exact H1|]. destruct m'. by destruct (H2 m_fs empty_tables _ eq_refl).
Defined.

Definition cert_store : Fs := store [(make_blob_filename 1000 "c" "USRCERT", plain_file (Generic [9]))].
Definition demo_bulk : Worker := snd (bulk_delete 100000 (BulkUser 0) false (demo_worker cert_store)).

Lemma bulk_delete_exact_witness :
  (forall e, listed 100000 (BulkUser 0) cert_store e -> doomed 100000 false cert_store e = true -> gone 100000 (k_fs demo_bulk) e) /\
  listed 100000 (BulkUser 0) cert_store (1000, "c").
Proof.
  split.
  - apply (bulk_delete_exact 100000 (BulkUser 0) false (demo_worker cert_store) demo_bulk).
    + by repeat split.
    + apply single_store. intros f uid al ->%list_elem_of_singleton. apply not_secret_key; [known|done].
    + done.
    + vm_compute. reflexivity.
  - eexists. split; [vm_compute; reflexivity|]. set_solver.
Defined.

Lemma bulk_deleted_blob_uuid_witness :
  (∅ : BlobMetaData) !! BlobMetaTag.KmUuid = None <->
  exists d, blob_value {| blob_flags := 0; blob_value := Decrypted [7] |} = Decrypted d.
Proof.
  apply (bulk_deleted_blob_uuid (fresh_shelf ∅) None {| blob_flags := 0; blob_value := Decrypted [7] |} [7] ∅). reflexivity.
Defined.

Definition demo_super_migrated : Worker := snd (check_and_migrate_super_key 0 [112] (demo_worker demo_super_store)).

Lemma super_key_migrates_witness :
  exists id e, Database.load_super_key USER_SUPER_KEY_alias 0 (k_db demo_super_migrated) = Ok (Some (id, e)) /\
    decrypt_entry e [112] = Ok [1; 2] /\ LegacyFs.has_super_key (k_fs demo_super_migrated) 0 = false /\
    has_super_key_request 0 demo_super_migrated = (Ok true, demo_super_migrated).
Proof.
  apply (super_key_migrates 0 [112] [1; 2] (demo_worker demo_super_store) demo_super_migrated).
  - exact empty_wf.
  - intros id _. constructor.
  - by repeat split.
  - vm_compute. reflexivity.
  - apply not_elem_of_empty.
  - vm_compute. reflexivity.
  - vm_compute. reflexivity.
Defined.

(** User 0 has a legacy super key and is reset before ever unlocking. *)
Definition demo_legacy_sys : Sys unit Migrator :=
  {| g_skm := new_skm; g_world := {| w_db := empty_tables; w_km := tt; w_gc := false |}; g_tape := repeat 3 100;
     g_legacy := set_m_state STATE_READY (set_m_shelf (Some (fresh_shelf {[ 1 := repeat 7 16 ]})) (demo_migrator demo_super_store)) |}.

Lemma legacy_super_key_outlives_reset_witness :
  exists g', @reset_user _ _ _ (migrator_legacy 100000) 100000 0 false demo_legacy_sys = (Ok tt, g') /\
    fst (@user_state_get _ _ _ (migrator_legacy 100000) 0 g') = Ok LskfLocked.
Proof.
  eexists. split; [vm_compute; reflexivity|].
  apply (legacy_super_key_outlives_reset 100000 0 demo_legacy_sys _ (fresh_shelf {[ 1 := repeat 7 16 ]})).
  - exact empty_wf.
  - by repeat split.
  - apply single_store. intros f uid al ->%list_elem_of_singleton H. symmetry in H. by apply digits_not_dot in H.
  - reflexivity.
  - reflexivity.
  - reflexivity.
  - vm_compute. reflexivity.
Defined.
End Examples.
