(* ===== verification/LegacyKeystore.v ===== *)
(** * The legacy keystore ([keystore2/legacykeystore/lib.rs])

    A store of opaque entries per uid (VPN profiles, Wi-Fi certificates) with
    its own SQLite table, which takes over entries of Keystore 1.0 from the
    legacy files when they are first used.  [profiles] is the table, whose
    key is unique; SQLite errors are not modelled.

    Legacy files are touched by a worker thread only.  A job that panics ends
    the thread for good ([worker_alive]): its own requester gets an error, and
    every later request waits forever, which is the outcome [None]. *)

From stdpp Require Import base list gmap strings sorting.
From Stdlib Require Import ZArith Lia.
From S2P Require Import Prelude Aidl Errors KeyParameter Database Crypto RawDevice SuperKey LegacyAlias LegacyBlob LegacyFs LegacyList.

(** Error codes of ILegacyKeystore. *)
Inductive LkCode := ERROR_SYSTEM_ERROR | ERROR_ENTRY_NOT_FOUND | ERROR_PERMISSION_DENIED.
#[global] Instance LkCode_eq_dec : EqDecision LkCode.
Proof. solve_decision. Defined.

(** [Error], and errors of other modules. *)
Inductive LkError := LkErr (c : LkCode) | LkBinder | LkOther.

(** [map_or_log_err]: the status the client sees, and whether it is logged. *)
Definition map_or_log_err {A} (r : result LkError A) : result (LkCode * bool) A :=
  map_err (fun e => match e with
                    | LkErr ERROR_ENTRY_NOT_FOUND => (ERROR_ENTRY_NOT_FOUND, false)
                    | LkErr c => (c, true)
                    | LkBinder | LkOther => (ERROR_SYSTEM_ERROR, true)
                    end) r.

Record Lk := {
  profiles : gmap (Z * string) bytes;
  recently_imported : gset (Z * string);
  lk_fs : Fs;
  worker_alive : bool
}.

(** Calls that may block. *)
Definition call (A : Type) : Type := Lk -> option (result LkError A * Lk).
#[global] Instance call_ret : MRet call := fun A a s => Some (Ok a, s).
#[global] Instance call_bind : MBind call := fun A B f m s =>
  match m s with
  | Some (Ok a, s') => f a s'
  | Some (Err e, s') => Some (Err e, s')
  | Some (Panic, s') => Some (Panic, s')
  | None => None
  end.
Definition call_lift {A} (r : result LkError A) : call A := fun s => Some (r, s).
(** [let _ = m]: the error is dropped. *)
Definition ignore {A} (m : call A) : call unit := fun s =>
  match m s with
  | Some (Panic, s') => Some (Panic, s')
  | Some (_, s') => Some (Ok tt, s')
  | None => None
  end.

(** ** The table *)

Definition set_profiles (f : gmap (Z * string) bytes -> gmap (Z * string) bytes) (s : Lk) : Lk :=
  {| profiles := f (profiles s); recently_imported := recently_imported s; lk_fs := lk_fs s; worker_alive := worker_alive s |}.

Definition db_list (caller_uid : Z) : call (list string) := fun s =>
  Some (Ok (merge_sort String.le (omap (fun e : Z * string * bytes => if e.1.1 =? caller_uid then Some e.1.2 else None)
                                   (map_to_list (profiles s)))), s).
Definition db_put (caller_uid : Z) (al : string) (entry : bytes) : call unit := fun s =>
  Some (Ok tt, set_profiles (insert (caller_uid, al) entry) s).
Definition db_get (caller_uid : Z) (al : string) : call (option bytes) := fun s =>
  Some (Ok (profiles s !! (caller_uid, al)), s).
Definition db_remove (caller_uid : Z) (al : string) : call bool := fun s =>
  Some (Ok (bool_decide (is_Some (profiles s !! (caller_uid, al)))), set_profiles (delete (caller_uid, al)) s).
Definition db_remove_uid (uid : Z) : call unit := fun s =>
  Some (Ok tt, set_profiles (filter (fun e : Z * string * bytes => e.1.1 <> uid)) s).
(** [DELETE ... WHERE cast((owner/AID_USER_OFFSET) as int) = user_id]. *)
Definition db_remove_user (off user_id : Z) : call unit := fun s =>
  Some (Ok tt, set_profiles (filter (fun e : Z * string * bytes => Z.quot e.1.1 off <> user_id)) s).

(** ** The service *)

Definition UID_SELF : Z := 2^32 - 1.
Definition AID_SYSTEM : Z := 1000.
Definition AID_WIFI : Z := 1010.
Definition WIFI_NAMESPACE : Z := 102.

Definition get_effective_uid (calling_uid uid : Z) : result LkError Z :=
  let uid := as_u32 uid in
  if (uid =? UID_SELF) || (uid =? calling_uid) then Ok calling_uid
  else if (calling_uid =? AID_SYSTEM) && (uid =? AID_WIFI) then Ok AID_WIFI
  else Err (LkErr ERROR_PERMISSION_DENIED).

(** A job on the worker's state. *)
Record Job := { j_recent : gset (Z * string); j_fs : Fs; j_profiles : gmap (Z * string) bytes }.

Definition do_serialized {A} (f : sr Job LegacyError A) : call A := fun s =>
  if worker_alive s then
    let '(r, j) := f {| j_recent := recently_imported s; j_fs := lk_fs s; j_profiles := profiles s |} in
    Some (match r with Ok a => Ok a | Err _ | Panic => Err LkOther end,
          {| profiles := j_profiles j; recently_imported := j_recent j; lk_fs := j_fs j;
             worker_alive := match r with Panic => false | _ => true end |})
  else None.

Section Service.
Context {AI : Aidl} {BO : Boring} (off : Z).

Definition on_files {A} (m : sr Fs LegacyError A) : sr Job LegacyError A := fun j =>
  let '(r, fs) := m (j_fs j) in (r, {| j_recent := j_recent j; j_fs := fs; j_profiles := j_profiles j |}).
Definition read_files {A} (f : Fs -> result LegacyError A) : sr Job LegacyError A := fun j => (f (j_fs j), j).

Definition list_legacy (uid : Z) : call (list string) :=
  do_serialized (read_files (fun fs => list_legacy_keystore_entries_for_uid off fs uid)).

Definition migrate_one_legacy_entry (uid : Z) (al : string) : sr Job LegacyError bool :=
  blob ← read_files (fun fs => read_legacy_keystore_entry off fs uid al);
  match blob with
  | Some entry =>
    _ ← modify (fun j => {| j_recent := j_recent j; j_fs := j_fs j; j_profiles := <[(uid, al) := entry]> (j_profiles j) |});
    _ ← on_files (remove_legacy_keystore_entry off uid al);
    mret true
  | None => mret false
  end.

Definition get_legacy (uid : Z) (al : string) : call bool :=
  do_serialized (
    recent ← gets (fun j => bool_decide ((uid, al) ∈ j_recent j));
    if (recent : bool) then mret true
    else
      migrated ← migrate_one_legacy_entry uid al;
      if (migrated : bool) then
        _ ← modify (fun j => {| j_recent := {[ (uid, al) ]} ∪ j_recent j; j_fs := j_fs j; j_profiles := j_profiles j |});
        mret true
      else mret false).

(** A warning is logged for an entry that cannot be removed. *)
Definition try_remove (e : Z * string) : sr Job LegacyError unit := fun j =>
  match on_files (remove_legacy_keystore_entry off e.1 e.2) j with
  | (Panic, j') => (Panic, j')
  | (_, j') => (Ok tt, j')
  end.

Definition bulk_delete_uid (uid : Z) : call unit :=
  do_serialized (
    entries ← read_files (fun fs => list_legacy_keystore_entries_for_uid off fs uid);
    sr_for try_remove ((fun al => (uid, al)) <$> entries)).

Definition bulk_delete_user (user_id : Z) : call unit :=
  do_serialized (
    listed ← read_files (fun fs => list_legacy_keystore_entries_for_user fs user_id);
    sr_for try_remove (entries listed)).

Definition get (calling_uid : Z) (al : string) (uid : Z) : call bytes :=
  uid ← call_lift (get_effective_uid calling_uid uid);
  found ← db_get uid al;
  match found with
  | Some entry => mret entry
  | None =>
    migrated ← get_legacy uid al;
    found ← (if (migrated : bool) then db_get uid al else mret None);
    call_lift (ok_or found (LkErr ERROR_ENTRY_NOT_FOUND))
  end.

Definition put (calling_uid : Z) (al : string) (uid : Z) (entry : bytes) : call unit :=
  uid ← call_lift (get_effective_uid calling_uid uid);
  _ ← ignore (get_legacy uid al);
  db_put uid al entry.

Definition remove (calling_uid : Z) (al : string) (uid : Z) : call unit :=
  uid ← call_lift (get_effective_uid calling_uid uid);
  _ ← ignore (get_legacy uid al);
  removed ← db_remove uid al;
  if (removed : bool) then mret tt else call_lift (Err (LkErr ERROR_ENTRY_NOT_FOUND)).

Definition list_entries (calling_uid : Z) (prefix : string) (uid : Z) : call (list string) :=
  uid ← call_lift (get_effective_uid calling_uid uid);
  legacy ← list_legacy uid;
  entries ← db_list uid;
  mret (dedup (merge_sort String.le (filter (fun s => starts_with s prefix = true) (legacy ++ entries)))).

Definition delete_namespace (d namespace : Z) : call unit :=
  let delete uid := _ ← ignore (bulk_delete_uid uid); db_remove_uid uid in
  if d =? val Domain.APP then delete (as_u32 namespace)
  else if d =? val Domain.SELINUX then
    if namespace =? WIFI_NAMESPACE then delete AID_WIFI else mret tt
  else mret tt.

Definition delete_user (user_id : Z) : call unit :=
  _ ← ignore (bulk_delete_user user_id);
  db_remove_user off user_id.
End Service.

(** ** The legacy file of an entry *)

Section Entries.
Context {AI : Aidl} {BO : Boring} (off : Z).
Implicit Types (fs : Fs) (s : Lk).

Definition legacy_entry fs (u : Z) (a : string) : option bytes :=
  match read_legacy_keystore_entry off fs u a with Ok o => o | _ => None end.

Lemma remove_legacy_spec fs u a :
  healthy fs -> 0 <= u -> exists fs', remove_legacy_keystore_entry off u a fs = (Ok tt, fs') /\ healthy fs' /\
    forall u' a', 0 <= u' ->
      read_legacy_keystore_entry off fs' u' a' =
      if decide ((u', a') = (u, a)) then Ok None else read_legacy_keystore_entry off fs u' a'.
Proof.
  intros Hh Hu. unfold remove_legacy_keystore_entry, read_legacy_keystore_entry, make_legacy_keystore_entry_filename.
  destruct (is_keystore_alias a) eqn:Ha.
  { exists fs. split_and!; [done|done|]. intros u' a' _. case_decide as He; [|done]. simplify_eq. by rewrite Ha. }
  set (f := to_string u +:+ "_" +:+ encode_alias a). unfold mbind at 1, sr_bind at 1.
  destruct (remove_file_spec fs (dir_of off u) f LegacyError Hh) as (f1 & -> & Hh1 & Hf).
  assert (exists fs', (match (if file fs (dir_of off u) f then None else Some NotFound) with
      | Some NotFound => mret tt | Some _ => throw IoError | None => remove_user_dir_if_empty (uid_to_android_user off u) end) f1
      = (Ok tt, fs') /\ healthy fs' /\ forall d f', file fs' d f' = file f1 d f') as (fs' & -> & Hh' & Hsame).
  { destruct (file fs (dir_of off u) f).
    - destruct (remove_user_dir_spec f1 (uid_to_android_user off u) Hh1) as (f2 & H & Hh2 & _ & Hf2). eauto.
    - eauto. }
  exists fs'. split_and!; [done|done|]. intros u' a' Hu'. destruct (is_keystore_alias a') eqn:Ha'.
  { by case_decide. }
  set (f' := to_string u' +:+ "_" +:+ encode_alias a').
  assert (file fs' (dir_of off u') f' = if decide ((u', a') = (u, a)) then None else file fs (dir_of off u') f') as Hff.
  { rewrite Hsame, Hf. case_decide as H1; case_decide as H2; try done.
    - destruct H2. destruct H1 as [_ H1]. by apply entry_name_inj in H1 as [-> ->].
    - destruct H1. by simplify_eq. }
  case_decide as He.
  - by rewrite read_absent.
  - by rewrite (read_generic_ext fs' fs).
Qed.

(** ** The state the service promises to keep *)

(** The worker runs, the files can be read, and an entry that was imported
    has no file any more. *)
Record lk_ok s : Prop := {
  lk_alive : worker_alive s = true;
  lk_healthy : healthy (lk_fs s);
  lk_readable : forall u a, 0 <= u -> is_ok (read_legacy_keystore_entry off (lk_fs s) u a) = true;
  lk_recent : forall u a, 0 <= u -> (u, a) ∈ recently_imported s -> legacy_entry (lk_fs s) u a = None
}.

Lemma get_legacy_spec s u a :
  lk_ok s -> 0 <= u -> exists b s', get_legacy off u a s = Some (Ok b, s') /\ lk_ok s' /\
    profiles s' = match legacy_entry (lk_fs s) u a with Some e => <[(u, a) := e]> (profiles s) | None => profiles s end /\
    (b = false -> legacy_entry (lk_fs s) u a = None) /\
    (forall u' a', 0 <= u' -> legacy_entry (lk_fs s') u' a' =
       if decide ((u', a') = (u, a)) then None else legacy_entry (lk_fs s) u' a').
Proof.
  intros [Hal Hh Hr Hrec] Hu. unfold get_legacy, do_serialized. rewrite Hal.
  unfold mbind at 1, sr_bind at 1, gets. simpl. destruct (bool_decide _) eqn:Hb.
  { apply bool_decide_eq_true in Hb. exists true, s. rewrite (Hrec u a Hu Hb). split_and!; try done.
    - destruct s. simpl in *. by rewrite <- Hal.
    - intros u' a' Hu'. destruct (decide (_ = _)) as [He|]; [simplify_eq; by apply Hrec|done]. }
  unfold migrate_one_legacy_entry, mbind, sr_bind, read_files, legacy_entry in *. simpl.
  pose proof (Hr u a Hu) as Hok. destruct (read_legacy_keystore_entry off (lk_fs s) u a) as [[e|]| |] eqn:Hrd; try done.
  - destruct (remove_legacy_spec (lk_fs s) u a Hh Hu) as (fs' & Hrm & Hh' & Hrd').
    unfold modify, on_files, mret, sr_ret. simpl. rewrite Hrm. simpl. eexists _, _. split; [done|]. split_and!; simpl; try done.
    + constructor; simpl; [done|done| |].
      * intros u' a' Hu'. rewrite Hrd' by done. destruct (decide (_ = _)); [done|by apply Hr].
      * intros u' a' Hu' Hin. unfold legacy_entry. rewrite Hrd' by done. destruct (decide (_ = _)); [done|]. apply Hrec; [done|set_solver].
    + intros u' a' Hu'. rewrite Hrd' by done. by destruct (decide (_ = _)).
  - unfold mret, sr_ret. exists false, s. split; [destruct s; simpl in *; by rewrite <- Hal|]. split_and!; try done.
    intros u' a' Hu'. destruct (decide (_ = _)) as [He|]; [|done]. simplify_eq. by rewrite Hrd.
Qed.

(** ** Refinement

    To its clients the service is one map from uid and alias to entries. *)

Definition Store : Type := Z * string -> option bytes.

Inductive Op := OpGet (al : string) | OpPut (al : string) (entry : bytes) | OpRemove (al : string).

Definition update (m : Store) (k : Z * string) (v : option bytes) : Store := fun k' => if decide (k' = k) then v else m k'.

(** What the abstract store does for a caller that may act as [uid]. *)
Definition spec_op (uid : Z) (o : Op) (m : Store) : result LkError (option bytes) * Store :=
  match o with
  | OpGet al => (Some <$> ok_or (m (uid, al)) (LkErr ERROR_ENTRY_NOT_FOUND), m)
  | OpPut al entry => (Ok None, update m (uid, al) (Some entry))
  | OpRemove al => (match m (uid, al) with Some _ => Ok None | None => Err (LkErr ERROR_ENTRY_NOT_FOUND) end,
                    update m (uid, al) None)
  end.
Definition spec (calling_uid uid : Z) (o : Op) (m : Store) : result LkError (option bytes) * Store :=
  match get_effective_uid calling_uid uid with
  | Ok uid => spec_op uid o m
  | Err e => (Err e, m)
  | Panic => (Panic, m)
  end.

Definition run_op (calling_uid uid : Z) (o : Op) : call (option bytes) :=
  match o with
  | OpGet al => e ← get off calling_uid al uid; mret (Some e)
  | OpPut al entry => _ ← put off calling_uid al uid entry; mret None
  | OpRemove al => _ ← remove off calling_uid al uid; mret None
  end.

(** The table first, then the legacy files. *)
Definition view s : Store := fun k =>
  match profiles s !! k with Some e => Some e | None => legacy_entry (lk_fs s) k.1 k.2 end.
Definition refines s (m : Store) : Prop := forall k, 0 <= k.1 -> view s k = m k.

Lemma effective_uid_nonneg c uid u : 0 <= c -> get_effective_uid c uid = Ok u -> 0 <= u.
Proof. unfold get_effective_uid, AID_WIFI. intros Hc H. repeat case_match; simplify_eq; lia. Qed.

Lemma get_refines u al s m : lk_ok s -> refines s m -> 0 <= u ->
  exists s', (found ← db_get u al;
    match found with
    | Some entry => mret entry
    | None => migrated ← get_legacy off u al; found ← (if (migrated : bool) then db_get u al else mret None);
              call_lift (ok_or found (LkErr ERROR_ENTRY_NOT_FOUND))
    end) s = Some (ok_or (m (u, al)) (LkErr ERROR_ENTRY_NOT_FOUND), s') /\ lk_ok s' /\ refines s' m.
Proof.
  intros Hok Hr Hu. unfold mbind at 1, call_bind at 1, db_get at 1. pose proof (Hr (u, al) Hu) as Hv. unfold view in Hv.
  destruct (profiles s !! (u, al)) as [e|] eqn:Hp; [rewrite <- Hv; eauto|].
  destruct (get_legacy_spec s u al Hok Hu) as (b & s' & Hg & Hok' & Hp' & Hb & Hl). unfold mbind at 1, call_bind at 1. rewrite Hg.
  exists s'. split_and!; [|done|].
  - simpl in Hv. rewrite <- Hv. destruct b; unfold mbind, call_bind, db_get, mret, call_ret, call_lift.
    + rewrite Hp'. destruct (legacy_entry (lk_fs s) u al); [by rewrite lookup_insert_eq|by rewrite Hp].
    + by rewrite Hb.
  - intros [u' a'] Hu'. rewrite <- Hr by done. unfold view. simpl in *. rewrite Hp', Hl by done.
    destruct (decide ((u', a') = (u, al))) as [He|Hne].
    + simplify_eq. rewrite Hp. destruct (legacy_entry (lk_fs s) u al); [by rewrite lookup_insert_eq|by rewrite Hp].
    + destruct (legacy_entry (lk_fs s) u al); [|done]. by rewrite lookup_insert_ne.
Qed.

(** The table after an entry was replaced or removed, the legacy file being gone. *)
Lemma update_refines s s1 m u al v f :
  lk_ok s1 -> refines s m -> 0 <= u ->
  profiles s1 = match legacy_entry (lk_fs s) u al with Some e => <[(u, al) := e]> (profiles s) | None => profiles s end ->
  (forall u' a', 0 <= u' -> legacy_entry (lk_fs s1) u' a' =
     if decide ((u', a') = (u, al)) then None else legacy_entry (lk_fs s) u' a') ->
  (forall p k, f p !! k = if decide (k = (u, al)) then v else p !! k) ->
  lk_ok (set_profiles f s1) /\ refines (set_profiles f s1) (update m (u, al) v).
Proof.
  intros Hok1 Hr Hu Hp Hl Hf. split; [by destruct Hok1; constructor|].
  intros [u' a'] Hu'. unfold view, update. simpl in *. rewrite Hf, Hl by done.
  destruct (decide ((u', a') = (u, al))) as [He|Hne]; [by destruct v|].
  rewrite <- Hr by done. unfold view. simpl. rewrite Hp.
  destruct (legacy_entry (lk_fs s) u al); [by rewrite lookup_insert_ne|done].
Qed.

(** C31: The legacy keystore refines a map.  As long as the files can be read,
    getting, putting and removing entries through the service does exactly
    what the same operations do on one map from uid and alias to entries;
    taking over a legacy file is invisible, a caller reaches only its own
    entries (the system server also those of Wi-Fi), and no call blocks. *)
Theorem legacy_keystore_refines_map c uid o s m :
  lk_ok s -> refines s m -> 0 <= c ->
  exists s', run_op c uid o s = Some (fst (spec c uid o m), s') /\ lk_ok s' /\ refines s' (snd (spec c uid o m)).
Proof.
  intros Hok Hr Hc. unfold run_op, spec, get, put, remove.
  destruct (get_effective_uid c uid) as [u|e|] eqn:He; [|by destruct o; eexists..].
  pose proof (effective_uid_nonneg _ _ _ Hc He) as Hu.
  destruct o as [al|al entry|al]; unfold mbind at 1, call_bind at 1; unfold mbind at 1, call_bind at 1; cbn [call_lift].
  - destruct (get_refines u al s m Hok Hr Hu) as (s' & -> & Hok' & Hr'). exists s'. simpl.
    by destruct (m (u, al)).
  - destruct (get_legacy_spec s u al Hok Hu) as (b & s1 & Hg & Hok1 & Hp & _ & Hl).
    unfold mbind at 1, call_bind at 1, ignore at 1. rewrite Hg. eexists. split; [done|].
    apply (update_refines s); try done. intros p k. destruct (decide (k = (u, al))) as [->|];
      [by rewrite lookup_insert_eq|by rewrite lookup_insert_ne].
  - destruct (get_legacy_spec s u al Hok Hu) as (b & s1 & Hg & Hok1 & Hp & _ & Hl).
    unfold mbind at 1, call_bind at 1, ignore at 1. rewrite Hg. unfold mbind at 1, call_bind at 1, db_remove at 1.
    destruct (update_refines s s1 m u al None (delete (u, al))) as [Hok2 Hr2]; try done.
    { intros p k. destruct (decide (k = (u, al))) as [->|]; [by rewrite lookup_delete_eq|by rewrite lookup_delete_ne]. }
    assert (bool_decide (is_Some (profiles s1 !! (u, al))) = bool_decide (is_Some (m (u, al)))) as ->.
    { rewrite <- (Hr (u, al)) by done. unfold view. simpl. rewrite Hp.
      destruct (legacy_entry (lk_fs s) u al); [rewrite lookup_insert_eq|]; by destruct (profiles s !! (u, al)). }
    eexists. split; [|by split]. simpl. by destruct (m (u, al)).
Qed.

(** ** Deleting a user *)

Lemma try_remove_spec j e :
  healthy (j_fs j) -> 0 <= e.1 -> exists fs', try_remove off e j =
    (Ok tt, {| j_recent := j_recent j; j_fs := fs'; j_profiles := j_profiles j |}) /\ healthy fs' /\
    forall u a, 0 <= u -> read_legacy_keystore_entry off fs' u a =
      if decide ((u, a) = e) then Ok None else read_legacy_keystore_entry off (j_fs j) u a.
Proof.
  destruct e as [u a]. intros Hh Hu. unfold try_remove, on_files.
  destruct (remove_legacy_spec (j_fs j) u a Hh Hu) as (fs' & Hrm & Hh' & Hrd). simpl. rewrite Hrm. eauto.
Qed.

Lemma remove_all_spec l j :
  healthy (j_fs j) -> Forall (fun e : Z * string => 0 <= e.1) l -> exists fs', sr_for (try_remove off) l j =
    (Ok tt, {| j_recent := j_recent j; j_fs := fs'; j_profiles := j_profiles j |}) /\ healthy fs' /\
    forall u a, 0 <= u -> read_legacy_keystore_entry off fs' u a =
      if decide ((u, a) ∈ l) then Ok None else read_legacy_keystore_entry off (j_fs j) u a.
Proof.
  revert j. induction l as [|e l IH]; intros j Hh Hl.
  { exists (j_fs j). split_and!; [by destruct j|done|]. intros u a _. by rewrite decide_False by set_solver. }
  inversion Hl as [|? ? He Hl']; subst. simpl. destruct (try_remove_spec j e Hh He) as (f1 & H1 & Hh1 & Hr1).
  unfold mbind, sr_bind. rewrite H1.
  destruct (IH {| j_recent := j_recent j; j_fs := f1; j_profiles := j_profiles j |} Hh1 Hl') as (f2 & H2 & Hh2 & Hr2).
  exists f2. split_and!; [done|done|]. intros u a Hu. rewrite Hr2 by done. simpl. rewrite Hr1 by done.
  repeat case_decide; set_solver.
Qed.

(** The entry files of a user's directory belong to uids of that user. *)
Definition placed fs (user : Z) : Prop :=
  canonical (dir fs (make_user_path_name user)) /\
  forall u a, 0 <= u -> is_Some (dir fs (make_user_path_name user) !! entry_name u a) -> u / off = user.

Lemma extract_legacy_encoded x y :
  extract_legacy_alias (encode_alias x) = Some y <-> is_keystore_alias x = false /\ utf8_valid x = true /\ x = y.
Proof.
  unfold extract_legacy_alias. rewrite is_keystore_alias_encoded. destruct (is_keystore_alias x); [naive_solver|].
  unfold decode_alias. rewrite decode_encode_bytes. cbn [mbind result_bind].
  destruct (utf8_valid x) eqn:Hx; simpl; naive_solver.
Qed.

Lemma listed_legacy fs user :
  healthy fs -> placed fs user -> exists m, list_legacy_keystore_entries_for_user fs user = Ok m /\
    (forall u a, a ∈ default ∅ (m !! u) -> 0 <= u /\ u / off = user) /\
    (forall u a, u32_range u -> utf8_valid a = true -> is_keystore_alias a = false ->
       is_Some (dir fs (make_user_path_name user) !! entry_name u a) -> a ∈ default ∅ (m !! u)).
Proof.
  intros Hh [Hc Hp]. destruct (list_user_healthy fs user Hh) as (l & Hl & Hfl).
  unfold list_legacy_keystore_entries_for_user, list_entries_for_user. rewrite Hl. simpl. eexists. split; [done|]. split.
  - intros u a. rewrite elem_of_add_entries, lookup_empty. simpl. rewrite elem_of_empty, list_elem_of_omap.
    intros [(f & [_ Hf]%Hfl & Hx)|[]]. destruct (Hc f Hf) as [(u' & s & Hu' & ->)|[t ->]].
    + rewrite entry_of_name in Hx by done. apply fmap_Some in Hx as (y & _ & ?). simplify_eq.
      split; [apply Hu'|]. eapply Hp; [apply Hu'|done].
    + by rewrite (proj2 (split_dot t)) in Hx.
  - intros u a Hu Ha Hk Hs. rewrite elem_of_add_entries. left. apply list_elem_of_omap. exists (entry_name u a).
    split; [apply Hfl; split; [apply utf8_entry_name|done]|]. rewrite entry_of_name by done. apply fmap_Some.
    exists a. split; [by apply extract_legacy_encoded|done].
Qed.

(** Deleting a user deletes the user's entries and nobody else's: afterwards
    no uid of the user has an entry, in the table or in a legacy file, the
    entries of all other users are as before, and the service goes on. *)
Theorem delete_user_exact s user :
  lk_ok s -> placed (lk_fs s) user -> 0 < off ->
  exists s', delete_user off user s = Some (Ok tt, s') /\ lk_ok s' /\
    (forall u a, u32_range u -> utf8_valid a = true -> u / off = user -> view s' (u, a) = None) /\
    (forall u a, 0 <= u -> u / off <> user -> view s' (u, a) = view s (u, a)).
Proof.
  intros [Hal Hh Hr Hrec] Hpl Hoff. destruct (listed_legacy (lk_fs s) user Hh Hpl) as (m & Hm & Hm1 & Hm2).
  unfold delete_user, mbind at 1, call_bind at 1, ignore, bulk_delete_user, do_serialized. rewrite Hal.
  unfold mbind, sr_bind, read_files. simpl. rewrite Hm.
  destruct (remove_all_spec (entries m) {| j_recent := recently_imported s; j_fs := lk_fs s; j_profiles := profiles s |})
    as (fs' & Hrun & Hh' & Hrd); [done| |].
  { apply Forall_forall. intros [u a] Hin%elem_of_entries. by apply Hm1 in Hin as [? _]. }
  simpl in *. rewrite Hrun. eexists. split; [done|]. split; [|split].
  - constructor; simpl; [done|done| |].
    + intros u a Hu. rewrite Hrd by done. case_decide; [done|by apply Hr].
    + intros u a Hu Hin. unfold legacy_entry. rewrite Hrd by done. case_decide; [done|by apply Hrec].
  - intros u a Hu Ha Huser. unfold view. simpl.
    assert (filter (fun e : Z * string * bytes => Z.quot e.1.1 off <> user) (profiles s) !! (u, a) = None) as ->.
    { apply map_lookup_filter_None. right. intros x _. simpl. rewrite Z.quot_div_nonneg by (destruct Hu; lia). by intros []. }
    unfold legacy_entry. rewrite Hrd by apply Hu. case_decide as Hin; [done|].
    rewrite elem_of_entries in Hin.
    destruct (is_keystore_alias a) eqn:Hk.
    { unfold read_legacy_keystore_entry, make_legacy_keystore_entry_filename. by rewrite Hk. }
    assert (file (lk_fs s) (dir_of off u) (entry_name u a) = None) as Hf.
    { destruct (file _ _ _) eqn:Hf; [|done]. exfalso. apply Hin, Hm2; [done|done|done|].
      unfold file, dir_of, uid_to_android_user in Hf. rewrite Huser in Hf. unfold dir.
      destruct (dirs (lk_fs s) !! make_user_path_name user); [by eexists|done]. }
    unfold read_legacy_keystore_entry, make_legacy_keystore_entry_filename. rewrite Hk.
    fold (entry_name u a). by rewrite read_absent.
  - intros u a Hu Huser. unfold view. simpl.
    assert (filter (fun e : Z * string * bytes => Z.quot e.1.1 off <> user) (profiles s) !! (u, a) = profiles s !! (u, a)) as ->.
    { apply option_eq. intros x. rewrite map_lookup_filter_Some. simpl. rewrite Z.quot_div_nonneg by lia. naive_solver. }
    unfold legacy_entry. rewrite Hrd by done. case_decide as Hin; [|done].
    exfalso. apply elem_of_entries, Hm1 in Hin as [_ ?]. done.
Qed.
End Entries.

(** ** Examples *)

Section Examples.
#[local] Existing Instances aidl_published toy_boring.

Definition lk_store (l : list (string * bytes)) : Lk :=
  {| profiles := ∅; recently_imported := ∅; lk_fs := store l; worker_alive := true |}.

(** One directory entry with a name shorter than the uid stops the service:
    the first listing reports an error, and from then on a request for an
    entry that is not in the table never returns. *)
Theorem short_name_stops_the_service b al :
  exists s', list_entries 100000 1000 "" UID_SELF (lk_store [(entry_name 7 "a", b)]) = Some (Err LkOther, s') /\
    get 100000 1000 al UID_SELF s' = None.
Proof. eexists. split; [vm_compute; reflexivity|]. reflexivity. Qed.

(** A VPN profile of uid 1000 in a legacy file. *)
Definition demo_lk : Lk := lk_store [(entry_name 1000 "vpn", plain_file (Generic [9]))].

Lemma demo_lk_files u a f :
  make_legacy_keystore_entry_filename u a = Some f -> 0 <= u ->
  file (lk_fs demo_lk) (dir_of 100000 u) f = if decide ((u, a) = (1000, "vpn")) then Some (plain_file (Generic [9])) else None.
Proof.
  unfold make_legacy_keystore_entry_filename. case_match; intros; simplify_eq. fold (entry_name u a).
  case_decide as He; [simplify_eq; vm_compute; reflexivity|].
  destruct (file _ _ _) eqn:Hf; [|done]. exfalso. apply He. unfold file in Hf. apply bind_Some in Hf as (m & Hm & Hf).
  change (dirs (lk_fs demo_lk)) with ({[ "user_0" := {[entry_name 1000 "vpn" := plain_file (Generic [9])]} ]} : gmap string (gmap string bytes)) in Hm.
  apply lookup_singleton_Some in Hm as [_ <-]. apply lookup_singleton_Some in Hf as [Hf _].
  apply entry_name_inj in Hf as [<- <-]; [done|lia|done].
Qed.

Lemma demo_lk_ok : lk_ok 100000 demo_lk.
Proof.
  assert (healthy (lk_fs demo_lk)) as Hh by by repeat split.
  constructor; [done|done| |by intros u a _ ?%not_elem_of_empty].
  intros u a Hu. unfold read_legacy_keystore_entry. destruct (make_legacy_keystore_entry_filename u a) as [f|] eqn:Hf; [|done].
  apply demo_lk_files in Hf; [|done]. unfold read_generic_blob. rewrite open_healthy, Hf by done. by case_decide.
Qed.

Lemma legacy_keystore_refines_map_witness :
  fst (spec 1000 UID_SELF (OpGet "vpn") (view 100000 demo_lk)) = Ok (Some [9]) /\
  exists s', run_op 100000 1000 UID_SELF (OpGet "vpn") demo_lk = Some (fst (spec 1000 UID_SELF (OpGet "vpn") (view 100000 demo_lk)), s') /\
    lk_ok 100000 s' /\ refines 100000 s' (snd (spec 1000 UID_SELF (OpGet "vpn") (view 100000 demo_lk))).
Proof.
  split; [vm_compute; reflexivity|].
  apply (legacy_keystore_refines_map 100000 1000 UID_SELF (OpGet "vpn") demo_lk (view 100000 demo_lk)).
  - exact demo_lk_ok.
  - by intros k _.
  - lia.
Defined.

Lemma delete_user_exact_witness :
  view 100000 demo_lk (1000, "vpn") = Some [9] /\
  exists s', delete_user 100000 0 demo_lk = Some (Ok tt, s') /\ view 100000 s' (1000, "vpn") = None.
Proof.
  split; [vm_compute; reflexivity|].
  assert (placed 100000 (lk_fs demo_lk) 0) as Hp.
  { assert (forall f, is_Some (dir (lk_fs demo_lk) (make_user_path_name 0) !! f) -> f = entry_name 1000 "vpn") as Hd.
    { intros f [b Hb]. change (dir (lk_fs demo_lk) (make_user_path_name 0))
        with ({[entry_name 1000 "vpn" := plain_file (Generic [9])]} : gmap string bytes) in Hb.
      by apply lookup_singleton_Some in Hb as [<- _]. }
    split; [intros f Hf; left; exists 1000, "vpn"; split; [unfold u32_range; lia|by apply Hd]|].
    intros u a Hu Hs%Hd. apply entry_name_inj in Hs as [-> _]; [done|done|lia]. }
  destruct (delete_user_exact 100000 demo_lk 0 demo_lk_ok Hp ltac:(lia)) as (s' & Hd & _ & Hv & _).
  exists s'. split; [exact Hd|]. apply Hv; [unfold u32_range; lia|reflexivity|reflexivity].
Defined.
End Examples.
