(* ===== verification/AsyncTask.v ===== *)
(** * The async task ([keystore2/src/async_task.rs])

    One worker thread at a time runs queued jobs, high priority first.  Each
    section under the mutex is one step of a transition system; the job and
    the idle callbacks run between such sections.  [shelf] is in the shared
    state only while there is no worker. *)

From stdpp Require Import base list.
From Stdlib Require Import Lia.
From S2P Require Import Prelude.

Inductive State := Exiting | Running.
#[global] Instance State_eq_dec : EqDecision State.
Proof. solve_decision. Defined.

Section AsyncTask.
(** What jobs do to the shelf; [None] is a panic. *)
Context {Job Shelf : Type} (run : Job -> Shelf -> option Shelf) (empty_shelf : Shelf).

(** Where the worker thread is: before taking the shelf, in its loop, running
    a job, running the idle callbacks, gone after its time out, or gone by a
    panic.  [Joining old] is the worker [old] while a caller of [spawn_thread]
    waits for its end; the caller holds the mutex, and [old] needs the mutex
    to end, so that neither gets further. *)
Inductive Thread :=
| Starting
| Loop (shelf : Shelf) (done_idle : bool)
| Busy (job : Job) (shelf : Shelf)
| Idling (idle_fns : list Job) (shelf : Shelf)
| Exited
| Panicked
| Joining (old : Thread).

Record AsyncTaskState := {
  state : State;
  thread : option Thread;
  hi_prio_req : list Job;
  lo_prio_req : list Job;
  idle_fns : list Job;
  shelf : option Shelf
}.

Definition new : AsyncTaskState :=
  {| state := Exiting; thread := None; hi_prio_req := []; lo_prio_req := []; idle_fns := []; shelf := None |}.

(** [spawn_thread]: joins the old thread first, which is a panic if that one
    panicked, and has no end if that one is alive. *)
Definition spawn_thread (s : AsyncTaskState) : result unit AsyncTaskState :=
  match thread s with
  | Some Panicked => Panic
  | Some Exited | None =>
    Ok {| state := Running; thread := Some Starting; hi_prio_req := hi_prio_req s; lo_prio_req := lo_prio_req s;
          idle_fns := idle_fns s; shelf := shelf s |}
  | Some old =>
    Ok {| state := state s; thread := Some (Joining old); hi_prio_req := hi_prio_req s; lo_prio_req := lo_prio_req s;
          idle_fns := idle_fns s; shelf := shelf s |}
  end.

Definition queue (f : Job) (hi_prio : bool) (s : AsyncTaskState) : result unit AsyncTaskState :=
  let s := {| state := state s; thread := thread s;
              hi_prio_req := if hi_prio then hi_prio_req s ++ [f] else hi_prio_req s;
              lo_prio_req := if hi_prio then lo_prio_req s else lo_prio_req s ++ [f]; idle_fns := idle_fns s; shelf := shelf s |} in
  if decide (state s <> Running) then spawn_thread s else Ok s.
Definition queue_hi (f : Job) : AsyncTaskState -> result unit AsyncTaskState := queue f true.
Definition queue_lo (f : Job) : AsyncTaskState -> result unit AsyncTaskState := queue f false.

Definition add_idle (f : Job) (s : AsyncTaskState) : AsyncTaskState :=
  {| state := state s; thread := thread s; hi_prio_req := hi_prio_req s; lo_prio_req := lo_prio_req s;
     idle_fns := idle_fns s ++ [f]; shelf := shelf s |}.

(** The idle callbacks, one after the other. *)
Fixpoint run_idle (fns : list Job) (sh : Shelf) : option Shelf :=
  match fns with [] => Some sh | f :: fns => run f sh ≫= run_idle fns end.

Definition set_thread (t : Thread) (s : AsyncTaskState) : AsyncTaskState :=
  {| state := state s; thread := Some t; hi_prio_req := hi_prio_req s; lo_prio_req := lo_prio_req s;
     idle_fns := idle_fns s; shelf := shelf s |}.

(** The next action of the worker.  [timed_out] is the result of waiting on
    the condition variable; a wait that neither timed out nor found a job
    starts over. *)
Definition worker_step (timed_out : bool) (s : AsyncTaskState) : option AsyncTaskState :=
  match thread s with
  | Some Starting =>
    Some {| state := state s; thread := Some (Loop (default empty_shelf (shelf s)) false);
            hi_prio_req := hi_prio_req s; lo_prio_req := lo_prio_req s; idle_fns := idle_fns s; shelf := None |}
  | Some (Loop sh done_idle) =>
    match hi_prio_req s, lo_prio_req s with
    | f :: hi, lo =>
      Some {| state := state s; thread := Some (Busy f sh); hi_prio_req := hi; lo_prio_req := lo;
              idle_fns := idle_fns s; shelf := shelf s |}
    | [], f :: lo =>
      Some {| state := state s; thread := Some (Busy f sh); hi_prio_req := []; lo_prio_req := lo;
              idle_fns := idle_fns s; shelf := shelf s |}
    | [], [] =>
      if negb done_idle then Some (set_thread (Idling (idle_fns s) sh) s)
      else if timed_out then
        Some {| state := Exiting; thread := Some Exited; hi_prio_req := []; lo_prio_req := []; idle_fns := idle_fns s;
                shelf := Some sh |}
      else Some s
    end
  | Some (Busy f sh) =>
    Some (set_thread (match run f sh with Some sh => Loop sh false | None => Panicked end) s)
  | Some (Idling fns sh) =>
    Some (set_thread (match run_idle fns sh with Some sh => Loop sh true | None => Panicked end) s)
  | Some Exited | Some Panicked | Some (Joining _) | None => None
  end.

(** ** Executions

    [queued] and [started] record what was queued and what was started, [ran]
    the jobs and idle callbacks that ran to their end, in order. *)

Record History := {
  now : AsyncTaskState;
  queued_hi : list Job;
  queued_lo : list Job;
  started_hi : list Job;
  started_lo : list Job;
  ran : list Job
}.

(** The job the worker takes in a step, with its priority. *)
Definition taken (s : AsyncTaskState) : option (Job * bool) :=
  match thread s, hi_prio_req s, lo_prio_req s with
  | Some (Loop _ _), f :: _, _ => Some (f, true)
  | Some (Loop _ _), [], f :: _ => Some (f, false)
  | _, _, _ => None
  end.

(** What runs to its end in a step of the worker. *)
Definition finished (s : AsyncTaskState) : list Job :=
  match thread s with
  | Some (Busy f sh) => match run f sh with Some _ => [f] | None => [] end
  | Some (Idling fns sh) => match run_idle fns sh with Some _ => fns | None => [] end
  | _ => []
  end.

(** The mutex is free between the steps, unless a caller waits for a worker. *)
Definition mutex_free (s : AsyncTaskState) : Prop := match thread s with Some (Joining _) => False | _ => True end.

Inductive step : History -> History -> Prop :=
| step_queue f hi_prio h s' :
    mutex_free (now h) -> queue f hi_prio (now h) = Ok s' ->
    step h {| now := s'; queued_hi := if hi_prio then queued_hi h ++ [f] else queued_hi h;
              queued_lo := if hi_prio then queued_lo h else queued_lo h ++ [f];
              started_hi := started_hi h; started_lo := started_lo h; ran := ran h |}
| step_add_idle f h :
    mutex_free (now h) ->
    step h {| now := add_idle f (now h); queued_hi := queued_hi h; queued_lo := queued_lo h;
              started_hi := started_hi h; started_lo := started_lo h; ran := ran h |}
| step_work timed_out h s' :
    worker_step timed_out (now h) = Some s' ->
    step h {| now := s'; queued_hi := queued_hi h; queued_lo := queued_lo h;
              started_hi := match taken (now h) with Some (f, true) => started_hi h ++ [f] | _ => started_hi h end;
              started_lo := match taken (now h) with Some (f, false) => started_lo h ++ [f] | _ => started_lo h end;
              ran := ran h ++ finished (now h) |}.

Definition start : History :=
  {| now := new; queued_hi := []; queued_lo := []; started_hi := []; started_lo := []; ran := [] |}.

Inductive reachable : History -> Prop :=
| reach_start : reachable start
| reach_step h h' : reachable h -> step h h' -> reachable h'.

(** The shelf, wherever it is: with the worker, or in the shared state for the
    next one.  It is lost with a worker that panicked. *)
Definition shelf_now (s : AsyncTaskState) : option Shelf :=
  match thread s with
  | Some (Loop sh _) | Some (Busy _ sh) | Some (Idling _ sh) => Some sh
  | Some Starting | Some Exited | None => Some (default empty_shelf (shelf s))
  | Some Panicked | Some (Joining _) => None
  end.

(** What holds after any sequence of steps. *)
Record inv (h : History) : Prop := {
  inv_hi : queued_hi h = started_hi h ++ hi_prio_req (now h);
  inv_lo : queued_lo h = started_lo h ++ lo_prio_req (now h);
  (* a worker runs exactly while the state says so, unless a job panicked *)
  inv_worker : match thread (now h) with
               | Some (Starting | Loop _ _ | Busy _ _ | Idling _ _ | Panicked) => state (now h) = Running
               | Some Exited | None => state (now h) = Exiting /\ hi_prio_req (now h) = [] /\ lo_prio_req (now h) = []
               | Some (Joining _) => False
               end;
  (* the shelf is with the worker or in the shared state *)
  inv_shelf : match thread (now h) with Some (Loop _ _ | Busy _ _ | Idling _ _ | Panicked) => shelf (now h) = None | _ => True end;
  (* and holds what the jobs so far made of it *)
  inv_ran : forall sh, shelf_now (now h) = Some sh -> run_idle (ran h) empty_shelf = Some sh
}.

Lemma run_idle_app l l' sh : run_idle (l ++ l') sh = run_idle l sh ≫= run_idle l'.
Proof. revert sh. induction l as [|f l IH]; intros sh; simpl; [done|]. destruct (run f sh); simpl; auto. Qed.

(** Queueing does not touch the shelf. *)
Lemma inv_queue h f hp s' : inv h -> queue f hp (now h) = Ok s' ->
  inv {| now := s'; queued_hi := if hp then queued_hi h ++ [f] else queued_hi h;
         queued_lo := if hp then queued_lo h else queued_lo h ++ [f];
         started_hi := started_hi h; started_lo := started_lo h; ran := ran h |}.
Proof.
  intros [H1 H2 H3 H4 H5] Hq. unfold queue, spawn_thread, shelf_now in *. case_decide as Hst; simpl in *.
  - destruct (thread (now h)) as [[]|] eqn:Ht; simplify_eq; try (by destruct Hst); constructor; simpl; try done;
      rewrite ?H1, ?H2; destruct hp; by rewrite ?app_assoc.
  - simplify_eq.
    constructor; simpl; [rewrite H1; destruct hp; by rewrite ?app_assoc|rewrite H2; destruct hp; by rewrite ?app_assoc| |done|done].
    destruct (thread (now h)) as [[]|]; try done; destruct H3 as [H3 _]; congruence.
Qed.

(** A step of the worker runs what it finishes on the shelf. *)
Lemma work_ran t h s' : inv h -> worker_step t (now h) = Some s' ->
  forall sh, shelf_now s' = Some sh -> run_idle (ran h ++ finished (now h)) empty_shelf = Some sh.
Proof.
  intros [_ _ _ _ H5] Hw sh. rewrite run_idle_app. unfold worker_step, shelf_now, finished in *.
  destruct (thread (now h)) as [[|sh0 d|f sh0|fns sh0| | |]|] eqn:Ht; simplify_eq/=; try done; rewrite ?(H5 _ eq_refl); simpl.
  - done.
  - destruct (hi_prio_req (now h)), (lo_prio_req (now h)), d, t; simplify_eq/=; rewrite ?Ht; congruence.
  - destruct (run f sh0) as [sh1|] eqn:E; simpl; [|done]. rewrite E. done.
  - destruct (run_idle fns sh0) as [sh1|] eqn:E; simpl; [|done]. rewrite E. done.
Qed.

Lemma inv_step h h' : inv h -> step h h' -> inv h'.
Proof.
  intros Hi Hs. inversion Hs as [f hp ? s' _ Hq|f ? _|t ? s' Hw]; subst; [by apply inv_queue|by destruct Hi; constructor|].
  pose proof (work_ran t h s' Hi Hw) as Hr. destruct Hi as [H1 H2 H3 H4 _].
  unfold worker_step, taken in *. destruct (thread (now h)) as [[| | | | | |]|] eqn:Ht; simplify_eq; try done.
  - destruct (hi_prio_req (now h)) as [|f hi] eqn:Hhi; [destruct (lo_prio_req (now h)) as [|f lo] eqn:Hlo|].
    + destruct done_idle, t; simplify_eq/=; constructor; simpl; rewrite ?Ht, ?Hhi, ?Hlo; try done; by rewrite ?H1, ?H2.
    + simplify_eq. constructor; simpl; try done. rewrite H2, <- app_assoc. done.
    + simplify_eq. constructor; simpl; try done. rewrite H1, <- app_assoc. done.
  - constructor; simpl; try done; by destruct (run _ _).
  - constructor; simpl; try done; by destruct (run_idle _ _).
Qed.

Lemma reachable_inv h : reachable h -> inv h.
Proof.
  induction 1; [|by eapply inv_step]. by constructor.
Qed.

(** Nobody ever waits for a live worker. *)
Lemma reachable_free h : reachable h -> mutex_free (now h).
Proof. intros [_ _ H _ _]%reachable_inv. unfold mutex_free. by destruct (thread (now h)) as [[]|]. Qed.

(** C34: Jobs run in order.  Whatever is queued when, by any number of threads: the
    high priority jobs are started in the order they were queued, the low
    priority jobs too, none twice; what was not started is still queued; a low
    priority job is started only when no high priority job waits; a worker is
    never joined while it is alive, which would have no end; and as long as no
    job panicked, the shelf the next job gets is the one all jobs and idle
    callbacks so far left, each applied once to the result of the one before,
    however many workers came and went. *)
Theorem jobs_run_in_order h :
  reachable h ->
  queued_hi h = started_hi h ++ hi_prio_req (now h) /\
  queued_lo h = started_lo h ++ lo_prio_req (now h) /\
  (forall f, taken (now h) = Some (f, false) -> started_hi h = queued_hi h) /\
  mutex_free (now h) /\
  match shelf_now (now h) with
  | Some sh => run_idle (ran h) empty_shelf = Some sh
  | None => thread (now h) = Some Panicked
  end.
Proof.
  intros Hr. pose proof (reachable_inv h Hr) as [H1 H2 H3 H4 H5]. split_and!; [done|done| | |].
  - intros f Ht. unfold taken in Ht. destruct (thread (now h)) as [[]|]; try done.
    destruct (hi_prio_req (now h)); [|done]. by rewrite H1, app_nil_r.
  - by apply reachable_free.
  - unfold shelf_now in *. destruct (thread (now h)) as [[]|]; try done; by apply H5.
Qed.

(** ** Progress *)

Definition waiting (s : AsyncTaskState) : nat := length (hi_prio_req s) + length (lo_prio_req s).
Fixpoint work (n : nat) (s : AsyncTaskState) : AsyncTaskState :=
  match n with O => s | S n => match worker_step false s with Some s' => work n s' | None => s end end.

Lemma run_idle_total fns sh : (forall f sh, is_Some (run f sh)) -> is_Some (run_idle fns sh).
Proof. intros Hr. revert sh. induction fns as [|f fns IH]; intros sh; simpl; [eauto|]. destruct (Hr f sh) as [x ->]. simpl. auto. Qed.

(** Steps until the worker is back in its loop. *)
Lemma to_loop s :
  (forall f sh, is_Some (run f sh)) ->
  (match thread s with Some (Starting | Loop _ _ | Busy _ _ | Idling _ _) => True | _ => False end) ->
  exists n sh d, (n <= 1)%nat /\ thread (work n s) = Some (Loop sh d) /\
    hi_prio_req (work n s) = hi_prio_req s /\ lo_prio_req (work n s) = lo_prio_req s.
Proof.
  intros Hr Ht. destruct (thread s) as [[|sh d|f sh|fns sh| | |]|] eqn:E; try done.
  - exists 1%nat. unfold work, worker_step. rewrite E. simpl. eauto 8.
  - exists 0%nat. simpl. eauto 8.
  - exists 1%nat. unfold work, worker_step. rewrite E. destruct (Hr f sh) as [x ->]. simpl. eauto 8.
  - exists 1%nat. unfold work, worker_step. rewrite E. destruct (run_idle_total fns sh Hr) as [x ->]. simpl. eauto 8.
Qed.

Lemma work_add n k s : work (n + k) s = work k (work n s).
Proof.
  revert s. induction n as [|n IH]; intros s; [done|]. simpl. destruct (worker_step false s) as [s'|] eqn:E; [apply IH|].
  destruct k; [done|]. simpl. by rewrite E.
Qed.

(** A live worker starts everything that waits. *)
Lemma work_drains k s :
  (forall f sh, is_Some (run f sh)) -> waiting s = k ->
  (match thread s with Some (Starting | Loop _ _ | Busy _ _ | Idling _ _) => True | _ => False end) ->
  exists n, (n <= 2 * k)%nat /\ waiting (work n s) = 0%nat.
Proof.
  intros Hr. revert s. induction k as [|k IH]; intros s Hk Ht; [exists 0%nat; simpl; lia|].
  destruct (to_loop s Hr Ht) as (n & sh & d & Hn & Hth & Hhi & Hlo).
  assert (exists s', worker_step false (work n s) = Some s' /\ waiting s' = k /\
    match thread s' with Some (Starting | Loop _ _ | Busy _ _ | Idling _ _) => True | _ => False end) as (s' & Hs' & Hk' & Ht').
  { unfold worker_step. rewrite Hth, Hhi, Hlo. unfold waiting in *.
    destruct (hi_prio_req s) as [|f hi]; [destruct (lo_prio_req s) as [|f lo]|]; simpl in *; [lia|..];
      eexists; (split; [done|]); simpl; split; try done; lia. }
  destruct (IH s' Hk' Ht') as (n' & Hn' & Hw). exists (n + S n')%nat. split; [lia|].
  rewrite work_add. simpl. by rewrite Hs'.
Qed.

(** Nothing that is queued is forgotten.  If no job panics, then in every
    reachable state with jobs waiting there is a worker, and within two steps
    per job it has started all of them. *)
Theorem queued_jobs_are_started h :
  (forall f sh, is_Some (run f sh)) ->
  reachable h -> thread (now h) <> Some Panicked ->
  exists n, (n <= 2 * waiting (now h))%nat /\ waiting (work n (now h)) = 0%nat.
Proof.
  intros Hr Hre Hp. pose proof (reachable_inv h Hre) as [_ _ Hw _ _].
  destruct (thread (now h)) as [[]|] eqn:Ht; try done; try (apply work_drains; by rewrite ?Ht);
    (exists 0%nat; unfold waiting; simpl; destruct Hw as (_ & -> & ->); simpl; lia).
Qed.

(** A job that panics ends the task for good.  The state stays [Running]
    although there is no worker, so that no worker is ever started again and
    the join that would report the panic is never reached: jobs are accepted
    without an error, and none of them is ever started. *)
Theorem panic_stops_the_task h h' :
  reachable h -> thread (now h) = Some Panicked -> step h h' ->
  thread (now h') = Some Panicked /\ started_hi h' = started_hi h /\ started_lo h' = started_lo h /\
  (forall f hi_prio, exists s, queue f hi_prio (now h) = Ok s).
Proof.
  intros Hre Ht Hs. pose proof (reachable_inv h Hre) as [_ _ Hw _ _]. rewrite Ht in Hw.
  assert (forall f hi_prio, exists s, queue f hi_prio (now h) = Ok s /\ thread s = Some Panicked) as Hq.
  { intros f hp. unfold queue. simpl. rewrite decide_False by (intros E; by apply E). eauto. }
  assert (forall f hi_prio, exists s, queue f hi_prio (now h) = Ok s) as Hq2 by (intros f0 hp0; destruct (Hq f0 hp0) as (s0 & ? & _); eauto).
  inversion Hs as [f hp ? s' _ Hq'|f ? _|t ? s' Hw']; subst; simpl.
  - destruct (Hq f hp) as (s & Hs1 & Hs2). rewrite Hq' in Hs1. simplify_eq. by split_and!.
  - by split_and!.
  - unfold worker_step in Hw'. by rewrite Ht in Hw'.
Qed.
End AsyncTask.

(** Jobs that put numbers on the shelf; the job 13 panics. *)
Definition demo_run (j : nat) (sh : list nat) : option (list nat) := if decide (j = 13%nat) then None else Some (sh ++ [j]).

(** Runs of the task: [inl (f, hi_prio)] queues a job, [inr timed_out] is a step
    of the worker. *)
Fixpoint play (l : list (nat * bool + bool)) (h : History (Job := nat) (Shelf := list nat)) : option (History (Job := nat) (Shelf := list nat)) :=
  match l with
  | [] => Some h
  | inl (f, hp) :: l =>
    match queue f hp (now h) with
    | Ok s' => play l {| now := s'; queued_hi := if hp then queued_hi h ++ [f] else queued_hi h;
                         queued_lo := if hp then queued_lo h else queued_lo h ++ [f];
                         started_hi := started_hi h; started_lo := started_lo h; ran := ran h |}
    | _ => None
    end
  | inr timed_out :: l =>
    match worker_step demo_run [] timed_out (now h) with
    | Some s' => play l {| now := s'; queued_hi := queued_hi h; queued_lo := queued_lo h;
                started_hi := match taken (now h) with Some (f, true) => started_hi h ++ [f] | _ => started_hi h end;
                started_lo := match taken (now h) with Some (f, false) => started_lo h ++ [f] | _ => started_lo h end;
                ran := ran h ++ finished demo_run (now h) |}
    | None => None
    end
  end.

Lemma play_reachable l h h' : reachable demo_run [] h -> play l h = Some h' -> reachable demo_run [] h'.
Proof.
  revert h. induction l as [|[[f hp]|t] l IH]; intros h Hr H; simpl in H; [by simplify_eq|..].
  - destruct (queue f hp (now h)) as [s'| |] eqn:E; [|done..]. eapply IH; [|exact H]. eapply reach_step; [exact Hr|].
    constructor; [by eapply reachable_free|done].
  - destruct (worker_step _ _ _ _) as [s'|] eqn:E; [|done]. eapply IH; [|exact H]. eapply reach_step; [exact Hr|].
    by apply (step_work _ _ t).
Qed.

(** A job is done by a first worker, which then times out; then three jobs are
    queued before the second worker takes one, and the low priority one waits. *)
Definition demo_moves : list (nat * bool + bool) :=
  [inl (7%nat, false); inr false; inr false; inr false; inr false; inr false; inr true;
   inl (1%nat, false); inl (2%nat, true); inl (3%nat, true); inr false; inr false; inr false].
Definition demo_jobs : History := default start (play demo_moves start).
Definition panic_moves : list (nat * bool + bool) := [inl (13%nat, true); inr false; inr false; inr false].
Definition demo_panic : History := default start (play panic_moves start).
Lemma demo_jobs_reachable : reachable demo_run [] demo_jobs.
Proof. eapply (play_reachable demo_moves start); [apply reach_start|]. vm_compute. reflexivity. Qed.
Lemma demo_panic_reachable : reachable demo_run [] demo_panic.
Proof. eapply (play_reachable panic_moves start); [apply reach_start|]. vm_compute. reflexivity. Qed.

Lemma jobs_run_in_order_witness :
  started_hi demo_jobs = [2%nat] /\ hi_prio_req (now demo_jobs) = [3%nat] /\ lo_prio_req (now demo_jobs) = [1%nat] /\
  queued_hi demo_jobs = started_hi demo_jobs ++ hi_prio_req (now demo_jobs) /\
  ran demo_jobs = [7%nat; 2%nat] /\ shelf_now [] (now demo_jobs) = Some [7%nat; 2%nat] /\
  run_idle demo_run (ran demo_jobs) [] = Some [7%nat; 2%nat].
Proof.
  destruct (jobs_run_in_order demo_run [] demo_jobs demo_jobs_reachable) as (H1 & _ & _ & _ & H2).
  split_and!; [reflexivity..|exact H1|reflexivity|reflexivity|exact H2].
Defined.

(** Jobs that do not panic. *)
Definition quiet_run (j : nat) (sh : list nat) : option (list nat) := Some (sh ++ [j]).

Lemma queued_jobs_are_started_witness :
  exists n, (n <= 2)%nat /\ waiting (work quiet_run [] n {| state := Running; thread := Some Starting; hi_prio_req := [];
    lo_prio_req := [7%nat]; idle_fns := []; shelf := None |}) = 0%nat.
Proof.
  assert (reachable quiet_run [] {| now := {| state := Running; thread := Some Starting; hi_prio_req := [];
    lo_prio_req := [7%nat]; idle_fns := []; shelf := None |}; queued_hi := []; queued_lo := [7%nat]; started_hi := []; started_lo := []; ran := [] |}) as Hr.
  { eapply reach_step; [apply reach_start|]. by apply (step_queue _ _ 7%nat false start). }
  apply (queued_jobs_are_started quiet_run [] _ (fun f sh => ex_intro _ _ eq_refl) Hr).
  discriminate.
Defined.

Lemma panic_stops_the_task_witness :
  exists s, queue 5%nat true (now demo_panic) = Ok s /\ thread s = Some Panicked.
Proof.
  assert (exists s, queue 5%nat true (now demo_panic) = Ok s) as [s Hs] by (vm_compute; eauto).
  exists s. split; [exact Hs|].
  exact (proj1 (panic_stops_the_task demo_run [] demo_panic _ demo_panic_reachable eq_refl
    (step_queue _ _ 5%nat true demo_panic s (reachable_free _ _ _ demo_panic_reachable) Hs))).
Defined.
