(* ===== verification/Gc.v ===== *)
(** * The garbage collector task ([keystore2/src/gc.rs])

    One blob is destroyed per step of the async task: taken from the batch
    last fetched, or from a new batch of at most twenty; its row is deleted
    with the next fetch.  A step that destroyed something queues the next.
    What [invalidate_key] does with the KeyMint device is a parameter; the
    calls are logged in [invalidated].  The flag [notified] keeps at most one
    step in the queue; the second part treats it as the threads use it. *)

From stdpp Require Import base list gmap strings.
From Stdlib Require Import ZArith Lia.
From S2P Require Import Prelude Aidl Errors Sql KeyParameter BootLevelKeys DbTypes Database DbInvariant DbKeys DbGc Crypto RawDevice SuperKey.

(** [Vec::pop]. *)
Definition pop {A} (l : list A) : option (A * list A) :=
  match rev l with [] => None | x :: r => Some (x, rev r) end.

Lemma pop_Some {A} (l l' : list A) x : pop l = Some (x, l') -> l = l' ++ [x].
Proof.
  unfold pop. destruct (rev l) as [|y r] eqn:E; intros; simplify_eq.
  by rewrite <- (rev_involutive l), E.
Qed.
Lemma pop_None {A} (l : list A) : pop l = None -> l = [].
Proof. unfold pop. destruct (rev l) as [|y r] eqn:E; intros; simplify_eq. by rewrite <- (rev_involutive l), E. Qed.

Section Gc.
Context {AI : Aidl} `{BO : Boring} (invalidate_key : Uuid -> bytes -> result AnyError unit).

Record GcInternal := {
  deleted_blob_ids : list Z;
  superseded_blobs : list (Z * bytes * BlobMetaData);
  gc_db : Tables;
  gc_super_key : Skm;
  invalidated : list (Uuid * bytes)
}.

(** [new_init_with] puts the state on the shelf unless there is one. *)
Definition new_init_with (init : Tables * Skm) (shelf : option GcInternal) : option GcInternal :=
  match shelf with
  | Some g => Some g
  | None => Some {| deleted_blob_ids := []; superseded_blobs := []; gc_db := init.1; gc_super_key := init.2; invalidated := [] |}
  end.

Definition fetch : sr GcInternal AnyError unit := fun g =>
  match superseded_blobs g with
  | [] =>
    match handle_next_superseded_blobs (deleted_blob_ids g) 20 (gc_db g) with
    | (Ok (_, blobs), s) =>
      (Ok tt, {| deleted_blob_ids := []; superseded_blobs := blobs; gc_db := s; gc_super_key := gc_super_key g;
                 invalidated := invalidated g |})
    | (Err e, s) =>
      (Err e, {| deleted_blob_ids := deleted_blob_ids g; superseded_blobs := []; gc_db := s; gc_super_key := gc_super_key g;
                 invalidated := invalidated g |})
    | (Panic, s) => (Panic, g)
    end
  | _ => (Ok tt, g)
  end.

Definition destroy_one : sr GcInternal AnyError unit := fun g =>
  match pop (superseded_blobs g) with
  | None => (Ok tt, g)
  | Some ((blob_id, blob, blob_metadata), rest) =>
    let ids := deleted_blob_ids g ++ [blob_id] in
    match km_uuid_of blob_metadata with
    | None =>
      (Ok tt, {| deleted_blob_ids := ids; superseded_blobs := rest; gc_db := gc_db g; gc_super_key := gc_super_key g;
                 invalidated := invalidated g |})
    | Some uuid =>
      let '(r, k) := unwrap_key_if_required blob_metadata blob (gc_super_key g) in
      match r with
      | Ok b =>
        (invalidate_key uuid (deref b),
         {| deleted_blob_ids := ids; superseded_blobs := rest; gc_db := gc_db g; gc_super_key := k;
            invalidated := invalidated g ++ [(uuid, deref b)] |})
      | Err e =>
        (Err e, {| deleted_blob_ids := ids; superseded_blobs := rest; gc_db := gc_db g; gc_super_key := k;
                   invalidated := invalidated g |})
      | Panic => (Panic, g)
      end
    end
  end.

Definition process_one_key : sr GcInternal AnyError unit :=
  _ ← fetch;
  destroy_one.

(** [step] answers whether it queued the next one.  [notified]: whether
    another thread called [notify_gc] since the step reset the flag; [alive]:
    whether the task is still there. *)
Definition gc_step (notified alive : bool) : sr GcInternal AnyError bool := fun g =>
  match process_one_key g with
  | (Panic, g') => (Panic, g')
  | (_, g') => (Ok (negb (bool_decide (deleted_blob_ids g' = [])) && alive && negb notified), g')
  end.

(** The steps that follow a notification, until none is queued, while nobody
    else writes to the database or notifies the collector.  A notification in
    between queues the next step in the collector's place, which the second
    part shows; what other threads write between two steps is not part of
    this run: [gc_step_ok] is about each step by itself, from any state in
    order. *)
Fixpoint gc_run (fuel : nat) (g : GcInternal) : option GcInternal :=
  match fuel with
  | O => None
  | S fuel =>
    match gc_step false true g with
    | (Ok true, g') => gc_run fuel g'
    | (Ok false, g') => Some g'
    | _ => None
    end
  end.

(** ** No panic *)

Lemma ok_or_calm {E A} (o : option A) (e : E) : ok_or o e <> Panic.
Proof. by destruct o. Qed.
Lemma bind_calm {E A B} (r : result E A) (f : A -> result E B) : r <> Panic -> (forall a, f a <> Panic) -> r ≫= f <> Panic.
Proof. destruct r; simpl; auto. Qed.
Lemma crypto_err_calm {A} (r : result CryptoError A) : r <> Panic -> crypto_err r <> Panic.
Proof. by destruct r. Qed.

Ltac calm :=
  repeat first [apply ok_or_calm|apply crypto_err_calm|apply bind_calm; [|intros ?]|discriminate|case_match].

Lemma grow_calm n ks : ks <> [] -> (grow hkdf n ks).1 <> Panic /\ ((grow hkdf n ks).1 = Ok tt -> length (grow hkdf n ks).2 = (length ks + n)%nat).
Proof.
  revert ks. induction n as [|n IH]; intros ks Hne; simpl; [split; [done|lia]|].
  destruct (last ks) as [k|] eqn:Hl; [|by apply last_None in Hl].
  assert (advance hkdf k <> Panic) as Hk by (unfold advance, hkdf, hkdf_expand; by destruct (HKDFExpand _ _ _)).
  destruct (advance hkdf k) as [k'| |]; [|done..].
  destruct (IH (ks ++ [k'])) as [H1 H2]; [by destruct ks|]. split; [done|]. intros E. rewrite H2 by done.
  rewrite length_app. simpl. lia.
Qed.

Lemma get_hkdf_key_calm c l : (get_hkdf_key hkdf c l).1 <> Panic.
Proof.
  unfold get_hkdf_key. destruct (level_accessible c l) eqn:Hacc; [|done]. simpl.
  apply level_accessible_spec in Hacc as [Hle Hne].
  destruct (grow _ _ _) as [r ks] eqn:Hg.
  destruct (grow_calm (Z.to_nat (l + 1 - (current c + Z.of_nat (length (cache c))))) (cache c) Hne) as [H1 H2].
  rewrite Hg in H1, H2. simpl in *. destruct r as [[]| |]; [|done..]. specialize (H2 eq_refl).
  destruct (lookup_lt_is_Some_2 ks (Z.to_nat (l - current c))) as [k Hk]; [lia|]. by rewrite Hk.
Qed.

(** Opening a blob never panics, whatever the manager holds. *)
Lemma unwrap_calm m b k : (unwrap_key_if_required m b k).1 <> Panic.
Proof.
  assert (forall sk : SuperKey, unwrap_key_with_key b m sk <> Panic) as Hu.
  { intros sk. unfold unwrap_key_with_key, sk_aes_gcm_decrypt, from_private_key, ec_key_parse_private_key, decrypt_message,
      agree_key, aes_gcm_decrypt, hkdf_expand, hkdf_extract, ecdh_compute_key, public_key, ec_point_point_to_oct, ec_point_oct_to_point.
    calm. }
  unfold unwrap_key_if_required. destruct (from_metadata m) as [i|]; [|done].
  assert ((lookup_key i k).1 <> Panic) as Hl.
  { unfold lookup_key. destruct i as [id|level]; [done|]. destruct (boot_level_key_cache k) as [c|]; [|done].
    unfold aes_key, expand_key. pose proof (get_hkdf_key_calm c (as_u64 level)) as Hg.
    destruct (get_hkdf_key _ _ _) as [r c']. simpl in Hg. destruct r as [[kk|]| |]; [|done..].
    simpl. unfold hkdf, hkdf_expand. by destruct (HKDFExpand _ _ _). }
  unfold mbind, sr_bind. destruct (lookup_key i k) as [[o| |] k1]; [|done..]. simpl in *.
  unfold lift. destruct o as [sk|]; [|done]. simpl. specialize (Hu sk). by destruct (unwrap_key_with_key b m sk).
Qed.

(** ** The invariant *)

Definition pending (g : GcInternal) : list Z := deleted_blob_ids g ++ ((fun f => f.1.1) <$> superseded_blobs g).
(** The metadata of every blob can be read. *)
Definition readable (s : Tables) : Prop :=
  forall r, r ∈ blobentry s -> exists m : BlobMetaData, meta_load (b_id r) (blobmetadata s) = Ok m.

Record gc_ok (g : GcInternal) : Prop := {
  gc_wf : db_wf (gc_db g);
  gc_readable : readable (gc_db g);
  gc_nodup : NoDup (pending g);
  gc_present : forall id, id ∈ pending g -> id ∈ b_id <$> blobentry (gc_db g);
  gc_only_garbage : only_garbage (pending g) (gc_db g);
  gc_fetched : forall id blob m, (id, blob, m) ∈ superseded_blobs g ->
    meta_load id (blobmetadata (gc_db g)) = Ok m /\ exists r, r ∈ blobentry (gc_db g) /\ b_id r = id /\ b_blob r = blob
}.

Lemma readable_delete (ids : list Z) s (m : list MetaRow) :
  m = delete_where (fun r => bool_decide (m_owner r ∈ ids)) (blobmetadata s) -> readable s ->
  forall r, r ∈ blobentry s -> b_id r ∉ ids -> exists x : BlobMetaData, meta_load (b_id r) m = Ok x.
Proof.
  intros -> Hr r Hin Hid. destruct (Hr r Hin) as [x Hx]. exists x. rewrite <- Hx. unfold meta_load. f_equal.
  rewrite !filter_owner_select. apply select_delete. intros b _ E. bool_prop. apply bool_decide_eq_false. by rewrite E.
Qed.

(** Deleting rows by id. *)
Lemma length_delete_ids (ids : list Z) (l : list BlobRow) :
  NoDup (b_id <$> l) -> NoDup ids -> (forall id, id ∈ ids -> id ∈ b_id <$> l) ->
  (length ids + length (delete_where (fun r => bool_decide (b_id r ∈ ids)) l) <= length l)%nat.
Proof.
  intros Hl Hn Hin. set (rest := delete_where _ l).
  assert (ids ++ (b_id <$> rest) ⊆+ b_id <$> l) as Hs.
  { apply NoDup_submseteq.
    - apply NoDup_app. split; [done|]. split.
      + intros x Hx (r & -> & [_ Hr]%elem_of_delete_where)%list_elem_of_fmap. by apply bool_decide_eq_false in Hr.
      + by apply NoDup_delete_where.
    - intros x [Hx|(r & -> & [Hr _]%elem_of_delete_where)%list_elem_of_fmap]%elem_of_app; [auto|by apply list_elem_of_fmap_2]. }
  apply submseteq_length in Hs. by rewrite length_app, !length_fmap in Hs.
Qed.

(** No key is added, no key is lost but those marked unreferenced, and every
    key that is left loads as before. *)
Record kept (s s' : Tables) : Prop := {
  kept_only : forall r, r ∈ keyentry s' -> r ∈ keyentry s;
  kept_all : forall r, r ∈ keyentry s -> is_unreferenced r = false -> r ∈ keyentry s';
  kept_loads : forall id bits, id ∈ key_ids s' -> load_key_components bits id s' = load_key_components bits id s
}.

Lemma kept_refl s : kept s s.
Proof. done. Qed.
Lemma kept_trans s1 s2 s3 : kept s1 s2 -> kept s2 s3 -> kept s1 s3.
Proof.
  intros [O1 A1 L1] [O2 A2 L2]. constructor; [auto|auto|]. intros id bits Hid. rewrite L2 by done. apply L1.
  apply list_elem_of_fmap in Hid as (r & -> & Hr). by apply list_elem_of_fmap_2, O2.
Qed.

(** Nothing is left to collect. *)
Definition clean (s : Tables) : Prop :=
  (forall r, r ∈ keyentry s -> is_unreferenced r = false) /\ forall r, r ∈ blobentry s -> garbage s r = false.

Lemma handle_total ids n s :
  readable s -> exists found s', handle_next_superseded_blobs ids n s = (Ok (false, found), s').
Proof.
  intros Hr.
  assert (exists s1, sr_for delete_blob ids s = (Ok tt, s1)) as [s1 H1].
  { clear Hr. revert s. induction ids as [|id ids IH]; intros s; [by eexists|]. simpl. apply IH. }
  apply delete_blobs_state in H1 as E1. set (s2 := purge is_unreferenced s1).
  set (rows := take n (select_where (fun r => Database.is_key_blob r && garbage s2 r) (blobentry s2))).
  assert (exists found, try_map (fun r => m ← meta_load (b_id r) (blobmetadata s2);
    Ok (b_id r, b_blob r, m)) rows = Ok (found : list (Z * bytes * BlobMetaData))) as [found Hf].
  { assert (forall r, r ∈ rows -> exists x : BlobMetaData, meta_load (b_id r) (blobmetadata s1) = Ok x) as Hrows.
    { intros r (j & Hj & _)%elem_of_take. apply list_elem_of_lookup_2, elem_of_select_where in Hj as [Hj _].
      simpl in Hj. rewrite E1 in Hj. simpl in Hj. apply elem_of_delete_where in Hj as [Hj Hid]. bool_prop.
      eapply readable_delete; [by rewrite E1|done|done|done]. }
    clearbody rows. unfold s2. simpl. induction rows as [|r rows IH]; [by eexists|].
    destruct (Hrows r) as [x Hx]; [left|]. destruct IH as [fd Hfd]; [intros; apply Hrows; by right|].
    exists ((b_id r, b_blob r, x) :: fd). simpl. by rewrite Hx, Hfd. }
  destruct found as [|f found]; eexists _, _; apply transaction_Ok, sr_bind_Ok; eexists _, _; (split; [exact H1|]);
    (apply sr_bind_Ok; eexists _, _; split; [apply delete_keys_where_purge|]);
    (apply sr_bind_Ok; eexists _, _; split; [reflexivity|]);
    (apply sr_bind_Ok; eexists _, _; split; [unfold query; apply (f_equal2 pair); [exact Hf|reflexivity]|]); reflexivity.
Qed.

Lemma found_ids (Q : BlobRow -> BlobMetaData -> Prop) rows (found : list (Z * bytes * BlobMetaData)) :
  Forall2 (fun r f => f.1 = (b_id r, b_blob r) /\ Q r f.2) rows found -> (fun f => f.1.1) <$> found = b_id <$> rows.
Proof. induction 1 as [|r f rs fs [Hr _] _ IH]; [done|]. simpl. f_equal; [by rewrite Hr|done]. Qed.

(** The batch a successful round returns. *)
Lemma round_found ids n s b found s' :
  db_wf s -> handle_next_superseded_blobs ids n s = (Ok (b, found), s') ->
  NoDup ((fun f => f.1.1) <$> found) /\
  forall id blob m, (id, blob, m) ∈ found -> meta_load id (blobmetadata s') = Ok m /\
    exists r, r ∈ blobentry s' /\ b_id r = id /\ b_blob r = blob /\ garbage s' r = true.
Proof.
  intros Hwf H. pose proof (handle_round _ _ _ _ _ _ H) as (s1 & H1 & Hf & Hs'). simpl in Hf, Hs'.
  pose proof (gc_returns_garbage _ _ _ _ _ _ H) as [_ Hret]. apply delete_blobs_state in H1. split.
  - assert ((fun f => f.1.1) <$> found = b_id <$> take n (select_where (fun r => Database.is_key_blob r && garbage (purge is_unreferenced s1) r) (blobentry s1))) as ->.
    { by apply (found_ids (fun r m => meta_load (b_id r) (blobmetadata s1) = Ok m) _ _ Hf). }
    rewrite fmap_take. eapply sublist_NoDup; [|apply sublist_take]. apply NoDup_fmap_filter. rewrite H1. simpl. apply NoDup_delete_where, Hwf.
  - intros id blob m Hin. destruct (Hret id blob m Hin) as (r & Hr & Hid & Hb & _ & Hg). split; [|eauto].
    apply list_elem_of_lookup in Hin as [i Hi]. destruct (Forall2_lookup_r _ _ _ _ _ Hf Hi) as (r' & _ & He & Hm).
    simpl in *. injection He as -> ->. rewrite <- Hm. by destruct found; subst s'.
Qed.

(** After a fetch of an empty batch: it finds garbage or leaves none. *)
Lemma fetch_ok g :
  gc_ok g -> superseded_blobs g = [] ->
  exists g', fetch g = (Ok tt, g') /\ gc_ok g' /\ deleted_blob_ids g' = [] /\ kept (gc_db g) (gc_db g') /\
    invalidated g' = invalidated g /\
    (length (deleted_blob_ids g) + length (blobentry (gc_db g')) <= length (blobentry (gc_db g)))%nat /\
    (superseded_blobs g' = [] -> clean (gc_db g')).
Proof.
  intros [Hwf Hr Hnd Hp Hg _] Hs. unfold pending in *. rewrite Hs in *. simpl in *. rewrite app_nil_r in *.
  destruct (handle_total (deleted_blob_ids g) 20 (gc_db g) Hr) as (found & s' & H).
  unfold fetch. rewrite Hs, H. eexists. split; [reflexivity|]. simpl.
  pose proof (triple_final _ _ _ _ _ (handle_next_superseded_blobs_wf (deleted_blob_ids g) 20) Hwf H) as Hwf'.
  pose proof (handle_round _ _ _ _ _ _ H) as (s1 & H1 & _ & Hs'). simpl in Hs'.
  pose proof (delete_blobs_state _ _ _ H1) as E1.
  pose proof (length_delete_ids (deleted_blob_ids g) (blobentry (gc_db g)) (wf_blobs _ Hwf) Hnd Hp) as Hlen.
  destruct (round_found _ _ _ _ _ _ Hwf H) as [Hfn Hfr].
  assert (blobentry s1 = delete_where (fun r => bool_decide (b_id r ∈ deleted_blob_ids g)) (blobentry (gc_db g))) as Hb1 by (by rewrite E1).
  assert (blobentry s' `sublist_of` blobentry s1) as Hsub.
  { destruct found; subst s'; [|done]. apply sublist_filter. }
  assert (blobmetadata s' = blobmetadata s1) as Hm by (destruct found; by subst s').
  assert (keyentry s' = delete_where is_unreferenced (keyentry (gc_db g))) as Hk by (destruct found; subst s'; simpl; by rewrite E1).
  split_and!; try done.
  - constructor; simpl.
    + done.
    + intros r Hin. rewrite Hm. eapply elem_of_sublist in Hin; [|exact Hsub]. rewrite Hb1 in Hin.
      apply elem_of_delete_where in Hin as [Hin Hid]. bool_prop. eapply readable_delete; [by rewrite E1|done|done|done].
    + done.
    + unfold pending. simpl. intros id ([[i b] m] & -> & Hin)%list_elem_of_fmap.
      destruct (Hfr i b m Hin) as (_ & r & Hrin & Hid & _). simpl. rewrite <- Hid. by apply list_elem_of_fmap_2.
    + intros r Hrin ([[i b] m] & Hi & Hin)%list_elem_of_fmap. simpl in Hi.
      destruct (Hfr i b m Hin) as (_ & r' & Hr' & Hid & _ & Hgr).
      replace r with r'; [done|]. apply (NoDup_fmap_inj b_id (blobentry s')); [apply Hwf'|done|done|congruence].
    + intros id blob m Hin. destruct (Hfr id blob m Hin) as (Hl & r & ? & ? & ? & _). eauto.
  - constructor; [|intros r ? ?; rewrite Hk; by apply elem_of_delete_where|intros id bits Hid; by eapply gc_round_keeps].
    intros r. rewrite Hk. by intros [Hin _]%elem_of_delete_where.
  - apply sublist_length in Hsub. rewrite Hb1 in Hsub. lia.
  - intros ->. split; [|by apply (gc_round_complete (deleted_blob_ids g) 20 (gc_db g) false s'); [lia|]].
    intros r. rewrite Hk. by intros [_ Hr']%elem_of_delete_where.
Qed.

(** Destroying one blob only moves its id from the batch to the deleted
    ones; nothing is destroyed but blobs of the batch. *)
Lemma destroy_one_ok g g' r :
  (forall u b, invalidate_key u b <> Panic) -> gc_ok g -> destroy_one g = (r, g') ->
  gc_ok g' /\ gc_db g' = gc_db g /\ r <> Panic /\
  length (deleted_blob_ids g') = (length (deleted_blob_ids g) + if decide (superseded_blobs g = []) then 0 else 1)%nat /\
  (invalidated g' = invalidated g \/ exists id blob m u kb k k', (id, blob, m) ∈ superseded_blobs g /\
     km_uuid_of m = Some u /\ unwrap_key_if_required m blob k = (Ok kb, k') /\
     invalidated g' = invalidated g ++ [(u, deref kb)]).
Proof.
  intros Hinv Hok H. unfold destroy_one in H. destruct (pop (superseded_blobs g)) as [[[[id blob] m] rest]|] eqn:Hp.
  - apply pop_Some in Hp.
    assert (forall k log, gc_ok {| deleted_blob_ids := deleted_blob_ids g ++ [id]; superseded_blobs := rest; gc_db := gc_db g;
      gc_super_key := k; invalidated := log |}) as Hok'.
    { intros k log. destruct Hok as [H1 H2 H3 H4 H5 H6].
      assert (pending {| deleted_blob_ids := deleted_blob_ids g ++ [id]; superseded_blobs := rest; gc_db := gc_db g;
        gc_super_key := k; invalidated := log |} ≡ₚ pending g) as Hperm.
      { unfold pending. simpl. rewrite Hp, fmap_app. simpl. by rewrite <- app_assoc, (Permutation_app_comm [id]). }
      constructor; simpl; [done|done|by rewrite Hperm| | |].
      - intros x Hx. apply H4. by rewrite <- Hperm.
      - intros x Hx Hin. apply H5; [done|]. by rewrite <- Hperm.
      - intros i b mm Hin. apply H6. rewrite Hp. apply elem_of_app. by left. }
    rewrite (decide_False (P := superseded_blobs g = [])) by (rewrite Hp; by destruct rest).
    assert ((id, blob, m) ∈ superseded_blobs g) as Hin by (rewrite Hp; apply elem_of_app; right; left).
    destruct (km_uuid_of m) as [u|] eqn:Hu.
    + pose proof (unwrap_calm m blob (gc_super_key g)) as Hc.
      destruct (unwrap_key_if_required m blob (gc_super_key g)) as [ru k] eqn:Hk. destruct ru as [kb|e|]; [| |done];
        simplify_eq; simpl; (split; [apply Hok'|]); rewrite length_app; simpl.
      * split_and!; [done|apply Hinv|done|]. right. eauto 12.
      * split_and!; [done..|]. by left.
    + simplify_eq. simpl. rewrite length_app. split; [apply Hok'|]. split_and!; [done..|]. by left.
  - apply pop_None in Hp. simplify_eq. rewrite decide_True by done. split_and!; [done|done|done|lia|by left].
Qed.

(** What a step does to a collector in order.  [measure]: the blobs that are
    not about to be deleted. *)
Definition measure (g : GcInternal) : nat := length (blobentry (gc_db g)) - length (deleted_blob_ids g).

Lemma pending_length g : gc_ok g -> (length (deleted_blob_ids g) + length (superseded_blobs g) <= length (blobentry (gc_db g)))%nat.
Proof.
  intros [Hwf _ Hnd Hp _ _]. assert (pending g ⊆+ b_id <$> blobentry (gc_db g)) as H by (apply NoDup_submseteq; auto).
  apply submseteq_length in H. unfold pending in H. by rewrite length_app, !length_fmap in H.
Qed.

Lemma gc_step_ok g n alive r g' :
  (forall u b, invalidate_key u b <> Panic) -> gc_ok g -> gc_step n alive g = (r, g') ->
  gc_ok g' /\ kept (gc_db g) (gc_db g') /\ r = Ok (negb (bool_decide (deleted_blob_ids g' = [])) && alive && negb n) /\
  ((deleted_blob_ids g' = [] /\ superseded_blobs g' = [] /\ clean (gc_db g')) \/
   (deleted_blob_ids g' <> [] /\ (S (measure g') <= measure g)%nat)) /\
  (invalidated g' = invalidated g \/ exists row m u kb k k', row ∈ blobentry (gc_db g') /\ garbage (gc_db g') row = true /\
     meta_load (b_id row) (blobmetadata (gc_db g')) = Ok m /\ km_uuid_of m = Some u /\
     unwrap_key_if_required m (b_blob row) k = (Ok kb, k') /\ invalidated g' = invalidated g ++ [(u, deref kb)]).
Proof.
  intros Hinv Hok H.
  assert (exists g1, fetch g = (Ok tt, g1) /\ gc_ok g1 /\ kept (gc_db g) (gc_db g1) /\ invalidated g1 = invalidated g /\
    (measure g1 <= measure g)%nat /\
    (superseded_blobs g1 = [] -> deleted_blob_ids g1 = [] /\ clean (gc_db g1)))
    as (g1 & Hf & Hok1 & Hk & Hlog & Hm & Hclean).
  { destruct (superseded_blobs g) eqn:Hs.
    - destruct (fetch_ok g Hok Hs) as (g1 & Hf & Hok1 & Hd & Hk & Hl & Hlen & Hc). exists g1. unfold measure. rewrite Hd. simpl.
      split_and!; try done; [lia|]. auto.
    - exists g. unfold fetch. rewrite Hs. by split_and!. }
  unfold gc_step, process_one_key, mbind, sr_bind in H. rewrite Hf in H.
  destruct (destroy_one g1) as [r1 g2] eqn:Hd. destruct (destroy_one_ok g1 g2 r1 Hinv Hok1 Hd) as (Hok2 & Hdb & Hr1 & Hlen & Hl2).
  assert (r = Ok (negb (bool_decide (deleted_blob_ids g2 = [])) && alive && negb n) /\ g' = g2) as [-> ->] by (destruct r1; by simplify_eq).
  split; [done|]. split; [by rewrite Hdb|]. split; [done|]. split.
  - destruct (decide (superseded_blobs g1 = [])) as [He|Hne].
    + left. destruct (Hclean He) as [Hd1 Hg]. unfold destroy_one in Hd. rewrite He in Hd. simpl in Hd. simplify_eq. by rewrite Hd1, He.
    + right. pose proof (pending_length g2 Hok2) as Hp. unfold measure in *. rewrite Hdb in *. split; [|lia].
      intros E. rewrite E in Hlen. simpl in Hlen. lia.
  - destruct Hl2 as [->|(id & blob & m & u & kb & k & k' & Hin & Hu & Hun & ->)]; [by left|]. right. rewrite Hdb, Hlog.
    destruct (gc_fetched _ Hok1 _ _ _ Hin) as (Hml & row & Hrow & <- & <-). exists row, m, u, kb, k, k'. split_and!; try done.
    apply (gc_only_garbage _ Hok1); [done|]. unfold pending. apply elem_of_app. right.
    by apply (list_elem_of_fmap_2 (fun f : Z * bytes * BlobMetaData => f.1.1) _ _ Hin).
Qed.

(** C33: The collector finishes.  From any state in order, while nobody else
    writes to the database, one notification leads to at most one step per
    blob and one more, whatever the device and the super keys answer, and then
    no further step is queued: by then no garbage is left, neither a blob that
    no key uses nor a key marked unreferenced; every other key is still in the
    table, its row unchanged, no key was added, and every key loads as
    before. *)
Theorem gc_drains g :
  (forall u b, invalidate_key u b <> Panic) -> gc_ok g ->
  exists g', gc_run (S (measure g)) g = Some g' /\ pending g' = [] /\
    (forall r, r ∈ blobentry (gc_db g') -> garbage (gc_db g') r = false) /\
    (forall r, r ∈ keyentry (gc_db g') <-> r ∈ keyentry (gc_db g) /\ is_unreferenced r = false) /\
    (forall id bits, id ∈ key_ids (gc_db g') ->
       load_key_components bits id (gc_db g') = load_key_components bits id (gc_db g)).
Proof.
  intros Hinv Hok. cut (exists g', gc_run (S (measure g)) g = Some g' /\ pending g' = [] /\ kept (gc_db g) (gc_db g') /\ clean (gc_db g')).
  { intros (g' & H1 & H2 & [O A Ld] & [Hu Hg]). exists g'. split_and!; try done. intros r. split; [auto|]. intros []. auto. }
  revert Hok. remember (measure g) as n eqn:Hn. assert (measure g <= n)%nat as Hle by lia. clear Hn.
  revert g Hle. induction n as [|n IH]; intros g Hle Hok; cbn [gc_run];
    destruct (gc_step false true g) as [r g'] eqn:Hs; destruct (gc_step_ok _ _ _ _ _ Hinv Hok Hs) as (Hok' & Hk & -> & Hd & _);
    (destruct Hd as [(Hd & Hsb & Hg)|[Hd Hm]];
      [exists g'; rewrite bool_decide_true by done; simpl; split_and!; try done; unfold pending; by rewrite Hd, Hsb|]);
    rewrite bool_decide_false by done; simpl; [lia|].
  destruct (IH g') as (g2 & Hrun & Hp & Hk2 & Hg2); [lia|done|]. exists g2. split_and!; try done. by eapply kept_trans.
Qed.

(** Only garbage is destroyed: the one blob a step passes to the device, if
    any, is a blob of the database that no key uses, opened with the super
    key its metadata names, on the device its metadata names. *)
Theorem gc_destroys_only_garbage g n alive r g' :
  (forall u b, invalidate_key u b <> Panic) -> gc_ok g -> gc_step n alive g = (r, g') ->
  invalidated g' = invalidated g \/ exists row m u kb k k', row ∈ blobentry (gc_db g') /\ garbage (gc_db g') row = true /\
     meta_load (b_id row) (blobmetadata (gc_db g')) = Ok m /\ km_uuid_of m = Some u /\
     unwrap_key_if_required m (b_blob row) k = (Ok kb, k') /\ invalidated g' = invalidated g ++ [(u, deref kb)].
Proof. intros Hinv Hok Hs. by destruct (gc_step_ok _ _ _ _ _ Hinv Hok Hs) as (_ & _ & _ & _ & H). Qed.
End Gc.

(** ** The notification flag

    The atomic operations of [notify_gc] and [step], interleaved freely:
    [unqueued] counts the threads between a won exchange and [queue_lo],
    [queued] the steps in the queue. *)

Inductive Phase := Waiting | Taken | Processing.

Record Flag := {
  notified : bool;
  unqueued : nat;
  queued : nat;
  phase : Phase
}.

(** [compare_exchange(0, 1)] in both places. *)
Definition try_notify (f : Flag) : Flag :=
  if notified f then f else {| notified := true; unqueued := S (unqueued f); queued := queued f; phase := phase f |}.

Inductive flag_step : Flag -> Flag -> Prop :=
| flag_notify f : flag_step f (try_notify f)
| flag_queue n f : unqueued f = S n ->
    flag_step f {| notified := notified f; unqueued := n; queued := S (queued f); phase := phase f |}
| flag_take n f : queued f = S n -> phase f = Waiting ->
    flag_step f {| notified := notified f; unqueued := unqueued f; queued := n; phase := Taken |}
| flag_reset f : phase f = Taken ->
    flag_step f {| notified := false; unqueued := unqueued f; queued := queued f; phase := Processing |}
| flag_finish (more : bool) f : phase f = Processing ->
    flag_step f (let f := {| notified := notified f; unqueued := unqueued f; queued := queued f; phase := Waiting |} in
                 if more then try_notify f else f).

Definition quiet_flag : Flag := {| notified := false; unqueued := 0; queued := 0; phase := Waiting |}.

(** Steps that are yet to begin. *)
Definition outstanding (f : Flag) : nat := unqueued f + queued f + match phase f with Taken => 1 | _ => 0 end.

Definition flag_inv (f : Flag) : Prop := outstanding f = if notified f then 1%nat else 0%nat.

Lemma try_notify_inv f : flag_inv f -> flag_inv (try_notify f).
Proof. unfold flag_inv, try_notify, outstanding. destruct (notified f) eqn:E; simpl; [by rewrite E|]. lia. Qed.

Lemma flag_step_inv f f' : flag_step f f' -> flag_inv f -> flag_inv f'.
Proof.
  intros Hs Hf. destruct Hs as [f|n f Hn|n f Hn Hp|f Hp|more f Hp]; [by apply try_notify_inv|..].
  4: assert (flag_inv {| notified := notified f; unqueued := unqueued f; queued := queued f; phase := Waiting |}) as Hf';
    [|by destruct more; [apply try_notify_inv|]].
  all: unfold flag_inv, outstanding in *; simpl; rewrite ?Hp in *; simpl in *; destruct (notified f); lia.
Qed.

(** No notification is lost and no step is queued twice: at every moment of
    every interleaving at most one step is yet to begin, and once
    [notify_gc] has tried the flag there is exactly one, which will look at
    the database after the notification. *)
Theorem one_gc_step_outstanding f :
  rtc flag_step quiet_flag f -> (outstanding f <= 1)%nat /\ outstanding (try_notify f) = 1%nat.
Proof.
  intros H. assert (flag_inv f) as Hf.
  { assert (flag_inv quiet_flag) as H0 by done. induction H as [|x y z Hxy _ IH]; [done|]. by apply IH, (flag_step_inv x). }
  split; [unfold flag_inv in Hf; destruct (notified f); lia|].
  apply try_notify_inv in Hf. unfold flag_inv in Hf. rewrite Hf. unfold try_notify. destruct (notified f) eqn:E; simpl; [by rewrite E|done].
Qed.

(** ** The blob of the replaced key 77 *)

#[local] Existing Instances aidl_published toy_boring.

Definition demo_gc : GcInternal :=
  {| deleted_blob_ids := []; superseded_blobs := []; gc_db := demo_db2; gc_super_key := new_skm; invalidated := [] |}.
Definition refuse (u : Uuid) (b : bytes) : result AnyError unit := Err err_sys.

Lemma refuse_calm u b : refuse u b <> Panic.
Proof. discriminate. Qed.

Lemma demo_gc_ok : gc_ok demo_gc.
Proof.
  constructor; simpl; try (by intros ? ?%not_elem_of_nil); try (by intros ? ? ? ?%not_elem_of_nil); [exact demo_db2_wf| |constructor|].
  - assert (forallb (fun r => match meta_load (E := BlobMetaEntry) (b_id r) (blobmetadata demo_db2) with Ok _ => true | _ => false end)
      (blobentry demo_db2) = true) as H by (vm_compute; reflexivity).
    intros r Hr%list_elem_of_In. rewrite forallb_forall in H. specialize (H r Hr). cbv beta in H.
    destruct (meta_load (b_id r) (blobmetadata demo_db2)) as [m| |]; [eauto|done..].
  - intros r _ Hin. by apply not_elem_of_nil in Hin.
Qed.

Lemma gc_drains_witness :
  exists g', gc_run refuse (S (measure demo_gc)) demo_gc = Some g' /\ pending g' = [] /\
    forall r, r ∈ keyentry (gc_db g') <-> r ∈ keyentry demo_db2 /\ is_unreferenced r = false.
Proof. destruct (gc_drains refuse demo_gc refuse_calm demo_gc_ok) as (g' & H1 & H2 & _ & H3 & _). exists g'. split_and!; assumption. Defined.

Lemma one_gc_step_outstanding_witness : outstanding (try_notify (try_notify quiet_flag)) = 1%nat.
Proof.
  apply (one_gc_step_outstanding (try_notify quiet_flag)). eapply rtc_l; [apply flag_notify|apply rtc_refl].
Defined.

Lemma gc_destroys_only_garbage_witness :
  invalidated (gc_step refuse false true demo_gc).2 = [(repeat 7 16, [9; 9])] /\
  exists row, row ∈ blobentry (gc_db (gc_step refuse false true demo_gc).2) /\
    garbage (gc_db (gc_step refuse false true demo_gc).2) row = true.
Proof.
  destruct (gc_destroys_only_garbage refuse demo_gc false true _ _ refuse_calm demo_gc_ok (surjective_pairing _)) as [H|H].
  - exfalso. vm_compute in H. discriminate.
  - split; [vm_compute; reflexivity|]. destruct H as (row & m & u & kb & k & k' & Hr & Hg & _). exists row. split; assumption.
Defined.
