(* ===== verification/IdRotation.v ===== *)
(** * Id rotation ([keystore2/src/id_rotation.rs])

    Whether a factory reset happened within the last thirty days, from the
    age of a timestamp file that a factory reset removes.  Times are in
    nanoseconds. *)

From stdpp Require Import base list tactics.
From Stdlib Require Import ZArith Lia.
From S2P Require Import Prelude.

Definition ID_ROTATION_PERIOD : Z := 30 * 24 * 60 * 60 * 1000000000.

(** The timestamp file: its modification time if it is there, and what the
    file system refuses. *)
Record TimestampFs := {
  timestamp : option Z;
  metadata_fails : bool;
  modified_unsupported : bool;
  create_fails : bool
}.

Inductive TimestampError := NotSupported | ClockWentBackwards | CannotCreate | CannotOpen.

(** [SystemTime::elapsed]. *)
Definition elapsed (now t : Z) : result TimestampError Z :=
  if t <=? now then Ok (now - t) else Err ClockWentBackwards.

Definition had_factory_reset_since_id_rotation (now : Z) : sr TimestampFs TimestampError bool := fun fs =>
  if metadata_fails fs then (Err CannotOpen, fs)
  else
    match timestamp fs with
    | Some modified =>
      ((if modified_unsupported fs then Err NotSupported
        else d ← elapsed now modified; Ok (d <? ID_ROTATION_PERIOD)), fs)
    | None =>
      if create_fails fs then (Err CannotCreate, fs)
      else (Ok true, {| timestamp := Some now; metadata_fails := metadata_fails fs;
                        modified_unsupported := modified_unsupported fs; create_fails := create_fails fs |})
    end.

(** Calls at the given times, one after the other. *)
Fixpoint calls (times : list Z) : sr TimestampFs TimestampError (list bool) :=
  match times with
  | [] => mret []
  | now :: times =>
    r ← had_factory_reset_since_id_rotation now;
    rs ← calls times;
    mret (r :: rs)
  end.

Definition healthy (t : option Z) : TimestampFs :=
  {| timestamp := t; metadata_fails := false; modified_unsupported := false; create_fails := false |}.

Lemma calls_present t0 times :
  Forall (fun t => t0 <= t) times ->
  calls times (healthy (Some t0)) = (Ok ((fun t => t - t0 <? ID_ROTATION_PERIOD) <$> times), healthy (Some t0)).
Proof.
  induction 1 as [|t ts Ht _ IH]; [done|]. cbn [calls]. unfold mbind, sr_bind, had_factory_reset_since_id_rotation at 1.
  simpl. unfold elapsed. destruct (Z.leb_spec t0 t); [|lia]. simpl. unfold mbind, sr_bind in IH. rewrite IH. done.
Qed.

(** The unique id is marked as following a factory reset for exactly thirty
    days from the first call after it, on every later call, and the age of
    the file is never moved forward by asking. *)
Theorem rotation_window t0 times :
  Forall (fun t => t0 <= t) times ->
  calls (t0 :: times) (healthy None) =
  (Ok (true :: ((fun t => t - t0 <? ID_ROTATION_PERIOD) <$> times)), healthy (Some t0)).
Proof.
  intros H. cbn [calls]. unfold mbind, sr_bind, had_factory_reset_since_id_rotation at 1. simpl.
  pose proof (calls_present t0 times H) as Hc. unfold healthy in Hc. unfold mbind, sr_bind in Hc. rewrite Hc. done.
Qed.

Lemma rotation_window_witness :
  fst (calls [5; 6; 5 + ID_ROTATION_PERIOD] (healthy None)) = Ok [true; true; false].
Proof.
  rewrite (rotation_window 5 [6; 5 + ID_ROTATION_PERIOD]); [vm_compute; reflexivity|].
  repeat constructor; unfold ID_ROTATION_PERIOD; lia.
Defined.
