(* ===== verification/RemoteProvisioning.v ===== *)
(** * Remote provisioning ([keystore2/src/remote_provisioning.rs],
    [keystore2/src/attestation_key_utils.rs])

    [RemProvState] finds the attestation key a new key is attested with; the
    service fills the pool of such keys with the help of the remotely
    provisioned component, a parameter.  [get_attest_key_info] chooses between
    such a key, one of the caller's own, and none. *)

From stdpp Require Import base list gmap strings.
From Stdlib Require Import ZArith Lia.
From S2P Require Import Prelude Aidl Errors Sql KeyParameter Permission DbTypes Database DbInvariant DbAttestation DbKeys Crypto RawDevice.

Record RemProvState := {
  rp_uuid : Uuid;
  is_hal_present : bool
}.

Inductive AttestationKeyInfo :=
| RemoteProvisioned (attestation_key : AttestationKey) (attestation_certs : bytes)
| UserGenerated (key_id : Z) (blob : bytes) (blob_metadata : BlobMetaData) (issuer_subject : bytes).

Section Attestation.
Context {AI : Aidl}.
(** [parse_subject_from_certificate] of the C++ library; whether the
    component can be reached; the permission check of the caller. *)
Context (parse_subject : bytes -> result AnyError bytes) (component_ok : bool)
  (check_use : KeyDescriptor -> option Z -> result AnyError unit).

Abbreviation P := (sr (RemProvState * Tables) AnyError).

Definition on_pool {A} (m : sr Tables AnyError (bool * A)) : P A := fun '(rp, s) =>
  let '(r, s') := m s in (snd <$> r, (rp, s')).
Definition read_pool {A} (f : Tables -> result AnyError A) : P A := fun '(rp, s) => (f s, (rp, s)).

Definition check_rem_prov_enabled : P bool := fun '(rp, s) =>
  if negb (is_hal_present rp) || negb component_ok then (Ok false, ({| rp_uuid := rp_uuid rp; is_hal_present := false |}, s))
  else ((fun st => negb (total st =? 0)) <$> get_attestation_pool_status 0 (rp_uuid rp) s, (rp, s)).

Definition get_rem_prov_attest_key_helper (d caller_uid : Z) : P (option CertificateChain) :=
  rp ← gets fst;
  found ← read_pool (retrieve_attestation_key_and_cert_chain d caller_uid (rp_uuid rp));
  match found with
  | Some c => mret (Some c)
  | None => _ ← on_pool (assign_attestation_key d caller_uid (rp_uuid rp)); mret None
  end.

Definition get_rem_prov_attest_key (d caller_uid : Z) : P (option CertificateChain) :=
  if d =? val Domain.APP then
    first ← get_rem_prov_attest_key_helper d caller_uid;
    second ← match first with
             | None => get_rem_prov_attest_key_helper d caller_uid
             | Some v => mret (Some v)
             end;
    match second with
    | None => throw err_sys
    | Some c => mret (Some c)
    end
  else mret None.

Definition is_asymmetric_key (params : list KmKeyParameter) : bool :=
  existsb (fun kp => (tag kp =? val Tag.ALGORITHM) &&
    match value kp with Field.Algorithm a => (a =? val Algorithm.RSA) || (a =? val Algorithm.EC) | _ => false end) params.

Definition attestation_key_of (c : CertificateChain) : result AnyError (AttestationKey * bytes) :=
  subject ← parse_subject (batch_cert c);
  Ok ({| ak_blob := DbAttestation.private_key c; ak_params := []; ak_issuer := subject |}, chain c).

(** An error while looking for the key is logged and dropped. *)
Definition try_rem_prov_attest_key (d caller_uid : Z) : P (option (AttestationKey * bytes)) := fun w =>
  match get_rem_prov_attest_key d caller_uid w with
  | (Err _, w') => (Ok None, w')
  | (Panic, w') => (Panic, w')
  | (Ok None, w') => (Ok None, w')
  | (Ok (Some c), w') => (Some <$> attestation_key_of c, w')
  end.

Definition get_remotely_provisioned_attestation_key_and_certs (key : KeyDescriptor) (caller_uid : Z)
    (params : list KmKeyParameter) : P (option (AttestationKey * bytes)) :=
  if negb (is_asymmetric_key params) then mret None
  else
    enabled ← check_rem_prov_enabled;
    if (enabled : bool) then try_rem_prov_attest_key (domain key) caller_uid else mret None.

(** ** The caller's own attestation keys *)

Definition load_attest_key_blob_and_cert (key : KeyDescriptor) (caller_uid : Z)
    : P (Z * bytes * bytes * BlobMetaData) :=
  if domain key =? val Domain.BLOB then throw (KsError (Km (val ErrorCode.INVALID_ARGUMENT)))
  else
    '(key_id, e) ← read_pool (fun s => load_key_entry key KeyType.Client LoadBits.BOTH caller_uid check_use true s s);
    '(b, m) ← lift (ok_or (ke_key_blob_info e) err_sys);
    c ← lift (ok_or (ke_cert e) err_sys);
    mret (key_id, b, c, m).

Definition get_user_generated_attestation_key (key : KeyDescriptor) (caller_uid : Z) : P AttestationKeyInfo :=
  '(key_id, b, c, m) ← load_attest_key_blob_and_cert key caller_uid;
  issuer_subject ← lift (parse_subject c);
  mret (UserGenerated key_id b m issuer_subject).

Definition get_attest_key_info (key : KeyDescriptor) (caller_uid : Z) (attest_key : option KeyDescriptor)
    (params : list KmKeyParameter) : P (option AttestationKeyInfo) :=
  let challenge_present := existsb (fun kp => tag kp =? val Tag.ATTESTATION_CHALLENGE) params in
  match attest_key with
  | None =>
    if challenge_present then
      r ← get_remotely_provisioned_attestation_key_and_certs key caller_uid params;
      mret ((fun '(k, c) => RemoteProvisioned k c) <$> r)
    else mret None
  | Some k => i ← get_user_generated_attestation_key k caller_uid; mret (Some i)
  end.
End Attestation.

(** ** The service *)

(** The remotely provisioned component of each security level. *)
Class RemoteComponent (R : Type) := {
  rc_generateEcdsaP256KeyPair : Z -> bool -> sr R BinderStatus (bytes * bytes);
  rc_generateCertificateRequest : Z -> bool -> list bytes -> bytes -> bytes -> sr R BinderStatus (bytes * bytes * bytes)
}.

Definition TEST_MODE_ENTRY : nat := 6.
Definition BYTE_DIST_MAC0_PAYLOAD : nat := 8.
Definition cose_key_size (test_mode : bool) : nat := 83 - (if test_mode then 0 else TEST_MODE_ENTRY).

(** The CBOR array of the mac and the keys cut out of [keys_to_sign]. *)
Definition csr_key (test_mode : bool) (k : bytes) : bytes :=
  if (cose_key_size test_mode + BYTE_DIST_MAC0_PAYLOAD <? length k)%nat
  then take (cose_key_size test_mode) (drop BYTE_DIST_MAC0_PAYLOAD k) else [].
Definition cose_mac_0 (test_mode : bool) (keys_to_sign : list bytes) (mac : bytes) : bytes :=
  [Z.lor 0x80 (Z.of_nat (length keys_to_sign) + 1) mod 256; 0x58; Z.of_nat (length mac) mod 256]
  ++ mac ++ mjoin (csr_key test_mode <$> keys_to_sign).

Section Service.
Context {AI : Aidl} {R : Type} `{!RemoteComponent R}.
(** The uuid of the KeyMint instance of a level, the levels with a component
    and what asking for its interface gives, and the supported curves. *)
Context (keymint_uuid : Z -> result AnyError Uuid) (device_by_sec_level : gmap Z (result AnyError unit))
  (curve_by_sec_level : gmap Z Z).

Abbreviation S := (sr (R * Tables) AnyError).

Definition on_component {A} (m : sr R BinderStatus A) : S A := fun '(r, s) =>
  let '(a, r') := m r in (map_err KsError (map_rem_prov_error a), (r', s)).
Definition on_service_db {A} (m : sr Tables AnyError (bool * A)) : S A := fun '(r, s) =>
  let '(a, s') := m s in (snd <$> a, (r, s')).

Definition read_service_db {A} (f : Tables -> result AnyError A) : S A := fun '(r, s) => (f s, (r, s)).

Definition get_dev_by_sec_level (level : Z) : result AnyError unit :=
  match device_by_sec_level !! level with Some i => i | None => Err err_sys end.

(** Returns the signing request, the device info and the protected data. *)
Definition generate_csr (test_mode : bool) (num_csr : Z) (eek challenge : bytes) (level : Z) : S (bytes * bytes * bytes) :=
  _ ← lift (get_dev_by_sec_level level);
  uuid ← lift (keymint_uuid level);
  keys_to_sign ← read_service_db (fetch_unsigned_attestation_keys num_csr uuid);
  '(mac, device_info, protected_data) ← on_component (rc_generateCertificateRequest level test_mode keys_to_sign eek challenge);
  mret (cose_mac_0 test_mode keys_to_sign mac, device_info, protected_data).

Definition provision_cert_chain (public_key bcert certs : bytes) (expiration_date level : Z) : S unit :=
  uuid ← lift (keymint_uuid level);
  on_service_db (store_signed_attestation_certificate_chain public_key bcert certs expiration_date uuid).

Definition raw_key_of (data : bytes) : bytes := take 32 (drop 18 data) ++ take 32 (drop 53 data).

Definition generate_key_pair (draws : list Z) (is_test_mode : bool) (level : Z) : S unit :=
  uuid ← lift (keymint_uuid level);
  _ ← lift (get_dev_by_sec_level level);
  '(priv_key, data) ← on_component (rc_generateEcdsaP256KeyPair level is_test_mode);
  if (length data <? 85)%nat then throw err_sys
  else on_service_db (create_attestation_key_entry draws data (raw_key_of data) priv_key uuid).

Definition get_implementation_info : list (Z * Z) := map_to_list curve_by_sec_level.

Definition delete_all_keys : S Z := on_service_db delete_all_attestation_keys.

Definition get_pool_status (now : result AnyError Z) (expired_by level : Z) : S AttestationPoolStatus :=
  uuid ← lift (keymint_uuid level);
  _ ← on_service_db (delete_expired_attestation_keys now);
  read_service_db (get_attestation_pool_status expired_by uuid).
End Service.

(** ** Which key attests *)

Section Facts.
Context {AI : Aidl} (parse_subject : bytes -> result AnyError bytes) (component_ok : bool).
Implicit Types (s : Tables) (rp : RemProvState).

(** The three blobs of the one key assigned to a client. *)
Definition assigned_chain (d uid : Z) (u : Uuid) s (c : CertificateChain) : Prop :=
  retrieve_attestation_key_and_cert_chain d uid u s = Ok (Some c).

Lemma helper_cases d uid rp s r rp' s' :
  get_rem_prov_attest_key_helper d uid (rp, s) = (r, (rp', s')) ->
  rp' = rp /\
  match r with
  | Ok (Some c) => s' = s /\ assigned_chain d uid (rp_uuid rp) s c
  | Ok None => retrieve_attestation_key_and_cert_chain d uid (rp_uuid rp) s = Ok None /\
      assign_attestation_key d uid (rp_uuid rp) s = (Ok (false, tt), s')
  | Err e => s' = s /\ (retrieve_attestation_key_and_cert_chain d uid (rp_uuid rp) s = Err e \/
      exists b, assign_attestation_key d uid (rp_uuid rp) s = (Err e, b))
  | Panic => True
  end.
Proof.
  unfold get_rem_prov_attest_key_helper, mbind, sr_bind, gets, read_pool, on_pool. simpl.
  destruct (retrieve_attestation_key_and_cert_chain _ _ _ _) as [[c|]|e|] eqn:E; simpl.
  - unfold mret, sr_ret. intros. by simplify_eq.
  - destruct (assign_attestation_key _ _ _ _) as [ra s1] eqn:Ea. destruct ra as [[b []]|e|]; simpl; intros; simplify_eq; [| |done].
    + unfold mret, sr_ret in *. simplify_eq. split; [done|]. split; [done|].
      unfold assign_attestation_key in *. destruct (negb _); [done|]. unfold transaction, mbind, sr_bind, gets, modify, throw, mret, sr_ret in *.
      simpl in *. destruct (_ =? 0); [done|]. destruct (1 <? _); [done|]. by simplify_eq.
    + split; [done|]. split; [|eauto]. unfold assign_attestation_key in Ea. destruct (negb _); [by unfold throw in Ea; simplify_eq|].
      by apply transaction_atomic in Ea as [[? ?]|].
  - intros. simplify_eq. eauto.
  - intros. by simplify_eq.
Qed.

(** A remotely provisioned key is the caller's.  When a key for a new key is
    found, the new key is asymmetric and of an app, the component and the
    pool are there, and the key, its certificate and its chain are those
    assigned to the caller's uid: from before the call, or assigned by it. *)
Theorem attests_with_callers_key key uid params rp s ak certs rp' s' :
  get_remotely_provisioned_attestation_key_and_certs parse_subject component_ok key uid params (rp, s) =
    (Ok (Some (ak, certs)), (rp', s')) ->
  is_asymmetric_key params = true /\ domain key = val Domain.APP /\ is_hal_present rp = true /\ component_ok = true /\ rp' = rp /\
  (s' = s \/ assign_attestation_key (domain key) uid (rp_uuid rp) s = (Ok (false, tt), s')) /\
  exists c, assigned_chain (domain key) uid (rp_uuid rp) s' c /\ ak_blob ak = DbAttestation.private_key c /\ certs = chain c /\
    parse_subject (batch_cert c) = Ok (ak_issuer ak).
Proof.
  unfold get_remotely_provisioned_attestation_key_and_certs. destruct (is_asymmetric_key params); [|done].
  cbn [negb]. intros (en & [rp1 s1] & He & H)%sr_bind_Ok. unfold check_rem_prov_enabled in He.
  destruct (is_hal_present rp) eqn:Hh; simpl in He; [|simplify_eq; done].
  destruct component_ok; simpl in He; [|simplify_eq; done]. destruct en; [|done]. simplify_eq.
  unfold try_rem_prov_attest_key in H. destruct (get_rem_prov_attest_key _ _ _) as [r [rp2 s2]] eqn:Hm. destruct r as [[c|]| |]; [|done..].
  unfold get_rem_prov_attest_key in Hm. destruct (Z.eqb_spec (domain key) (val Domain.APP)) as [Hd|]; [|done].
  unfold attestation_key_of in H. destruct (parse_subject (batch_cert c)) as [sub| |] eqn:Hs; simpl in H; [|done..]. simplify_eq.
  apply sr_bind_Ok in Hm as (first & [rp3 s3] & H1 & Hm). apply sr_bind_Ok in Hm as (snd' & [rp4 s4] & H2 & H3).
  destruct snd' as [c'|]; unfold mret, sr_ret, throw in H3; [|done]. simplify_eq.
  apply helper_cases in H1 as [-> H1]. destruct first as [c0|].
  - destruct H1 as [-> H1]. unfold mret, sr_ret in H2. simplify_eq. split_and!; try done; [by left|]. by exists c.
  - destruct H1 as [_ H1]. apply helper_cases in H2 as (-> & -> & H2). split_and!; try done; [by right|]. by exists c.
Qed.

Lemma assign_empty d n u s :
  app_or_selinux d = true -> (forall r, r ∈ keyentry s -> assignable u r = false) ->
  assign_attestation_key d n u s = (Err (err_rc ResponseCode.OUT_OF_KEYS), s).
Proof.
  intros Hd Hno. unfold assign_attestation_key. rewrite Hd. simpl.
  assert (ids_where (assignable u) s = []) as Hids.
  { destruct (ids_where (assignable u) s) as [|i l] eqn:E; [done|]. assert (i ∈ ids_where (assignable u) s) as Hi by (rewrite E; left).
    apply elem_of_ids_where in Hi as (r & Hr & Ha & _). by rewrite Hno in Ha. }
  assert (affected (assign_match d n u s) (keyentry s) = 0) as Ha.
  { unfold affected. destruct (select_where (assign_match d n u s) (keyentry s)) as [|r l] eqn:E; [done|].
    assert (r ∈ select_where (assign_match d n u s) (keyentry s)) as Hr by (rewrite E; left).
    apply elem_of_select_where in Hr as [_ Hr]. unfold assign_match in Hr. by rewrite Hids in Hr. }
  unfold transaction, mbind, sr_bind, gets, modify, throw. simpl. by rewrite Ha.
Qed.

(** An empty pool is not reported.  The component is there and the pool has
    keys, but none is assigned to the caller and none is left to assign:
    instead of the [OUT_OF_KEYS] its documentation promises, the lookup
    answers that there is no remotely provisioned key, and the new key is
    attested with the factory key. *)
Theorem out_of_keys_falls_back key uid params rp s st :
  is_asymmetric_key params = true -> is_hal_present rp = true -> component_ok = true -> domain key = val Domain.APP ->
  get_attestation_pool_status 0 (rp_uuid rp) s = Ok st -> total st <> 0 ->
  retrieve_attestation_key_and_cert_chain (domain key) uid (rp_uuid rp) s = Ok None ->
  (forall r, r ∈ keyentry s -> assignable (rp_uuid rp) r = false) ->
  assign_attestation_key (domain key) uid (rp_uuid rp) s = (Err (err_rc ResponseCode.OUT_OF_KEYS), s) /\
  get_remotely_provisioned_attestation_key_and_certs parse_subject component_ok key uid params (rp, s) = (Ok None, (rp, s)).
Proof.
  intros Ha Hh Hc Hd Hst Ht Hr Hno.
  assert (assign_attestation_key (domain key) uid (rp_uuid rp) s = (Err (err_rc ResponseCode.OUT_OF_KEYS), s)) as Has.
  { apply assign_empty; [|done]. rewrite Hd. unfold app_or_selinux. by rewrite Z.eqb_refl. }
  split; [done|]. unfold get_remotely_provisioned_attestation_key_and_certs. rewrite Ha. simpl. unfold mbind at 1, sr_bind at 1.
  unfold check_rem_prov_enabled. rewrite Hh, Hc. simpl. rewrite Hst. simpl. destruct (Z.eqb_spec (total st) 0); [done|]. simpl.
  unfold try_rem_prov_attest_key, get_rem_prov_attest_key. rewrite Hd, Z.eqb_refl. rewrite Hd in *.
  unfold get_rem_prov_attest_key_helper, mbind, sr_bind, gets, read_pool, on_pool. simpl. rewrite Hr, Has. done.
Qed.
End Facts.

(** ** The signing request *)

(** Reads the array back: its header, the byte string of the mac, and keys of
    the given size. *)
Fixpoint split_keys (fuel size : nat) (l : bytes) : option (list bytes) :=
  match l, fuel with
  | [], _ => Some []
  | _, O => None
  | _, S fuel => if (length l <? size)%nat then None else cons (take size l) <$> split_keys fuel size (drop size l)
  end.
Definition parse_request (test_mode : bool) (l : bytes) : option (bytes * list bytes) :=
  match l with
  | h :: 0x58 :: n :: rest =>
    keys ← split_keys (length rest) (cose_key_size test_mode) (drop (Z.to_nat n) rest);
    (* major type 4, items counted in the low five bits *)
    if (h / 32 =? 4) && (h mod 32 <? 24) && (h mod 32 =? 1 + Z.of_nat (length keys))
    then Some (take (Z.to_nat n) rest, keys) else None
  | _ => None
  end.

Lemma split_keys_join size ks fuel :
  (0 < size)%nat -> Forall (fun k => length k = size) ks -> (length ks <= fuel)%nat ->
  split_keys fuel size (mjoin ks) = Some ks.
Proof.
  intros Hs H. revert fuel. induction H as [|k ks Hk Hks IH]; intros fuel Hf; [by destruct fuel|].
  destruct fuel as [|fuel]; [simpl in Hf; lia|]. simpl in *.
  assert (k ++ mjoin ks <> []) as Hne by (destruct k; [simpl in Hk; lia|done]).
  destruct (k ++ mjoin ks) as [|x l] eqn:E; [done|]. rewrite <- E.
  destruct (Nat.ltb_spec (length (k ++ mjoin ks)) size); [rewrite length_app in *; lia|].
  rewrite take_app_length', drop_app_length' by done. rewrite IH by lia. done.
Qed.

Lemma header_small n : 0 <= n < 32 -> Z.lor 0x80 n mod 256 = 128 + n.
Proof.
  intros Hn. assert (Z.land 128 n = 0) as Hl.
  { apply Z.bits_inj'. intros i Hi. rewrite Z.land_spec, Z.bits_0. destruct (decide (i = 7)) as [->|].
    - rewrite (Z.bits_above_log2 n); [apply andb_false_r|lia|]. destruct (decide (n = 0)) as [->|]; [done|].
      assert (Z.log2 n < 5) by (apply Z.log2_lt_pow2; lia). lia.
    - change 128 with (2 ^ 7). by rewrite Z.pow2_bits_false by done. }
  pose proof (Z.add_lor_land 128 n) as Ha. rewrite Hl, Z.add_0_r in Ha. rewrite Ha. apply Z.mod_small. lia.
Qed.

Lemma csr_key_length test_mode k :
  (cose_key_size test_mode + BYTE_DIST_MAC0_PAYLOAD < length k)%nat -> length (csr_key test_mode k) = cose_key_size test_mode.
Proof.
  intros H. unfold csr_key. destruct (Nat.ltb_spec (cose_key_size test_mode + BYTE_DIST_MAC0_PAYLOAD) (length k)); [|lia].
  rewrite length_take, length_drop. lia.
Qed.

Lemma Forall_csr test_mode (keys : list bytes) :
  Forall (fun k => (cose_key_size test_mode + BYTE_DIST_MAC0_PAYLOAD < length k)%nat) keys ->
  Forall (fun k => length k = cose_key_size test_mode) (csr_key test_mode <$> keys) .
Proof. intros H. apply Forall_fmap. eapply Forall_impl; [exact H|]. intros k Hk. by apply csr_key_length. Qed.

(** The request can be read back: with at most 22 keys of full length, the
    mac and the part of every key that the server needs are recovered from
    the array, in order. *)
Theorem csr_request_readable test_mode (keys : list bytes) (mac : bytes) :
  (length keys <= 22)%nat -> (length mac < 256)%nat ->
  Forall (fun k => (cose_key_size test_mode + BYTE_DIST_MAC0_PAYLOAD < length k)%nat) keys ->
  parse_request test_mode (cose_mac_0 test_mode keys mac) = Some (mac, csr_key test_mode <$> keys).
Proof.
  intros Hn Hm Hk. unfold cose_mac_0. rewrite header_small by lia. simpl.
  rewrite (Z.mod_small (Z.of_nat (length mac))), Nat2Z.id by lia. rewrite take_app_length, drop_app_length.
  assert (0 < cose_key_size test_mode)%nat as Hs by (unfold cose_key_size, TEST_MODE_ENTRY; destruct test_mode; lia).
  rewrite split_keys_join; [|done|by apply Forall_csr|].
  - simpl. rewrite length_fmap.
    assert ((128 + (Z.of_nat (length keys) + 1)) / 32 = 4) as -> by (symmetry; apply (Z.div_unique _ 32 4 (Z.of_nat (length keys) + 1)); lia).
    assert ((128 + (Z.of_nat (length keys) + 1)) mod 32 = Z.of_nat (length keys) + 1) as ->
      by (symmetry; apply (Z.mod_unique _ 32 4); lia).
    destruct (Z.ltb_spec (Z.of_nat (length keys) + 1) 24); [|lia].
    destruct (Z.eqb_spec (Z.of_nat (length keys) + 1) (1 + Z.of_nat (length keys))); [done|lia].
  - rewrite length_app. pose proof (Forall_csr _ _ Hk) as Hf. clear -Hf Hs.
    assert (length (csr_key test_mode <$> keys) <= length (mjoin (csr_key test_mode <$> keys)))%nat; [|lia].
    induction Hf as [|k ks Hk _ IH]; [done|]. simpl. rewrite length_app. lia.
Qed.

(** The header has room for no more: from 23 keys on the array no longer
    announces its length in one byte, and is not readable. *)
Theorem csr_request_limit test_mode (keys : list bytes) (mac : bytes) :
  (22 < length keys < 31)%nat -> parse_request test_mode (cose_mac_0 test_mode keys mac) = None.
Proof.
  intros Hn. unfold cose_mac_0. rewrite header_small by lia. simpl. destruct (split_keys _ _ _) as [ks|]; [|done]. simpl.
  assert ((128 + (Z.of_nat (length keys) + 1)) mod 32 = Z.of_nat (length keys) + 1) as ->
    by (symmetry; apply (Z.mod_unique _ 32 4); lia).
  destruct (Z.ltb_spec (Z.of_nat (length keys) + 1) 24); [lia|]. by rewrite andb_false_r.
Qed.

(** ** Concrete pools *)

#[local] Existing Instance aidl_published.

Lemma csr_request_readable_witness :
  parse_request true (cose_mac_0 true [repeat 5 100; repeat 6 100] (repeat 7 32)) = Some (repeat 7 32, [repeat 5 83; repeat 6 83]).
Proof.
  rewrite (csr_request_readable true [repeat 5 100; repeat 6 100] (repeat 7 32)); [reflexivity|simpl; lia|simpl; lia|].
  repeat constructor; simpl; unfold BYTE_DIST_MAC0_PAYLOAD; lia.
Defined.

Lemma csr_request_limit_witness : parse_request false (cose_mac_0 false (repeat (repeat 5 100) 23) (repeat 7 32)) = None.
Proof. apply csr_request_limit. rewrite repeat_length. lia. Defined.

Definition demo_uuid : Uuid := repeat 7 16.
Definition demo_rp : RemProvState := {| rp_uuid := demo_uuid; is_hal_present := true |}.
Definition demo_subject (b : bytes) : result AnyError bytes := Ok b.
Definition demo_app_key : KeyDescriptor := {| domain := val Domain.APP; nspace := 10001; alias := Some "k"; blob := None |}.
Definition demo_asym : list KmKeyParameter :=
  [{| tag := val Tag.ALGORITHM; value := Field.Algorithm (val Algorithm.EC) |}].
(** One key in the pool, not yet signed; then signed. *)
Definition demo_pool1 : Tables := snd (create_attestation_key_entry [91] [4] [5] [6] demo_uuid empty_tables).
Definition demo_pool2 : Tables := snd (store_signed_attestation_certificate_chain [5] [8] [9] 1000 demo_uuid demo_pool1).

Lemma attests_with_callers_key_witness :
  exists c, assigned_chain (val Domain.APP) 10001 demo_uuid
    (snd (snd (get_remotely_provisioned_attestation_key_and_certs demo_subject true demo_app_key 10001 demo_asym (demo_rp, demo_pool2)))) c.
Proof.
  destruct (get_remotely_provisioned_attestation_key_and_certs demo_subject true demo_app_key 10001 demo_asym (demo_rp, demo_pool2))
    as [r [rp' s']] eqn:E.
  assert (r = Ok (Some ({| ak_blob := [6]; ak_params := []; ak_issuer := [8] |}, [9]))) as Hr
    by (apply (f_equal fst) in E; vm_compute in E; symmetry; exact E). rewrite Hr in E.
  destruct (attests_with_callers_key demo_subject true demo_app_key 10001 demo_asym demo_rp demo_pool2 _ _ rp' s' E)
    as (_ & _ & _ & _ & _ & _ & c & Hc & _). exists c. exact Hc.
Defined.

Lemma out_of_keys_falls_back_witness :
  get_remotely_provisioned_attestation_key_and_certs demo_subject true demo_app_key 10001 demo_asym (demo_rp, demo_pool1) =
  (Ok None, (demo_rp, demo_pool1)).
Proof.
  apply (out_of_keys_falls_back demo_subject true demo_app_key 10001 demo_asym demo_rp demo_pool1
    {| expiring := 0; unassigned := 0; attested := 0; total := 1 |}); try reflexivity; [discriminate|].
  apply Forall_forall. vm_compute. repeat constructor.
Defined.
