(* ===== verification/SecurityLevel.v ===== *)
(** * The security level service ([keystore2/src/security_level.rs])

    [KeystoreSecurityLevel] creates keys and operations: it is where the
    database, the super keys, the enforcements, the operation database, the
    legacy migrator, remote provisioning and the KeyMint device meet.  A
    call runs on [Ks], everything it can change; what the binder says about
    the caller, the clocks and the answers of other services are [Call] and
    the parameters of the section.  Metrics, the audit log and watch points
    are left out; the lock of a key id is free. *)

From stdpp Require Import base list gmap strings.
From Stdlib Require Import ZArith Lia.
From S2P Require Import Prelude Aidl Errors Sql KeyParameter Perboot BootLevelKeys Permission AuthInfo Enforcements Operation OperationDb DbTypes Database DbInvariant DbKeys DbAttestation Crypto RawDevice SuperKey SuperKeyCrypto LegacyFs LegacyMigrator IdRotation RemoteProvisioning LegacySystem.

(** Blob of 32 zeroes used as empty masking key. *)
Definition ZERO_BLOB_32 : bytes := repeat 0 32.
Definition UNDEFINED_NOT_AFTER : Z := 253402300799000.

Record Authorization := {
  az_level : Z;
  az_parameter : KmKeyParameter
}.
Record KeyMetadata := {
  md_key : KeyDescriptor;
  md_level : Z;
  md_certificate : option bytes;
  md_chain : option bytes;
  md_authorizations : list Authorization;
  md_modification_time : Z
}.
Record CreateOperationResponse := {
  co_operation : opid;
  co_challenge : option Z;
  co_parameters : option (list KmKeyParameter);
  co_upgraded_blob : option bytes
}.
Record AuthenticatorSpec := {
  as_type : Z;
  as_id : Z
}.

(** The caller of a binder method and the clocks while it runs.  [c_sid] is
    the caller's SELinux context if binder delivered one. *)
Record Call (Ctx : Type) := {
  c_uid : Z;
  c_sid : option Ctx;
  c_draws : list Z;                  (* random key ids *)
  c_date : result AnyError Z;        (* [DateTime::now()] *)
  c_epoch : option Z;
  c_raw_now : Z;
  c_instant : Z;
  c_wall : Z;
  c_tokens : PerbootDB
}.
Arguments c_uid {Ctx}. Arguments c_sid {Ctx}. Arguments c_draws {Ctx}. Arguments c_date {Ctx}.
Arguments c_epoch {Ctx}. Arguments c_raw_now {Ctx}. Arguments c_instant {Ctx}. Arguments c_wall {Ctx}.
Arguments c_tokens {Ctx}.

(** [ks_rounds]: what the threads around each [prune] do. *)
Record Ks (K : Type) := {
  ks_sys : SuperKey.Sys K Migrator;
  ks_enf : Enforcements;
  ks_ops : OperationDb;
  ks_rounds : list (list Round);
  ks_rp : RemProvState;
  ks_ts : TimestampFs
}.
Arguments ks_sys {K}. Arguments ks_enf {K}. Arguments ks_ops {K}. Arguments ks_rounds {K}. Arguments ks_rp {K}. Arguments ks_ts {K}.

(** Everything around the service that is not part of it. *)
Class Surroundings (Ctx : Type) := {
  (* the KeyMint instance: its level and uuid, whether its binder yields the
     interface, whether it wants timestamp tokens *)
  sl_level : Z;
  sl_uuid : Uuid;
  sl_keymint : result AnyError unit;
  sl_timestamp : bool;
  (* SELinux *)
  sl_getcon : result AnyError Ctx;
  sl_key_context : Z -> result AnyError Ctx;
  sl_check_access : Ctx -> Ctx -> string -> string -> result AnyError unit;
  (* the attestation application id; the permission controller *)
  sl_aaid : Z -> result Z bytes;
  sl_permission_controller : result AnyError unit;
  sl_checkPermission : Z -> result BinderStatus bool;
  (* the certificate parser, the remotely provisioned component, the clock *)
  sl_parse_subject : bytes -> result AnyError bytes;
  sl_component : bool;
  sl_clock : option (Z -> result BinderStatus TimeStampToken);
  (* AID_USER_OFFSET, KEY_FLAG_AUTH_BOUND_WITHOUT_CRYPTOGRAPHIC_LSKF_BINDING,
     Tag::DEVICE_UNIQUE_ATTESTATION; the logarithm of the pruning strategy *)
  sl_user_offset : Z;
  sl_lskf_flag : Z;
  sl_device_unique : Z;
  sl_log6 : Z -> Z
}.

Section SecurityLevel.
Context {AI : Aidl} {BO : Boring} {K : Type} {KMI : KeyMint K} {Ctx : Type} {SU : Surroundings Ctx}.

#[local] Instance any_legacy : Legacy Migrator := migrator_legacy sl_user_offset.
Abbreviation O := (sr (Ks K) AnyError).
Abbreviation call := (Call Ctx).

(** ** Liftings *)

Definition set_sys (g : SuperKey.Sys K Migrator) (k : Ks K) : Ks K :=
  {| ks_sys := g; ks_enf := ks_enf k; ks_ops := ks_ops k; ks_rounds := ks_rounds k; ks_rp := ks_rp k; ks_ts := ks_ts k |}.
Definition set_enf (e : Enforcements) (k : Ks K) : Ks K :=
  {| ks_sys := ks_sys k; ks_enf := e; ks_ops := ks_ops k; ks_rounds := ks_rounds k; ks_rp := ks_rp k; ks_ts := ks_ts k |}.
Definition set_ops (d : OperationDb) (r : list (list Round)) (k : Ks K) : Ks K :=
  {| ks_sys := ks_sys k; ks_enf := ks_enf k; ks_ops := d; ks_rounds := r; ks_rp := ks_rp k; ks_ts := ks_ts k |}.

Definition on_sys {E A} (m : sr (SuperKey.Sys K Migrator) E A) : sr (Ks K) E A := fun k =>
  let '(r, g) := m (ks_sys k) in (r, set_sys g k).
(** A KeyMint call. *)
Definition on_km {A} (m : sr K BinderStatus A) : sr (Ks K) Error A := fun k =>
  let '(r, w) := with_km m (g_world (ks_sys k)) in
  (r, set_sys {| g_skm := g_skm (ks_sys k); g_world := w; g_tape := g_tape (ks_sys k); g_legacy := g_legacy (ks_sys k) |} k).
Definition ks_any {A} (m : sr (Ks K) Error A) : O A := sr_map_err KsError m.
Definition on_rem_prov {A} (m : sr (RemProvState * Tables) AnyError A) : O A := fun k =>
  let g := ks_sys k in
  let '(r, (rp, s)) := m (ks_rp k, w_db (g_world g)) in
  (r, {| ks_sys := {| g_skm := g_skm g; g_world := set_db s (g_world g); g_tape := g_tape g; g_legacy := g_legacy g |};
         ks_enf := ks_enf k; ks_ops := ks_ops k; ks_rounds := ks_rounds k; ks_rp := rp; ks_ts := ks_ts k |}).
Definition on_timestamp {A} (m : sr TimestampFs TimestampError A) : O A := fun k =>
  let '(r, t) := m (ks_ts k) in
  (map_err (fun _ => OtherError) r,
   {| ks_sys := ks_sys k; ks_enf := ks_enf k; ks_ops := ks_ops k; ks_rounds := ks_rounds k; ks_rp := ks_rp k; ks_ts := t |}).
Definition km_error {A} (n : ErrorCode.name) : O A := throw (KsError (Km (val n))).

(** ** Helpers of [utils.rs] *)

Definition check_key_permission (c : call) (p : Z) (key : KeyDescriptor) (av : option Z) : result AnyError unit :=
  sid ← ok_or (c_sid c) err_sys;
  Permission.check_key_permission sl_getcon sl_key_context sl_check_access (c_uid c) sid p key av.

Definition is_device_id_attestation_tag (t : Z) : bool :=
  (t =? val Tag.ATTESTATION_ID_IMEI) || (t =? val Tag.ATTESTATION_ID_MEID) || (t =? val Tag.ATTESTATION_ID_SERIAL)
  || (t =? sl_device_unique).

Definition check_device_attestation_permissions (c : call) : result AnyError unit :=
  _ ← sl_permission_controller;
  has_permissions ← map_err KsError (map_binder_status (sl_checkPermission (as_i32 (c_uid c))));
  if (has_permissions : bool) then Ok tt else Err (KsError (Km (val ErrorCode.CANNOT_ATTEST_IDS))).

Definition key_parameters_to_authorizations (l : list KeyParameter) : list Authorization :=
  (fun p => {| az_level := security_level p; az_parameter := into_km (kp_value p) |}) <$> l.

(** ** Storing keys *)

Definition cert_info_of (chain : list bytes) : CertificateInfo :=
  {| cert := head chain; cert_chain := match tail chain with [] => None | l => Some (mjoin l) end |}.

Definition key_id_descriptor (id : Z) : KeyDescriptor :=
  {| domain := val Domain.KEY_ID; nspace := id; alias := None; blob := None |}.

(** The parameters stored with a new key. *)
Definition new_key_parameters (cr : KeyCreationResult) (user_id : Z) : list KeyParameter :=
  key_characteristics_to_internal (cr_characteristics cr)
    ++ [{| kp_value := UserID (as_i32 user_id); security_level := val SecurityLevel.SOFTWARE |}].

Definition store_new_key (c : call) (key : KeyDescriptor) (cr : KeyCreationResult) (user_id : Z) (flags : option Z)
    : O KeyMetadata :=
  let cert_info := cert_info_of (cr_certificates cr) in
  let key_parameters := new_key_parameters cr user_id in
  creation_date ← lift (c_date c);
  key ← (if domain key =? val Domain.BLOB
         then mret {| domain := val Domain.BLOB; nspace := 0; alias := None; blob := Some (cr_blob cr) |}
         else
           '(key_blob, blob_metadata) ← on_sys (handle_super_encryption_on_key_init sl_lskf_flag (domain key)
                                                  key_parameters flags user_id (cr_blob cr));
           key_id ← on_sys (on_db (Database.store_new_key (c_draws c) key KeyType.Client key_parameters
                                     (key_blob, meta_add (KmUuid sl_uuid) blob_metadata) cert_info
                                     (meta_add (CreationDate creation_date) ∅) sl_uuid));
           mret (key_id_descriptor key_id));
  mret {| md_key := key; md_level := sl_level; md_certificate := cert cert_info; md_chain := cert_chain cert_info;
          md_authorizations := key_parameters_to_authorizations key_parameters;
          md_modification_time := creation_date |}.

(** ** Upgrading key blobs *)

Definition store_upgraded_keyblob (key_id : Z) (uuid : option Uuid) (key_blob : KeyBlob) (upgraded_blob : bytes) : O unit :=
  '(to_be_stored, new_metadata) ← on_sys (on_tape (reencrypt_if_required key_blob upgraded_blob));
  let m := default ∅ new_metadata in
  let m := match uuid with Some u => meta_add (KmUuid u) m | None => m end in
  on_sys (on_db (set_blob key_id SubComponentType.KEY_BLOB (Some (deref to_be_stored)) (Some m))).

(** What [upgrade_keyblob_if_required_with] does when the device asks for an
    upgrade, and otherwise. *)
Definition upgrade_and_retry {A} (key_id : option Z) (key_blob : KeyBlob) (blob_metadata : BlobMetaData)
    (params : list KmKeyParameter) (f : bytes -> sr (Ks K) Error A) : O (A * option bytes) :=
  upgraded_blob ← ks_any (on_km (km_upgradeKey (deref key_blob) params));
  _ ← match key_id with
      | Some kid => store_upgraded_keyblob kid (km_uuid_of blob_metadata) key_blob upgraded_blob
      | None => mret tt
      end;
  v ← ks_any (f upgraded_blob);
  mret (v, Some upgraded_blob).

Definition no_upgrade {A} (key_id : option Z) (key_blob : KeyBlob) (blob_metadata : BlobMetaData) (r : result AnyError A)
    : O (A * option bytes) :=
  _ ← match key_id with
      | Some kid => if force_reencrypt_of key_blob
                    then store_upgraded_keyblob kid (km_uuid_of blob_metadata) key_blob (deref key_blob)
                    else mret tt
      | None => mret tt
      end;
  v ← lift r;
  mret (v, None).

Definition upgrade_keyblob_if_required_with {A} (key_id : option Z) (key_blob : KeyBlob) (blob_metadata : BlobMetaData)
    (params : list KmKeyParameter) (f : bytes -> sr (Ks K) Error A) : O (A * option bytes) := fun k =>
  match f (deref key_blob) k with
  | (Panic, k') => (Panic, k')
  | (Err e, k') =>
    if bool_decide (e = Km (val ErrorCode.KEY_REQUIRES_UPGRADE)) then upgrade_and_retry key_id key_blob blob_metadata params f k'
    else no_upgrade key_id key_blob blob_metadata (Err (KsError e)) k'
  | (Ok v, k') => no_upgrade key_id key_blob blob_metadata (Ok v) k'
  end.

(** ** Operations *)

(** [OperationDb::prune]; [None] when no more of the surroundings is given. *)
Definition prune_ops (caller_uid : Z) (frc : bool) : sr (Ks K) Error (option unit) := fun k =>
  match ks_rounds k with
  | [] => (Ok None, k)
  | rounds :: rest =>
    match OperationDb.prune sl_log6 rounds caller_uid frc (ks_ops k) with
    | (None, d) => (Ok None, set_ops d rest k)
    | (Some (Ok _), d) => (Ok (Some tt), set_ops d rest k)
    | (Some (Err e), d) => (Err e, set_ops d rest k)
    | (Some Panic, d) => (Panic, set_ops d rest k)
    end
  end.

(** The loop around [begin]: [None] when the fuel or the surroundings run
    out. *)
Fixpoint begin_loop (fuel : nat) (purpose : Z) (b : bytes) (op_params : list KmKeyParameter) (hat : option HardwareAuthToken)
    (caller_uid : Z) (frc : bool) : sr (Ks K) Error (option BeginResult) :=
  match fuel with
  | 0%nat => mret None
  | S fuel => fun k =>
    match on_km (km_begin purpose b op_params hat) k with
    | (Ok r, k') => (Ok (Some r), k')
    | (Panic, k') => (Panic, k')
    | (Err e, k') =>
      if bool_decide (e = Km (val ErrorCode.TOO_MANY_OPERATIONS)) then
        (p ← prune_ops caller_uid frc;
         match p with
         | Some _ => begin_loop fuel purpose b op_params hat caller_uid frc
         | None => mret None
         end) k'
      else (Err e, k')
    end
  end.

Definition purpose_of (params : list KmKeyParameter) : result AnyError Z :=
  match find (fun p => tag p =? val Tag.PURPOSE) params with
  | Some {| value := Field.KeyPurpose p |} => Ok p
  | _ => Err (KsError (Km (val ErrorCode.INVALID_ARGUMENT)))
  end.

(** Key blob, parameters, key id and metadata of the key to use. *)
Definition LoadedKey : Type := bytes * option (Z * list KeyParameter) * option Z * BlobMetaData.

Definition check_use (c : call) (frc : bool) (key : KeyDescriptor) (av : option Z) : result AnyError unit :=
  _ ← check_key_permission c (val KeyPermission.USE) key av;
  if frc then check_key_permission c (val KeyPermission.REQ_FORCED_OP) key av else Ok tt.

(** [with_try_migrate] around [load_key_entry]. *)
Definition load_or_migrate (c : call) (migrate key : KeyDescriptor) (check : KeyDescriptor -> option Z -> result AnyError unit)
    : O (Z * KeyEntry) :=
  on_sys (on_legacy (with_try_migrate sl_user_offset migrate (c_uid c) (fun md =>
    (load_key_entry key KeyType.Client LoadBits.KM (c_uid c) check true md.2 md.2, md)))).

Definition load_key_for_operation (c : call) (key : KeyDescriptor) (frc : bool) : O LoadedKey :=
  if domain key =? val Domain.BLOB then
    _ ← lift (check_use c frc key None);
    b ← lift (ok_or (blob key) err_sys);
    mret (b, None, None, ∅)
  else
    '(key_id, e) ← load_or_migrate c key key (check_use c frc);
    '(b, m) ← lift (ok_or (ke_key_blob_info e) err_sys);
    mret (b, Some (key_id, ke_parameters e), Some key_id, m).

Definition enforcement_env (c : call) (k : Ks K) : Enforcements.Env PerbootDB :=
  {| epoch_millis := c_epoch c; raw_now := c_raw_now c; token_db := c_tokens c;
     boot_cache := boot_level_key_cache (g_skm (ks_sys k)) |}.

Definition authorize (c : call) (purpose : Z) (key_properties : option (Z * list KeyParameter)) (op_params : list KmKeyParameter)
    : O (option HardwareAuthToken * AuthInfo) := fun k =>
  (authorize_create (ks_enf k) (enforcement_env c k) purpose key_properties op_params sl_timestamp, k).

Definition finalize (info : AuthInfo) (challenge : Z) : O (option Z * AuthInfo) := fun k =>
  match finalize_create_authorization sl_clock (ks_enf k) info challenge with
  | Ok (ch, info, e) => (Ok (ch, info), set_enf e k)
  | Err e => (Err e, k)
  | Panic => (Panic, k)
  end.

Definition add_operation (c : call) (km_op : Z) (info : AuthInfo) (frc : bool) (log : LoggingInfo) : O opid := fun k =>
  let '(d, i) := OperationDb.create_operation (ks_ops k) km_op (c_uid c) info frc log (c_instant c) in
  (Ok i, set_ops d (ks_rounds k) k).

(** What follows a successful [begin]. *)
Definition begun (c : call) (key : KeyDescriptor) (frc : bool) (purpose : Z) (op_params : list KmKeyParameter) (info : AuthInfo)
    (br : BeginResult) (upgraded_blob : option bytes) : O CreateOperationResponse :=
  '(challenge, info) ← finalize info (br_challenge br);
  km_op ← lift (ok_or (br_operation br) err_sys);
  i ← add_operation c km_op info frc {| sec_level := sl_level; Operation.purpose := purpose; Operation.op_params := op_params;
                                        key_upgraded := bool_decide (is_Some upgraded_blob) |};
  mret {| co_operation := i; co_challenge := challenge;
          co_parameters := match br_params br with [] => None | l => Some l end;
          co_upgraded_blob := if domain key =? val Domain.BLOB then upgraded_blob else None |}.

(** [None] when the surroundings given for the loop run out. *)
Definition create_operation (c : call) (key : KeyDescriptor) (operation_parameters : list KmKeyParameter) (frc : bool)
    : O (option CreateOperationResponse) :=
  '(km_blob, key_properties, key_id, blob_metadata) ← load_key_for_operation c key frc;
  purpose ← lift (purpose_of operation_parameters);
  let op_params := List.filter (fun p => negb (tag p =? val Tag.PURPOSE)) operation_parameters in
  '(immediate_hat, auth_info) ← authorize c purpose key_properties op_params;
  km_blob ← on_sys (on_skm (unwrap_key_if_required blob_metadata km_blob));
  _ ← lift sl_keymint;
  '(begin_result, upgraded_blob) ← upgrade_keyblob_if_required_with key_id km_blob blob_metadata op_params
      (fun b k => begin_loop (S (length (ks_rounds k))) purpose b op_params immediate_hat (c_uid c) frc k);
  match begin_result with
  | None => mret None
  | Some br =>
    r ← begun c key frc purpose op_params auth_info br upgraded_blob;
    mret (Some r)
  end.

(** ** New keys *)

Definition has_tag (t : Tag.name) (l : list KmKeyParameter) : bool := existsb (fun kp => tag kp =? val t) l.

Definition is_rsa_or_ec (params : list KmKeyParameter) : bool :=
  match find (fun kp => tag kp =? val Tag.ALGORITHM) params with
  | Some {| value := Field.Algorithm a |} => (a =? val Algorithm.RSA) || (a =? val Algorithm.EC)
  | _ => false
  end.

Definition add_certificate_parameters (c : call) (uid : Z) (params : list KmKeyParameter) (key : KeyDescriptor)
    : O (list KmKeyParameter) :=
  r1 ← (if has_tag Tag.ATTESTATION_CHALLENGE params then
          aaid ← lift (map_err (fun _ => OtherError) (sl_aaid uid));
          mret (params ++ [{| tag := val Tag.ATTESTATION_APPLICATION_ID; value := Field.Blob aaid |}])
        else mret params);
  r2 ← (if has_tag Tag.INCLUDE_UNIQUE_ID params then
          _ ← lift (check_key_permission c (val KeyPermission.GEN_UNIQUE_ID) key None);
          reset ← on_timestamp (had_factory_reset_since_id_rotation (c_wall c));
          mret (if (reset : bool) then r1 ++ [{| tag := val Tag.RESET_SINCE_ID_ROTATION; value := Field.BoolValue true |}] else r1)
        else mret r1);
  _ ← (if existsb (fun kp => is_device_id_attestation_tag (tag kp)) params
       then lift (check_device_attestation_permissions c) else mret tt);
  if is_rsa_or_ec params then
    let r3 := if has_tag Tag.CERTIFICATE_NOT_BEFORE params then r2
              else r2 ++ [{| tag := val Tag.CERTIFICATE_NOT_BEFORE; value := Field.DateTime 0 |}] in
    mret (if has_tag Tag.CERTIFICATE_NOT_AFTER params then r3
          else r3 ++ [{| tag := val Tag.CERTIFICATE_NOT_AFTER; value := Field.DateTime UNDEFINED_NOT_AFTER |}])
  else mret r2.

(** The descriptor under which a new key is stored. *)
Definition new_key_descriptor (c : call) (key : KeyDescriptor) : KeyDescriptor :=
  if domain key =? val Domain.APP
  then {| domain := domain key; nspace := c_uid c; alias := alias key; blob := None |} else key.

Definition missing_alias (key : KeyDescriptor) : bool :=
  negb (domain key =? val Domain.BLOB) && bool_decide (alias key = None).

(** The device call of [generate_key], by attestation key. *)
Definition generate_with (info : option AttestationKeyInfo) (params : list KmKeyParameter) : O KeyCreationResult :=
  match info with
  | Some (UserGenerated key_id b m issuer) =>
    '(r, _) ← upgrade_keyblob_if_required_with (Some key_id) (Ref b) m params
        (fun b => on_km (km_generateKey params (Some {| ak_blob := b; ak_params := []; ak_issuer := issuer |})));
    mret r
  | Some (RemoteProvisioned ak certs) =>
    r ← ks_any (on_km (km_generateKey params (Some ak)));
    mret {| cr_blob := cr_blob r; cr_characteristics := cr_characteristics r; cr_certificates := cr_certificates r ++ [certs] |}
  | None => ks_any (on_km (km_generateKey params None))
  end.

Definition generate_key (c : call) (key : KeyDescriptor) (attest_key : option KeyDescriptor) (params : list KmKeyParameter)
    (flags : Z) : O KeyMetadata :=
  if missing_alias key then km_error ErrorCode.INVALID_ARGUMENT
  else
    let key := new_key_descriptor c key in
    _ ← lift (check_key_permission c (val KeyPermission.REBIND) key None);
    info ← (if domain key =? val Domain.BLOB then mret None
            else on_rem_prov (get_attest_key_info sl_parse_subject sl_component (check_key_permission c (val KeyPermission.USE))
                                key (c_uid c) attest_key params));
    params ← add_certificate_parameters c (c_uid c) params key;
    _ ← lift sl_keymint;
    creation_result ← generate_with info params;
    store_new_key c key creation_result (uid_to_android_user sl_user_offset (c_uid c)) (Some flags).

Definition import_format (params : list KmKeyParameter) : result AnyError Z :=
  match find (fun kp => tag kp =? val Tag.ALGORITHM) params with
  | Some {| value := Field.Algorithm a |} =>
    if (a =? val Algorithm.AES) || (a =? val Algorithm.HMAC) || (a =? val Algorithm.TRIPLE_DES) then Ok (val KeyFormat.RAW)
    else if (a =? val Algorithm.RSA) || (a =? val Algorithm.EC) then Ok (val KeyFormat.PKCS8)
    else Err (KsError (Km (val ErrorCode.INVALID_ARGUMENT)))
  | _ => Err (KsError (Km (val ErrorCode.INVALID_ARGUMENT)))
  end.

Definition import_key (c : call) (key : KeyDescriptor) (params : list KmKeyParameter) (flags : Z) (key_data : bytes)
    : O KeyMetadata :=
  if missing_alias key then km_error ErrorCode.INVALID_ARGUMENT
  else
    let key := new_key_descriptor c key in
    _ ← lift (check_key_permission c (val KeyPermission.REBIND) key None);
    params ← add_certificate_parameters c (c_uid c) params key;
    format ← lift (import_format params);
    _ ← lift sl_keymint;
    creation_result ← ks_any (on_km (km_importKey params format key_data None));
    store_new_key c key creation_result (uid_to_android_user sl_user_offset (c_uid c)) (Some flags).

Definition sid_of (t : AuthenticatorType.name) (l : list AuthenticatorSpec) : Z :=
  match find (fun a => as_type a =? val t) l with Some a => as_id a | None => -1 end.

Definition import_wrapped_key (c : call) (key wrapping_key : KeyDescriptor) (masking_key : option bytes)
    (params : list KmKeyParameter) (authenticators : list AuthenticatorSpec) : O KeyMetadata :=
  match app_or_selinux (domain key), blob key, alias key with
  | true, Some wrapped_data, Some al =>
    if domain wrapping_key =? val Domain.BLOB then km_error ErrorCode.INVALID_ARGUMENT
    else
      let key := if domain key =? val Domain.APP
                 then {| domain := domain key; nspace := c_uid c; alias := Some al; blob := None |}
                 else {| domain := val Domain.SELINUX; nspace := nspace key; alias := Some al; blob := None |} in
      _ ← lift (check_key_permission c (val KeyPermission.REBIND) key None);
      '(wrapping_id, e) ← load_or_migrate c key wrapping_key (check_key_permission c (val KeyPermission.USE));
      '(b, m) ← lift (ok_or (ke_key_blob_info e) err_sys);
      wrapping_blob ← on_sys (on_skm (unwrap_key_if_required m b));
      let pw_sid := sid_of AuthenticatorType.PASSWORD authenticators in
      let fp_sid := sid_of AuthenticatorType.FINGERPRINT authenticators in
      let masking_key := default ZERO_BLOB_32 masking_key in
      _ ← lift sl_keymint;
      '(creation_result, _) ← upgrade_keyblob_if_required_with (Some wrapping_id) wrapping_blob m []
          (fun b => on_km (km_importWrappedKey wrapped_data b masking_key params pw_sid fp_sid));
      store_new_key c key creation_result (uid_to_android_user sl_user_offset (c_uid c)) None
  | _, _, _ => km_error ErrorCode.INVALID_ARGUMENT
  end.

(** ** Self managed blobs *)

Definition convert_or_upgrade (key_blob : bytes) : O (bytes * option bytes) := fun k =>
  match on_km (km_convertStorageKeyToEphemeral key_blob) k with
  | (Ok r, k') => (Ok (r, None), k')
  | (Panic, k') => (Panic, k')
  | (Err e, k') =>
    if bool_decide (e = Km (val ErrorCode.KEY_REQUIRES_UPGRADE)) then
      (upgraded_blob ← ks_any (on_km (km_upgradeKey key_blob []));
       r ← ks_any (on_km (km_convertStorageKeyToEphemeral upgraded_blob));
       mret (r, Some upgraded_blob)) k'
    else (Err (KsError e), k')
  end.

(** The ephemeral key and the upgraded blob, if there is one. *)
Definition convert_storage_key_to_ephemeral (c : call) (storage_key : KeyDescriptor) : O (bytes * option bytes) :=
  if negb (domain storage_key =? val Domain.BLOB) then km_error ErrorCode.INVALID_ARGUMENT
  else
    key_blob ← lift (ok_or (blob storage_key) (KsError (Km (val ErrorCode.INVALID_ARGUMENT))));
    _ ← lift (check_key_permission c (val KeyPermission.CONVERT_STORAGE_KEY_TO_EPHEMERAL) storage_key None);
    _ ← lift sl_keymint;
    convert_or_upgrade key_blob.

Definition delete_key (c : call) (key : KeyDescriptor) : O unit :=
  if negb (domain key =? val Domain.BLOB) then km_error ErrorCode.INVALID_ARGUMENT
  else
    key_blob ← lift (ok_or (blob key) (KsError (Km (val ErrorCode.INVALID_ARGUMENT))));
    _ ← lift (check_key_permission c (val KeyPermission.DELETE) key None);
    _ ← lift sl_keymint;
    ks_any (on_km (km_deleteKey key_blob)).
End SecurityLevel.
