(* ===== verification/SecurityLevelKeys.v ===== *)
(** * New keys and upgraded blobs

    What [store_new_key] of the security level stores is what the device
    made, to be opened with the super key the parameters ask for; a blob the
    device upgraded replaces the old one, encrypted as before. *)

From stdpp Require Import base list gmap strings.
From Stdlib Require Import ZArith Lia.
From S2P Require Import Prelude Aidl Errors Sql KeyParameter Perboot BootLevelKeys Permission AuthInfo Enforcements Operation OperationDb DbTypes Database DbInvariant DbKeys DbAttestation Crypto RawDevice SuperKey SuperKeyCrypto LegacyFs LegacyMigrator IdRotation RemoteProvisioning LegacySystem SecurityLevel.

Section Blobs.
Context {AI : Aidl} {BO : Boring}.

(** The device a blob belongs to has no part in opening it. *)
Lemma unwrap_uuid u m b s : unwrap_key_if_required (meta_add (KmUuid u) m) b s = unwrap_key_if_required m b s.
Proof.
  unfold unwrap_key_if_required.
  assert (from_metadata (meta_add (KmUuid u) m) = from_metadata m) as -> by (unfold from_metadata; by meta_lookup).
  destruct (from_metadata m) as [i|]; [|done].
  assert (forall sk, unwrap_key_with_key b (meta_add (KmUuid u) m) sk = unwrap_key_with_key b m sk) as H.
  { intros sk. unfold unwrap_key_with_key. by meta_lookup. }
  unfold mbind, sr_bind, lift. destruct (lookup_key i s) as [[o| |] s1]; [|done..].
  destruct o as [sk|]; simpl; [|done]. by rewrite H.
Qed.

Lemma readable_uuid i good c m blob u : readable_with i good c m blob -> readable_with i good c (meta_add (KmUuid u) m) blob.
Proof.
  intros (Hi & H). split; [rewrite <- Hi; unfold from_metadata; by meta_lookup|]. intros s s' k' Hl Hg. rewrite unwrap_uuid. by apply (H s s' k').
Qed.
End Blobs.

Section Keys.
Context {AI : Aidl} {BO : Boring} {K : Type} {KMI : KeyMint K} (off : Z).
#[local] Instance this_legacy : Legacy Migrator := migrator_legacy off.
Implicit Types (g : SuperKey.Sys K Migrator).

(** Super encryption reads the database and leaves it alone. *)
Lemma on_skm_world {A} (m : sr Skm AnyError A) g r g' : on_skm m g = (r, g') -> g_world g' = g_world g.
Proof. unfold on_skm. destruct (m _). intros. by simplify_eq. Qed.
Lemma on_tape_world {A} (m : sr Tape AnyError A) g r g' : on_tape m g = (r, g') -> g_world g' = g_world g.
Proof. unfold on_tape. destruct (m _). intros. by simplify_eq. Qed.

Lemma handle_super_db flag dom params flags user blob g c m g' :
  handle_super_encryption_on_key_init flag dom params flags user blob g = (Ok (c, m), g') ->
  w_db (g_world g') = w_db (g_world g) /\ w_km (g_world g') = w_km (g_world g).
Proof.
  unfold handle_super_encryption_on_key_init. destruct (super_encryption_required _ _ _ _) as [| | |lv]; intros H.
  - unfold mret, sr_ret in H. by simplify_eq.
  - apply sr_bind_Ok in H as (st & g1 & Hst & H).
    assert (w_db (g_world g1) = w_db (g_world g) /\ w_km (g_world g1) = w_km (g_world g)) as [<- <-].
    { apply sr_bind_Ok in Hst as (o & g2 & <-%on_skm_world & Hst). destruct o as [k|]; [unfold mret, sr_ret in Hst; by simplify_eq|].
      apply sr_bind_Ok in Hst as (b & g3 & Hex & Hst). unfold mret, sr_ret in Hst. simplify_eq.
      apply sr_bind_Ok in Hex as (ib & g4 & [_ ->]%read_db_Ok & Hex). destruct ib; [unfold mret, sr_ret in Hex; by simplify_eq|].
      unfold legacy_has_super_key in Hex. apply on_legacy_Ok in Hex as (l & s & Hl & ->). simpl.
      by apply lg_has_super_key_db in Hl. }
    destruct st; [|done..]. apply on_tape_world in H. by rewrite H.
  - apply sr_bind_Ok in H as ([] & g1 & H1%on_skm_world & H). apply sr_bind_Ok in H as (o & g2 & H2%on_skm_world & H).
    rewrite <- H1, <- H2. destruct o as [k|]; [by apply on_tape_world in H as ->|].
    unfold encrypt_with_public_key in H. apply sr_bind_Ok in H as (l & g3 & [_ ->]%read_db_Ok & H).
    apply sr_bind_Ok in H as ([id e] & g4 & [_ ->]%lift_Ok & H). apply sr_bind_Ok in H as (pk & g5 & [_ ->]%lift_Ok & H).
    apply sr_bind_Ok in H as ([[[[a b] cc] d] ee] & g6 & H6%on_tape_world & H). unfold mret, sr_ret in H. simplify_eq. by rewrite H6.
  - apply sr_bind_Ok in H as (o & g1 & H1%on_skm_world & H). apply sr_bind_Ok in H as (k & g2 & [_ ->]%lift_Ok & H).
    apply on_tape_world in H. by rewrite H, H1.
Qed.

(** [c] with metadata [m] can be turned back into [blob]: as it is, or with
    the super key that was in use for [req] in [g]. *)
Definition recoverable g (req : SuperEncryptionType) (user : Z) (c : bytes) (m : BlobMetaData) (blob : bytes) : Prop :=
  match req with
  | SENone => forall s, unwrap_key_if_required m c s = (Ok (Ref blob), s)
  | LskfBound => exists k, get_per_boot_key_by_user_id (g_skm g) user = Some k /\ readable_with (sk_id k) (same_material k) c m blob
  | ScreenLockBound =>
    match screen_lock_bound (entry (g_skm g) user) with
    | Some k => readable_with (sk_id k) (same_material k) c m blob
    | None => exists id e pk,
        Database.load_super_key (kt_alias USER_SCREEN_LOCK_BOUND_P521_KEY) user (w_db (g_world g)) = Ok (Some (id, e)) /\
        sec1_public_key_of (ke_metadata e) = Some pk /\
        readable_with (DatabaseId id) (fun k' => sk_algorithm k' = EcdhP521 /\
          exists ec, private_key ec = Ok (sk_key k') /\ public_key ec = Ok pk) c m blob
    end
  | BootLevel level => exists k s1, lookup_key (BootLevelId level) (g_skm g) = (Ok (Some k), s1) /\
      readable_with (BootLevelId level) (same_material k) c m blob
  end.

Lemma handle_super_recoverable flag dom params flags user blob g c m g' u :
  handle_super_encryption_on_key_init flag dom params flags user blob g = (Ok (c, m), g') ->
  recoverable g (super_encryption_required flag dom params flags) user c (meta_add (KmUuid u) m) blob.
Proof.
  intros H%super_encryption_sealed. destruct (super_encryption_required _ _ _ _) as [| | |lv]; simpl in *.
  - destruct H as [-> ->]. intros s. rewrite unwrap_uuid. done.
  - destruct H as (k & ? & ?). eauto using readable_uuid.
  - destruct (screen_lock_bound _); [by apply readable_uuid|]. destruct H as (id & e & pk & ? & ? & ?). exists id, e, pk.
    split_and!; [done|done|by apply readable_uuid].
  - destruct H as (k & s1 & ? & ?). eauto using readable_uuid.
Qed.

(** The super keys of a user are in the database. *)
Definition user_keys_in_db g (user : Z) : Prop :=
  forall k, per_boot (entry (g_skm g) user) = Some k \/ screen_lock_bound (entry (g_skm g) user) = Some k ->
    exists id, sk_id k = DatabaseId id.

Lemma boot_level_param flag dom params flags lv :
  super_encryption_required flag dom params flags = BootLevel lv -> exists p, p ∈ params /\ kp_value p = MaxBootLevel lv.
Proof.
  unfold super_encryption_required. destruct (match flags with Some _ => _ | None => _ end); [done|].
  assert (forall acc, snd (fold_left (stronger dom) params acc) = BootLevel lv ->
    snd acc = BootLevel lv \/ exists p, p ∈ params /\ kp_value p = MaxBootLevel lv) as H.
  { induction params as [|p ps IH]; intros acc; simpl; [by left|]. intros [H|(q & Hq & Hv)]%IH.
    - unfold stronger in H. destruct (fst acc <? fst (candidate dom p)); [|by left].
      unfold candidate in H. right. exists p. split; [left|].
      destruct (kp_value p); simpl in H; try done; try (destruct (dom =? _); done). by simplify_eq.
    - right. exists q. split; [by right|done]. }
  intros [?|?]%H; done.
Qed.

Lemma wrap_wf blob k t c m t' :
  encrypt_with_aes_super_key blob k t = (Ok (c, m), t') ->
  (forall lv, sk_id k = BootLevelId lv -> i32_range lv) -> meta_data_wf m.
Proof.
  unfold encrypt_with_aes_super_key. case_bool_decide as Ha; [|done]. simpl. rewrite sr_bind_Ok.
  intros ([[c0 iv] tag] & t1 & _ & H) Hlv. unfold mret, sr_ret in H. simplify_eq.
  assert (meta_data_wf (meta_add (AeadTag tag) (meta_add (Iv iv) (∅ : BlobMetaData)))) as Hm.
  { apply meta_add_wf; [done|]. apply meta_add_wf; [done|]. apply map_Forall_empty. }
  unfold add_to_metadata. destruct (sk_id k) as [id|lv]; apply meta_add_wf; [done|done|by apply Hlv|done].
Qed.

Lemma handle_super_wf flag dom params flags user blob g c m g' :
  Forall (fun p => kpv_wf (kp_value p)) params -> user_keys_in_db g user ->
  handle_super_encryption_on_key_init flag dom params flags user blob g = (Ok (c, m), g') -> meta_data_wf m.
Proof.
  intros Hp Hu. unfold handle_super_encryption_on_key_init.
  destruct (super_encryption_required _ _ _ _) as [| | |lv] eqn:Er; intros H.
  - unfold mret, sr_ret in H. simplify_eq. apply map_Forall_empty.
  - apply sr_bind_Ok in H as (st & g1 & Hst & H). apply sr_bind_Ok in Hst as (o & g2 & (s2 & Hs & ->)%on_skm_Ok & Hst).
    unfold gets in Hs. injection Hs as <- <-. destruct (get_per_boot_key_by_user_id _ _) as [k|] eqn:Ek.
    + unfold mret, sr_ret in Hst. simplify_eq. apply on_tape_Ok in H as (t & H & _). eapply wrap_wf; [exact H|].
      intros lv Hlv. destruct (Hu k) as [id Hid]; [|congruence]. left. unfold get_per_boot_key_by_user_id in Ek. unfold entry.
      by destruct (user_keys _ !! user).
    + apply sr_bind_Ok in Hst as (b & g3 & _ & Hst). unfold mret, sr_ret in Hst. simplify_eq. by destruct b.
  - apply sr_bind_Ok in H as ([] & g1 & (s1 & Hs1 & ->)%on_skm_Ok & H). unfold modify in Hs1. injection Hs1 as <-.
    apply sr_bind_Ok in H as (o & g2 & (s2 & Hs2 & ->)%on_skm_Ok & H). unfold gets in Hs2. injection Hs2 as <- <-.
    unfold entry in H at 1. simpl in H. rewrite lookup_insert_eq in H. simpl in H.
    destruct (screen_lock_bound (entry _ _)) as [k|] eqn:Ek.
    + apply on_tape_Ok in H as (t & H & _). eapply wrap_wf; [exact H|]. intros lv Hlv.
      destruct (Hu k) as [id Hid]; [by right|congruence].
    + unfold encrypt_with_public_key in H. apply sr_bind_Ok in H as (l & g3 & [_ ->]%read_db_Ok & H).
      apply sr_bind_Ok in H as ([id e] & g4 & [_ ->]%lift_Ok & H). apply sr_bind_Ok in H as (pk & g5 & [_ ->]%lift_Ok & H).
      apply sr_bind_Ok in H as ([[[[a b] cc] d] ee] & g6 & _ & H). unfold mret, sr_ret in H. simplify_eq.
      unfold add_to_metadata. repeat (apply meta_add_wf; [done|]). apply map_Forall_empty.
  - apply sr_bind_Ok in H as (o & g1 & (s1 & Hs1 & ->)%on_skm_Ok & H).
    apply sr_bind_Ok in H as (k & g2 & [Hk ->]%lift_Ok & H). apply ok_or_Ok in Hk as ->.
    apply on_tape_Ok in H as (t & H & _). eapply wrap_wf; [exact H|]. intros lv' Hlv.
    assert (sk_id k = BootLevelId lv) as Hid.
    { unfold lookup_key in Hs1. destruct (boot_level_key_cache _) as [bc|]; [|done]. destruct (aes_key _ _ _) as [r bc'].
      destruct r as [[kk|]| |]; [|done..]. by injection Hs1 as <- <-. }
    apply boot_level_param in Er as (p & Hin & Hv). rewrite Forall_forall in Hp. specialize (Hp p Hin). rewrite Hv in Hp. 
    simplify_eq. rewrite Hid in Hlv. by simplify_eq.
Qed.
End Keys.

Section Store.
Context {AI : Aidl} {BO : Boring} {K : Type} {KMI : KeyMint K} {Ctx : Type} {SU : Surroundings Ctx}.
Implicit Types (k : Ks K) (c : Call Ctx).

Abbreviation db k := (w_db (g_world (ks_sys k))).

Lemma on_sys_Ok {E A} (m : sr (SuperKey.Sys K Migrator) E A) k a k' :
  on_sys m k = (Ok a, k') -> exists g, m (ks_sys k) = (Ok a, g) /\ k' = set_sys g k.
Proof. unfold on_sys. destruct (m _) as [r g]. intros. simplify_eq. eauto. Qed.

(** What [store_new_key] leaves behind for a key that is not a self managed
    blob: [id], its entry and how its blob is protected. *)
Definition stored k k' (key : KeyDescriptor) (cr : KeyCreationResult) (user : Z) (flags : option Z) (md : KeyMetadata) : Prop :=
  app_or_selinux (domain key) = true /\ exists id cb m date,
    md = {| md_key := SecurityLevel.key_id_descriptor id; md_level := sl_level;
            md_certificate := cert (cert_info_of (cr_certificates cr)); md_chain := cert_chain (cert_info_of (cr_certificates cr));
            md_authorizations := key_parameters_to_authorizations (new_key_parameters cr user); md_modification_time := date |} /\
    recoverable (ks_sys k) (super_encryption_required sl_lskf_flag (domain key) (new_key_parameters cr user) flags) user
      cb m (cr_blob cr) /\
    (Forall (fun r => b_key r <> id) (blobentry (db k)) ->
     forall chk, (forall dk av, chk dk av = Ok tt) ->
       load_key_entry key KeyType.Client LoadBits.BOTH (nspace key) chk true (db k') (db k') =
       Ok (id, stored_entry id (new_key_parameters cr user) (cb, m) (cert_info_of (cr_certificates cr))
                 (meta_add (CreationDate date) ∅) sl_uuid)).

Lemma Database_store_location draws key kt params bi ci md u s r s' :
  Database.store_new_key draws key kt params bi ci md u s = (Ok r, s') -> app_or_selinux (domain key) = true.
Proof. destruct r. intros (al & _ & _ & Hd & _)%store_new_key_Ok. done. Qed.

Lemma store_new_key_stored c key cr user flags k md k' :
  db_wf (db k) -> length sl_uuid = 16%nat -> Forall (fun p => kpv_wf (kp_value p)) (new_key_parameters cr user) ->
  user_keys_in_db (ks_sys k) user -> domain key <> val Domain.BLOB ->
  store_new_key c key cr user flags k = (Ok md, k') -> stored k k' key cr user flags md.
Proof.
  intros Hwf Hu Hp Hk Hd H. unfold store_new_key in H. apply sr_bind_Ok in H as (date & k1 & [Hdate ->]%lift_Ok & H).
  apply sr_bind_Ok in H as (d & k2 & H1 & H). unfold mret, sr_ret in H. simplify_eq.
  destruct (Z.eqb_spec (domain key) (val Domain.BLOB)) as [|_]; [done|].
  apply sr_bind_Ok in H1 as ([cb m] & k3 & (g3 & H3 & ->)%on_sys_Ok & H1).
  apply sr_bind_Ok in H1 as (id & k4 & (g4 & H4 & ->)%on_sys_Ok & H1). unfold mret, sr_ret in H1. simplify_eq.
  apply on_db_Ok in H4 as (gc & s & Hs & ->). simpl in Hs.
  pose proof (handle_super_db sl_user_offset _ _ _ _ _ _ _ _ _ _ H3) as [Hdb _].
  rewrite Hdb in Hs. split; [by apply Database_store_location in Hs|]. exists id, cb, (meta_add (KmUuid sl_uuid) m), date. split; [done|]. split.
  - exact (handle_super_recoverable sl_user_offset _ _ _ _ _ _ _ _ _ _ sl_uuid H3).
  - intros Hnb chk Hchk. simpl. eapply store_load_entry; try done.
    + apply meta_add_wf; [done|]. by apply (handle_super_wf sl_user_offset _ _ _ _ _ _ _ _ _ _ Hp Hk H3).
    + apply meta_add_wf; [done|]. apply map_Forall_empty.
Qed.

(** Steps that change neither the database nor the super keys. *)
Definition same_store k k' : Prop := db k' = db k /\ g_skm (ks_sys k') = g_skm (ks_sys k).

Lemma same_store_trans k1 k2 k3 : same_store k1 k2 -> same_store k2 k3 -> same_store k1 k3.
Proof. intros [H1 H2] [H3 H4]. split; congruence. Qed.

Lemma on_km_Ok {A} (m : sr K BinderStatus A) k a k' :
  ks_any (on_km m) k = (Ok a, k') -> same_store k k' /\ exists st', m (w_km (g_world (ks_sys k))) = (Ok a, st').
Proof.
  unfold ks_any, sr_map_err, on_km, with_km. destruct (m _) as [r st]. destruct r; simpl; intros; simplify_eq. split; [done|]. eauto.
Qed.

Lemma stored_same_store k1 k2 k' key cr user flags md :
  same_store k1 k2 -> stored k2 k' key cr user flags md -> stored k1 k' key cr user flags md.
Proof.
  intros [Hd Hs] (Ha & id & cb & m & date & H1 & H2 & H3). split; [done|]. exists id, cb, m, date. split; [done|]. rewrite Hd in H3. split; [|done].
  clear -H2 Hd Hs. unfold recoverable in *. destruct (super_encryption_required _ _ _ _); rewrite <- ?Hs, <- ?Hd; done.
Qed.

Lemma add_certificate_parameters_store c uid params key k r k' :
  add_certificate_parameters c uid params key k = (r, k') -> same_store k k' /\ ks_ops k' = ks_ops k /\ ks_sys k' = ks_sys k.
Proof.
  intros H. assert (exists ts, k' = {| ks_sys := ks_sys k; ks_enf := ks_enf k; ks_ops := ks_ops k; ks_rounds := ks_rounds k;
    ks_rp := ks_rp k; ks_ts := ts |}) as [ts ->]; [|done].
  destruct k as [sy en op ro rp ts0]. unfold add_certificate_parameters, mbind, sr_bind, mret, sr_ret, lift, on_timestamp in H.
  repeat (case_match; simplify_eq/=); by eexists.
Qed.

(** What AIDL promises about the characteristics a device returns: the
    parameters are within the width of their types. *)
Definition well_typed (cr : KeyCreationResult) : Prop :=
  Forall (fun p => kpv_wf (kp_value p)) (key_characteristics_to_internal (cr_characteristics cr)).

Lemma as_i32_range z : i32_range (as_i32 z).
Proof. unfold i32_range, as_i32. pose proof (Z.mod_pos_bound (z + 2 ^ 31) (2 ^ 32) ltac:(lia)). lia. Qed.

Lemma new_key_parameters_wf cr user : well_typed cr -> Forall (fun p => kpv_wf (kp_value p)) (new_key_parameters cr user).
Proof. intros H. unfold new_key_parameters. apply Forall_app. split; [done|]. constructor; [|done]. simpl. apply as_i32_range. Qed.

Lemma import_key_stored c key params flags data k md k' :
  db_wf (db k) -> length sl_uuid = 16%nat -> user_keys_in_db (ks_sys k) (uid_to_android_user sl_user_offset (c_uid c)) ->
  (forall ps f d a st cr st', km_importKey ps f d a st = (Ok cr, st') -> well_typed cr) ->
  domain key <> val Domain.BLOB -> import_key c key params flags data k = (Ok md, k') ->
  check_key_permission c (val KeyPermission.REBIND) (new_key_descriptor c key) None = Ok tt /\
  exists ps format st st' cr, km_importKey ps format data None st = (Ok cr, st') /\
    stored k k' (new_key_descriptor c key) cr (uid_to_android_user sl_user_offset (c_uid c)) (Some flags) md.
Proof.
  intros Hwf Hu Huk Hdev Hd H. unfold import_key in H. destruct (missing_alias key); [done|].
  apply sr_bind_Ok in H as ([] & k1 & [Hchk ->]%lift_Ok & H). split; [done|].
  apply sr_bind_Ok in H as (ps & k2 & (S2 & _)%add_certificate_parameters_store & H).
  apply sr_bind_Ok in H as (format & k3 & [_ ->]%lift_Ok & H). apply sr_bind_Ok in H as ([] & k4 & [_ ->]%lift_Ok & H).
  apply sr_bind_Ok in H as (cr & k5 & (S5 & st' & Hkm)%on_km_Ok & H). exists ps, format, (w_km (g_world (ks_sys k2))), st', cr.
  split; [done|]. pose proof (same_store_trans _ _ _ S2 S5) as S. apply (stored_same_store k k5); [done|].
  destruct S as [Sd Ss]. apply (store_new_key_stored c); try done; [by rewrite Sd|apply new_key_parameters_wf; eauto| |].
  - unfold user_keys_in_db in *. by rewrite Ss.
  - unfold new_key_descriptor. destruct (_ =? _); done.
Qed.

(** An imported key is there to be used.  If [import_key] succeeds then the
    caller had the permission to bind the alias, and for an app the alias is
    one of the caller's own uid; the device imported exactly the data given;
    and from then on the key loads by its alias with the blob the device
    returned, its characteristics, its certificates and the user's id, the
    blob as it is or sealed with the super key its parameters ask for. *)
Theorem imported_key_is_usable c key params flags data k md k' :
  db_wf (db k) -> length sl_uuid = 16%nat -> user_keys_in_db (ks_sys k) (uid_to_android_user sl_user_offset (c_uid c)) ->
  (forall ps f d a st cr st', km_importKey ps f d a st = (Ok cr, st') -> well_typed cr) ->
  domain key <> val Domain.BLOB -> import_key c key params flags data k = (Ok md, k') ->
  check_key_permission c (val KeyPermission.REBIND) (new_key_descriptor c key) None = Ok tt /\
  exists ps format st st' cr, km_importKey ps format data None st = (Ok cr, st') /\
    stored k k' (new_key_descriptor c key) cr (uid_to_android_user sl_user_offset (c_uid c)) (Some flags) md.
Proof. apply import_key_stored. Qed.

(** The permission to bind an alias depends on where the key goes, not on
    what it is. *)
Lemma check_permission_location c p key key' :
  domain key' = domain key -> nspace key' = nspace key -> check_key_permission c p key' None = check_key_permission c p key None.
Proof. intros Hd Hn. unfold check_key_permission, Permission.check_key_permission. by rewrite Hd, Hn. Qed.

(** Nobody creates a key without the permission to bind it.  If the check of
    the [REBIND] permission on the target fails, generating, importing and
    importing wrapped fail, and change nothing: no device, database or
    migration is involved. *)
Theorem new_keys_need_rebind c key k e :
  check_key_permission c (val KeyPermission.REBIND) (new_key_descriptor c key) None = Err e ->
  (forall attest ps flags, exists e', generate_key c key attest ps flags k = (Err e', k)) /\
  (forall ps flags data, exists e', import_key c key ps flags data k = (Err e', k)) /\
  (forall wrapping mask ps auths, exists e', import_wrapped_key c key wrapping mask ps auths k = (Err e', k)).
Proof.
  intros H. split_and!.
  - intros attest ps flags. unfold generate_key. destruct (missing_alias key); [by eexists|].
    unfold mbind, sr_bind, lift. rewrite H. by eexists.
  - intros ps flags data. unfold import_key. destruct (missing_alias key); [by eexists|].
    unfold mbind, sr_bind, lift. rewrite H. by eexists.
  - intros wrapping mask ps auths. unfold import_wrapped_key.
    destruct (app_or_selinux (domain key)) eqn:Ha; [|by eexists]. destruct (blob key); [|by eexists].
    destruct (alias key) as [al|]; [|by eexists]. destruct (_ =? val Domain.BLOB); [by eexists|].
    unfold mbind, sr_bind, lift. rewrite (check_permission_location c _ (new_key_descriptor c key)), H; [by eexists| |];
      unfold new_key_descriptor; destruct (Z.eqb_spec (domain key) (val Domain.APP)); try done.
    unfold app_or_selinux in Ha. apply orb_true_iff in Ha as [?|?]; bool_prop; simpl; congruence.
Qed.
End Store.
