(* ===== verification/SecurityLevelOps.v ===== *)
(** * Operations of the security level

    Who gets to begin an operation on which key, that the loop around
    [begin] ends, that an upgraded key blob replaces the old one, and what
    is added to the parameters of a new key. *)

From stdpp Require Import base list gmap strings.
From Stdlib Require Import ZArith Lia.
From S2P Require Import Prelude Aidl Errors Sql KeyParameter Perboot BootLevelKeys Permission AuthInfo Enforcements Operation OperationDb DbTypes Database DbInvariant DbKeys DbAttestation Crypto RawDevice SuperKey SuperKeyCrypto LegacyFs LegacyMigrator IdRotation RemoteProvisioning LegacySystem SecurityLevel SecurityLevelKeys.

Section Ops.
Context {AI : Aidl} {BO : Boring} {K : Type} {KMI : KeyMint K} {Ctx : Type} {SU : Surroundings Ctx}.
Implicit Types (k : Ks K) (c : Call Ctx).

Abbreviation db k := (w_db (g_world (ks_sys k))).
Abbreviation device k := (w_km (g_world (ks_sys k))).

Lemma bind_cases {St E A B} (m : sr St E A) (f : A -> sr St E B) s r s' :
  (m ≫= f) s = (r, s') ->
  (exists e, m s = (e, s') /\ (forall a, e <> Ok a) /\ (forall b, r <> Ok b)) \/ exists a s1, m s = (Ok a, s1) /\ f a s1 = (r, s').
Proof.
  unfold mbind, sr_bind. destruct (m s) as [[a|e|] s1]; intros H; [right; eauto| |]; simplify_eq; left; eexists; split_and!; done.
Qed.

(** ** The loop around [begin] *)

(** Pruning without concurrent activity: it ends, and when it reports
    success an operation is gone. *)
Lemma prune_progress rounds uid frc (d : OperationDb) :
  Forall quiet rounds -> db_inv d -> (size (active d) < length rounds)%nat ->
  exists r d', OperationDb.prune sl_log6 rounds uid frc d = (Some r, d') /\ db_inv d' /\
    (size (active d') <= size (active d))%nat /\ r <> Panic /\ (r = Ok tt -> (size (active d') < size (active d))%nat).
Proof.
  intros Hq. revert d. induction Hq as [|rd rounds Hrd Hq IH]; intros d Hinv Hlen; simpl in *; [lia|].
  destruct (prune_round sl_log6 rd uid frc d) as [res d1] eqn:Hr. pose proof (prune_round_cases _ _ _ _ _ _ _ Hr) as Hc.
  destruct Hrd as (Hg & Hb & Hp). rewrite Hb in Hc.
  destruct (find_candidate _ _ _ _ _) as [cd|] eqn:Hf.
  - destruct Hc as [(-> & -> & Hno)|(i & o & _ & _ & _ & Hpr & Hres)].
    + exfalso. apply candidate_source in Hf as (i & o & Hi & Ho & Hci & Hcl & Hu).
      destruct (Hno i o) as [Hx|[Hx|Hx]]; [|by rewrite Hp in Hx|congruence|apply Hx; auto].
      apply get_Some. rewrite Hci. split; [by apply Hinv|done].
    + pose proof (pruned_active _ _ _ _ _ Hpr) as Ha. pose proof (pruned_inv _ _ _ _ _ Hinv Hpr) as Hi1.
      destruct (interface_ok _); subst res.
      * eexists _, _. split; [done|]. split_and!; [done|lia|done|auto].
      * destruct (IH d1 Hi1) as (r & d2 & H2 & Hi2 & Hle & Hnp & Hlt); [lia|]. exists r, d2. split_and!; [done|done|lia|done|].
        intros E. specialize (Hlt E). lia.
  - destruct Hc as [-> ->]. eexists _, _. split; [done|]. split_and!; done.
Qed.

Lemma on_km_frame {A} (m : sr K BinderStatus A) k r k' :
  on_km m k = (r, k') -> same_store k k' /\ ks_ops k' = ks_ops k /\ ks_rounds k' = ks_rounds k.
Proof. unfold on_km, with_km. destruct (m _) as [x st]. intros. by simplify_eq. Qed.

(** A run of the loop in which the device is asked [n] times: it says that it
    has no room each time but the last, and each time but the last an
    operation is pruned successfully; the last time it answers something
    else, which is the result, or pruning fails, which is the result. *)
Inductive asks (purpose : Z) (b : bytes) (ps : list KmKeyParameter) (hat : option HardwareAuthToken) (uid : Z) (frc : bool)
    : nat -> Ks K -> result Error (option BeginResult) -> Ks K -> Prop :=
| asks_answered k r k1 :
    on_km (km_begin purpose b ps hat) k = (r, k1) -> r <> Err (Km (val ErrorCode.TOO_MANY_OPERATIONS)) ->
    asks purpose b ps hat uid frc 1 k (Some <$> r) k1
| asks_stuck k k1 p k2 :
    on_km (km_begin purpose b ps hat) k = (Err (Km (val ErrorCode.TOO_MANY_OPERATIONS)), k1) ->
    prune_ops uid frc k1 = (p, k2) -> (forall x, p <> Ok x) ->
    asks purpose b ps hat uid frc 1 k ((fun _ => None) <$> p) k2
| asks_again n k k1 k2 r k3 :
    on_km (km_begin purpose b ps hat) k = (Err (Km (val ErrorCode.TOO_MANY_OPERATIONS)), k1) ->
    prune_ops uid frc k1 = (Ok (Some tt), k2) -> asks purpose b ps hat uid frc n k2 r k3 ->
    asks purpose b ps hat uid frc (S n) k r k3.

(** C38: The loop around [begin] ends.  Whatever the device answers, if nobody
    else uses the operations of this level meanwhile (the rounds of pruning
    are quiet), it is asked at most once more than there are running
    operations: each time it has no room an operation is pruned, and when
    pruning finds none the call fails.  The result is what the device said
    last, or the error of pruning. *)
Theorem begin_loop_ends fuel purpose b ps hat uid frc k :
  db_inv (ks_ops k) -> (size (active (ks_ops k)) < fuel)%nat -> (size (active (ks_ops k)) < length (ks_rounds k))%nat ->
  Forall (fun rounds => Forall quiet rounds /\ (size (active (ks_ops k)) < length rounds)%nat) (ks_rounds k) ->
  exists n r k', begin_loop fuel purpose b ps hat uid frc k = (r, k') /\ r <> Ok None /\
    asks purpose b ps hat uid frc n k r k' /\ (1 <= n <= S (size (active (ks_ops k))))%nat.
Proof.
  revert k. induction fuel as [|fuel IH]; intros k Hinv Hf Hl Hq; [lia|]. cbn [begin_loop].
  destruct (on_km _ k) as [r k1] eqn:Hk. pose proof (on_km_frame _ _ _ _ Hk) as (_ & Ho & Hr).
  assert (r <> Err (Km (val ErrorCode.TOO_MANY_OPERATIONS)) -> asks purpose b ps hat uid frc 1 k (Some <$> r) k1) as Hlast
    by (by apply asks_answered).
  destruct r as [br|e|]; [eexists 1%nat, _, _; split_and!; [reflexivity|done|by apply Hlast|lia|lia]| |
    eexists 1%nat, _, _; split_and!; [reflexivity|done|by apply Hlast|lia|lia]].
  case_bool_decide as He; [|eexists 1%nat, _, _; split_and!; [reflexivity|done|apply Hlast; congruence|lia|lia]].
  subst e. clear Hlast. destruct (ks_rounds k) as [|rounds rest] eqn:Er; [simpl in Hl; lia|].
  apply Forall_cons in Hq as [[Hq1 Hq2] Hq]. destruct (prune_progress rounds uid frc (ks_ops k) Hq1 Hinv Hq2) as (pr & d & Hp & Hi & Hle & Hnp & Hlt).
  assert (prune_ops uid frc k1 = (Some <$> pr, set_ops d rest k1)) as Hpo.
  { unfold prune_ops. rewrite Hr, Ho, Hp. by destruct pr as [[]| |]. }
  unfold mbind, sr_bind. rewrite Hpo. destruct pr as [[]|pe|]; simpl; [|eexists 1%nat, _, _; split_and!; [reflexivity|done| |lia|lia]|done].
  - specialize (Hlt eq_refl). destruct (IH (set_ops d rest k1)) as (n & r & k' & H1 & H2 & H3 & H4); simpl; [done|lia|simpl in Hl; lia| |].
    { eapply Forall_impl; [exact Hq|]. simpl. intros rs [? ?]. split; [done|lia]. }
    exists (S n), r, k'. split_and!; [done|done|by eapply asks_again|lia|simpl in H4; lia].
  - by apply (asks_stuck _ _ _ _ _ _ _ _ _ _ Hk Hpo).
Qed.

(** ** Who begins an operation *)

(** Steps that leave the device, the operations and the enforcements alone. *)
Definition idle_step k k' : Prop := device k' = device k /\ ks_ops k' = ks_ops k /\ ks_enf k' = ks_enf k.

Lemma idle_trans k1 k2 k3 : idle_step k1 k2 -> idle_step k2 k3 -> idle_step k1 k3.
Proof. unfold idle_step. intuition congruence. Qed.

Lemma on_legacy_idle {A} (m : sr (Migrator * Tables) AnyError A) k r k' :
  on_sys (on_legacy m) k = (r, k') -> idle_step k k' /\ g_skm (ks_sys k') = g_skm (ks_sys k) /\
  exists l, m (g_legacy (ks_sys k), db k) = (r, (l, db k')).
Proof. unfold on_sys, on_legacy. destruct (m _) as [x [l t]]. intros. simplify_eq. split_and!; [done..|]. by exists l. Qed.
Lemma on_skm_idle {A} (m : sr Skm AnyError A) k r k' : on_sys (on_skm m) k = (r, k') -> idle_step k k'.
Proof. unfold on_sys, on_skm. destruct (m _) as [x s]. intros. by simplify_eq. Qed.
Lemma lift_idle {A} (x : result AnyError A) k r k' : lift x k = (r, k') -> idle_step k k' /\ r = x /\ k' = k.
Proof. unfold lift. intros. by simplify_eq. Qed.

(** The database a key is looked for in: the one at hand, or, if the key is
    not there, the one its migration leaves. *)
Definition migrated c (key : KeyDescriptor) k (s : Tables) : Prop :=
  exists uid m, migration_uid key (c_uid c) = Some uid /\
    do_serialized (check_and_migrate sl_user_offset uid key) (g_legacy (ks_sys k), db k) = (Ok (Some tt), (m, s)).

(** A key found with the help of the migrator was found in the database. *)
Lemma try_migrate_found {A} key uid (f : Tables -> result AnyError A) md a md' :
  with_try_migrate sl_user_offset key uid (fun md => (f md.2, md)) md = (Ok a, md') -> f md'.2 = Ok a /\
  (md'.2 = md.2 \/ exists u, migration_uid key uid = Some u /\ do_serialized (check_and_migrate sl_user_offset u key) md = (Ok (Some tt), md')).
Proof.
  unfold with_try_migrate. destruct (f md.2) as [x|e|] eqn:E; intros H; [simplify_eq; auto| |done].
  destruct (is_not_found e); [|done]. destruct (migration_uid key uid) as [u|]; [|done].
  apply sr_bind_Ok in H as (o & md1 & Hm & H). destruct o as [[]|]; [|done]. simplify_eq. split; [done|]. right. by exists u.
Qed.

(** The id a descriptor of the domain [KEY_ID] leads to is the one it names. *)
Lemma load_access_tuple_key_id key kt uid s id a av :
  load_access_tuple key kt uid s = Ok (id, a, av) -> (if domain key =? val Domain.KEY_ID then nspace key else id) = id.
Proof.
  destruct (domain key =? val Domain.KEY_ID) eqn:Hk; [|done]. unfold load_access_tuple, app_or_selinux.
  apply Z.eqb_eq in Hk. rewrite Hk, !val_eqb. simpl. intros Ht. apply bind_Ok in Ht as ([d n] & _ & Ht). by simplify_eq.
Qed.

(** The key an operation is for: the caller's blob, or the key the
    descriptor leads to in the database, with its stored parameters; [a] and
    [av] are what the permission is checked on. *)
Definition resolves c (key : KeyDescriptor) (s : Tables) (a : KeyDescriptor) (av : option Z)
    (props : option (Z * list KeyParameter)) : Prop :=
  if domain key =? val Domain.BLOB then a = key /\ av = None /\ props = None
  else exists id e, load_access_tuple key KeyType.Client (c_uid c) s = Ok (id, a, av) /\
    load_key_components LoadBits.KM id s = Ok e /\ props = Some (id, ke_parameters e).

Lemma resolves_functional c key s a av props a' av' props' :
  resolves c key s a av props -> resolves c key s a' av' props' -> a' = a /\ av' = av /\ props' = props.
Proof.
  unfold resolves. destruct (_ =? _); [naive_solver|]. intros (id & e & H1 & H2 & ->) (id' & e' & H1' & H2' & ->).
  rewrite H1 in H1'. simplify_eq. rewrite H2 in H2'. by simplify_eq.
Qed.

(** The database in which [create_operation] looks for the key. *)
Definition lookup_database c (key : KeyDescriptor) (frc : bool) k : Tables := db (load_key_for_operation c key frc k).2.

Lemma load_for_operation c key frc k r k' :
  load_key_for_operation c key frc k = (r, k') -> idle_step k k' /\ g_skm (ks_sys k') = g_skm (ks_sys k) /\
  forall b props id m, r = Ok (b, props, id, m) ->
    (db k' = db k \/ migrated c key k (db k')) /\
    exists a av, check_use c frc a av = Ok tt /\ resolves c key (db k') a av props.
Proof.
  unfold load_key_for_operation, resolves. destruct (domain key =? val Domain.BLOB).
  - intros H. apply bind_cases in H as [(e & He & _ & Hr)|([] & k1 & He & H)].
    { apply lift_idle in He as (He & _ & ->). split_and!; [done..|]. intros b props id m ->. by destruct (Hr (b, props, id, m)). }
    apply lift_idle in He as (_ & Hc & ->). apply bind_cases in H as [(e & He & _ & Hr)|(b0 & k2 & He & H)].
    { apply lift_idle in He as (He & _ & ->). split_and!; [done..|]. intros b props id m ->. by destruct (Hr (b, props, id, m)). }
    apply lift_idle in He as (_ & _ & ->). unfold mret, sr_ret in H. simplify_eq. split_and!; [done..|].
    intros b props id m Hb. simplify_eq. split; [by left|]. by exists key, None.
  - intros H. apply bind_cases in H as [(e & He & _ & Hr)|([key_id en] & k1 & He & H)].
    { apply on_legacy_idle in He as (He & Hs & _). split_and!; [done..|]. intros b props id m ->. by destruct (Hr (b, props, id, m)). }
    apply on_legacy_idle in He as (I1 & Hs & l & Hl).
    apply (try_migrate_found _ _ (fun t => load_key_entry key KeyType.Client LoadBits.KM (c_uid c) (check_use c frc) true t t)) in Hl as [Hl Hm].
    simpl in Hl, Hm.
    apply bind_cases in H as [(e & He & _ & Hr)|([b0 m0] & k2 & He & H)].
    { apply lift_idle in He as (_ & _ & ->). split_and!; [done..|]. intros b props id m ->. by destruct (Hr (b, props, id, m)). }
    apply lift_idle in He as (_ & _ & ->). unfold mret, sr_ret in H. simplify_eq. split_and!; [done..|].
    intros b props id m Hb. simplify_eq. split.
    { destruct Hm as [Hm|(u & Hu & Hm)]; [by left|right]. by exists u, l. }
    unfold load_key_entry in Hl. apply bind_Ok in Hl as ([[id a] av] & Ht & Hl).
    apply bind_Ok in Hl as ([] & Hc & Hl). rewrite orb_true_r in Hl. simpl in Hl. rewrite (load_access_tuple_key_id _ _ _ _ _ _ _ Ht) in Hl.
    apply bind_Ok in Hl as (e & He & Hl). simplify_eq. exists a, av. split; [done|]. by eexists _, en.
Qed.

Lemma create_operation_cases c key ps frc k r k' :
  create_operation c key ps frc k = (r, k') ->
  (idle_step k k' /\ forall x, r <> Ok x) \/
  exists a av props purpose hat info, let s := lookup_database c key frc k in
    (s = db k \/ migrated c key k s) /\ check_use c frc a av = Ok tt /\ resolves c key s a av props /\ purpose_of ps = Ok purpose /\
    authorize_create (ks_enf k) (enforcement_env c k) purpose props
      (List.filter (fun p => negb (tag p =? val Tag.PURPOSE)) ps) sl_timestamp = Ok (hat, info).
Proof.
  unfold create_operation, lookup_database. intros H.
  apply bind_cases in H as [(e & He & _ & Hx)|([[[b props] id] m] & k1 & H1 & H)]; [apply load_for_operation in He as [He _]; by left|].
  rewrite H1. simpl. apply load_for_operation in H1 as (I1 & Hs & H1). destruct (H1 _ _ _ _ eq_refl) as (Hd & a & av & Hc & Hr).
  apply bind_cases in H as [(e & He & _ & Hx)|(purpose & k2 & H2 & H)]; [apply lift_idle in He as (_ & _ & ->); by left|].
  apply lift_idle in H2 as (_ & Hp & ->).
  set (op_params := List.filter _ ps) in *.
  apply bind_cases in H as [(e & He & _ & Hx)|([hat info] & k3 & H3 & _)].
  - unfold authorize in He. simplify_eq. by left.
  - unfold authorize in H3. injection H3 as Ha <-. right. exists a, av, props, purpose, hat, info.
    unfold enforcement_env in *. rewrite Hs, (proj2 (proj2 I1)) in Ha. by split_and!.
Qed.

(** C20: No operation without permission and authorisation.  Either
    [create_operation] fails and leaves the device, the running operations
    and the enforcements exactly as they were; or the caller passed the check
    of the [USE] permission (and of the permission to force operations, if
    asked for) on the key the descriptor leads to, in the database as it is
    or as the migration of that very key leaves it, and the enforcements as
    they are accepted the purpose against the parameters stored with that key
    (or none, for a blob the caller brings). *)
Theorem operations_need_permission c key ps frc k r k' :
  create_operation c key ps frc k = (r, k') ->
  (idle_step k k' /\ forall x, r <> Ok x) \/
  exists a av props purpose hat info, let s := lookup_database c key frc k in
    (s = db k \/ migrated c key k s) /\ check_use c frc a av = Ok tt /\ resolves c key s a av props /\ purpose_of ps = Ok purpose /\
    authorize_create (ks_enf k) (enforcement_env c k) purpose props
      (List.filter (fun p => negb (tag p =? val Tag.PURPOSE)) ps) sl_timestamp = Ok (hat, info).
Proof. apply create_operation_cases. Qed.

(** ** Upgraded blobs *)

(** A call that reaches the device and the operations, nothing else. *)
Definition device_only {A} (f : bytes -> sr (Ks K) Error A) : Prop := forall b k r k', f b k = (r, k') -> same_store k k'.

Lemma same_store_refl k : same_store k k.
Proof. done. Qed.

Lemma prune_ops_frame uid frc k r k' : prune_ops uid frc k = (r, k') -> same_store k k'.
Proof. unfold prune_ops. intros H. repeat case_match; by simplify_eq. Qed.

Lemma begin_loop_device_only purpose ps hat uid frc :
  device_only (fun b k => begin_loop (S (length (ks_rounds k))) purpose b ps hat uid frc k).
Proof.
  intros b k r k'. generalize (S (length (ks_rounds k))) as fuel. intros fuel. revert k r k'.
  induction fuel as [|fuel IH]; intros k r k' H; cbn [begin_loop] in H; [unfold mret, sr_ret in H; by simplify_eq|].
  destruct (on_km _ k) as [x k1] eqn:Hk. apply on_km_frame in Hk as (S1 & _). destruct x as [br|e|]; [by simplify_eq| |by simplify_eq].
  case_bool_decide; [|by simplify_eq]. apply (same_store_trans _ _ _ S1).
  apply bind_cases in H as [(e' & He%prune_ops_frame & _)|(o & k2 & He%prune_ops_frame & H)]; [done|].
  apply (same_store_trans _ _ _ He). destruct o; [by eapply IH|unfold mret, sr_ret in H; by simplify_eq].
Qed.

Lemma on_km_device_only {A} (m : bytes -> sr K BinderStatus A) : device_only (fun b => on_km (m b)).
Proof. intros b k r k' H. by apply on_km_frame in H as [? _]. Qed.

(** From here on the key [id] loads with [blob], protected as [kb] was. *)
Definition blob_replaced (id : Z) (kb : KeyBlob) (old : BlobMetaData) (blob : bytes) k k' : Prop :=
  exists cb m, km_uuid_of m = km_uuid_of old /\
    match kb with
    | Sensitive _ sk _ => readable_with (sk_id sk) (same_material sk) cb m blob
    | _ => cb = blob /\ from_metadata m = None
    end /\
    forall bits has info cc ch, LoadBits.load_km bits = true ->
      load_blob_components id bits (db k) = Ok (has, info, cc, ch) ->
      load_blob_components id bits (db k') = Ok (true, Some (cb, m), cc, ch).

(** What the metadata of stored blobs need. *)
Definition storable (kb : KeyBlob) (m : BlobMetaData) : Prop :=
  (forall u, km_uuid_of m = Some u -> length u = 16%nat) /\
  match kb with Sensitive _ sk _ => forall lv, sk_id sk = BootLevelId lv -> i32_range lv | _ => True end.

Lemma reencrypt_Ok kb blob t to m t' :
  reencrypt_if_required kb blob t = (Ok (to, m), t') ->
  match kb with
  | Sensitive _ sk _ => exists m', m = Some m' /\ encrypt_with_aes_super_key blob sk t = (Ok (deref to, m'), t')
  | _ => deref to = blob /\ m = None
  end.
Proof.
  unfold reencrypt_if_required. destruct kb as [b sk f|b|b]; unfold mret, sr_ret; intros H; [|by simplify_eq..].
  apply sr_bind_Ok in H as ([c' m'] & t1 & He & H). simplify_eq. eauto.
Qed.

Lemma store_upgraded_replaced id kb old blob k k' :
  db_wf (db k) -> storable kb old ->
  store_upgraded_keyblob id (km_uuid_of old) kb blob k = (Ok tt, k') -> blob_replaced id kb old blob k k'.
Proof.
  intros Hwf [Hu Hk] H. unfold store_upgraded_keyblob in H.
  apply sr_bind_Ok in H as ([to m] & k1 & (g1 & (t & Ht & ->)%on_tape_Ok & ->)%on_sys_Ok & H).
  apply on_sys_Ok in H as (g2 & (gc & s & Hs & ->)%on_db_Ok & ->). simpl in Hs.
  unfold set_blob in Hs. rewrite transaction_Ok in Hs. apply sr_bind_Ok in Hs as ([] & s1 & Hs & Hs1).
  unfold mret, sr_ret in Hs1. simplify_eq.
  set (m' := match km_uuid_of old with Some u => meta_add (KmUuid u) (default ∅ m) | None => default ∅ m end) in *.
  apply reencrypt_Ok in Ht.
  assert (km_uuid_of (default ∅ m) = None /\ meta_data_wf (default ∅ m) /\
    match kb with Sensitive _ sk _ => readable_with (sk_id sk) (same_material sk) (deref to) (default ∅ m) blob
                | _ => deref to = blob /\ from_metadata (default ∅ m) = None end) as (Hn & Hm & Hr).
  { destruct kb as [b sk f|b|b].
    - destruct Ht as (m0 & -> & He). split_and!; [|by eapply wrap_wf|by eapply wrap_readable].
      simpl. unfold encrypt_with_aes_super_key in He. case_bool_decide; [|done]. simpl in He.
      apply sr_bind_Ok in He as ([[c0 iv] tg] & t1 & _ & He). unfold mret, sr_ret in He. simplify_eq.
      unfold km_uuid_of. destruct (sk_id sk); by meta_lookup.
    - destruct Ht as [? ->]. by split_and!.
    - destruct Ht as [? ->]. by split_and!. }
  exists (deref to), m'. split_and!.
  - unfold m'. destruct (km_uuid_of old) as [u|]; [|done]. unfold km_uuid_of, meta_add. simpl. by rewrite lookup_insert_eq.
  - unfold m'. destruct (km_uuid_of old) as [u|]; [|done]. destruct kb as [b sk f|b|b]; [by apply readable_uuid|..];
      destruct Hr as [? Hr]; (split; [done|]); rewrite <- Hr; unfold from_metadata; by meta_lookup.
  - intros bits has info cc ch Hb Hl. simpl. eapply load_after_upgrade; [exact Hwf| |done|exact Hs|exact Hl].
    unfold m'. destruct (km_uuid_of old) as [u|]; [|done]. apply meta_add_wf; [by apply Hu|done].
Qed.

(** C21: An upgrade is never lost.  When a call on the blob of a stored key
    succeeds, either the device did not ask for an upgrade, the result is that
    of the call with the old blob, and the key keeps its blob (newly
    encrypted, if its super key has to change); or the device asked for an
    upgrade and made the upgraded blob, which then replaced the old one in the
    database, for the same device, under the super key the old blob is to be
    encrypted with (or in the clear, as the old one), the certificates
    unchanged; and only in that state was the call repeated, with the upgraded
    blob, for the result.  The upgraded blob is in force afterwards. *)
Theorem upgrade_is_never_lost {A} id kb m params (f : bytes -> sr (Ks K) Error A) k v up k' :
  device_only f -> db_wf (db k) -> storable kb m ->
  upgrade_keyblob_if_required_with (Some id) kb m params f k = (Ok (v, up), k') ->
  match up with
  | Some b => exists k0 k1 k2,
      f (deref kb) k = (Err (Km (val ErrorCode.KEY_REQUIRES_UPGRADE)), k0) /\
      on_km (km_upgradeKey (deref kb) params) k0 = (Ok b, k1) /\
      same_store k k1 /\ blob_replaced id kb m b k k2 /\
      f b k2 = (Ok v, k') /\ blob_replaced id kb m b k k'
  | None => exists k1, f (deref kb) k = (Ok v, k1) /\
      if force_reencrypt_of kb then blob_replaced id kb m (deref kb) k k' else k' = k1 /\ same_store k k'
  end.
Proof.
  intros Hf Hwf Hs H. unfold upgrade_keyblob_if_required_with in H. destruct (f (deref kb) k) as [[v0|e|] k1] eqn:E1; [| |done].
  - unfold no_upgrade in H. pose proof (Hf _ _ _ _ E1) as S1. apply sr_bind_Ok in H as ([] & k2 & H2 & H).
    apply sr_bind_Ok in H as (v1 & k3 & [Hv ->]%lift_Ok & H). unfold mret, sr_ret in H. simplify_eq/=. exists k1. split; [done|].
    destruct (force_reencrypt_of kb); [|unfold mret, sr_ret in H2; by simplify_eq].
    destruct S1 as [Sd _]. apply store_upgraded_replaced in H2; [|by rewrite Sd|done].
    unfold blob_replaced in *. by rewrite Sd in H2.
  - case_bool_decide as He.
    + unfold upgrade_and_retry in H. pose proof (Hf _ _ _ _ E1) as S1. subst e.
      apply sr_bind_Ok in H as (b & k2 & Hu & H). apply sr_bind_Ok in H as ([] & k3 & H3 & H).
      apply sr_bind_Ok in H as (v1 & k4 & H4 & H). unfold mret, sr_ret in H. simplify_eq.
      assert (f b k3 = (Ok v, k')) as H4'.
      { unfold ks_any, sr_map_err in H4. destruct (f b k3) as [[]]; simpl in H4; by simplify_eq. }
      assert (on_km (km_upgradeKey (deref kb) params) k1 = (Ok b, k2)) as Hu'.
      { unfold ks_any, sr_map_err in Hu. destruct (on_km _ k1) as [[]]; simpl in Hu; by simplify_eq. }
      pose proof (on_km_frame _ _ _ _ Hu') as (S2 & _). pose proof (same_store_trans _ _ _ S1 S2) as S12.
      apply store_upgraded_replaced in H3; [|by rewrite (proj1 S12)|done].
      exists k1, k2, k3. split_and!; [done..| |done|]; unfold blob_replaced in *; rewrite <- (proj1 S12); [done|].
      by rewrite (proj1 (Hf _ _ _ _ H4')).
    + unfold no_upgrade in H. apply sr_bind_Ok in H as ([] & k2 & _ & H). by apply sr_bind_Ok in H as (v1 & k3 & [Hv _]%lift_Ok & _).
Qed.

(** ** Parameters of new keys *)

Lemma has_tag_app t l1 l2 : has_tag t (l1 ++ l2) = has_tag t l1 || has_tag t l2.
Proof. apply existsb_app. Qed.

(** What [add_certificate_parameters] adds.  On success the caller's
    parameters are all still there, in order and in front; an attestation
    challenge brings the application id; an asymmetric key has both ends of
    its certificate's validity; asking for the unique id took the permission
    for it, and asking for device identifiers the privileged phone state
    permission. *)
Theorem certificate_parameters_complete c uid params key k ps k' :
  add_certificate_parameters c uid params key k = (Ok ps, k') ->
  (exists added, ps = params ++ added) /\
  (has_tag Tag.ATTESTATION_CHALLENGE params = true -> has_tag Tag.ATTESTATION_APPLICATION_ID ps = true) /\
  (is_rsa_or_ec params = true ->
     has_tag Tag.CERTIFICATE_NOT_BEFORE ps = true /\ has_tag Tag.CERTIFICATE_NOT_AFTER ps = true) /\
  (has_tag Tag.INCLUDE_UNIQUE_ID params = true ->
     check_key_permission c (val KeyPermission.GEN_UNIQUE_ID) key None = Ok tt) /\
  (existsb (fun kp => is_device_id_attestation_tag (tag kp)) params = true -> check_device_attestation_permissions c = Ok tt).
Proof.
  intros H. unfold add_certificate_parameters in H.
  apply sr_bind_Ok in H as (r1 & k1 & H1 & H). apply sr_bind_Ok in H as (r2 & k2 & H2 & H). apply sr_bind_Ok in H as ([] & k3 & H3 & H).
  assert ((exists a, r1 = params ++ a) /\ (has_tag Tag.ATTESTATION_CHALLENGE params = true -> has_tag Tag.ATTESTATION_APPLICATION_ID r1 = true)) as [[a1 ->] Hc].
  { destruct (has_tag Tag.ATTESTATION_CHALLENGE params).
    - apply sr_bind_Ok in H1 as (aaid & k4 & _ & H1). unfold mret, sr_ret in H1. simplify_eq. split; [eauto|].
      intros _. rewrite has_tag_app. simpl. rewrite Z.eqb_refl. apply orb_true_r.
    - unfold mret, sr_ret in H1. simplify_eq. split; [|done]. exists []. by rewrite app_nil_r. }
  assert ((exists a, r2 = (params ++ a1) ++ a) /\ (has_tag Tag.INCLUDE_UNIQUE_ID params = true ->
     check_key_permission c (val KeyPermission.GEN_UNIQUE_ID) key None = Ok tt)) as [[a2 ->] Hu].
  { destruct (has_tag Tag.INCLUDE_UNIQUE_ID params).
    - apply sr_bind_Ok in H2 as ([] & k4 & [Hp ->]%lift_Ok & H2). apply sr_bind_Ok in H2 as (rs & k5 & _ & H2).
      unfold mret, sr_ret in H2. simplify_eq. split; [|done]. destruct rs; [eauto|]. exists []. by rewrite app_nil_r.
    - unfold mret, sr_ret in H2. simplify_eq. split; [|done]. exists []. by rewrite app_nil_r. }
  assert (existsb (fun kp => is_device_id_attestation_tag (tag kp)) params = true -> check_device_attestation_permissions c = Ok tt) as Hd.
  { intros E. rewrite E in H3. by apply lift_Ok in H3 as [? _]. }
  assert (exists a3, ps = ((params ++ a1) ++ a2) ++ a3 /\ (is_rsa_or_ec params = true ->
     has_tag Tag.CERTIFICATE_NOT_BEFORE ps = true /\ has_tag Tag.CERTIFICATE_NOT_AFTER ps = true)) as (a3 & -> & Ha).
  { unfold mret, sr_ret in H. destruct (is_rsa_or_ec params); [|simplify_eq; exists []; by rewrite app_nil_r].
    destruct (has_tag Tag.CERTIFICATE_NOT_BEFORE params) eqn:Eb, (has_tag Tag.CERTIFICATE_NOT_AFTER params) eqn:Ea; simplify_eq;
      [exists []; rewrite app_nil_r|eexists..]; (split; [rewrite <- ?app_assoc; done|]); intros _;
      rewrite !has_tag_app, ?Eb, ?Ea; simpl; rewrite ?Z.eqb_refl, ?orb_true_r, ?orb_true_l; done. }
  split; [exists (a1 ++ a2 ++ a3); by rewrite !app_assoc|]. split_and!; try done.
  intros E. rewrite !has_tag_app in *. specialize (Hc E). by rewrite Hc.
Qed.

(** ** The wrapping key is not migrated

    [import_wrapped_key] passes the descriptor of the new key to the
    migrator, not that of the wrapping key it loads.  A wrapping key that is
    only in the legacy store is therefore not found, whatever the store
    holds, when the new key has no place there. *)
Theorem legacy_wrapping_key_not_found c key wrapping mask ps auths k data al :
  domain key = val Domain.SELINUX -> nspace key <> WIFI_NAMESPACE -> blob key = Some data -> alias key = Some al ->
  domain wrapping <> val Domain.BLOB ->
  check_key_permission c (val KeyPermission.REBIND) key None = Ok tt ->
  load_key_entry wrapping KeyType.Client LoadBits.KM (c_uid c) (check_key_permission c (val KeyPermission.USE)) true (db k) (db k) =
    Err (err_rc ResponseCode.KEY_NOT_FOUND) ->
  import_wrapped_key c key wrapping mask ps auths k = (Err (err_rc ResponseCode.KEY_NOT_FOUND), k).
Proof.
  intros Hd Hn Hb Ha Hw Hp Hl. unfold import_wrapped_key. rewrite Hb, Ha.
  assert (app_or_selinux (domain key) = true) as -> by (rewrite Hd; unfold app_or_selinux; by rewrite Z.eqb_refl, orb_true_r).
  destruct (Z.eqb_spec (domain wrapping) (val Domain.BLOB)); [done|].
  assert ((domain key =? val Domain.APP) = false) as -> by (rewrite Hd; by rewrite val_eqb).
  unfold mbind, sr_bind, lift. rewrite (check_permission_location c _ key), Hp by done.
  unfold load_or_migrate, on_sys, on_legacy, with_try_migrate. simpl. rewrite Hl. simpl. rewrite Z.eqb_refl.
  unfold migration_uid. simpl. rewrite val_eqb, Z.eqb_refl. simpl. destruct (Z.eqb_spec (nspace key) WIFI_NAMESPACE); [done|].
  simpl. destruct k as [[sk [wd wk wg] tp lg] en op ro rp ts]. done.
Qed.
End Ops.
