(* ===== verification/SecurityLevelDemo.v ===== *)
(** * Examples for the security level

    A device that asks for an upgrade of the blob [[1]] and has no room for
    an operation on its first two calls, a permissive SELinux policy, and the
    theorems of [SecurityLevelKeys] and [SecurityLevelOps] on them. *)

From stdpp Require Import base list gmap strings.
From Stdlib Require Import ZArith Lia.
From S2P Require Import Prelude Aidl Errors Sql KeyParameter Perboot BootLevelKeys Permission AuthInfo Enforcements Operation OperationDb DbTypes Database DbInvariant DbKeys DbAttestation Crypto RawDevice SuperKey SuperKeyCrypto LegacyFs LegacyList LegacyMigrator IdRotation RemoteProvisioning LegacySystem SecurityLevel SecurityLevelKeys SecurityLevelOps.

#[local] Existing Instances aidl_published toy_boring.

Definition imported (b : bytes) : KeyCreationResult := {| cr_blob := b; cr_characteristics := []; cr_certificates := [[5]; [6]; [7]] |}.
Definition busy_km : KeyMint nat := {|
  km_generateKey := fun _ _ k => (Ok (imported [1]), k);
  km_importKey := fun _ _ b _ k => (Ok (imported b), k);
  km_importWrappedKey := fun b _ _ _ _ _ k => (Ok (imported b), k);
  km_upgradeKey := fun b _ k => (Ok (b ++ [0]), k);
  km_deleteKey := fun _ k => (Ok tt, k);
  km_convertStorageKeyToEphemeral := fun b k => (Ok b, k);
  km_getKeyCharacteristics := fun b k =>
    (if bool_decide (b = [1]) then Err (new_service_specific_error (val ErrorCode.KEY_REQUIRES_UPGRADE)) else Ok [], k);
  km_begin := fun _ _ _ _ k =>
    (if (k <? 2)%nat then Err (new_service_specific_error (val ErrorCode.TOO_MANY_OPERATIONS))
     else Ok {| br_challenge := 0; br_params := []; br_operation := Some 1 |}, S k);
  km_finish := fun _ i k => (Ok i, k)
|}.
#[local] Existing Instance busy_km.

#[local] Instance permissive : Surroundings nat := {|
  sl_level := 1; sl_uuid := repeat 5 16; sl_keymint := Ok tt; sl_timestamp := false;
  sl_getcon := Ok 0%nat; sl_key_context := fun _ => Ok 0%nat; sl_check_access := fun _ _ _ _ => Ok tt;
  sl_aaid := fun _ => Ok [9]; sl_permission_controller := Ok tt; sl_checkPermission := fun _ => Ok true;
  sl_parse_subject := Ok; sl_component := false; sl_clock := None;
  sl_user_offset := 100000; sl_lskf_flag := 1; sl_device_unique := 0; sl_log6 := demo_log6
|}.

Definition caller (sid : option nat) : Call nat :=
  {| c_uid := 1000; c_sid := sid; c_draws := [77]; c_date := Ok 5; c_epoch := Some 5; c_raw_now := 5; c_instant := 5; c_wall := 5;
     c_tokens := Perboot.new |}.

(** The migrator over a legacy store, not yet initialised. *)
Definition migrator_over (fs : Fs) : Migrator :=
  {| m_state := STATE_UNINITIALIZED; m_initializer := Some {[ 1 := repeat 7 16 ]}; m_shelf := None; m_fs := fs; m_now := Ok 5;
     m_tape := repeat 3 200; m_draws := [[78]; [79]]; m_gc := false |}.

Definition ks_over (fs : Fs) (s : Tables) (d : OperationDb) : Ks nat :=
  {| ks_sys := {| g_skm := new_skm; g_world := {| w_db := s; w_km := 0%nat; w_gc := false |}; g_tape := repeat 3 200;
                  g_legacy := migrator_over fs |};
     ks_enf := default_enforcements; ks_ops := d; ks_rounds := repeat (repeat demo_round 5) 5;
     ks_rp := {| rp_uuid := repeat 5 16; is_hal_present := true |}; ks_ts := healthy None |}.
Definition ks0 : Ks nat := ks_over (store []) empty_tables new_db.

Definition aes : list KmKeyParameter := [{| tag := val Tag.ALGORITHM; value := Field.Algorithm (val Algorithm.AES) |}].
Definition demo_imported : result AnyError KeyMetadata * Ks nat := import_key (caller (Some 0%nat)) (demo_desc "k") aes 0 [1; 2] ks0.

Lemma imported_key_is_usable_witness :
  exists md, demo_imported.1 = Ok md /\ stored ks0 demo_imported.2 (new_key_descriptor (caller (Some 0%nat)) (demo_desc "k")) (imported [1; 2]) 0 (Some 0) md.
Proof.
  destruct demo_imported as [r k'] eqn:E. assert (exists md, r = Ok md) as [md ->].
  { apply (f_equal fst) in E. vm_compute in E. rewrite <- E. eauto. }
  exists md. split; [reflexivity|].
  destruct (imported_key_is_usable (caller (Some 0%nat)) (demo_desc "k") aes 0 [1; 2] ks0 md k') as [_ (ps & f & st & st' & cr & Hkm & H)].
  - exact empty_wf.
  - reflexivity.
  - intros k [H|H]; vm_compute in H; discriminate.
  - intros ps f d a st cr st' H. simpl in H. injection H as <- _. constructor.
  - vm_compute. discriminate.
  - exact E.
  - simpl in Hkm. injection Hkm as <- _. exact H.
Defined.

Lemma new_keys_need_rebind_witness : exists e', generate_key (caller None) (demo_desc "k") None aes 0 ks0 = (Err e', ks0).
Proof. apply (new_keys_need_rebind (caller None) (demo_desc "k") ks0 err_sys). reflexivity. Defined.

(** The device has no room twice, two operations are pruned, the third call
    begins one: between one and the number of running operations plus one. *)
Lemma begin_loop_ends_witness : exists n r k',
  begin_loop 5 0 [1] [] None 1000 false (ks_over (store []) empty_tables demo_db) = (r, k') /\
  asks 0 [1] [] None 1000 false n (ks_over (store []) empty_tables demo_db) r k' /\ (1 <= n <= S (size (active demo_db)))%nat.
Proof.
  destruct (begin_loop_ends 5 0 [1] [] None 1000 false (ks_over (store []) empty_tables demo_db)) as (n & r & k' & H1 & _ & H2 & H3).
  - exact (db_reachable_inv _ demo_db demo_db_reachable).
  - vm_compute. lia.
  - vm_compute. lia.
  - assert (Forall quiet (repeat demo_round 5)) as Hq by (repeat constructor).
    assert (size (active demo_db) < 5)%nat as Hn by (vm_compute; lia).
    do 5 (apply Forall_cons_2; [split; [exact Hq|exact Hn]|]). apply Forall_nil_2.
  - exists n, r, k'. split; [exact H1|]. split; [exact H2|exact H3].
Defined.

(** A database with one key of the caller, and the parameters of a key that
    encrypts and needs no authorisation. *)
Definition stored_key (ps : list KeyParameter) : Tables :=
  (Database.store_new_key [77] {| domain := 0; nspace := 1000; alias := Some "k"; blob := None |} KeyType.Client ps
    ([1; 2], meta_add (KmUuid (repeat 5 16)) ∅) (cert_info_of []) (meta_add (CreationDate 5) ∅) (repeat 5 16) empty_tables).2.
Definition usable : list KeyParameter :=
  [{| kp_value := KeyPurpose 0; security_level := 1 |}; {| kp_value := KeyParameter.NoAuthRequired; security_level := 1 |}].
Definition usable_ks : Ks nat := ks_over (store []) (stored_key usable) demo_db.
Definition encrypt : list KmKeyParameter := [{| tag := val Tag.PURPOSE; value := Field.KeyPurpose 0 |}].

(** The caller begins an operation, with the stored parameters; a caller
    without a security context does not get at the device. *)
Lemma operations_need_permission_witness :
  is_ok (create_operation (caller (Some 0%nat)) (demo_desc "k") encrypt false usable_ks).1 = true /\
  (exists av props purpose hat info, resolves (caller (Some 0%nat)) (demo_desc "k") (stored_key usable)
      {| domain := 0; nspace := 1000; alias := Some "k"; blob := None |} av props /\
    props = Some (77, usable) /\ purpose_of encrypt = Ok purpose /\
    authorize_create (ks_enf usable_ks) (enforcement_env (caller (Some 0%nat)) usable_ks) purpose props [] false = Ok (hat, info)) /\
  idle_step usable_ks (create_operation (caller None) (demo_desc "k") encrypt false usable_ks).2.
Proof.
  assert (is_ok (create_operation (caller (Some 0%nat)) (demo_desc "k") encrypt false usable_ks).1 = true) as Ho by (vm_compute; reflexivity).
  split_and!; [exact Ho| |].
  - destruct (operations_need_permission (caller (Some 0%nat)) (demo_desc "k") encrypt false usable_ks _ _ (surjective_pairing _))
      as [[_ H]|(a & av & props & p & hat & info & _ & _ & Hr & Hp & Ha)].
    { destruct (create_operation _ _ _ _ _).1 as [x| |]; [by destruct (H x)|discriminate Ho..]. }
    assert (lookup_database (caller (Some 0%nat)) (demo_desc "k") false usable_ks = stored_key usable) as Hd by (vm_compute; reflexivity).
    rewrite Hd in Hr. pose proof Hr as (id & e & H1 & H2 & H3). vm_compute in H1. injection H1 as <- <- <-. vm_compute in H2. injection H2 as <-.
    exists None, props, p, hat, info. split_and!; [exact Hr|exact H3|exact Hp|exact Ha].
  - destruct (operations_need_permission (caller None) (demo_desc "k") encrypt false usable_ks _ _ (surjective_pairing _))
      as [[H _]|(a & av & props & p & hat & info & _ & Hc & _)]; [exact H|].
    unfold check_use, check_key_permission in Hc. simpl in Hc. discriminate.
Defined.

Definition demo_blob_ks : Ks nat := ks_over (store []) (add_blob 7 SubComponentType.KEY_BLOB [1] empty_tables) new_db.

Lemma upgrade_is_never_lost_witness :
  exists k' k2 m, upgrade_keyblob_if_required_with (Some 7) (Ref [1]) (meta_add (KmUuid (repeat 5 16)) ∅) []
    (fun b => on_km (km_getKeyCharacteristics b)) demo_blob_ks = (Ok ([], Some [1; 0]), k') /\
  on_km (km_getKeyCharacteristics [1; 0]) k2 = (Ok [], k') /\ km_uuid_of m = Some (repeat 5 16) /\
  load_blob_components 7 LoadBits.KM (w_db (g_world (ks_sys k'))) = Ok (true, Some ([1; 0], m), None, None).
Proof.
  destruct (upgrade_keyblob_if_required_with (Some 7) (Ref [1]) (meta_add (KmUuid (repeat 5 16)) ∅) []
    (fun b => on_km (km_getKeyCharacteristics b)) demo_blob_ks) as [r k'] eqn:E.
  assert (r = Ok ([], Some [1; 0])) as -> by (apply (f_equal fst) in E; vm_compute in E; symmetry; exact E).
  destruct (upgrade_is_never_lost 7 (Ref [1]) (meta_add (KmUuid (repeat 5 16)) ∅) [] (fun b => on_km (km_getKeyCharacteristics b)) demo_blob_ks
    [] (Some [1; 0]) k') as (k0 & k1 & k2 & _ & _ & _ & _ & Hf & (cb & m & Hu & [-> _] & Hl)).
  - exact (on_km_device_only km_getKeyCharacteristics).
  - apply wf_add_blob, empty_wf.
  - split; [|exact I]. intros u Hu. vm_compute in Hu. injection Hu as <-. reflexivity.
  - exact E.
  - exists k', k2, m. split_and!; [reflexivity|exact Hf|exact Hu|].
    apply (Hl LoadBits.KM true (Some ([1], ∅)) None None); vm_compute; reflexivity.
Defined.

Definition ec_params : list KmKeyParameter :=
  [{| tag := val Tag.ALGORITHM; value := Field.Algorithm (val Algorithm.EC) |};
   {| tag := val Tag.ATTESTATION_CHALLENGE; value := Field.Blob [4] |}].
Lemma certificate_parameters_complete_witness :
  exists ps k', add_certificate_parameters (caller (Some 0%nat)) 1000 ec_params (demo_desc "k") ks0 = (Ok ps, k') /\
    has_tag Tag.CERTIFICATE_NOT_AFTER ps = true /\ has_tag Tag.ATTESTATION_APPLICATION_ID ps = true.
Proof.
  destruct (add_certificate_parameters (caller (Some 0%nat)) 1000 ec_params (demo_desc "k") ks0) as [r k'] eqn:E.
  assert (exists ps, r = Ok ps) as [ps ->] by (apply (f_equal fst) in E; vm_compute in E; rewrite <- E; eauto).
  exists ps, k'. split; [reflexivity|].
  destruct (certificate_parameters_complete _ _ _ _ _ _ _ E) as (_ & H1 & H2 & _). split; [apply H2; reflexivity|apply H1; reflexivity].
Defined.

(** The wrapping key "k" of uid 1000 is in the legacy store. *)
Definition wrapped_desc : KeyDescriptor := {| domain := val Domain.SELINUX; nspace := 100; alias := Some "new"; blob := Some [3] |}.
Definition legacy_ks : Ks nat := ks_over legacy_demo_store empty_tables new_db.

Lemma legacy_wrapping_key_not_found_witness :
  import_wrapped_key (caller (Some 0%nat)) wrapped_desc (demo_desc "k") None [] [] legacy_ks =
    (Err (err_rc ResponseCode.KEY_NOT_FOUND), legacy_ks) /\
  is_ok (load_or_migrate (caller (Some 0%nat)) (demo_desc "k") (demo_desc "k") (fun _ _ => Ok tt) legacy_ks).1 = true.
Proof.
  split; [|vm_compute; reflexivity].
  apply (legacy_wrapping_key_not_found (caller (Some 0%nat)) wrapped_desc (demo_desc "k") None [] [] legacy_ks [3] "new");
    try reflexivity; vm_compute; discriminate.
Defined.
