(* ===== verification/Service.v ===== *)
(** * The Keystore service ([keystore2/src/service.rs])

    [IKeystoreService]: looking up, updating, listing, deleting and granting
    keys.  A method runs on the same state as the security levels ([Ks]);
    keys that are only in the legacy store are migrated on the way. *)

From stdpp Require Import base list gmap strings sorting.
From Stdlib Require Import ZArith Lia String.
From S2P Require Import Prelude Aidl Errors Sql KeyParameter BootLevelKeys Permission DbTypes Database DbInvariant DbKeys DbGrants Crypto RawDevice SuperKey SuperKeyCrypto LegacyFs LegacyMigrator LegacySystem SecurityLevel SecurityLevelKeys SecurityLevelOps.

(** The security levels: whether the binder of an instance yields its
    interface, by uuid, and the uuids of the levels. *)
Record KeystoreService := {
  i_sec_level_by_uuid : gmap Uuid (result AnyError unit);
  uuid_by_sec_level : gmap Z Uuid
}.

Record KeyEntryResponse := {
  ker_level : option Uuid;
  ker_metadata : KeyMetadata
}.

(** The derived order on key descriptors: by domain, namespace, alias and
    blob; strings compare as their bytes. *)
Definition string_compare (x y : string) : comparison := list_compare Z.compare (bytes_of_string x) (bytes_of_string y).
Definition desc_compare (x y : KeyDescriptor) : comparison :=
  then_compare (Z.compare (domain x) (domain y))
    (then_compare (Z.compare (nspace x) (nspace y))
      (then_compare (option_compare string_compare (alias x) (alias y))
        (option_compare (list_compare Z.compare) (blob x) (blob y)))).

Section Service.
Context {AI : Aidl} {BO : Boring} {K : Type} {Ctx : Type} {SU : Surroundings Ctx} (ks : KeystoreService) (KEYSTORE_UUID : Uuid).

Abbreviation O := (sr (Ks K) AnyError).
Abbreviation call := (Call Ctx).

(** A database call inside [with_try_migrate]; [need_gc] as in [with_db]. *)
Definition note_gc (gc : bool) : O unit := modify (fun k =>
  let g := ks_sys k in let w := g_world g in
  set_sys {| g_skm := g_skm g; g_world := {| w_db := w_db w; w_km := w_km w; w_gc := w_gc w || gc |}; g_tape := g_tape g;
             g_legacy := g_legacy g |} k).
Definition migrating {A} (c : call) (key : KeyDescriptor) (m : sr Tables AnyError (bool * A)) : O A :=
  '(gc, a) ← on_sys (on_legacy (with_try_migrate sl_user_offset key (c_uid c) (fun md =>
               let '(r, s) := m md.2 in (r, (md.1, s)))));
  _ ← note_gc gc;
  mret a.
Definition loading (c : call) (key : KeyDescriptor) (bits : Z) (check : KeyDescriptor -> option Z -> result AnyError unit)
    : O (Z * KeyEntry) :=
  migrating c key (fun s => ((fun r => (false, r)) <$> load_key_entry key KeyType.Client bits (c_uid c) check true s s, s)).

Definition check_keystore_permission (c : call) (p : KeystorePerm.name) : result AnyError unit :=
  sid ← ok_or (c_sid c) err_sys;
  Permission.check_keystore_permission sl_getcon sl_check_access sid p.
Definition check_grant_permission (c : call) (access_vec : Z) (key : KeyDescriptor) : result AnyError unit :=
  sid ← ok_or (c_sid c) err_sys;
  Permission.check_grant_permission sl_getcon sl_key_context sl_check_access sid access_vec key.

(** ** Security levels *)

(** [HashMap::iter] goes through the levels in some order. *)
Definition uuid_to_sec_level (uuid : Uuid) : Z :=
  match find (fun '(_, v) => bool_decide (v = uuid)) (map_to_list (uuid_by_sec_level ks)) with
  | Some (s, _) => s
  | None => val SecurityLevel.SOFTWARE
  end.

Definition get_i_sec_level_by_uuid (uuid : Uuid) : result AnyError Uuid :=
  match i_sec_level_by_uuid ks !! uuid with
  | Some i => _ ← i; Ok uuid
  | None => Err err_sys
  end.

Definition get_security_level (level : Z) : result AnyError Uuid :=
  match uuid_by_sec_level ks !! level with
  | Some uuid =>
    match i_sec_level_by_uuid ks !! uuid with
    | Some i => _ ← i; Ok uuid
    | None => Err (KsError (Km (val ErrorCode.HARDWARE_TYPE_UNAVAILABLE)))
    end
  | None => Err (KsError (Km (val ErrorCode.HARDWARE_TYPE_UNAVAILABLE)))
  end.

(** ** Keys *)

Definition creation_date_of (m : KeyMetaData) : option Z :=
  match m !! KeyMetaTag.CreationDate with Some (CreationDate d) => Some d | _ => None end.

Definition get_key_entry (c : call) (key : KeyDescriptor) : O KeyEntryResponse :=
  '(key_id, e) ← loading c key LoadBits.PUBLIC (check_key_permission c (val KeyPermission.GET_INFO));
  i_sec_level ← lift (if ke_pure_cert e then Ok None else Some <$> get_i_sec_level_by_uuid (ke_km_uuid e));
  date ← lift (ok_or (creation_date_of (ke_metadata e)) (err_rc ResponseCode.VALUE_CORRUPTED));
  mret {| ker_level := i_sec_level;
          ker_metadata := {| md_key := SecurityLevel.key_id_descriptor key_id; md_level := uuid_to_sec_level (ke_km_uuid e);
                             md_certificate := ke_cert e; md_chain := ke_cert_chain e;
                             md_authorizations := key_parameters_to_authorizations (ke_parameters e);
                             md_modification_time := date |} |}.

(** [KEY_NOT_FOUND] as an answer. *)
Definition found_or_none {A} (m : O A) : O (option A) := fun k =>
  match m k with
  | (Ok a, k') => (Ok (Some a), k')
  | (Err e, k') => if is_not_found e then (Ok None, k') else (Err e, k')
  | (Panic, k') => (Panic, k')
  end.

Definition certificate_target (c : call) (key : KeyDescriptor) : result AnyError KeyDescriptor :=
  match alias key with
  | Some al =>
    if domain key =? val Domain.APP
    then Ok {| domain := val Domain.APP; nspace := c_uid c; alias := Some al; blob := None |}
    else if domain key =? val Domain.SELINUX then Ok key
    else Err (err_rc ResponseCode.INVALID_ARGUMENT)
  | None => Err (err_rc ResponseCode.INVALID_ARGUMENT)
  end.

(** The certificate entry made when there is no such key. *)
Definition insert_certificate (c : call) (key : KeyDescriptor) (public_cert certificate_chain : option bytes) : O unit :=
  match public_cert, certificate_chain with
  | None, Some chain =>
    key ← lift (certificate_target c key);
    _ ← lift (check_key_permission c (val KeyPermission.REBIND) key None);
    _ ← on_sys (on_db (store_new_certificate (c_draws c) (c_date c) key KeyType.Client chain KEYSTORE_UUID));
    mret tt
  | _, _ => throw (err_rc ResponseCode.KEY_NOT_FOUND)
  end.

Definition update_subcomponent (c : call) (key : KeyDescriptor) (public_cert certificate_chain : option bytes) : O unit :=
  found ← found_or_none (loading c key LoadBits.NONE (check_key_permission c (val KeyPermission.UPDATE)));
  match found with
  | Some (key_id, _) =>
    _ ← on_sys (on_db (set_blob key_id SubComponentType.CERT public_cert None));
    on_sys (on_db (set_blob key_id SubComponentType.CERT_CHAIN certificate_chain None))
  | None => insert_certificate c key public_cert certificate_chain
  end.

(** The namespace whose entries are listed. *)
Definition list_target (c : call) (d namespace : Z) : result AnyError KeyDescriptor :=
  k ← (if d =? val Domain.APP then Ok {| domain := d; nspace := c_uid c; alias := None; blob := None |}
       else if d =? val Domain.SELINUX then Ok {| domain := d; nspace := namespace; alias := None; blob := None |}
       else Err (KsError perm));
  match check_key_permission c (val KeyPermission.GET_INFO) k None with
  | Ok _ => Ok k
  | Err (SeError PermissionDenied) =>
    _ ← check_keystore_permission c KeystorePerm.List;
    Ok (if negb (namespace =? -1) then set_nspace k namespace else k)
  | Err e => Err e
  | Panic => Panic
  end.

Definition list_entries (c : call) (d namespace : Z) : O (list KeyDescriptor) :=
  k ← lift (list_target c d namespace);
  legacy ← on_sys (on_legacy (list_uid sl_user_offset (domain k) (nspace k)));
  stored ← on_sys (read_db (fun s => Ok (list_keys (domain k) (nspace k) KeyType.Client s)));
  mret (dedup (merge_sort (at_most desc_compare) (legacy ++ stored))).

Definition delete_key (c : call) (key : KeyDescriptor) : O unit :=
  migrating c key (unbind_key key KeyType.Client (c_uid c) (check_key_permission c (val KeyPermission.DELETE))).

Definition grant (c : call) (key : KeyDescriptor) (grantee_uid access_vector : Z) : O KeyDescriptor :=
  migrating c key (Database.grant (c_draws c) key (c_uid c) (as_u32 grantee_uid) access_vector
                     (fun k av => check_grant_permission c av k)).

Definition ungrant (c : call) (key : KeyDescriptor) (grantee_uid : Z) : O unit :=
  on_sys (on_db (Database.ungrant key (c_uid c) (as_u32 grantee_uid)
                   (fun k => check_key_permission c (val KeyPermission.GRANT) k None))).
End Service.
