(* ===== verification/ServiceProofs.v ===== *)
(** * What the Keystore service promises

    Listing, deleting, reading and granting keys through
    [KeystoreService], with keys found in the database or migrated into it
    on the way. *)

From stdpp Require Import base list gmap strings sorting.
From Stdlib Require Import ZArith Lia Ascii.
From S2P Require Import Prelude Aidl Errors Sql KeyParameter BootLevelKeys Permission DbTypes Database DbInvariant DbKeys DbGrants Crypto RawDevice SuperKey SuperKeyCrypto LegacyAlias LegacyBlob LegacyFs LegacyMigrator LegacySystem SecurityLevel SecurityLevelKeys SecurityLevelOps Service.

(** ** The order of key descriptors *)

Lemma bytes_of_string_inj : Inj (=) (=) bytes_of_string.
Proof.
  intros s. induction s as [|a s IH]; intros [|b t] H; simplify_eq/=; [done|]. f_equal; [|by apply IH].
  rewrite <- (ascii_N_embedding a), <- (ascii_N_embedding b). f_equal. lia.
Qed.

Definition desc_fields (k : KeyDescriptor) : Z * (Z * (option string * option bytes)) :=
  (domain k, (nspace k, (alias k, blob k))).

Lemma lawful_desc : lawful desc_compare.
Proof.
  apply (lawful_by desc_fields (pair_compare Z.compare (pair_compare Z.compare
    (pair_compare (option_compare string_compare) (option_compare (list_compare Z.compare)))))).
  { intros [] [] H. unfold desc_fields in H. simpl in H. by simplify_eq. }
  repeat apply lawful_pair; try apply lawful_option; try apply lawful_Z; [|apply lawful_list, lawful_Z].
  apply (lawful_by bytes_of_string); [apply bytes_of_string_inj|apply lawful_list, lawful_Z].
Qed.

Section Proofs.
Context {AI : Aidl} {BO : Boring} {K : Type} {Ctx : Type} {SU : Surroundings Ctx} (ks : KeystoreService) (KEYSTORE_UUID : Uuid).
Implicit Types (k : Ks K) (c : Call Ctx).

Abbreviation db k := (w_db (g_world (ks_sys k))).

(** ** Listing *)

Lemma elem_of_list_keys d n kt s x :
  x ∈ list_keys d n kt s <-> exists r al, r ∈ keyentry s /\ k_domain r = Some (as_u32 d) /\ k_namespace r = Some n /\
    k_alias r = Some al /\ k_state r = KeyLifeCycle.Live /\ k_type r = kt /\
    x = {| domain := d; nspace := n; alias := Some al; blob := None |}.
Proof.
  unfold list_keys. rewrite list_elem_of_omap. split.
  - intros (r & [Hr Hp]%elem_of_select_where & Hx). apply bind_Some in Hx as (al & Ha & Hx). simplify_eq.
    unfold col_eq in Hp. bool_prop. by exists r, al.
  - intros (r & al & Hr & Hd & Hn & Ha & Hs & Ht & ->). exists r. split; [|by rewrite Ha].
    apply elem_of_select_where. split; [done|]. unfold col_eq. by rewrite !bool_decide_eq_true_2 by eauto.
Qed.

(** The aliases the legacy store has to offer for a domain and namespace. *)
Definition legacy_aliases d n k (l : list string) : Prop :=
  match legacy_uid d n with
  | None => l = []
  | Some uid => exists o md, do_serialized (list_uid_request sl_user_offset uid) (g_legacy (ks_sys k), db k) = (Ok o, md) /\ l = default [] o
  end.

Lemma list_uid_Ok d n k l k' :
  on_sys (on_legacy (list_uid sl_user_offset d n)) k = (Ok l, k') -> db k' = db k /\
  exists als, legacy_aliases d n k als /\
    l = (fun al => {| domain := d; nspace := n; alias := Some al; blob := None |}) <$> als.
Proof.
  intros (g & Hg & ->)%on_sys_Ok. unfold on_legacy, list_uid, legacy_aliases in *.
  destruct (legacy_uid d n) as [uid|].
  - unfold or_default, mbind, sr_bind in Hg. destruct (do_serialized _ _) as [[o| |] [m s]] eqn:E; simpl in Hg; simplify_eq.
    assert (s = db k) as ->.
    { eapply (do_serialized_db _ _ _ _ _ _ (fun a b => b = a)) in E; [done|done|].
      unfold list_uid_request, read_fs. intros. by simplify_eq. }
    split; [done|]. eauto 10.
  - unfold mret, sr_ret in Hg. simplify_eq/=. split; [done|]. by exists [].
Qed.

(** C24: The listing is exact.  A successful [list_entries] leaves the database
    alone; the namespace listed is the caller's own or the one asked for, if
    the caller may read its entries, and another one only if the caller may
    list any; the answer is in strictly ascending order, so it has no
    duplicates, and holds precisely the live client keys of that namespace
    and the aliases of the legacy store. *)
Theorem listing_exact c d n k l k' :
  list_entries c d n k = (Ok l, k') ->
  db k' = db k /\
  exists t als, list_target c d n = Ok t /\ legacy_aliases (domain t) (nspace t) k als /\
    (check_key_permission c (val KeyPermission.GET_INFO) t None = Ok tt \/
     check_keystore_permission c KeystorePerm.List = Ok tt) /\
    StronglySorted (fun x y => at_most desc_compare x y /\ x <> y) l /\
    forall x, x ∈ l <-> exists al, x = {| domain := domain t; nspace := nspace t; alias := Some al; blob := None |} /\
      (al ∈ als \/ exists r, r ∈ keyentry (db k) /\ k_domain r = Some (as_u32 (domain t)) /\ k_namespace r = Some (nspace t) /\
         k_alias r = Some al /\ k_state r = KeyLifeCycle.Live /\ k_type r = KeyType.Client).
Proof.
  intros H. unfold list_entries in H. apply sr_bind_Ok in H as (t & k1 & [Ht ->]%lift_Ok & H).
  apply sr_bind_Ok in H as (lg & k2 & (Hdb & als & Hals & ->)%list_uid_Ok & H).
  apply sr_bind_Ok in H as (st & k3 & (g & Hg & ->)%on_sys_Ok & H). unfold read_db in Hg. unfold mret, sr_ret in H. simplify_eq.
  split; [done|]. exists t, als. split; [done|]. split; [done|]. split; [|split].
  - unfold list_target in Ht. apply bind_Ok in Ht as (t0 & _ & Ht).
    destruct (check_key_permission c _ t0 None) as [[]|e|] eqn:E; [simplify_eq; auto| |done].
    destruct e as [|[]|]; try done. apply bind_Ok in Ht as ([] & Hc & _). auto.
  - pose proof (at_most_anti _ lawful_desc). pose proof (at_most_trans _ lawful_desc). pose proof (at_most_total _ lawful_desc).
    apply (dedup_sorted (at_most desc_compare)), Sorted_StronglySorted, (Sorted_merge_sort _); apply _.
  - intros x. rewrite elem_of_dedup, (merge_sort_Permutation (at_most desc_compare)), elem_of_app, list_elem_of_fmap, elem_of_list_keys, Hdb.
    naive_solver.
Qed.

(** ** Migration keeps the database well formed *)

Definition keeps_wf {A} (f : sr Worker AnyError A) : Prop :=
  forall w r w', f w = (r, w') -> db_wf (k_db w) -> db_wf (k_db w').

Lemma keeps_wf_bind {A B} (f : sr Worker AnyError A) (g : A -> sr Worker AnyError B) :
  keeps_wf f -> (forall a, keeps_wf (g a)) -> keeps_wf (mbind g f).
Proof. intros Hf Hg w r w' [(e & He & _)|(a & w1 & He & H)]%bind_cases Hwf; [eauto|]. eapply Hg; eauto. Qed.
Lemma keeps_same {A} (f : sr Worker AnyError A) : (forall w, k_db (snd (f w)) = k_db w) -> keeps_wf f.
Proof. intros Hf w r w' E Hwf. specialize (Hf w). rewrite E in Hf. simpl in Hf. by rewrite Hf. Qed.
Lemma keeps_fs {A} (f : sr Fs LegacyError A) : keeps_wf (on_fs f).
Proof. apply keeps_same. intros w. unfold on_fs. by destruct (f _). Qed.
Lemma keeps_db {A} (f : list Z -> sr Tables AnyError (bool * A)) :
  (forall draws s r s', f draws s = (r, s') -> db_wf s -> db_wf s') -> keeps_wf (on_worker_db f).
Proof. intros Hf w r w' E Hwf. unfold on_worker_db in E. destruct (f _ _) as [x s] eqn:Ef. simplify_eq. eapply Hf; eauto. Qed.

(** A transaction after argument checks, whatever its result. *)
Lemma checked_transaction_final {A B} (x : result AnyError A) (g : A -> sr Tables AnyError B) s r s' :
  (forall y, exists f, g y = transaction f) -> preserves (y ← lift x; g y) -> (y ← lift x; g y) s = (r, s') -> db_wf s -> db_wf s'.
Proof.
  intros Hg Hp H Hwf. destruct r as [b|e|]; [exact (Hp s b s' Hwf H)| |];
    unfold mbind, sr_bind, lift in H; destruct x as [y| |]; simplify_eq; try done;
    destruct (Hg y) as [f Hf]; rewrite Hf in H; by destruct (transaction_atomic _ _ _ _ H) as [[? ?]| ->].
Qed.

Lemma check_and_migrate_wf uid key : keeps_wf (check_and_migrate sl_user_offset uid key).
Proof.
  unfold check_and_migrate. apply keeps_wf_bind; [by apply keeps_same|]. intros al.
  apply keeps_wf_bind; [by apply keeps_same|]. intros [|]; [by apply keeps_same|].
  apply keeps_wf_bind; [by apply keeps_same|]. intros [[km uc] ca].
  apply keeps_wf_bind; [|intros []; apply keeps_wf_bind; [by apply keeps_same|intros []; apply keeps_wf_bind; [apply keeps_fs|intros; by apply keeps_same]]].
  destruct km as [[b params]|].
  - unfold store_legacy_key. apply keeps_wf_bind.
    + unfold legacy_blob_info. destruct (blob_value b); try by apply keeps_same.
      apply keeps_wf_bind; [by apply keeps_same|]. intros [[]|]; [by apply keeps_same|].
      apply keeps_wf_bind; [by apply keeps_same|]. intros [|]; [by apply keeps_same|].
      apply keeps_wf_bind; [apply keeps_fs|]. intros. by apply keeps_same.
    + intros info. apply keeps_wf_bind; [by apply keeps_same|]. intros u. apply keeps_wf_bind; [by apply keeps_same|]. intros date.
      apply keeps_wf_bind; [|intros; by apply keeps_same]. apply keeps_db. intros draws s r s' H Hwf.
      eapply checked_transaction_final; [| |exact H|done]; [intros [[] ]; by eexists|]. exact (store_new_key_wf _ _ _ _ _ _ _ _).
  - destruct ca as [ca|]; [|by apply keeps_same]. apply keeps_wf_bind; [by apply keeps_same|]. intros now.
    apply keeps_wf_bind; [|intros; by apply keeps_same]. apply keeps_db. intros draws s r s' H Hwf.
    eapply checked_transaction_final; [| |exact H|done]; [intros [[] ]; by eexists|]. exact (store_new_certificate_wf _ _ _ _ _ _).
Qed.

Lemma migrated_wf c key k s : migrated c key k s -> db_wf (db k) -> db_wf s.
Proof.
  intros (uid & m & _ & H).
  exact (do_serialized_db _ _ _ _ _ _ (fun a b => db_wf a -> db_wf b) (fun _ H => H) (check_and_migrate_wf uid key) H).
Qed.

(** An access run with the help of the migrator. *)
Lemma migrating_Ok {A} c key (f : sr Tables AnyError (bool * A)) k a k' :
  (forall s e s', f s = (Err e, s') -> s' = s) -> migrating c key f k = (Ok a, k') ->
  exists s gc, (s = db k \/ migrated c key k s) /\ f s = (Ok (gc, a), db k') /\
    g_skm (ks_sys k') = g_skm (ks_sys k) /\ w_km (g_world (ks_sys k')) = w_km (g_world (ks_sys k)) /\
    (gc = true -> w_gc (g_world (ks_sys k')) = true).
Proof.
  unfold migrating. intros Hf H. apply sr_bind_Ok in H as ([gc a'] & k1 & (g & Hg & ->)%on_sys_Ok & H).
  apply sr_bind_Ok in H as ([] & k2 & Hn & H). unfold mret, sr_ret in H. simplify_eq.
  unfold note_gc, modify in Hn. injection Hn as <-. unfold on_legacy in Hg.
  destruct (with_try_migrate _ _ _ _ _) as [r [l s]] eqn:E. simplify_eq.
  cut (exists s0, (s0 = db k \/ migrated c key k s0) /\ f s0 = (Ok (gc, a), s)).
  { intros (s0 & H0 & H1). exists s0, gc. split_and!; try done. simpl. intros ->. apply orb_true_r. }
  unfold with_try_migrate in E. cbn [snd fst] in E. destruct (f (db k)) as [[x|e|] s1] eqn:E1; [by simplify_eq; eauto| |done].
  apply Hf in E1 as ->.
  destruct (is_not_found e); [|done]. destruct (migration_uid key (c_uid c)) as [uid|] eqn:Hu; [|done].
  apply sr_bind_Ok in E as (o & [m s1] & Hm & H). destruct o as [[]|]; [|done]. cbn [snd fst] in H.
  destruct (f s1) as [x s2] eqn:Ex. simplify_eq. exists s1. split; [|done]. right. by eexists uid, _.
Qed.

(** ** Deleting *)

(** C23: A deleted key is gone.  A successful [delete_key] found the key in the
    database, or in the database its migration made; the caller has the
    permission to delete what the descriptor led to; afterwards neither
    alias, id nor grant leads anyone to that key, and the garbage collector
    is told to destroy its blobs; no super key changes and the device is not
    called. *)
Theorem deleted_key_is_gone c key k k' :
  db_wf (db k) -> Service.delete_key c key k = (Ok tt, k') ->
  exists s id dk av, (s = db k \/ migrated c key k s) /\
    load_access_tuple key KeyType.Client (c_uid c) s = Ok (id, dk, av) /\
    check_key_permission c (val KeyPermission.DELETE) dk av = Ok tt /\
    unreachable (db k') id /\ (forall g, g ∈ grants (db k') -> g_key g <> id) /\ db_wf (db k') /\
    w_gc (g_world (ks_sys k')) = true /\
    g_skm (ks_sys k') = g_skm (ks_sys k) /\ w_km (g_world (ks_sys k')) = w_km (g_world (ks_sys k)).
Proof.
  intros Hwf H. unfold Service.delete_key in H. apply migrating_Ok in H as (s & gc & Hs & H & Hk & Hd & Hgc).
  2:{ intros s e s' E. by destruct (transaction_atomic _ _ _ _ E) as [[? ?]| ->]. }
  assert (db_wf s) as Hwfs by (destruct Hs as [->|Hs]; [done|exact (migrated_wf _ _ _ _ Hs Hwf)]).
  pose proof (unbind_key_wf _ _ _ _ s _ _ Hwfs H) as Hwf'.
  apply unbind_key_Ok in H as (id & dk & av & Ht & Hc & Hg & Hun & _ & _ & Hgr & _); [|done].
  exists s, id, dk, av. split_and!; auto.
Qed.

(** ** Reading *)

Definition without_key_blob (e : KeyEntry) : KeyEntry :=
  {| ke_id := ke_id e; ke_key_blob_info := None; ke_cert := ke_cert e; ke_cert_chain := ke_cert_chain e;
     ke_km_uuid := ke_km_uuid e; ke_parameters := ke_parameters e; ke_metadata := ke_metadata e; ke_pure_cert := ke_pure_cert e |}.

Lemma extract_public (rows : list BlobRow) a b :
  try_fold (extract_blob LoadBits.BOTH) a rows = Ok b ->
  try_fold (extract_blob LoadBits.PUBLIC)
    {| key_blob := None; cert_blob := cert_blob a; cert_chain_blob := cert_chain_blob a; has_km_blob := has_km_blob a |} rows =
  Ok {| key_blob := None; cert_blob := cert_blob b; cert_chain_blob := cert_chain_blob b; has_km_blob := has_km_blob b |}.
Proof.
  revert a. induction rows as [|r rows IH]; intros a H; simpl in *; [by simplify_eq|].
  apply bind_Ok in H as (a1 & H1 & H). unfold extract_blob in *. simpl in *.
  destruct (Z.eqb_spec (b_type r) SubComponentType.KEY_BLOB) as [Eq|_]; simpl in *.
  { rewrite Eq in *. simpl in *. simplify_eq/=. exact (IH _ H). }
  destruct (b_type r =? SubComponentType.CERT); simpl in *; [simplify_eq/=; exact (IH _ H)|].
  destruct (b_type r =? SubComponentType.CERT_CHAIN); simpl in *; [simplify_eq/=; exact (IH _ H)|done].
Qed.

(** Without the key blob a key is read just the same. *)
Lemma load_components_public id s e :
  load_key_components LoadBits.BOTH id s = Ok e -> load_key_components LoadBits.PUBLIC id s = Ok (without_key_blob e).
Proof.
  unfold load_key_components, load_blob_components. intros H. apply bind_Ok in H as (m & -> & H). simpl.
  apply bind_Ok in H as ([[[has bi] ce] ch] & Hb & H). apply bind_Ok in Hb as (b & Hf%extract_public & Hb). simpl in Hf.
  unfold no_blobs. rewrite Hf. simpl. apply bind_Ok in Hb as (bi' & _ & Hb). simplify_eq.
  apply bind_Ok in H as (ps & -> & H). apply bind_Ok in H as (u & -> & H). simplify_eq. done.
Qed.

Lemma loading_found c key bits chk k r :
  load_key_entry key KeyType.Client bits (c_uid c) chk true (db k) (db k) = Ok r ->
  exists k', db k' = db k /\ loading c key bits chk k = (Ok r, k').
Proof.
  intros H. unfold loading, migrating, mbind, sr_bind, on_sys, on_legacy, with_try_migrate. cbn [fst snd]. rewrite H.
  eexists. split; [|reflexivity]. done.
Qed.

(** What [get_key_entry] answers for a key that is in the database. *)
Lemma get_key_entry_found c key k id dk av e date :
  load_access_tuple key KeyType.Client (c_uid c) (db k) = Ok (id, dk, av) ->
  check_key_permission c (val KeyPermission.GET_INFO) dk av = Ok tt ->
  domain key <> val Domain.KEY_ID -> load_key_components LoadBits.BOTH id (db k) = Ok e ->
  ke_pure_cert e = false -> i_sec_level_by_uuid ks !! ke_km_uuid e = Some (Ok tt) -> creation_date_of (ke_metadata e) = Some date ->
  exists k', db k' = db k /\ get_key_entry ks c key k =
    (Ok {| ker_level := Some (ke_km_uuid e);
           ker_metadata := {| md_key := SecurityLevel.key_id_descriptor id; md_level := uuid_to_sec_level ks (ke_km_uuid e);
             md_certificate := ke_cert e; md_chain := ke_cert_chain e;
             md_authorizations := key_parameters_to_authorizations (ke_parameters e); md_modification_time := date |} |}, k').
Proof.
  intros Ht Hc Hd He%load_components_public Hp Hi Hm.
  assert (load_key_entry key KeyType.Client LoadBits.PUBLIC (c_uid c) (check_key_permission c (val KeyPermission.GET_INFO)) true (db k) (db k)
    = Ok (id, without_key_blob e)) as Hl.
  { unfold load_key_entry. rewrite Ht. simpl. rewrite Hc. simpl. rewrite orb_true_r. simpl.
    destruct (Z.eqb_spec (domain key) (val Domain.KEY_ID)); [done|]. by rewrite He. }
  destruct (loading_found c key LoadBits.PUBLIC _ k _ Hl) as (k' & Hdb & Hload). exists k'. split; [done|].
  unfold get_key_entry, mbind, sr_bind. rewrite Hload. unfold lift, get_i_sec_level_by_uuid. simpl. by rewrite Hp, Hi, Hm.
Qed.

(** The owner reaches the location of a new key. *)
Lemma stored_tuple c key s id dk av :
  load_access_tuple (new_key_descriptor c key) KeyType.Client (nspace (new_key_descriptor c key)) s = Ok (id, dk, av) ->
  app_or_selinux (domain (new_key_descriptor c key)) = true ->
  load_access_tuple (new_key_descriptor c key) KeyType.Client (c_uid c) s = Ok (id, dk, av) /\
  dk = new_key_descriptor c key /\ av = None.
Proof.
  intros H Ha. unfold load_access_tuple in *. rewrite Ha in *. apply bind_Ok in H as (i & Hi & H). simplify_eq.
  unfold new_key_descriptor in *. destruct (domain key =? val Domain.APP) eqn:E; simpl in *; rewrite ?E in *; simpl in *.
  - unfold set_nspace in *. simpl in *. by rewrite Hi.
  - by rewrite Hi.
Qed.

(** C22: What was imported is what the service reports.  After a successful
    [import_key] the caller who may read the entry gets, by its alias, the
    key id, the certificates, the authorizations and the time [import_key]
    answered with, and the security level the key lives in. *)
Theorem imported_key_reads_back {KMI : KeyMint K} c key params flags data k md k' :
  db_wf (db k) -> length sl_uuid = 16%nat -> user_keys_in_db (ks_sys k) (uid_to_android_user sl_user_offset (c_uid c)) ->
  (forall ps f d a st cr st', km_importKey ps f d a st = (Ok cr, st') -> well_typed cr) ->
  domain key <> val Domain.BLOB -> import_key c key params flags data k = (Ok md, k') ->
  Forall (fun r => key_id_descriptor (b_key r) <> md_key md) (blobentry (db k)) ->
  check_key_permission c (val KeyPermission.GET_INFO) (new_key_descriptor c key) None = Ok tt ->
  i_sec_level_by_uuid ks !! sl_uuid = Some (Ok tt) ->
  exists k'', get_key_entry ks c (new_key_descriptor c key) k' =
    (Ok {| ker_level := Some sl_uuid;
           ker_metadata := {| md_key := md_key md; md_level := uuid_to_sec_level ks sl_uuid; md_certificate := md_certificate md;
             md_chain := md_chain md; md_authorizations := md_authorizations md;
             md_modification_time := md_modification_time md |} |}, k'').
Proof.
  intros Hwf Hu Huk Hdev Hd H Hnb Hperm Hi.
  apply import_key_stored in H as [_ (ps & f & st & st' & cr & _ & (Ha & id & cb & m & date & -> & _ & Hl))]; try done.
  specialize (Hl ltac:(eapply Forall_impl; [exact Hnb|]; simpl; intros r Hr Hx; apply Hr; by rewrite Hx) (fun _ _ => Ok tt) (fun _ _ => eq_refl)).
  apply bind_Ok in Hl as ([[id' dk] av] & Ht & Hl). apply bind_Ok in Hl as ([] & _ & Hl). rewrite orb_true_r in Hl. simpl in Hl.
  apply bind_Ok in Hl as (e & He & Hl).
  destruct (stored_tuple c key (db k') id' dk av Ht Ha) as (Ht' & -> & ->).
  assert (domain (new_key_descriptor c key) <> val Domain.KEY_ID) as Hid.
  { intros E. unfold app_or_selinux in Ha. rewrite E, !val_eqb in Ha. done. }
  destruct (Z.eqb_spec (domain (new_key_descriptor c key)) (val Domain.KEY_ID)) as [|_]; [done|].
  simplify_eq.
  destruct (get_key_entry_found c (new_key_descriptor c key) k' id _ None _ date Ht' Hperm Hid He) as (k2 & _ & Hg); [done..|]. eauto.
Qed.

(** ** Replacing certificates *)

Lemma loading_Ok c key bits chk k id e k' :
  loading c key bits chk k = (Ok (id, e), k') ->
  (db k' = db k \/ migrated c key k (db k')) /\
  exists dk av, load_access_tuple key KeyType.Client (c_uid c) (db k') = Ok (id, dk, av) /\ chk dk av = Ok tt /\
    load_key_components bits id (db k') = Ok e.
Proof.
  unfold loading. intros (s & gc & Hs & H & _)%migrating_Ok; [|by intros; simplify_eq].
  destruct (load_key_entry _ _ _ _ _ _ s s) as [[i e']| |] eqn:E; simplify_eq/=. split; [by destruct Hs; auto|].
  unfold load_key_entry in E. apply bind_Ok in E as ([[i dk] av] & Ht & E). apply bind_Ok in E as ([] & Hc & E).
  rewrite orb_true_r in E. simpl in E. apply bind_Ok in E as (e' & He & E). simplify_eq.
  rewrite (load_access_tuple_key_id _ _ _ _ _ _ _ Ht) in *. eauto.
Qed.

(** The certificates of a key as its rows give them. *)
Definition public_blobs (id : Z) (s : Tables) : result AnyError Blobs :=
  try_fold (extract_blob LoadBits.PUBLIC) no_blobs (latest_blobs id s).
Definition put_cert (t : Z) (x : option bytes) (b : Blobs) : Blobs :=
  {| key_blob := key_blob b; cert_blob := if t =? SubComponentType.CERT then x else cert_blob b;
     cert_chain_blob := if t =? SubComponentType.CERT_CHAIN then x else cert_chain_blob b; has_km_blob := has_km_blob b |}.
Definition is_cert (t : Z) : Prop := t = SubComponentType.CERT \/ t = SubComponentType.CERT_CHAIN.

Lemma extract_put t a r b :
  is_cert t -> extract_blob LoadBits.PUBLIC a r = Ok b ->
  if b_type r =? t then put_cert t None b = put_cert t None a
  else extract_blob LoadBits.PUBLIC (put_cert t None a) r = Ok (put_cert t None b).
Proof.
  unfold extract_blob, put_cert. intros Ht. 
  destruct (Z.eqb_spec (b_type r) SubComponentType.KEY_BLOB) as [->|]; simpl;
    [|destruct (Z.eqb_spec (b_type r) SubComponentType.CERT) as [->|]; simpl;
      [|destruct (Z.eqb_spec (b_type r) SubComponentType.CERT_CHAIN) as [->|]; simpl; [|done]]];
    destruct Ht as [->| ->]; simpl; intros; simplify_eq/=; rewrite ?orb_false_r; done.
Qed.

Lemma extract_drop t (rows : list BlobRow) a b :
  is_cert t -> try_fold (extract_blob LoadBits.PUBLIC) a rows = Ok b ->
  try_fold (extract_blob LoadBits.PUBLIC) (put_cert t None a) (select_where (fun r => negb (b_type r =? t)) rows) = Ok (put_cert t None b).
Proof.
  intros Ht. revert a. induction rows as [|r rows IH]; intros a H; simpl in H; [by simplify_eq|].
  apply bind_Ok in H as (a1 & H1 & H). specialize (IH _ H). apply (extract_put t) in H1; [|done].
  unfold select_where in *. destruct (b_type r =? t) eqn:E.
  - rewrite filter_cons_False by (rewrite E; intros [=]). by rewrite <- H1.
  - rewrite filter_cons_True by (by rewrite E). simpl. rewrite H1. simpl. exact IH.
Qed.

Lemma latest_after_delete id t s s' :
  blobentry s' = delete_where (fun r => (b_type r =? t) && (b_key r =? id)) (blobentry s) ->
  latest_blobs id s' = select_where (fun r => negb (b_type r =? t)) (latest_blobs id s).
Proof.
  intros B. unfold latest_blobs. rewrite B. set (mine := select_where (fun r => b_key r =? id) (blobentry s)).
  assert (select_where (fun r => b_key r =? id) (delete_where (fun r => (b_type r =? t) && (b_key r =? id)) (blobentry s))
    = select_where (fun r => negb (b_type r =? t)) mine) as ->.
  { unfold mine, delete_where, select_where. rewrite !list_filter_filter. apply list_filter_iff. intros r.
    destruct (b_type r =? t), (b_key r =? id); naive_solver. }
  rewrite !select_where_select. apply select_where_ext. intros r Hr. rewrite (andb_comm (negb _)).
  destruct (Z.eqb_spec (b_type r) t) as [|Hn]; [by rewrite !andb_false_r|]. rewrite !andb_true_r.
  apply eq_true_iff_eq. rewrite !forallb_forall. split; intros H r' Hr'%list_elem_of_In.
  - destruct (Z.eqb_spec (b_type r') t) as [Et|Et].
    + destruct (Z.eqb_spec (b_type r') (b_type r)); [congruence|done].
    + apply H, list_elem_of_In, elem_of_select_where. split; [done|]. by apply negb_true_iff, Z.eqb_neq.
  - apply elem_of_select_where in Hr' as [Hr' _]. by apply H, list_elem_of_In.
Qed.

Lemma public_after_set t x id s gc s' b :
  is_cert t -> set_blob id t x None s = (Ok (gc, tt), s') -> public_blobs id s = Ok b ->
  public_blobs id s' = Ok (put_cert t x b) /\ keyentry s' = keyentry s.
Proof.
  intros Ht H Hb. unfold set_blob in H. rewrite transaction_Ok in H. apply sr_bind_Ok in H as ([] & s1 & H & E). unfold mret, sr_ret in E. simplify_eq.
  apply set_blob_internal_Ok in H as (Kk & _ & _ & _ & B). split; [|done]. unfold public_blobs in *.
  assert (put_cert t None no_blobs = no_blobs) as Hn by (by destruct Ht as [->| ->]).
  pose proof (extract_drop t _ _ _ Ht Hb) as Hd. rewrite Hn in Hd. destruct x as [x|].
  - destruct B as [B _]. assert (latest_blobs id s' = latest_blobs id (add_blob id t x s)) as -> by (unfold latest_blobs; by rewrite B).
    rewrite latest_after_add, (try_fold_app_Ok _ _ _ _ _ Hd). simpl. unfold extract_blob. simpl.
    destruct Ht as [->| ->]; simpl; by rewrite orb_false_r.
  - destruct B as (_ & _ & B). by rewrite (latest_after_delete id t s s' B), Hd.
Qed.

(** Whether the rows can be read does not depend on the parts asked for. *)
Lemma extract_any bits (rows : list BlobRow) a b bits' a' :
  try_fold (extract_blob bits) a rows = Ok b -> exists b', try_fold (extract_blob bits') a' rows = Ok b'.
Proof.
  revert a a'. induction rows as [|r rows IH]; intros a a' H; simpl in *; [eauto|]. apply bind_Ok in H as (a1 & H1 & H).
  assert (exists a2, extract_blob bits' a' r = Ok a2) as [a2 ->]; [|simpl; by eapply IH].
  unfold extract_blob in *. destruct (b_type r =? _), (b_type r =? _), (b_type r =? _); simpl in *;
    destruct (LoadBits.load_km bits'), (LoadBits.load_public bits'); simpl in *; eauto;
    destruct (LoadBits.load_km bits), (LoadBits.load_public bits); done.
Qed.

Lemma extract_no_key_blob (rows : list BlobRow) a b :
  key_blob a = None -> try_fold (extract_blob LoadBits.PUBLIC) a rows = Ok b -> key_blob b = None.
Proof.
  revert a. induction rows as [|r rows IH]; intros a Ha H; simpl in *; [by simplify_eq|].
  apply bind_Ok in H as (a1 & H1 & H). apply (IH a1); [|done]. unfold extract_blob in H1. simpl in H1.
  destruct (b_type r =? _), (b_type r =? _), (b_type r =? _); by simplify_eq/=.
Qed.

(** Replacing the certificates of a key.  If [update_subcomponent] succeeds
    for a key there is, the caller has the permission to update what the
    descriptor leads to, and from then on the certificate and the chain of
    that key are exactly those given, a missing one being removed.  If there
    is no such key, only a chain was given, the location is the caller's own
    (or an SELinux namespace), the caller may bind the alias, and a new
    entry holds the chain. *)
Theorem update_subcomponent_exact c key pc chain k k' :
  update_subcomponent KEYSTORE_UUID c key pc chain k = (Ok tt, k') ->
  (exists s id dk av b, (s = db k \/ migrated c key k s) /\
     load_access_tuple key KeyType.Client (c_uid c) s = Ok (id, dk, av) /\
     check_key_permission c (val KeyPermission.UPDATE) dk av = Ok tt /\
     public_blobs id s = Ok b /\ keyentry (db k') = keyentry s /\
     load_blob_components id LoadBits.PUBLIC (db k') = Ok (has_km_blob b, None, pc, chain)) \/
  (pc = None /\ exists ch t s gc id, chain = Some ch /\ certificate_target c key = Ok t /\
     check_key_permission c (val KeyPermission.REBIND) t None = Ok tt /\
     store_new_certificate (c_draws c) (c_date c) t KeyType.Client ch KEYSTORE_UUID s = (Ok (gc, id), db k')).
Proof.
  intros H. unfold update_subcomponent in H. apply sr_bind_Ok in H as (found & k1 & Hf & H).
  unfold found_or_none in Hf. destruct (loading _ _ _ _ k) as [[[id e]|e|] k0] eqn:Hl; simplify_eq.
  - left. apply loading_Ok in Hl as (Hs & dk & av & Ht & Hc & He).
    apply sr_bind_Ok in H as ([] & k2 & (g2 & (gc & s2 & H2 & ->)%on_db_Ok & ->)%on_sys_Ok & H).
    apply on_sys_Ok in H as (g3 & (gc' & s3 & H3 & ->)%on_db_Ok & ->). simpl in *.
    unfold load_key_components, load_blob_components in He. apply bind_Ok in He as (m & _ & He).
    apply bind_Ok in He as (x & He & _). apply bind_Ok in He as (b0 & He & _).
    destruct (extract_any _ _ _ _ LoadBits.PUBLIC no_blobs He) as [b Hb].
    destruct (public_after_set _ _ _ _ _ _ _ (or_introl eq_refl) H2 Hb) as [Hb2 K2].
    destruct (public_after_set _ _ _ _ _ _ _ (or_intror eq_refl) H3 Hb2) as [Hb3 K3].
    exists (db k1), id, dk, av, b. split_and!; try done; [by rewrite K3|].
    assert (key_blob b = None) as Hk by exact (extract_no_key_blob _ no_blobs _ eq_refl Hb).
    unfold load_blob_components. unfold public_blobs in Hb3. rewrite Hb3. simpl. by rewrite Hk.
  - right. destruct (is_not_found e); simplify_eq. unfold insert_certificate in H. destruct pc, chain as [ch|]; try done.
    split; [done|]. apply sr_bind_Ok in H as (t & k2 & [Ht ->]%lift_Ok & H). apply sr_bind_Ok in H as ([] & k2 & [Hc ->]%lift_Ok & H).
    apply sr_bind_Ok in H as (id & k2 & (g2 & (gc & s2 & H2 & ->)%on_db_Ok & ->)%on_sys_Ok & H).
    unfold mret, sr_ret in H. simplify_eq. by exists ch, t, (db k1), gc, id.
Qed.
End Proofs.
