(* ===== verification/ServiceDemo.v ===== *)
(** * Examples for the Keystore service

    The theorems of [ServiceProofs] on the device and policy of
    [SecurityLevelDemo], and a key that comes back after it was deleted. *)

From stdpp Require Import base list gmap strings sorting.
From Stdlib Require Import ZArith Lia.
From S2P Require Import Prelude Aidl Errors Sql KeyParameter Perboot BootLevelKeys Permission AuthInfo Enforcements Operation OperationDb DbTypes Database DbInvariant DbKeys DbAttestation Crypto RawDevice SuperKey SuperKeyCrypto LegacyFs LegacyList LegacyMigrator IdRotation RemoteProvisioning LegacySystem SecurityLevel SecurityLevelKeys SecurityLevelOps SecurityLevelDemo Service ServiceProofs.

#[local] Existing Instances aidl_published toy_boring busy_km permissive.

Definition demo_service : KeystoreService :=
  {| i_sec_level_by_uuid := {[ repeat 5 16 := Ok tt; repeat 7 16 := Ok tt ]}; uuid_by_sec_level := {[ 1 := repeat 5 16; 2 := repeat 7 16 ]} |}.
Definition alice : Call nat := caller (Some 0%nat).

(** The state after each of a sequence of calls. *)
Definition after {A} (x : result AnyError A * Ks nat) : Ks nat := x.2.
Definition rebound_ks : Ks nat := after (import_key alice (demo_desc "k") aes 0 [1; 2] legacy_ks).
Definition deleted_ks : Ks nat := after (Service.delete_key alice (demo_desc "k") rebound_ks).

(** A deleted key can come back.  Importing (or generating) a key under an
    alias does not look at the legacy store, so a key of the same name there
    survives, hidden; deleting the new key uncovers it: the deletion
    succeeds, and the next lookup of the alias finds a key, the old one. *)
Theorem deleted_key_resurrects :
  is_ok (import_key alice (demo_desc "k") aes 0 [1; 2] legacy_ks).1 = true /\
  (Service.delete_key alice (demo_desc "k") rebound_ks).1 = Ok tt /\
  md_certificate ∘ ker_metadata <$> (get_key_entry demo_service alice (demo_desc "k") rebound_ks).1 = Ok (Some [5]) /\
  md_certificate ∘ ker_metadata <$> (get_key_entry demo_service alice (demo_desc "k") deleted_ks).1 = Ok (Some [9]).
Proof. vm_compute. done. Qed.

Lemma listing_exact_witness :
  exists l k', list_entries alice (val Domain.APP) (-1) rebound_ks = (Ok l, k') /\ l <> [] /\
    StronglySorted (fun x y => at_most desc_compare x y /\ x <> y) l.
Proof.
  destruct (list_entries alice (val Domain.APP) (-1) rebound_ks) as [r k'] eqn:E.
  assert (r = Ok [{| domain := 0; nspace := 1000; alias := Some "k"; blob := None |}]) as ->
    by (apply (f_equal fst) in E; vm_compute in E; symmetry; exact E).
  eexists _, k'. split; [reflexivity|]. split; [discriminate|].
  destruct (listing_exact alice (val Domain.APP) (-1) rebound_ks _ k' E) as (_ & t & als & _ & _ & _ & H & _). exact H.
Defined.

(** The key in the database of [ks0] after an import. *)
Definition imported_ks : Ks nat := after demo_imported.
Definition imported_db : result AnyError (bool * Z) * Tables :=
  Database.store_new_key [77] {| domain := 0; nspace := 1000; alias := Some "k"; blob := None |} KeyType.Client
    (new_key_parameters (imported [1; 2]) 0) ([1; 2], meta_add (KmUuid (repeat 5 16)) ∅) (cert_info_of [[5]; [6]; [7]])
    (meta_add (CreationDate 5) ∅) (repeat 5 16) empty_tables.
Lemma imported_db_ok : imported_db.1 = Ok (false, 77) /\ w_db (g_world (ks_sys imported_ks)) = imported_db.2.
Proof. split; vm_compute; reflexivity. Qed.
Lemma imported_ks_wf : db_wf (w_db (g_world (ks_sys imported_ks))).
Proof.
  destruct imported_db_ok as [Ho ->]. destruct imported_db as [r s] eqn:E. simpl in *. subst r. unfold imported_db in E.
  exact (store_new_key_wf _ _ _ _ _ _ _ _ _ _ _ empty_wf E).
Qed.

Lemma deleted_key_is_gone_witness :
  exists k' id, Service.delete_key alice (demo_desc "k") imported_ks = (Ok tt, k') /\ unreachable (w_db (g_world (ks_sys k'))) id.
Proof.
  destruct (Service.delete_key alice (demo_desc "k") imported_ks) as [r k'] eqn:E.
  assert (r = Ok tt) as -> by (apply (f_equal fst) in E; vm_compute in E; symmetry; exact E).
  destruct (deleted_key_is_gone alice (demo_desc "k") imported_ks k' imported_ks_wf E) as (s & id & dk & av & _ & _ & _ & H & _).
  exists k', id. split; [reflexivity|exact H].
Defined.

Lemma imported_key_reads_back_witness :
  exists k'' r, get_key_entry demo_service alice (demo_desc "k") imported_ks = (Ok r, k'') /\ md_level (ker_metadata r) = 1 /\
    md_certificate (ker_metadata r) = Some [5].
Proof.
  destruct demo_imported as [r k'] eqn:E.
  assert (exists md, r = Ok md /\ md_certificate md = Some [5] /\ md_key md = key_id_descriptor 77) as (md & -> & Hc & Hk).
  { apply (f_equal fst) in E. vm_compute in E. rewrite <- E. eexists. split; [reflexivity|]. split; reflexivity. }
  destruct (imported_key_reads_back demo_service alice (demo_desc "k") aes 0 [1; 2] ks0 md k') as [k'' H].
  - exact empty_wf.
  - reflexivity.
  - intros k [H|H]; vm_compute in H; discriminate.
  - intros ps f d a st cr st' H. simpl in H. injection H as <- _. constructor.
  - vm_compute. discriminate.
  - exact E.
  - constructor.
  - reflexivity.
  - reflexivity.
  - assert (imported_ks = k') as -> by (unfold imported_ks; rewrite E; reflexivity).
    change (new_key_descriptor alice (demo_desc "k")) with (demo_desc "k") in H.
    eexists k'', _. split; [exact H|]. split; [vm_compute; reflexivity|exact Hc].
Defined.

Lemma update_subcomponent_exact_witness :
  exists k' id has, update_subcomponent (repeat 0 16) alice (demo_desc "k") (Some [8]) None imported_ks = (Ok tt, k') /\
    load_blob_components id LoadBits.PUBLIC (w_db (g_world (ks_sys k'))) = Ok (has, None, Some [8], None).
Proof.
  destruct (update_subcomponent (repeat 0 16) alice (demo_desc "k") (Some [8]) None imported_ks) as [r k'] eqn:E.
  assert (r = Ok tt) as -> by (apply (f_equal fst) in E; vm_compute in E; symmetry; exact E).
  destruct (update_subcomponent_exact (repeat 0 16) alice (demo_desc "k") (Some [8]) None imported_ks k' E)
    as [(s & id & dk & av & b & _ & Ht & _ & Hb & _ & H)|[? _]]; [|discriminate].
  exists k', id, (has_km_blob b). split; [reflexivity|exact H].
Defined.
