(* ===== verification/Authorization.v ===== *)
(** * The authorization service ([keystore2/src/authorization.rs])

    [IKeystoreAuthorization]: auth tokens from the authenticators, lock
    screen events, and the tokens handed to the credential store.  The state
    is the one of the security levels and the per boot database. *)

From stdpp Require Import base list gmap strings.
From Stdlib Require Import ZArith Lia.
From S2P Require Import Prelude Aidl Errors Sql KeyParameter Perboot BootLevelKeys Permission AuthInfo Enforcements Operation OperationDb DbTypes Database DbInvariant Crypto RawDevice SuperKey SuperKeyCrypto SuperKeySafety LegacyFs LegacyMigrator LegacySystem SecurityLevel SecurityLevelKeys SecurityLevelOps Service.

(** ** Errors *)

(** [android.security.authorization.ResponseCode]. *)
Module AuthorizationCode.
Definition NO_AUTH_TOKEN_FOUND : Z := 1.
Definition AUTH_TOKEN_EXPIRED : Z := 2.
Definition SYSTEM_ERROR : Z := 4.
Definition PERMISSION_DENIED : Z := 6.
Definition KEY_NOT_FOUND : Z := 7.
Definition VALUE_CORRUPTED : Z := 8.
Definition INVALID_ARGUMENT : Z := 20.
End AuthorizationCode.

(** The root cause of a failed call: an error of the other modules, or one of
    this service. *)
Inductive AzError :=
| AzAny (e : AnyError)
| AzRc (rc : Z)
| AzBinder (e : ExceptionCode) (code : Z).

Inductive LockScreenEvent := UNLOCK | LOCK | UnknownEvent (z : Z).

(** What the user's lock screen needs besides: the KeyMint device of the TEE,
    and constants of other interfaces. *)
Class Tee := {
  tee_uuid : Uuid;
  tee_device : result AnyError unit;
  biometric_alias : Z -> string;
  AID_KEYSTORE : Z;
  BLOCK_MODE_GCM : Z;
  PADDING_NONE : Z;
  AUTHENTICATOR_FINGERPRINT : Z;
  AUTH_TYPE_ANY : Z
}.

Record Daemon (K : Type) := { d_ks : Ks K; d_tokens : PerbootDB }.
Arguments d_ks {K}. Arguments d_tokens {K}.

Section Authorization.
Context {AI : Aidl} {BO : Boring} {K : Type} {KMI : KeyMint K} {Ctx : Type} {SU : Surroundings Ctx} {TE : Tee}.

#[local] Instance az_legacy : Legacy Migrator := migrator_legacy sl_user_offset.
Abbreviation Az := (sr (Daemon K) AzError).
Abbreviation call := (Call Ctx).

Definition rc_of (e : AzError) : Z :=
  match e with
  | AzAny (KsError (Rc c)) =>
    if c =? val ResponseCode.SYSTEM_ERROR then AuthorizationCode.SYSTEM_ERROR
    else if c =? val ResponseCode.KEY_NOT_FOUND then AuthorizationCode.KEY_NOT_FOUND
    else if c =? val ResponseCode.VALUE_CORRUPTED then AuthorizationCode.VALUE_CORRUPTED
    else if c =? val ResponseCode.INVALID_ARGUMENT then AuthorizationCode.INVALID_ARGUMENT
    else AuthorizationCode.SYSTEM_ERROR
  | AzRc rcode => rcode
  | AzBinder _ _ => AuthorizationCode.SYSTEM_ERROR
  | AzAny (SeError PermissionDenied) => AuthorizationCode.PERMISSION_DENIED
  | AzAny _ => AuthorizationCode.SYSTEM_ERROR
  end.
Definition map_or_log_err {T} (r : result AzError T) : result BinderStatus T :=
  map_err (fun e => new_service_specific_error (rc_of e)) r.

(** ** Liftings *)

Definition az_lift {A} (r : result AnyError A) : Az A := lift (map_err AzAny r).
Definition on_ks {A} (m : sr (Ks K) AnyError A) : Az A := fun d =>
  let '(r, k) := m (d_ks d) in (map_err AzAny r, {| d_ks := k; d_tokens := d_tokens d |}).
Definition on_enforcements (f : Enforcements -> Enforcements) : Az unit :=
  on_ks (modify (fun k => set_enf (f (ks_enf k)) k)).

(** ** The methods *)

Definition add_auth_token (c : call) (hat : HardwareAuthToken) : Az unit :=
  _ ← az_lift (check_keystore_permission c KeystorePerm.AddAuth);
  modify (fun d => let '(e, t) := Enforcements.add_auth_token (ks_enf (d_ks d)) (d_tokens d) hat (c_raw_now c) in
                   {| d_ks := set_enf e (d_ks d); d_tokens := t |}).

(** [ids]: the random ids of the second key made. *)
Definition on_lock_screen_event (c : call) (ids : list Z) (event : LockScreenEvent) (user_id : Z) (password : option bytes)
    (unlocking_sids : option (list Z)) : Az unit :=
  match event, password with
  | UNLOCK, Some password =>
    _ ← az_lift (check_keystore_permission c KeystorePerm.Unlock);
    _ ← on_enforcements (fun e => set_device_locked e user_id false);
    _ ← on_ks (on_sys (unlock_screen_lock_bound_key (c_draws c) ids (as_u32 user_id) password));
    _ ← on_ks (on_sys (get_with_password_unlock (as_u32 user_id) password));
    mret tt
  | UNLOCK, None =>
    _ ← az_lift (check_keystore_permission c KeystorePerm.Unlock);
    _ ← on_enforcements (fun e => set_device_locked e user_id false);
    tokens ← gets d_tokens;
    on_ks (on_sys (try_unlock_user_with_biometric tee_uuid AID_KEYSTORE BLOCK_MODE_GCM PADDING_NONE tee_device tokens (as_u32 user_id)))
  | LOCK, None =>
    _ ← az_lift (check_keystore_permission c KeystorePerm.Lock);
    _ ← on_enforcements (fun e => set_device_locked e user_id true);
    on_ks (on_sys (lock_screen_lock_bound_key tee_uuid AID_KEYSTORE (c_date c) BLOCK_MODE_GCM PADDING_NONE AUTHENTICATOR_FINGERPRINT
      biometric_alias tee_device (c_draws c) (as_u32 user_id) (default [] unlocking_sids)))
  | _, _ => throw (AzRc AuthorizationCode.INVALID_ARGUMENT)
  end.

Definition authz_error (e : AuthzError) : AzError :=
  match e with
  | NO_AUTH_TOKEN_FOUND => AzRc AuthorizationCode.NO_AUTH_TOKEN_FOUND
  | AuthzKs e => AzAny (KsError e)
  end.
Definition get_auth_tokens_for_credstore (c : call) (ch secure_user_id auth_token_max_age_millis : Z)
    : Az (HardwareAuthToken * TimeStampToken) :=
  _ ← az_lift (check_keystore_permission c KeystorePerm.GetAuthToken);
  if ch =? 0 then throw (AzRc AuthorizationCode.INVALID_ARGUMENT)
  else fun d =>
    (map_err authz_error (authz_get_auth_tokens sl_clock AUTH_TYPE_ANY
       {| epoch_millis := c_epoch c; raw_now := c_raw_now c; token_db := d_tokens d;
          boot_cache := boot_level_key_cache (g_skm (ks_sys (d_ks d))) |} ch secure_user_id auth_token_max_age_millis), d).
End Authorization.

Section Proofs.
Context {AI : Aidl} {BO : Boring} {K : Type} {KMI : KeyMint K} {Ctx : Type} {SU : Surroundings Ctx} {TE : Tee}.
Implicit Types (d : Daemon K) (c : Call Ctx).

#[local] Existing Instance az_legacy.

Lemma az_lift_bind {A B} (a : A) (f : A -> sr (Daemon K) AzError B) d : (az_lift (Ok a) ≫= f) d = f a d.
Proof. done. Qed.
Lemma az_lift_Ok {A} (r : result AnyError A) d a d' : az_lift r d = (Ok a, d') -> r = Ok a /\ d' = d.
Proof. unfold az_lift, lift. destruct r; simpl; intros; by simplify_eq. Qed.
Lemma on_ks_Ok {A} (m : sr (Ks K) AnyError A) d a d' :
  on_ks m d = (Ok a, d') -> exists k, m (d_ks d) = (Ok a, k) /\ d' = {| d_ks := k; d_tokens := d_tokens d |}.
Proof. unfold on_ks. destruct (m _) as [r k]. destruct r; simpl; intros; simplify_eq. eauto. Qed.
Lemma on_enforcements_Ok f d r d' :
  on_enforcements f d = (r, d') -> r = Ok tt /\ d' = {| d_ks := set_enf (f (ks_enf (d_ks d))) (d_ks d); d_tokens := d_tokens d |}.
Proof. unfold on_enforcements, on_ks, modify. intros. by simplify_eq. Qed.

Lemma on_sys_enforcements {A} (m : sr (SuperKey.Sys K Migrator) AnyError A) d r d' :
  on_ks (on_sys m) d = (r, d') -> ks_enf (d_ks d') = ks_enf (d_ks d).
Proof. unfold on_ks, on_sys. destruct (m _) as [x g]. intros. by simplify_eq. Qed.
Lemma bind_enforcements {A B} (m : sr (SuperKey.Sys K Migrator) AnyError A) (f : A -> sr (Daemon K) AzError B) d r d' :
  (forall a d1 r1 d2, f a d1 = (r1, d2) -> ks_enf (d_ks d2) = ks_enf (d_ks d1)) ->
  (on_ks (on_sys m) ≫= f) d = (r, d') -> ks_enf (d_ks d') = ks_enf (d_ks d).
Proof.
  intros Hf [(e & He & _)|(a & d1 & He & H)]%bind_cases; apply on_sys_enforcements in He; [done|]. apply Hf in H. congruence.
Qed.

(** C28: Locking the screen shuts out.  After a successful [LOCK] event the caller
    had the permission to lock; the user's device counts as locked; no
    screen lock bound super key of the user is in memory; and whoever asks
    next, for whatever purpose, with a descriptor that leads to a stored key
    of that user needing an unlocked device, is refused, the device, the
    running operations and the enforcements staying as they are. *)
Theorem lock_event_shuts_out c ids user sids d d' :
  on_lock_screen_event c ids LOCK user None sids d = (Ok tt, d') ->
  check_keystore_permission c KeystorePerm.Lock = Ok tt /\
  is_device_locked (ks_enf (d_ks d')) user = true /\
  slot_arcs (entry (g_skm (ks_sys (d_ks d'))) (as_u32 user)) = [] /\
  forall c2 key ps frc r k' a av key_id l,
    create_operation c2 key ps frc (d_ks d') = (r, k') ->
    resolves c2 key (lookup_database c2 key frc (d_ks d')) a av (Some (key_id, l)) ->
    has UnlockedDeviceRequired l = true -> default (-1) (last (select sel_user l)) = user ->
    idle_step (d_ks d') k' /\ forall x, r <> Ok x.
Proof.
  intros H. unfold on_lock_screen_event in H. apply sr_bind_Ok in H as ([] & d1 & [Hc ->]%az_lift_Ok & H).
  apply sr_bind_Ok in H as ([] & d2 & [_ ->]%on_enforcements_Ok & H). apply on_ks_Ok in H as (k & Hk & ->). simpl in Hk.
  apply on_sys_Ok in Hk as (g & Hg & ->). apply lock_effect in Hg as (e & _ & _ & [[_ Hs]|[? _]]); [|done].
  assert (is_device_locked (set_device_locked (ks_enf (d_ks d)) user true) user = true) as Hl.
  { unfold is_device_locked. simpl. rewrite bool_decide_eq_false_2 by set_solver. done. }
  split; [done|]. split; [done|]. split; [simpl; rewrite Hs; unfold cleared, entry; simpl; by rewrite lookup_insert_eq|].
  intros c2 key ps frc r k' a av key_id l [?|(a' & av' & props & p & hat & info & _ & _ & Hr & _ & Ha)]%create_operation_cases Hk Hu Hx; [done|].
  exfalso. destruct (resolves_functional _ _ _ _ _ _ _ _ _ Hk Hr) as (_ & _ & ->). apply unlocked_device_checked in Ha; [|done].
  simpl in Ha. by rewrite Hx, Hl in Ha.
Qed.

(** An unlock event counts before the password does.  Once the permission
    was checked the device of the user counts as unlocked for the
    enforcements, also if unlocking the super keys fails afterwards; a
    caller without the permission changes nothing, whatever the event. *)
Theorem unlock_event_order c ids event user pw sids d r d' :
  on_lock_screen_event c ids event user pw sids d = (r, d') -> event <> LOCK ->
  match event, check_keystore_permission c KeystorePerm.Unlock with
  | UNLOCK, Ok _ => is_device_locked (ks_enf (d_ks d')) user = false
  | _, _ => d' = d /\ r <> Ok tt
  end.
Proof.
  intros H He. destruct event; [|done|unfold on_lock_screen_event, throw in H; by simplify_eq].
  destruct (check_keystore_permission c KeystorePerm.Unlock) as [[]|e|] eqn:Hc;
    unfold on_lock_screen_event in H; rewrite Hc in H; [|by destruct pw; unfold mbind, sr_bind, az_lift, lift in H; simplify_eq/=..].
  assert (forall f : unit -> sr (Daemon K) AzError unit,
    (forall d1 r1 d2, f tt d1 = (r1, d2) -> ks_enf (d_ks d2) = ks_enf (d_ks d1)) ->
    (on_enforcements (fun e => set_device_locked e user false) ≫= f) d = (r, d') -> is_device_locked (ks_enf (d_ks d')) user = false) as Hgo.
  { intros f Hf. unfold mbind, sr_bind, on_enforcements, on_ks, modify. simpl. intros E%Hf. rewrite E. simpl.
    unfold is_device_locked. simpl. rewrite bool_decide_eq_true_2 by set_solver. done. }
  destruct pw as [pw|]; rewrite az_lift_bind in H; apply Hgo in H; try done; intros d1 r1 d2.
  - apply bind_enforcements. intros _ d3 r3 d4. apply bind_enforcements. unfold mret, sr_ret. intros. by simplify_eq.
  - unfold mbind at 1, sr_bind at 1, gets. apply on_sys_enforcements.
Qed.

(** What the credential store is given.  Tokens are handed out only with the
    permission for it and for a challenge that is not zero; the auth token
    is one that was added, for the secure user id asked for, and it carries
    the challenge or is younger than the age given; the timestamp token is
    for the challenge; nothing changes. *)
Theorem credstore_tokens_sound c ch sid age d tok tst d' :
  get_auth_tokens_for_credstore c ch sid age d = (Ok (tok, tst), d') ->
  check_keystore_permission c KeystorePerm.GetAuthToken = Ok tt /\ ch <> 0 /\ d' = d /\
  get_timestamp_token sl_clock ch = Ok tst /\
  exists e, e ∈ auth_tokens (d_tokens d) /\ auth_token e = tok /\ satisfies e [sid] AUTH_TYPE_ANY = true /\
    (challenge tok = ch \/ (age <> 0 /\ exists a, checked_sub (c_raw_now c) (time_received e) = Some a /\ a < age)).
Proof.
  intros H. unfold get_auth_tokens_for_credstore in H. apply sr_bind_Ok in H as ([] & d1 & [Hc ->]%az_lift_Ok & H).
  destruct (Z.eqb_spec ch 0); [done|]. split; [done|]. split; [done|].
  destruct (authz_get_auth_tokens _ _ _ _ _ _) as [x| |] eqn:E; simplify_eq/=. split; [done|].
  by apply authz_get_auth_tokens_sound in E.
Qed.
End Proofs.
