(* ===== verification/Maintenance.v ===== *)
(** * The maintenance service ([keystore2/src/maintenance.rs])

    [IKeystoreMaintenance]: passwords, users, namespaces, the end of early
    boot, off body events, moving keys and deleting all keys.  The service
    works on the daemon's state, the KeyMint devices of all security levels
    and the listener that is told of deletions. *)

From stdpp Require Import base list gmap strings.
From Stdlib Require Import ZArith Lia.
From S2P Require Import Prelude Aidl Errors Sql KeyParameter Perboot BootLevelKeys Permission AuthInfo Enforcements Operation OperationDb DbTypes Database DbInvariant DbKeys DbBulk Crypto RawDevice SuperKey SuperKeyCrypto SuperKeySafety LegacyFs LegacyMigrator LegacySystem SecurityLevel SecurityLevelKeys SecurityLevelOps Service ServiceProofs Authorization.

(** ** Interfaces *)

(** [trait DeleteListener]; a call may never return. *)
Class DeleteListener (L : Type) := {
  dl_delete_namespace : Z -> Z -> L -> option (result AnyError unit * L);
  dl_delete_user : Z -> L -> option (result AnyError unit * L)
}.

(** The KeyMint devices by security level: [get_keymint_device] with
    [get_interface], and the two calls made on all of them. *)
Class Devices (D : Type) := {
  dev_get : Z -> result AnyError unit;
  dev_earlyBootEnded : Z -> sr D BinderStatus unit;
  dev_deleteAllKeys : Z -> sr D BinderStatus unit
}.

Inductive AidlUserState := UNINITIALIZED | LSKF_UNLOCKED | LSKF_LOCKED.

Record Host (K D L : Type) := { h_daemon : Daemon K; h_devices : D; h_listener : L }.
Arguments h_daemon {K D L}. Arguments h_devices {K D L}. Arguments h_listener {K D L}.

Section Maintenance.
Context {AI : Aidl} {BO : Boring} {K : Type} {KMI : KeyMint K} {Ctx : Type} {SU : Surroundings Ctx} {TE : Tee}.
Context {D : Type} {DV : Devices D} {L : Type} {DL : DeleteListener L} (get_level_zero_key : sr (SuperKey.Sys K Migrator) AnyError bytes).

#[local] Instance mt_legacy : Legacy Migrator := migrator_legacy sl_user_offset.
Abbreviation host := (Host K D L).
Abbreviation O := (sr host AnyError).
Abbreviation call := (Call Ctx).

(** ** Liftings *)

Definition with_daemon (d : Daemon K) (h : host) : host := {| h_daemon := d; h_devices := h_devices h; h_listener := h_listener h |}.
Definition on_keystore {A} (m : sr (Ks K) AnyError A) : O A := fun h =>
  let '(r, k) := m (d_ks (h_daemon h)) in (r, with_daemon {| d_ks := k; d_tokens := d_tokens (h_daemon h) |} h).
Definition on_skm_sys {A} (m : sr (SuperKey.Sys K Migrator) AnyError A) : O A := on_keystore (on_sys m).
Definition on_devices {A} (m : sr D AnyError A) : O A := fun h =>
  let '(r, d) := m (h_devices h) in (r, {| h_daemon := h_daemon h; h_devices := d; h_listener := h_listener h |}).
(** The listener, after [m] succeeded. *)
Definition then_listener (m : O unit) (f : L -> option (result AnyError unit * L)) (h : host) : option (result AnyError unit * host) :=
  match m h with
  | (Ok _, h) =>
    (fun '(r, l) => (r, {| h_daemon := h_daemon h; h_devices := h_devices h; h_listener := l |})) <$> f (h_listener h)
  | (Err e, h) => Some (Err e, h)
  | (Panic, h) => Some (Panic, h)
  end.

(** ** The methods *)

Definition on_user_password_changed (c : call) (ids ids' : list Z) (user_id : Z) (password : option bytes) : O unit :=
  _ ← lift (check_keystore_permission c KeystorePerm.ChangePassword);
  _ ← match password with
      | Some pw => on_skm_sys (unlock_screen_lock_bound_key (c_draws c) ids (as_u32 user_id) pw)
      | None => mret tt
      end;
  state ← on_skm_sys (get_with_password_changed sl_user_offset ids' (as_u32 user_id) password);
  match state with
  | LskfLocked => throw (err_rc ResponseCode.LOCKED)
  | _ => mret tt
  end.

Definition add_or_remove_user (c : call) (user_id : Z) : host -> option (result AnyError unit * host) :=
  then_listener (_ ← lift (check_keystore_permission c KeystorePerm.ChangeUser);
                 on_skm_sys (reset_user sl_user_offset (as_u32 user_id) false))
    (dl_delete_user (as_u32 user_id)).

Definition clear_namespace (c : call) (d nspace : Z) : host -> option (result AnyError unit * host) :=
  then_listener (_ ← lift (check_keystore_permission c KeystorePerm.ClearUID);
                 _ ← on_skm_sys (on_legacy (bulk_delete_uid sl_user_offset d nspace));
                 on_skm_sys (on_db (unbind_keys_for_namespace d nspace)))
    (dl_delete_namespace d nspace).

Definition get_state (c : call) (user_id : Z) : O AidlUserState :=
  _ ← lift (check_keystore_permission c KeystorePerm.GetState);
  state ← on_skm_sys (user_state_get (as_u32 user_id));
  mret (match state with
        | Uninitialized => UNINITIALIZED
        | LskfUnlocked _ => LSKF_UNLOCKED
        | LskfLocked => LSKF_LOCKED
        end).

Definition km_call {A} (m : sr D BinderStatus A) : sr D AnyError A := fun d =>
  let '(r, d) := m d in (map_err KsError (map_km_error r), d).
Definition call_with_watchdog (sec_level : Z) (op : Z -> sr D BinderStatus unit) : sr D AnyError unit :=
  _ ← lift (dev_get sec_level);
  km_call (op sec_level).

(** [result.and(curr_result)]. *)
Definition result_and {A B} (r : result AnyError A) (curr : result AnyError B) : result AnyError B :=
  match r with Ok _ => curr | Err e => Err e | Panic => Panic end.

(** The fold over the levels. *)
Fixpoint call_on_levels (result : result AnyError unit) (levels : list Z) (op : Z -> sr D BinderStatus unit) : sr D AnyError unit := fun d =>
  match levels with
  | [] => (result, d)
  | sec_level :: levels =>
    match call_with_watchdog sec_level op d with
    | (Panic, d) => (Panic, d)
    | (curr_result, d) => call_on_levels (result_and result curr_result) levels op d
    end
  end.
Definition call_on_all_security_levels (op : Z -> sr D BinderStatus unit) : sr D AnyError unit :=
  call_on_levels (Ok tt) [val SecurityLevel.TRUSTED_ENVIRONMENT; val SecurityLevel.STRONGBOX] op.

Definition early_boot_ended (c : call) : O unit :=
  _ ← lift (check_keystore_permission c KeystorePerm.EarlyBootEnded);
  _ ← on_skm_sys (ignore_error (set_up_boot_level_cache get_level_zero_key));
  on_devices (call_on_all_security_levels dev_earlyBootEnded).

Definition on_device_off_body (c : call) : O unit :=
  _ ← lift (check_keystore_permission c KeystorePerm.ReportOffBody);
  modify (fun h => with_daemon {| d_ks := d_ks (h_daemon h); d_tokens := set_last_off_body (d_tokens (h_daemon h)) (c_raw_now c) |} h).

(** What the caller must be allowed to do with a key it moves. *)
Definition check_move (c : call) (k : KeyDescriptor) (av : option Z) : result AnyError unit :=
  _ ← check_key_permission c (val KeyPermission.USE) k av;
  _ ← check_key_permission c (val KeyPermission.DELETE) k av;
  check_key_permission c (val KeyPermission.GRANT) k av.

Definition migrate_key_namespace (c : call) (source destination : KeyDescriptor) : O unit :=
  '(key_id, _) ← (if app_or_selinux (domain source) || (domain source =? val Domain.KEY_ID)
                  then on_keystore (loading c source LoadBits.NONE (check_move c))
                  else throw (err_rc ResponseCode.INVALID_ARGUMENT));
  on_skm_sys (on_db (Database.migrate_key_namespace key_id destination (c_uid c)
                       (fun k => check_key_permission c (val KeyPermission.REBIND) k None))).

Definition delete_all_keys (c : call) : O unit :=
  _ ← lift (check_keystore_permission c KeystorePerm.DeleteAllKeys);
  on_devices (call_on_all_security_levels dev_deleteAllKeys).
End Maintenance.

(** ** Who may do what *)

Section Proofs.
Context {AI : Aidl} {BO : Boring} {K : Type} {KMI : KeyMint K} {Ctx : Type} {SU : Surroundings Ctx} {TE : Tee}.
Context {D : Type} {DV : Devices D} {L : Type} {DL : DeleteListener L} (get_level_zero_key : sr (SuperKey.Sys K Migrator) AnyError bytes).
Implicit Types (h : Host K D L) (c : Call Ctx).

#[local] Existing Instance mt_legacy.
Abbreviation db k := (w_db (g_world (ks_sys k))).
Abbreviation h_ks h := (d_ks (h_daemon h)).

(** The calls a client can make; the permission each needs, or [None] for
    moving a key, which needs permissions on the key instead; and what is run. *)
Inductive Request :=
| PasswordChanged (ids ids' : list Z) (user_id : Z) (password : option bytes)
| UserAddedOrRemoved (user_id : Z)
| ClearNamespace (d nspace : Z)
| GetState (user_id : Z)
| EarlyBootEnded
| DeviceOffBody
| MoveKey (source destination : KeyDescriptor)
| DeleteAllKeys.
Definition needed (r : Request) : option KeystorePerm.name :=
  match r with
  | PasswordChanged _ _ _ _ => Some KeystorePerm.ChangePassword
  | UserAddedOrRemoved _ => Some KeystorePerm.ChangeUser
  | ClearNamespace _ _ => Some KeystorePerm.ClearUID
  | GetState _ => Some KeystorePerm.GetState
  | EarlyBootEnded => Some KeystorePerm.EarlyBootEnded
  | DeviceOffBody => Some KeystorePerm.ReportOffBody
  | MoveKey _ _ => None
  | DeleteAllKeys => Some KeystorePerm.DeleteAllKeys
  end.
Definition handle c (r : Request) h : option (result AnyError unit * Host K D L) :=
  match r with
  | PasswordChanged ids ids' user_id password => Some (on_user_password_changed c ids ids' user_id password h)
  | UserAddedOrRemoved user_id => add_or_remove_user c user_id h
  | ClearNamespace d nspace => clear_namespace c d nspace h
  | GetState user_id => let '(r, h) := get_state c user_id h in Some ((fun _ => tt) <$> r, h)
  | EarlyBootEnded => Some (early_boot_ended get_level_zero_key c h)
  | DeviceOffBody => Some (on_device_off_body c h)
  | MoveKey source destination => Some (migrate_key_namespace c source destination h)
  | DeleteAllKeys => Some (delete_all_keys c h)
  end.

(** ** All security levels *)

Lemma all_levels (op : Z -> sr D BinderStatus unit) (d0 : D) r d' :
  call_on_all_security_levels op d0 = (r, d') -> r <> Panic ->
  exists r1 d1 r2, call_with_watchdog (val SecurityLevel.TRUSTED_ENVIRONMENT) op d0 = (r1, d1) /\
    call_with_watchdog (val SecurityLevel.STRONGBOX) op d1 = (r2, d') /\ r = result_and r1 r2.
Proof.
  unfold call_on_all_security_levels. simpl. intros H Hp.
  destruct (call_with_watchdog _ op d0) as [[[]|e1|] d1] eqn:E1; [| |by simplify_eq];
    destruct (call_with_watchdog _ op d1) as [[[]|e2|] d2] eqn:E2; simplify_eq/=; eauto 10.
Qed.

(** The requests that go to all devices. *)
Definition broadcast (r : Request) : option (Z -> sr D BinderStatus unit) :=
  match r with
  | EarlyBootEnded => Some dev_earlyBootEnded
  | DeleteAllKeys => Some dev_deleteAllKeys
  | _ => None
  end.

(** Every device is asked.  At the end of early boot, and when all keys are
    deleted, the TEE and then StrongBox are called, each if it is there,
    also if the boot level cache could not be set up or the first device
    failed; the answer is a success if both calls succeeded, and the first
    failure otherwise. *)
Theorem all_devices_are_asked c (req : Request) op h r h' :
  broadcast req = Some op -> (forall p, needed req = Some p -> check_keystore_permission c p = Ok tt) ->
  handle c req h = Some (r, h') -> r <> Panic ->
  exists r1 d1 r2, call_with_watchdog (val SecurityLevel.TRUSTED_ENVIRONMENT) op (h_devices h) = (r1, d1) /\
    call_with_watchdog (val SecurityLevel.STRONGBOX) op d1 = (r2, h_devices h') /\
    (r = Ok tt <-> r1 = Ok tt /\ r2 = Ok tt) /\
    (forall e, r1 = Err e -> r = Err e) /\ (forall e, r1 = Ok tt -> r2 = Err e -> r = Err e).
Proof.
  intros Hb Hc H Hp.
  assert (exists h1, h_devices h1 = h_devices h /\ on_devices (call_on_all_security_levels op) h1 = (r, h')) as (h1 & Hd & Hh).
  { destruct req; simplify_eq/=; specialize (Hc _ eq_refl).
    - unfold early_boot_ended, mbind, sr_bind, lift in H. rewrite Hc in H. unfold on_skm_sys, on_keystore, on_sys, ignore_error in H.
      destruct (set_up_boot_level_cache _ _) as [[[]|e|] g]; simplify_eq; (eexists; split; [|eassumption]); done.
    - unfold delete_all_keys, mbind, sr_bind, lift in H. rewrite Hc in H. by exists h. }
  unfold on_devices in Hh. rewrite Hd in Hh. destruct (call_on_all_security_levels op _) as [x d'] eqn:E. simplify_eq.
  apply all_levels in E as (r1 & d1 & r2 & E1 & E2 & ->); [|done]. exists r1, d1, r2. split_and!; [done|done|..];
    destruct r1 as [[]| |], r2 as [[]| |]; naive_solver.
Qed.

(** ** Clearing a namespace *)

Lemma on_skm_sys_Ok {A} (m : sr (SuperKey.Sys K Migrator) AnyError A) h a h' :
  on_skm_sys m h = (Ok a, h') -> exists g, m (ks_sys (h_ks h)) = (Ok a, g) /\
    h' = with_daemon {| d_ks := set_sys g (h_ks h); d_tokens := d_tokens (h_daemon h) |} h.
Proof. unfold on_skm_sys, on_keystore, on_sys. destruct (m _) as [r g]. intros. simplify_eq. eauto. Qed.

Lemma bulk_delete_uid_untouched d n (m : Migrator) s r m' s' :
  bulk_delete_uid sl_user_offset d n (m, s) = (r, (m', s')) -> keys_untouched s s'.
Proof.
  unfold bulk_delete_uid. destruct (legacy_uid d n) as [uid|]; [|unfold mret, sr_ret; intros; simplify_eq; apply keys_untouched_refl].
  intros (r0 & H)%or_default_run. eapply (do_serialized_db _ _ _ _ _ _ keys_untouched) in H; [exact H|apply keys_untouched_refl|].
  apply leaves_bulk.
Qed.

(** Clearing a namespace removes its keys and no others.  If
    [clear_namespace] succeeds the caller had the permission; no client key
    of that domain and namespace is left in the database; every other key
    is there as before, and loads as before; and the listener was told of
    exactly that namespace. *)
Theorem clear_namespace_exact c d n h h' :
  db_wf (db (h_ks h)) -> clear_namespace c d n h = Some (Ok tt, h') ->
  check_keystore_permission c KeystorePerm.ClearUID = Ok tt /\
  (forall r, r ∈ keyentry (db (h_ks h')) <-> r ∈ keyentry (db (h_ks h)) /\ in_namespace d n r = false) /\
  (forall id bits, id ∈ key_ids (db (h_ks h')) ->
     load_key_components bits id (db (h_ks h')) = load_key_components bits id (db (h_ks h))) /\
  dl_delete_namespace d n (h_listener h) = Some (Ok tt, h_listener h').
Proof.
  intros Hwf H. unfold clear_namespace, then_listener in H.
  match type of H with context [match ?m h with _ => _ end] => destruct (m h) as [[[]| |] h1] eqn:E end; [|by simplify_eq..].
  apply sr_bind_Ok in E as ([] & h2 & [Hc ->]%lift_Ok & E).
  apply sr_bind_Ok in E as ([] & h2 & (g & Hg & ->)%on_skm_sys_Ok & E). unfold on_legacy in Hg.
  destruct (bulk_delete_uid _ _ _ _) as [x [m s]] eqn:Hb. apply bulk_delete_uid_untouched in Hb. simplify_eq.
  destruct (Hb Hwf) as (Hwf' & Hk & Hv).
  apply on_skm_sys_Ok in E as (g' & (gc & s' & Hs & ->)%on_db_Ok & ->). simpl in *.
  apply unbind_namespace_exact in Hs as (_ & Hrows & Hload & _); [|done].
  destruct (dl_delete_namespace d n (h_listener h)) as [[r l]|] eqn:Hl; simplify_eq/=. split; [done|].
  split; [by intros r; rewrite Hrows, Hk|]. split; [|done].
  intros id bits Hid. rewrite Hload by done. apply same_view_load, Hv.
  apply list_elem_of_fmap in Hid as (r & -> & [Hr _]%Hrows). unfold key_ids. rewrite <- Hk. by apply list_elem_of_fmap_2.
Qed.

(** ** Moving a key *)

(** Where a key is moved to: an app moves keys to its own namespace. *)
Definition move_target c (destination : KeyDescriptor) : KeyDescriptor :=
  if domain destination =? val Domain.APP then set_nspace destination (c_uid c) else destination.

Lemma migrate_namespace_Ok c id destination chk s gc s' :
  Database.migrate_key_namespace id destination (c_uid c) chk s = (Ok (gc, tt), s') ->
  let t := move_target c destination in
  exists al, app_or_selinux (domain t) = true /\ chk t = Ok tt /\ alias t = Some al /\
    existsb (occupied al (domain t) (nspace t)) (keyentry s) = false /\
    s' = on_keyentry (update_where (fun r => k_id r =? id) (moved al (domain t) (nspace t))) s.
Proof.
  intros H t. unfold Database.migrate_key_namespace in H. apply sr_bind_Ok in H as (t' & s0 & [Ht ->]%lift_Ok & H).
  assert (t' = t /\ app_or_selinux (domain t) = true) as [-> Ha].
  { unfold t, move_target, app_or_selinux in *. destruct (domain destination =? val Domain.APP) eqn:E; simplify_eq/=; [by rewrite E|].
    destruct (domain destination =? val Domain.SELINUX) eqn:E2; [|done]. injection Ht as <-. split; [done|apply orb_true_r]. }
  apply sr_bind_Ok in H as ([] & s0 & [Hc ->]%lift_Ok & H). apply sr_bind_Ok in H as (al & s0 & [Hal%ok_or_Ok ->]%lift_Ok & H).
  rewrite transaction_Ok in H. apply sr_bind_Ok in H as (taken & s0 & Hg & H). unfold gets in Hg. injection Hg as Hg <-.
  destruct taken; [done|]. apply sr_bind_Ok in H as (n & s0 & Hg' & H). unfold gets in Hg'. injection Hg' as Hg' <-.
  apply sr_bind_Ok in H as ([] & s0 & Hm & H). unfold modify in Hm. injection Hm as <-. destruct (negb _); [done|].
  unfold mret, sr_ret in H. simplify_eq. eauto 10.
Qed.

Lemma domain_u32 (k : KeyDescriptor) : app_or_selinux (domain k) = true -> as_u32 (domain k) = domain k.
Proof. unfold app_or_selinux. intros [H|H]%orb_true_iff; apply Z.eqb_eq in H; rewrite H; apply as_u32_domain. Qed.

(** The moved key is where it was moved to, and nowhere else. *)
Lemma moved_lookup s id al (t : KeyDescriptor) (r : KeyRow) :
  keys_ok (keyentry s) -> r ∈ keyentry s -> k_id r = id -> k_type r = KeyType.Client -> k_state r = KeyLifeCycle.Live ->
  app_or_selinux (domain t) = true -> alias t = Some al ->
  existsb (occupied al (domain t) (nspace t)) (keyentry s) = false ->
  let s' := on_keyentry (update_where (fun r => k_id r =? id) (moved al (domain t) (nspace t))) s in
  load_key_entry_id t KeyType.Client s' = Ok id /\
  forall key kt, load_key_entry_id key kt s' = Ok id ->
    as_u32 (domain key) = domain t /\ nspace key = nspace t /\ alias key = alias t.
Proof.
  intros Hok Hr Hid Ht Hs Ha Hal Hfree s'.
  assert (moved al (domain t) (nspace t) r ∈ keyentry s') as Hin.
  { apply elem_of_update_where. exists r. split; [done|]. by rewrite Hid, Z.eqb_refl. }
  pose proof (keys_ok_move id al (domain t) (nspace t) _ Hok Hfree) as Hok'. split.
  - unfold load_key_entry_id. rewrite Hal. simpl. rewrite (select_unique k_id _ _ (moved al (domain t) (nspace t) r)).
    + simpl. by rewrite Hid.
    + apply Hok'.
    + done.
    + apply id_match_true. simpl. by rewrite domain_u32.
    + intros y (y0 & Hy0 & ->)%elem_of_update_where (_ & Hd & Hn & Hal' & _)%id_match_true.
      destruct (Z.eqb_spec (k_id y0) id) as [E|E]; [simpl; congruence|]. exfalso.
      apply not_true_iff_false in Hfree. apply Hfree, existsb_exists. exists y0. split; [by apply list_elem_of_In|].
      unfold occupied, col_eq. rewrite domain_u32 in Hd by done. by rewrite Hd, Hn, Hal', !bool_decide_eq_true_2.
  - intros key kt (al' & x & Hk & Hx & Hxid & (_ & Hd & Hn & Hal' & _)%id_match_true)%load_key_entry_id_Ok.
    assert (x = moved al (domain t) (nspace t) r) as -> by (apply (keys_ok_unique _ _ _ Hok' Hx Hin); simpl; congruence).
    simpl in *. simplify_eq. by rewrite Hk, Hal.
Qed.

(** A moved key keeps its identity.  If [migrate_key_namespace] succeeds for
    a key named by alias, the caller may use, delete and grant the key the
    source led to, and bind the destination; the destination was free, now
    leads the caller to that very key, and no other alias does. *)
Theorem moved_key_is_found c source destination h h' :
  db_wf (db (h_ks h)) -> app_or_selinux (domain source) = true ->
  migrate_key_namespace c source destination h = (Ok tt, h') ->
  exists s id dk, (s = db (h_ks h) \/ migrated c source (h_ks h) s) /\
    load_access_tuple source KeyType.Client (c_uid c) s = Ok (id, dk, None) /\
    check_move c dk None = Ok tt /\
    check_key_permission c (val KeyPermission.REBIND) (move_target c destination) None = Ok tt /\
    load_access_tuple destination KeyType.Client (c_uid c) (db (h_ks h')) = Ok (id, move_target c destination, None) /\
    forall key kt, load_key_entry_id key kt (db (h_ks h')) = Ok id ->
      as_u32 (domain key) = domain (move_target c destination) /\ nspace key = nspace (move_target c destination) /\
      alias key = alias destination.
Proof.
  intros Hwf Hsrc H. unfold migrate_key_namespace in H. rewrite Hsrc in H. simpl in H.
  apply sr_bind_Ok in H as ([id e] & h1 & H1 & H). unfold on_keystore in H1. destruct (loading _ _ _ _ _) as [x k1] eqn:El. simplify_eq.
  apply loading_Ok in El as (Hs & dk & av & Ht & Hc & _).
  apply on_skm_sys_Ok in H as (g & (gc & s' & Hm & ->)%on_db_Ok & ->). simpl in Hm. simpl.
  assert (db_wf (db k1)) as Hwf1 by (destruct Hs as [->|Hs]; [done|exact (migrated_wf _ _ _ _ Hs Hwf)]).
  apply migrate_namespace_Ok in Hm as (al & Ha & Hr & Hal & Hfree & ->).
  unfold load_access_tuple in Ht. rewrite Hsrc in Ht. apply bind_Ok in Ht as (i & Hi & Ht). simplify_eq.
  destruct (load_key_entry_id_Ok _ _ _ _ Hi) as (al' & r & _ & Hin & Hid & (Hty & _ & _ & _ & Hst)%id_match_true).
  destruct (moved_lookup (db k1) id al (move_target c destination) r (wf_keys _ Hwf1) Hin Hid Hty Hst Ha Hal Hfree) as [Hl Ho].
  exists (db k1), id, (if domain source =? val Domain.APP then set_nspace source (c_uid c) else source). split_and!; try done.
  - unfold load_access_tuple. rewrite Hsrc, Hi. done.
  - unfold load_access_tuple. unfold move_target in *. destruct (domain destination =? val Domain.APP) eqn:E; simpl in Ha; rewrite Ha, ?E;
      by rewrite Hl.
  - intros key kt Hk. apply Ho in Hk. unfold move_target in *. by destruct (domain destination =? val Domain.APP).
Qed.
(** *** Who may move a key *)

(** The database after looking for a key with the help of the migrator,
    whatever came of it: as it was, or as the attempt to take the key over
    from the legacy store left it. *)
Definition looked_up c (key : KeyDescriptor) (k : Ks K) (s : Tables) : Prop :=
  s = db k \/ exists uid r m, migration_uid key (c_uid c) = Some uid /\
    do_serialized (check_and_migrate sl_user_offset uid key) (g_legacy (ks_sys k), db k) = (r, (m, s)).

Lemma loading_looked_up c key bits chk (k : Ks K) r k' :
  loading c key bits chk k = (r, k') -> looked_up c key k (db k') /\ idle_step k k' /\ g_skm (ks_sys k') = g_skm (ks_sys k).
Proof.
  unfold loading, migrating. intros H.
  assert (exists r1 k1, on_sys (on_legacy (with_try_migrate sl_user_offset key (c_uid c) (fun md => let '(r, s) :=
    ((fun r => (false, r)) <$> load_key_entry key KeyType.Client bits (c_uid c) chk true md.2 md.2, md.2) in (r, (md.1, s))))) k = (r1, k1) /\
    db k' = db k1 /\ idle_step k1 k' /\ g_skm (ks_sys k') = g_skm (ks_sys k1)) as (r1 & k1 & H1 & Hd & Hi & Hg).
  { apply bind_cases in H as [(e & He & _)|([gc a] & k1 & H1 & H)]; [by eexists _, _|]. exists (Ok (gc, a)), k1. split; [exact H1|].
    unfold note_gc, modify, mbind, sr_bind, mret, sr_ret in H. by simplify_eq. }
  apply on_legacy_idle in H1 as (I1 & Hg1 & l & Hl). rewrite Hd.
  split; [|split; [by eapply idle_trans|congruence]]. unfold with_try_migrate in Hl. cbn [fst snd] in Hl.
  destruct ((fun x => (false, x)) <$> load_key_entry _ _ _ _ _ _ (db k) (db k)) as [a|e|]; [left; congruence| |left; congruence].
  destruct (is_not_found e); [|left; congruence]. destruct (migration_uid key (c_uid c)) as [u|] eqn:Hu; [|left; congruence].
  apply bind_cases in Hl as [(e' & He & _)|(o & [m s] & Hm & Hl)]; [right; by exists u, e', l|].
  right. exists u, (Ok o), m. split; [done|]. rewrite Hm. destruct o; cbn [fst snd] in Hl; unfold throw in Hl; congruence.
Qed.

Lemma lift_run {S E A} (x : result E A) (s : S) r s' : lift x s = (r, s') -> r = x /\ s' = s.
Proof. unfold lift. intros. by simplify_eq. Qed.
Lemma move_atomic id destination uid chk (s : Tables) x s' :
  Database.migrate_key_namespace id destination uid chk s = (x, s') -> (exists a, x = Ok a) \/ s' = s.
Proof.
  unfold Database.migrate_key_namespace. intros [(e & [_ ->]%lift_run & _)|(t & s1 & [_ ->]%lift_run & H)]%bind_cases; [by right|].
  apply bind_cases in H as [(e & [_ ->]%lift_run & _)|([] & s1 & [_ ->]%lift_run & H)]; [by right|].
  apply bind_cases in H as [(e & [_ ->]%lift_run & _)|(al & s1 & [_ ->]%lift_run & H)]; [by right|].
  by apply transaction_atomic in H.
Qed.

(** What a request to move a key did, whatever came of it. *)
Record move_effect c (source destination : KeyDescriptor) h (x : result AnyError unit) h' (s : Tables) : Prop := {
  me_devices : h_devices h' = h_devices h;
  me_listener : h_listener h' = h_listener h;
  me_tokens : d_tokens (h_daemon h') = d_tokens (h_daemon h);
  me_idle : idle_step (h_ks h) (h_ks h') /\ g_skm (ks_sys (h_ks h')) = g_skm (ks_sys (h_ks h));
  me_looked_up : looked_up c source (h_ks h) s;
  me_failed : x <> Ok tt -> db (h_ks h') = s;
  me_allowed : x = Ok tt -> exists id dk av, load_access_tuple source KeyType.Client (c_uid c) s = Ok (id, dk, av) /\
    check_move c dk av = Ok tt /\ check_key_permission c (val KeyPermission.REBIND) (move_target c destination) None = Ok tt
}.

Lemma move_has_effect c source destination h :
  exists x h' s, migrate_key_namespace c source destination h = (x, h') /\ move_effect c source destination h x h' s.
Proof.
  unfold migrate_key_namespace. destruct (_ || _) eqn:Hdom.
  2:{ eexists _, h, (db (h_ks h)). split; [reflexivity|]. constructor; try done. by left. }
  unfold mbind at 1, sr_bind at 1. unfold on_keystore at 1.
  destruct (loading c source LoadBits.NONE (check_move c) (h_ks h)) as [r k1] eqn:El.
  pose proof (loading_looked_up _ _ _ _ _ _ _ El) as (Hlu & Hi & Hg).
  destruct r as [[id e]|e|]; [|by eexists _, _, (db k1); split; [reflexivity|]; constructor..].
  apply loading_Ok in El as (_ & dk & av & Ht & Hc & _). set (h1 := with_daemon _ h).
  destruct (on_skm_sys _ h1) as [x h2] eqn:E. exists x, h2, (db k1). split; [done|].
  unfold on_skm_sys, on_keystore, on_sys, on_db, on_world, with_db in E. simpl in E.
  destruct (Database.migrate_key_namespace _ _ _ _ _) as [y s'] eqn:Em.
  pose proof (move_atomic _ _ _ _ _ _ _ Em) as Ha.
  destruct y as [[gc []]|e'|]; simplify_eq/=; (constructor; [done..| | |]); try done.
  - intros _. apply migrate_namespace_Ok in Em as (al & _ & Hr & _). eauto 10.
  - intros _. destruct Ha as [[? ?]|]; done.
  - intros _. destruct Ha as [[? ?]|]; done.
Qed.

(** C39: Nothing is maintained without permission.  A caller that fails the
    check of the permission a request needs gets that error, and the daemon,
    the devices and the listener are exactly as they were.  Moving a key needs
    no such permission, but permissions on keys: the devices, the listener,
    the auth tokens, the enforcements, the running operations and the super
    keys are never changed; the key is looked for in the database, and taken
    over from the legacy store if it is only there, which is done before any
    permission is checked; unless the caller may use, delete and grant the
    key the source then leads to, and bind the destination, the request fails,
    and a failed request leaves the database as that lookup left it. *)
Theorem maintenance_needs_permission c (r : Request) h :
  (forall p e, needed r = Some p -> check_keystore_permission c p = Err e -> handle c r h = Some (Err e, h)) /\
  (forall source destination, r = MoveKey source destination ->
     exists x h' s, handle c r h = Some (x, h') /\ move_effect c source destination h x h' s).
Proof.
  split.
  - intros p e Hp He. destruct r; simplify_eq/=;
      unfold on_user_password_changed, add_or_remove_user, clear_namespace, get_state, early_boot_ended, on_device_off_body,
        delete_all_keys, then_listener, mbind, sr_bind, lift; by rewrite He.
  - intros source destination ->. destruct (move_has_effect c source destination h) as (x & h' & s & E & H).
    exists x, h', s. split; [|done]. simpl. by rewrite E.
Qed.
End Proofs.
