(* ===== verification/MaintenanceDemo.v ===== *)
(** * Examples for the authorization and maintenance services

    The legacy keystore as the listener for deletions, two devices that log
    what they are asked, and the theorems of [Authorization] and
    [Maintenance] on them. *)

From stdpp Require Import base list gmap strings sorting.
From Stdlib Require Import ZArith Lia.
From S2P Require Import Prelude Aidl Errors Sql KeyParameter Perboot BootLevelKeys Permission AuthInfo Enforcements Operation OperationDb DbTypes Database DbInvariant DbKeys DbAttestation Crypto RawDevice SuperKey SuperKeyCrypto SuperKeySafety LegacyKeystore LegacyFs LegacyList LegacyMigrator IdRotation RemoteProvisioning LegacySystem SecurityLevel SecurityLevelKeys SecurityLevelOps SecurityLevelDemo Service ServiceProofs ServiceDemo Authorization Maintenance.

(** [LegacyKeystoreDeleteListener]. *)
Definition listener_result (x : option (result LkError unit * Lk)) : option (result AnyError unit * Lk) :=
  (fun '(r, s) => (map_err (fun _ => OtherError) r, s)) <$> x.
Definition legacy_keystore_listener {AI : Aidl} {BO : Boring} (off : Z) : DeleteListener Lk := {|
  dl_delete_namespace := fun d n s => listener_result (LegacyKeystore.delete_namespace off d n s);
  dl_delete_user := fun user s => listener_result (LegacyKeystore.delete_user off user s)
|}.

#[local] Existing Instances aidl_published toy_boring busy_km permissive.
#[local] Instance demo_listener : DeleteListener Lk := legacy_keystore_listener 100000.
#[local] Instance logging_devices : Devices (list Z) := {|
  dev_get := fun _ => Ok tt;
  dev_earlyBootEnded := fun level log => (Err (new_service_specific_error (-1)), log ++ [level]);
  dev_deleteAllKeys := fun level log => (Ok tt, log ++ [level])
|}.
#[local] Instance demo_tee : Tee := {|
  tee_uuid := repeat 7 16; tee_device := Ok tt; biometric_alias := fun _ => "bio"; AID_KEYSTORE := 1017; BLOCK_MODE_GCM := 32;
  PADDING_NONE := 1; AUTHENTICATOR_FINGERPRINT := 2; AUTH_TYPE_ANY := 255
|}.

Definition demo_daemon (k : Ks nat) : Daemon nat := {| d_ks := k; d_tokens := Perboot.new |}.
Definition demo_host (k : Ks nat) : Host nat (list Z) Lk :=
  {| h_daemon := demo_daemon k; h_devices := []; h_listener := demo_lk |}.
Definition mallory : Call nat := caller None.

(** A key of user 0 that needs an unlocked device, whose device is unlocked,
    and a caller for whom a matching token was presented.  The operation
    begins before the screen is locked, and is refused afterwards. *)
Definition bound_key : list KeyParameter :=
  [{| kp_value := KeyPurpose 0; security_level := 1 |}; {| kp_value := UserSecureID 7; security_level := 1 |};
   {| kp_value := HardwareAuthenticatorType 2; security_level := 1 |}; {| kp_value := AuthTimeout 30; security_level := 100 |};
   {| kp_value := UnlockedDeviceRequired; security_level := 100 |}; {| kp_value := UserID 0; security_level := 100 |}].
Definition bob : Call nat :=
  {| c_uid := 1000; c_sid := Some 0%nat; c_draws := [77]; c_date := Ok 5; c_epoch := Some 5; c_raw_now := 5; c_instant := 5; c_wall := 5;
     c_tokens := insert_auth_token Perboot.new demo_tok 5 |}.
Definition unlocked_ks : Ks nat := set_enf (set_device_locked default_enforcements 0 false) (ks_over (store []) (stored_key bound_key) demo_db).
Lemma lock_event_shuts_out_witness :
  is_ok (create_operation bob (demo_desc "k") encrypt false unlocked_ks).1 = true /\
  exists d', on_lock_screen_event alice [] LOCK 0 None None (demo_daemon unlocked_ks) = (Ok tt, d') /\
    is_device_locked (ks_enf (d_ks d')) 0 = true /\
    forall r k', create_operation bob (demo_desc "k") encrypt false (d_ks d') = (r, k') ->
      idle_step (d_ks d') k' /\ forall x, r <> Ok x.
Proof.
  split; [vm_compute; reflexivity|].
  destruct (on_lock_screen_event alice [] LOCK 0 None None (demo_daemon unlocked_ks)) as [r d'] eqn:E.
  assert (r = Ok tt) as -> by (apply (f_equal fst) in E; vm_compute in E; symmetry; exact E).
  exists d'. split; [reflexivity|].
  destruct (lock_event_shuts_out alice [] 0 None (demo_daemon unlocked_ks) d' E) as (_ & H & _ & Hop). split; [exact H|].
  assert (lookup_database bob (demo_desc "k") false (d_ks d') = stored_key bound_key) as Hd.
  { change d' with (@pair (result AzError unit) _ (Ok tt) d').2. rewrite <- E. vm_compute. reflexivity. }
  intros r k' Hr. apply (Hop bob (demo_desc "k") encrypt false r k' (set_nspace (demo_desc "k") 1000) None 77 bound_key Hr); [|reflexivity..].
  rewrite Hd. destruct (load_key_components LoadBits.KM 77 (stored_key bound_key)) as [e| |] eqn:Ee; [|vm_compute in Ee; discriminate Ee..].
  exists 77, e. split_and!; [vm_compute; reflexivity|exact Ee|].
  vm_compute in Ee. injection Ee as <-. reflexivity.
Defined.

(** The wrong password: the super keys stay locked, the device counts as
    unlocked. *)
Lemma unlock_event_order_witness :
  is_device_locked (ks_enf (d_ks (on_lock_screen_event alice [52] UNLOCK 0 (Some [1]) None (demo_daemon ks0)).2)) 0 = false.
Proof.
  destruct (on_lock_screen_event alice [52] UNLOCK 0 (Some [1]) None (demo_daemon ks0)) as [r d'] eqn:E.
  apply (unlock_event_order alice [52] UNLOCK 0 (Some [1]) None (demo_daemon ks0) r d' E). discriminate.
Defined.

(** Without a security context nothing is cleared; a key is not moved either,
    but it was taken over from the legacy store on the way.  With one the key
    moves. *)
Definition other_name : KeyDescriptor := {| domain := 0; nspace := -1; alias := Some "moved"; blob := None |}.
Lemma maintenance_needs_permission_witness :
  handle (mret []) mallory (ClearNamespace 0 1000) (demo_host ks0) = Some (Err err_sys, demo_host ks0) /\
  (exists x h' s, handle (mret []) mallory (MoveKey (demo_desc "k") other_name) (demo_host legacy_ks) = Some (x, h') /\
    x <> Ok tt /\ w_db (g_world (ks_sys (d_ks (h_daemon h')))) = s /\ s <> empty_tables) /\
  (exists h' id dk av s, handle (mret []) alice (MoveKey (demo_desc "k") other_name) (demo_host imported_ks) = Some (Ok tt, h') /\
    load_access_tuple (demo_desc "k") KeyType.Client 1000 s = Ok (id, dk, av) /\ check_move alice dk av = Ok tt).
Proof.
  split_and!.
  - apply (proj1 (maintenance_needs_permission (mret []) mallory (ClearNamespace 0 1000) (demo_host ks0)) KeystorePerm.ClearUID); reflexivity.
  - destruct (proj2 (maintenance_needs_permission (mret []) mallory (MoveKey (demo_desc "k") other_name) (demo_host legacy_ks)) _ _ eq_refl)
      as (x & h' & s & H & [_ _ _ _ _ Hf _]).
    assert (x <> Ok tt) as Hx by (apply (f_equal (fmap fst)) in H; vm_compute in H; injection H as <-; discriminate).
    exists x, h', s. split_and!; [exact H|exact Hx|exact (Hf Hx)|]. rewrite <- (Hf Hx).
    intros E.
    assert ((fun y => length (keyentry (w_db (g_world (ks_sys (d_ks (h_daemon y.2))))))) <$>
      handle (mret []) mallory (MoveKey (demo_desc "k") other_name) (demo_host legacy_ks) = Some 0%nat) as H0
      by (rewrite H; simpl; rewrite E; reflexivity).
    vm_compute in H0. discriminate H0.
  - destruct (proj2 (maintenance_needs_permission (mret []) alice (MoveKey (demo_desc "k") other_name) (demo_host imported_ks)) _ _ eq_refl)
      as (x & h' & s & H & [_ _ _ _ _ _ Ha]).
    assert (x = Ok tt) as -> by (apply (f_equal (fmap fst)) in H; vm_compute in H; injection H as <-; reflexivity).
    destruct (Ha eq_refl) as (id & dk & av & H1 & H2 & _). exists h', id, dk, av, s. split_and!; assumption.
Defined.

(** Both devices are asked although the first one fails. *)
Lemma all_devices_are_asked_witness :
  exists r h', handle (mret [1]) alice EarlyBootEnded (demo_host ks0) = Some (r, h') /\
    h_devices h' = [1; 2] /\ r <> Ok tt.
Proof.
  destruct (handle (mret [1]) alice EarlyBootEnded (demo_host ks0)) as [[r h']|] eqn:E.
  2:{ vm_compute in E. discriminate. }
  destruct (all_devices_are_asked (mret [1]) alice EarlyBootEnded dev_earlyBootEnded (demo_host ks0) r h')
    as (r1 & d1 & r2 & H1 & H2 & H3 & _); [reflexivity|intros p [= <-]; vm_compute; reflexivity|exact E| |].
  { apply (f_equal (fmap fst)) in E. vm_compute in E. injection E as <-. discriminate. }
  exists r, h'. split; [reflexivity|]. injection H1 as <- <-. injection H2 as <- <-. split; [reflexivity|].
  intros Hr. apply H3 in Hr as [Hr _]. discriminate.
Defined.

Lemma clear_namespace_exact_witness :
  exists h', clear_namespace alice 0 1000 (demo_host imported_ks) = Some (Ok tt, h') /\
    forall r, r ∈ keyentry (w_db (g_world (ks_sys (d_ks (h_daemon h'))))) -> in_namespace 0 1000 r = false.
Proof.
  destruct (clear_namespace alice 0 1000 (demo_host imported_ks)) as [[r h']|] eqn:E.
  2:{ apply (f_equal (fmap fst)) in E. vm_compute in E. discriminate. }
  assert (r = Ok tt) as -> by (apply (f_equal (fmap fst)) in E; vm_compute in E; injection E as <-; reflexivity).
  exists h'. split; [reflexivity|].
  destruct (clear_namespace_exact alice 0 1000 (demo_host imported_ks) h' imported_ks_wf E) as (_ & H & _).
  intros r Hr. apply H, Hr.
Defined.

Lemma moved_key_is_found_witness :
  exists h' id t, migrate_key_namespace alice (demo_desc "k") other_name (demo_host imported_ks) = (Ok tt, h') /\
    load_access_tuple other_name KeyType.Client 1000 (w_db (g_world (ks_sys (d_ks (h_daemon h'))))) = Ok (id, t, None).
Proof.
  destruct (migrate_key_namespace alice (demo_desc "k") other_name (demo_host imported_ks)) as [r h'] eqn:E.
  assert (r = Ok tt) as -> by (apply (f_equal fst) in E; vm_compute in E; symmetry; exact E).
  destruct (moved_key_is_found alice (demo_desc "k") other_name (demo_host imported_ks) h' imported_ks_wf)
    as (s & id & dk & _ & _ & _ & _ & H & _); [vm_compute; reflexivity|exact E|].
  exists h', id, (move_target alice other_name). split; [reflexivity|exact H].
Defined.

(** A token for challenge 42 and secure id 7, received at time 1. *)
Definition credstore_daemon : Daemon nat :=
  {| d_ks := ks0; d_tokens := insert_auth_token Perboot.new demo_tok 1 |}.
#[local] Instance clocked : Surroundings nat := {|
  sl_level := 1; sl_uuid := repeat 5 16; sl_keymint := Ok tt; sl_timestamp := false;
  sl_getcon := Ok 0%nat; sl_key_context := fun _ => Ok 0%nat; sl_check_access := fun _ _ _ _ => Ok tt;
  sl_aaid := fun _ => Ok [9]; sl_permission_controller := Ok tt; sl_checkPermission := fun _ => Ok true;
  sl_parse_subject := Ok; sl_component := false; sl_clock := Some demo_clock;
  sl_user_offset := 100000; sl_lskf_flag := 1; sl_device_unique := 0; sl_log6 := demo_log6
|}.
Lemma credstore_tokens_sound_witness : exists tst e,
  get_auth_tokens_for_credstore alice 42 7 0 credstore_daemon = (Ok (demo_tok, tst), credstore_daemon) /\
  e ∈ auth_tokens (d_tokens credstore_daemon) /\ auth_token e = demo_tok.
Proof.
  destruct (get_auth_tokens_for_credstore alice 42 7 0 credstore_daemon) as [r d'] eqn:E.
  assert (exists tst, r = Ok (demo_tok, tst)) as [tst ->] by (apply (f_equal fst) in E; vm_compute in E; rewrite <- E; eauto).
  destruct (credstore_tokens_sound alice 42 7 0 credstore_daemon demo_tok tst d' E) as (_ & _ & -> & _ & e & H1 & H2 & _).
  exists tst, e. split; [reflexivity|split; assumption].
Defined.
