(* ===== verification/Watchdog.v ===== *)
(** * The watchdog ([keystore2/src/watchdog.rs], [watchdog] of utils.rs)

    A thread that logs watch points whose deadline has passed.  Instants and
    durations are nanoseconds.  Each section under the mutex is a step of a
    timed transition system; every function takes the clock readings it makes
    as arguments.  What a report prints about a record is the record's index;
    the callbacks, whose strings go to the log, are [C]. *)

From stdpp Require Import base list gmap strings.
From Stdlib Require Import ZArith Lia.
From S2P Require Import Prelude.

Inductive State := NotRunning | Running.
#[global] Instance State_eq_dec : EqDecision State.
Proof. solve_decision. Defined.

(** Thread id and the string given to [watch]. *)
Record Index := { tid : Z; id : string }.
#[global] Instance Index_eq_dec : EqDecision Index.
Proof. solve_decision. Defined.
#[global] Instance Index_countable : Countable Index.
Proof. apply (inj_countable' (fun i => (tid i, id i)) (fun p => {| tid := p.1; id := p.2 |})). by intros []. Defined.

Section Watchdog.
Context {C : Type}.

Record Record_ := { started : Z; deadline : Z; callback : option C }.

Record WatchdogState := {
  state : State;
  timeout : Z;
  records : gmap Index Record_;
  last_report : Z;
  has_overdue : bool
}.

Definition set_records (f : gmap Index Record_ -> gmap Index Record_) (w : WatchdogState) : WatchdogState :=
  {| state := state w; timeout := timeout w; records := f (records w); last_report := last_report w; has_overdue := has_overdue w |}.
Definition set_state (x : State) (w : WatchdogState) : WatchdogState :=
  {| state := x; timeout := timeout w; records := records w; last_report := last_report w; has_overdue := has_overdue w |}.
Definition set_overdue (b : bool) (w : WatchdogState) : WatchdogState :=
  {| state := state w; timeout := timeout w; records := records w; last_report := last_report w; has_overdue := b |}.
Definition set_last_report (t : Z) (w : WatchdogState) : WatchdogState :=
  {| state := state w; timeout := timeout w; records := records w; last_report := t; has_overdue := has_overdue w |}.

Definition second : Z := 10^9.
Definition NOISY_REPORT_TIMEOUT : Z := second.

(** [Instant::saturating_duration_since]. *)
Definition saturating_duration_since (t earlier : Z) : Z := Z.max 0 (t - earlier).

(** One turn of the loop over the records. *)
Definition next_timeout_step (now : Z) (acc : bool * option Z) (r : Record_) : bool * option Z :=
  let '(overdue, next_timeout) := acc in
  let timeout := saturating_duration_since (deadline r) now in
  if timeout =? 0 then (true, next_timeout)
  else (overdue, Some match next_timeout with Some nt => if timeout <? nt then timeout else nt | None => timeout end).
Definition update_overdue_and_find_next_timeout (now : Z) (w : WatchdogState) : bool * option Z :=
  fold_left (next_timeout_step now) (snd <$> map_to_list (records w)) (false, None).

Definition overdue_at (now : Z) (r : Record_) : bool := saturating_duration_since (deadline r) now =? 0.

(** [log_report]: the records it prints, if it prints any.  The clock is read
    for [elapsed], for [last_report] and for the scan. *)
Definition report (now : Z) (w : WatchdogState) : list Index :=
  fst <$> filter (fun p => overdue_at now p.2 = true) (map_to_list (records w)).
Definition log_report (overdue : bool) (t_elapsed t_last now : Z) (w : WatchdogState) : option (list Index) * WatchdogState :=
  let print := let w := set_overdue overdue (set_last_report t_last w) in (Some (report now w), w) in
  match has_overdue w, overdue with
  | true, true => if saturating_duration_since t_elapsed (last_report w) <? NOISY_REPORT_TIMEOUT
                  then (None, set_overdue false w) else print
  | _, false => (None, set_overdue false w)
  | false, true => print
  end.

Definition wds_disarm (i : Index) : WatchdogState -> WatchdogState := set_records (delete i).
Definition wds_arm (i : Index) (r : Record_) : WatchdogState -> WatchdogState := set_records <[i := r]>.

(** How long the thread waits after a scan, and whether it is idle. *)
Definition next_wait (w : WatchdogState) (overdue : bool) (next_timeout : option Z) : Z * bool :=
  match overdue, next_timeout with
  | true, Some next_timeout => (Z.min next_timeout NOISY_REPORT_TIMEOUT, false)
  | false, Some next_timeout => (next_timeout, false)
  | true, None => (NOISY_REPORT_TIMEOUT, false)
  | false, None => (timeout w, true)
  end.

(** The thread is at the top of its loop, waits on the condition variable
    until an instant, with a wake up under way or not, or is gone. *)
Inductive Worker :=
| Scanning
| Waiting (until : Z) (idle notified : bool)
| Gone.

(** The clock, the shared state, the thread and the log, latest report
    first. *)
Record Watchdog := {
  clock : Z;
  wds : WatchdogState;
  worker : Worker;
  log : list (Z * list Index)
}.

Definition new (timeout now : Z) : Watchdog :=
  {| clock := now; worker := Gone; log := [];
     wds := {| state := NotRunning; timeout := timeout; records := ∅; last_report := now; has_overdue := false |} |}.

Definition set_wds (f : WatchdogState -> WatchdogState) (w : Watchdog) : Watchdog :=
  {| clock := clock w; wds := f (wds w); worker := worker w; log := log w |}.
Definition set_worker (x : Worker) (w : Watchdog) : Watchdog :=
  {| clock := clock w; wds := wds w; worker := x; log := log w |}.

Definition spawn_thread (w : Watchdog) : Watchdog := set_worker Scanning (set_wds (set_state Running) w).

(** [condvar.notify_all()]. *)
Definition notify_all (w : Watchdog) : Watchdog :=
  match worker w with Waiting u i _ => set_worker (Waiting u i true) w | _ => w end.

Definition arm (cb : option C) (i : Index) (deadline : Z) (w : Watchdog) : Watchdog :=
  let w := set_wds (wds_arm i {| started := clock w; deadline := deadline; callback := cb |}) w in
  let w := if decide (state (wds w) <> Running) then spawn_thread w else w in
  notify_all w.
Definition disarm (i : Index) : Watchdog -> Watchdog := set_wds (wds_disarm i).

(** [Instant::checked_add]: seconds are 64 bit. *)
Definition checked_add (t d : Z) : option Z := if t + d <? 2^63 * second then Some (t + d) else None.

(** A watch point is its index; dropping it disarms the index. *)
Definition watch_with_optional (cb : option C) (i : Index) (timeout : Z) (w : Watchdog) : option Index * Watchdog :=
  match checked_add (clock w) timeout with
  | None => (None, w)
  | Some deadline => (Some i, arm cb i deadline w)
  end.
Definition watch_with (cb : C) : Index -> Z -> Watchdog -> option Index * Watchdog := watch_with_optional (Some cb).
Definition watch : Index -> Z -> Watchdog -> option Index * Watchdog := watch_with_optional None.
Definition watch_millis (i : Index) (millis : Z) : Watchdog -> option Index * Watchdog := watch i (millis * 10^6).
Definition watch_millis_with (i : Index) (millis : Z) (cb : C) : Watchdog -> option Index * Watchdog :=
  watch_with cb i (millis * 10^6).
Definition watch_millis_timeout : Z := 10 * second.

(** The part of the loop before the wait. *)
Definition scan (w : Watchdog) : Watchdog :=
  let now := clock w in
  let '(overdue, next_timeout) := update_overdue_and_find_next_timeout now (wds w) in
  let '(printed, s) := log_report overdue now now now (wds w) in
  let '(wait, idle) := next_wait s overdue next_timeout in
  {| clock := now; wds := s; worker := Waiting (now + wait) idle false;
     log := match printed with Some l => (now, l) :: log w | None => log w end |}.

(** The part after the wait. *)
Definition awake (idle timed_out : bool) (w : Watchdog) : Watchdog :=
  if idle && timed_out && bool_decide (records (wds w) = ∅)
  then set_worker Gone (set_wds (set_state NotRunning) w)
  else set_worker Scanning w.

(** What can happen.  Time passes only while the thread waits, and not past
    the end of the wait or of a wake up: the thread runs as soon as it can,
    and a caller of [watch] reads the clock and arms its record at one
    instant.  On a device the times below are late by the time it takes to
    schedule the thread and to get the mutex.  A wait may also end for no
    reason. *)
Inductive step : Watchdog -> Watchdog -> Prop :=
| step_watch cb i timeout w : 0 <= timeout -> step w (watch_with_optional cb i timeout w).2
| step_disarm i w : step w (disarm i w)
| step_scan w : worker w = Scanning -> step w (scan w)
| step_awake w u idle notified timed_out :
    worker w = Waiting u idle notified -> (timed_out = true -> clock w = u) ->
    step w (awake idle timed_out w)
| step_tick d w :
    0 <= d -> match worker w with Scanning => False | Waiting u _ n => n = false /\ clock w + d <= u | Gone => True end ->
    step w {| clock := clock w + d; wds := wds w; worker := worker w; log := log w |}.

Inductive reachable (timeout start : Z) : Watchdog -> Prop :=
| reach_new : reachable timeout start (new timeout start)
| reach_step w w' : reachable timeout start w -> step w w' -> reachable timeout start w'.

(** ** Scans *)

Lemma overdue_at_true now r : overdue_at now r = true <-> deadline r <= now.
Proof. unfold overdue_at, saturating_duration_since. rewrite Z.eqb_eq. lia. Qed.

(** What the loop over the records has found so far. *)
Definition found (now : Z) (l : list Record_) (acc : bool * option Z) : Prop :=
  (acc.1 = true <-> exists r, r ∈ l /\ deadline r <= now) /\
  (forall r, r ∈ l -> now < deadline r -> exists n, acc.2 = Some n /\ n <= deadline r - now).

Lemma next_timeout_step_found now l acc r : found now l acc -> found now (l ++ [r]) (next_timeout_step now acc r).
Proof.
  destruct acc as [o n]. intros [Ho Hn]. unfold next_timeout_step, saturating_duration_since. simpl in *.
  destruct (Z.eqb_spec (Z.max 0 (deadline r - now)) 0); split; simpl.
  - split; [|done]. intros _. exists r. split; [set_solver|lia].
  - intros r' [?| ->%list_elem_of_singleton]%elem_of_app ?; [eauto|lia].
  - rewrite Ho. split; [intros (x & ? & ?); exists x; set_solver|].
    intros (x & [?| ->%list_elem_of_singleton]%elem_of_app & ?); [eauto|lia].
  - intros r' Hr' ?. eexists. split; [done|]. apply elem_of_app in Hr' as [Hr'| ->%list_elem_of_singleton].
    + destruct (Hn _ Hr') as (m & -> & ?); [done|]. destruct (Z.ltb_spec (Z.max 0 (deadline r - now)) m); lia.
    + destruct n as [m|]; [destruct (Z.ltb_spec (Z.max 0 (deadline r - now)) m)|]; lia.
Qed.

Lemma fold_found now l l' acc : found now l' acc -> found now (l' ++ l) (fold_left (next_timeout_step now) l acc).
Proof.
  revert l' acc. induction l as [|r l IH]; intros l' acc H; simpl; [by rewrite app_nil_r|].
  replace (l' ++ r :: l) with ((l' ++ [r]) ++ l) by by rewrite <- app_assoc. by apply IH, next_timeout_step_found.
Qed.

Lemma update_found now w : found now (snd <$> map_to_list (records w)) (update_overdue_and_find_next_timeout now w).
Proof.
  apply (fold_found now _ []). split; simpl; [|set_solver]. split; [done|]. intros (r & ?%not_elem_of_nil & _); done.
Qed.

Lemma elem_of_records w r : r ∈ (snd <$> map_to_list (records w)) <-> exists i, records w !! i = Some r.
Proof.
  rewrite list_elem_of_fmap. split; [intros ([i x] & -> & ?%elem_of_map_to_list)|intros [i Hi]]; [eauto|].
  exists (i, r). split; [done|]. by apply elem_of_map_to_list.
Qed.

Lemma elem_of_report now w i : i ∈ report now w <-> exists r, records w !! i = Some r /\ deadline r <= now.
Proof.
  unfold report. rewrite list_elem_of_fmap. split.
  - intros ([j r] & -> & [Ho%overdue_at_true ?%elem_of_map_to_list]%list_elem_of_filter). eauto.
  - intros (r & Hr & Ho). exists (i, r). split; [done|]. apply list_elem_of_filter. simpl.
    split; [by apply overdue_at_true|]. by apply elem_of_map_to_list.
Qed.

Lemma log_report_records o a b c w : records (log_report o a b c w).2 = records w /\ state (log_report o a b c w).2 = state w.
Proof. unfold log_report. destruct (has_overdue w), o; simpl; [destruct (_ <? _)| | |]; done. Qed.

(** With an overdue record, a scan either reports, or arms the next report and
    looks again within a second. *)
Lemma scan_overdue w i r :
  records (wds w) !! i = Some r -> deadline r <= clock w ->
  (exists l, log (scan w) = (clock w, l) :: log w /\ i ∈ l) \/
  (has_overdue (wds w) = true /\ has_overdue (wds (scan w)) = false /\ log (scan w) = log w /\
   exists u idle, worker (scan w) = Waiting u idle false /\ u <= clock w + second).
Proof.
  intros Hr Hd. unfold scan. destruct (update_overdue_and_find_next_timeout _ _) as [o n] eqn:Hu.
  destruct (update_found (clock w) (wds w)) as [Ho _]. rewrite Hu in Ho. simpl in Ho.
  assert (o = true) as -> by (apply Ho; exists r; rewrite elem_of_records; eauto).
  assert (i ∈ report (clock w) (set_overdue true (set_last_report (clock w) (wds w)))) as Hi by (apply elem_of_report; eauto).
  unfold log_report. destruct (has_overdue (wds w)) eqn:Hh; [destruct (_ <? _)|]; simpl.
  - right. destruct n; simpl; split_and!; try done; eexists _, _; (split; [done|]); unfold NOISY_REPORT_TIMEOUT; lia.
  - left. destruct n; simpl; eauto.
  - left. destruct n; simpl; eauto.
Qed.

Lemma scan_pending w i r :
  records (wds w) !! i = Some r -> clock w < deadline r ->
  exists u idle, worker (scan w) = Waiting u idle false /\ u <= deadline r.
Proof.
  intros Hr Hd. unfold scan. destruct (update_overdue_and_find_next_timeout _ _) as [o n] eqn:Hu.
  destruct (update_found (clock w) (wds w)) as [_ Hn]. rewrite Hu in Hn. simpl in Hn.
  destruct (Hn r) as (m & -> & ?); [rewrite elem_of_records; eauto|done|].
  destruct (log_report _ _ _ _ _) as [pr s]. destruct o; simpl; eexists _, _; (split; [done|]); lia.
Qed.

Lemma scan_frame w :
  clock (scan w) = clock w /\ records (wds (scan w)) = records (wds w) /\ state (wds (scan w)) = state (wds w) /\
  (exists u idle, worker (scan w) = Waiting u idle false) /\ (forall p, p ∈ log w -> p ∈ log (scan w)).
Proof.
  unfold scan. destruct (update_overdue_and_find_next_timeout _ _) as [o n].
  destruct (log_report o (clock w) (clock w) (clock w) (wds w)) as [pr s] eqn:Hl.
  pose proof (log_report_records o (clock w) (clock w) (clock w) (wds w)) as [H1 H2]. rewrite Hl in H1, H2.
  destruct (next_wait _ _ _). simpl in *. split_and!; try done; [eauto|]. destruct pr; set_solver.
Qed.

(** ** Every missed deadline is reported *)

(** The thread will look again by [b]. *)
Definition scheduled (b : Z) (x : Worker) : Prop :=
  match x with Scanning => True | Waiting u _ n => n = true \/ u <= b | Gone => False end.

Definition reported (w : Watchdog) (i : Index) (d : Z) : Prop :=
  exists t l, (t, l) ∈ log w /\ i ∈ l /\ d <= t <= d + second.

(** A record has been reported, was passed over by one scan, or is not
    overdue yet. *)
Definition tracked (w : Watchdog) (i : Index) (d : Z) : Prop :=
  reported w i d \/
  (has_overdue (wds w) = false /\ d <= clock w <= d + second /\ scheduled (d + second) (worker w)) \/
  (clock w <= d /\ scheduled d (worker w)).

Record watchdog_inv (w : Watchdog) : Prop := {
  inv_running : state (wds w) = Running <-> worker w <> Gone;
  inv_records : records (wds w) <> ∅ -> worker w <> Gone;
  inv_tracked i r : records (wds w) !! i = Some r -> tracked w i (deadline r)
}.

Lemma scheduled_notify b x : scheduled b x -> scheduled b (match x with Waiting u i _ => Waiting u i true | _ => x end).
Proof. destruct x; simpl; auto. Qed.

Lemma arm_worker cb i d w :
  watchdog_inv w ->
  exists x, arm cb i d w = {| clock := clock w; wds := set_state Running (wds_arm i {| started := clock w; deadline := d; callback := cb |} (wds w));
                              worker := x; log := log w |} /\
    x <> Gone /\ (forall b, scheduled b x) /\ (state (wds w) <> Running -> records (wds w) = ∅).
Proof.
  intros [Hs Hn _]. unfold arm, notify_all. destruct w as [c [st to rs lr ho] wk lg]. simpl in *. case_decide as Hd; simpl.
  - exists Scanning. split_and!; try done. intros _. destruct (decide (rs = ∅)) as [|Hne]; [done|].
    destruct (Hn Hne). destruct wk; [exfalso; by apply Hd, Hs..|done].
  - subst st. destruct wk as [|u idle n|]; simpl.
    + exists Scanning. done.
    + exists (Waiting u idle true). split_and!; try done. intros; by left.
    + by destruct (proj1 Hs).
Qed.

Lemma inv_watch cb i timeout w : 0 <= timeout -> watchdog_inv w -> watchdog_inv (watch_with_optional cb i timeout w).2.
Proof.
  intros Ht Hw. unfold watch_with_optional, checked_add. destruct (_ <? _); [|done]. simpl.
  destruct (arm_worker cb i (clock w + timeout) w Hw) as (x & -> & Hx & Hb & Hst). split; simpl; [done|done|].
  intros j r Hj. destruct (decide (i = j)) as [->|Hne].
  - rewrite lookup_insert_eq in Hj. simplify_eq. simpl. right; right. simpl. split; [lia|apply Hb].
  - rewrite lookup_insert_ne in Hj by done. destruct (inv_tracked w Hw j r Hj) as [H|[(H1 & H2 & _)|[H1 _]]].
    + by left.
    + right; left. simpl. split; [done|]. split; [lia|apply Hb].
    + right; right. simpl. split; [done|apply Hb].
Qed.

Lemma inv_scan w : worker w = Scanning -> watchdog_inv w -> watchdog_inv (scan w).
Proof.
  intros Hsc Hw. destruct (scan_frame w) as (Hc & Hr & Hs & (u & idle & Hk) & Hl). split.
  - rewrite Hs, Hk, (inv_running w Hw), Hsc. done.
  - by rewrite Hk.
  - intros i r Hi. rewrite Hr in Hi. destruct (Z.le_gt_cases (deadline r) (clock w)) as [Hd|Hd].
    + destruct (inv_tracked w Hw i r Hi) as [(t & l & ? & ? & ?)|Ht]; [left; exists t, l; auto|].
      destruct (scan_overdue w i r Hi Hd) as [(l & El & Hil)|(Ho & Ho' & _ & u' & idle' & Hk' & Hu')].
      * left. exists (clock w), l. rewrite El. split_and!; [set_solver|done|lia|]. destruct Ht as [(_ & ? & _)|[? _]]; unfold second in *; lia.
      * destruct Ht as [(H & _)|[H _]]; [by rewrite H in Ho|]. right; left. rewrite Hc, Hk'. unfold second in *.
        split_and!; [done|lia|lia|right; lia].
    + right; right. rewrite Hc. destruct (scan_pending w i r Hi Hd) as (u' & idle' & -> & ?). split; [lia|]. by right.
Qed.

Lemma wd_inv_step w w' : step w w' -> watchdog_inv w -> watchdog_inv w'.
Proof.
  intros [cb i to w0 Ht|i w0|w0 Hs|w0 u idle n tmo Hk Htm|d w0 Hd Hk] Hw.
  - by apply inv_watch.
  - destruct Hw as [H1 H2 H3]. split; simpl; [done| |].
    + intros Hne. apply H2. intros He. by rewrite He, delete_empty in Hne.
    + intros j r [_ Hj]%lookup_delete_Some. by apply H3.
  - by apply inv_scan.
  - destruct Hw as [H1 H2 H3]. unfold awake. destruct (idle && tmo && bool_decide (records (wds w0) = ∅)) eqn:E.
    + bool_prop. split; simpl; [done|done|]. intros i r Hi. match goal with H : records _ = ∅ |- _ => rewrite H in Hi end. done.
    + split; simpl; [rewrite H1, Hk; done|done|]. intros i r Hi.
      destruct (H3 i r Hi) as [(t & l & ?)|[(? & ? & _)|[? _]]]; [left; by exists t, l|right; left|right; right]; simpl; auto.
  - destruct Hw as [H1 H2 H3]. split; simpl; [done|done|]. intros i r Hi.
    destruct (worker w0) as [|u idle n|] eqn:Ew; [done| |destruct H2; [by intros He; rewrite He in Hi|done]].
    destruct Hk as [-> Hu]. destruct (H3 i r Hi) as [(t & l & ?)|[(? & ? & Hsch)|[? Hsch]]]; [left; by exists t, l|right; left|right; right];
      simpl; rewrite Ew in Hsch; destruct Hsch as [|]; try done; split_and?; try done; try lia; by right.
Qed.

Lemma wd_reachable_inv timeout start w : reachable timeout start w -> watchdog_inv w.
Proof. induction 1 as [|w w' _ IH Hs]; [|by eapply wd_inv_step]. by split. Qed.

(** C35: No missed deadline goes unnoticed: whatever the interleaving of callers
    and the watchdog thread, as long as a watch point is armed the thread is
    there, and a watch point that has been overdue for more than a second has
    been reported, at its deadline or within a second after it. *)
Theorem overdue_is_reported timeout start w i r :
  reachable timeout start w -> records (wds w) !! i = Some r ->
  state (wds w) = Running /\ worker w <> Gone /\
  (deadline r + second < clock w ->
   exists t l, (t, l) ∈ log w /\ i ∈ l /\ deadline r <= t <= deadline r + second).
Proof.
  intros Hr%wd_reachable_inv Hi. destruct Hr as [H1 H2 H3].
  assert (worker w <> Gone) as Hg by (apply H2; intros He; by rewrite He in Hi). split_and!; [by apply H1|done|].
  intros Hc. unfold second in *. destruct (H3 i r Hi) as [H|[(_ & ? & _)|[? _]]]; [done| |]; unfold second in *; lia.
Qed.
End Watchdog.

(** ** Runs

    Events to evaluate the system on, without callbacks. *)

Inductive Event := EWatch (i : Index) (timeout : Z) | EDisarm (i : Index) | EScan | EAwake (timed_out : bool) | ETick (d : Z).

Definition exec (e : Event) (w : @Watchdog unit) : option Watchdog :=
  match e, worker w with
  | EWatch i d, _ => if 0 <=? d then Some (watch i d w).2 else None
  | EDisarm i, _ => Some (disarm i w)
  | EScan, Scanning => Some (scan w)
  | EAwake tmo, Waiting u idle _ => if implb tmo (clock w =? u) then Some (awake idle tmo w) else None
  | ETick d, Waiting u _ false =>
    if (0 <=? d) && (clock w + d <=? u) then Some {| clock := clock w + d; wds := wds w; worker := worker w; log := log w |} else None
  | _, _ => None
  end.

Fixpoint exec_all (es : list Event) (w : @Watchdog unit) : option Watchdog :=
  match es with [] => Some w | e :: es => exec e w ≫= exec_all es end.

Lemma wd_exec_step e w w' : exec e w = Some w' -> step w w'.
Proof.
  intros H. destruct e as [i d|i| |tmo|d]; simpl in H.
  - destruct (Z.leb_spec 0 d); [|done]. simplify_eq. by apply step_watch.
  - simplify_eq. apply step_disarm.
  - destruct (worker w) eqn:E; [|done..]. simplify_eq. by apply step_scan.
  - destruct (worker w) as [|u idle n|] eqn:E; [done| |done]. destruct (implb _ _) eqn:Ei; [|done]. simplify_eq.
    eapply step_awake; [done|]. intros ->. simpl in Ei. by apply Z.eqb_eq.
  - destruct (worker w) as [|u idle []|] eqn:E; try done. destruct ((0 <=? d) && _) eqn:Ed; [|done]. bool_prop. simplify_eq.
    rewrite <- E. apply step_tick; [done|]. by rewrite E.
Qed.

Lemma wd_exec_all_reachable timeout start es w w' :
  reachable timeout start w -> exec_all es w = Some w' -> reachable timeout start w'.
Proof.
  revert w. induction es as [|e es IH]; intros w Hw H; simpl in H; [by simplify_eq|].
  destruct (exec e w) as [w1|] eqn:E; [|done]. apply (IH w1); [|done]. eapply reach_step; [done|]. by apply wd_exec_step in E.
Qed.

Definition millis (n : Z) : Z := n * 10^6.
Definition demo_index : Index := {| tid := 1; id := "In gc" |}.
Definition other_index : Index := {| tid := 2; id := "get" |}.

(** A call that takes too long. *)
Definition slow_call : list Event :=
  [EWatch demo_index second; EScan; ETick second; EAwake true; EScan; ETick second; EAwake true; EScan; ETick (millis 500)].

Lemma overdue_is_reported_witness :
  exists w r, reachable (C := unit) (10 * second) 0 w /\ records (wds w) !! demo_index = Some r /\ deadline r + second < clock w /\
    state (wds w) = Running.
Proof.
  destruct (exec_all slow_call (new (10 * second) 0)) as [w|] eqn:Hw; [|by vm_compute in Hw].
  pose proof (wd_exec_all_reachable (10 * second) 0 _ _ _ (reach_new _ _) Hw) as Hr.
  destruct (records (wds w) !! demo_index) as [r|] eqn:Hi; [|vm_compute in Hw; simplify_eq; by vm_compute in Hi].
  exists w, r. split_and!; [done|done| |exact (proj1 (overdue_is_reported _ _ _ _ _ Hr Hi))].
  clear Hr. vm_compute in Hw. simplify_eq. vm_compute in Hi. by simplify_eq.
Defined.

(** While one watch point stays overdue, another caller makes the thread look
    in between, which clears [has_overdue] without printing. *)
Definition interrupted_once : list Event :=
  [EWatch demo_index second; EScan; ETick second; EAwake true; EScan; ETick (millis 900); EWatch other_index (millis 5000); EAwake false;
   EScan; EDisarm other_index; ETick second; EAwake true; EScan].
Definition interrupted_twice : list Event :=
  [EWatch demo_index second; EScan; ETick second; EAwake true; EScan; ETick (millis 300); EWatch other_index (millis 5000); EAwake false;
   EScan; ETick (millis 200); EWatch other_index (millis 5000); EAwake false; EScan].

(** The interval between reports is neither at most nor at least a second:
    reports of one overdue watch point come 1.9 seconds apart in the first
    run and half a second apart in the second. *)
Lemma reports_are_irregular :
  (exists w, reachable (C := unit) (10 * second) 0 w /\ log w = [(millis 2900, [demo_index]); (second, [demo_index])]) /\
  (exists w, reachable (C := unit) (10 * second) 0 w /\ log w = [(millis 1500, [demo_index]); (second, [demo_index])]).
Proof.
  split; [destruct (exec_all interrupted_once (new (10 * second) 0)) as [w|] eqn:Hw
         |destruct (exec_all interrupted_twice (new (10 * second) 0)) as [w|] eqn:Hw]; try (by vm_compute in Hw);
    exists w; (split; [exact (wd_exec_all_reachable _ _ _ _ _ (reach_new _ _) Hw)|]); vm_compute in Hw; by simplify_eq.
Qed.
