(* ===== verification/Apc.v ===== *)
(** * Protected confirmation ([keystore2/src/apc.rs], [apc_compat.rs])

    The service shows one prompt at a time on a trusted display and passes the
    token of a confirmed prompt to the enforcements through a channel.  Clients
    whose prompts are declined or aborted have to wait longer and longer.  The
    display is behind a C++ interface: whether it is there and what it answers
    are arguments; the documented contract of its callback, called at most
    once and only after a prompt was started, is how [step] uses it, and
    [ApcCompat] proves that the code behind the interface keeps it.  Times
    are nanoseconds.  A panic while the state is locked poisons the mutex. *)

From stdpp Require Import base list gmap strings.
From Stdlib Require Import ZArith Lia Ascii.
From S2P Require Import Prelude Aidl Errors Sql KeyParameter Permission AuthInfo Enforcements.

(** android.security.apc.ResponseCode; its numbers are declared elsewhere. *)
Inductive ApcResponseCode :=
| OK | CANCELLED | ABORTED | OPERATION_PENDING | IGNORED | SYSTEM_ERROR | UNIMPLEMENTED | PERMISSION_DENIED.
#[global] Instance ApcResponseCode_eq_dec : EqDecision ApcResponseCode.
Proof. solve_decision. Defined.

Inductive ApcError := ApcRc (code : ApcResponseCode) | ApcBinder (code : ExceptionCode) (n : Z).

(** The root causes [map_or_log_err] of apc.rs distinguishes. *)
Inductive AnyApcError := ApcErr (e : ApcError) | ApcSelinux (e : SelinuxError) | ApcOther.

Definition apc_map_or_log_err {T U} (rc_value : ApcResponseCode -> Z) (r : result AnyApcError U)
    (handle_ok : U -> result BinderStatus T) : result BinderStatus T :=
  match r with
  | Ok u => handle_ok u
  | Err e =>
    Err (new_service_specific_error (rc_value
      match e with
      | ApcErr (ApcRc rcode) => rcode
      | ApcErr (ApcBinder _ _) => SYSTEM_ERROR
      | ApcSelinux PermissionDenied => PERMISSION_DENIED
      | _ => SYSTEM_ERROR
      end))
  | Panic => Panic
  end.

(** The codes of the C++ interface (apc_compat.hpp). *)
Definition APC_COMPAT_ERROR_OK : Z := 0.
Definition compat_2_response_code (rc : Z) : ApcResponseCode :=
  match rc with
  | 0 => OK | 1 => CANCELLED | 2 => ABORTED | 3 => OPERATION_PENDING | 4 => IGNORED | 5 => SYSTEM_ERROR
  | _ => SYSTEM_ERROR
  end.

(** Inverted and magnified, given the two flags of the AIDL interface. *)
Definition ui_opts_2_compat (inverted magnified : Z) (opt : Z) : bool * bool :=
  (negb (Z.land opt inverted =? 0), negb (Z.land opt magnified =? 0)).

Definition seconds (n : Z) : Z := n * 10^9.

(** ** Rate limiting *)

Record RateInfo := { counter : Z; timestamp : Z }.

Definition ONE_DAY : Z := seconds (60 * 60 * 24).

(** [Duration::checked_mul] on whole seconds. *)
Definition checked_mul_secs (s n : Z) : option Z := if s * n <? 2^64 then Some (seconds (s * n)) else None.

Definition back_off (counter : Z) : option Z :=
  if counter <=? 2 then None
  else if counter <=? 5 then Some (seconds 30)
  else if counter <=? 16 then Some (default ONE_DAY (checked_mul_secs 60 (Z.shiftl 1 (counter - 6))))
  else Some ONE_DAY.

(** [checked_sub] of durations. *)
Definition get_remaining_back_off (now : Z) (r : RateInfo) : option Z :=
  b ← back_off (counter r);
  let elapsed := now - timestamp r in
  if elapsed <=? b then Some (b - elapsed) else None.

(** ** Sessions *)

Record ApcSessionState := {
  cb : Z;
  s_uid : Z;
  start : Z;
  client_aborted : bool
}.

Record ApcState := {
  session : option ApcSessionState;
  rate_limiting : gmap Z RateInfo
}.
Definition apc_new : ApcState := {| session := None; rate_limiting := ∅ |}.
Definition set_session (x : option ApcSessionState) (s : ApcState) : ApcState := {| session := x; rate_limiting := rate_limiting s |}.
Definition on_rates (f : gmap Z RateInfo -> gmap Z RateInfo) (s : ApcState) : ApcState :=
  {| session := session s; rate_limiting := f (rate_limiting s) |}.

(** The mutex around the state. *)
Record ApcManager := { poisoned : bool; apc : ApcState }.
Definition apc_manager : ApcManager := {| poisoned := false; apc := apc_new |}.

(** [state.lock().unwrap()] and a body; a panic in the body poisons. *)
Definition locked {A} (body : sr ApcState AnyApcError A) : sr ApcManager AnyApcError A := fun m =>
  if poisoned m then (Panic, m)
  else match body (apc m) with
       | (Panic, s) => (Panic, {| poisoned := true; apc := s |})
       | (r, s) => (r, {| poisoned := false; apc := s |})
       end.

(** What the surroundings contribute to a call: the caller, two readings of
    the clock, whether there is a display, and its answer to the prompt. *)
Record Surroundings := {
  calling_uid : Z;
  now_check : Z;
  now_start : Z;
  hal_service : bool;
  hal_rc : Z
}.

(** [CString::new(s).unwrap()]: a panic on a zero byte. *)
Fixpoint has_nul (s : string) : bool :=
  match s with EmptyString => false | String c s => bool_decide (c = zero) || has_nul s end.

(** [ApcHal::prompt_user_confirmation]. *)
Definition prompt_user_confirmation (prompt_text locale : string) (rc : Z) : result Z unit :=
  if has_nul prompt_text || has_nul locale then Panic
  else if rc =? APC_COMPAT_ERROR_OK then Ok tt else Err rc.

Definition penalized (uid start : Z) (m : gmap Z RateInfo) : gmap Z RateInfo :=
  <[uid := {| counter := as_u32 (default 0 (counter <$> m !! uid) + 1); timestamp := start |}]> m.

(** The back off of a caller, if it has one. *)
Definition cooling_down (now uid : Z) (s : ApcState) : option Z := rate_limiting s !! uid ≫= get_remaining_back_off now.

Definition present_prompt (e : Surroundings) (listener : Z) (prompt_text locale : string) : sr ApcManager AnyApcError unit :=
  locked (
    s ← gets (fun s => s);
    _ ← (match session s with
         | Some _ => throw (ApcErr (ApcRc OPERATION_PENDING))
         | None => mret tt
         end);
    _ ← (match cooling_down (now_check e) (calling_uid e) s with
         | Some _ => throw (ApcErr (ApcRc SYSTEM_ERROR))
         | None => mret tt
         end);
    _ ← (if hal_service e then mret tt else throw (ApcErr (ApcRc UNIMPLEMENTED)));
    _ ← lift (map_err (fun rc => ApcErr (ApcRc (compat_2_response_code rc))) (prompt_user_confirmation prompt_text locale (hal_rc e)));
    modify (set_session (Some {| cb := listener; s_uid := calling_uid e; start := now_start e; client_aborted := false |}))).

(** [cancel_prompt]; when it succeeds, [hal.abort()] follows. *)
Definition cancel_prompt (listener : Z) : sr ApcManager AnyApcError unit :=
  locked (
    s ← gets (fun s => s);
    match session s with
    | None => throw (ApcErr (ApcRc IGNORED))
    | Some x =>
      if bool_decide (cb x <> listener) then throw (ApcErr (ApcRc IGNORED))
      else modify (set_session (Some {| cb := cb x; s_uid := s_uid x; start := start x; client_aborted := true |}))
    end).

Definition is_supported (service : bool) : result AnyApcError bool := Ok service.

(** A pointer and a size of the C++ side. *)
Definition hal_slice (b : option bytes) : option bytes := match b with Some [] => None | _ => b end.

(** [ApcManager::result]: the completion sent to the listener, if there was a
    session, and the token sent to the enforcements. *)
Definition result_ (rc : Z) (data_confirmed confirmation_token : option bytes)
    : sr ApcManager AnyApcError (option (Z * ApcResponseCode * option bytes) * option bytes) :=
  locked (
    s ← gets (fun s => s);
    match session s with
    | None => mret (None, None)
    | Some x =>
      let rc := compat_2_response_code rc in
      let done := Some (cb x, rc, data_confirmed) in
      _ ← modify (set_session None);
      match rc, client_aborted x, confirmation_token with
      | OK, _, Some t => _ ← modify (on_rates (delete (s_uid x))); mret (done, Some t)
      | CANCELLED, _, _ | ABORTED, true, _ => _ ← modify (on_rates (penalized (s_uid x) (start x))); mret (done, None)
      | _, _, _ => mret (done, None)
      end
    end).

(** [Sender::send] into the channel of the enforcements. *)
Definition send_token (t : option bytes) (e : Enforcements) : Enforcements :=
  match t, confirmation_tokens e with
  | Some t, Some q => with_confirmation_tokens e (Some (q ++ [t]))
  | _, _ => e
  end.

(** ** The service and the operations that need a confirmation *)

Inductive Verdict := Confirmed (token : bytes) | Penalized | Neutral.

(** The manager, the enforcements, whether the display holds a callback, and
    what has happened, latest first: finished sessions, completions with
    their listeners, prompts with theirs, and the tokens operations got. *)
Record Apc := {
  manager : ApcManager;
  enf : Enforcements;
  callback_held : bool;
  finished : list (Z * Z * Verdict);
  completions : list Z;
  prompts : list Z;
  used : list bytes
}.

(** How a session that ended with these answers counts. *)
Definition verdict (rc : Z) (aborted : bool) (token : option bytes) : Verdict :=
  match compat_2_response_code rc, aborted, token with
  | OK, _, Some t => Confirmed t
  | CANCELLED, _, _ | ABORTED, true, _ => Penalized
  | _, _, _ => Neutral
  end.

Definition apc_start (e : Enforcements) : Apc :=
  {| manager := apc_manager; enf := install_confirmation_token_receiver e []; callback_held := false; finished := []; completions := []; prompts := []; used := [] |}.

Section Service.
Context {AI : Aidl}.

(** What can happen: calls of clients in any order, the callback of the
    display, an operation that needs a confirmation being finished, and
    anything else the enforcements do. *)
Inductive step (a : Apc) : Apc -> Prop :=
| step_prompt e listener prompt_text locale r m :
    present_prompt e listener prompt_text locale (manager a) = (r, m) ->
    step a {| manager := m; enf := enf a; callback_held := is_ok r || callback_held a; finished := finished a;
              completions := completions a; prompts := if is_ok r then listener :: prompts a else prompts a; used := used a |}
| step_cancel listener r m :
    cancel_prompt listener (manager a) = (r, m) ->
    step a {| manager := m; enf := enf a; callback_held := callback_held a; finished := finished a;
              completions := completions a; prompts := prompts a; used := used a |}
| step_result rc data token x done t m :
    callback_held a = true -> session (apc (manager a)) = Some x ->
    result_ rc (hal_slice data) (hal_slice token) (manager a) = (Ok (done, t), m) ->
    step a {| manager := m; enf := send_token t (enf a); callback_held := false;
              finished := (s_uid x, start x, verdict rc (client_aborted x) (hal_slice token)) :: finished a;
              completions := match done with Some (l, _, _) => l :: completions a | None => completions a end;
              prompts := prompts a; used := used a |}
| step_finish info r info' e' :
    before_finish (enf a) info = (r, info', e') ->
    step a {| manager := manager a; enf := e'; callback_held := callback_held a; finished := finished a; completions := completions a;
              prompts := prompts a; used := match r with Ok (_, _, Some t) => t :: used a | _ => used a end |}
| step_other e' :
    confirmation_tokens e' = confirmation_tokens (enf a) ->
    step a {| manager := manager a; enf := e'; callback_held := callback_held a; finished := finished a; completions := completions a;
              prompts := prompts a; used := used a |}.

Inductive reachable (e : Enforcements) : Apc -> Prop :=
| reach_start : reachable e (apc_start e)
| reach_step a a' : reachable e a -> step a a' -> reachable e a'.

(** ** What the manager remembers *)

(** The failures of a client since its last confirmed prompt, and when the
    last one was started. *)
Fixpoint failures (uid : Z) (l : list (Z * Z * Verdict)) : Z :=
  match l with
  | [] => 0
  | (u, _, v) :: l => if u =? uid then match v with Confirmed _ => 0 | Penalized => 1 + failures uid l | Neutral => failures uid l end
                      else failures uid l
  end.
Fixpoint last_failure (uid : Z) (l : list (Z * Z * Verdict)) : option Z :=
  match l with
  | [] => None
  | (u, t, v) :: l => if u =? uid then match v with Confirmed _ => None | Penalized => Some t | Neutral => last_failure uid l end
                      else last_failure uid l
  end.

Definition confirmed (l : list (Z * Z * Verdict)) : list bytes :=
  omap (fun p : Z * Z * Verdict => match p.2 with Confirmed t => Some t | _ => None end) l.

Record apc_inv (a : Apc) : Prop := {
  inv_held : callback_held a = bool_decide (session (apc (manager a)) <> None);
  inv_prompts : prompts a = option_list (cb <$> session (apc (manager a))) ++ completions a;
  inv_rates uid : rate_limiting (apc (manager a)) !! uid
    = (fun t => {| counter := as_u32 (failures uid (finished a)); timestamp := t |}) <$> last_failure uid (finished a);
  inv_queue : exists q, confirmation_tokens (enf a) = Some q /\ sublist (reverse (used a) ++ q) (reverse (confirmed (finished a)))
}.

Lemma no_failure uid l : last_failure uid l = None -> failures uid l = 0.
Proof. induction l as [|[[u t] v] l IH]; simpl; [done|]. destruct (u =? uid); [|done]. by destruct v. Qed.

Lemma back_off_spec n :
  3 <= n -> back_off n = Some (seconds (if n <=? 5 then 30 else if n <=? 16 then 60 * 2^(n - 6) else 24 * 60 * 60)).
Proof.
  intros. unfold back_off. destruct (Z.leb_spec n 2); [lia|]. destruct (n <=? 5) eqn:E; [done|]. bool_prop.
  destruct (Z.leb_spec n 16); [|done]. unfold checked_mul_secs. rewrite Z.shiftl_1_l.
  assert (2^(n - 6) <= 2^10) by (apply Z.pow_le_mono_r; lia).
  destruct (Z.ltb_spec (60 * 2^(n - 6)) (2^64)); [done|lia].
Qed.

Lemma penalized_lookup uid t l (m : gmap Z RateInfo) :
  (forall u, m !! u = (fun t => {| counter := as_u32 (failures u l); timestamp := t |}) <$> last_failure u l) ->
  forall u, penalized uid t m !! u
    = (fun t => {| counter := as_u32 (failures u ((uid, t, Penalized) :: l)); timestamp := t |}) <$> last_failure u ((uid, t, Penalized) :: l).
Proof.
  intros Hm u. unfold penalized. simpl. destruct (Z.eqb_spec uid u) as [->|Hne].
  - rewrite lookup_insert_eq, Hm. simpl. destruct (last_failure u l) eqn:E; simpl.
    + unfold as_u32. by rewrite Zplus_mod_idemp_l, (Z.add_comm (failures u l)).
    + by rewrite (no_failure _ _ E).
  - by rewrite lookup_insert_ne.
Qed.

Lemma get_auth_tokens_queue s info r info' s' :
  get_auth_tokens s info = (r, info', s') -> confirmation_tokens s' = confirmation_tokens s.
Proof. unfold get_auth_tokens. intros H. repeat case_match; simplify_eq; done. Qed.

Lemma before_finish_queue s info r info' s' q :
  confirmation_tokens s = Some q -> before_finish s info = (r, info', s') ->
  exists q' d, confirmation_tokens s' = Some q' /\ sublist (option_list d ++ q') q /\
    match r with Ok (_, _, t) => t = d | _ => True end.
Proof.
  intros Hq. unfold before_finish. rewrite Hq. destruct (confirmation_token_receiver info).
  - destruct (get_auth_tokens _ info) as [[x i] s2] eqn:E. intros H. simplify_eq. apply get_auth_tokens_queue in E.
    exists [], (last q). split_and!; [done| |by destruct x as [[]| |]].
    rewrite app_nil_r. destruct (last q) as [t|] eqn:El; simpl; [|apply sublist_nil_l].
    apply last_Some in El as [q1 ->]. by apply sublist_inserts_l.
  - destruct (get_auth_tokens _ info) as [[x i] s2] eqn:E. intros H. simplify_eq. apply get_auth_tokens_queue in E.
    exists q, None. split_and!; [by rewrite E|done|by destruct x as [[]| |]].
Qed.

Lemma present_prompt_cases e listener prompt_text locale m r m' :
  present_prompt e listener prompt_text locale m = (r, m') ->
  (r = Ok tt /\ session (apc m) = None /\ cooling_down (now_check e) (calling_uid e) (apc m) = None /\
   m' = {| poisoned := false; apc := set_session (Some {| cb := listener; s_uid := calling_uid e; start := now_start e; client_aborted := false |}) (apc m) |}) \/
  (is_ok r = false /\ apc m' = apc m).
Proof.
  unfold present_prompt, locked, mbind, sr_bind, gets, throw, lift, modify, mret, sr_ret. destruct (poisoned m); [by intros; simplify_eq; right|].
  destruct (session (apc m)) eqn:Es; [by intros; simplify_eq; right|].
  destruct (cooling_down _ _ _) eqn:Er; [by intros; simplify_eq; right|].
  destruct (hal_service e); [|by intros; simplify_eq; right].
  destruct (prompt_user_confirmation _ _ _); simpl; intros; simplify_eq; [left|by right..]. by split_and!.
Qed.

Lemma cancel_prompt_cases listener m r m' :
  cancel_prompt listener m = (r, m') ->
  apc m' = apc m \/
  exists x, session (apc m) = Some x /\
    apc m' = set_session (Some {| cb := cb x; s_uid := s_uid x; start := start x; client_aborted := true |}) (apc m).
Proof.
  unfold cancel_prompt, locked, mbind, sr_bind, gets, throw, modify. destruct (poisoned m); [by intros; simplify_eq; left|].
  destruct (session (apc m)) as [x|] eqn:Ex; [destruct (bool_decide _)|]; intros; simplify_eq; eauto.
Qed.

Lemma result_cases rc data token x m r :
  session (apc (manager m)) = Some x -> result_ rc data token (manager m) = r ->
  r = (Panic, manager m) \/
  exists rates, r = (Ok (Some (cb x, compat_2_response_code rc, data), match verdict rc (client_aborted x) token with Confirmed t => Some t | _ => None end),
        {| poisoned := false; apc := {| session := None; rate_limiting := rates |} |}) /\
    rates = match verdict rc (client_aborted x) token with
            | Confirmed _ => delete (s_uid x) (rate_limiting (apc (manager m)))
            | Penalized => penalized (s_uid x) (start x) (rate_limiting (apc (manager m)))
            | Neutral => rate_limiting (apc (manager m))
            end.
Proof.
  intros Hx <-. unfold result_, locked, mbind, sr_bind, gets, modify, mret, sr_ret, verdict. rewrite Hx.
  destruct (poisoned (manager m)); [by left|right].
  destruct (compat_2_response_code rc), (client_aborted x), token; simpl; eexists; (split; [reflexivity|done]).
Qed.

Lemma apc_inv_step a a' : step a a' -> apc_inv a -> apc_inv a'.
Proof.
  intros [e listener pt lo r m Hp|listener r m Hc|rc data token x done t m Hh Hx Hr|info r info' e' Hf|e' He] [H1 H2 H3 H4].
  - apply present_prompt_cases in Hp as [(-> & Hs & Hb & ->)|[Hr Ha]]; (split; simpl; [| | |done]).
    + done.
    + by rewrite H2, Hs.
    + done.
    + by rewrite Hr, Ha.
    + by rewrite Hr, Ha.
    + by rewrite Ha.
  - apply cancel_prompt_cases in Hc as [Ha|(x & Hx & Ha)]; (split; simpl; [| | |done]); rewrite Ha; try done.
    + by rewrite H1, Hx.
    + by rewrite H2, Hx.
  - destruct (result_cases rc (hal_slice data) (hal_slice token) x a _ Hx eq_refl) as [E|(rates & E & Hrates)]; rewrite E in Hr; [done|].
    simplify_eq. split; simpl.
    + done.
    + by rewrite H2, Hx.
    + intros u. destruct (verdict rc (client_aborted x) (hal_slice token)) eqn:Ev; simpl.
      * destruct (Z.eqb_spec (s_uid x) u) as [<-|Hne]; [by rewrite lookup_delete_eq|by rewrite lookup_delete_ne].
      * by apply penalized_lookup.
      * rewrite H3. by destruct (s_uid x =? u).
    + destruct H4 as (q & Hq & Hsub). destruct (verdict rc (client_aborted x) (hal_slice token)) as [t| |] eqn:Ev; simpl; rewrite Hq; [|eauto..].
      eexists. split; [done|]. rewrite reverse_cons, app_assoc. by apply sublist_app.
  - split; simpl; [done|done|done|]. destruct H4 as (q & Hq & Hsub).
    destruct (before_finish_queue _ _ _ _ _ _ Hq Hf) as (q' & d & Hq' & Hd & Hr). exists q'. split; [done|].
    trans (reverse (used a) ++ q); [|done]. destruct r as [[[hat tst] ct]| |]; subst.
    + destruct d; simpl; [rewrite reverse_cons, <- app_assoc|]; by apply sublist_app.
    + apply sublist_app; [done|]. trans (option_list d ++ q'); [by apply sublist_inserts_l|done].
    + apply sublist_app; [done|]. trans (option_list d ++ q'); [by apply sublist_inserts_l|done].
  - split; simpl; [done|done|done|]. by rewrite He.
Qed.
Lemma apc_reachable_inv e a : reachable e a -> apc_inv a.
Proof. induction 1 as [|a a' _ IH Hs]; [|by eapply apc_inv_step]. split; try done. exists []. by split. Qed.

(** C17: One prompt at a time, each completed once and to the listener that asked
    for it, and one operation per confirmation: prompts are completed in the
    order in which they were shown, except for the one that is showing, and
    the tokens that operations got and those in the channel are, in order,
    among the tokens of the prompts the users confirmed, each at most once. *)
Theorem one_confirmation_one_use e a :
  reachable e a ->
  prompts a = option_list (cb <$> session (apc (manager a))) ++ completions a /\
  (callback_held a = true <-> exists x, session (apc (manager a)) = Some x) /\
  exists q, confirmation_tokens (enf a) = Some q /\ sublist (reverse (used a) ++ q) (reverse (confirmed (finished a))).
Proof.
  intros [H1 H2 _ H4]%apc_reachable_inv. split_and!; [done| |done]. rewrite H1. destruct (session _); rewrite bool_decide_eq_true; naive_solver.
Qed.

(** Failed prompts cost time: a prompt is shown to a client only if its
    failures (declined prompts and prompts it aborted itself) since its last
    confirmed one are at most two, or if more than the back off for that
    number has passed since the last failed prompt was shown: thirty seconds
    up to five failures, then a minute, doubled with every failure up to the
    sixteenth, and a day after that. *)
Theorem prompts_are_rate_limited e a env listener prompt_text locale m :
  reachable e a -> present_prompt env listener prompt_text locale (manager a) = (Ok tt, m) ->
  let n := failures (calling_uid env) (finished a) in
  n < 2^32 ->
  0 <= n <= 2 \/
  exists t, last_failure (calling_uid env) (finished a) = Some t /\
    t + seconds (if n <=? 5 then 30 else if n <=? 16 then 60 * 2^(n - 6) else 24 * 60 * 60) < now_check env.
Proof.
  intros [_ _ Hr _]%apc_reachable_inv Hp n Hn. apply present_prompt_cases in Hp as [(_ & _ & Hb & _)|[? _]]; [|done].
  unfold cooling_down in Hb. rewrite Hr in Hb. fold n in Hb.
  assert (0 <= n) as Hpos by (unfold n; clear; induction (finished a) as [|[[u t] v] l IH]; simpl; [done|]; destruct (u =? _), v; lia).
  unfold as_u32 in Hb. rewrite Z.mod_small in Hb by lia.
  destruct (last_failure (calling_uid env) (finished a)) as [t|] eqn:El; simpl in Hb.
  - destruct (Z.leb_spec n 2) as [|Hgt]; [left; lia|right]. exists t. split; [done|].
    unfold get_remaining_back_off in Hb. simpl in Hb. rewrite back_off_spec in Hb by lia. simpl in Hb.
    destruct (Z.leb_spec (now_check env - t) (seconds (if n <=? 5 then 30 else if n <=? 16 then 60 * 2^(n - 6) else 24 * 60 * 60))); [done|lia].
  - left. unfold n in *. rewrite (no_failure _ _ El). lia.
Qed.

(** A prompt text with a zero byte, which a client is free to send, panics in
    the conversion to a C string while the state is locked; from then on
    every call and every callback panics. *)
Theorem nul_text_disables_service env listener prompt_text locale m :
  poisoned m = false -> session (apc m) = None -> cooling_down (now_check env) (calling_uid env) (apc m) = None -> hal_service env = true ->
  has_nul prompt_text || has_nul locale = true ->
  exists m', present_prompt env listener prompt_text locale m = (Panic, m') /\
    (forall env2 l2 t2 lo2, present_prompt env2 l2 t2 lo2 m' = (Panic, m')) /\
    (forall l2, cancel_prompt l2 m' = (Panic, m')) /\ (forall rc d t, result_ rc d t m' = (Panic, m')).
Proof.
  intros Hp Hs Hc Hh Hn. exists {| poisoned := true; apc := apc m |}. split_and!; [|done..].
  unfold present_prompt, locked, mbind, sr_bind, gets, lift, mret, sr_ret. rewrite Hp, Hs, Hc, Hh.
  unfold prompt_user_confirmation. by rewrite Hn.
Qed.
End Service.

(** ** Runs *)

Inductive Event := EPrompt (e : Surroundings) (listener : Z) | EResult (rc : Z) (token : option bytes) | EFinish (info : AuthInfo).

Section Runs.
Context {AI : Aidl}.

Definition exec (ev : Event) (a : Apc) : option Apc :=
  match ev with
  | EPrompt e l =>
    let '(r, m) := present_prompt e l "Pay?" "en" (manager a) in
    Some {| manager := m; enf := enf a; callback_held := is_ok r || callback_held a; finished := finished a;
            completions := completions a; prompts := if is_ok r then l :: prompts a else prompts a; used := used a |}
  | EResult rc token =>
    match session (apc (manager a)), callback_held a, result_ rc (hal_slice None) (hal_slice token) (manager a) with
    | Some x, true, (Ok (done, t), m) =>
      Some {| manager := m; enf := send_token t (enf a); callback_held := false;
              finished := (s_uid x, start x, verdict rc (client_aborted x) (hal_slice token)) :: finished a;
              completions := match done with Some (l, _, _) => l :: completions a | None => completions a end;
              prompts := prompts a; used := used a |}
    | _, _, _ => None
    end
  | EFinish info =>
    let '(r, _, e') := before_finish (enf a) info in
    Some {| manager := manager a; enf := e'; callback_held := callback_held a; finished := finished a; completions := completions a;
            prompts := prompts a; used := match r with Ok (_, _, Some t) => t :: used a | _ => used a end |}
  end.
Fixpoint exec_all (l : list Event) (a : Apc) : option Apc :=
  match l with [] => Some a | ev :: l => exec ev a ≫= exec_all l end.

Lemma apc_exec_step ev a a' : exec ev a = Some a' -> step a a'.
Proof.
  destruct ev as [e l|rc token|info]; simpl.
  - destruct (present_prompt _ _ _ _ _) as [r m] eqn:E. intros. simplify_eq. by eapply step_prompt.
  - destruct (session (apc (manager a))) as [x|] eqn:Ex; [|done]. destruct (callback_held a) eqn:Eh; [|done].
    destruct (result_ _ _ _ _) as [[[done t]| |] m] eqn:E; intros; simplify_eq. by eapply (step_result a rc None token).
  - destruct (before_finish _ _) as [[r i] e'] eqn:E. intros. simplify_eq. by eapply step_finish.
Qed.

Lemma apc_exec_all_reachable e l a a' : reachable e a -> exec_all l a = Some a' -> reachable e a'.
Proof.
  revert a. induction l as [|ev l IH]; intros a Ha H; simpl in H; [by simplify_eq|].
  destruct (exec ev a) as [a1|] eqn:E; [|done]. apply (IH a1); [|done]. eapply reach_step; [done|]. by apply apc_exec_step in E.
Qed.
End Runs.

Definition at_time (uid t : Z) : Surroundings :=
  {| calling_uid := uid; now_check := seconds t; now_start := seconds t; hal_service := true; hal_rc := 0 |}.

(** A client whose first three prompts are declined. *)
Definition declined_thrice : list Event :=
  [EPrompt (at_time 10 0) 1; EResult 1 None; EPrompt (at_time 10 5) 1; EResult 1 None; EPrompt (at_time 10 9) 1; EResult 1 None].

Lemma prompts_are_rate_limited_witness :
  exists a m, reachable (AI := aidl_published) default_enforcements a /\
    present_prompt (at_time 10 40) 1 "Pay?" "en" (manager a) = (Ok tt, m) /\
    (0 <= failures 10 (finished a) <= 2 \/ exists t, last_failure 10 (finished a) = Some t /\ t + seconds 30 < seconds 40).
Proof.
  destruct (exec_all (AI := aidl_published) declined_thrice (apc_start default_enforcements)) as [a|] eqn:Ha; [|by vm_compute in Ha].
  pose proof (apc_exec_all_reachable (AI := aidl_published) _ _ _ _ (reach_start _) Ha) as Hr. vm_compute in Ha. simplify_eq.
  eexists _, _. split; [exact Hr|]. split; [reflexivity|].
  exact (prompts_are_rate_limited _ _ (at_time 10 40) 1 "Pay?" "en" _ Hr eq_refl ltac:(by vm_compute)).
Defined.

Definition confirming : AuthInfo := {| AuthInfo.state := NoAuthRequired; key_usage_limited := None; confirmation_token_receiver := true |}.

(** Two confirmed prompts and two operations: the second one gets nothing. *)
Definition confirmed_twice : list Event :=
  [EPrompt (at_time 10 0) 1; EResult 0 (Some [7]); EPrompt (at_time 11 5) 2; EResult 0 (Some [8]); EFinish confirming; EFinish confirming].

Lemma one_confirmation_one_use_witness :
  exists a, reachable (AI := aidl_published) default_enforcements a /\ used a = [[8]] /\
    sublist (reverse (used a)) (reverse (confirmed (finished a))).
Proof.
  destruct (exec_all (AI := aidl_published) confirmed_twice (apc_start default_enforcements)) as [a|] eqn:Ha; [|by vm_compute in Ha].
  pose proof (apc_exec_all_reachable (AI := aidl_published) _ _ _ _ (reach_start _) Ha) as Hr. vm_compute in Ha. simplify_eq.
  eexists. split; [exact Hr|]. split; [reflexivity|].
  destruct (one_confirmation_one_use _ _ Hr) as (_ & _ & q & Hq & Hs). vm_compute in Hq. simplify_eq. by rewrite app_nil_r in Hs.
Defined.

Lemma nul_text_disables_service_witness :
  exists m', present_prompt (at_time 10 0) 1 (String zero "x") "en" apc_manager = (Panic, m') /\
    present_prompt (at_time 11 0) 2 "Pay?" "en" m' = (Panic, m').
Proof.
  destruct (nul_text_disables_service (at_time 10 0) 1 (String zero "x") "en" apc_manager eq_refl eq_refl eq_refl eq_refl eq_refl)
    as (m' & H & H2 & _).
  exists m'. split; [exact H|apply H2].
Defined.
