(* ===== verification/DbOpen.v ===== *)
(** * Opening the database ([versioning.rs], [KeystoreDB::new] and
    [with_transaction] of database.rs, [create_thread_local_db] of globals.rs)

    The database file has a schema: the version table, which may be missing,
    and the tables and indexes that exist.  A table that does not exist has no
    rows.  Opening a connection upgrades the schema in one transaction. *)

From stdpp Require Import base list gmap sets strings.
From Stdlib Require Import ZArith Lia.
From S2P Require Import Prelude Aidl Errors Sql KeyParameter Perboot DbTypes Database DbInvariant.

(** ** Retries

    What happens at one turn of the loop in [with_transaction]: what other
    connections committed since the last one, and whether starting the
    transaction or committing it finds the database busy. *)

Record Attempt (S : Type) := { others : S -> S; begin_busy : bool; commit_busy : bool }.
Arguments others {S} _.
Arguments begin_busy {S} _.
Arguments commit_busy {S} _.

Section Retry.
Context {S E A : Type} (f : sr S E A).

(** A busy database is an error with which the loop goes on; [None]: it is
    still running when the attempts given are used up. *)
Definition attempt (a : Attempt S) (s : S) : option (result E A) * S :=
  if begin_busy a then (None, s)
  else match f s with
       | (Ok x, s') => if commit_busy a then (None, s) else (Some (Ok x), s')
       | (r, _) => (Some r, s)
       end.
Fixpoint with_transaction (attempts : list (Attempt S)) (s : S) : option (result E A) * S :=
  match attempts with
  | [] => (None, s)
  | a :: attempts =>
    match attempt a (others a s) with
    | (Some r, s') => (Some r, s')
    | (None, s') => with_transaction attempts s'
    end
  end.

(** What the other connections alone do. *)
Definition interference (attempts : list (Attempt S)) (s : S) : S := fold_left (fun s a => others a s) attempts s.

(** However often the body runs, its effects are those of one transaction, on
    what the other connections had left when the last attempt began. *)
Lemma with_transaction_once attempts s r s' :
  with_transaction attempts s = (Some r, s') ->
  exists tried rest, attempts = tried ++ rest /\ tried <> [] /\ transaction f (interference tried s) = (r, s').
Proof.
  revert s. induction attempts as [|a l IH]; intros s H; simpl in H; [done|].
  unfold attempt in H. destruct (begin_busy a).
  { destruct (IH _ H) as (t & rest & -> & _ & Ht). by exists (a :: t), rest. }
  destruct (f (others a s)) as [[x|e|] s1] eqn:Ef; [destruct (commit_busy a)| |].
  - destruct (IH _ H) as (t & rest & -> & _ & Ht). by exists (a :: t), rest.
  - simplify_eq. exists [a], l. split_and!; [done|done|]. unfold interference, transaction. simpl. by rewrite Ef.
  - simplify_eq. exists [a], l. split_and!; [done|done|]. unfold interference, transaction. simpl. by rewrite Ef.
  - simplify_eq. exists [a], l. split_and!; [done|done|]. unfold interference, transaction. simpl. by rewrite Ef.
Qed.

(** It ends as soon as the database is not busy. *)
Lemma with_transaction_ends attempts s :
  Exists (fun a => begin_busy a = false /\ commit_busy a = false) attempts ->
  exists r s', with_transaction attempts s = (Some r, s').
Proof.
  intros H. revert s. induction H as [a l [Hb Hc]|a l _ IH]; intros s; simpl; unfold attempt.
  - rewrite Hb, Hc. destruct (f (others a s)) as [[]]; eauto.
  - destruct (begin_busy a); [eauto|]. destruct (f (others a s)) as [[]]; eauto. destruct (commit_busy a); eauto.
Qed.
End Retry.

(** The loop of [make_connection]: [ATTACH] until it is not locked. *)
Inductive Attached := AttachOk | AttachLocked | AttachFailed.
Fixpoint attach_loop (answers : list Attached) : option (result AnyError unit) :=
  match answers with
  | [] => None
  | AttachOk :: _ => Some (Ok tt)
  | AttachLocked :: l => attach_loop l
  | AttachFailed :: _ => Some (Err OtherError)
  end.

(** [PathBuf::push] of a relative name. *)
Definition path_push (root name : string) : string :=
  if bool_decide (Stdlib.Strings.String.substring (String.length root - 1) 1 root = "/"%string) then (root ++ name)%string
  else (root ++ "/" ++ name)%string.
Definition make_persistent_path (db_root : string) : string := ("file:" ++ path_push db_root "persistent.sqlite")%string.

(** ** The schema *)

Record Persistent := {
  version : option (list (Z * Z));
  present : gset string;
  rows : Tables
}.
Definition on_version (f : option (list (Z * Z)) -> option (list (Z * Z))) (p : Persistent) : Persistent :=
  {| version := f (version p); present := present p; rows := rows p |}.
Definition on_rows (f : Tables -> Tables) (p : Persistent) : Persistent :=
  {| version := version p; present := present p; rows := f (rows p) |}.

(** A file without tables. *)
Definition no_database : Persistent := {| version := None; present := ∅; rows := empty_tables |}.

Section Open.
Context {AI : Aidl}.
Abbreviation P := (sr Persistent AnyError).

Definition create_or_get_version (current_version : Z) : P Z :=
  _ ← modify (on_version (fun t => Some (default [] t)));
  found ← gets (fun p => snd <$> head (select_where (fun r => r.1 =? 0) (default [] (version p))));
  match found with
  | Some v => lift (ok_or (get_u32 (Integer v)) OtherError)
  | None =>
    legacy ← gets (fun p => bool_decide ("keyentry"%string ∈ present p));
    let v := if (legacy : bool) then 0 else current_version in
    _ ← modify (on_version (fun t => Some (default [] t ++ [(0, v)])));
    mret v
  end.

Definition update_version (new_version : Z) : P unit :=
  updated ← gets (fun p => affected (fun r : Z * Z => r.1 =? 0) (default [] (version p)));
  _ ← modify (on_version (fmap (update_where (fun r => r.1 =? 0) (fun r => (r.1, new_version)))));
  if updated =? 1 then mret tt else throw OtherError.

(** The [while] loop; [None] when the fuel runs out. *)
Fixpoint upgrade_loop (fuel : nat) (current_version : Z) (upgraders : list (P Z)) (db_version : Z) : P (option Z) :=
  if db_version <? current_version then
    match fuel, upgraders !! Z.to_nat db_version with
    | O, _ => mret None
    | S _, None => lift Panic
    | S fuel, Some u => v ← u; upgrade_loop fuel current_version upgraders v
    end
  else mret (Some db_version).
Definition upgrade_database (current_version : Z) (upgraders : list (P Z)) : P (option unit) :=
  if Z.of_nat (length upgraders) <? current_version then throw OtherError
  else
    db_version ← create_or_get_version current_version;
    final ← upgrade_loop (length upgraders) current_version upgraders db_version;
    match final with
    | Some v => _ ← update_version v; mret (Some tt)
    | None => mret None
    end.

(** A key with a boot level whose blob was not bound to one. *)
Definition unbound_boot_key (s : Tables) (r : KeyRow) : bool :=
  bool_decide (k_id r ∈ p_key <$> select_where (fun x => p_tag x =? val Tag.MAX_BOOT_LEVEL) (keyparameter s)) &&
  negb (bool_decide (k_id r ∈ b_key <$> select_where (fun b =>
    bool_decide (b_id b ∈ m_owner <$> select_where (fun m => m_tag m =? BlobMetaTag.MaxBootLevel) (blobmetadata s))) (blobentry s))).
Definition from_0_to_1 : P Z :=
  there ← gets (fun p => bool_decide ({["keyentry"%string; "keyparameter"%string; "blobentry"%string; "blobmetadata"%string]} ⊆ present p));
  if (there : bool) then
    _ ← modify (on_rows (fun s => on_keyentry (update_where (unbound_boot_key s) (set_state KeyLifeCycle.Unreferenced)) s));
    mret 1
  else throw OtherError.

Definition CURRENT_DB_VERSION : Z := 1.
Definition UPGRADERS : list (P Z) := [from_0_to_1].

Definition table_names : list string :=
  ["keyentry"; "keyentry_id_index"; "keyentry_domain_namespace_index"; "blobentry"; "blobentry_keyentryid_index"; "blobmetadata";
   "blobmetadata_blobentryid_index"; "keyparameter"; "keyparameter_keyentryid_index"; "keymetadata"; "keymetadata_keyentryid_index";
   "grant"]%string.
Definition init_tables : P unit := modify (fun p => {| version := version p; present := list_to_set table_names ∪ present p; rows := rows p |}).

(** The transaction of [KeystoreDB::new]. *)
Definition open_database : P (option unit) :=
  transaction (
    done ← upgrade_database CURRENT_DB_VERSION UPGRADERS;
    _ ← init_tables;
    mret done).

(** *** Connections of threads *)

(** Whether [DB_INIT] has run, the tokens since boot, and the file. *)
Record Boot := { db_init : bool; boot_tokens : PerbootDB; disk : Persistent }.

(** [create_thread_local_db]; [expect] panics where an error is left. *)
Definition create_thread_local_db (now : Z) (b : Boot) : result unit Boot :=
  match open_database (disk b) with
  | (Ok (Some tt), p) =>
    if db_init b then Ok {| db_init := true; boot_tokens := boot_tokens b; disk := p |}
    else
      match cleanup_leftovers (rows p) with
      | (Ok _, s) => Ok {| db_init := true; boot_tokens := set_last_off_body (boot_tokens b) now;
                           disk := {| version := version p; present := present p; rows := s |} |}
      | _ => Panic
      end
  | _ => Panic
  end.
(** ** Upgrading in general *)

(** The upgraders a database of some version has not seen, in order. *)
Definition run_all (us : list (P Z)) : P unit := sr_for (fun u => _ ← u; mret tt) us.

(** The loop is the missing upgraders run once each, in order, provided the
    one at index [i] leads to version [i + 1]. *)
Lemma upgrade_loop_runs us cur :
  (forall i u, us !! i = Some u -> forall p v p', u p = (Ok v, p') -> v = Z.of_nat i + 1) -> cur <= Z.of_nat (length us) ->
  forall fuel v p, 0 <= v -> cur - v <= Z.of_nat fuel ->
  upgrade_loop fuel cur us v p
  = (_ ← run_all (take (Z.to_nat (cur - v)) (drop (Z.to_nat v) us)); mret (Some (Z.max v cur))) p.
Proof.
  intros Hus Hlen. unfold run_all. induction fuel as [|fuel IH]; intros v p Hv Hf; simpl; (destruct (Z.ltb_spec v cur);
    [|replace (Z.to_nat (cur - v)) with O by lia; simpl; unfold mbind, sr_bind, mret, sr_ret; by rewrite Z.max_l by lia]); [lia|].
  destruct (us !! Z.to_nat v) as [u|] eqn:Hu; [|apply lookup_ge_None in Hu; lia].
  rewrite (drop_S us u) by done. replace (Z.to_nat (cur - v)) with (S (Z.to_nat (cur - (v + 1)))) by lia. simpl.
  unfold mbind, sr_bind. destruct (u p) as [[v'|e|] p'] eqn:Eu; [|done|done].
  assert (v' = v + 1) as -> by (rewrite (Hus _ _ Hu _ _ _ Eu); lia).
  rewrite IH by lia. unfold mbind, sr_bind, mret, sr_ret. replace (Z.to_nat (v + 1)) with (S (Z.to_nat v)) by lia.
  by rewrite (Z.max_r v), (Z.max_r (v + 1)) by lia.
Qed.

(** ** Opening *)

Definition version_of (p : Persistent) : option Z := snd <$> head (select_where (fun r => r.1 =? 0) (default [] (version p))).

(** The files earlier releases and this one leave: one version row at most;
    all tables or none; a version of zero was only ever given to a file with
    tables. *)
Record file_ok (p : Persistent) : Prop := {
  ok_version : version p = None \/ exists v, version p = Some [(0, v)] /\ u32_range v;
  ok_tables : "keyentry"%string ∈ present p -> list_to_set table_names ⊆ present p;
  ok_zero : version_of p = Some 0 -> "keyentry"%string ∈ present p;
  ok_absent : "keyentry"%string ∉ present p -> rows p = empty_tables
}.

(** The version a file is found to have. *)
Definition found_version (p : Persistent) : Z :=
  default (if bool_decide ("keyentry"%string ∈ present p) then 0 else CURRENT_DB_VERSION) (version_of p).

Lemma create_or_get_version_spec p :
  file_ok p ->
  create_or_get_version CURRENT_DB_VERSION p
  = (Ok (found_version p), {| version := Some [(0, found_version p)]; present := present p; rows := rows p |}) /\ 0 <= found_version p.
Proof.
  intros [[Hv|(v & Hv & Hr)] _ _ _]; unfold create_or_get_version, found_version, version_of, mbind, sr_bind, modify, gets, lift, mret, sr_ret;
    simpl; rewrite Hv; simpl.
  - split; [unfold on_version; simpl; by rewrite Hv|]. by case_bool_decide.
  - rewrite decide_True by done. simpl. unfold u32_range in Hr. split; [unfold on_version; simpl; by rewrite Hv|lia].
Qed.

(** The file after opening. *)
Definition opened (p : Persistent) : Persistent :=
  {| version := Some [(0, Z.max (found_version p) CURRENT_DB_VERSION)];
     present := list_to_set table_names ∪ present p;
     rows := if found_version p =? 0
             then on_keyentry (update_where (unbound_boot_key (rows p)) (set_state KeyLifeCycle.Unreferenced)) (rows p)
             else rows p |}.

Lemma upgraders_ok i u : UPGRADERS !! i = Some u -> forall p v p', u p = (Ok v, p') -> v = Z.of_nat i + 1.
Proof.
  intros Hu p v p'. destruct i as [|i]; [|by destruct i]. simpl in Hu. simplify_eq.
  unfold from_0_to_1, mbind, sr_bind, gets, modify, mret, sr_ret, throw. destruct (bool_decide _); intros; by simplify_eq.
Qed.

Lemma open_database_spec p : file_ok p -> open_database p = (Ok (Some tt), opened p).
Proof.
  intros Hok. destruct (create_or_get_version_spec p Hok) as [Hc Hnn]. unfold open_database, transaction, upgrade_database.
  unfold mbind at 1, sr_bind at 1. change (Z.of_nat (length UPGRADERS) <? CURRENT_DB_VERSION) with false. cbv iota.
  unfold mbind at 1, sr_bind at 1. rewrite Hc. unfold mbind at 1, sr_bind at 1.
  rewrite (upgrade_loop_runs UPGRADERS CURRENT_DB_VERSION upgraders_ok); [|done|done|unfold CURRENT_DB_VERSION; simpl; lia].
  unfold opened. destruct (Z.eqb_spec (found_version p) 0) as [E|E].
  - rewrite E. change (Z.to_nat (CURRENT_DB_VERSION - 0)) with 1%nat. simpl. unfold run_all, sr_for, from_0_to_1, mbind, sr_bind, gets, modify, mret, sr_ret. simpl.
    assert ("keyentry"%string ∈ present p) as Hk.
    { unfold found_version in E. destruct (version_of p) as [v|] eqn:Ev; simpl in E; [subst; by apply (ok_zero _ Hok)|by case_bool_decide]. }
    rewrite bool_decide_true; [done|]. etrans; [|by apply (ok_tables _ Hok)]. by apply (bool_decide_unpack _); vm_compute.
  - unfold CURRENT_DB_VERSION in *. replace (Z.to_nat (1 - found_version p)) with O by lia.
    unfold run_all. simpl. unfold mbind, sr_bind, mret, sr_ret. simpl. by rewrite Z.max_l by lia.
Qed.

(** C25: Opening the database succeeds on every file an earlier release can have
    left, and on no file at all.  The file is then of the current version
    (or stays at a later one) with all tables; keys with a boot level that
    were made before such keys were bound to it are marked for deletion,
    if the file was of version zero, nothing else changes, the invariant of
    the tables is kept, and opening again changes nothing. *)
Theorem opening_upgrades p :
  file_ok p -> db_wf (rows p) ->
  exists p', open_database p = (Ok (Some tt), p') /\
    version_of p' = Some (Z.max (found_version p) CURRENT_DB_VERSION) /\ list_to_set table_names ⊆ present p' /\
    rows p' = (if found_version p =? 0
               then on_keyentry (update_where (unbound_boot_key (rows p)) (set_state KeyLifeCycle.Unreferenced)) (rows p)
               else rows p) /\
    db_wf (rows p') /\ file_ok p' /\ open_database p' = (Ok (Some tt), p').
Proof.
  intros Hok Hwf. exists (opened p). destruct (create_or_get_version_spec p Hok) as [_ Hnn].
  assert (u32_range (Z.max (found_version p) CURRENT_DB_VERSION)) as Hr.
  { unfold found_version, CURRENT_DB_VERSION, version_of, u32_range in *.
    destruct (ok_version _ Hok) as [->|(v & -> & Hv)]; simpl in *; [case_bool_decide; lia|]. unfold u32_range in Hv. lia. }
  assert (file_ok (opened p)) as Hok'.
  { split; cbn [version present rows opened]; [right; eauto|intros _; apply union_subseteq_l| |intros []; apply elem_of_union_l; by apply elem_of_list_to_set; left].
    unfold version_of. simpl. unfold CURRENT_DB_VERSION. intros H. simplify_eq. lia. }
  split_and!; [by apply open_database_spec|done|cbn [present opened]; apply union_subseteq_l|done| |done|].
  - simpl. destruct (found_version p =? 0); [by apply wf_unreferenced|done].
  - rewrite (open_database_spec _ Hok'). f_equal. unfold opened at 1.
    assert (found_version (opened p) = Z.max (found_version p) CURRENT_DB_VERSION) as -> by done.
    unfold CURRENT_DB_VERSION. destruct (Z.eqb_spec (Z.max (found_version p) 1) 0); [lia|].
    unfold opened, CURRENT_DB_VERSION. rewrite (Z.max_l (Z.max (found_version p) 1) 1) by lia.
    cbn [present rows]. f_equal. generalize (list_to_set table_names : gset string). set_solver.
Qed.

(** ** After the first connection *)

(** The first connection since boot removes the traces of interrupted key
    creations; later ones leave keys in creation alone. *)
Theorem first_connection_cleans now b b' :
  create_thread_local_db now b = Ok b' -> file_ok (disk b) ->
  db_init b' = true /\
  (if db_init b then rows (disk b') = rows (opened (disk b)) /\ boot_tokens b' = boot_tokens b
   else (forall r, r ∈ keyentry (rows (disk b')) -> k_state r <> KeyLifeCycle.Existing) /\ last_off_body (boot_tokens b') = now).
Proof.
  intros H Hok. unfold create_thread_local_db in H. rewrite (open_database_spec _ Hok) in H.
  destruct (db_init b); [by simplify_eq|]. unfold cleanup_leftovers, transaction, mbind, sr_bind, gets, modify, mret, sr_ret in H. simplify_eq.
  split_and!; [done| |done]. simpl. intros r (y & Hy & ->)%elem_of_update_where. unfold is_existing. by case_bool_decide.
Qed.
End Open.

(** ** Witnesses *)

#[local] Existing Instance aidl_published.

(** A file of the first release: tables and no version; key 7 has a boot level
    its blob is not bound to, the blob of key 8 is bound to one. *)
Definition boot_key (id : Z) (al : string) (m : BlobMetaData) : sr Tables AnyError (bool * Z) :=
  Database.store_new_key [id] {| domain := val Domain.APP; nspace := 1000; alias := Some al; blob := None |} KeyType.Client
    [{| kp_value := MaxBootLevel 10; security_level := 100 |}] ([9], m) {| cert := None; cert_chain := None |} ∅ (repeat 7 16).
Definition old_rows1 : Tables := snd (boot_key 7 "old" ∅ empty_tables).
Definition old_rows : Tables := snd (boot_key 8 "bound" (meta_add (BMMaxBootLevel 10) ∅) old_rows1).
Definition old_file : Persistent := {| version := None; present := list_to_set table_names; rows := old_rows |}.

Lemma boot_key_wf id al m s r s' : db_wf s -> boot_key id al m s = (Ok r, s') -> db_wf s'.
Proof. intros Hwf H. unfold boot_key in H. exact (store_new_key_wf _ _ _ _ _ _ _ _ _ _ _ Hwf H). Qed.

Lemma old_rows_wf : db_wf old_rows.
Proof.
  apply (boot_key_wf 8 "bound" (meta_add (BMMaxBootLevel 10) ∅) old_rows1 (false, 8)); [|by vm_compute].
  apply (boot_key_wf 7 "old" ∅ empty_tables (false, 7)); [apply empty_wf|by vm_compute].
Qed.

Lemma old_file_ok : file_ok old_file.
Proof. split; [by left|done|by vm_compute|]. intros []. by apply elem_of_list_to_set; left. Qed.

Lemma opening_upgrades_witness :
  exists p', open_database old_file = (Ok (Some tt), p') /\ version_of p' = Some 1 /\
    (k_state <$> keyentry (rows p')) = [KeyLifeCycle.Unreferenced; KeyLifeCycle.Live] /\ db_wf (rows p').
Proof.
  destruct (opening_upgrades old_file old_file_ok old_rows_wf) as (p' & H & Hv & _ & Hr & Hwf & _).
  exists p'. split_and!; [done|rewrite Hv; by vm_compute|rewrite Hr; by vm_compute|done].
Defined.

Lemma first_connection_cleans_witness :
  exists b', create_thread_local_db 5 {| db_init := false; boot_tokens := Perboot.new; disk := old_file |} = Ok b' /\ db_init b' = true.
Proof.
  destruct (create_thread_local_db 5 {| db_init := false; boot_tokens := Perboot.new; disk := old_file |}) as [b'| |] eqn:E; [|by vm_compute in E..].
  exists b'. split; [done|]. exact (proj1 (first_connection_cleans _ _ _ E old_file_ok)).
Defined.
