(* ===== verification/KeyIdLock.v ===== *)
(** * Key id locks ([KeyIdLockDb] and [KeyIdGuard] of database.rs)

    Threads lock key ids before they load or change a key.  The set of locked
    ids is behind a mutex with a condition variable; each section under the
    mutex is one step, and a dropped guard notifies the waiting threads after
    it has left the mutex. *)

From stdpp Require Import base list gmap sets.
From Stdlib Require Import ZArith Lia.
From S2P Require Import Prelude.

(** Where a thread is: not in the lock, about to test the set in [get],
    waiting on the condition variable, or between the removal of its id and
    [notify_all]. *)
Inductive Pc := Idle | Getting (key_id : Z) | Parked (key_id : Z) | Notifying.
#[global] Instance Pc_eq_dec : EqDecision Pc.
Proof. solve_decision. Defined.

(** The locked ids, the threads, and the guards with the thread that holds
    each. *)
Record KeyIdLockDb := {
  locked_keys : gset Z;
  threads : gmap Z Pc;
  guards : list (Z * Z)
}.

Definition new : KeyIdLockDb := {| locked_keys := ∅; threads := ∅; guards := [] |}.
Definition pc (s : KeyIdLockDb) (t : Z) : Pc := default Idle (threads s !! t).
Definition set_pc (t : Z) (p : Pc) (s : KeyIdLockDb) : KeyIdLockDb :=
  {| locked_keys := locked_keys s; threads := <[t := p]> (threads s); guards := guards s |}.

(** The id inserted and a new guard. *)
Definition lock (t key_id : Z) (s : KeyIdLockDb) : KeyIdLockDb :=
  {| locked_keys := {[key_id]} ∪ locked_keys s; threads := <[t := Idle]> (threads s); guards := (t, key_id) :: guards s |}.

(** One test of the [while] loop in [get]. *)
Definition get_test (t key_id : Z) (s : KeyIdLockDb) : KeyIdLockDb :=
  if bool_decide (key_id ∈ locked_keys s) then set_pc t (Parked key_id) s else lock t key_id s.

Definition try_get (t key_id : Z) (s : KeyIdLockDb) : bool * KeyIdLockDb :=
  if bool_decide (key_id ∈ locked_keys s) then (false, s) else (true, lock t key_id s).

Definition wake (p : Pc) : Pc := match p with Parked k => Getting k | p => p end.
Definition notify_all (t : Z) (s : KeyIdLockDb) : KeyIdLockDb :=
  {| locked_keys := locked_keys s; threads := <[t := Idle]> (wake <$> threads s); guards := guards s |}.

(** [Drop for KeyIdGuard], up to the notification. *)
Definition drop_guard (t key_id : Z) (s : KeyIdLockDb) : KeyIdLockDb :=
  {| locked_keys := locked_keys s ∖ {[key_id]}; threads := <[t := Notifying]> (threads s);
     guards := filter (fun g => g <> (t, key_id)) (guards s) |}.

(** What the code does. *)
Inductive act (s : KeyIdLockDb) : KeyIdLockDb -> Prop :=
| act_get t k : pc s t = Idle -> act s (set_pc t (Getting k) s)
| act_test t k : pc s t = Getting k -> act s (get_test t k s)
| act_try_get t k : pc s t = Idle -> act s (try_get t k s).2
| act_drop t k : pc s t = Idle -> (t, k) ∈ guards s -> act s (drop_guard t k s)
| act_notify t : pc s t = Notifying -> act s (notify_all t s).
(** What may happen: the platform may also wake a waiting thread for no
    reason.  Safety has to survive that; progress must not rely on it. *)
Inductive step (s : KeyIdLockDb) : KeyIdLockDb -> Prop :=
| step_act s' : act s s' -> step s s'
| step_spurious t k : pc s t = Parked k -> step s (set_pc t (Getting k) s).

Inductive reachable : KeyIdLockDb -> Prop :=
| reach_new : reachable new
| reach_step s s' : reachable s -> step s s' -> reachable s'.

Inductive acts : nat -> KeyIdLockDb -> KeyIdLockDb -> Prop :=
| acts_O s : acts 0 s s
| acts_S n s s' s'' : act s s' -> acts n s' s'' -> acts (S n) s s''.

(** ** Mutual exclusion and no lost wake up *)

Record lock_inv (s : KeyIdLockDb) : Prop := {
  inv_once : NoDup (snd <$> guards s);
  inv_locked k : k ∈ locked_keys s <-> exists t, (t, k) ∈ guards s;
  inv_parked t k : pc s t = Parked k -> k ∈ locked_keys s \/ exists t', pc s t' = Notifying
}.

Lemma pc_set t p s t' : pc (set_pc t p s) t' = if decide (t = t') then p else pc s t'.
Proof. unfold pc. simpl. case_decide; subst; [by rewrite lookup_insert_eq|by rewrite lookup_insert_ne]. Qed.
Lemma pc_insert t p m l g t' :
  pc {| locked_keys := l; threads := <[t := p]> m; guards := g |} t' = if decide (t = t') then p else default Idle (m !! t').
Proof. unfold pc. simpl. case_decide; subst; [by rewrite lookup_insert_eq|by rewrite lookup_insert_ne]. Qed.

Lemma lock_keeps t k s : k ∉ locked_keys s -> pc s t <> Notifying -> lock_inv s -> lock_inv (lock t k s).
Proof.
  intros Hk Ht [H1 H2 H3]. split; simpl.
  - constructor; [|done]. intros ([t' k'] & -> & Hin)%list_elem_of_fmap. apply Hk, H2. eauto.
  - intros k'. rewrite elem_of_union, elem_of_singleton, H2. setoid_rewrite elem_of_cons. naive_solver.
  - intros t' k'. unfold lock. rewrite pc_insert. case_decide; [done|]. intros Hp.
    destruct (H3 t' k' Hp) as [|[t2 Ht2]]; [left; set_solver|right]. exists t2.
    rewrite pc_insert. case_decide; [by subst|done].
Qed.

Lemma lock_inv_step s s' : step s s' -> lock_inv s -> lock_inv s'.
Proof.
  intros [s1 [t k Ht|t k Ht|t k Ht|t k Ht Hg|t Ht]|t k Ht] Hinv; pose proof Hinv as [H1 H2 H3].
  - split; [done|done|]. intros t' k'. rewrite pc_set. case_decide; [done|]. intros Hp.
    destruct (H3 t' k' Hp) as [|[t2 Ht2]]; [by left|right]. exists t2. rewrite pc_set. case_decide; congruence.
  - unfold get_test. case_bool_decide as Hk; [|apply lock_keeps; [done|by rewrite Ht|done]].
    split; [done|done|]. intros t' k'. rewrite pc_set. case_decide; [intros; simplify_eq; by left|]. intros Hp.
    destruct (H3 t' k' Hp) as [|[t2 Ht2]]; [by left|right]. exists t2. rewrite pc_set. case_decide; congruence.
  - unfold try_get. case_bool_decide as Hk; [done|]. apply lock_keeps; [done|by rewrite Ht|done].
  - split; simpl.
    + by apply NoDup_fmap_filter.
    + intros k'. rewrite elem_of_difference, elem_of_singleton, H2. split.
      * intros [[t' Hin] Hne]. exists t'. apply list_elem_of_filter. split; [congruence|done].
      * intros [t' [Hne Hin]%list_elem_of_filter]. split; [eauto|]. intros ->.
        assert ((t', k) = (t, k)) by (by apply (NoDup_fmap_inj snd (guards s))). congruence.
    + intros t' k' _. right. exists t. unfold drop_guard. rewrite pc_insert. by case_decide.
  - split; [done|done|]. intros t' k'. unfold notify_all. rewrite pc_insert. case_decide; [done|].
    rewrite lookup_fmap. destruct (threads s !! t') as [[]|]; done.
  - split; [done|done|]. intros t' k'. rewrite pc_set. case_decide; [done|]. intros Hp.
    destruct (H3 t' k' Hp) as [|[t2 Ht2]]; [by left|right]. exists t2. rewrite pc_set. case_decide; congruence.
Qed.

Lemma lock_reachable_inv s : reachable s -> lock_inv s.
Proof.
  induction 1 as [|s s' _ IH Hs]; [|by eapply lock_inv_step]. split; simpl; [constructor|set_solver|done].
Qed.

(** C15: Whatever threads do, a key id has at most one guard; [get] and [try_get]
    hand one out only for an id without one; and no wake up is lost: once the
    guard of an id is gone, a thread that waits for it, however long it has
    been waiting and whoever else is, gets it with at most two actions of the
    code, the pending notification and its own test, and without the help of
    a spurious wake up. *)
Theorem key_locks_exclusive s :
  reachable s ->
  (forall t t' k, (t, k) ∈ guards s -> (t', k) ∈ guards s -> t = t') /\ NoDup (snd <$> guards s) /\
  (forall t k, (try_get t k s).1 = true <-> forall t', (t', k) ∉ guards s) /\
  (forall t k, pc s t = Parked k \/ pc s t = Getting k -> (forall t', (t', k) ∉ guards s) ->
     exists n s', (n <= 2)%nat /\ acts n s s' /\ (t, k) ∈ guards s').
Proof.
  intros Hr%lock_reachable_inv. destruct Hr as [H1 H2 H3]. split_and!.
  - intros t t' k Ht Ht'. assert ((t, k) = (t', k)) by (by apply (NoDup_fmap_inj snd (guards s))). congruence.
  - done.
  - intros t k. unfold try_get. case_bool_decide as Hk; simpl.
    + apply H2 in Hk as [t' Ht']. split; [done|]. intros Hn. by destruct (Hn t').
    + split; [|done]. intros _ t' Ht'. apply Hk, H2. eauto.
  - intros t k Hp Hfree. assert (k ∉ locked_keys s) as Hk by (intros [t' ?]%H2; by destruct (Hfree t')).
    assert (forall s1, locked_keys s1 = locked_keys s -> pc s1 t = Getting k ->
              exists s', act s1 s' /\ (t, k) ∈ guards s') as Htest.
    { intros s1 Hl Hg. exists (get_test t k s1). split; [by apply act_test|].
      unfold get_test. rewrite bool_decide_false by (by rewrite Hl). simpl. by left. }
    destruct Hp as [Hp|Hp].
    + destruct (H3 t k Hp) as [?|[t2 Ht2]]; [done|].
      destruct (Htest (notify_all t2 s)) as (s' & Hs & Hin); [done| |].
      { unfold notify_all. rewrite pc_insert. case_decide; [subst; congruence|]. rewrite lookup_fmap.
        unfold pc in Hp. destruct (threads s !! t) as [x|]; simpl in *; [by rewrite Hp|done]. }
      exists 2%nat, s'. split; [lia|]. split; [|done]. econstructor; [by apply (act_notify s t2)|]. by econstructor; [|constructor].
    + destruct (Htest s) as (s' & Hs & Hin); [done|done|]. exists 1%nat, s'. split; [lia|]. split; [|done]. by econstructor; [|constructor].
Qed.

(** Thread 1 holds key 5, thread 2 waits for it, thread 1 has just let go. *)
Definition handover : KeyIdLockDb := drop_guard 1 5 (get_test 2 5 (set_pc 2 (Getting 5) (try_get 1 5 new).2)).

Lemma key_locks_exclusive_witness :
  reachable handover /\ pc handover 2 = Parked 5 /\ exists n s', (n <= 2)%nat /\ acts n handover s' /\ (2, 5) ∈ guards s'.
Proof.
  assert (reachable handover) as Hr.
  { eapply reach_step; [|apply step_act, (act_drop _ 1 5); [by vm_compute|by left]].
    eapply reach_step; [|apply step_act, (act_test _ 2 5); by vm_compute].
    eapply reach_step; [|apply step_act, (act_get _ 2 5); by vm_compute].
    eapply reach_step; [apply reach_new|apply step_act, (act_try_get _ 1 5); by vm_compute]. }
  split_and!; [done|by vm_compute|]. apply (key_locks_exclusive handover Hr); [left; by vm_compute|].
  intros t' Hin. by vm_compute in Hin; apply not_elem_of_nil in Hin.
Defined.
