(* ===== verification/SystemProperty.v ===== *)
(** * System properties ([system_property/lib.rs]) and the boot level watcher

    A property of the platform has a value and a serial number that grows with
    every change; the C functions find a property, call back with its value
    and block until a serial number differs from the one given.  A
    [PropertyWatcher] remembers whether it has found its property and the
    serial number its last wait ended with.  [watch_boot_level] of super_key.rs
    reads [keystore.boot_level] and waits, in a loop. *)

From stdpp Require Import base list gmap strings.
From Stdlib Require Import ZArith Lia.
From S2P Require Import Prelude Aidl Errors KeyParameter DbTypes Database BootLevelKeys Crypto RawDevice SuperKey LegacyAlias.

Inductive PropertyWatcherError :=
| BadNameError | SystemPropertyAbsent | WaitFailed | ReadCallbackNotCalled | MissingCString | BadCString | CallbackError (e : AnyError)
| SetPropertyFailed.

Record Property := { value : string; serial : Z }.
(** The properties of the device. *)
Abbreviation Properties := (gmap string Property).

Record PropertyWatcher := {
  prop_name : string;
  prop_info : bool;
  w_serial : Z
}.

(** [PropertyWatcher::new]; the names used contain no zero byte. *)
Definition watcher_new (name : string) : PropertyWatcher := {| prop_name := name; prop_info := false; w_serial := 0 |}.

(** [get_prop_info]: a property that was found stays found. *)
Definition get_prop_info (ps : Properties) (w : PropertyWatcher) : option Property * PropertyWatcher :=
  match ps !! prop_name w with
  | Some p => (Some p, {| prop_name := prop_name w; prop_info := true; w_serial := w_serial w |})
  | None => (None, w)
  end.

Definition read {T} (ps : Properties) (f : string -> result AnyError T) (w : PropertyWatcher)
    : result PropertyWatcherError T * PropertyWatcher :=
  match get_prop_info ps w with
  | (None, w) => (Err SystemPropertyAbsent, w)
  | (Some p, w) => (if utf8_valid (value p) then map_err CallbackError (f (value p)) else Err BadCString, w)
  end.

(** Whether [wait] can return, and the watcher it leaves: it waits for the
    property to exist, or for its serial number to change. *)
Definition wait (ps : Properties) (w : PropertyWatcher) : option PropertyWatcher :=
  if prop_info w then
    match ps !! prop_name w with
    | Some p => if serial p =? w_serial w then None
                else Some {| prop_name := prop_name w; prop_info := true; w_serial := serial p |}
    | None => None
    end
  else match get_prop_info ps w with (Some _, w) => Some w | (None, _) => None end.

(** [write]: the platform's answer is an argument.  The serial number of a
    property is a [u32] of the platform that changes with every write; here it
    is a number that grows by one, so that two writes never have the same
    serial (on a device that takes 2^32 writes between two looks). *)
Definition write (accepted : bool) (name v : string) (ps : Properties) : result PropertyWatcherError unit * Properties :=
  if accepted then
    (Ok tt, <[name := {| value := v; serial := match ps !! name with Some p => serial p + 1 | None => 0 end |}]> ps)
  else (Err SetPropertyFailed, ps).

(** ** Watching the boot level *)

Definition boot_level_name : string := "keystore.boot_level".

(** [v.parse::<usize>()]. *)
Definition parse_level (v : string) : result AnyError Z := ok_or (parse_unsigned (2^64) v) OtherError.

Section BootLevel.
Context {AI : Aidl} {BO : Boring}.

(** The thread: about to read, in [wait], or at its end. *)
Inductive Watching := Reading | InWait | Ended.

(** [handled]: the value the thread last acted upon. *)
Record BootWatch := {
  properties : Properties;
  watcher : PropertyWatcher;
  watching : Watching;
  skm : Skm;
  handled : option string
}.

(** The body of the loop up to the wait. *)
Definition watch_boot_level_read (b : BootWatch) : BootWatch :=
  let '(r, w) := read (properties b) parse_level (watcher b) in
  match r with
  | Ok level =>
    let '(go_on, s) := watch_boot_level_step level (skm b) in
    {| properties := properties b; watcher := w; skm := s; handled := value <$> properties b !! prop_name w;
       watching := match go_on with Ok true => InWait | _ => Ended end |}
  | _ => {| properties := properties b; watcher := w; skm := skm b; handled := handled b; watching := Ended |}
  end.

(** The thread, and the rest of the device setting properties. *)
Inductive step (b : BootWatch) : BootWatch -> Prop :=
| step_read : watching b = Reading -> step b (watch_boot_level_read b)
| step_wait w : watching b = InWait -> wait (properties b) (watcher b) = Some w ->
    step b {| properties := properties b; watcher := w; watching := Reading; skm := skm b; handled := handled b |}
| step_write accepted name v r ps : write accepted name v (properties b) = (r, ps) ->
    step b {| properties := ps; watcher := watcher b; watching := watching b; skm := skm b; handled := handled b |}
| step_skm s : step b {| properties := properties b; watcher := watcher b; watching := watching b; skm := s; handled := handled b |}.

Inductive reachable (ps : Properties) (s : Skm) : BootWatch -> Prop :=
| reach_start : reachable ps s {| properties := ps; watcher := watcher_new boot_level_name; watching := Reading; skm := s; handled := None |}
| reach_step b b' : reachable ps s b -> step b b' -> reachable ps s b'.

(** The serial number of the boot level, at least the one the watcher has
    seen; while the thread waits, an equal one means that the value it handled
    is the current one. *)
Record watch_inv (b : BootWatch) : Prop := {
  inv_name : prop_name (watcher b) = boot_level_name;
  inv_unseen : prop_info (watcher b) = false -> w_serial (watcher b) = 0;
  inv_serial p : properties b !! boot_level_name = Some p -> w_serial (watcher b) <= serial p;
  inv_found : prop_info (watcher b) = true -> is_Some (properties b !! boot_level_name);
  inv_wait : watching b = InWait -> prop_info (watcher b) = true /\
    forall p, properties b !! boot_level_name = Some p -> serial p = w_serial (watcher b) -> handled b = Some (value p)
}.

Lemma inv_read b : watch_inv b -> watch_inv (watch_boot_level_read b).
Proof.
  intros [H1 Hz H2 H3 _]. unfold watch_boot_level_read, read, get_prop_info. rewrite H1.
  destruct (properties b !! boot_level_name) as [p|] eqn:Ep; [|by split; simpl; rewrite ?Ep].
  destruct (utf8_valid (value p)); [destruct (parse_level (value p)) as [l| |]; simpl|];
    [destruct (watch_boot_level_step l (skm b)) as [go s]|..]; (split; simpl; rewrite ?Ep; [done|done| |by eauto|]);
    try (intros; simplify_eq; by apply H2); try done.
  intros Hw. split; [done|]. intros p' Hp' _. by simplify_eq.
Qed.

Lemma write_serial accepted name v ps r ps' k p' :
  write accepted name v ps = (r, ps') -> ps' !! k = Some p' ->
  match ps !! k with Some p => serial p <= serial p' /\ (serial p = serial p' -> p = p') | None => serial p' = 0 end.
Proof.
  unfold write. destruct accepted; intros [= _ <-] Hk; [|rewrite Hk; split; [lia|done]].
  destruct (decide (name = k)) as [->|Hne].
  - rewrite lookup_insert_eq in Hk. destruct (ps !! k) as [p|]; simplify_eq; simpl; [split; lia|done].
  - rewrite lookup_insert_ne in Hk by done. rewrite Hk. split; [lia|done].
Qed.

Lemma write_keeps accepted name v ps r ps' k :
  write accepted name v ps = (r, ps') -> is_Some (ps !! k) -> is_Some (ps' !! k).
Proof.
  unfold write. destruct accepted; intros [= _ <-] Hk; [|done]. destruct (decide (name = k)) as [->|Hne];
    [rewrite lookup_insert_eq|rewrite lookup_insert_ne]; eauto.
Qed.

Lemma prop_inv_step b b' : step b b' -> watch_inv b -> watch_inv b'.
Proof.
  intros [Hr|w Hw Hwait|accepted name v r ps Hps|s] Hinv; [by apply inv_read| | |by destruct Hinv].
  - destruct Hinv as [H1 Hz H2 H3 H4]. unfold wait in Hwait. destruct (H4 Hw) as [Hi _]. rewrite Hi, H1 in Hwait.
    destruct (properties b !! boot_level_name) as [p|] eqn:Ep; [|done]. destruct (serial p =? _); [done|]. simplify_eq.
    split; simpl; rewrite ?Ep; [done|done|intros; by simplify_eq|eauto|done].
  - destruct Hinv as [H1 Hz H2 H3 H4]. split; simpl; [done|done| | |].
    + intros p' Hp'. pose proof (write_serial _ _ _ _ _ _ _ _ Hps Hp') as Hs.
      destruct (properties b !! boot_level_name) as [p|] eqn:Ep; [specialize (H2 p eq_refl); lia|].
      destruct (prop_info (watcher b)) eqn:Ei; [destruct (H3 eq_refl); congruence|]. rewrite Hz by done. lia.
    + intros Hi. exact (write_keeps _ _ _ _ _ _ _ Hps (H3 Hi)).
    + intros Hw. destruct (H4 Hw) as [Hi Hh]. split; [done|]. intros p' Hp' Hs'.
      pose proof (write_serial _ _ _ _ _ _ _ _ Hps Hp') as Hs. destruct (H3 Hi) as [p Hp]. rewrite Hp in Hs.
      specialize (H2 p Hp). destruct Hs as [Hle Heq]. rewrite <- Heq by lia. apply Hh; [done|lia].
Qed.
Lemma prop_reachable_inv ps s b :
  (forall p, ps !! boot_level_name = Some p -> 0 <= serial p) -> reachable ps s b -> watch_inv b.
Proof. intros Hps. induction 1 as [|b b' _ IH Hs]; [|by eapply prop_inv_step]. split; try done. Qed.

(** C36: No boot level is missed: when the watcher thread is blocked, the value of
    [keystore.boot_level] it last acted upon is the current one, whatever
    other threads and processes do in between. *)
Theorem boot_level_not_missed ps s b p :
  (forall p, ps !! boot_level_name = Some p -> 0 <= serial p) -> reachable ps s b ->
  watching b = InWait -> wait (properties b) (watcher b) = None -> properties b !! boot_level_name = Some p ->
  handled b = Some (value p).
Proof.
  intros Hps Hr Hw Hb Hp. destruct (prop_reachable_inv _ _ _ Hps Hr) as [H1 _ H2 H3 H4]. destruct (H4 Hw) as [Hi Hh].
  apply Hh; [done|]. unfold wait in Hb. rewrite Hi, H1, Hp in Hb. destruct (Z.eqb_spec (serial p) (w_serial (watcher b))); [done|done].
Qed.
End BootLevel.

#[local] Existing Instance aidl_published.
#[local] Existing Instance toy_boring.

(** The level is ten when the thread starts; its first wait returns at once,
    its second blocks. *)
Definition level_ten : Properties := {[boot_level_name := {| value := "10"; serial := 4 |}]}.
Definition cached : Skm := with_cache (Some (new_cache [7])) new_skm.
Definition watch_start : BootWatch :=
  {| properties := level_ten; watcher := watcher_new boot_level_name; watching := Reading; skm := cached; handled := None |}.
Definition read_once : BootWatch := watch_boot_level_read watch_start.
Definition waited : BootWatch :=
  {| properties := level_ten; watcher := {| prop_name := boot_level_name; prop_info := true; w_serial := 4 |}; watching := Reading;
     skm := skm read_once; handled := handled read_once |}.

Lemma boot_level_not_missed_witness :
  exists b, reachable level_ten cached b /\ watching b = InWait /\ wait (properties b) (watcher b) = None /\ handled b = Some "10"%string.
Proof.
  exists (watch_boot_level_read waited).
  assert (reachable level_ten cached (watch_boot_level_read waited)) as Hr.
  { eapply reach_step; [|by apply step_read]. eapply reach_step; [|by apply (step_wait read_once); vm_compute].
    eapply reach_step; [apply reach_start|by apply step_read]. }
  split_and!; [done|by vm_compute|by vm_compute|].
  apply (boot_level_not_missed level_ten cached _ {| value := "10"; serial := 4 |}); [|done|by vm_compute..].
  intros p Hp. vm_compute in Hp. by simplify_eq.
Defined.
