(* ===== verification/Metrics.v ===== *)
(** * Metrics ([metrics_store.rs], [metrics.rs])

    Key creations, operations and provisioning errors are counted in memory,
    one count per combination of properties, until the statistics service asks
    for them.  The enums of the metrics interface repeat those of KeyMint with
    an additional unspecified value: a value is an [option], with [None] for
    that one.  An inner hash map is an association list. *)

From stdpp Require Import base list gmap strings.
From Stdlib Require Import ZArith Lia Ascii.
From S2P Require Import Prelude Aidl Errors Sql KeyParameter Perboot Permission Operation DbTypes Database DbAttestation LegacyAlias SystemProperty.

(** ** The vocabulary *)

Module BlockModeName.
Inductive name := ECB | CBC | CTR | GCM.
#[global] Instance name_eq_dec : EqDecision name.
Proof. solve_decision. Defined.
Definition all : list name := [ECB; CBC; CTR; GCM].
End BlockModeName.

Module DigestName.
Inductive name := NONE | MD5 | SHA1 | SHA_2_224 | SHA_2_256 | SHA_2_384 | SHA_2_512.
#[global] Instance name_eq_dec : EqDecision name.
Proof. solve_decision. Defined.
Definition all : list name := [NONE; MD5; SHA1; SHA_2_224; SHA_2_256; SHA_2_384; SHA_2_512].
End DigestName.

Module PaddingModeName.
Inductive name := NONE | RSA_OAEP | RSA_PSS | RSA_PKCS1_1_5_ENCRYPT | RSA_PKCS1_1_5_SIGN | PKCS7.
#[global] Instance name_eq_dec : EqDecision name.
Proof. solve_decision. Defined.
Definition all : list name := [NONE; RSA_OAEP; RSA_PSS; RSA_PKCS1_1_5_ENCRYPT; RSA_PKCS1_1_5_SIGN; PKCS7].
End PaddingModeName.

Module EcCurveName.
Inductive name := P_224 | P_256 | P_384 | P_521.
#[global] Instance name_eq_dec : EqDecision name.
Proof. solve_decision. Defined.
Definition all : list name := [P_224; P_256; P_384; P_521].
End EcCurveName.

Module KeyOriginName.
Inductive name := GENERATED | DERIVED | IMPORTED | RESERVED | SECURELY_IMPORTED.
#[global] Instance name_eq_dec : EqDecision name.
Proof. solve_decision. Defined.
Definition all : list name := [GENERATED; DERIVED; IMPORTED; RESERVED; SECURELY_IMPORTED].
End KeyOriginName.

Module AuthTypeName.
Inductive name := NONE | PASSWORD | FINGERPRINT | ANY.
#[global] Instance name_eq_dec : EqDecision name.
Proof. solve_decision. Defined.
Definition all : list name := [NONE; PASSWORD; FINGERPRINT; ANY].
End AuthTypeName.

Definition all_algorithms : list Algorithm.name := [Algorithm.RSA; Algorithm.EC; Algorithm.AES; Algorithm.TRIPLE_DES; Algorithm.HMAC].
Definition all_purposes : list KeyPurpose.name :=
  [KeyPurpose.ENCRYPT; KeyPurpose.DECRYPT; KeyPurpose.SIGN; KeyPurpose.VERIFY; KeyPurpose.WRAP_KEY; KeyPurpose.AGREE_KEY; KeyPurpose.ATTEST_KEY].
Definition all_levels : list SecurityLevel.name :=
  [SecurityLevel.SOFTWARE; SecurityLevel.TRUSTED_ENVIRONMENT; SecurityLevel.STRONGBOX; SecurityLevel.KEYSTORE].

(** The numbers of the KeyMint enums only metrics looks at. *)
Class MetricsAidl := {
  #[global] aidl_block_mode :: AidlEnum BlockModeName.name;
  #[global] aidl_digest :: AidlEnum DigestName.name;
  #[global] aidl_padding_mode :: AidlEnum PaddingModeName.name;
  #[global] aidl_ec_curve :: AidlEnum EcCurveName.name;
  #[global] aidl_key_origin :: AidlEnum KeyOriginName.name;
  #[global] aidl_auth_type :: AidlEnum AuthTypeName.name
}.

Inductive AtomID :=
| STORAGE_STATS | RKP_POOL_STATS | CRASH_STATS | KEYSTORE2_ATOM_WITH_OVERFLOW | KEY_CREATION_WITH_GENERAL_INFO
| KEY_CREATION_WITH_AUTH_INFO | KEY_CREATION_WITH_PURPOSE_AND_MODES_INFO | KEY_OPERATION_WITH_GENERAL_INFO
| KEY_OPERATION_WITH_PURPOSE_AND_MODES_INFO | RKP_ERROR_STATS.
#[global] Instance AtomID_eq_dec : EqDecision AtomID.
Proof. solve_decision. Defined.
Definition all_atoms : list AtomID :=
  [STORAGE_STATS; RKP_POOL_STATS; CRASH_STATS; KEYSTORE2_ATOM_WITH_OVERFLOW; KEY_CREATION_WITH_GENERAL_INFO;
   KEY_CREATION_WITH_AUTH_INFO; KEY_CREATION_WITH_PURPOSE_AND_MODES_INFO; KEY_OPERATION_WITH_GENERAL_INFO;
   KEY_OPERATION_WITH_PURPOSE_AND_MODES_INFO; RKP_ERROR_STATS].
Definition atom_index (a : AtomID) : nat := default 0%nat (fst <$> list_find (eq a) all_atoms).
#[global] Instance AtomID_countable : Countable AtomID.
Proof. apply (inj_countable' atom_index (fun n => default STORAGE_STATS (all_atoms !! n))). by intros []. Defined.

(** What is counted. *)
Record KeyCreationWithGeneralInfo := {
  gi_algorithm : option Algorithm.name;
  gi_key_size : Z;
  gi_ec_curve : option EcCurveName.name;
  gi_key_origin : option KeyOriginName.name;
  gi_error_code : Z;
  gi_attestation_requested : bool
}.
Record KeyCreationWithAuthInfo := {
  ai_user_auth_type : option AuthTypeName.name;
  ai_log10_auth_key_timeout_seconds : Z;
  ai_security_level : option SecurityLevel.name
}.
Record KeyCreationWithPurposeAndModesInfo := {
  pm_algorithm : option Algorithm.name;
  pm_purpose_bitmap : Z;
  pm_padding_mode_bitmap : Z;
  pm_digest_bitmap : Z;
  pm_block_mode_bitmap : Z
}.
Inductive MetricsOutcome := DROPPED | SUCCESS | ABORT | PRUNED | ERROR.
Record KeyOperationWithGeneralInfo := {
  og_outcome : MetricsOutcome;
  og_error_code : Z;
  og_key_upgraded : bool;
  og_security_level : option SecurityLevel.name
}.
Record KeyOperationWithPurposeAndModesInfo := {
  op_purpose : option KeyPurpose.name;
  op_padding_mode_bitmap : Z;
  op_digest_bitmap : Z;
  op_block_mode_bitmap : Z
}.
Inductive MetricsStorage :=
| DATABASE | KEY_ENTRY | KEY_ENTRY_ID_INDEX | KEY_ENTRY_DOMAIN_NAMESPACE_INDEX | BLOB_ENTRY | BLOB_ENTRY_KEY_ENTRY_ID_INDEX
| KEY_PARAMETER | KEY_PARAMETER_KEY_ENTRY_ID_INDEX | KEY_METADATA | KEY_METADATA_KEY_ENTRY_ID_INDEX | GRANT | AUTH_TOKEN
| BLOB_METADATA | BLOB_METADATA_BLOB_ENTRY_ID_INDEX | OtherStorage (n : Z).
#[global] Instance MetricsStorage_eq_dec : EqDecision MetricsStorage.
Proof. solve_decision. Defined.
Record StorageStats := { storage_type : MetricsStorage; size : Z; unused_size : Z }.
Record RkpPoolStats := { rkp_level : option SecurityLevel.name; rkp_status : AttestationPoolStatus }.

#[global] Instance MetricsOutcome_eq_dec : EqDecision MetricsOutcome.
Proof. solve_decision. Defined.
#[global] Instance AttestationPoolStatus_eq_dec : EqDecision AttestationPoolStatus.
Proof. solve_decision. Defined.
#[global] Instance KeyCreationWithGeneralInfo_eq_dec : EqDecision KeyCreationWithGeneralInfo.
Proof. solve_decision. Defined.
#[global] Instance KeyCreationWithAuthInfo_eq_dec : EqDecision KeyCreationWithAuthInfo.
Proof. solve_decision. Defined.
#[global] Instance KeyCreationWithPurposeAndModesInfo_eq_dec : EqDecision KeyCreationWithPurposeAndModesInfo.
Proof. solve_decision. Defined.
#[global] Instance KeyOperationWithGeneralInfo_eq_dec : EqDecision KeyOperationWithGeneralInfo.
Proof. solve_decision. Defined.
#[global] Instance KeyOperationWithPurposeAndModesInfo_eq_dec : EqDecision KeyOperationWithPurposeAndModesInfo.
Proof. solve_decision. Defined.
#[global] Instance StorageStats_eq_dec : EqDecision StorageStats.
Proof. solve_decision. Defined.
#[global] Instance RkpPoolStats_eq_dec : EqDecision RkpPoolStats.
Proof. solve_decision. Defined.

Inductive KeystoreAtomPayload :=
| PStorageStats (s : StorageStats)
| PRkpPoolStats (s : RkpPoolStats)
| PCrashStats (count : Z)
| PKeystore2AtomWithOverflow (id : AtomID)
| PKeyCreationWithGeneralInfo (i : KeyCreationWithGeneralInfo)
| PKeyCreationWithAuthInfo (i : KeyCreationWithAuthInfo)
| PKeyCreationWithPurposeAndModesInfo (i : KeyCreationWithPurposeAndModesInfo)
| PKeyOperationWithGeneralInfo (i : KeyOperationWithGeneralInfo)
| PKeyOperationWithPurposeAndModesInfo (i : KeyOperationWithPurposeAndModesInfo)
| PRkpErrorStats (rkp_error : Z).
#[global] Instance KeystoreAtomPayload_eq_dec : EqDecision KeystoreAtomPayload.
Proof. solve_decision. Defined.

(** ** The store *)

Definition MetricsStore : Type := gmap AtomID (list (KeystoreAtomPayload * Z)).

Definition SINGLE_ATOM_STORE_MAX_SIZE : nat := 250.

(** [*map.entry(atom).or_insert(0) += 1]. *)
Fixpoint bump (atom : KeystoreAtomPayload) (m : list (KeystoreAtomPayload * Z)) : list (KeystoreAtomPayload * Z) :=
  match m with
  | [] => [(atom, 1)]
  | (a, n) :: m => if decide (a = atom) then (a, as_i32 (n + 1)) :: m else (a, n) :: bump atom m
  end.

Definition insert_atom (atom_id : AtomID) (atom : KeystoreAtomPayload) (s : MetricsStore) : MetricsStore :=
  let atom_count_map := default [] (s !! atom_id : option (list (KeystoreAtomPayload * Z))) in
  if (length atom_count_map <? SINGLE_ATOM_STORE_MAX_SIZE)%nat then <[atom_id := bump atom atom_count_map]> s
  else
    let s := <[atom_id := atom_count_map]> s in
    let overflow := default [] (s !! KEYSTORE2_ATOM_WITH_OVERFLOW : option (list (KeystoreAtomPayload * Z))) in
    if (length overflow <? SINGLE_ATOM_STORE_MAX_SIZE)%nat
    then <[KEYSTORE2_ATOM_WITH_OVERFLOW := bump (PKeystore2AtomWithOverflow atom_id) overflow]> s
    else <[KEYSTORE2_ATOM_WITH_OVERFLOW := overflow]> s.

(** ** Bitmaps *)

Definition padding_bit (p : PaddingModeName.name) : Z :=
  match p with
  | PaddingModeName.NONE => 0 | PaddingModeName.RSA_OAEP => 1 | PaddingModeName.RSA_PSS => 2
  | PaddingModeName.RSA_PKCS1_1_5_ENCRYPT => 3 | PaddingModeName.RSA_PKCS1_1_5_SIGN => 4 | PaddingModeName.PKCS7 => 5
  end.
Definition digest_bit (d : DigestName.name) : Z :=
  match d with
  | DigestName.NONE => 0 | DigestName.MD5 => 1 | DigestName.SHA1 => 2 | DigestName.SHA_2_224 => 3 | DigestName.SHA_2_256 => 4
  | DigestName.SHA_2_384 => 5 | DigestName.SHA_2_512 => 6
  end.
Definition block_mode_bit (b : BlockModeName.name) : Z :=
  match b with BlockModeName.ECB => 1 | BlockModeName.CBC => 2 | BlockModeName.CTR => 3 | BlockModeName.GCM => 4 end.
Definition purpose_bit (p : KeyPurpose.name) : Z :=
  match p with
  | KeyPurpose.ENCRYPT => 1 | KeyPurpose.DECRYPT => 2 | KeyPurpose.SIGN => 3 | KeyPurpose.VERIFY => 4 | KeyPurpose.WRAP_KEY => 5
  | KeyPurpose.AGREE_KEY => 6 | KeyPurpose.ATTEST_KEY => 7
  end.

(** Sets the bit of a value that has one. *)
Definition set_bit {N} (bit : N -> Z) (bitmap : Z) (n : option N) : Z :=
  match n with Some n => Z.lor bitmap (Z.shiftl 1 (bit n)) | None => bitmap end.

Section Events.
Context {AI : Aidl} {MA : MetricsAidl} (log10_f32 : Z -> Z).

Definition compute_padding_mode_bitmap (bitmap padding_mode : Z) : Z := set_bit padding_bit bitmap (name_of PaddingModeName.all padding_mode).
Definition compute_digest_bitmap (bitmap digest : Z) : Z := set_bit digest_bit bitmap (name_of DigestName.all digest).
Definition compute_block_mode_bitmap (bitmap block_mode : Z) : Z := set_bit block_mode_bit bitmap (name_of BlockModeName.all block_mode).
Definition compute_purpose_bitmap (bitmap purpose : Z) : Z := set_bit purpose_bit bitmap (name_of all_purposes purpose).

Definition process_security_level (level : Z) : option SecurityLevel.name := name_of all_levels level.

(** ** Events *)

(** The three atoms while the parameters are read. *)
Definition Creation : Type := KeyCreationWithGeneralInfo * KeyCreationWithAuthInfo * KeyCreationWithPurposeAndModesInfo.

Definition creation_param (c : Creation) (v : KeyParameterValue) : Creation :=
  let '(g, a, p) := c in
  match v with
  | Algorithm z =>
    let alg := name_of all_algorithms z in
    ({| gi_algorithm := alg; gi_key_size := gi_key_size g; gi_ec_curve := gi_ec_curve g; gi_key_origin := gi_key_origin g;
        gi_error_code := gi_error_code g; gi_attestation_requested := gi_attestation_requested g |}, a,
     {| pm_algorithm := alg; pm_purpose_bitmap := pm_purpose_bitmap p; pm_padding_mode_bitmap := pm_padding_mode_bitmap p;
        pm_digest_bitmap := pm_digest_bitmap p; pm_block_mode_bitmap := pm_block_mode_bitmap p |})
  | KeySize s =>
    ({| gi_algorithm := gi_algorithm g; gi_key_size := s; gi_ec_curve := gi_ec_curve g; gi_key_origin := gi_key_origin g;
        gi_error_code := gi_error_code g; gi_attestation_requested := gi_attestation_requested g |}, a, p)
  | KeyOrigin o =>
    ({| gi_algorithm := gi_algorithm g; gi_key_size := gi_key_size g; gi_ec_curve := gi_ec_curve g;
        gi_key_origin := name_of KeyOriginName.all o; gi_error_code := gi_error_code g;
        gi_attestation_requested := gi_attestation_requested g |}, a, p)
  | HardwareAuthenticatorType t =>
    (g, {| ai_user_auth_type := name_of AuthTypeName.all t; ai_log10_auth_key_timeout_seconds := ai_log10_auth_key_timeout_seconds a;
           ai_security_level := ai_security_level a |}, p)
  | AuthTimeout t =>
    (g, {| ai_user_auth_type := ai_user_auth_type a; ai_log10_auth_key_timeout_seconds := log10_f32 t;
           ai_security_level := ai_security_level a |}, p)
  | PaddingMode z =>
    (g, a, {| pm_algorithm := pm_algorithm p; pm_purpose_bitmap := pm_purpose_bitmap p;
              pm_padding_mode_bitmap := compute_padding_mode_bitmap (pm_padding_mode_bitmap p) z;
              pm_digest_bitmap := pm_digest_bitmap p; pm_block_mode_bitmap := pm_block_mode_bitmap p |})
  | Digest z =>
    (g, a, {| pm_algorithm := pm_algorithm p; pm_purpose_bitmap := pm_purpose_bitmap p; pm_padding_mode_bitmap := pm_padding_mode_bitmap p;
              pm_digest_bitmap := compute_digest_bitmap (pm_digest_bitmap p) z; pm_block_mode_bitmap := pm_block_mode_bitmap p |})
  | BlockMode z =>
    (g, a, {| pm_algorithm := pm_algorithm p; pm_purpose_bitmap := pm_purpose_bitmap p; pm_padding_mode_bitmap := pm_padding_mode_bitmap p;
              pm_digest_bitmap := pm_digest_bitmap p; pm_block_mode_bitmap := compute_block_mode_bitmap (pm_block_mode_bitmap p) z |})
  | KeyPurpose z =>
    (g, a, {| pm_algorithm := pm_algorithm p; pm_purpose_bitmap := compute_purpose_bitmap (pm_purpose_bitmap p) z;
              pm_padding_mode_bitmap := pm_padding_mode_bitmap p; pm_digest_bitmap := pm_digest_bitmap p;
              pm_block_mode_bitmap := pm_block_mode_bitmap p |})
  | EcCurve z =>
    ({| gi_algorithm := gi_algorithm g; gi_key_size := gi_key_size g; gi_ec_curve := name_of EcCurveName.all z;
        gi_key_origin := gi_key_origin g; gi_error_code := gi_error_code g;
        gi_attestation_requested := gi_attestation_requested g |}, a, p)
  | AttestationChallenge _ =>
    ({| gi_algorithm := gi_algorithm g; gi_key_size := gi_key_size g; gi_ec_curve := gi_ec_curve g; gi_key_origin := gi_key_origin g;
        gi_error_code := gi_error_code g; gi_attestation_requested := true |}, a, p)
  | _ => c
  end.

Definition creation_default (sec_level : Z) (error : option AnyError) : Creation :=
  ({| gi_algorithm := None; gi_key_size := -1; gi_ec_curve := None; gi_key_origin := None;
      gi_error_code := match error with Some e => get_error_code e | None => 1 end; gi_attestation_requested := false |},
   {| ai_user_auth_type := None; ai_log10_auth_key_timeout_seconds := -1; ai_security_level := process_security_level sec_level |},
   {| pm_algorithm := None; pm_purpose_bitmap := 0; pm_padding_mode_bitmap := 0; pm_digest_bitmap := 0; pm_block_mode_bitmap := 0 |}).

Definition process_key_creation_event_stats (sec_level : Z) (key_params : list KmKeyParameter) (error : option AnyError) : Creation :=
  let '(g, a, p) := fold_left creation_param (from_km <$> key_params) (creation_default sec_level error) in
  let g := if bool_decide (gi_algorithm g = Some Algorithm.EC)
           then {| gi_algorithm := gi_algorithm g; gi_key_size := -1; gi_ec_curve := gi_ec_curve g; gi_key_origin := gi_key_origin g;
                   gi_error_code := gi_error_code g; gi_attestation_requested := gi_attestation_requested g |}
           else g in
  (g, a, p).

Definition log_key_creation_event_stats (sec_level : Z) (key_params : list KmKeyParameter) (error : option AnyError) (s : MetricsStore)
    : MetricsStore :=
  let '(g, a, p) := process_key_creation_event_stats sec_level key_params error in
  insert_atom KEY_CREATION_WITH_PURPOSE_AND_MODES_INFO (PKeyCreationWithPurposeAndModesInfo p)
    (insert_atom KEY_CREATION_WITH_AUTH_INFO (PKeyCreationWithAuthInfo a)
      (insert_atom KEY_CREATION_WITH_GENERAL_INFO (PKeyCreationWithGeneralInfo g) s)).

Definition operation_param (p : KeyOperationWithPurposeAndModesInfo) (v : KeyParameterValue) : KeyOperationWithPurposeAndModesInfo :=
  match v with
  | PaddingMode z => {| op_purpose := op_purpose p; op_padding_mode_bitmap := compute_padding_mode_bitmap (op_padding_mode_bitmap p) z;
                        op_digest_bitmap := op_digest_bitmap p; op_block_mode_bitmap := op_block_mode_bitmap p |}
  | Digest z => {| op_purpose := op_purpose p; op_padding_mode_bitmap := op_padding_mode_bitmap p;
                   op_digest_bitmap := compute_digest_bitmap (op_digest_bitmap p) z; op_block_mode_bitmap := op_block_mode_bitmap p |}
  | BlockMode z => {| op_purpose := op_purpose p; op_padding_mode_bitmap := op_padding_mode_bitmap p; op_digest_bitmap := op_digest_bitmap p;
                      op_block_mode_bitmap := compute_block_mode_bitmap (op_block_mode_bitmap p) z |}
  | _ => p
  end.

Definition process_key_operation_event_stats (sec_level key_purpose : Z) (op_params : list KmKeyParameter) (op_outcome : Outcome)
    (key_upgraded : bool) : KeyOperationWithGeneralInfo * KeyOperationWithPurposeAndModesInfo :=
  ({| og_outcome := match op_outcome with
                    | Unknown | Dropped => DROPPED | Success => SUCCESS | Abort => ABORT | Pruned => PRUNED | OutcomeError _ => ERROR
                    end;
      og_error_code := match op_outcome with OutcomeError e => e | _ => 1 end;
      og_key_upgraded := key_upgraded; og_security_level := process_security_level sec_level |},
   fold_left operation_param (from_km <$> op_params)
     {| op_purpose := name_of all_purposes key_purpose; op_padding_mode_bitmap := 0; op_digest_bitmap := 0; op_block_mode_bitmap := 0 |}).

Definition log_key_operation_event_stats (sec_level key_purpose : Z) (op_params : list KmKeyParameter) (op_outcome : Outcome)
    (key_upgraded : bool) (s : MetricsStore) : MetricsStore :=
  let '(g, p) := process_key_operation_event_stats sec_level key_purpose op_params op_outcome key_upgraded in
  insert_atom KEY_OPERATION_WITH_PURPOSE_AND_MODES_INFO (PKeyOperationWithPurposeAndModesInfo p)
    (insert_atom KEY_OPERATION_WITH_GENERAL_INFO (PKeyOperationWithGeneralInfo g) s).

Definition log_rkp_error_stats (rkp_error : Z) : MetricsStore -> MetricsStore := insert_atom RKP_ERROR_STATS (PRkpErrorStats rkp_error).
End Events.

(** ** Pulled atoms *)

Section Pull.
(** The sizes SQLite reports: of the whole file, and of a table or index. *)
Context (total_size : result AnyError (Z * Z)) (table_size : string -> result AnyError (Z * Z)) (token_size : Z).

Definition do_table_size_query (st : MetricsStorage) (q : result AnyError (Z * Z)) : result AnyError StorageStats :=
  '(total, unused) ← q; Ok {| storage_type := st; size := total; unused_size := unused |}.

Definition get_storage_stat (tokens : PerbootDB) (st : MetricsStorage) : result AnyError StorageStats :=
  let table name := do_table_size_query st (table_size name) in
  match st with
  | DATABASE => do_table_size_query st total_size
  | KEY_ENTRY => table "keyentry"%string
  | KEY_ENTRY_ID_INDEX => table "keyentry_id_index"%string
  | KEY_ENTRY_DOMAIN_NAMESPACE_INDEX => table "keyentry_domain_namespace_index"%string
  | BLOB_ENTRY => table "blobentry"%string
  | BLOB_ENTRY_KEY_ENTRY_ID_INDEX => table "blobentry_keyentryid_index"%string
  | KEY_PARAMETER => table "keyparameter"%string
  | KEY_PARAMETER_KEY_ENTRY_ID_INDEX => table "keyparameter_keyentryid_index"%string
  | KEY_METADATA => table "keymetadata"%string
  | KEY_METADATA_KEY_ENTRY_ID_INDEX => table "keymetadata_keyentryid_index"%string
  | GRANT => table "grant"%string
  | AUTH_TOKEN => Ok {| storage_type := st; size := as_i32 (Z.of_nat (length (auth_tokens tokens)) * token_size); unused_size := 0 |}
  | BLOB_METADATA => table "blobmetadata"%string
  | BLOB_METADATA_BLOB_ENTRY_ID_INDEX => table "blobmetadata_blobentryid_index"%string
  | OtherStorage _ => Err OtherError
  end.

(** A pulled atom has no count. *)
Definition KeystoreAtom : Type := KeystoreAtomPayload * Z.

Definition pulled_storage : list MetricsStorage :=
  [DATABASE; KEY_ENTRY; KEY_ENTRY_ID_INDEX; KEY_ENTRY_DOMAIN_NAMESPACE_INDEX; BLOB_ENTRY; BLOB_ENTRY_KEY_ENTRY_ID_INDEX; KEY_PARAMETER;
   KEY_PARAMETER_KEY_ENTRY_ID_INDEX; KEY_METADATA; KEY_METADATA_KEY_ENTRY_ID_INDEX; GRANT; AUTH_TOKEN; BLOB_METADATA;
   BLOB_METADATA_BLOB_ENTRY_ID_INDEX].
(** Statistics that cannot be read are left out. *)
Definition pull_storage_stats (tokens : PerbootDB) : list KeystoreAtom :=
  omap (fun st => match get_storage_stat tokens st with Ok s => Some (PStorageStats s, 0) | _ => None end) pulled_storage.

Context {AI : Aidl} {S : Type} (get_pool_status : Z -> Z -> sr S AnyError AttestationPoolStatus).

(** [get_pool_status] works on the database; a level that fails is left
    out. *)
Fixpoint pull_pool_stats (levels : list (Z * Z)) : sr S AnyError (list KeystoreAtom) := fun s =>
  match levels with
  | [] => (Ok [], s)
  | (expired_by, level) :: levels =>
    match get_pool_status expired_by level s with
    | (Ok st, s) =>
      let '(r, s) := pull_pool_stats levels s in
      (cons (PRkpPoolStats {| rkp_level := process_security_level level; rkp_status := st |}, 0) <$> r, s)
    | (Err _, s) => pull_pool_stats levels s
    | (Panic, s) => (Panic, s)
    end
  end.
(** The clock is read once per level. *)
Definition pull_attestation_pool_stats (now : Z * Z) : sr S AnyError (list KeystoreAtom) :=
  pull_pool_stats [(now.1, val SecurityLevel.TRUSTED_ENVIRONMENT); (now.2, val SecurityLevel.STRONGBOX)].

(** ** Crashes *)

Definition KEYSTORE_CRASH_COUNT_PROPERTY : string := "keystore.crash_count".

(** [v.parse::<i32>()]. *)
Definition parse_i32 (v : string) : option Z :=
  match v with
  | String "-"%char EmptyString => None
  | String "-"%char v => Z.opp <$> parse_digits (2^31 + 1) 0 v
  | v => parse_unsigned (2^31) v
  end.

Definition read_keystore_crash_count (ps : Properties) : result PropertyWatcherError Z :=
  (read ps (fun v => ok_or (parse_i32 v) OtherError) (watcher_new KEYSTORE_CRASH_COUNT_PROPERTY)).1.

(** [new_count.to_string()]. *)
Definition i32_to_string (n : Z) : string := if n <? 0 then String "-"%char (to_string (- n)) else to_string n.

(** A failed write is only logged. *)
Definition update_keystore_crash_sysprop (accepted : bool) (ps : Properties) : Properties :=
  let store n := (write accepted KEYSTORE_CRASH_COUNT_PROPERTY (i32_to_string n) ps).2 in
  match read_keystore_crash_count ps with
  | Ok count => store (as_i32 (count + 1))
  | Err SystemPropertyAbsent => store 0
  | _ => ps
  end.

(** ** Queries *)

Definition get_atoms (store : MetricsStore) (tokens : PerbootDB) (ps : Properties) (now : Z * Z) (atom_id : AtomID) : sr S AnyError (list KeystoreAtom) :=
  match atom_id with
  | STORAGE_STATS => mret (pull_storage_stats tokens)
  | RKP_POOL_STATS => pull_attestation_pool_stats now
  | CRASH_STATS =>
    lift (match read_keystore_crash_count ps with Ok n => Ok [(PCrashStats n, 0)] | Err _ => Err OtherError | Panic => Panic end)
  | _ => mret (default [] (store !! atom_id))
  end.

Context {Ctx : Type} (getcon : result AnyError Ctx) (check_access : Ctx -> Ctx -> string -> string -> result AnyError unit).

(** [Metrics::pull_metrics]. *)
Definition pull_metrics (caller : Ctx) (store : MetricsStore) (tokens : PerbootDB) (ps : Properties) (now : Z * Z) (atom_id : AtomID)
    : sr S AnyError (list KeystoreAtom) :=
  _ ← lift (Permission.check_keystore_permission getcon check_access caller KeystorePerm.PullMetrics);
  get_atoms store tokens ps now atom_id.
End Pull.

(** ** Every event is counted once *)

Fixpoint sum_counts (m : list (KeystoreAtomPayload * Z)) : Z := match m with [] => 0 | (_, n) :: m => n + sum_counts m end.
Definition counts (s : MetricsStore) (id : AtomID) : list (KeystoreAtomPayload * Z) := default [] (s !! id).
Definition count_of (a : KeystoreAtomPayload) (m : list (KeystoreAtomPayload * Z)) : Z :=
  sum_counts (filter (fun p => p.1 = a) m).
(** How often atoms of this id did not fit. *)
Definition overflows (s : MetricsStore) (id : AtomID) : Z := count_of (PKeystore2AtomWithOverflow id) (counts s KEYSTORE2_ATOM_WITH_OVERFLOW).

Definition positive (m : list (KeystoreAtomPayload * Z)) : Prop := Forall (fun p => 0 < p.2) m.

Lemma sum_nonneg m : positive m -> 0 <= sum_counts m.
Proof. induction 1 as [|[a n] m H _ IH]; simpl in *; lia. Qed.
Lemma count_le_sum a m : positive m -> 0 <= count_of a m <= sum_counts m.
Proof.
  unfold count_of. induction 1 as [|[b n] m H Hm IH]; simpl in *; [lia|]. rewrite filter_cons. case_decide; simpl; [lia|].
  pose proof (sum_nonneg m Hm). lia.
Qed.

Lemma bump_facts a m :
  positive m -> sum_counts m < 2^31 - 1 ->
  sum_counts (bump a m) = sum_counts m + 1 /\ positive (bump a m) /\
  (forall b, count_of b (bump a m) = count_of b m + if decide (a = b) then 1 else 0) /\
  (forall b, b ∈ (bump a m).*1 <-> b = a \/ b ∈ m.*1) /\ (NoDup m.*1 -> NoDup (bump a m).*1).
Proof.
  unfold count_of. induction 1 as [|[b n] m H Hm IH]; intros Hb; cbn [sum_counts bump fst snd fmap list_fmap] in *.
  - split_and!; [done|by repeat constructor| |set_solver|intros _; apply NoDup_singleton].
    intros b. rewrite filter_cons. simpl. by case_decide.
  - pose proof (sum_nonneg m Hm). case_decide as Hab; [subst b|].
    + assert (as_i32 (n + 1) = n + 1) as Hi by (unfold as_i32; rewrite Z.mod_small; lia). rewrite Hi. simpl. split_and!.
      * lia.
      * constructor; [simpl; lia|done].
      * intros b. rewrite !filter_cons. simpl. case_decide; simpl; lia.
      * set_solver.
      * done.
    + destruct IH as (I1 & I2 & I3 & I4 & I5); [lia|]. simpl. split_and!.
      * lia.
      * by constructor.
      * intros c. rewrite !filter_cons. simpl. specialize (I3 c). destruct (decide (b = c)); simpl; lia.
      * intros c. rewrite !elem_of_cons, I4. naive_solver.
      * intros [Hn Hd]%NoDup_cons. constructor; [|auto]. rewrite I4. naive_solver.
Qed.

Lemma bump_length a m : (length (bump a m) <= S (length m))%nat.
Proof. induction m as [|[b n] m IH]; simpl; [lia|]. case_decide; simpl; lia. Qed.

(** The state after [n] events, [events] counting them by atom id. *)
Record store_ok (events : list AtomID) (s : MetricsStore) : Prop := {
  ok_positive id : positive (counts s id);
  ok_nodup id : NoDup (counts s id).*1;
  ok_size id : (length (counts s id) <= SINGLE_ATOM_STORE_MAX_SIZE)%nat;
  ok_overflow : forall a, a ∈ (counts s KEYSTORE2_ATOM_WITH_OVERFLOW).*1 -> exists id, a = PKeystore2AtomWithOverflow id;
  ok_sum id : id <> KEYSTORE2_ATOM_WITH_OVERFLOW ->
    sum_counts (counts s id) + overflows s id = Z.of_nat (length (filter (fun e => e = id) events));
  ok_total : sum_counts (counts s KEYSTORE2_ATOM_WITH_OVERFLOW) <= Z.of_nat (length events)
}.

Lemma counts_insert s id m id' : counts (<[id := m]> s) id' = if decide (id = id') then m else counts s id'.
Proof. unfold counts, MetricsStore in *. case_decide; subst; [by rewrite lookup_insert_eq|by rewrite lookup_insert_ne]. Qed.

(** The overflow map has at most one entry per atom id, so it never fills. *)
Lemma overflow_small events s : store_ok events s -> (length (counts s KEYSTORE2_ATOM_WITH_OVERFLOW) < SINGLE_ATOM_STORE_MAX_SIZE)%nat.
Proof.
  intros [_ Hn _ Ho _ _]. specialize (Hn KEYSTORE2_ATOM_WITH_OVERFLOW).
  assert ((counts s KEYSTORE2_ATOM_WITH_OVERFLOW).*1 ⊆+ (PKeystore2AtomWithOverflow <$> all_atoms)) as Hs.
  { apply NoDup_submseteq; [done|]. intros a [id ->]%Ho. apply list_elem_of_fmap_2, (bool_decide_unpack _). by destruct id; vm_compute. }
  apply submseteq_length in Hs. rewrite !length_fmap in Hs. unfold SINGLE_ATOM_STORE_MAX_SIZE. simpl in Hs. lia.
Qed.

Lemma insert_atom_ok events s id a :
  store_ok events s -> id <> KEYSTORE2_ATOM_WITH_OVERFLOW -> Z.of_nat (length events) < 2^31 - 1 ->
  store_ok (id :: events) (insert_atom id a s).
Proof.
  intros Hok Hid Hlen. pose proof (overflow_small _ _ Hok) as Hsmall. destruct Hok as [H1 H2 H3 H4 H5 H6].
  assert (forall i, i <> KEYSTORE2_ATOM_WITH_OVERFLOW -> sum_counts (counts s i) <= Z.of_nat (length events)) as Hsum.
  { intros i Hi. specialize (H5 i Hi). pose proof (count_le_sum (PKeystore2AtomWithOverflow i) _ (H1 KEYSTORE2_ATOM_WITH_OVERFLOW)).
    pose proof (length_filter (fun e => e = i) events). unfold overflows in H5. lia. }
  unfold insert_atom. fold (counts s id). destruct (Nat.ltb_spec (length (counts s id)) SINGLE_ATOM_STORE_MAX_SIZE) as [Hlt|Hge].
  - destruct (bump_facts a (counts s id) (H1 id)) as (B1 & B2 & B3 & B4 & B5); [specialize (Hsum id Hid); lia|].
    split.
    + intros i. rewrite counts_insert. by case_decide.
    + intros i. rewrite counts_insert. case_decide; [subst|]; auto.
    + intros i. rewrite counts_insert. case_decide; [subst|auto]. pose proof (bump_length a (counts s i)). lia.
    + rewrite counts_insert. by rewrite decide_False.
    + intros i Hi. unfold overflows. rewrite !counts_insert, (decide_False (P := id = KEYSTORE2_ATOM_WITH_OVERFLOW)) by done. rewrite filter_cons. fold (overflows s i).
      specialize (H5 i Hi). case_decide; subst; simpl; lia.
    + rewrite counts_insert, decide_False by done. simpl. lia.
  - change (default [] (<[id:=counts s id]> s !! KEYSTORE2_ATOM_WITH_OVERFLOW)) with (counts (<[id:=counts s id]> s) KEYSTORE2_ATOM_WITH_OVERFLOW).
    rewrite counts_insert, (decide_False (P := id = KEYSTORE2_ATOM_WITH_OVERFLOW)) by done. rewrite (proj2 (Nat.ltb_lt _ _)) by done.
    destruct (bump_facts (PKeystore2AtomWithOverflow id) _ (H1 KEYSTORE2_ATOM_WITH_OVERFLOW)) as (B1 & B2 & B3 & B4 & B5); [lia|].
    assert (forall i, counts (<[KEYSTORE2_ATOM_WITH_OVERFLOW := bump (PKeystore2AtomWithOverflow id) (counts s KEYSTORE2_ATOM_WITH_OVERFLOW)]>
        (<[id := counts s id]> s)) i = if decide (KEYSTORE2_ATOM_WITH_OVERFLOW = i)
        then bump (PKeystore2AtomWithOverflow id) (counts s KEYSTORE2_ATOM_WITH_OVERFLOW) else counts s i) as Hc.
    { intros i. rewrite !counts_insert. repeat case_decide; subst; done. }
    split.
    + intros i. rewrite Hc. by case_decide.
    + intros i. rewrite Hc. case_decide; auto.
    + intros i. rewrite Hc. case_decide; [subst|auto]. pose proof (bump_length (PKeystore2AtomWithOverflow id) (counts s KEYSTORE2_ATOM_WITH_OVERFLOW)). lia.
    + rewrite Hc, decide_True by done. intros b [->|?]%B4; eauto.
    + intros i Hi. unfold overflows. rewrite !Hc, (decide_False (P := KEYSTORE2_ATOM_WITH_OVERFLOW = i)), decide_True by done.
      rewrite B3. fold (overflows s i). specialize (H5 i Hi). rewrite filter_cons.
      destruct (decide (id = i)) as [->|Hne]; [rewrite decide_True by done|rewrite decide_False by congruence]; simpl; lia.
    + rewrite Hc, decide_True by done. simpl. lia.
Qed.

(** The atoms Keystore counts, in the order in which they came. *)
Definition insert_all (l : list (AtomID * KeystoreAtomPayload)) (s : MetricsStore) : MetricsStore :=
  fold_left (fun s e => insert_atom e.1 e.2 s) l s.

Lemma insert_all_ok l events s :
  store_ok events s -> Forall (fun e => e.1 <> KEYSTORE2_ATOM_WITH_OVERFLOW) l -> Z.of_nat (length l + length events) < 2^31 ->
  store_ok (reverse l.*1 ++ events) (insert_all l s).
Proof.
  revert events s. induction l as [|[id a] l IH]; intros events s Hok Hl Hn; simpl in *; [done|].
  inversion Hl; subst. rewrite reverse_cons, <- app_assoc. simpl. apply IH; [apply insert_atom_ok; try done; lia|done|simpl; lia].
Qed.

Lemma empty_store_ok : store_ok [] ∅.
Proof. split; intros; unfold counts, overflows, counts, MetricsStore; rewrite ?lookup_empty; simpl; try (by constructor); try done; unfold SINGLE_ATOM_STORE_MAX_SIZE; try lia; set_solver. Qed.

(** No event is lost and none counts twice: after any sequence of events, the
    counts kept for an atom id and the count of its overflows add up to the
    number of its events, no id has more than the allowed number of entries,
    and no entry occurs twice. *)
Theorem events_counted_once l id :
  Forall (fun e => e.1 <> KEYSTORE2_ATOM_WITH_OVERFLOW) l -> Z.of_nat (length l) < 2^31 -> id <> KEYSTORE2_ATOM_WITH_OVERFLOW ->
  let s := insert_all l ∅ in
  sum_counts (counts s id) + overflows s id = Z.of_nat (length (filter (fun e => e.1 = id) l)) /\
  (length (counts s id) <= SINGLE_ATOM_STORE_MAX_SIZE)%nat /\ NoDup (counts s id).*1.
Proof.
  intros Hl Hn Hid s. destruct (insert_all_ok l [] ∅ empty_store_ok Hl) as [_ H2 H3 _ H5 _]; [simpl; lia|].
  rewrite app_nil_r in H5. split_and!; [|apply H3|apply H2]. unfold s. rewrite (H5 id Hid). f_equal.
  rewrite (filter_reverse (fun e => e = id)), length_reverse. clear. induction l as [|[i a] l IH]; [done|].
  rewrite fmap_cons, !filter_cons. cbn [fst]. case_decide; cbn [length]; lia.
Qed.

(** Once an id has as many entries as it may have, its counts are frozen: an
    atom that is already in the map is no longer counted as itself. *)
Lemma full_counts_freeze s id a :
  length (counts s id) = SINGLE_ATOM_STORE_MAX_SIZE -> id <> KEYSTORE2_ATOM_WITH_OVERFLOW -> counts (insert_atom id a s) id = counts s id.
Proof.
  intros Hlen Hid. unfold insert_atom. fold (counts s id). rewrite Hlen, Nat.ltb_irrefl.
  destruct (_ <? _)%nat; rewrite !counts_insert; rewrite decide_False by done; by rewrite decide_True.
Qed.

(** ** What the atoms say *)

Section Atoms.
Context {AI : Aidl} {MA : MetricsAidl}.

(** A bitmap has the bit of a name exactly if some value read has it. *)
Lemma set_bit_spec {N} (bit : N -> Z) bitmap n m :
  (forall a b, bit a = bit b -> a = b) -> (forall a, 0 <= bit a) ->
  Z.testbit (set_bit bit bitmap n) (bit m) = true <-> Z.testbit bitmap (bit m) = true \/ n = Some m.
Proof.
  intros Hi Hp. unfold set_bit. destruct n as [n|]; [|naive_solver].
  rewrite Z.lor_spec, Z.shiftl_1_l, orb_true_iff, Z.pow2_bits_eqb by apply Hp. rewrite Z.eqb_eq. naive_solver.
Qed.

Lemma name_of_iff {N} `{!AidlEnum N} (names : list N) z n : n ∈ names -> name_of names z = Some n <-> z = val n.
Proof. intros Hn. split; [by intros <-%name_of_Some|]. intros ->. by apply name_of_val. Qed.

(** The bits of an operation's atom, folded over the parameters. *)
Lemma operation_fold vs p0 :
  let p := fold_left operation_param vs p0 in
  op_purpose p = op_purpose p0 /\
  (forall n, Z.testbit (op_padding_mode_bitmap p) (padding_bit n) = true <->
     Z.testbit (op_padding_mode_bitmap p0) (padding_bit n) = true \/ PaddingMode (val n) ∈ vs) /\
  (forall n, Z.testbit (op_digest_bitmap p) (digest_bit n) = true <->
     Z.testbit (op_digest_bitmap p0) (digest_bit n) = true \/ Digest (val n) ∈ vs) /\
  (forall n, Z.testbit (op_block_mode_bitmap p) (block_mode_bit n) = true <->
     Z.testbit (op_block_mode_bitmap p0) (block_mode_bit n) = true \/ BlockMode (val n) ∈ vs).
Proof.
  revert p0. induction vs as [|v vs IH]; intros p0; simpl; [set_solver|].
  destruct (IH (operation_param p0 v)) as (I1 & I2 & I3 & I4). rewrite I1. setoid_rewrite I2. setoid_rewrite I3. setoid_rewrite I4. clear.
  setoid_rewrite elem_of_cons. destruct v; simpl; (split; [done|]); split_and!; intros n;
    try (split; [intros [?|?]; [by left|by right; right]|intros [?|[?|?]]; [by left|done|by right]]);
    unfold compute_padding_mode_bitmap, compute_digest_bitmap, compute_block_mode_bitmap;
    (rewrite set_bit_spec by (first [intros [] []; done|intros []; done]));
    rewrite name_of_iff by (apply (bool_decide_unpack _); by destruct n; vm_compute); naive_solver.
Qed.

(** What a finished operation is counted as: its outcome, with an unfinished
    one as dropped, its error code if it failed, and bitmaps that have the
    bits of exactly the padding modes, digests and block modes among its
    parameters. *)
Theorem operation_atom_exact level purpose params outcome upgraded :
  let '(g, p) := process_key_operation_event_stats level purpose params outcome upgraded in
  (og_outcome g = ERROR <-> exists e, outcome = OutcomeError e /\ og_error_code g = e) /\
  (forall n, op_purpose p = Some n <-> purpose = val n) /\
  (forall n, Z.testbit (op_padding_mode_bitmap p) (padding_bit n) = true <-> PaddingMode (val n) ∈ from_km <$> params) /\
  (forall n, Z.testbit (op_digest_bitmap p) (digest_bit n) = true <-> Digest (val n) ∈ from_km <$> params) /\
  (forall n, Z.testbit (op_block_mode_bitmap p) (block_mode_bit n) = true <-> BlockMode (val n) ∈ from_km <$> params).
Proof.
  unfold process_key_operation_event_stats.
  destruct (operation_fold (from_km <$> params) {| op_purpose := name_of all_purposes purpose; op_padding_mode_bitmap := 0;
    op_digest_bitmap := 0; op_block_mode_bitmap := 0 |}) as (H1 & H2 & H3 & H4). simpl in *. rewrite H1.
  setoid_rewrite H2. setoid_rewrite H3. setoid_rewrite H4. setoid_rewrite Z.testbit_0_l.
  split_and!; [destruct outcome; naive_solver|intros n; apply name_of_iff, (bool_decide_unpack _); by destruct n; vm_compute|naive_solver..].
Qed.
End Atoms.

(** ** Restarts *)

Lemma parse_i32_to_string n : 0 <= n < 2^31 -> parse_i32 (i32_to_string n) = Some n.
Proof.
  intros Hn. unfold i32_to_string. rewrite (proj2 (Z.ltb_ge n 0)) by lia.
  assert (parse_i32 (to_string n) = parse_unsigned (2^31) (to_string n)) as ->; [|by apply parse_unsigned_to_string].
  destruct (to_string_digits n) as [Hd Hne]. destruct (to_string n) as [|c s]; [done|]. cbn [all_chars] in Hd.
  apply andb_true_iff in Hd as [Hd _]. unfold parse_i32. destruct c as [[] [] [] [] [] [] [] []]; done.
Qed.

Lemma digits_utf8 s : all_chars digit s = true -> utf8_valid s = true.
Proof.
  induction s as [|c s IH]; [done|]. cbn [all_chars]. intros [Hc Hs]%andb_true_iff. cbn [utf8_valid].
  unfold digit, between in Hc. apply andb_true_iff in Hc as [_ Hc%Z.leb_le].
  rewrite (proj2 (Z.ltb_lt (byte c) 128)); [by apply IH|]. change (byte "9") with 57 in Hc. lia.
Qed.

(** Keystore starting [n] times. *)
Definition restarts (n : nat) (ps : Properties) : Properties := Nat.iter n (update_keystore_crash_sysprop true) ps.

Lemma update_crash_count n ps :
  0 <= n < 2^31 -> (read_keystore_crash_count ps = Err SystemPropertyAbsent /\ n = 0 \/ read_keystore_crash_count ps = Ok (n - 1)) ->
  read_keystore_crash_count (update_keystore_crash_sysprop true ps) = Ok n.
Proof.
  intros Hn H. assert (exists p, update_keystore_crash_sysprop true ps = <[KEYSTORE_CRASH_COUNT_PROPERTY := p]> ps /\ value p = i32_to_string n) as (p & -> & Hv).
  { unfold update_keystore_crash_sysprop, write. destruct H as [[-> ->]| ->]; simpl; [eauto|].
    assert (as_i32 (n - 1 + 1) = n) as -> by (unfold as_i32; rewrite Z.mod_small; lia). eauto. }
  unfold read_keystore_crash_count, read, get_prop_info. simpl. rewrite lookup_insert_eq. simpl. rewrite Hv, parse_i32_to_string by done.
  assert (utf8_valid (i32_to_string n) = true) as ->; [|done].
  unfold i32_to_string. rewrite (proj2 (Z.ltb_ge n 0)) by lia. apply digits_utf8, to_string_digits.
Qed.

(** The crash count is the number of starts since boot less one: the first
    start of Keystore after a boot, when the property does not exist, sets it
    to zero, and every further one reads back what the one before wrote and
    adds one. *)
Theorem restarts_are_counted n ps :
  ps !! KEYSTORE_CRASH_COUNT_PROPERTY = None -> Z.of_nat n < 2^31 ->
  read_keystore_crash_count (restarts (S n) ps) = Ok (Z.of_nat n).
Proof.
  intros Hps. induction n as [|n IH]; intros Hn.
  - apply (update_crash_count 0); [lia|]. left. split; [|done]. unfold restarts, read_keystore_crash_count, read, get_prop_info.
    simpl. by rewrite Hps.
  - change (restarts (S (S n)) ps) with (update_keystore_crash_sysprop true (restarts (S n) ps)).
    apply update_crash_count; [lia|]. right. rewrite IH by lia. f_equal. lia.
Qed.

(** ** Witnesses *)

Lemma restarts_are_counted_witness : read_keystore_crash_count (restarts 12 ∅) = Ok 11.
Proof. exact (restarts_are_counted 11 ∅ eq_refl ltac:(lia)). Defined.

Definition demo_events : list (AtomID * KeystoreAtomPayload) :=
  [(RKP_ERROR_STATS, PRkpErrorStats 1); (CRASH_STATS, PCrashStats 1); (RKP_ERROR_STATS, PRkpErrorStats 2); (RKP_ERROR_STATS, PRkpErrorStats 1)].

Lemma events_counted_once_witness :
  sum_counts (counts (insert_all demo_events ∅) RKP_ERROR_STATS) + overflows (insert_all demo_events ∅) RKP_ERROR_STATS = 3.
Proof. apply (events_counted_once demo_events RKP_ERROR_STATS); [by repeat constructor|done|done]. Defined.

(** The published numbers. *)
Definition pub_block_mode (n : BlockModeName.name) : Z :=
  match n with BlockModeName.ECB => 1 | BlockModeName.CBC => 2 | BlockModeName.CTR => 3 | BlockModeName.GCM => 32 end.
Definition pub_padding_mode (n : PaddingModeName.name) : Z :=
  match n with
  | PaddingModeName.NONE => 1 | PaddingModeName.RSA_OAEP => 2 | PaddingModeName.RSA_PSS => 3
  | PaddingModeName.RSA_PKCS1_1_5_ENCRYPT => 4 | PaddingModeName.RSA_PKCS1_1_5_SIGN => 5 | PaddingModeName.PKCS7 => 64
  end.
Definition pub_ec_curve (n : EcCurveName.name) : Z :=
  match n with EcCurveName.P_224 => 0 | EcCurveName.P_256 => 1 | EcCurveName.P_384 => 2 | EcCurveName.P_521 => 3 end.
Definition pub_key_origin (n : KeyOriginName.name) : Z :=
  match n with
  | KeyOriginName.GENERATED => 0 | KeyOriginName.DERIVED => 1 | KeyOriginName.IMPORTED => 2 | KeyOriginName.RESERVED => 3
  | KeyOriginName.SECURELY_IMPORTED => 4
  end.
Definition pub_auth_type (n : AuthTypeName.name) : Z :=
  match n with AuthTypeName.NONE => 0 | AuthTypeName.PASSWORD => 1 | AuthTypeName.FINGERPRINT => 2 | AuthTypeName.ANY => -1 end.

Definition metrics_published : MetricsAidl.
Proof.
  refine {| aidl_block_mode := {| val := pub_block_mode |}; aidl_digest := {| val := digest_bit |};
            aidl_padding_mode := {| val := pub_padding_mode |}; aidl_ec_curve := {| val := pub_ec_curve |};
            aidl_key_origin := {| val := pub_key_origin |}; aidl_auth_type := {| val := pub_auth_type |} |};
    first [intros m n; destruct m, n; by vm_compute|intros n; destruct n; vm_compute; split; congruence].
Defined.

(** Signing with SHA-2 256: one digest bit, no other. *)
Lemma operation_atom_exact_witness :
  let '(g, p) := @process_key_operation_event_stats aidl_published metrics_published 1 2
                   [into_km (AI := aidl_published) (Digest 4)] Success false in
  og_outcome g = SUCCESS /\ op_digest_bitmap p = 16 /\
  (Z.testbit (op_digest_bitmap p) 4 = true <-> Digest 4 ∈ from_km (AI := aidl_published) <$> [into_km (AI := aidl_published) (Digest 4)]).
Proof.
  destruct (process_key_operation_event_stats _ _ _ _ _) as [g p] eqn:E.
  pose proof (@operation_atom_exact aidl_published metrics_published 1 2 [into_km (AI := aidl_published) (Digest 4)] Success false) as H.
  rewrite E in H. destruct H as (_ & _ & _ & H & _). split_and!; [|vm_compute in E; by simplify_eq|exact (H DigestName.SHA_2_256)].
  vm_compute in E. by simplify_eq.
Defined.
