(* ===== verification/SharedSecret.v ===== *)
(** * Shared secret negotiation ([shared_secret_negotiation.rs])

    At start up the secure components of the device agree on a secret: every
    participant is asked for its parameters, all of them get the same sorted
    list, and the checksums they answer are compared.  The manifest of the
    device and the participants are outside this repository: what they answer
    is an argument, per round where the code retries once a second. *)

From stdpp Require Import base list gmap strings sorting.
From Stdlib Require Import ZArith Lia.
From S2P Require Import Prelude Aidl Errors.

Inductive SharedSecretParticipant :=
| PAidl (instance : string)
| PHidl (is_strongbox : bool) (version : Z * Z).
#[global] Instance SharedSecretParticipant_eq_dec : EqDecision SharedSecretParticipant.
Proof. solve_decision. Defined.

(** android.hardware.security.sharedsecret.SharedSecretParameters. *)
Record SharedSecretParameters := { seed : bytes; nonce : bytes }.

Inductive SharedSecretError :=
| ParameterRetrieval (e : Error) (p : SharedSecretParticipant)
| Computation (e : Error) (p : SharedSecretParticipant)
| Checksum (p : SharedSecretParticipant).

(** ** Who takes part *)

Definition filter_map_legacy_km_instances (name : string) (version : Z * Z) : option SharedSecretParticipant :=
  if bool_decide (name = "default"%string) then Some (PHidl false version)
  else if bool_decide (name = "strongbox"%string) then Some (PHidl true version)
  else None.

(** The two flags [list_participants] keeps while it goes through the
    instances of the two versions. *)
Record Found := { legacy_default_found : bool; legacy_strongbox_found : bool }.

Definition keep_first (sp : SharedSecretParticipant) (f : Found) : option SharedSecretParticipant * Found :=
  match sp with
  | PHidl true _ =>
    if legacy_strongbox_found f then (None, f)
    else (Some sp, {| legacy_default_found := legacy_default_found f; legacy_strongbox_found := true |})
  | _ =>
    if legacy_default_found f then (None, f)
    else (Some sp, {| legacy_default_found := true; legacy_strongbox_found := legacy_strongbox_found f |})
  end.

Fixpoint legacy_instances (version : Z * Z) (names : list string) (f : Found) : list SharedSecretParticipant * Found :=
  match names with
  | [] => ([], f)
  | name :: names =>
    let '(o, f) := match filter_map_legacy_km_instances name version with
                   | Some sp => keep_first sp f
                   | None => (None, f)
                   end in
    let '(l, f) := legacy_instances version names f in
    (option_list o ++ l, f)
  end.

(** [hidl] and [aidl] are the instances in the manifest of the device; names
    that are not UTF-8 are an error. *)
Definition list_participants (hidl : Z * Z -> result AnyError (list string)) (aidl : result AnyError (list string))
    : result AnyError (list SharedSecretParticipant) :=
  names41 ← hidl (4, 1);
  let '(l41, f) := legacy_instances (4, 1) names41 {| legacy_default_found := false; legacy_strongbox_found := false |} in
  names40 ← hidl (4, 0);
  let '(l40, _) := legacy_instances (4, 0) names40 f in
  names ← aidl;
  Ok (l41 ++ l40 ++ (PAidl <$> names)).

(** ** Connecting *)

(** The answer to one attempt; a missing compatibility service is a panic. *)
Inductive Connection := Connected | NotYet | NoCompatService.
#[global] Instance Connection_eq_dec : EqDecision Connection.
Proof. solve_decision. Defined.

Fixpoint connect_round (answer : SharedSecretParticipant -> Connection) (participants connected failed : list SharedSecretParticipant)
    : result unit (list SharedSecretParticipant * list SharedSecretParticipant) :=
  match participants with
  | [] => Ok (connected, failed)
  | p :: participants =>
    match answer p with
    | Connected => connect_round answer participants (connected ++ [p]) failed
    | NotYet => connect_round answer participants connected (failed ++ [p])
    | NoCompatService => Panic
    end
  end.

(** One round a second; [None] while it goes on. *)
Fixpoint connect_loop (rounds : list (SharedSecretParticipant -> Connection)) (participants connected : list SharedSecretParticipant)
    : option (result unit (list SharedSecretParticipant)) :=
  match rounds with
  | [] => None
  | answer :: rounds =>
    match connect_round answer participants connected [] with
    | Ok (connected, []) => Some (Ok connected)
    | Ok (connected, failed) => connect_loop rounds failed connected
    | Err e => Some (Err e)
    | Panic => Some Panic
    end
  end.
Definition connect_participants (rounds : list (SharedSecretParticipant -> Connection)) (participants : list SharedSecretParticipant)
    : option (result unit (list SharedSecretParticipant)) := connect_loop rounds participants [].

(** ** Negotiating *)

Definition params_compare (x y : SharedSecretParameters) : comparison :=
  pair_compare (list_compare Z.compare) (list_compare Z.compare) (seed x, nonce x) (seed y, nonce y).
(** [params.sort_unstable()]. *)
Definition sort_params : list SharedSecretParameters -> list SharedSecretParameters := merge_sort (at_most params_compare).

(** Phase 1, one round a second. *)
Definition retrieve (answer : SharedSecretParticipant -> result BinderStatus SharedSecretParameters) (p : SharedSecretParticipant)
    : result SharedSecretError SharedSecretParameters :=
  map_err (fun e => ParameterRetrieval e p) (map_binder_status (answer p)).
Fixpoint retrieve_loop (rounds : list (SharedSecretParticipant -> result BinderStatus SharedSecretParameters))
    (participants : list SharedSecretParticipant) : option (result SharedSecretError (list SharedSecretParameters)) :=
  match rounds with
  | [] => None
  | answer :: rounds =>
    match try_map (retrieve answer) participants with
    | Ok params => Some (Ok params)
    | Err _ => retrieve_loop rounds participants
    | Panic => Some Panic
    end
  end.

(** Phase 2: the checksum so far, against the next one. *)
Definition compare_sums (compute : SharedSecretParticipant -> list SharedSecretParameters -> result BinderStatus bytes)
    (params : list SharedSecretParameters) (acc : option bytes) (p : SharedSecretParticipant) : result SharedSecretError (option bytes) :=
  match acc, map_binder_status (compute p params) with
  | None, Ok new_sum => Ok (Some new_sum)
  | Some old_sum, Ok new_sum => if bool_decide (old_sum = new_sum) then Ok (Some old_sum) else Err (Checksum p)
  | _, Err e => Err (Computation e p)
  | _, Panic => Panic
  end.

(** What is left is the error that is logged, if there is one; [None]: phase
    1 is still going on. *)
Definition negotiate_shared_secret (rounds : list (SharedSecretParticipant -> result BinderStatus SharedSecretParameters))
    (compute : SharedSecretParticipant -> list SharedSecretParameters -> result BinderStatus bytes)
    (participants : list SharedSecretParticipant) : option (result SharedSecretError unit) :=
  match retrieve_loop rounds participants with
  | Some (Ok params) => Some ((fun _ => tt) <$> try_fold (compare_sums compute (sort_params params)) None participants)
  | Some (Err e) => Some (Err e)
  | Some Panic => Some Panic
  | None => None
  end.

(** ** Who takes part: one legacy instance of each kind *)

Definition has_kind (sb : bool) (p : SharedSecretParticipant) : bool := match p with PHidl b _ => Bool.eqb b sb | _ => false end.
Definition kind_name (sb : bool) : string := if sb then "strongbox" else "default".
Definition found (sb : bool) (f : Found) : bool := if sb then legacy_strongbox_found f else legacy_default_found f.

Lemma legacy_instances_spec version names f l f' sb :
  legacy_instances version names f = (l, f') ->
  filter (fun p => has_kind sb p = true) l = (if negb (found sb f) && bool_decide (kind_name sb ∈ names) then [PHidl sb version] else []) /\
  found sb f' = found sb f || bool_decide (kind_name sb ∈ names) /\ Forall (fun p => exists b, p = PHidl b version) l.
Proof.
  revert f l f'. induction names as [|n names IH]; intros f l f' H; simpl in H.
  - simplify_eq. rewrite bool_decide_false by apply not_elem_of_nil. rewrite andb_false_r, orb_false_r. done.
  - assert (forall o g, (match filter_map_legacy_km_instances n version with Some sp => keep_first sp f | None => (None, f) end) = (o, g) ->
      filter (fun p => has_kind sb p = true) (option_list o) = (if negb (found sb f) && bool_decide (kind_name sb = n) then [PHidl sb version] else []) /\
      found sb g = found sb f || bool_decide (kind_name sb = n) /\ Forall (fun p => exists b, p = PHidl b version) (option_list o)) as Hhead.
    { intros o g. unfold filter_map_legacy_km_instances. destruct f as [d s].
      destruct (decide (n = "default"%string)) as [->|Hd]; [rewrite (bool_decide_true ("default"%string = _)) by done|rewrite (bool_decide_false (n = "default"%string)) by done].
      - simpl. destruct d, sb; intros; simplify_eq; simpl; rewrite ?andb_true_r, ?andb_false_r, ?orb_true_r, ?orb_false_r; split_and!;
          repeat constructor; eauto.
      - destruct (decide (n = "strongbox"%string)) as [->|Hs]; [rewrite (bool_decide_true ("strongbox"%string = _)) by done|rewrite (bool_decide_false (n = "strongbox"%string)) by done].
        + simpl. destruct s, sb; intros; simplify_eq; simpl; rewrite ?andb_true_r, ?andb_false_r, ?orb_true_r, ?orb_false_r; split_and!;
            repeat constructor; eauto.
        + intros; simplify_eq. rewrite (bool_decide_false (kind_name sb = n)) by (by destruct sb; simpl; congruence).
          rewrite andb_false_r, orb_false_r. done. }
    destruct (match filter_map_legacy_km_instances n version with Some sp => keep_first sp f | None => (None, f) end) as [o g] eqn:Eo.
    destruct (legacy_instances version names g) as [l1 f1] eqn:El. simplify_eq.
    destruct (Hhead o g eq_refl) as (H1 & H2 & H3). destruct (IH _ _ _ El) as (I1 & I2 & I3).
    rewrite filter_app, H1, I1, I2, H2. split_and!; [| |by apply Forall_app].
    + rewrite (bool_decide_ext (kind_name sb ∈ n :: names) (kind_name sb = n \/ kind_name sb ∈ names)) by apply elem_of_cons.
      rewrite bool_decide_or. by destruct (found sb f), (bool_decide (kind_name sb = n)), (bool_decide (kind_name sb ∈ names)).
    + rewrite (bool_decide_ext (kind_name sb ∈ n :: names) (kind_name sb = n \/ kind_name sb ∈ names)) by apply elem_of_cons.
      by rewrite bool_decide_or, orb_assoc.
Qed.

(** The participants are every AIDL instance of the manifest and, of each of
    the two kinds of legacy device, the one of the highest version, once. *)
Lemma list_participants_exact hidl aidl l :
  list_participants hidl aidl = Ok l ->
  exists n41 n40 names, hidl (4, 1) = Ok n41 /\ hidl (4, 0) = Ok n40 /\ aidl = Ok names /\
    (forall sb, filter (fun p => has_kind sb p = true) l
       = if bool_decide (kind_name sb ∈ n41) then [PHidl sb (4, 1)] else if bool_decide (kind_name sb ∈ n40) then [PHidl sb (4, 0)] else []) /\
    forall i, PAidl i ∈ l <-> i ∈ names.
Proof.
  unfold list_participants. intros (n41 & E41 & H)%bind_Ok. destruct (legacy_instances _ n41 _) as [l41 f] eqn:L41.
  apply bind_Ok in H as (n40 & E40 & H). destruct (legacy_instances _ n40 _) as [l40 f'] eqn:L40.
  apply bind_Ok in H as (names & Ea & H). simplify_eq. exists n41, n40, names. split_and!; [done|done|done| |].
  - intros sb. destruct (legacy_instances_spec _ _ _ _ _ sb L41) as (H1 & H2 & _), (legacy_instances_spec _ _ _ _ _ sb L40) as (H3 & _ & _).
    rewrite !filter_app, H1, H3, H2. replace (found sb {| legacy_default_found := false; legacy_strongbox_found := false |}) with false by by destruct sb.
    simpl. assert (filter (fun p => has_kind sb p = true) (PAidl <$> names) = []) as ->.
    { clear. induction names as [|n l IH]; [done|]. rewrite fmap_cons, filter_cons. by rewrite decide_False. }
    by destruct (bool_decide (kind_name sb ∈ n41)), (bool_decide (kind_name sb ∈ n40)).
  - intros i. destruct (legacy_instances_spec _ _ _ _ _ true L41) as (_ & _ & F1), (legacy_instances_spec _ _ _ _ _ true L40) as (_ & _ & F2).
    rewrite !elem_of_app, list_elem_of_fmap. rewrite Forall_forall in F1, F2. split; [|right; right; eauto].
    intros [[b ?]%F1|[[b ?]%F2|(j & ? & ?)]]; by simplify_eq.
Qed.

(** ** Everybody is connected, once *)

Lemma connect_round_Ok answer ps connected failed :
  (forall p, p ∈ ps -> answer p <> NoCompatService) ->
  connect_round answer ps connected failed
    = Ok (connected ++ filter (fun p => answer p = Connected) ps, failed ++ filter (fun p => answer p = NotYet) ps).
Proof.
  revert connected failed. induction ps as [|p ps IH]; intros connected failed Hp; simpl; [by rewrite !app_nil_r|].
  pose proof (Hp p (list_elem_of_here _ _)) as Hh. rewrite !filter_cons.
  destruct (answer p) eqn:E; [| |done]; rewrite IH by (intros; apply Hp; by right);
    repeat case_decide; try congruence; by rewrite <- app_assoc.
Qed.

Lemma connect_round_partition answer (ps : list SharedSecretParticipant) :
  (forall p, p ∈ ps -> answer p <> NoCompatService) ->
  filter (fun p => answer p = Connected) ps ++ filter (fun p => answer p = NotYet) ps ≡ₚ ps.
Proof.
  induction ps as [|p ps IH]; intros Hp; [done|]. pose proof (Hp p (list_elem_of_here _ _)) as Hh.
  assert (IH' := IH (fun q Hq => Hp q (list_elem_of_further _ _ _ Hq))).
  rewrite !filter_cons. destruct (answer p) eqn:E; [| |done].
  - repeat case_decide; try congruence. simpl. by rewrite IH'.
  - repeat case_decide; try congruence. by rewrite <- Permutation_middle, IH'.
Qed.

Lemma connect_loop_ends rounds ps connected :
  rounds <> [] -> (forall answer p, answer ∈ rounds -> p ∈ ps -> answer p <> NoCompatService) ->
  (forall p, p ∈ ps -> exists answer, answer ∈ rounds /\ answer p = Connected) ->
  exists l, connect_loop rounds ps connected = Some (Ok l) /\ l ≡ₚ connected ++ ps.
Proof.
  revert ps connected. induction rounds as [|answer rounds IH]; intros ps connected Hne Hno Hc; [done|]. simpl.
  assert (Hno' : forall p, p ∈ ps -> answer p <> NoCompatService) by (intros; apply Hno; [by left|done]).
  rewrite connect_round_Ok by done. simpl. pose proof (connect_round_partition answer ps Hno') as Hpart.
  destruct (filter (fun p => answer p = NotYet) ps) as [|q failed] eqn:Ef.
  { eexists. split; [done|]. by rewrite app_nil_r in Hpart; rewrite Hpart. }
  assert (Hf : forall p, p ∈ q :: failed -> p ∈ ps /\ answer p = NotYet).
  { intros p. rewrite <- Ef, list_elem_of_filter. by intros [??]. }
  assert (Hlater : forall p, p ∈ q :: failed -> exists a, a ∈ rounds /\ a p = Connected).
  { intros p Hp. destruct (Hf p Hp) as [Hin Hny]. destruct (Hc p Hin) as (a & [->|Ha]%elem_of_cons & Hac); [congruence|eauto]. }
  destruct (IH (q :: failed) (connected ++ filter (fun p => answer p = Connected) ps)) as (l & -> & Hl).
  - destruct (Hlater q (list_elem_of_here _ _)) as (a & Ha & _). by intros ->; apply not_elem_of_nil in Ha.
  - intros a p Ha Hp. apply Hno; [by right|by apply Hf].
  - done.
  - exists l. split; [done|]. by rewrite Hl, <- app_assoc, Hpart.
Qed.

(** ** The parameters do not depend on the order of the participants *)

Lemma params_lawful : lawful params_compare.
Proof.
  apply (lawful_by (fun x => (seed x, nonce x))).
  - intros [a b] [c d] ?. by simplify_eq/=.
  - apply lawful_pair; apply lawful_list, lawful_Z.
Qed.

Lemma sort_params_Permutation l l' : l ≡ₚ l' -> sort_params l = sort_params l'.
Proof.
  intros H. pose proof (at_most_trans _ params_lawful). pose proof (at_most_total _ params_lawful). pose proof (at_most_anti _ params_lawful).
  apply (Sorted_unique (at_most params_compare)); [by apply (Sorted_merge_sort _)|by apply (Sorted_merge_sort _)|].
  unfold sort_params. by rewrite !merge_sort_Permutation.
Qed.

Lemma compare_sums_all compute params ps o acc :
  (forall old, acc = Some old -> o = Some old) ->
  try_fold (compare_sums compute params) acc ps = Ok o <->
  (ps = [] /\ o = acc) \/ (ps <> [] /\ exists sum, o = Some sum /\ forall p, p ∈ ps -> compute p params = Ok sum).
Proof.
  revert acc. induction ps as [|p ps IH]; intros acc Hacc; simpl.
  { split; [intros; simplify_eq; by left|]. intros [[_ ->]|[? _]]; done. }
  assert (forall new, compute p params = Ok new -> (forall old, acc = Some old -> old = new) -> compare_sums compute params acc p = Ok (Some new)) as Hgo.
  { intros new Hc Hold. unfold compare_sums. rewrite Hc. simpl. destruct acc as [old|]; [|done].
    rewrite (Hold old eq_refl). by rewrite bool_decide_true. }
  split.
  - intros (a & Ha & Hrest)%bind_Ok. right. split; [done|].
    assert (exists new, compute p params = Ok new /\ a = Some new) as (new & Hc & ->).
    { unfold compare_sums in Ha. destruct (compute p params) as [new|e|]; simpl in Ha; [| |]; destruct acc; try done; try case_bool_decide; simplify_eq; eauto. }
    destruct ps as [|q ps].
    { simpl in Hrest. simplify_eq. exists new. split; [done|]. intros ? ->%list_elem_of_singleton. done. }
    assert (o = Some new) as ->.
    { clear -Hrest. revert Hrest. generalize (q :: ps) as l. intros l. induction l as [|r l IHl]; simpl; [congruence|].
      intros (b & Hb & H)%bind_Ok. apply IHl. unfold compare_sums in Hb.
      destruct (map_binder_status (compute r params)); try done. case_bool_decide; by simplify_eq. }
    apply IH in Hrest as [[? _]|(_ & sum & ? & Hall)]; [done| |by intros; simplify_eq]. simplify_eq.
    exists sum. split; [done|]. intros r [->|Hr]%elem_of_cons; auto.
  - intros [[? _]|(_ & sum & -> & Hall)]; [done|].
    rewrite (Hgo sum) by (try (apply Hall; by left); intros old Ho; specialize (Hacc _ Ho); by simplify_eq). simpl.
    apply IH; [intros; by simplify_eq|]. destruct ps; [by left|]. right. split; [done|]. exists sum. split; [done|]. intros; apply Hall; by right.
Qed.

Lemma retrieve_fails answer ps :
  (forall p, p ∈ ps -> answer p <> Panic) -> (exists p e, p ∈ ps /\ answer p = Err e) -> exists e, try_map (retrieve answer) ps = Err e.
Proof.
  induction ps as [|p ps IH]; intros Hno (q & e & Hq & He); [by apply not_elem_of_nil in Hq|].
  assert (Hp := Hno p (list_elem_of_here _ _)). simpl.
  destruct (retrieve answer p) as [x|e'|] eqn:E; simpl; [|eauto|unfold retrieve in E; by destruct (answer p)].
  apply elem_of_cons in Hq as [->|Hq]; [unfold retrieve in E; by rewrite He in E|].
  destruct IH as [e' ->]; eauto. intros r Hr. apply Hno. by right.
Qed.

Lemma retrieve_loop_ends failing (good : SharedSecretParticipant -> SharedSecretParameters) later ps :
  Forall (fun answer => exists e, try_map (retrieve answer) ps = Err e) failing ->
  retrieve_loop (failing ++ (fun p => Ok (good p)) :: later) ps = Some (Ok (good <$> ps)).
Proof.
  induction 1 as [|answer failing [e He] _ IH]; simpl; [|by rewrite He].
  assert (try_map (retrieve (fun p => Ok (good p))) ps = Ok (good <$> ps)) as ->; [|done].
  apply try_map_Ok. clear. induction ps; simpl; constructor; done.
Qed.

(** C37: the negotiation.  If the compatibility service is there and every
    participant accepts a connection in some round, each of them is connected
    exactly once; and when all of them answer their parameters in the same
    round after any number of rounds in which one failed, the negotiation ends,
    without an error just when every participant computes the same checksum
    from the one sorted list of everybody's parameters, whatever the order in
    which they were connected. *)
Theorem negotiation_exact rounds ps failing good later compute :
  rounds <> [] -> (forall answer p, answer ∈ rounds -> p ∈ ps -> answer p <> NoCompatService) ->
  (forall p, p ∈ ps -> exists answer, answer ∈ rounds /\ answer p = Connected) ->
  Forall (fun answer => (forall p, answer p <> Panic) /\ exists p e, p ∈ ps /\ answer p = Err e) failing ->
  exists conn r, connect_participants rounds ps = Some (Ok conn) /\ conn ≡ₚ ps /\
    negotiate_shared_secret (failing ++ (fun p => Ok (good p)) :: later) compute conn = Some r /\
    (r = Ok tt <-> exists sum, forall p, p ∈ ps -> compute p (sort_params (good <$> ps)) = Ok sum).
Proof.
  intros Hne Hno Hc Hfail. destruct (connect_loop_ends rounds ps [] Hne Hno Hc) as (conn & Hconn & Hperm).
  simpl in Hperm. exists conn. unfold negotiate_shared_secret. rewrite retrieve_loop_ends.
  2: { eapply Forall_impl; [exact Hfail|]. intros answer (Hno' & p & e & Hp & He). apply retrieve_fails; [by auto|].
       exists p, e. by rewrite Hperm. }
  rewrite (sort_params_Permutation (good <$> conn) (good <$> ps)) by by rewrite Hperm.
  eexists. split_and!; [done|done|done|]. split.
  - destruct (try_fold _ None conn) as [o| |] eqn:E; [intros _|done|done].
    assert (E' := E). apply compare_sums_all in E as [[-> _]|(_ & sum & _ & Hall)]; [| |done].
    + symmetry in Hperm. apply Permutation_nil_r in Hperm as ->. exists []. intros p Hp. by apply not_elem_of_nil in Hp.
    + exists sum. intros p Hp. apply Hall. by rewrite Hperm.
  - intros (sum & Hall). destruct conn as [|c conn]; [done|].
    rewrite (proj2 (compare_sums_all compute (sort_params (good <$> ps)) (c :: conn) (Some sum) None ltac:(done))); [done|].
    right. split; [done|]. exists sum. split; [done|]. intros p Hp. apply Hall. by rewrite <- Hperm.
Qed.

(** A TEE that is slow to start and a StrongBox: the StrongBox is connected
    first, fails the first round of phase 1, and the two agree. *)
Definition demo_tee := PAidl "default".
Definition demo_strongbox := PHidl true (4, 1).
Definition demo_params (p : SharedSecretParticipant) : SharedSecretParameters :=
  if decide (p = demo_tee) then {| seed := [2]; nonce := [0] |} else {| seed := [1]; nonce := [7] |}.
Definition demo_failing (p : SharedSecretParticipant) : result BinderStatus SharedSecretParameters :=
  if decide (p = demo_tee) then Ok (demo_params p) else Err (new_service_specific_error 4).
Definition demo_compute (p : SharedSecretParticipant) (l : list SharedSecretParameters) : result BinderStatus bytes := Ok (l ≫= seed).
Lemma negotiation_exact_witness :
  exists conn r,
    connect_participants [fun p => if decide (p = demo_tee) then NotYet else Connected; fun _ => Connected] [demo_tee; demo_strongbox]
      = Some (Ok conn) /\ conn ≡ₚ [demo_tee; demo_strongbox] /\
    negotiate_shared_secret ([demo_failing] ++ [fun p => Ok (demo_params p)]) demo_compute conn = Some r /\
    (r = Ok tt <-> exists sum, forall p, p ∈ [demo_tee; demo_strongbox] -> demo_compute p (sort_params (demo_params <$> [demo_tee; demo_strongbox])) = Ok sum).
Proof.
  apply (negotiation_exact [fun p => if decide (p = demo_tee) then NotYet else Connected; fun _ => Connected]
    [demo_tee; demo_strongbox] [demo_failing] demo_params [] demo_compute).
  - done.
  - intros answer p [ -> | ->%list_elem_of_singleton]%elem_of_cons _; [by case_decide|done].
  - intros p _. exists (fun _ => Connected). split; [by right; left|done].
  - apply Forall_singleton. split; [intros p; unfold demo_failing; by case_decide|].
    exists demo_strongbox, (new_service_specific_error 4). split; [by right; left|done].
Defined.
Example demo_negotiated :
  negotiate_shared_secret [demo_failing; fun p => Ok (demo_params p)] demo_compute [demo_strongbox; demo_tee] = Some (Ok tt).
Proof. vm_compute. reflexivity. Qed.
