(* ===== verification/Devices.v ===== *)
(** * Devices ([globals.rs], [raw_device.rs], [boot_level_keys.rs])

    The global caches of connections to the secure devices of the platform,
    the construction of the services from them, and the choice of the device
    that makes the boot level key.  The platform (the manifest, the service
    manager, the compatibility service and the devices behind it) is outside
    this repository: what it answers is an argument of every call, so that it
    may answer differently each time. *)

From stdpp Require Import base list gmap strings.
From Stdlib Require Import ZArith Lia String.
From S2P Require Import Prelude Aidl Errors Sql KeyParameter BootLevelKeys DbTypes Database DbInvariant DbKeys Crypto RawDevice SuperKey SuperKeySafety LegacyFs LegacyMigrator LegacySystem RemoteProvisioning SecurityLevel Service.

(** The fields of the hardware information the code reads. *)
Record KeyMintHardwareInfo := { versionNumber : Z; securityLevel : Z }.

(** The answers of the platform at one moment; [H] is the type of remote
    objects. *)
Record Platform (H : Type) := {
  (* the instances of an interface in the manifest; a name that is not UTF-8 is an error *)
  instances : string -> result AnyError (list string);
  get_service : string -> result Z H;
  compat_service : result Z unit;
  compat_getKeyMintDevice : Z -> result BinderStatus H;
  compat_getSecureClock : result BinderStatus H;
  getHardwareInfo : H -> result BinderStatus KeyMintHardwareInfo;
  supportedEekCurve : H -> result BinderStatus Z;
  (* [SpIBinder::into_interface] *)
  into_interface : H -> bool
}.
Arguments instances {H}. Arguments get_service {H}. Arguments compat_service {H}. Arguments compat_getKeyMintDevice {H}.
Arguments compat_getSecureClock {H}. Arguments getHardwareInfo {H}. Arguments supportedEekCurve {H}. Arguments into_interface {H}.

Section Globals.
Context {AI : Aidl} {H : Type} (NAME_NOT_FOUND : Z).
Abbreviation Platform := (Platform H).

(** ** The caches *)

Record DevicesMap := {
  devices_by_uuid : gmap Uuid (H * KeyMintHardwareInfo);
  uuid_by_sec_level : gmap Z Uuid
}.

Definition dev_by_uuid (m : DevicesMap) (uuid : Uuid) : option (H * KeyMintHardwareInfo * Uuid) :=
  (fun d => (d, uuid)) <$> devices_by_uuid m !! uuid.
Definition dev_by_sec_level (m : DevicesMap) (sec_level : Z) : option (H * KeyMintHardwareInfo * Uuid) :=
  uuid_by_sec_level m !! sec_level ≫= dev_by_uuid m.
(** [HashMap::values] goes through the devices in some order. *)
Definition devices (p : Platform) (m : DevicesMap) : list H :=
  filter (fun d => into_interface p d = true) ((fun d => d.2.1) <$> map_to_list (devices_by_uuid m)).
Definition insert_device (sec_level : Z) (dev : H) (hw_info : KeyMintHardwareInfo) (m : DevicesMap) : DevicesMap :=
  let uuid := uuid_of_security_level sec_level in
  {| devices_by_uuid := <[uuid := (dev, hw_info)]> (devices_by_uuid m);
     uuid_by_sec_level := <[sec_level := uuid]> (uuid_by_sec_level m) |}.

(** [KEY_MINT_DEVICES], [TIME_STAMP_DEVICE] and
    [REMOTELY_PROVISIONED_COMPONENT_DEVICES]. *)
Record Globals := {
  key_mint_devices : DevicesMap;
  time_stamp_device : option H;
  remote_devices : gmap Z H
}.
Definition no_devices : Globals :=
  {| key_mint_devices := {| devices_by_uuid := ∅; uuid_by_sec_level := ∅ |}; time_stamp_device := None; remote_devices := ∅ |}.
Definition set_devices (m : DevicesMap) (g : Globals) : Globals :=
  {| key_mint_devices := m; time_stamp_device := time_stamp_device g; remote_devices := remote_devices g |}.
Definition set_clock (c : option H) (g : Globals) : Globals :=
  {| key_mint_devices := key_mint_devices g; time_stamp_device := c; remote_devices := remote_devices g |}.
Definition set_remote (m : gmap Z H) (g : Globals) : Globals :=
  {| key_mint_devices := key_mint_devices g; time_stamp_device := time_stamp_device g; remote_devices := m |}.

Abbreviation G := (sr Globals AnyError).

(** ** Connecting *)

Definition KEYMINT_SERVICE_NAME : string := "android.hardware.security.keymint.IKeyMintDevice".
Definition TIME_STAMP_SERVICE_NAME : string := "android.hardware.security.secureclock.ISecureClock".
Definition REMOTE_PROVISIONING_HAL_SERVICE_NAME : string := "android.hardware.security.keymint.IRemotelyProvisionedComponent".
Definition unavailable : AnyError := KsError (Km (val ErrorCode.HARDWARE_TYPE_UNAVAILABLE)).

Definition instance_of (service instance : string) (names : list string) : option string :=
  if existsb (String.eqb instance) names then Some (service ++ "/" ++ instance)%string else None.
Definition connect_service (p : Platform) (name : string) : result AnyError H :=
  map_err KsError (map_binder_status_code (get_service p name)).
(** A device of the compatibility service that is not there. *)
Definition legacy_error (e : Error) : AnyError :=
  if bool_decide (e = BinderTransaction NAME_NOT_FOUND) then unavailable else KsError e.
Definition connect_legacy (p : Platform) (dev : result BinderStatus H) : result AnyError H :=
  _ ← map_err KsError (map_binder_status_code (compat_service p));
  map_err legacy_error (map_binder_status dev).

(** The name of the instance that serves a level, if the manifest has it. *)
Definition service_name (p : Platform) (service : string) (security_level : Z) : result AnyError (option string) :=
  if security_level =? val SecurityLevel.TRUSTED_ENVIRONMENT then instance_of service "default" <$> instances p service
  else if security_level =? val SecurityLevel.STRONGBOX then instance_of service "strongbox" <$> instances p service
  else Err unavailable.

Definition connect_keymint (p : Platform) (security_level : Z) : result AnyError (H * KeyMintHardwareInfo) :=
  name ← service_name p KEYMINT_SERVICE_NAME security_level;
  '(keymint, hal_version) ← match name with
    | Some name => dev ← connect_service p name; Ok (dev, Some 100)
    | None => dev ← connect_legacy p (compat_getKeyMintDevice p security_level); Ok (dev, None)
    end;
  hw_info ← map_err KsError (map_km_error (getHardwareInfo p keymint));
  Ok (keymint, match hal_version with
               | Some v => {| versionNumber := v; securityLevel := securityLevel hw_info |}
               | None => hw_info
               end).

Definition get_keymint_device (p : Platform) (security_level : Z) : G (H * KeyMintHardwareInfo * Uuid) := fun g =>
  match dev_by_sec_level (key_mint_devices g) security_level with
  | Some d => (Ok d, g)
  | None =>
    match connect_keymint p security_level with
    | Ok (dev, hw_info) =>
      let m := insert_device security_level dev hw_info (key_mint_devices g) in
      (unwrap (dev_by_sec_level m security_level), set_devices m g)
    | Err e => (Err e, g)
    | Panic => (Panic, g)
    end
  end.
Definition get_keymint_dev_by_uuid (uuid : Uuid) (g : Globals) : result AnyError (H * KeyMintHardwareInfo) :=
  match dev_by_uuid (key_mint_devices g) uuid with
  | Some (d, _) => Ok d
  | None => Err (KsError sys)
  end.
Definition get_keymint_devices (p : Platform) (g : Globals) : list H := devices p (key_mint_devices g).

Definition connect_secureclock (p : Platform) : result AnyError H :=
  names ← instances p TIME_STAMP_SERVICE_NAME;
  match instance_of TIME_STAMP_SERVICE_NAME "default" names with
  | Some name => connect_service p name
  | None => connect_legacy p (compat_getSecureClock p)
  end.
Definition get_timestamp_service (p : Platform) : G H := fun g =>
  match time_stamp_device g with
  | Some dev => (Ok dev, g)
  | None =>
    match connect_secureclock p with
    | Ok dev => (Ok dev, set_clock (Some dev) g)
    | Err e => (Err e, g)
    | Panic => (Panic, g)
    end
  end.

Definition connect_remotely_provisioned_component (p : Platform) (security_level : Z) : result AnyError H :=
  name ← service_name p REMOTE_PROVISIONING_HAL_SERVICE_NAME security_level;
  name ← ok_or name unavailable;
  connect_service p name.
Definition get_remotely_provisioned_component (p : Platform) (security_level : Z) : G H := fun g =>
  match remote_devices g !! security_level with
  | Some dev => (Ok dev, g)
  | None =>
    match connect_remotely_provisioned_component p security_level with
    | Ok dev =>
      let m := <[security_level := dev]> (remote_devices g) in
      (unwrap (m !! security_level), set_remote m g)
    | Err e => (Err e, g)
    | Panic => (Panic, g)
    end
  end.

(** ** The services *)

(** [Asp::get_interface]. *)
Definition get_interface (p : Platform) (dev : H) : result AnyError H := if into_interface p dev then Ok dev else Err OtherError.

Record KeystoreSecurityLevel := {
  security_level : Z;
  keymint : H;
  hw_info : KeyMintHardwareInfo;
  ksl_km_uuid : Uuid;
  rem_prov_state : RemProvState
}.
(** [KeystoreSecurityLevel::new_native_binder] and [RemProvState::new]; the
    remote provisioning starts out as present. *)
Definition new_security_level (p : Platform) (level : Z) : G (KeystoreSecurityLevel * Uuid) :=
  '(dev, hw, km_uuid) ← get_keymint_device p level;
  mret ({| security_level := level; keymint := dev; hw_info := hw; ksl_km_uuid := km_uuid;
           rem_prov_state := {| rp_uuid := km_uuid; is_hal_present := true |} |}, km_uuid).

(** [KeystoreService::new_native_binder]; [own] is what the binders of the
    new security levels yield, [p] and [q] the platform at the two
    connections. *)
Definition new_keystore_service (p q : Platform) (own : result AnyError unit) (mig : Migrator) (g : Globals)
    : result AnyError (KeystoreService * Migrator) * Globals :=
  match new_security_level p (val SecurityLevel.TRUSTED_ENVIRONMENT) g with
  | (Ok (_, uuid), g) =>
    let tee := {| Service.i_sec_level_by_uuid := {[uuid := own]};
                  Service.uuid_by_sec_level := {[val SecurityLevel.TRUSTED_ENVIRONMENT := uuid]} |} in
    let '(sb, g) := new_security_level q (val SecurityLevel.STRONGBOX) g in
    match sb with
    | Ok (_, uuid) =>
      let all := {| Service.i_sec_level_by_uuid := <[uuid := own]> (Service.i_sec_level_by_uuid tee);
                    Service.uuid_by_sec_level := <[val SecurityLevel.STRONGBOX := uuid]> (Service.uuid_by_sec_level tee) |} in
      (Ok (all, set_init (Service.uuid_by_sec_level all) mig), g)
    | Err _ => (Ok (tee, set_init (Service.uuid_by_sec_level tee) mig), g)
    | Panic => (Panic, g)
    end
  | (Err e, g) => (Err e, g)
  | (Panic, g) => (Panic, g)
  end.

(** [RemoteProvisioningService::new_native_binder]: the devices and the
    curves of the levels. *)
Definition remote_device (p : Platform) (level : Z) : G (H * Z) :=
  dev ← get_remotely_provisioned_component p level;
  i ← lift (get_interface p dev);
  curve ← lift (map_err (fun _ => OtherError) (supportedEekCurve p i));
  mret (dev, curve).
Definition add_strongbox (q : Platform) (tee : gmap Z H * gmap Z Z) : G (gmap Z H * gmap Z Z) := fun g =>
  match get_remotely_provisioned_component q (val SecurityLevel.STRONGBOX) g with
  | (Ok dev, g) =>
    (i ← lift (get_interface q dev);
     curve ← lift (map_err (fun _ => OtherError) (supportedEekCurve q i));
     mret (<[val SecurityLevel.STRONGBOX := dev]> tee.1, <[val SecurityLevel.STRONGBOX := curve]> tee.2)) g
  | (Err _, g) => (Ok tee, g)
  | (Panic, g) => (Panic, g)
  end.
Definition new_remote_provisioning (p q : Platform) : G (gmap Z H * gmap Z Z) :=
  '(dev, curve) ← remote_device p (val SecurityLevel.TRUSTED_ENVIRONMENT);
  add_strongbox q ({[val SecurityLevel.TRUSTED_ENVIRONMENT := dev]}, {[val SecurityLevel.TRUSTED_ENVIRONMENT := curve]}).

(** ** [KeyMintDevice] *)

Record KeyMintDevice := { km_dev : H; dev_uuid : Uuid; version : Z; dev_level : Z }.
Definition KEY_MASTER_V4_1 : Z := 41.

Definition get (p : Platform) (level : Z) : G KeyMintDevice :=
  '(asp, hw, uuid) ← get_keymint_device p level;
  dev ← lift (get_interface p asp);
  mret {| km_dev := dev; dev_uuid := uuid; version := versionNumber hw; dev_level := securityLevel hw |}.
Definition get_or_none (p : Platform) (level : Z) : G (option KeyMintDevice) := fun g =>
  match get p level g with
  | (Ok d, g) => (Ok (Some d), g)
  | (Err (KsError (Km e)), g) =>
    if e =? val ErrorCode.HARDWARE_TYPE_UNAVAILABLE then (Ok None, g) else (Err (KsError (Km e)), g)
  | (Err e, g) => (Err e, g)
  | (Panic, g) => (Panic, g)
  end.

Definition get_preferred_km_instance_for_level_zero_key (p q : Platform) : G KeyMintDevice :=
  tee ← get p (val SecurityLevel.TRUSTED_ENVIRONMENT);
  if KEY_MASTER_V4_1 <=? version tee then mret tee
  else
    sb ← get_or_none q (val SecurityLevel.STRONGBOX);
    match sb with
    | Some strongbox => mret (if KEY_MASTER_V4_1 <=? version strongbox then strongbox else tee)
    | None => mret tee
    end.

(** ** The caches change by these calls only *)

Inductive step (g : Globals) : Globals -> Prop :=
| step_keymint p level r g' : i32_range level -> get_keymint_device p level g = (r, g') -> step g g'
| step_clock p r g' : get_timestamp_service p g = (r, g') -> step g g'
| step_remote p level r g' : get_remotely_provisioned_component p level g = (r, g') -> step g g'.

(** ** A device is connected to once *)

Record globals_inv (g : Globals) : Prop := {
  inv_uuid : forall level uuid, uuid_by_sec_level (key_mint_devices g) !! level = Some uuid ->
    i32_range level /\ uuid = uuid_of_security_level level /\ is_Some (devices_by_uuid (key_mint_devices g) !! uuid);
  inv_level : forall uuid, is_Some (devices_by_uuid (key_mint_devices g) !! uuid) ->
    exists level, uuid_by_sec_level (key_mint_devices g) !! level = Some uuid
}.
End Globals.

(** The uuid of a level tells it apart from every other. *)
Lemma be_bytes_inj n z w : 0 <= z < 256 ^ Z.of_nat n -> 0 <= w < 256 ^ Z.of_nat n -> be_bytes n z = be_bytes n w -> z = w.
Proof.
  revert z w. induction n as [|n IH]; intros z w Hz Hw E; [simpl in *; lia|].
  rewrite Nat2Z.inj_succ, Z.pow_succ_r in Hz, Hw by lia.
  simpl in E. apply app_inj_tail in E as [E1 E2]. apply IH in E1.
  - rewrite (Z.div_mod z 256), (Z.div_mod w 256) by lia. congruence.
  - split; [apply Z.div_pos; lia|apply Z.div_lt_upper_bound; lia].
  - split; [apply Z.div_pos; lia|apply Z.div_lt_upper_bound; lia].
Qed.
Lemma uuid_of_level_inj l l' : i32_range l -> i32_range l' -> uuid_of_security_level l = uuid_of_security_level l' -> l = l'.
Proof.
  unfold uuid_of_security_level, i32_range, as_u128. intros H H' E.
  apply be_bytes_inj in E; [|apply Z.mod_pos_bound; lia..].
  assert (forall z, -2^31 <= z < 2^31 -> z mod 2^128 = if z <? 0 then 2^128 + z else z) as Hm.
  { intros z Hz. destruct (Z.ltb_spec z 0); [|apply Z.mod_small; lia]. rewrite <- (Z.mod_add z 1), Z.mod_small by lia. lia. }
  rewrite !Hm in E by done. destruct (Z.ltb_spec l 0), (Z.ltb_spec l' 0); lia.
Qed.

Section GlobalsProofs.
Context {AI : Aidl} {H : Type} (NAME_NOT_FOUND : Z).
Abbreviation Globals := (@Globals H).
Abbreviation step := (step NAME_NOT_FOUND).
Abbreviation get_keymint_device := (get_keymint_device NAME_NOT_FOUND).
Implicit Types (g : Globals) (p q : Platform H).

Lemma insert_device_found level dev hw (m : @DevicesMap H) :
  dev_by_sec_level (insert_device level dev hw m) level = Some (dev, hw, uuid_of_security_level level).
Proof. unfold dev_by_sec_level, dev_by_uuid, insert_device. simpl. rewrite lookup_insert_eq. simpl. by rewrite lookup_insert_eq. Qed.

(** A connection that was not there is made and kept, or nothing changes. *)
Lemma get_keymint_device_cases p level g r g' :
  get_keymint_device p level g = (r, g') ->
  (exists d, r = Ok d /\ dev_by_sec_level (key_mint_devices g) level = Some d /\ g' = g) \/
  (dev_by_sec_level (key_mint_devices g) level = None /\
   ((exists dev hw, connect_keymint NAME_NOT_FOUND p level = Ok (dev, hw) /\ r = Ok (dev, hw, uuid_of_security_level level) /\
       g' = set_devices (insert_device level dev hw (key_mint_devices g)) g) \/
    (is_ok r = false /\ g' = g))).
Proof.
  unfold Devices.get_keymint_device. destruct (dev_by_sec_level _ level) as [d|] eqn:E; [intros; simplify_eq; eauto|].
  destruct (connect_keymint _ p level) as [[dev hw]|e|]; intros; simplify_eq; right; (split; [done|]); [left|by right..].
  exists dev, hw. by rewrite insert_device_found.
Qed.

Lemma set_devices_inv g level dev hw :
  i32_range level -> globals_inv g -> globals_inv (set_devices (insert_device level dev hw (key_mint_devices g)) g).
Proof.
  intros Hl [H1 H2]. split; simpl.
  - intros l u. destruct (decide (l = level)) as [->|Hne].
    + rewrite lookup_insert_eq. intros; simplify_eq. rewrite lookup_insert_eq. eauto.
    + rewrite lookup_insert_ne by done. intros (? & -> & ?)%H1. split_and!; [done|done|]. rewrite lookup_insert. case_decide; eauto.
  - intros u. destruct (decide (u = uuid_of_security_level level)) as [->|Hne].
    + exists level. by rewrite lookup_insert_eq.
    + rewrite lookup_insert_ne by done. intros (l & Hu)%H2. exists l. destruct (decide (l = level)) as [->|]; [|by rewrite lookup_insert_ne].
      apply H1 in Hu as (_ & ? & _). congruence.
Qed.

Lemma globals_inv_step g g' : globals_inv g -> step g g' -> globals_inv g'.
Proof.
  intros Hi Hs. inversion Hs as [p level r ? Hl E|p r ? E|p level r ? E]; subst.
  - apply get_keymint_device_cases in E as [(? & _ & _ & ->)|(_ & [(dev & hw & _ & _ & ->)|[_ ->]])]; [done|by apply set_devices_inv|done].
  - unfold get_timestamp_service in E. repeat case_match; simplify_eq; by destruct Hi.
  - unfold get_remotely_provisioned_component in E. repeat case_match; simplify_eq; by destruct Hi.
Qed.
Lemma no_devices_inv : globals_inv (@no_devices H).
Proof. split; simpl; [intros l u; by rewrite lookup_empty|intros u [x Hx]; by rewrite lookup_empty in Hx]. Qed.
Lemma globals_reachable_inv g : rtc step no_devices g -> globals_inv g.
Proof.
  intros Hr. assert (forall g0, rtc step g0 g -> globals_inv g0 -> globals_inv g) as Hgo.
  { clear. induction 1; eauto using globals_inv_step. }
  eauto using no_devices_inv.
Qed.

Lemma dev_by_sec_level_keeps g g' level d :
  globals_inv g -> step g g' ->
  dev_by_sec_level (key_mint_devices g) level = Some d -> dev_by_sec_level (key_mint_devices g') level = Some d.
Proof.
  intros [Hi _] Hs Hd. inversion Hs as [p l r ? Hl E|p r ? E|p l r ? E]; subst.
  - apply get_keymint_device_cases in E as [(? & _ & _ & ->)|(Hn & [(dev & hw & _ & _ & ->)|[_ ->]])]; [done| |done]. simpl.
    revert Hn Hd. unfold dev_by_sec_level, dev_by_uuid, insert_device. simpl.
    destruct (decide (l = level)) as [->|Hne]; [congruence|]. intros Hn (u & Hu & Hd)%bind_Some.
    rewrite lookup_insert_ne, Hu by done. simpl. apply fmap_Some in Hd as (x & Hx & ->).
    apply Hi in Hu as (Hl' & -> & _). rewrite lookup_insert_ne, Hx; [done|].
    intros E%uuid_of_level_inj; congruence.
  - unfold get_timestamp_service in E. repeat case_match; simplify_eq; done.
  - unfold get_remotely_provisioned_component in E. repeat case_match; simplify_eq; done.
Qed.
Lemma dev_by_sec_level_stays g g' level d :
  globals_inv g -> rtc step g g' ->
  dev_by_sec_level (key_mint_devices g) level = Some d -> dev_by_sec_level (key_mint_devices g') level = Some d.
Proof. intros Hi Hr. revert Hi. induction Hr; eauto using globals_inv_step, dev_by_sec_level_keeps. Qed.

Lemma got_device p level g d g' :
  globals_inv g -> i32_range level -> get_keymint_device p level g = (Ok d, g') ->
  step g g' /\ dev_by_sec_level (key_mint_devices g') level = Some d /\ d.2 = uuid_of_security_level level.
Proof.
  intros Hi Hl E. split; [by econstructor|]. apply get_keymint_device_cases in E as [(d' & ? & Hd & ->)|(_ & [(dev & hw & _ & ? & ->)|[? _]])]; simplify_eq/=; [|by rewrite insert_device_found].
  split; [done|]. apply bind_Some in Hd as (u & Hu & Hd). apply fmap_Some in Hd as (x & _ & ->). by apply (inv_uuid _ Hi) in Hu as (_ & -> & _).
Qed.

Lemma cached_by_uuid g level d :
  dev_by_sec_level (key_mint_devices g) level = Some d -> get_keymint_dev_by_uuid d.2 g = Ok d.1.
Proof.
  intros (u & Hu & Hd)%bind_Some. unfold get_keymint_dev_by_uuid. assert (d.2 = u) as -> by (by apply fmap_Some in Hd as (x & _ & ->)).
  rewrite Hd. by destruct d as [[]].
Qed.

(** a KeyMint device is connected to once.  After any calls and whatever
    the platform answered before: when a level yields a device, its uuid is
    that of the level and of no other one, and from then on, also when the
    platform changes or the device can no longer be reached, the level yields
    the same device, and its uuid finds it. *)
Theorem device_connected_once p level g d g1 g2 :
  rtc step no_devices g -> i32_range level -> get_keymint_device p level g = (Ok d, g1) -> rtc step g1 g2 ->
  d.2 = uuid_of_security_level level /\ (forall q, get_keymint_device q level g2 = (Ok d, g2)) /\
  get_keymint_dev_by_uuid d.2 g2 = Ok d.1 /\
  forall q level' d' g3, i32_range level' -> get_keymint_device q level' g2 = (Ok d', g3) -> d'.2 = d.2 -> level' = level.
Proof.
  intros Hr Hl E Hr2. pose proof (globals_reachable_inv g Hr) as Hi.
  destruct (got_device p level g d g1 Hi Hl E) as (Hs & Hd & Hu). pose proof (globals_inv_step _ _ Hi Hs) as Hi1.
  pose proof (dev_by_sec_level_stays _ _ _ _ Hi1 Hr2 Hd) as Hd2. split_and!; [done| |by eapply cached_by_uuid|].
  - intros q. unfold Devices.get_keymint_device. by rewrite Hd2.
  - intros q level' d' g3 Hl' E' Hsame.
    assert (globals_inv g2) as Hi2 by (apply globals_reachable_inv; etrans; [exact Hr|]; by eapply rtc_l).
    destruct (got_device q level' g2 d' g3 Hi2 Hl' E') as (_ & _ & Hu'). apply uuid_of_level_inj; congruence.
Qed.

(** ** The service *)

Lemma new_security_level_Ok p level g k u g' :
  new_security_level NAME_NOT_FOUND p level g = (Ok (k, u), g') ->
  exists d, get_keymint_device p level g = (Ok d, g') /\ u = d.2 /\ ksl_km_uuid k = u /\ keymint k = d.1.1 /\ security_level k = level.
Proof.
  unfold new_security_level. intros ([[dev hw] km] & g1 & E & Hr)%sr_bind_Ok. unfold mret, sr_ret in Hr. simplify_eq.
  eexists. split; [exact E|]. done.
Qed.
Lemma new_security_level_step p level g r g' :
  i32_range level -> new_security_level NAME_NOT_FOUND p level g = (r, g') -> step g g'.
Proof.
  unfold new_security_level, mbind, sr_bind, mret, sr_ret. intros Hl Hr. destruct (get_keymint_device p level g) as [r0 g0] eqn:E.
  assert (g' = g0) as -> by (by destruct r0 as [[[? ?] ?]| |]; simplify_eq). by econstructor.
Qed.

(** A level of the service: known under its own uuid, and connected. *)
Definition served (svc : KeystoreService) (own : result AnyError unit) g : Prop := forall level uuid,
  Service.uuid_by_sec_level svc !! level = Some uuid ->
  (level = val SecurityLevel.TRUSTED_ENVIRONMENT \/ level = val SecurityLevel.STRONGBOX) /\
  uuid = uuid_of_security_level level /\ Service.i_sec_level_by_uuid svc !! uuid = Some own /\
  exists d, dev_by_sec_level (key_mint_devices g) level = Some d.

Lemma new_keystore_service_served p q own mig g svc mig' g1 :
  globals_inv g -> new_keystore_service NAME_NOT_FOUND p q own mig g = (Ok (svc, mig'), g1) ->
  globals_inv g1 /\ is_Some (Service.uuid_by_sec_level svc !! val SecurityLevel.TRUSTED_ENVIRONMENT) /\ served svc own g1.
Proof.
  intros Hi E. unfold new_keystore_service in E. destruct (new_security_level _ p _ g) as [[[k u]| |] ga] eqn:Et; simplify_eq.
  assert (Hsa := new_security_level_step _ _ _ _ _ (val_i32 _) Et).
  apply new_security_level_Ok in Et as (d & Ed & -> & _). destruct (got_device _ _ _ _ _ Hi (val_i32 _) Ed) as (_ & Hd & Hu).
  pose proof (globals_inv_step _ _ Hi Hsa) as Hia.
  destruct (new_security_level _ q _ ga) as [sb gb] eqn:Es. assert (Hsb := new_security_level_step _ _ _ _ _ (val_i32 _) Es).
  pose proof (globals_inv_step _ _ Hia Hsb) as Hib. pose proof (dev_by_sec_level_keeps _ _ _ _ Hia Hsb Hd) as Hdb.
  destruct sb as [[k' u']| |]; simplify_eq; (split; [done|]); simpl.
  - apply new_security_level_Ok in Es as (d' & Ed' & -> & _). destruct (got_device _ _ _ _ _ Hia (val_i32 _) Ed') as (_ & Hd' & Hu').
    split; [rewrite lookup_insert, lookup_singleton_eq; case_decide; eauto|]. intros level uuid. simpl. rewrite Hu, Hu'.
    destruct (decide (level = val SecurityLevel.STRONGBOX)) as [->|Hne].
    + rewrite lookup_insert_eq. intros; simplify_eq. rewrite lookup_insert_eq. eauto 10.
    + rewrite lookup_insert_ne by done. intros [<- <-]%lookup_singleton_Some. split_and!; [by left|done| |eauto].
      rewrite lookup_insert, lookup_singleton_eq. by case_decide.
  - split; [rewrite lookup_singleton_eq; eauto|]. intros level uuid. simpl. intros [<- <-]%lookup_singleton_Some.
    split_and!; [by left|done|by rewrite lookup_singleton_eq|eauto].
Qed.

Lemma uuid_to_sec_level_inv svc level uuid :
  (forall l u, Service.uuid_by_sec_level svc !! l = Some u -> i32_range l /\ u = uuid_of_security_level l) ->
  Service.uuid_by_sec_level svc !! level = Some uuid -> uuid_to_sec_level svc uuid = level.
Proof.
  intros Hall Hl. unfold uuid_to_sec_level. destruct (find _ _) as [[l v]|] eqn:E.
  - apply find_some in E as [Hin Hv]. apply list_elem_of_In, elem_of_map_to_list in Hin. apply bool_decide_eq_true in Hv as ->.
    destruct (Hall _ _ Hin) as [? ?], (Hall _ _ Hl) as [? ?]. apply uuid_of_level_inj; congruence.
  - apply elem_of_map_to_list, list_elem_of_In in Hl. apply (find_none _ _ E) in Hl. by rewrite bool_decide_true in Hl.
Qed.

(** every key has its device.  A Keystore service only starts with a
    trusted environment; StrongBox is there if it could be connected.  For
    each level the service knows, its uuid leads back to the level, and from
    then on the connection the garbage collector and the operations look up
    by this uuid is in the cache, as [get_keymint_dev_by_uuid] relies on. *)
Theorem service_devices_cached p q own mig g svc mig' g1 g2 :
  rtc step no_devices g -> new_keystore_service NAME_NOT_FOUND p q own mig g = (Ok (svc, mig'), g1) -> rtc step g1 g2 ->
  is_Some (Service.uuid_by_sec_level svc !! val SecurityLevel.TRUSTED_ENVIRONMENT) /\
  forall level uuid, Service.uuid_by_sec_level svc !! level = Some uuid ->
    (level = val SecurityLevel.TRUSTED_ENVIRONMENT \/ level = val SecurityLevel.STRONGBOX) /\
    uuid_to_sec_level svc uuid = level /\ Service.i_sec_level_by_uuid svc !! uuid = Some own /\
    exists d, get_keymint_dev_by_uuid uuid g2 = Ok d.
Proof.
  intros Hr E Hr2. destruct (new_keystore_service_served _ _ _ _ _ _ _ _ (globals_reachable_inv g Hr) E) as (Hi1 & Htee & Hs).
  split; [done|]. intros level uuid Hl. destruct (Hs _ _ Hl) as (Hlev & -> & Hown & d & Hd). split_and!; [done| |done|].
  - apply uuid_to_sec_level_inv; [|done]. intros l u Hlu. destruct (Hs _ _ Hlu) as ([-> | ->] & -> & _); split; auto using val_i32.
  - pose proof (dev_by_sec_level_stays _ _ _ _ Hi1 Hr2 Hd) as Hd2.
    assert (globals_inv g2) as Hi2 by (clear -Hi1 Hr2; induction Hr2; eauto using globals_inv_step).
    assert (uuid_of_security_level level = d.2) as ->; [|eauto using cached_by_uuid].
    apply bind_Some in Hd2 as (u & Hu & Hd2). apply fmap_Some in Hd2 as (x & _ & ->). by apply (inv_uuid _ Hi2) in Hu as (_ & -> & _).
Qed.
End GlobalsProofs.

(** ** The key of boot level zero *)

Section LevelZero.
Context {AI : Aidl} {H : Type} (NAME_NOT_FOUND : Z) {K : Type} (device : Uuid -> KeyMint K).
Context (AID_KEYSTORE SHA_2_256 : Z) (now : result AnyError Z).
Implicit Types (dev : @KeyMintDevice H).

Definition has_early_boot_only dev : bool := KEY_MASTER_V4_1 <=? version dev.
(** The tag that keeps the key from being used after early boot. *)
Definition restriction dev : KmKeyParameter := into_km (if has_early_boot_only dev then EarlyBootOnly else MaxUsesPerBoot 1).
Definition level_zero_params dev : list KmKeyParameter :=
  (into_km <$> [KeyParameter.Algorithm (val Algorithm.HMAC); KeyParameter.Digest SHA_2_256; KeySize 256; MinMacLength 256;
                KeyParameter.KeyPurpose (val KeyPurpose.SIGN); NoAuthRequired]) ++ [restriction dev].
Definition is_restriction dev (a : KmKeyParameter) : bool :=
  match has_early_boot_only dev, value a with
  | true, Field.BoolValue true => tag a =? val Tag.EARLY_BOOT_ONLY
  | false, Field.Integer n => (tag a =? val Tag.MAX_USES_PER_BOOT) && (n =? 1)
  | _, _ => false
  end.
Definition validate_characteristics dev (l : list KeyCharacteristics) : bool :=
  existsb (fun kc => (kc_level kc =? dev_level dev) && existsb (is_restriction dev) (kc_authorizations kc)) l.

Definition level_zero_key (draws : list Z) dev : sr (World K) AnyError bytes :=
  '(key_id, key_blob) ← lookup_or_generate_key (KMI := device (dev_uuid dev)) (dev_uuid dev) AID_KEYSTORE now draws
      (internal_descriptor AID_KEYSTORE "boot_level_key") KeyType.Client (level_zero_params dev) (validate_characteristics dev);
  use_key_in_one_step (KMI := device (dev_uuid dev)) (dev_uuid dev) key_id (deref key_blob) (val KeyPurpose.SIGN)
    (into_km <$> [MacLength 256; KeyParameter.Digest SHA_2_256]) None (bytes_of_string "Create boot level key").

Definition get_level_zero_key (p q : Platform H) (draws : list Z) : sr (@Globals H * World K) AnyError bytes := fun '(g, w) =>
  match get_preferred_km_instance_for_level_zero_key NAME_NOT_FOUND p q g with
  | (Ok dev, g) => let '(r, w) := level_zero_key draws dev w in (r, (g, w))
  | (Err e, g) => (Err e, (g, w))
  | (Panic, g) => (Panic, (g, w))
  end.

(** A blob the device accepted as restricted, or one it was just asked to
    make so. *)
Definition validated dev (b : bytes) : Prop := exists k k' chars,
  km_getKeyCharacteristics (KeyMint := device (dev_uuid dev)) b k = (Ok chars, k') /\ validate_characteristics dev chars = true.
Definition generated dev (draws : list Z) (b : bytes) : Prop := exists w1 w2 key_id e m,
  create_and_store_key (dev_uuid dev) now draws (internal_descriptor AID_KEYSTORE "boot_level_key") KeyType.Client
    (km_generateKey (KeyMint := device (dev_uuid dev)) (level_zero_params dev) None) w1 = (Ok tt, w2) /\
  lookup_from_desc AID_KEYSTORE (internal_descriptor AID_KEYSTORE "boot_level_key") KeyType.Client w2 = (Ok (key_id, e), w2) /\
  ke_key_blob_info e = Some (b, m).

(** The call that succeeds is made with the blob that is returned. *)
Lemma upgrade_used `{KMI : !KeyMint K} {A} uuid key_id kb (f : bytes -> sr (World K) Error A) w a kb' w' :
  RawDevice.upgrade_keyblob_if_required_with uuid key_id kb f w = (Ok (a, kb'), w') -> exists v v', f (deref kb') v = (Ok a, v').
Proof.
  unfold RawDevice.upgrade_keyblob_if_required_with. destruct (f (deref kb) w) as [[a0|e|] w0] eqn:E0; [|case_bool_decide; [|done]|done].
  - intros; simplify_eq. eauto.
  - intros (up & w1 & _ & Hr)%sr_bind_Ok. apply sr_bind_Ok in Hr as ([] & w2 & _ & Hr).
    apply sr_bind_Ok in Hr as (a1 & w3 & H3%any_Ok & Hr). unfold mret, sr_ret in Hr. simplify_eq. eauto.
Qed.
Lemma with_km_Ok {A} (m : sr K BinderStatus A) w a w' : with_km m w = (Ok a, w') -> m (w_km w) = (Ok a, w_km w').
Proof. unfold with_km. destruct (m (w_km w)) as [[]]; intros; by simplify_eq/=. Qed.

Lemma lookup_restricted draws dev w key_id kb w' :
  lookup_or_generate_key (KMI := device (dev_uuid dev)) (dev_uuid dev) AID_KEYSTORE now draws
    (internal_descriptor AID_KEYSTORE "boot_level_key") KeyType.Client (level_zero_params dev) (validate_characteristics dev) w
    = (Ok (key_id, kb), w') ->
  validated dev (deref kb) \/ generated dev draws (deref kb).
Proof.
  unfold lookup_or_generate_key. intros (found & w1 & _ & Hr)%sr_bind_Ok. apply sr_bind_Ok in Hr as (reuse & w2 & Hreuse & Hr).
  destruct reuse as [r|].
  - unfold mret, sr_ret in Hr. simplify_eq. left. destruct found as [[id e]|]; [|unfold mret, sr_ret in Hreuse; by simplify_eq].
    destruct (own_blob _ e) as [b|]; [|unfold mret, sr_ret in Hreuse; by simplify_eq].
    apply sr_bind_Ok in Hreuse as ([chars b'] & w3 & Hu & Hv). unfold mret, sr_ret in Hv.
    destruct (validate_characteristics dev chars) eqn:Ev; simplify_eq.
    apply upgrade_used in Hu as (v & v' & Hk%with_km_Ok). by exists (w_km v), (w_km v'), chars.
  - right. unfold generate_and_lookup in Hr. apply sr_bind_Ok in Hr as ([] & w3 & Hc & Hr).
    apply sr_bind_Ok in Hr as ([id e] & w4 & Hl & Hr). assert (w4 = w3) as -> by (unfold lookup_from_desc in Hl; by simplify_eq).
    apply sr_bind_Ok in Hr as ([b m] & w5 & Hb & Hr). unfold mret, sr_ret, lift in *.
    destruct (ke_key_blob_info e) as [[b0 m0]|] eqn:Ee; simplify_eq/=. by exists w2, w', key_id, e, m.
Qed.

Lemma preferred_device p q g dev g' :
  get_preferred_km_instance_for_level_zero_key NAME_NOT_FOUND p q g = (Ok dev, g') ->
  exists tee g1, get NAME_NOT_FOUND p (val SecurityLevel.TRUSTED_ENVIRONMENT) g = (Ok tee, g1) /\
    (has_early_boot_only tee = true /\ dev = tee \/
     has_early_boot_only tee = false /\
     match get NAME_NOT_FOUND q (val SecurityLevel.STRONGBOX) g1 with
     | (Ok sb, _) => dev = if has_early_boot_only sb then sb else tee
     | (Err e, _) => e = unavailable /\ dev = tee
     | (Panic, _) => False
     end).
Proof.
  unfold get_preferred_km_instance_for_level_zero_key. intros (tee & g1 & Et & Hr)%sr_bind_Ok. exists tee, g1. split; [done|].
  unfold has_early_boot_only. destruct (KEY_MASTER_V4_1 <=? version tee); [left; unfold mret, sr_ret in Hr; by simplify_eq|right].
  split; [done|]. apply sr_bind_Ok in Hr as (sb & g2 & Es & Hr). unfold get_or_none in Es.
  destruct (get NAME_NOT_FOUND q _ g1) as [[d|e|] g3].
  - simplify_eq. unfold mret, sr_ret in Hr. by simplify_eq.
  - destruct e as [[]| |]; simplify_eq. destruct (Z.eqb_spec code (val ErrorCode.HARDWARE_TYPE_UNAVAILABLE)); simplify_eq.
    unfold mret, sr_ret in Hr. by simplify_eq.
  - simplify_eq.
Qed.

(** C16: the secret below all boot levels comes from a key that is out of reach
    after early boot.  It is the answer of the chosen device to an operation
    on a key that the device either confirmed to be restricted or just made
    so: to early boot, or to one use per boot on a device that does not know
    early boot, which is only chosen if the trusted environment does not know
    it and no StrongBox does. *)
Theorem level_zero_key_restricted p q draws g w k g' w' :
  get_level_zero_key p q draws (g, w) = (Ok k, (g', w')) ->
  exists dev b, get_preferred_km_instance_for_level_zero_key NAME_NOT_FOUND p q g = (Ok dev, g') /\
    (validated dev b \/ generated dev draws b) /\
    (exists b' ks ks' k1 k2 op br, (b' = b \/ exists k3 k4, km_upgradeKey (KeyMint := device (dev_uuid dev)) b [] k3 = (Ok b', k4)) /\
      km_begin (KeyMint := device (dev_uuid dev)) (val KeyPurpose.SIGN) b' (into_km <$> [MacLength 256; KeyParameter.Digest SHA_2_256]) None ks
        = (Ok br, ks') /\ br_operation br = Some op /\
      km_finish (KeyMint := device (dev_uuid dev)) op (bytes_of_string "Create boot level key") k1 = (Ok k, k2)) /\
    (has_early_boot_only dev = false -> exists tee g1,
       get NAME_NOT_FOUND p (val SecurityLevel.TRUSTED_ENVIRONMENT) g = (Ok tee, g1) /\ dev = tee /\
       forall sb g2, get NAME_NOT_FOUND q (val SecurityLevel.STRONGBOX) g1 = (Ok sb, g2) -> has_early_boot_only sb = false).
Proof.
  unfold get_level_zero_key. destruct (get_preferred_km_instance_for_level_zero_key _ p q g) as [[dev|e|] g1] eqn:Ep; [|by intros; simplify_eq..].
  destruct (level_zero_key draws dev w) as [r w1] eqn:El. intros; simplify_eq. unfold level_zero_key in El.
  apply sr_bind_Ok in El as ([key_id kb] & w2 & Hl & Hu). exists dev, (deref kb). split_and!; [done|by eapply lookup_restricted| |].
  - unfold use_key_in_one_step in Hu. apply sr_bind_Ok in Hu as ([br b'] & w3 & Hb & Hu). apply sr_bind_Ok in Hu as (op & w4 & Ho & Hu).
    unfold lift in Ho. destruct (br_operation br) as [o|] eqn:Eo; simplify_eq/=. apply any_Ok, with_km_Ok in Hu.
    assert (deref b' = deref kb \/ exists k3 k4, km_upgradeKey (KeyMint := device (dev_uuid dev)) (deref kb) [] k3 = (Ok (deref b'), k4)) as Hup.
    { unfold RawDevice.upgrade_keyblob_if_required_with in Hb. simpl in Hb.
      destruct (with_km _ w2) as [[a0|e|] w0]; [by simplify_eq; left| |done]. case_bool_decide; [right|done].
      apply sr_bind_Ok in Hb as (up & w5 & Hk%any_Ok%with_km_Ok & Hb). apply sr_bind_Ok in Hb as ([] & w6 & _ & Hb).
      apply sr_bind_Ok in Hb as (a1 & w7 & _ & Hb). unfold mret, sr_ret in Hb. simplify_eq. eauto. }
    apply upgrade_used in Hb as (v & v' & Hb%with_km_Ok).
    exists (deref b'), (w_km v), (w_km v'), (w_km w4), (w_km w'), op, br. done.
  - intros Hno. apply preferred_device in Ep as (tee & g1 & Et & [[Hy ->]|[Hn Hsb]]); [congruence|].
    exists tee, g1. split; [done|]. destruct (get NAME_NOT_FOUND q _ g1) as [[sb|e|] g2]; [|by destruct Hsb as [_ ->]|done].
    destruct (has_early_boot_only sb) eqn:Esb; subst; [congruence|]. split; [done|]. intros; by simplify_eq.
Qed.
End LevelZero.

(** ** A device with a KeyMint trusted environment and no StrongBox *)

#[local] Existing Instance aidl_published.
#[local] Existing Instance stale_km.

(** Remote objects are numbers: 1 is the KeyMint device, 2 the clock. *)
Definition demo_platform : Platform Z := {|
  instances := fun s => if String.eqb s KEYMINT_SERVICE_NAME then Ok ["default"%string] else Ok [];
  get_service := fun s => if String.eqb s (KEYMINT_SERVICE_NAME ++ "/default") then Ok 1 else Err (-22);
  compat_service := Ok tt;
  compat_getKeyMintDevice := fun _ => Err {| exception_code := TRANSACTION_FAILED; service_specific_error := 0; transaction_error := -2 |};
  compat_getSecureClock := Ok 2;
  getHardwareInfo := fun _ => Ok {| versionNumber := 7; securityLevel := 1 |};
  supportedEekCurve := fun _ => Ok 2;
  into_interface := fun _ => true
|}.
(** The same platform after its services died. *)
Definition dead_platform : Platform Z := {|
  instances := fun _ => Ok []; get_service := fun _ => Err (-22); compat_service := Err (-32);
  compat_getKeyMintDevice := fun _ => Err {| exception_code := TRANSACTION_FAILED; service_specific_error := 0; transaction_error := -32 |};
  compat_getSecureClock := Err {| exception_code := TRANSACTION_FAILED; service_specific_error := 0; transaction_error := -32 |};
  getHardwareInfo := fun _ => Ok {| versionNumber := 0; securityLevel := 0 |}; supportedEekCurve := fun _ => Ok 2; into_interface := fun _ => false
|}.
Definition tee_level : Z := val SecurityLevel.TRUSTED_ENVIRONMENT.
Definition tee_device : Z * KeyMintHardwareInfo * Uuid := (1, {| versionNumber := 100; securityLevel := 1 |}, uuid_of_security_level tee_level).
Definition tee_connected : @Globals Z := snd (get_keymint_device (-2) demo_platform tee_level no_devices).
Definition clock_connected : @Globals Z := snd (get_timestamp_service (-2) demo_platform tee_connected).

Lemma device_connected_once_witness : get_keymint_device (-2) dead_platform tee_level clock_connected = (Ok tee_device, clock_connected).
Proof.
  destruct (device_connected_once (-2) demo_platform tee_level no_devices tee_device tee_connected clock_connected) as (_ & Hq & _).
  - apply rtc_refl.
  - vm_compute. split; congruence.
  - vm_compute. reflexivity.
  - apply rtc_once. eapply (step_clock _ _ demo_platform). vm_compute. reflexivity.
  - apply Hq.
Defined.

Definition demo_service : KeystoreService := {|
  Service.i_sec_level_by_uuid := {[uuid_of_security_level tee_level := Ok tt]};
  Service.uuid_by_sec_level := {[tee_level := uuid_of_security_level tee_level]} |}.
Definition no_migrator : Migrator := new_migrator {| dirs := ∅; root_broken := false; broken_dirs := ∅; broken_files := ∅ |} (Ok 0) [] [].
Lemma service_devices_cached_witness : exists d, get_keymint_dev_by_uuid (uuid_of_security_level tee_level) clock_connected = Ok d.
Proof.
  destruct (service_devices_cached (-2) demo_platform demo_platform (Ok tt) no_migrator no_devices demo_service
    (set_init (Service.uuid_by_sec_level demo_service) no_migrator) tee_connected clock_connected) as [_ Hall].
  - apply rtc_refl.
  - vm_compute. reflexivity.
  - apply rtc_once. eapply (step_clock _ _ demo_platform). vm_compute. reflexivity.
  - apply (Hall tee_level). reflexivity.
Defined.

Definition empty_world : World unit := {| w_db := empty_tables; w_km := tt; w_gc := false |}.
Definition level_zero_call := get_level_zero_key (-2) (fun _ => stale_km) 1017 4 (Ok 5) demo_platform demo_platform [77] (no_devices, empty_world).
Lemma level_zero_key_restricted_witness :
  exists dev b, get_preferred_km_instance_for_level_zero_key (-2) demo_platform demo_platform no_devices = (Ok dev, tee_connected) /\
    has_early_boot_only dev = true /\ (validated (fun _ => stale_km) dev b \/ generated (fun _ => stale_km) 1017 4 (Ok 5) dev [77] b).
Proof.
  destruct (level_zero_key_restricted (-2) (fun _ => stale_km) 1017 4 (Ok 5) demo_platform demo_platform [77] no_devices empty_world
    (bytes_of_string "Create boot level key") (fst (snd level_zero_call)) (snd (snd level_zero_call))) as (dev & b & Hp & Hb & _).
  - vm_compute. reflexivity.
  - exists dev, b. assert (fst (snd level_zero_call) = tee_connected) as <- by (vm_compute; reflexivity).
    split_and!; [exact Hp| |exact Hb]. vm_compute in Hp. injection Hp as <-. reflexivity.
Defined.
