(* ===== verification/Zvec.v ===== *)
(** * Zeroing buffers ([keystore2/src/crypto/zvec.rs])

    [ZVec]: a byte buffer whose memory is locked while it lives and wiped when
    it is dropped.  Memory is explicit here, since that is what the type is
    about: bytes by address, which stay when memory is freed, and the locked
    pages.  The allocator chooses addresses, [mlock] may fail, and other code
    writes wherever no [ZVec] lives.  In the other files a [ZVec] is its
    bytes, which [zvec_safe] justifies. *)

From stdpp Require Import base list gmap sets.
From Stdlib Require Import ZArith Lia.
From S2P Require Import Prelude Aidl.

Record Memory := { cells : gmap Z Z; locked : gset Z }.
Definition PAGE_SIZE : Z := 4096.

Definition cell (m : Memory) (a : Z) : Z := default 0 (cells m !! a).
Definition region (p : Z) (n : nat) : gset Z := list_to_set ((fun i => p + Z.of_nat i) <$> seq 0 n).
Definition pages (p : Z) (n : nat) : gset Z := set_map (fun a => a / PAGE_SIZE) (region p n).
Definition load (p : Z) (n : nat) (m : Memory) : bytes := (fun i => cell m (p + Z.of_nat i)) <$> seq 0 n.
Fixpoint store (p : Z) (bs : bytes) (m : Memory) : Memory :=
  match bs with
  | [] => m
  | b :: bs => store (p + 1) bs {| cells := <[p := b]> (cells m); locked := locked m |}
  end.
(** A page is locked or not: locks on the same page do not add up. *)
Definition mlock (p : Z) (n : nat) (m : Memory) : Memory := {| cells := cells m; locked := locked m ∪ pages p n |}.
Definition munlock (p : Z) (n : nat) (m : Memory) : Memory := {| cells := cells m; locked := locked m ∖ pages p n |}.

(** [elems] is the box of [cap] bytes at [ptr]. *)
Record ZVec := { ptr : Z; cap : nat; len : nat }.
#[global] Instance ZVec_eq_dec : EqDecision ZVec.
Proof. solve_decision. Defined.
Definition box (z : ZVec) : gset Z := region (ptr z) (cap z).

Section Zvec.
Context {E : Type}.
Abbreviation R := (sr Memory E).

(** [answer] is what [mlock] returns; when it fails the box is freed as it
    is. *)
Definition lock_box (answer : result E unit) (z : ZVec) : R ZVec := fun m =>
  if bool_decide (cap z = 0%nat) then (Ok z, m)
  else match answer with
       | Ok _ => (Ok z, mlock (ptr z) (cap z) m)
       | Err e => (Err e, m)
       | Panic => (Panic, m)
       end.

(** [ZVec::new]; [p] is where the allocator puts the box. *)
Definition zvec_new (p : Z) (answer : result E unit) (size : nat) : R ZVec := fun m =>
  lock_box answer {| ptr := p; cap := size; len := size |} (store p (replicate size 0) m).

Definition reduce_len (n : nat) (z : ZVec) : ZVec :=
  if bool_decide (n <= cap z)%nat then {| ptr := ptr z; cap := cap z; len := n |} else z.

(** [&self.elems[0..self.len]]. *)
Definition deref (z : ZVec) (m : Memory) : result E bytes :=
  if bool_decide (len z <= cap z)%nat then Ok (load (ptr z) (len z) m) else Panic.
(** Writing through [deref_mut] with [clone_from_slice], which panics if the
    lengths differ. *)
Definition clone_from_slice (bs : bytes) (z : ZVec) : R unit := fun m =>
  if bool_decide (len z <= cap z)%nat && bool_decide (length bs = len z) then (Ok tt, store (ptr z) bs m) else (Panic, m).

Definition drop_zvec (z : ZVec) (m : Memory) : Memory :=
  let m := store (ptr z) (replicate (cap z) 0) m in
  if bool_decide (cap z = 0%nat) then m else munlock (ptr z) (cap z) m.

(** [TryFrom<&[u8]>]. *)
Definition try_from_slice (p : Z) (answer : result E unit) (v : bytes) : R ZVec :=
  z ← zvec_new p answer (length v);
  if bool_decide (v = []) then mret z else _ ← clone_from_slice v z; mret z.
(** [TryFrom<Vec<u8>>]: the vector of [capacity] bytes at [p] becomes the box
    in place; its spare part is set to zero. *)
Definition try_from_vec (p : Z) (answer : result E unit) (v : bytes) (capacity : nat) : R ZVec := fun m =>
  lock_box answer {| ptr := p; cap := capacity; len := length v |} (store (p + Z.of_nat (length v)) (replicate (capacity - length v) 0) m).

(** ** The buffers of a process *)

(** [wiped]: memory a dropped [ZVec] left that nobody has written since. *)
Record Process := { mem : Memory; live : gmap nat ZVec; wiped : gset Z }.
Definition started (m : Memory) : Process := {| mem := m; live := ∅; wiped := ∅ |}.
Definition free_for (p : Z) (n : nat) (s : Process) : Prop := forall h z, live s !! h = Some z -> region p n ## box z.
Definition created (h : nat) (p : Z) (n : nat) (r : result E ZVec) (m : Memory) (s : Process) : Process :=
  {| mem := m; live := match r with Ok z => <[h := z]> (live s) | _ => live s end; wiped := wiped s ∖ region p n |}.

Inductive step (s : Process) : Process -> Prop :=
| step_new h p answer size r m :
    live s !! h = None -> free_for p size s -> zvec_new p answer size (mem s) = (r, m) -> step s (created h p size r m s)
| step_slice h p answer v r m :
    live s !! h = None -> free_for p (length v) s -> try_from_slice p answer v (mem s) = (r, m) -> step s (created h p (length v) r m s)
| step_vec h p answer v capacity r m :
    live s !! h = None -> free_for p capacity s -> (length v <= capacity)%nat -> load p (length v) (mem s) = v ->
    try_from_vec p answer v capacity (mem s) = (r, m) -> step s (created h p capacity r m s)
| step_reduce h z n :
    live s !! h = Some z -> step s {| mem := mem s; live := <[h := reduce_len n z]> (live s); wiped := wiped s |}
| step_write h z bs r m :
    live s !! h = Some z -> clone_from_slice bs z (mem s) = (r, m) -> step s {| mem := m; live := live s; wiped := wiped s |}
| step_drop h z :
    live s !! h = Some z -> step s {| mem := drop_zvec z (mem s); live := delete h (live s); wiped := wiped s ∪ box z |}
| step_other p bs :
    free_for p (length bs) s -> step s {| mem := store p bs (mem s); live := live s; wiped := wiped s ∖ region p (length bs) |}.

(** ** Memory *)

Lemma elem_of_region p n a : a ∈ region p n <-> p <= a < p + Z.of_nat n.
Proof.
  unfold region. rewrite elem_of_list_to_set, list_elem_of_fmap. split.
  - intros (i & -> & Hi%elem_of_seq). lia.
  - intros H. exists (Z.to_nat (a - p)). split; [lia|]. apply elem_of_seq. lia.
Qed.

Lemma store_cell p bs m a :
  cell (store p bs m) a = if bool_decide (a ∈ region p (length bs)) then default 0 (bs !! Z.to_nat (a - p)) else cell m a.
Proof.
  revert p m. induction bs as [|b bs IH]; intros p m; simpl.
  { rewrite bool_decide_false; [done|]. rewrite elem_of_region. simpl. lia. }
  rewrite IH. unfold cell at 1. simpl. destruct (decide (a = p)) as [->|Hne].
  - rewrite bool_decide_false by (rewrite elem_of_region; lia). rewrite lookup_insert_eq, bool_decide_true by (apply elem_of_region; simpl; lia).
    by rewrite Z.sub_diag.
  - rewrite lookup_insert_ne by done. fold (cell m a). destruct (decide (a ∈ region (p + 1) (length bs))) as [Hin|Hout].
    + rewrite !bool_decide_true by (rewrite ?elem_of_region in *; simpl; lia). apply elem_of_region in Hin.
      replace (Z.to_nat (a - p)) with (S (Z.to_nat (a - (p + 1)))) by lia. done.
    + by rewrite !bool_decide_false by (rewrite ?elem_of_region in *; simpl; lia).
Qed.
Lemma store_outside p bs m a : a ∉ region p (length bs) -> cell (store p bs m) a = cell m a.
Proof. intros H. by rewrite store_cell, bool_decide_false. Qed.
Lemma store_zeros p n m a : a ∈ region p n -> cell (store p (replicate n 0) m) a = 0.
Proof.
  intros H. rewrite store_cell, length_replicate, bool_decide_true by done. destruct (replicate n 0 !! _) eqn:Hl; [|done].
  by apply lookup_replicate in Hl as [-> _].
Qed.
Lemma load_cells_ext p n m m' : (forall a, a ∈ region p n -> cell m a = cell m' a) -> load p n m = load p n m'.
Proof. intros H. apply list_fmap_ext. intros j i Hj%lookup_seq. apply H, elem_of_region. lia. Qed.
Lemma load_length p n m : length (load p n m) = n.
Proof. unfold load. by rewrite length_fmap, length_seq. Qed.
Lemma load_store p bs m : load p (length bs) (store p bs m) = bs.
Proof.
  apply list_eq. intros i. unfold load. rewrite list_lookup_fmap. destruct (decide (i < length bs)%nat) as [Hi|Hi].
  - rewrite lookup_seq_lt by done. simpl. rewrite store_cell, bool_decide_true by (apply elem_of_region; lia).
    replace (Z.to_nat (p + Z.of_nat i - p)) with i by lia. apply lookup_lt_is_Some in Hi as [b ->]. done.
  - rewrite lookup_seq_ge, (proj2 (lookup_ge_None bs i)) by lia. done.
Qed.
Lemma region_mono p n n' : (n <= n')%nat -> region p n ⊆ region p n'.
Proof. intros H a. rewrite !elem_of_region. lia. Qed.

(** What an operation leaves of the memory outside its box. *)
Definition only (X : gset Z) (m m' : Memory) : Prop := forall a, a ∉ X -> cell m' a = cell m a.
Lemma only_refl X m : only X m m.
Proof. done. Qed.
Lemma only_trans X m1 m2 m3 : only X m1 m2 -> only X m2 m3 -> only X m1 m3.
Proof. intros H1 H2 a Ha. rewrite H2, H1; done. Qed.
Lemma only_store X p bs m : region p (length bs) ⊆ X -> only X m (store p bs m).
Proof. intros H a Ha. apply store_outside. set_solver. Qed.
Lemma lock_box_Ok answer z m r m' : lock_box answer z m = (r, m') -> cells m' = cells m /\ (forall z', r = Ok z' -> z' = z).
Proof. unfold lock_box. repeat case_match; intros; simplify_eq; split; try done; intros; by simplify_eq. Qed.
Lemma lock_box_only X answer z m r m' : lock_box answer z m = (r, m') -> only X m m'.
Proof. intros [H _]%lock_box_Ok a _. unfold cell. by rewrite H. Qed.

(** ** The invariant *)

Record zvec_inv (s : Process) : Prop := {
  inv_len : forall h z, live s !! h = Some z -> (len z <= cap z)%nat;
  inv_apart : forall h h' z z', live s !! h = Some z -> live s !! h' = Some z' -> h <> h' -> box z ## box z';
  inv_wiped : forall a, a ∈ wiped s -> cell (mem s) a = 0;
  inv_gone : forall h z, live s !! h = Some z -> wiped s ## box z
}.

(** The three ways to make a buffer write to its box alone. *)
Lemma new_only p answer size m r m' :
  zvec_new p answer size m = (r, m') ->
  only (region p size) m m' /\ forall z, r = Ok z -> z = {| ptr := p; cap := size; len := size |}.
Proof.
  unfold zvec_new. intros H. split; [|by eapply lock_box_Ok]. eapply only_trans; [|by eapply lock_box_only].
  apply only_store. by rewrite length_replicate.
Qed.
Lemma slice_only p answer v m r m' :
  try_from_slice p answer v m = (r, m') ->
  only (region p (length v)) m m' /\ forall z, r = Ok z -> z = {| ptr := p; cap := length v; len := length v |}.
Proof.
  unfold try_from_slice, mbind, sr_bind, mret, sr_ret. destruct (zvec_new p answer (length v) m) as [[z|e|] m1] eqn:En; apply new_only in En as [Ho Hz].
  - pose proof (Hz z eq_refl) as ->. case_bool_decide; [intros; by simplify_eq|]. unfold clone_from_slice. simpl.
    rewrite !bool_decide_true by done. simpl. intros; simplify_eq. split; [|intros; by simplify_eq].
    eapply only_trans; [done|]. by apply only_store.
  - intros; simplify_eq. done.
  - intros; simplify_eq. done.
Qed.
Lemma vec_only p answer v capacity m r m' :
  (length v <= capacity)%nat -> try_from_vec p answer v capacity m = (r, m') ->
  only (region p capacity) m m' /\ forall z, r = Ok z -> z = {| ptr := p; cap := capacity; len := length v |}.
Proof.
  unfold try_from_vec. intros Hc H. split; [|by eapply lock_box_Ok]. eapply only_trans; [|by eapply lock_box_only].
  apply only_store. rewrite length_replicate. intros a. rewrite !elem_of_region. lia.
Qed.

Lemma created_inv s h p n r m z0 :
  zvec_inv s -> live s !! h = None -> free_for p n s -> only (region p n) (mem s) m ->
  (forall z, r = Ok z -> z = z0) -> ptr z0 = p -> cap z0 = n -> (len z0 <= n)%nat -> zvec_inv (created h p n r m s).
Proof.
  intros [H1 H2 H3 H4] Hh Hf Ho Hz Hp Hc Hl. assert (Hbox : box z0 = region p n) by (unfold box; by rewrite Hp, Hc).
  assert (Hlive : forall h' z', live (created h p n r m s) !! h' = Some z' -> live s !! h' = Some z' \/ h' = h /\ z' = z0).
  { simpl. intros h' z'. destruct r as [z| |]; [|by left..]. pose proof (Hz z eq_refl) as ->. rewrite lookup_insert_Some. naive_solver. }
  constructor.
  - intros h' z' [?|[_ ->]]%Hlive; [eauto|lia].
  - intros h1 h2 z1 z2 [L1|[-> ->]]%Hlive [L2|[-> ->]]%Hlive Hne; [eauto| | |done].
    + rewrite Hbox. symmetry. eauto.
    + rewrite Hbox. eauto.
  - simpl. intros a [Ha Hout]%elem_of_difference. rewrite Ho by done. auto.
  - simpl. intros h' z' [L|[_ ->]]%Hlive; [|rewrite Hbox; set_solver]. pose proof (H4 _ _ L). set_solver.
Qed.

Lemma drop_only z m : only (box z) m (drop_zvec z m).
Proof.
  unfold drop_zvec. eapply only_trans; [apply (only_store _ (ptr z) (replicate (cap z) 0)); by rewrite length_replicate|].
  case_bool_decide; intros a Ha; done.
Qed.
Lemma drop_zeroes z m a : a ∈ box z -> cell (drop_zvec z m) a = 0.
Proof.
  intros Ha. unfold drop_zvec. assert (cell (store (ptr z) (replicate (cap z) 0) m) a = 0) as H by by apply store_zeros.
  case_bool_decide; done.
Qed.
Lemma clone_only bs z m r m' : clone_from_slice bs z m = (r, m') -> only (box z) m m'.
Proof.
  unfold clone_from_slice. destruct (bool_decide _) eqn:E1; [|intros; by simplify_eq/=].
  destruct (bool_decide (length bs = _)) eqn:E2; [|intros; by simplify_eq/=]. intros; simplify_eq/=. bool_prop.
  apply only_store. rewrite E2. by apply region_mono.
Qed.

Lemma zvec_inv_step s s' : zvec_inv s -> step s s' -> zvec_inv s'.
Proof.
  intros Hi Hs. pose proof Hi as [H1 H2 H3 H4].
  destruct Hs as [h p answer size r m Hh Hf E0|h p answer v r m Hh Hf E0|h p answer v c r m Hh Hf Hc _ E0|h z n Hz|h z bs r m Hz E0|h z Hz|p bs Hf].
  - apply new_only in E0 as [Ho Hz]. by eapply created_inv.
  - apply slice_only in E0 as [Ho Hz]. by eapply created_inv.
  - apply vec_only in E0 as [Ho Hz]; [|done]. by eapply created_inv.
  - assert (Hbox : box (reduce_len n z) = box z) by (unfold reduce_len; by case_bool_decide).
    assert (Hold : forall h' z', <[h:=reduce_len n z]> (live s) !! h' = Some z' -> exists z0, live s !! h' = Some z0 /\ box z' = box z0 /\ (len z' <= cap z')%nat).
    { intros h' z'. rewrite lookup_insert_Some. intros [[<- <-]|[_ L]]; [|eauto]. exists z. split_and!; [done..|].
      unfold reduce_len. case_bool_decide; [done|eauto]. }
    constructor; simpl; [| |done|].
    + by intros h' z' (z0 & _ & _ & ?)%Hold.
    + intros h1 h2 z1 z2 (y1 & L1 & -> & _)%Hold (y2 & L2 & -> & _)%Hold. eauto.
    + intros h' z' (z0 & L & -> & _)%Hold. eauto.
  - apply clone_only in E0. constructor; simpl; [done|done| |done].
    intros a Ha. rewrite E0; [auto|]. pose proof (H4 _ _ Hz). set_solver.
  - constructor; simpl.
    + intros h' z' [_ L]%lookup_delete_Some. eauto.
    + intros h1 h2 z1 z2 [_ L1]%lookup_delete_Some [_ L2]%lookup_delete_Some. eauto.
    + intros a Ha. destruct (decide (a ∈ box z)) as [Hb|Hb]; [by apply drop_zeroes|]. rewrite drop_only by done. apply H3. set_solver.
    + intros h' z' [Hne L]%lookup_delete_Some. pose proof (H4 _ _ L). pose proof (H2 _ _ _ _ Hz L Hne). set_solver.
  - constructor; simpl; [done|done| |].
    + intros a [Ha Hout]%elem_of_difference. rewrite store_outside by done. auto.
    + intros h z L. pose proof (H4 _ _ L). set_solver.
Qed.

Lemma zvec_reachable_inv m s : rtc step (started m) s -> zvec_inv s.
Proof.
  intros Hr. assert (forall s0, rtc step s0 s -> zvec_inv s0 -> zvec_inv s) as Hgo by (clear; induction 1; eauto using zvec_inv_step).
  apply (Hgo (started m)); [done|]. by constructor; simpl; intros; rewrite ?lookup_empty in *.
Qed.

(** A step is about one buffer. *)
Definition about (h : nat) (s s' : Process) : Prop := live s' !! h <> live s !! h \/ exists z bs r, live s !! h = Some z /\ clone_from_slice bs z (mem s) = (r, mem s').

Lemma deref_keeps z m m' X : box z ## X -> only X m m' -> (len z <= cap z)%nat -> deref z m' = deref z m.
Proof.
  intros Hd Ho Hl. unfold deref. rewrite bool_decide_true by done. f_equal. apply load_cells_ext. intros a Ha. apply Ho.
  assert (a ∈ box z) by (by apply (region_mono _ (len z))). set_solver.
Qed.

Lemma zvec_step_other s s' h z :
  zvec_inv s -> step s s' -> live s !! h = Some z -> ~ about h s s' -> live s' !! h = Some z /\ deref z (mem s') = deref z (mem s).
Proof.
  intros [H1 H2 H3 H4] Hs Hz Hn. assert (live s' !! h = Some z) as Hz'.
  { destruct (decide (live s' !! h = live s !! h)) as [->|?]; [done|]. destruct Hn. by left. }
  split; [done|].
  destruct Hs as [h' p answer size r m Hh Hf E0|h' p answer v r m Hh Hf E0|h' p answer v c r m Hh Hf Hc _ E0|h' z' n L|h' z' bs r m L E0|h' z' L|p bs Hf]; simpl in *.
  - apply new_only in E0 as [Ho _]. eapply deref_keeps; [|done|eauto]. symmetry. eauto.
  - apply slice_only in E0 as [Ho _]. eapply deref_keeps; [|done|eauto]. symmetry. eauto.
  - apply vec_only in E0 as [Ho _]; [|done]. eapply deref_keeps; [|done|eauto]. symmetry. eauto.
  - done.
  - destruct (decide (h' = h)) as [->|Hne]; [destruct Hn; right; eauto|]. apply clone_only in E0. eapply deref_keeps; [|done|eauto]. eauto.
  - apply lookup_delete_Some in Hz' as [Hne _]. eapply deref_keeps; [|apply drop_only|eauto]. eauto.
  - eapply deref_keeps; [|by apply only_store|eauto]. symmetry. eauto.
Qed.

(** C26: a [ZVec] is a sound buffer.  Whatever the allocator, [mlock] and the
    rest of the process do: a live buffer yields its [len] bytes and never
    panics, nothing but an operation on it changes them, and the memory of
    dropped buffers, the part cut off by [reduce_len] included, holds zeros
    until it is given to somebody else. *)
Theorem zvec_safe m s :
  rtc step (started m) s ->
  (forall h z, live s !! h = Some z -> exists bs, deref z (mem s) = Ok bs /\ length bs = len z) /\
  (forall a, a ∈ wiped s -> cell (mem s) a = 0) /\
  (forall s' h z, step s s' -> live s !! h = Some z -> ~ about h s s' ->
     live s' !! h = Some z /\ deref z (mem s') = deref z (mem s)) /\
  (forall s' h z, step s s' -> live s !! h = Some z -> live s' !! h = None -> box z ⊆ wiped s').
Proof.
  intros Hi%zvec_reachable_inv. split_and!.
  - intros h z L. unfold deref. rewrite bool_decide_true by (by eapply inv_len). eexists. split; [done|]. apply load_length.
  - apply Hi.
  - intros. by eapply zvec_step_other.
  - intros s' h z Hs Hz Hn.
    destruct Hs as [h' p answer size r m' Hh _ _|h' p answer v r m' Hh _ _|h' p answer v c r m' Hh _ _ _ _|h' z' n L|h' z' bs r m' L _|h' z' L|p bs _]; simpl in *;
      try congruence; try (destruct r; try congruence; apply lookup_insert_None in Hn as [? _]; congruence).
    + apply lookup_insert_None in Hn as [? _]. congruence.
    + apply lookup_delete_None in Hn as [-> |Hn]; [|congruence]. simplify_eq. set_solver.
Qed.
End Zvec.

(** The exact contents: what is put in is read back. *)
Lemma try_from_slice_reads {E} p v m :
  exists m', try_from_slice (E := E) p (Ok tt) v m = (Ok {| ptr := p; cap := length v; len := length v |}, m') /\
    deref (E := E) {| ptr := p; cap := length v; len := length v |} m' = Ok v.
Proof.
  unfold try_from_slice, mbind, sr_bind, mret, sr_ret, zvec_new, lock_box. simpl. unfold deref. simpl. rewrite (bool_decide_true (_ <= _)%nat) by done.
  destruct v as [|b v]; [by eexists|]. rewrite !(bool_decide_false (_ = _)) by done. unfold clone_from_slice. simpl.
  rewrite !bool_decide_true by done. simpl. eexists. split; [done|]. f_equal.
  exact (load_store p (b :: v) (mlock p (S (length v)) (store p (replicate (S (length v)) 0) m))).
Qed.
(** [reduce_len] can also make a buffer longer than it was made: it compares
    with the size of the box. *)
Example reduce_len_grows :
  let '(r, m) := try_from_vec (E := unit) 4096 (Ok tt) [1; 2] 4 (store 4096 [1; 2; 8; 9] {| cells := ∅; locked := ∅ |}) in
  r = Ok {| ptr := 4096; cap := 4; len := 2 |} /\
  deref (E := unit) (reduce_len 4 {| ptr := 4096; cap := 4; len := 2 |}) m = Ok [1; 2; 0; 0].
Proof. vm_compute. done. Qed.

(** If [mlock] fails, the contents of the vector stay in freed memory. *)
Example failed_mlock_leaks :
  let '(r, m) := try_from_vec (E := unit) 4096 (Err tt) [7; 7] 2 (store 4096 [7; 7] {| cells := ∅; locked := ∅ |}) in
  r = Err tt /\ load 4096 2 m = [7; 7].
Proof. vm_compute. done. Qed.

(** Two keys on one page, one after the other; the first is dropped. *)
Definition blank : Memory := {| cells := ∅; locked := ∅ |}.
Definition first_key : ZVec := {| ptr := 8192; cap := 32; len := 32 |}.
Definition second_key : ZVec := {| ptr := 8224; cap := 32; len := 32 |}.
Definition with_first : Process := created (E := unit) 0 8192 32 (Ok first_key) (snd (try_from_slice (E := unit) 8192 (Ok tt) (replicate 32 5) blank)) (started blank).
Definition with_both : Process := created (E := unit) 1 8224 32 (Ok second_key) (snd (try_from_slice (E := unit) 8224 (Ok tt) (replicate 32 6) (mem with_first))) with_first.
Definition with_second : Process := {| mem := drop_zvec first_key (mem with_both); live := delete 0%nat (live with_both); wiped := wiped with_both ∪ box first_key |}.

Lemma two_keys : rtc (step (E := unit)) (started blank) with_both.
Proof.
  eapply rtc_l; [eapply (step_slice _ 0 8192 (Ok tt) (replicate 32 5)); [done| |vm_compute; reflexivity]|].
  { intros h z. simpl. by rewrite lookup_empty. }
  apply rtc_once. eapply (step_slice _ 1 8224 (Ok tt) (replicate 32 6)); [done| |vm_compute; reflexivity].
  intros h z. simpl. rewrite lookup_insert_Some, lookup_empty. intros [[<- <-]|[_ [=]]]. intros a. unfold box. rewrite !elem_of_region. simpl. lia.
Qed.
Lemma zvec_safe_witness : exists bs, deref (E := unit) second_key (mem with_second) = Ok bs /\ length bs = 32%nat.
Proof.
  destruct (zvec_safe (E := unit) blank with_second) as (H & _ & _ & _).
  - eapply rtc_r; [apply two_keys|]. apply (step_drop _ 0 first_key). reflexivity.
  - apply (H 1%nat second_key). reflexivity.
Defined.
(** The key that is still in use is no longer locked into memory: locks do
    not stack, and the two share a page. *)
Example second_key_not_pinned :
  live with_second !! 1%nat = Some second_key /\ deref (E := unit) second_key (mem with_second) = Ok (replicate 32 6) /\
  pages (ptr second_key) (cap second_key) ⊆ locked (mem with_both) /\ locked (mem with_second) = ∅.
Proof. split_and!; [done|vm_compute; done| |vm_compute; done]. apply (bool_decide_unpack _). vm_compute. done. Qed.
