(* ===== verification/Entropy.v ===== *)
(** * The shelf and the entropy feeder ([async_task.rs], [entropy.rs])

    [Shelf] is the memory of the jobs of an [AsyncTask]: one boxed value per
    type.  [Ty] are the types that are put on it, as the keys [TypeId] of the
    map; a box carries its type, and a downcast compares it.  The entropy
    feeder is an idle job that keeps the time of its last run there. *)

From stdpp Require Import base list gmap sorting.
From Stdlib Require Import ZArith Lia.
From S2P Require Import Prelude Aidl Errors Crypto Devices.

Section Shelf.
Context {Ty : Type} `{Countable Ty} (denote : Ty -> Type).

(** [Box<dyn Any + Send>] and its downcast. *)
Definition AnyBox : Type := { t & denote t }.
Definition box {t} (v : denote t) : AnyBox := existT t v.
Definition downcast (t : Ty) (b : AnyBox) : option (denote t) :=
  match decide (projT1 b = t) with
  | left e => Some (eq_rect (projT1 b) denote (projT2 b) t e)
  | right _ => None
  end.

Abbreviation Shelf := (gmap Ty AnyBox).

Definition get_downcast_ref (t : Ty) (s : Shelf) : option (denote t) := s !! t ≫= downcast t.
(** Through a mutable reference a job turns the value into another one. *)
Definition get_downcast_mut (t : Ty) (f : denote t -> denote t) (s : Shelf) : option (denote t) * Shelf :=
  match get_downcast_ref t s with
  | Some v => (Some v, <[t := box (f v)]> s)
  | None => (None, s)
  end.
Definition remove_downcast_ref (t : Ty) (s : Shelf) : option (denote t) * Shelf := (s !! t ≫= downcast t, delete t s).
Definition put (t : Ty) (v : denote t) (s : Shelf) : option (denote t) * Shelf := (s !! t ≫= downcast t, <[t := box v]> s).
Definition get_or_put_with (t : Ty) (init : denote t) (f : denote t -> denote t) (s : Shelf) : result unit (denote t) * Shelf :=
  let b := default (box init) (s !! t) in
  match downcast t b with
  | Some v => (Ok v, <[t := box (f v)]> s)
  | None => (Panic, <[t := b]> s)
  end.
(** [T::default()] is [init]. *)
Definition get_mut : forall t, denote t -> (denote t -> denote t) -> Shelf -> result unit (denote t) * Shelf := get_or_put_with.

(** ** A shelf is a function from types to values *)

Lemma downcast_box t (v : denote t) : downcast t (box v) = Some v.
Proof.
  unfold downcast, box. simpl. destruct (decide (t = t)) as [e|]; [|done]. by rewrite (proof_irrel e eq_refl).
Qed.

(** What the jobs see, and the types of the entries. *)
Definition view (s : Shelf) : forall t, option (denote t) := fun t => get_downcast_ref t s.
Definition shelf_ok (s : Shelf) : Prop := forall t b, s !! t = Some b -> exists v : denote t, b = box v.
Definition upd (t : Ty) (o : option (denote t)) (f : forall t, option (denote t)) (g : forall t, option (denote t)) : Prop :=
  g t = o /\ forall t', t' <> t -> g t' = f t'.

Lemma view_insert t (v : denote t) s : upd t (Some v) (view s) (view (<[t := box v]> s)).
Proof.
  unfold view, get_downcast_ref. split; [rewrite lookup_insert_eq; apply downcast_box|].
  intros t' Ht. by rewrite lookup_insert_ne.
Qed.
Lemma ok_insert t (v : denote t) s : shelf_ok s -> shelf_ok (<[t := box v]> s).
Proof.
  intros Hs t' b. destruct (decide (t = t')) as [->|]; [|rewrite lookup_insert_ne by done; auto].
  rewrite lookup_insert_eq. intros [= <-]. eauto.
Qed.
Lemma ok_view t s b : shelf_ok s -> s !! t = Some b -> exists v, view s t = Some v /\ b = box v.
Proof. intros Hs Hb. destruct (Hs _ _ Hb) as [v ->]. exists v. split; [|done]. unfold view, get_downcast_ref. rewrite Hb. apply downcast_box. Qed.

Inductive shelf_step (s : Shelf) : Shelf -> Prop :=
| shelf_put t v o s' : put t v s = (o, s') -> shelf_step s s'
| shelf_mut t f o s' : get_downcast_mut t f s = (o, s') -> shelf_step s s'
| shelf_remove t o s' : remove_downcast_ref t s = (o, s') -> shelf_step s s'
| shelf_or_put t init f r s' : get_or_put_with t init f s = (r, s') -> shelf_step s s'.

Lemma put_refines t v s : shelf_ok s -> shelf_ok (put t v s).2 /\ (put t v s).1 = view s t /\ upd t (Some v) (view s) (view (put t v s).2).
Proof. intros Hs. split_and!; [by apply ok_insert|done|apply view_insert]. Qed.
Lemma remove_refines t s :
  shelf_ok s -> shelf_ok (remove_downcast_ref t s).2 /\ (remove_downcast_ref t s).1 = view s t /\
  upd t None (view s) (view (remove_downcast_ref t s).2).
Proof.
  intros Hs. split_and!; [|done|].
  - intros t' b. simpl. intros [_ Hb]%lookup_delete_Some. by apply Hs.
  - unfold upd, view, get_downcast_ref. simpl. split; [by rewrite lookup_delete_eq|]. intros t' Ht. by rewrite lookup_delete_ne.
Qed.
Lemma or_put_refines t init f s :
  shelf_ok s -> shelf_ok (get_or_put_with t init f s).2 /\
  (get_or_put_with t init f s).1 = Ok (default init (view s t)) /\
  upd t (Some (f (default init (view s t)))) (view s) (view (get_or_put_with t init f s).2).
Proof.
  intros Hs. unfold get_or_put_with. destruct (s !! t) as [b|] eqn:Eb; simpl.
  - destruct (ok_view _ _ _ Hs Eb) as (v & Hv & ->). rewrite Hv, downcast_box. simpl. split_and!; [by apply ok_insert|done|apply view_insert].
  - assert (view s t = None) as -> by (unfold view, get_downcast_ref; by rewrite Eb). rewrite downcast_box. simpl.
    split_and!; [by apply ok_insert|done|apply view_insert].
Qed.
Lemma mut_refines t f s :
  shelf_ok s -> shelf_ok (get_downcast_mut t f s).2 /\ (get_downcast_mut t f s).1 = view s t /\
  upd t (f <$> view s t) (view s) (view (get_downcast_mut t f s).2).
Proof.
  intros Hs. unfold get_downcast_mut. fold (view s t). destruct (view s t) as [v|] eqn:Ev; simpl; split_and!; try done.
  - by apply ok_insert.
  - apply view_insert.
Qed.
Lemma shelf_reachable_ok s : rtc shelf_step ∅ s -> shelf_ok s.
Proof.
  intros Hr. assert (forall s0, rtc shelf_step s0 s -> shelf_ok s0 -> shelf_ok s) as Hgo.
  { clear. induction 1 as [|s0 s1 s2 Hs _ IH]; [done|]. intros Hok. apply IH. destruct Hs as [t v o s' E|t f o s' E|t o s' E|t init f r s' E].
    - by pose proof (put_refines t v s0 Hok) as [? _]; rewrite E in *.
    - by pose proof (mut_refines t f s0 Hok) as [? _]; rewrite E in *.
    - by pose proof (remove_refines t s0 Hok) as [? _]; rewrite E in *.
    - by pose proof (or_put_refines t init f s0 Hok) as [? _]; rewrite E in *. }
  apply (Hgo ∅ Hr). intros t b. by rewrite lookup_empty.
Qed.

(** the shelf is well typed.  However jobs have used it, the value under a
    type is of that type: [get_mut] and [get_or_put_with] never panic on
    their downcast, and every access acts on the entry of its own type
    alone, as on a function from types to values. *)
Theorem shelf_well_typed s :
  rtc shelf_step ∅ s ->
  (forall t v, (put t v s).1 = view s t /\ upd t (Some v) (view s) (view (put t v s).2)) /\
  (forall t, (remove_downcast_ref t s).1 = view s t /\ upd t None (view s) (view (remove_downcast_ref t s).2)) /\
  (forall t f, (get_downcast_mut t f s).1 = view s t /\ upd t (f <$> view s t) (view s) (view (get_downcast_mut t f s).2)) /\
  (forall t init f, (get_or_put_with t init f s).1 = Ok (default init (view s t)) /\
     upd t (Some (f (default init (view s t)))) (view s) (view (get_or_put_with t init f s).2)).
Proof.
  intros Hok%shelf_reachable_ok. split_and!; intros; [by apply put_refines|by apply remove_refines|by apply mut_refines|by apply or_put_refines].
Qed.
End Shelf.

(** ** The feeder *)

Definition ENTROPY_SIZE : nat := 64.
(** Times are nanoseconds. *)
Definition MIN_FEED_INTERVAL : Z := 30 * 10^9.

(** [FeederInfo] on the shelf. *)
Record FeederInfo := { last_feed : option Z }.
Inductive FeederTy := TFeeder | TOther.
#[global] Instance FeederTy_eq_dec : EqDecision FeederTy.
Proof. solve_decision. Defined.
#[global] Instance FeederTy_countable : Countable FeederTy.
Proof.
  refine (inj_countable' (fun t => match t with TFeeder => true | TOther => false end) (fun b : bool => if b then TFeeder else TOther) _).
  by intros [].
Defined.
(** Beside it other jobs keep what they want. *)
Definition on_shelf (t : FeederTy) : Type := match t with TFeeder => FeederInfo | TOther => Z end.

Section Feeder.
Context {H : Type}.

(** [&data[offset..(offset + ENTROPY_SIZE)]]. *)
Definition slice (offset : nat) (data : bytes) : result unit bytes :=
  if (offset + ENTROPY_SIZE <=? length data)%nat then Ok (take ENTROPY_SIZE (drop offset data)) else Panic.
(** The calls of [addRngEntropy]; their errors are logged and dropped. *)
Definition feed_all (km_devs : list H) (data : bytes) : result unit (list (H * bytes)) :=
  try_map (fun '(i, km_dev) => sub_data ← slice (i * ENTROPY_SIZE) data; Ok (km_dev, sub_data)) (zip (seq 0 (length km_devs)) km_devs).
(** [feed_devices]; [t] is the source of randomness. *)
Definition feed_devices (p : Platform H) (g : @Globals H) (t : Tape) : result unit (list (H * bytes)) * Tape :=
  let km_devs := get_keymint_devices p g in
  if bool_decide (km_devs = []) then (Ok [], t)
  else match generate_random_data (length km_devs * ENTROPY_SIZE) t with
       | (Ok data, t) => (feed_all km_devs data, t)
       | (Err _, t) => (Ok [], t)
       | (Panic, t) => (Panic, t)
       end.

(** The idle job of [register_feeder] at time [now]: the shelf it leaves,
    what it fed if it did, and the randomness left. *)
Definition feed_needed (now : Z) (last : option Z) : bool :=
  match last with None => true | Some last => MIN_FEED_INTERVAL <? now - last end.
Definition feeder (p : Platform H) (g : @Globals H) (now : Z) (s : gmap FeederTy (AnyBox on_shelf)) (t : Tape)
    : result unit (option (list (H * bytes))) * gmap FeederTy (AnyBox on_shelf) * Tape :=
  let touch (i : FeederInfo) := if feed_needed now (last_feed i) then {| last_feed := Some now |} else i in
  match get_mut on_shelf TFeeder {| last_feed := None |} touch s with
  | (Ok info, s) =>
    if feed_needed now (last_feed info) then
      let '(r, t) := feed_devices p g t in (Some <$> r, s, t)
    else (Ok None, s, t)
  | (_, s) => (Panic, s, t)
  end.

(** Every device gets a part of its own of the random data. *)
Lemma feed_all_Ok (km_devs : list H) data n :
  length data = ((n + length km_devs) * ENTROPY_SIZE)%nat ->
  exists l, try_map (fun '(i, km_dev) => sub_data ← slice (i * ENTROPY_SIZE) data; Ok (km_dev, sub_data)) (zip (seq n (length km_devs)) km_devs) = Ok l /\
    l.*1 = km_devs /\ Forall (fun c => length c.2 = ENTROPY_SIZE) l /\ mjoin l.*2 = drop (n * ENTROPY_SIZE) data.
Proof.
  revert n. induction km_devs as [|d ds IH]; intros n Hlen; simpl.
  { exists []. split_and!; [done|done|done|]. symmetry. apply drop_ge. simpl in Hlen. lia. }
  simpl in Hlen. destruct (IH (S n)) as (l & Hl & H1 & H2 & H3); [lia|].
  assert (slice (n * ENTROPY_SIZE) data = Ok (take ENTROPY_SIZE (drop (n * ENTROPY_SIZE) data))) as ->.
  { unfold slice. rewrite (proj2 (Nat.leb_le _ _)); [done|]. lia. }
  simpl in Hl. simpl. rewrite Hl. simpl. eexists. split; [done|]. csimpl. split_and!.
  - by rewrite H1.
  - constructor; [|done]. simpl. rewrite length_take, length_drop. lia.
  - change (mjoin (?a :: ?l)) with (a ++ mjoin l). rewrite H3. replace (S n * ENTROPY_SIZE)%nat with (ENTROPY_SIZE + n * ENTROPY_SIZE)%nat by lia.
    rewrite (Nat.add_comm ENTROPY_SIZE), <- drop_drop. apply take_drop.
Qed.

Lemma feed_devices_Ok (p : Platform H) (g : @Globals H) t :
  exists l t', feed_devices p g t = (Ok l, t') /\
    (l = [] \/ l.*1 = get_keymint_devices p g /\ Forall (fun c => length c.2 = ENTROPY_SIZE) l /\ t = mjoin l.*2 ++ t').
Proof.
  unfold feed_devices. case_bool_decide; [by eauto|]. destruct (generate_random_data _ t) as [[data|e|] t'] eqn:E; [|by eauto|].
  - apply randomBytes_Ok in E as [Hlen ->]. destruct (feed_all_Ok (get_keymint_devices p g) data 0) as (l & Hl & H1 & H2 & H3); [done|].
    unfold feed_all. rewrite Hl. exists l, t'. split; [done|]. right. rewrite H3. done.
  - unfold generate_random_data, randomBytes in E. by case_match.
Qed.

(** The worker idles again and again: at some time, with the devices there
    are then, after other jobs changed their own part of the shelf. *)
Record Idle := { at_time : Z; at_platform : Platform H; at_globals : @Globals H; others_put : option Z }.
Definition between (i : Idle) (s : gmap FeederTy (AnyBox on_shelf)) : gmap FeederTy (AnyBox on_shelf) :=
  match others_put i with Some z => (put on_shelf TOther z s).2 | None => s end.
Fixpoint idle_runs (l : list Idle) (s : gmap FeederTy (AnyBox on_shelf)) (t : Tape) : list (Idle * result unit (option (list (H * bytes)))) :=
  match l with
  | [] => []
  | i :: l =>
    let '(r, s, t) := feeder (at_platform i) (at_globals i) (at_time i) (between i s) t in
    (i, r) :: idle_runs l s t
  end.
Definition feed_times (l : list (Idle * result unit (option (list (H * bytes))))) : list Z :=
  omap (fun '(i, r) => match r with Ok (Some _) => Some (at_time i) | _ => None end) l.

Lemma between_view i s : shelf_ok on_shelf s -> shelf_ok on_shelf (between i s) /\ view on_shelf (between i s) TFeeder = view on_shelf s TFeeder.
Proof.
  unfold between. destruct (others_put i); [|done]. intros Hs. destruct (put_refines on_shelf TOther z s Hs) as (? & _ & _ & Hv).
  split; [done|]. by apply Hv.
Qed.

Definition fed_since (last : option Z) (l : list Z) : Prop := forall x, last = Some x -> Forall (fun y => MIN_FEED_INTERVAL < y - x) l.

Lemma idle_runs_spec l s t last :
  shelf_ok on_shelf s -> last_feed (default {| last_feed := None |} (view on_shelf s TFeeder)) = last ->
  fed_since last (feed_times (idle_runs l s t)) /\
  StronglySorted (fun x y => MIN_FEED_INTERVAL < y - x) (feed_times (idle_runs l s t)) /\
  Forall (fun '(i, r) => r = Ok None \/ exists fed, r = Ok (Some fed) /\
     (fed = [] \/ fed.*1 = get_keymint_devices (at_platform i) (at_globals i) /\ Forall (fun c => length c.2 = ENTROPY_SIZE) fed)) (idle_runs l s t).
Proof.
  revert s t last. induction l as [|i l IH]; intros s t last Hs Hlast; simpl; [split_and!; [by intros ? ?|constructor|constructor]|].
  destruct (between_view i s Hs) as [Hsb Hvb]. unfold feeder, get_mut.
  set (touch := fun info : FeederInfo => if feed_needed (at_time i) (last_feed info) then {| last_feed := Some (at_time i) |} else info).
  destruct (or_put_refines on_shelf TFeeder {| last_feed := None |} touch (between i s) Hsb) as (Hs1 & Hr & Hv & _). rewrite Hvb in Hr, Hv.
  destruct (get_or_put_with on_shelf TFeeder _ touch (between i s)) as [r1 s1]. simpl in *. subst r1. rewrite Hlast.
  destruct (feed_needed (at_time i) last) eqn:Ef.
  - assert (last_feed (default {| last_feed := None |} (view on_shelf s1 TFeeder)) = Some (at_time i)) as Hl1.
    { rewrite Hv. simpl. unfold touch. by rewrite Hlast, Ef. }
    destruct (feed_devices_Ok (at_platform i) (at_globals i) t) as (fed & t' & -> & Hfed). simpl.
    destruct (IH s1 t' (Some (at_time i)) Hs1 Hl1) as (I1 & I2 & I3). specialize (I1 _ eq_refl). split_and!.
    + intros x ->. simpl in Ef. apply Z.ltb_lt in Ef. constructor; [done|]. eapply Forall_impl; [exact I1|]. simpl. unfold MIN_FEED_INTERVAL in *. lia.
    + constructor; [done|]. exact I1.
    + constructor; [|done]. right. exists fed. naive_solver.
  - assert (last_feed (default {| last_feed := None |} (view on_shelf s1 TFeeder)) = last) as Hl1.
    { rewrite Hv. simpl. unfold touch. by rewrite Hlast, Ef. }
    simpl. destruct (IH s1 t last Hs1 Hl1) as (I1 & I2 & I3). split_and!; [done|done|]. constructor; [by left|done].
Qed.

(** the entropy feeder.  Whenever the worker idles, with whatever devices
    are connected then and whatever other jobs keep on the shelf: the feeder
    never panics, two feeds are more than thirty seconds apart, and a feed
    that gets random data gives every device sixty-four bytes. *)
Theorem entropy_is_rate_limited l s t :
  rtc (shelf_step on_shelf) ∅ s ->
  StronglySorted (fun x y => MIN_FEED_INTERVAL < y - x) (feed_times (idle_runs l s t)) /\
  Forall (fun '(i, r) => r = Ok None \/ exists fed, r = Ok (Some fed) /\
     (fed = [] \/ fed.*1 = get_keymint_devices (at_platform i) (at_globals i) /\ Forall (fun c => length c.2 = ENTROPY_SIZE) fed)) (idle_runs l s t).
Proof. intros Hr%shelf_reachable_ok. by destruct (idle_runs_spec l s t _ Hr eq_refl) as (_ & ? & ?). Qed.
End Feeder.

Lemma shelf_well_typed_witness :
  (get_mut on_shelf TFeeder {| last_feed := None |} (fun _ => {| last_feed := Some 7 |}) (put on_shelf TOther 3 ∅).2).1 = Ok {| last_feed := None |}.
Proof.
  destruct (shelf_well_typed on_shelf (put on_shelf TOther 3 ∅).2) as (_ & _ & _ & Hg).
  - apply rtc_once. eapply (shelf_put on_shelf ∅ TOther 3). reflexivity.
  - destruct (Hg TFeeder {| last_feed := None |} (fun _ => {| last_feed := Some 7 |})) as [Hr _]. exact Hr.
Defined.

Definition idle_at (n : Z) : @Idle Z := {| at_time := n * 10^9; at_platform := demo_platform; at_globals := tee_connected; others_put := Some n |}.
Lemma entropy_is_rate_limited_witness :
  feed_times (idle_runs [idle_at 1; idle_at 20; idle_at 31; idle_at 32] ∅ (repeat 9 200)) = [10^9; 32 * 10^9] /\
  StronglySorted (fun x y => MIN_FEED_INTERVAL < y - x) (feed_times (idle_runs [idle_at 1; idle_at 20; idle_at 31; idle_at 32] ∅ (repeat 9 200))).
Proof.
  split; [vm_compute; reflexivity|].
  apply (entropy_is_rate_limited [idle_at 1; idle_at 20; idle_at 31; idle_at 32] ∅ (repeat 9 200)). apply rtc_refl.
Defined.
