(* ===== verification/Selinux.v ===== *)
(** * SELinux ([keystore2/selinux/src/lib.rs] and its use in [permission.rs])

    The safe wrappers around libselinux.  The C functions are outside this
    repository: what a call returns is a field of [LibSelinux].  A context is
    its string, whether libselinux allocated it or not. *)

From stdpp Require Import base list gmap strings.
From Stdlib Require Import ZArith Lia Ascii.
From S2P Require Import Prelude Aidl Errors Permission LegacyAlias Apc.

(** A C function that returns a status and, through a pointer, a context;
    [errno] is looked at if the status is not zero. *)
Record CContext := { status : Z; con : option string; errno : Z }.
Record CStatus := { rc : Z; cerrno : Z }.

Record LibSelinux := {
  c_getcon : CContext;
  c_getpidcon : Z -> CContext;
  (* whether there is a handle to the contexts of keys *)
  c_context_handle : bool;
  c_selabel_lookup : string -> CContext;
  c_selinux_check_access : string -> string -> string -> string -> CStatus
}.

Section Selinux.
Context {AI : Aidl} (lib : LibSelinux).

(** [Context::new] and [CString::new]: a string with a NUL is refused. *)
Definition context_new (s : string) : result AnyError string := if has_nul s then Err OtherError else Ok s.

Definition context_of (c : CContext) : result AnyError string :=
  if status c =? 0 then ok_or (con c) (SeError SelinuxOther) else Err OtherError.
Definition getcon : result AnyError string := context_of (c_getcon lib).
Definition getpidcon (pid : Z) : result AnyError string := context_of (c_getpidcon lib pid).

(** [KeystoreKeyBackend]: created on first use, where a missing handle is a
    panic. *)
Definition backend_new : result AnyError unit := if c_context_handle lib then Ok tt else Err (SeError SelinuxOther).
Definition backend_lookup (key : string) : result AnyError string :=
  c_key ← context_new key;
  context_of (c_selabel_lookup lib c_key).

(** [io::Error::kind] is [PermissionDenied] for EPERM and EACCES. *)
Definition errno_denied (e : Z) : bool := (e =? 1) || (e =? 13).
Definition check_access (source target tclass perm : string) : result AnyError unit :=
  c_tclass ← context_new tclass;
  c_perm ← context_new perm;
  let r := c_selinux_check_access lib source target c_tclass c_perm in
  if rc r =? 0 then Ok tt
  else if errno_denied (cerrno r) then Err (SeError PermissionDenied) else Err OtherError.

(** [i64::to_string] and [lookup_keystore2_key_context] of [permission.rs]. *)
Definition i64_to_string (n : Z) : string := if n <? 0 then String.String "-"%char (to_string (- n)) else to_string n.
Definition lookup_keystore2_key_context (namespace : Z) : result AnyError string :=
  match backend_new with
  | Ok _ => backend_lookup (i64_to_string namespace)
  | _ => Panic
  end.

(** ** Access is granted by the policy, or not at all *)

Definition granted (source target tclass perm : string) : Prop := rc (c_selinux_check_access lib source target tclass perm) = 0.
Definition denied (source target tclass perm : string) : Prop :=
  rc (c_selinux_check_access lib source target tclass perm) <> 0 /\
  errno_denied (cerrno (c_selinux_check_access lib source target tclass perm)) = true.

Lemma context_of_Ok c s : context_of c = Ok s <-> status c = 0 /\ con c = Some s.
Proof.
  unfold context_of. destruct (Z.eqb_spec (status c) 0) as [->|]; [|naive_solver]. destruct (con c); simpl; naive_solver.
Qed.
Lemma context_of_code c e : context_of c = Err e -> get_error_code e = val ResponseCode.SYSTEM_ERROR.
Proof. unfold context_of. repeat case_match; intros; simplify_eq; [|done]. destruct (con c); by simplify_eq/=. Qed.
Lemma context_of_no_panic c : context_of c <> Panic.
Proof. unfold context_of. case_match; [|done]. by destruct (con c). Qed.

Lemma check_access_exact source target tclass perm :
  has_nul tclass = false -> has_nul perm = false ->
  (check_access source target tclass perm = Ok tt /\ granted source target tclass perm) \/
  (check_access source target tclass perm = Err (SeError PermissionDenied) /\ denied source target tclass perm) \/
  (check_access source target tclass perm = Err OtherError /\ ~ granted source target tclass perm /\ ~ denied source target tclass perm).
Proof.
  intros H1 H2. unfold check_access, context_new, granted, denied. rewrite H1, H2. simpl.
  destruct (Z.eqb_spec (rc (c_selinux_check_access lib source target tclass perm)) 0) as [E|E]; [by left|right].
  destruct (errno_denied _) eqn:Ee; [left|right]; split; naive_solver.
Qed.

Lemma val_perm_sys : val ResponseCode.SYSTEM_ERROR <> val ResponseCode.PERMISSION_DENIED.
Proof. by intros E%val_inj. Qed.

(** C27: a permission check fails closed.  With the wrappers in place a client
    has a Keystore permission exactly if libselinux said so for the client's
    and Keystore's own context; it is told that the permission is denied
    exactly if libselinux denied the access, and every other failure, a
    missing context included, is a system error and never an access. *)
Theorem keystore_permission_fails_closed ctx p :
  let r := check_keystore_permission getcon check_access ctx p in
  let verdict (P : string -> string -> string -> string -> Prop) :=
    exists own, status (c_getcon lib) = 0 /\ con (c_getcon lib) = Some own /\ P ctx own "keystore2"%string (KeystorePerm.to_selinux p) in
  r <> Panic /\ (r = Ok tt <-> verdict granted) /\
  forall e, r = Err e ->
    (get_error_code e = val ResponseCode.PERMISSION_DENIED /\ verdict denied) \/
    (get_error_code e = val ResponseCode.SYSTEM_ERROR /\ ~ verdict denied).
Proof.
  simpl. unfold check_keystore_permission. destruct getcon as [own|e0|] eqn:Eg; unfold getcon in Eg; simpl.
  - apply context_of_Ok in Eg as [Hs Hc].
    assert (forall P : string -> string -> string -> string -> Prop,
      (exists o, status (c_getcon lib) = 0 /\ con (c_getcon lib) = Some o /\ P ctx o "keystore2"%string (KeystorePerm.to_selinux p))
      <-> P ctx own "keystore2"%string (KeystorePerm.to_selinux p)) as Hv by naive_solver.
    rewrite !Hv. destruct (check_access_exact ctx own "keystore2" (KeystorePerm.to_selinux p) eq_refl) as [[-> Hg]|[[-> Hd]|[-> [Hg Hd]]]]; [by destruct p| | |].
    + split_and!; done.
    + split_and!; [done|split; [done|]|]; [intros Hg; by destruct Hd|]. intros; simplify_eq. left. by rewrite Hv.
    + split_and!; [done|done|]. intros; simplify_eq. right. by rewrite Hv.
  - assert (forall P : string -> string -> string -> string -> Prop,
      ~ exists o, status (c_getcon lib) = 0 /\ con (c_getcon lib) = Some o /\ P ctx o "keystore2"%string (KeystorePerm.to_selinux p)) as Hv.
    { intros P (o & Hs & Hc & _). rewrite (proj2 (context_of_Ok _ o)) in Eg; done. }
    split_and!; [done|split; [done|]|]; [by intros ?%Hv|]. intros; simplify_eq. right. split; [by eapply context_of_code|apply Hv].
  - by apply context_of_no_panic in Eg.
Qed.
End Selinux.
