(* ===== verification/Binder.v ===== *)
(** * The binder interfaces of the keys, and the audit log
    ([security_level.rs], [service.rs], [audit_log.rs])

    The methods of [IKeystoreSecurityLevel] and [IKeystoreService] as a
    client calls them: the handler runs, what it did is counted in the
    statistics and queued for the security log, and its result becomes a
    binder status.
    The log task is the [AsyncTask] whose jobs these are.  The watch point
    every method holds is the subject of [Watchdog]. *)

From stdpp Require Import base list gmap strings.
From Stdlib Require Import ZArith Lia.
From S2P Require Import Prelude Aidl Errors KeyParameter DbTypes Database DbKeys Crypto RawDevice AsyncTask SecurityLevel SecurityLevelDemo Service ServiceDemo Metrics.

(** ** The audit log *)

Definition TAG_KEY_GENERATED : Z := 210024.
Definition TAG_KEY_IMPORTED : Z := 210025.
Definition TAG_KEY_DESTROYED : Z := 210026.
Definition TAG_KEY_INTEGRITY_VIOLATION : Z := 210032.
Definition FLAG_NAMESPACE : Z := 0x80000000.

(** What is appended to a [LogContext]. *)
Inductive LogItem := LogI32 (z : Z) | LogStr (s : string).

(** The jobs of the log task: one event of the security log each. *)
Inductive LogJob := LogEvent (tag : Z) (items : list LogItem).

Section Audit.
Context {AI : Aidl}.

Definition key_owner (d nspace uid : Z) : Z :=
  if d =? val Domain.APP then uid
  else if d =? val Domain.SELINUX then as_i32 (Z.lor nspace FLAG_NAMESPACE)
  else 0.

Definition key_alias (key : KeyDescriptor) : string := default "none"%string (alias key).
Definition log_key_event (tag : Z) (key : KeyDescriptor) (calling_app : Z) (success : bool) : LogJob :=
  LogEvent tag [LogI32 (if success then 1 else 0); LogStr (key_alias key); LogI32 (key_owner (domain key) (nspace key) (as_i32 calling_app))].
Definition log_key_generated : KeyDescriptor -> Z -> bool -> LogJob := log_key_event TAG_KEY_GENERATED.
Definition log_key_imported : KeyDescriptor -> Z -> bool -> LogJob := log_key_event TAG_KEY_IMPORTED.
Definition log_key_deleted : KeyDescriptor -> Z -> bool -> LogJob := log_key_event TAG_KEY_DESTROYED.
Definition log_key_integrity_violation (key : KeyDescriptor) : LogJob :=
  LogEvent TAG_KEY_INTEGRITY_VIOLATION [LogStr (key_alias key); LogI32 (key_owner (domain key) (nspace key) (as_i32 (nspace key)))].
End Audit.

(** ** The interfaces *)

Section Binder.
Context {AI : Aidl} {BO : Boring} {K : Type} {KMI : KeyMint K} {Ctx : Type} {SU : Surroundings Ctx} {MA : MetricsAidl} {Sink : Type}.
Context (log10_f32 : Z -> Z) (ks : KeystoreService) (KEYSTORE_UUID : Uuid).

(** What a request can change: the keys, the statistics and the log task;
    [log_open]: there is a [LogContext]. *)
Record Front := { f_ks : Ks K; f_stats : MetricsStore; f_logs : @AsyncTaskState LogJob Sink }.
Context (log_open : bool).
Abbreviation B := (sr Front BinderStatus).
Abbreviation call := (Call Ctx).

Definition with_log_context (j : LogJob) (l : @AsyncTaskState LogJob Sink) : result unit (@AsyncTaskState LogJob Sink) :=
  if log_open then queue_lo j l else Ok l.

(** A method: [stats] and [job] are what it notes about the result of its
    handler. *)
Definition method {A} (stats : result AnyError A -> MetricsStore -> MetricsStore) (job : result AnyError A -> option LogJob)
    (m : sr (Ks K) AnyError A) : B A := fun f =>
  let '(r, k) := m (f_ks f) in
  match r with
  | Panic => (Panic, {| f_ks := k; f_stats := f_stats f; f_logs := f_logs f |})
  | _ =>
    let st := stats r (f_stats f) in
    match match job r with Some j => with_log_context j (f_logs f) | None => Ok (f_logs f) end with
    | Ok l => (map_or_log_err r Ok, {| f_ks := k; f_stats := st; f_logs := l |})
    | _ => (Panic, {| f_ks := k; f_stats := st; f_logs := f_logs f |})
    end
  end.
Definition error_of {A} (r : result AnyError A) : option AnyError := match r with Err e => Some e | _ => None end.
Definition created {A} (params : list KmKeyParameter) (r : result AnyError A) : MetricsStore -> MetricsStore :=
  log_key_creation_event_stats log10_f32 sl_level params (error_of r).
Definition uncounted {A} (r : result AnyError A) (s : MetricsStore) : MetricsStore := s.
Definition unlogged {A} (r : result AnyError A) : option LogJob := None.

Definition createOperation (c : call) (key : KeyDescriptor) (operation_parameters : list KmKeyParameter) (forced : bool)
    : B (option CreateOperationResponse) := method uncounted unlogged (create_operation c key operation_parameters forced).
Definition generateKey (c : call) (key : KeyDescriptor) (attestation_key : option KeyDescriptor) (params : list KmKeyParameter) (flags : Z)
    : B KeyMetadata :=
  method (created params) (fun r => Some (log_key_generated key (c_uid c) (is_ok r))) (generate_key c key attestation_key params flags).
Definition importKey (c : call) (key : KeyDescriptor) (params : list KmKeyParameter) (flags : Z) (key_data : bytes) : B KeyMetadata :=
  method (created params) (fun r => Some (log_key_imported key (c_uid c) (is_ok r))) (import_key c key params flags key_data).
Definition importWrappedKey (c : call) (key wrapping_key : KeyDescriptor) (masking_key : option bytes) (params : list KmKeyParameter)
    (authenticators : list AuthenticatorSpec) : B KeyMetadata :=
  method (created params) (fun r => Some (log_key_imported key (c_uid c) (is_ok r)))
    (import_wrapped_key c key wrapping_key masking_key params authenticators).
Definition convertStorageKeyToEphemeral (c : call) (storage_key : KeyDescriptor) : B (bytes * option bytes) :=
  method uncounted unlogged (convert_storage_key_to_ephemeral c storage_key).
(** [deleteKey] of a security level, and of the service. *)
Definition deleteKeyBlob (c : call) (key : KeyDescriptor) : B unit :=
  method uncounted (fun r => Some (log_key_deleted key (c_uid c) (is_ok r))) (SecurityLevel.delete_key c key).
Definition deleteKey (c : call) (key : KeyDescriptor) : B unit :=
  method uncounted (fun r => Some (log_key_deleted key (c_uid c) (is_ok r))) (Service.delete_key c key).

Definition getSecurityLevel (level : Z) : B Uuid := method uncounted unlogged (lift (get_security_level ks level)).
Definition getKeyEntry (c : call) (key : KeyDescriptor) : B KeyEntryResponse := method uncounted unlogged (get_key_entry ks c key).
Definition updateSubcomponent (c : call) (key : KeyDescriptor) (public_cert certificate_chain : option bytes) : B unit :=
  method uncounted unlogged (update_subcomponent KEYSTORE_UUID c key public_cert certificate_chain).
Definition listEntries (c : call) (d namespace : Z) : B (list KeyDescriptor) := method uncounted unlogged (list_entries c d namespace).
Definition grant (c : call) (key : KeyDescriptor) (grantee_uid access_vector : Z) : B KeyDescriptor :=
  method uncounted unlogged (Service.grant c key grantee_uid access_vector).
Definition ungrant (c : call) (key : KeyDescriptor) (grantee_uid : Z) : B unit := method uncounted unlogged (Service.ungrant c key grantee_uid).

(** The requests of a client. *)
Inductive Request :=
| CreateOperation (key : KeyDescriptor) (operation_parameters : list KmKeyParameter) (forced : bool)
| GenerateKey (key : KeyDescriptor) (attestation_key : option KeyDescriptor) (params : list KmKeyParameter) (flags : Z)
| ImportKey (key : KeyDescriptor) (params : list KmKeyParameter) (flags : Z) (key_data : bytes)
| ImportWrappedKey (key wrapping_key : KeyDescriptor) (masking_key : option bytes) (params : list KmKeyParameter) (authenticators : list AuthenticatorSpec)
| ConvertStorageKeyToEphemeral (storage_key : KeyDescriptor)
| DeleteKeyBlob (key : KeyDescriptor)
| GetSecurityLevel (level : Z)
| GetKeyEntry (key : KeyDescriptor)
| UpdateSubcomponent (key : KeyDescriptor) (public_cert certificate_chain : option bytes)
| ListEntries (d namespace : Z)
| DeleteKey (key : KeyDescriptor)
| Grant (key : KeyDescriptor) (grantee_uid access_vector : Z)
| Ungrant (key : KeyDescriptor) (grantee_uid : Z).

(** Only whether the request succeeded, and the status if it did not. *)
Definition reply {A} (m : B A) : B unit := _ ← m; mret tt.
Definition serve (c : call) (req : Request) : B unit :=
  match req with
  | CreateOperation key ps forced => reply (createOperation c key ps forced)
  | GenerateKey key ak ps flags => reply (generateKey c key ak ps flags)
  | ImportKey key ps flags data => reply (importKey c key ps flags data)
  | ImportWrappedKey key wk mk ps auths => reply (importWrappedKey c key wk mk ps auths)
  | ConvertStorageKeyToEphemeral key => reply (convertStorageKeyToEphemeral c key)
  | DeleteKeyBlob key => deleteKeyBlob c key
  | GetSecurityLevel level => reply (getSecurityLevel level)
  | GetKeyEntry key => reply (getKeyEntry c key)
  | UpdateSubcomponent key pc cc => updateSubcomponent c key pc cc
  | ListEntries d n => reply (listEntries c d n)
  | DeleteKey key => deleteKey c key
  | Grant key u av => reply (grant c key u av)
  | Ungrant key u => ungrant c key u
  end.

(** ** What a request leaves in the logs *)

(** The requests that make or destroy a key, with the tag of their event. *)
Definition audited (req : Request) : option (Z * KeyDescriptor) :=
  match req with
  | GenerateKey key _ _ _ => Some (TAG_KEY_GENERATED, key)
  | ImportKey key _ _ _ | ImportWrappedKey key _ _ _ _ => Some (TAG_KEY_IMPORTED, key)
  | DeleteKeyBlob key | DeleteKey key => Some (TAG_KEY_DESTROYED, key)
  | _ => None
  end.
Definition created_with (req : Request) : option (list KmKeyParameter) :=
  match req with
  | GenerateKey _ _ ps _ | ImportKey _ ps _ _ | ImportWrappedKey _ _ _ ps _ => Some ps
  | _ => None
  end.

(** The reply a client gets for an error, or for none. *)
Definition status_of (e : option AnyError) : result BinderStatus unit :=
  match e with Some e => Err (new_service_specific_error (get_error_code e)) | None => Ok tt end.
Definition events (c : call) (req : Request) (success : bool) : list LogJob :=
  match audited req with
  | Some (tag, key) => if log_open then [log_key_event tag key (c_uid c) success] else []
  | None => []
  end.
Definition counted (req : Request) (e : option AnyError) : MetricsStore -> MetricsStore :=
  match created_with req with Some ps => log_key_creation_event_stats log10_f32 sl_level ps e | None => fun s => s end.

Lemma queue_lo_Ok j (l : @AsyncTaskState LogJob Sink) :
  thread l <> Some Panicked -> exists l', queue_lo j l = Ok l' /\ lo_prio_req l' = lo_prio_req l ++ [j] /\ hi_prio_req l' = hi_prio_req l.
Proof.
  intros Ht. unfold queue_lo, queue. simpl. case_decide; [|by eexists]. unfold spawn_thread. simpl.
  destruct (thread l) as [[]|] eqn:E; try done; eexists; split_and!; reflexivity.
Qed.

Lemma method_exact {A} stats job (m : sr (Ks K) AnyError A) f r f' :
  thread (f_logs f) <> Some Panicked -> method stats job m f = (r, f') -> r <> Panic ->
  exists r0, (m (f_ks f)).1 = r0 /\ r0 <> Panic /\ (m (f_ks f)).2 = f_ks f' /\ r = map_or_log_err r0 Ok /\ f_stats f' = stats r0 (f_stats f) /\
    lo_prio_req (f_logs f') = lo_prio_req (f_logs f) ++ (if log_open then option_list (job r0) else []).
Proof.
  intros Ht. unfold method, with_log_context. destruct (m (f_ks f)) as [r0 k] eqn:Em. simpl.
  destruct r0 as [a|e|]; [| |by intros; simplify_eq];
    (destruct (job _) as [j|] eqn:Ej; [destruct log_open; [destruct (queue_lo_Ok j _ Ht) as (l & -> & Hl & _)|]|destruct log_open]);
    intros; simplify_eq/=; eexists; split_and!; try done; by rewrite ?Ej, ?app_nil_r.
Qed.

Lemma reply_exact {A} stats job (m : sr (Ks K) AnyError A) f r f' :
  thread (f_logs f) <> Some Panicked -> reply (method stats job m) f = (r, f') -> r <> Panic ->
  exists r0, r0 <> Panic /\ r = status_of (error_of r0) /\ is_ok r = is_ok r0 /\ f_stats f' = stats r0 (f_stats f) /\
    lo_prio_req (f_logs f') = lo_prio_req (f_logs f) ++ (if log_open then option_list (job r0) else []).
Proof.
  intros Ht. unfold reply, mbind, sr_bind, mret, sr_ret. destruct (method stats job m f) as [r1 f1] eqn:E. intros Hr Hp.
  assert (r1 <> Panic) as Hp1 by (intros ->; by simplify_eq).
  destruct (method_exact _ _ _ _ _ _ Ht E Hp1) as (r0 & _ & H0 & _ & -> & Hs & Hl).
  exists r0. destruct r0 as [a|e|]; simplify_eq/=; done.
Qed.

(** what a client is told is what is logged.  Unless the log task died,
    every request to make, import or delete a key leaves exactly one event
    in the security log, in the order of the requests, whose flag says
    whether the client was told success, and no other request leaves one;
    the statistics of a creation carry the error whose code the client
    reads. *)
Theorem requests_are_accounted c req f r f' :
  thread (f_logs f) <> Some Panicked -> serve c req f = (r, f') -> r <> Panic ->
  exists e, r = status_of e /\ f_stats f' = counted req e (f_stats f) /\
    lo_prio_req (f_logs f') = lo_prio_req (f_logs f) ++ events c req (is_ok r).
Proof.
  intros Ht Hs Hp.
  assert (forall A stats job (m : sr (Ks K) AnyError A), reply (method stats job m) f = (r, f') ->
    (forall r0, stats r0 = counted req (error_of r0)) ->
    (forall r0, r0 <> Panic -> (if log_open then option_list (job r0) else []) = events c req (is_ok r0)) ->
    exists e, r = status_of e /\ f_stats f' = counted req e (f_stats f) /\ lo_prio_req (f_logs f') = lo_prio_req (f_logs f) ++ events c req (is_ok r)) as Hgo.
  { intros A stats job m Hm Hst Hev. destruct (reply_exact _ _ _ _ _ _ Ht Hm Hp) as (r0 & H0 & -> & Hok & Hs0 & Hl).
    exists (error_of r0). rewrite Hs0, Hst, Hl, Hev, Hok by done. done. }
  assert (forall stats job (m : sr (Ks K) AnyError unit), reply (method stats job m) f = method stats job m f) as Hunit.
  { intros stats job m. unfold reply, mbind, sr_bind, mret, sr_ret. by destruct (method stats job m f) as [[[]| |] ?]. }
  destruct req; simpl in Hs; try (unfold deleteKeyBlob, updateSubcomponent, deleteKey, ungrant in Hs; rewrite <- Hunit in Hs);
    (eapply Hgo; [exact Hs|intros r0; reflexivity|intros r0 _; unfold events; simpl; by destruct log_open]).
Qed.
End Binder.

(** The owner in an event tells apps and namespaces apart: an app's uid is
    not negative, a namespace is, and two namespaces have the same owner just
    if their lower 31 bits agree. *)
Lemma as_i32_flagged n : as_i32 (Z.lor n FLAG_NAMESPACE) = n mod 2^31 - 2^31.
Proof.
  assert (Z.lor n FLAG_NAMESPACE mod 2^32 = n mod 2^31 + 2^31) as E.
  { rewrite <- !Z.land_ones by lia. assert (Z.land (Z.lor n FLAG_NAMESPACE) (Z.ones 32) = Z.lor (Z.land n (Z.ones 31)) (2^31)) as ->.
    { apply Z.bits_inj'. intros k Hk. rewrite !Z.land_spec, !Z.lor_spec, !Z.land_spec, !Z.testbit_ones_nonneg, (Z.pow2_bits_eqb 31) by lia.
      change FLAG_NAMESPACE with (2^31). rewrite Z.pow2_bits_eqb by lia.
      destruct (Z.eqb_spec 31 k), (Z.ltb_spec k 32), (Z.ltb_spec k 31); try lia; rewrite ?andb_true_r, ?andb_false_r, ?orb_true_r, ?orb_false_r; done. }
    symmetry. apply Z.add_nocarry_lor, Z.bits_inj_0. intros k. destruct (Z.neg_nonneg_cases k) as [?|Hk]; [by rewrite Z.testbit_neg_r|].
    rewrite !Z.land_spec, Z.testbit_ones_nonneg, Z.pow2_bits_eqb by lia.
    destruct (Z.eqb_spec 31 k), (Z.ltb_spec k 31); try lia; by rewrite ?andb_false_r. }
  unfold as_i32. rewrite Zplus_mod, E. rewrite (Z.mod_small (2^31)) by lia.
  pose proof (Z.mod_pos_bound n (2^31) ltac:(lia)). replace (n mod 2^31 + 2^31 + 2^31) with (n mod 2^31 + 1 * 2^32) by lia.
  rewrite Z.mod_add, Z.mod_small by lia. lia.
Qed.

Lemma key_owner_app {AI : Aidl} n uid : key_owner (val Domain.APP) n uid = uid.
Proof. unfold key_owner. by rewrite Z.eqb_refl. Qed.
Lemma key_owner_namespace {AI : Aidl} n uid : key_owner (val Domain.SELINUX) n uid = n mod 2^31 - 2^31.
Proof. unfold key_owner. rewrite val_eqb, Z.eqb_refl. simpl. apply as_i32_flagged. Qed.
Lemma audit_owner_distinct {AI : Aidl} n m uid uid' :
  0 <= uid ->
  key_owner (val Domain.SELINUX) n uid' < 0 <= key_owner (val Domain.APP) m uid /\
  (key_owner (val Domain.SELINUX) n uid' = key_owner (val Domain.SELINUX) m uid' <-> n mod 2^31 = m mod 2^31).
Proof.
  intros Hu. rewrite !key_owner_app, !key_owner_namespace. pose proof (Z.mod_pos_bound n (2^31) ltac:(lia)). lia.
Qed.

(** An import, and the deletion of a key that is not there. *)
#[local] Existing Instances aidl_published toy_boring busy_km permissive metrics_published.
Definition demo_front : @Front nat unit := {| f_ks := ks0; f_stats := ∅; f_logs := AsyncTask.new |}.
Definition import_front := serve (Sink := unit) (fun z => z) ServiceDemo.demo_service KEYSTORE_UUID true alice (ImportKey (demo_desc "k") aes 0 [1; 2]) demo_front.

Lemma requests_are_accounted_witness :
  exists e, fst import_front = status_of e /\ f_stats (snd import_front) = counted (fun z => z) (ImportKey (demo_desc "k") aes 0 [1; 2]) e (f_stats demo_front) /\
    lo_prio_req (f_logs (snd import_front)) = [LogEvent 210025 [LogI32 1; LogStr "k"; LogI32 1000]].
Proof.
  destruct (requests_are_accounted (Sink := unit) (fun z => z) ServiceDemo.demo_service KEYSTORE_UUID true alice
    (ImportKey (demo_desc "k") aes 0 [1; 2]) demo_front (fst import_front) (snd import_front)) as (e & Hr & Hs & Hl).
  - discriminate.
  - unfold import_front. by destruct (serve _ _ _ _ _ _ _).
  - vm_compute. discriminate.
  - exists e. split; [exact Hr|]. split; [exact Hs|]. vm_compute. reflexivity.
Defined.
