(* ===== verification/Main.v ===== *)
(** * Start up ([keystore2_main.rs])

    [main] up to the point where it joins the thread pool: the settings it
    makes, the services it creates and registers, in its order.  A failure is
    a panic, which ends the process; the state then is what it had done so
    far.  The service manager and the platform are outside this repository;
    the threads it starts are the subject of [SharedSecret]. *)

From stdpp Require Import base list gmap strings.
From Stdlib Require Import ZArith Lia String.
From S2P Require Import Prelude Aidl Errors AuthInfo Enforcements LegacyFs LegacyMigrator LegacySystem DbOpen SystemProperty Metrics Service Devices.

Definition KS2_SERVICE_NAME : string := "android.system.keystore2.IKeystoreService/default".
Definition APC_SERVICE_NAME : string := "android.security.apc".
Definition AUTHORIZATION_SERVICE_NAME : string := "android.security.authorization".
Definition METRICS_SERVICE_NAME : string := "android.security.metrics".
Definition REMOTE_PROVISIONING_SERVICE_NAME : string := "android.security.remoteprovisioning".
Definition USER_MANAGER_SERVICE_NAME : string := "android.security.maintenance".
Definition LEGACY_KEYSTORE_SERVICE_NAME : string := "android.security.legacykeystore".

Section Main.
Context {AI : Aidl} {H : Type} (NAME_NOT_FOUND : Z).

(** What the process meets: its arguments, the property service, the
    platform when it connects (trusted environment and StrongBox, for the
    keys and for remote provisioning), its own binders and the service
    manager. *)
Record Environment := {
  args : list string;
  property_accepted : bool;
  tee : Platform H;
  strongbox : Platform H;
  tee_remote : Platform H;
  strongbox_remote : Platform H;
  own_binder : result AnyError unit;
  add_service_accepted : string -> bool
}.

(** The global state of the process: the directory of the database and the
    timestamp file of the id rotation, the enforcements, the idle functions of
    the worker, and what was registered. *)
Record Daemon := {
  db_path : string;
  timestamp_path : option string;
  properties : Properties;
  enforcements : Enforcements;
  feeders : nat;
  negotiations : nat;
  globals : @Globals H;
  migrator : Migrator;
  service : option KeystoreService;
  services : list string
}.
Abbreviation M := (sr Daemon unit).

Definition upd_properties (f : Properties -> Properties) : M unit := modify (fun d =>
  {| db_path := db_path d; timestamp_path := timestamp_path d; properties := f (properties d); enforcements := enforcements d; feeders := feeders d;
     negotiations := negotiations d; globals := globals d; migrator := migrator d; service := service d; services := services d |}).
(** [DB_PATH] and [IdRotationState::new]. *)
Definition set_db_path (dir : string) : M unit := modify (fun d =>
  {| db_path := dir; timestamp_path := Some (path_push dir "timestamp"); properties := properties d; enforcements := enforcements d;
     feeders := feeders d; negotiations := negotiations d; globals := globals d; migrator := migrator d; service := service d; services := services d |}).
(** The channel, [register_feeder] and [perform_shared_secret_negotiation]. *)
Definition set_up_tasks : M unit := modify (fun d =>
  {| db_path := db_path d; timestamp_path := timestamp_path d; properties := properties d;
     enforcements := install_confirmation_token_receiver (enforcements d) []; feeders := S (feeders d); negotiations := S (negotiations d);
     globals := globals d; migrator := migrator d; service := service d; services := services d |}).
Definition create_keystore_service (e : Environment) : M unit := fun d =>
  let '(r, g) := new_keystore_service NAME_NOT_FOUND (tee e) (strongbox e) (own_binder e) (migrator d) (globals d) in
  let d' m s := {| db_path := db_path d; timestamp_path := timestamp_path d; properties := properties d; enforcements := enforcements d; feeders := feeders d;
     negotiations := negotiations d; globals := g; migrator := m; service := s; services := services d |} in
  match r with
  | Ok (svc, mig) => (Ok tt, d' mig (Some svc))
  | _ => (Panic, d' (migrator d) (service d))
  end.
(** Whether there is a remote provisioning service; its failure is no
    panic. *)
Definition create_remote_provisioning (e : Environment) : M bool := fun d =>
  let '(r, g) := new_remote_provisioning (tee_remote e) (strongbox_remote e) (globals d) in
  let d' := {| db_path := db_path d; timestamp_path := timestamp_path d; properties := properties d; enforcements := enforcements d; feeders := feeders d;
     negotiations := negotiations d; globals := g; migrator := migrator d; service := service d; services := services d |} in
  match r with
  | Ok _ => (Ok true, d')
  | Err _ => (Ok false, d')
  | Panic => (Panic, d')
  end.
Definition add_service (e : Environment) (name : string) : M unit := fun d =>
  if add_service_accepted e name then
    (Ok tt, {| db_path := db_path d; timestamp_path := timestamp_path d; properties := properties d; enforcements := enforcements d; feeders := feeders d;
       negotiations := negotiations d; globals := globals d; migrator := migrator d; service := service d; services := services d ++ [name] |})
  else (Panic, d).

Definition main (e : Environment) : M unit :=
  match args e with
  | [] => lift Panic
  | _ :: rest =>
    _ ← upd_properties (update_keystore_crash_sysprop (property_accepted e));
    match rest with
    | [] => lift Panic
    | dir :: _ =>
      _ ← set_db_path dir;
      _ ← set_up_tasks;
      _ ← create_keystore_service e;
      _ ← add_service e KS2_SERVICE_NAME;
      _ ← add_service e APC_SERVICE_NAME;
      _ ← add_service e AUTHORIZATION_SERVICE_NAME;
      _ ← add_service e USER_MANAGER_SERVICE_NAME;
      _ ← add_service e METRICS_SERVICE_NAME;
      remote ← create_remote_provisioning e;
      _ ← (if (remote : bool) then add_service e REMOTE_PROVISIONING_SERVICE_NAME else mret tt);
      add_service e LEGACY_KEYSTORE_SERVICE_NAME
    end
  end.

(** The state at the start of the process. *)
Definition booted (ps : Properties) (m : Migrator) (e : Enforcements) : Daemon :=
  {| db_path := "/data/misc/keystore"; timestamp_path := None; properties := ps; enforcements := e; feeders := 0; negotiations := 0;
     globals := no_devices; migrator := m; service := None; services := [] |}.

(** ** What is registered *)

Definition all_services (remote : bool) : list string :=
  [KS2_SERVICE_NAME; APC_SERVICE_NAME; AUTHORIZATION_SERVICE_NAME; USER_MANAGER_SERVICE_NAME; METRICS_SERVICE_NAME]
  ++ (if remote then [REMOTE_PROVISIONING_SERVICE_NAME] else []) ++ [LEGACY_KEYSTORE_SERVICE_NAME].

(** Registering names in turn, up to the first that is refused. *)
Fixpoint register (e : Environment) (names : list string) (d : Daemon) : result unit unit * Daemon :=
  match names with
  | [] => (Ok tt, d)
  | n :: names => match add_service e n d with (Ok _, d) => register e names d | r => r end
  end.

Definition with_services (l : list string) (d : Daemon) : Daemon :=
  {| db_path := db_path d; timestamp_path := timestamp_path d; properties := properties d; enforcements := enforcements d; feeders := feeders d;
     negotiations := negotiations d; globals := globals d; migrator := migrator d; service := service d; services := l |}.

Lemma register_exact e names d :
  exists done, done `prefix_of` names /\ Forall (fun n => add_service_accepted e n = true) done /\
    (register e names d).2 = with_services (services d ++ done) d /\
    ((register e names d).1 = Ok tt /\ done = names \/ (register e names d).1 = Panic).
Proof.
  revert d. induction names as [|n names IH]; intros d; simpl.
  - exists []. rewrite app_nil_r. split_and!; [done|done|by destruct d|by left].
  - unfold add_service. destruct (add_service_accepted e n) eqn:E.
    + destruct (IH (with_services (services d ++ [n]) d)) as (l & H1 & H2 & H3 & H4). exists (n :: l).
      unfold with_services in H3, H4. simpl in H3, H4. split_and!.
      * by apply prefix_cons.
      * by constructor.
      * rewrite H3. unfold with_services. simpl. by rewrite <- app_assoc.
      * destruct H4 as [[? ->]|?]; [by left|by right].
    + exists []. split_and!; [apply prefix_nil|done|rewrite app_nil_r; by destruct d|by right].
Qed.

(** [main] after the service was created: five names, then remote
    provisioning if there is one, then the last name. *)
Lemma main_unfold e prog dir more d :
  args e = prog :: dir :: more ->
  main e d =
    match create_keystore_service e (set_up_tasks (set_db_path dir (upd_properties (update_keystore_crash_sysprop (property_accepted e)) d).2).2).2 with
    | (Ok _, d) =>
      match register e [KS2_SERVICE_NAME; APC_SERVICE_NAME; AUTHORIZATION_SERVICE_NAME; USER_MANAGER_SERVICE_NAME; METRICS_SERVICE_NAME] d with
      | (Ok _, d) =>
        match create_remote_provisioning e d with
        | (Ok remote, d) => register e ((if (remote : bool) then [REMOTE_PROVISIONING_SERVICE_NAME] else []) ++ [LEGACY_KEYSTORE_SERVICE_NAME]) d
        | (Err x, d) => (Err x, d)
        | (Panic, d) => (Panic, d)
        end
      | r => r
      end
    | (Err x, d) => (Err x, d)
    | (Panic, d) => (Panic, d)
    end.
Proof.
  intros Ha. unfold main. rewrite Ha. unfold mbind, sr_bind, mret, sr_ret. simpl.
  destruct (create_keystore_service e _) as [[[]| |] dk]; [|done|done].
  repeat match goal with |- context [add_service e ?n ?d] => destruct (add_service e n d) as [[[]| |] ?]; simpl; try done end.
  destruct (create_remote_provisioning e _) as [[[]| |] dr]; simpl; try done;
  repeat match goal with |- context [add_service e ?n ?d] => destruct (add_service e n d) as [[[]| |] ?]; simpl; try done end.
Qed.

#[local] Arguments register : simpl never.
Lemma create_remote_same e d r d' :
  create_remote_provisioning e d = (r, d') -> exists g, d' = {| db_path := db_path d; timestamp_path := timestamp_path d; properties := properties d;
    enforcements := enforcements d; feeders := feeders d; negotiations := negotiations d; globals := g; migrator := migrator d; service := service d;
    services := services d |} /\ (forall x, r <> Err x).
Proof.
  unfold create_remote_provisioning. destruct (new_remote_provisioning _ _ _) as [[]]; intros; simplify_eq; eauto.
Qed.

(** start up.  From a fresh process: the services are registered in one
    order, each only after those before it were accepted; none is there
    unless the Keystore service could be created on a connected trusted
    environment, the receiver of confirmation tokens was installed, and the
    entropy feeder and the secret negotiation were started; [main] gets to
    its end exactly with all of them, remote provisioning being the only
    one that may be missing; and the crash count is updated whether it gets
    there or not. *)
Theorem start_up e ps m enf r d :
  main e (booted ps m enf) = (r, d) ->
  (r = Ok tt \/ r = Panic) /\
  (exists remote, services d `prefix_of` all_services remote /\ (r = Ok tt -> services d = all_services remote)) /\
  Forall (fun n => add_service_accepted e n = true) (services d) /\
  (services d <> [] -> (exists svc, service d = Some svc /\ is_Some (Service.uuid_by_sec_level svc !! val SecurityLevel.TRUSTED_ENVIRONMENT)) /\
     confirmation_tokens (enforcements d) = Some [] /\ feeders d = 1%nat /\ negotiations d = 1%nat /\ args e !! 1%nat = Some (db_path d)) /\
  (args e <> [] -> properties d = update_keystore_crash_sysprop (property_accepted e) ps).
Proof.
  intros Hm. destruct (args e) as [|prog [|dir more]] eqn:Ea.
  - unfold main in Hm. rewrite Ea in Hm. unfold lift in Hm. simplify_eq. simpl. split_and!; [by right| |done|done|done].
    exists true. split; [apply prefix_nil|done].
  - unfold main in Hm. rewrite Ea in Hm. unfold lift, mbind, sr_bind in Hm. simpl in Hm. simplify_eq. simpl. split_and!; [by right| |done|done|done].
    exists true. split; [apply prefix_nil|done].
  - rewrite (main_unfold e prog dir more) in Hm by done. simpl in Hm. unfold create_keystore_service in Hm. simpl in Hm.
    destruct (new_keystore_service _ _ _ _ _ _) as [rk g] eqn:Ek.
    destruct rk as [[svc mig]|x|]; [|simplify_eq; simpl; split_and!; [by right|exists true; split; [apply prefix_nil|done]|done|done|done]..].
    destruct (new_keystore_service_served _ _ _ _ _ _ _ _ _ no_devices_inv Ek) as (_ & Htee & _).
    set (d0 := {| db_path := dir |}) in Hm.
    destruct (register_exact e [KS2_SERVICE_NAME; APC_SERVICE_NAME; AUTHORIZATION_SERVICE_NAME; USER_MANAGER_SERVICE_NAME; METRICS_SERVICE_NAME] d0)
      as (l & Hl & Hacc & Hd1 & Hr1).
    destruct (register e _ d0) as [r1 d1]. simpl in Hd1, Hr1. subst d1.
    destruct Hr1 as [[-> ->]| ->].
    + destruct (create_remote_provisioning e _) as [rr d2] eqn:Er. apply create_remote_same in Er as (g2 & -> & Hne). simpl in Hm.
      destruct rr as [remote|x|]; [|by destruct (Hne x)|].
      * set (d1 := {| db_path := dir; globals := g2 |}) in Hm.
        destruct (register_exact e ((if remote then [REMOTE_PROVISIONING_SERVICE_NAME] else []) ++ [LEGACY_KEYSTORE_SERVICE_NAME]) d1)
          as (l2 & Hl2 & Hacc2 & Hd2 & Hr2). rewrite Hm in Hd2, Hr2. simpl in Hd2, Hr2. subst d. simpl. split_and!.
        -- naive_solver.
        -- exists remote. split; [by do 5 apply prefix_cons|]. destruct Hr2 as [[_ ->]| ->]; done.
        -- exact (Forall_app_2 _ _ _ Hacc Hacc2).
        -- eauto 10.
        -- done.
      * simplify_eq. simpl. split_and!; [by right| |done|eauto 10|done]. exists true. split; [|done]. by do 5 apply prefix_cons; apply prefix_nil.
    + simplify_eq. simpl. split_and!; [by right| |done|eauto 10|done]. exists true. split; [|done]. unfold all_services. by apply prefix_app_r.
Qed.
End Main.

(** A first start on a device without a remote provisioning component. *)
#[local] Existing Instance aidl_published.
Definition demo_environment : @Environment Z := {|
  args := ["keystore2"; "/data/misc/keystore"]%string; property_accepted := true; tee := demo_platform; strongbox := demo_platform;
  tee_remote := demo_platform; strongbox_remote := demo_platform; own_binder := Ok tt; add_service_accepted := fun _ => true
|}.
Definition demo_start := main (-2) demo_environment (booted ∅ no_migrator default_enforcements).
Lemma start_up_witness :
  fst demo_start = Ok tt /\ services (snd demo_start) = all_services false /\
  (exists svc, service (snd demo_start) = Some svc /\ is_Some (Service.uuid_by_sec_level svc !! val SecurityLevel.TRUSTED_ENVIRONMENT)).
Proof.
  destruct (start_up (-2) demo_environment ∅ no_migrator default_enforcements (fst demo_start) (snd demo_start)) as (_ & _ & _ & Hs & _).
  - unfold demo_start. by destruct (main _ _ _).
  - split; [vm_compute; reflexivity|]. split; [vm_compute; reflexivity|]. apply Hs. vm_compute. discriminate.
Defined.
