(* ===== verification/Time.v ===== *)
(** * Points in time ([DateTime], [MonotonicRawTime] in [database.rs], [utils.rs])

    A [SystemTime] is a point on the nanosecond scale around the epoch whose
    seconds are an [i64]; a [Duration] is not negative and its seconds are a
    [u64].  [DateTime] is milliseconds since the epoch in an [i64]. *)

From stdpp Require Import base list gmap.
From Stdlib Require Import ZArith Lia.
From S2P Require Import Prelude Aidl Errors.

Definition SECOND : Z := 10^9.
Definition MILLI : Z := 10^6.
Definition system_time_ok (t : Z) : Prop := - 2^63 * SECOND <= t < 2^63 * SECOND.
Definition duration_ok (d : Z) : Prop := 0 <= d < 2^64 * SECOND.

Inductive DateTimeError := SystemTimeError | TypeConversion | TimeArithmetic.
Abbreviation T := (result DateTimeError).

(** [SystemTime::duration_since(UNIX_EPOCH)], [checked_add], [checked_sub];
    [Duration::checked_sub] and [Duration::from_millis]. *)
Definition duration_since_epoch (t : Z) : T Z := if t <? 0 then Err SystemTimeError else Ok t.
Definition checked_time (t : Z) : option Z := if (- 2^63 * SECOND <=? t) && (t <? 2^63 * SECOND) then Some t else None.
Definition time_add (t d : Z) : option Z := checked_time (t + d).
Definition time_sub (t d : Z) : option Z := checked_time (t - d).
Definition duration_sub (a b : Z) : option Z := if a <? b then None else Some (a - b).
(** [as_millis().try_into::<i64>()] of a duration; [try_into::<u64>()] of an
    [i64]. *)
Definition millis_i64 (d : Z) : T Z := if d / MILLI <? 2^63 then Ok (d / MILLI) else Err TypeConversion.
Definition u64_of_i64 (z : Z) : T Z := if z <? 0 then Err TypeConversion else Ok z.

(** [DateTime::now]; [now] is the system time. *)
Definition date_time_now (now : Z) : T Z := d ← duration_since_epoch now; millis_i64 d.
(** [TryFrom<SystemTime>]. *)
Definition from_system_time (t : Z) : T Z := d ← duration_since_epoch t; millis_i64 d.
(** [TryInto<SystemTime>], by way of the current time. *)
Definition into_system_time (now : Z) (d : Z) : T Z :=
  now_epoch ← duration_since_epoch now;
  millis ← u64_of_i64 d;
  let then_epoch := millis * MILLI in
  if then_epoch <? now_epoch then
    ok_or (d ← duration_sub now_epoch then_epoch; time_sub now d) TimeArithmetic
  else
    ok_or (d ← duration_sub then_epoch now_epoch; time_add now d) TimeArithmetic.

(** [get_current_time_in_milliseconds] of a [timespec]; the seconds and the
    difference of two [MonotonicRawTime]. *)
Definition get_current_time_in_milliseconds (tv_sec tv_nsec : Z) : Z := tv_sec * 1000 + Z.quot tv_nsec 1000000.
Definition raw_seconds (t : Z) : Z := Z.quot t 1000.
Definition raw_checked_sub (a b : Z) : option Z := checked_sub_i64 a b.

(** ** The detour through the current time makes no difference *)

Lemma date_time_exact now d :
  i64_range d -> system_time_ok now ->
  into_system_time now d = (if now <? 0 then Err SystemTimeError else if d <? 0 then Err TypeConversion else Ok (d * MILLI)) /\
  (0 <= d -> system_time_ok (d * MILLI) /\ from_system_time (d * MILLI) = Ok d).
Proof.
  unfold i64_range, system_time_ok, into_system_time, from_system_time, duration_since_epoch, u64_of_i64, millis_i64, duration_sub, time_sub, time_add, checked_time, MILLI, SECOND.
  intros Hd Hn. split.
  - destruct (Z.ltb_spec now 0); [done|]. simpl. destruct (Z.ltb_spec d 0); [done|]. simpl.
    destruct (Z.ltb_spec (d * 10^6) now).
    + destruct (Z.ltb_spec now (d * 10^6)); [lia|]. simpl. replace (now - (now - d * 10^6)) with (d * 10^6) by lia.
      rewrite (proj2 (Z.leb_le _ _)), (proj2 (Z.ltb_lt _ _)) by lia. done.
    + simpl. replace (now + (d * 10^6 - now)) with (d * 10^6) by lia.
      rewrite (proj2 (Z.leb_le _ _)), (proj2 (Z.ltb_lt (d * 10^6) _)) by lia. done.
  - intros Hp. split; [lia|]. rewrite (proj2 (Z.ltb_ge _ _)) by lia. simpl. rewrite Z.div_mul by lia.
    by rewrite (proj2 (Z.ltb_lt _ _)) by lia.
Qed.

(** a [DateTime] that is not before the epoch denotes the same point in
    time whenever it is converted: the result is that many milliseconds
    after the epoch, whatever the current time is, the arithmetic never
    fails, and the point is a valid system time that converts back to the
    same [DateTime]; one before the epoch, or a clock that is set before it,
    is an error. *)
Theorem date_time_conversion now d :
  i64_range d -> system_time_ok now ->
  into_system_time now d = (if now <? 0 then Err SystemTimeError else if d <? 0 then Err TypeConversion else Ok (d * MILLI)) /\
  (0 <= d -> system_time_ok (d * MILLI) /\ from_system_time (d * MILLI) = Ok d).
Proof. apply date_time_exact. Qed.
Lemma date_time_conversion_witness : into_system_time (7 * 10^18) 1600000000123 = Ok 1600000000123000000 /\ from_system_time 1600000000123000000 = Ok 1600000000123.
Proof.
  destruct (date_time_conversion (7 * 10^18) 1600000000123) as [H1 H2]; [split; vm_compute; congruence|split; vm_compute; congruence|].
  split; [exact H1|]. apply H2. vm_compute. congruence.
Defined.

(** Converting a system time loses less than a millisecond. *)
Lemma from_system_time_close t d now :
  system_time_ok t -> 0 <= now -> system_time_ok now -> from_system_time t = Ok d ->
  exists t', into_system_time now d = Ok t' /\ t' <= t < t' + MILLI.
Proof.
  intros Ht Hn Hnow. unfold from_system_time, duration_since_epoch. destruct (Z.ltb_spec t 0) as [|Hp]; [done|]. simpl.
  unfold millis_i64. destruct (Z.ltb_spec (t / MILLI) (2^63)); [|done]. intros [= <-].
  assert (0 <= t / MILLI) by (unfold MILLI; apply Z.div_pos; lia).
  destruct (date_time_exact now (t / MILLI)) as [-> _]; [unfold i64_range; lia|done|].
  rewrite !(proj2 (Z.ltb_ge _ _)) by lia. eexists. split; [done|]. unfold MILLI in *.
  pose proof (Z.div_mod t (10^6) ltac:(lia)). pose proof (Z.mod_pos_bound t (10^6) ltac:(lia)). lia.
Qed.
