(* ===== verification/Certificate.v ===== *)
(** * The subject of a certificate ([crypto/lib.rs], [crypto/crypto.cpp])

    [parse_subject_from_certificate] guesses the size of the subject and asks
    again if it guessed too small.  The parser of BoringSSL is outside this
    repository: [x509_subject] is the DER encoding of the subject of a
    certificate, or nothing if it cannot be parsed. *)

From stdpp Require Import base list.
From Stdlib Require Import ZArith Lia.
From S2P Require Import Prelude Aidl.

Inductive SubjectError := ExtractSubjectFailed.

Section Certificate.
Variable x509_subject : bytes -> option bytes.

(** The return value and the buffer: a negative value is the size that is
    needed. *)
Definition extractSubjectFromCertificate (cert_buf subject_buf : bytes) : Z * bytes :=
  match x509_subject cert_buf with
  | None => (0, subject_buf)
  | Some subject =>
    if (length subject_buf <? length subject)%nat then (- Z.of_nat (length subject), subject_buf)
    else (Z.of_nat (length subject), subject ++ drop (length subject) subject_buf)
  end.

(** [usize::try_from] of a size. *)
Definition usize_of (size : Z) : result SubjectError nat := if size <? 0 then Err ExtractSubjectFailed else Ok (Z.to_nat size).

Definition parse_subject_from_certificate (cert_buf : bytes) : result SubjectError bytes :=
  let '(size, retval) := extractSubjectFromCertificate cert_buf (replicate 200 0) in
  if size =? 0 then Err ExtractSubjectFailed
  else
    '(size, retval) ← (if size <? 0 then
                         negated_size ← usize_of (- size);
                         let '(size, retval) := extractSubjectFromCertificate cert_buf (replicate negated_size 0) in
                         if size <=? 0 then Err ExtractSubjectFailed else Ok (size, retval)
                       else Ok (size, retval));
    safe_size ← usize_of size;
    Ok (take safe_size retval).

(** guessing the size of the buffer makes no difference: for every
    certificate the result is its subject, of any length, complete and
    without the rest of the buffer, and an error exactly if there is none or
    it is empty. *)
Theorem subject_is_extracted cert_buf :
  parse_subject_from_certificate cert_buf
  = match x509_subject cert_buf with Some (b :: s) => Ok (b :: s) | _ => Err ExtractSubjectFailed end.
Proof.
  unfold parse_subject_from_certificate, extractSubjectFromCertificate, usize_of.
  destruct (x509_subject cert_buf) as [s|]; [|done]. rewrite !length_replicate.
  destruct (Nat.ltb_spec 200 (length s)) as [Hl|Hl].
  - rewrite (proj2 (Z.eqb_neq _ _)), (proj2 (Z.ltb_lt (- _) 0)) by lia. rewrite Z.opp_involutive, (proj2 (Z.ltb_ge (Z.of_nat _) 0)) by lia.
    simpl. rewrite Nat2Z.id, length_replicate, Nat.ltb_irrefl, (proj2 (Z.leb_gt (Z.of_nat _) 0)) by lia. simpl.
    rewrite (proj2 (Z.ltb_ge (Z.of_nat _) 0)) by lia. simpl. rewrite Nat2Z.id, take_app_length. by destruct s; [simpl in Hl; lia|].
  - destruct s as [|b s]; [done|]. rewrite (proj2 (Z.eqb_neq _ _)), (proj2 (Z.ltb_ge (Z.of_nat _) 0)) by (simpl; lia). cbn [mbind result_bind].
    rewrite (proj2 (Z.ltb_ge (Z.of_nat _) 0)) by lia. cbn [mbind result_bind]. by rewrite Nat2Z.id, take_app_length.
Qed.
End Certificate.

(** A subject that fits, one that does not, and a certificate without one. *)
Example subject_of_any_size :
  parse_subject_from_certificate (fun c => Some c) [48; 0] = Ok [48; 0] /\
  parse_subject_from_certificate (fun c => Some c) (repeat 7 300) = Ok (repeat 7 300) /\
  parse_subject_from_certificate (fun _ => None) [48; 0] = Err ExtractSubjectFailed.
Proof. vm_compute. done. Qed.
