(* ===== verification/Frontends.v ===== *)
(** * The binder interfaces of the other services
    ([maintenance.rs], [authorization.rs], [remote_provisioning.rs], [apc.rs],
    [metrics.rs], [legacykeystore/lib.rs])

    What a client sees of the methods that are not about single keys: the
    handler runs and its result becomes a binder status through the error
    mapping of its service.  The watch point every method holds is the
    subject of [Watchdog]. *)

From stdpp Require Import base list gmap strings.
From Stdlib Require Import ZArith Lia.
From S2P Require Import Prelude Aidl Errors KeyParameter Perboot Permission AuthInfo Enforcements DbTypes Database DbAttestation Crypto RawDevice SuperKey LegacyFs LegacyMigrator LegacySystem LegacyKeystore RemoteProvisioning SecurityLevel Service Authorization Maintenance Apc SystemProperty Metrics.

(** [map_or_log_err(handler, Ok)]. *)
Definition answer {AI : Aidl} {S A} (m : sr S AnyError A) : sr S BinderStatus A := fun s =>
  let '(r, s') := m s in (Errors.map_or_log_err r Ok, s').
(** The same for a handler that may never return. *)
Definition answer_if {AI : Aidl} {S A} (m : S -> option (result AnyError A * S)) : S -> option (result BinderStatus A * S) := fun s =>
  (fun '(r, s') => (Errors.map_or_log_err r Ok, s')) <$> m s.

(** ** [IKeystoreMaintenance] *)

Section Maintenance.
Context {AI : Aidl} {BO : Boring} {K : Type} {KMI : KeyMint K} {Ctx : Type} {SU : SecurityLevel.Surroundings Ctx} {TE : Tee}.
Context {D : Type} {DV : Devices D} {L : Type} {DL : DeleteListener L} (get_level_zero_key : sr (SuperKey.Sys K Migrator) AnyError bytes).
Abbreviation host := (Host K D L).
Abbreviation call := (Call Ctx).

Definition onUserPasswordChanged (c : call) (ids ids' : list Z) (user_id : Z) (password : option bytes) : sr host BinderStatus unit :=
  answer (on_user_password_changed c ids ids' user_id password).
Definition onUserAdded (c : call) (user_id : Z) : host -> option (result BinderStatus unit * host) := answer_if (add_or_remove_user c user_id).
Definition onUserRemoved (c : call) (user_id : Z) : host -> option (result BinderStatus unit * host) := answer_if (add_or_remove_user c user_id).
Definition clearNamespace (c : call) (d nspace : Z) : host -> option (result BinderStatus unit * host) := answer_if (clear_namespace c d nspace).
Definition getState (c : call) (user_id : Z) : sr host BinderStatus AidlUserState := answer (get_state c user_id).
Definition earlyBootEnded (c : call) : sr host BinderStatus unit := answer (early_boot_ended get_level_zero_key c).
Definition onDeviceOffBody (c : call) : sr host BinderStatus unit := answer (on_device_off_body c).
Definition migrateKeyNamespace (c : call) (source destination : KeyDescriptor) : sr host BinderStatus unit :=
  answer (Maintenance.migrate_key_namespace c source destination).
Definition deleteAllKeys (c : call) : sr host BinderStatus unit := answer (Maintenance.delete_all_keys c).
End Maintenance.

(** ** [IKeystoreAuthorization] *)

Section Authorization.
Context {AI : Aidl} {BO : Boring} {K : Type} {KMI : KeyMint K} {Ctx : Type} {SU : SecurityLevel.Surroundings Ctx} {TE : Tee}.
Abbreviation call := (Call Ctx).

(** [map_or_log_err] of authorization.rs. *)
Definition az_answer {A} (m : sr (Daemon K) AzError A) : sr (Daemon K) BinderStatus A := fun d =>
  let '(r, d') := m d in (Authorization.map_or_log_err r, d').

Definition addAuthToken (c : call) (hat : HardwareAuthToken) : sr (Daemon K) BinderStatus unit := az_answer (Authorization.add_auth_token c hat).
Definition onLockScreenEvent (c : call) (ids : list Z) (event : LockScreenEvent) (user_id : Z) (password : option bytes)
    (unlocking_sids : option (list Z)) : sr (Daemon K) BinderStatus unit :=
  az_answer (on_lock_screen_event c ids event user_id password unlocking_sids).
Definition getAuthTokensForCredStore (c : call) (challenge secure_user_id auth_token_max_age_millis : Z)
    : sr (Daemon K) BinderStatus (HardwareAuthToken * TimeStampToken) :=
  az_answer (get_auth_tokens_for_credstore c challenge secure_user_id auth_token_max_age_millis).
End Authorization.

(** ** [IRemoteProvisioning] *)

Section Provisioning.
Context {AI : Aidl} {R : Type} {RC : RemoteComponent R}.
Context (keymint_uuid : Z -> result AnyError Uuid) (device_by_sec_level : gmap Z (result AnyError unit)) (curve_by_sec_level : gmap Z Z).
Abbreviation P := (sr (R * Tables) BinderStatus).

Definition getPoolStatus (now : result AnyError Z) (expired_by level : Z) : P AttestationPoolStatus := answer (get_pool_status keymint_uuid now expired_by level).
Definition generateCsr (test_mode : bool) (num_csr : Z) (eek challenge : bytes) (level : Z) : P (bytes * bytes * bytes) :=
  answer (generate_csr keymint_uuid device_by_sec_level test_mode num_csr eek challenge level).
Definition provisionCertChain (public_key batch_cert certs : bytes) (expiration_date level : Z) : P unit :=
  answer (provision_cert_chain keymint_uuid public_key batch_cert certs expiration_date level).
Definition generateKeyPair (draws : list Z) (is_test_mode : bool) (level : Z) : P unit :=
  answer (generate_key_pair keymint_uuid device_by_sec_level draws is_test_mode level).
Definition getImplementationInfo : P (list (Z * Z)) := answer (mret (get_implementation_info curve_by_sec_level)).
Definition deleteAllPoolKeys : P Z := answer RemoteProvisioning.delete_all_keys.
End Provisioning.

(** ** [IProtectedConfirmation] *)

(** [map_or_log_err] of apc.rs; [rc_value] is the number of a code. *)
Definition apc_answer (rc_value : ApcResponseCode -> Z) {S A} (m : sr S AnyApcError A) : sr S BinderStatus A := fun s =>
  let '(r, s') := m s in (apc_map_or_log_err rc_value r Ok, s').
Section Confirmation.
Context (rc_value : ApcResponseCode -> Z).

Definition presentPrompt (e : Apc.Surroundings) (listener : Z) (prompt_text locale : string) : sr ApcManager BinderStatus unit :=
  apc_answer rc_value (present_prompt e listener prompt_text locale).
Definition cancelPrompt (listener : Z) : sr ApcManager BinderStatus unit := apc_answer rc_value (cancel_prompt listener).
Definition isSupported (service : bool) : sr ApcManager BinderStatus bool := apc_answer rc_value (lift (is_supported service)).
End Confirmation.

(** ** [ILegacyKeystore] *)

Module LegacyKeystoreService.
Section Service.
Context {AI : Aidl} {BO : Boring} (off : Z) (code_value : LkCode -> Z).

Definition lk_answer {A} (m : LegacyKeystore.call A) (s : Lk) : option (result BinderStatus A * Lk) :=
  (fun '(r, s') => (map_err (fun e => new_service_specific_error (code_value e.1)) (LegacyKeystore.map_or_log_err r), s')) <$> m s.

Definition get (calling_uid : Z) (al : string) (uid : Z) := lk_answer (LegacyKeystore.get off calling_uid al uid).
Definition put (calling_uid : Z) (al : string) (uid : Z) (entry : bytes) := lk_answer (LegacyKeystore.put off calling_uid al uid entry).
Definition remove (calling_uid : Z) (al : string) (uid : Z) := lk_answer (LegacyKeystore.remove off calling_uid al uid).
Definition list (calling_uid : Z) (prefix : string) (uid : Z) := lk_answer (LegacyKeystore.list_entries off calling_uid prefix uid).
End Service.
End LegacyKeystoreService.

(** ** [IKeystoreMetrics] *)

Section Metrics.
Context {AI : Aidl} (total_size : result AnyError (Z * Z)) (table_size : string -> result AnyError (Z * Z)) (token_size : Z).
Context {S : Type} (pool_status : Z -> Z -> sr S AnyError AttestationPoolStatus).
Context {Ctx : Type} (getcon : result AnyError Ctx) (check_access : Ctx -> Ctx -> string -> string -> result AnyError unit).

Definition pullMetrics (caller : Ctx) (store : MetricsStore) (tokens : PerbootDB) (ps : Properties) (now : Z * Z) (atom_id : AtomID)
    : sr S BinderStatus (list KeystoreAtom) :=
  answer (pull_metrics total_size table_size token_size pool_status getcon check_access caller store tokens ps now atom_id).
End Metrics.

(** ** What a client learns *)

(** A denied permission, as each service knows it. *)
Lemma denials_are_reported {AI : Aidl} (rc_value : ApcResponseCode -> Z) (code_value : LkCode -> Z) {A} :
  Errors.map_or_log_err (Err (SeError PermissionDenied) : result AnyError A) Ok
    = Err (new_service_specific_error (val ResponseCode.PERMISSION_DENIED)) /\
  Authorization.map_or_log_err (Err (AzAny (SeError PermissionDenied)) : result AzError A)
    = Err (new_service_specific_error AuthorizationCode.PERMISSION_DENIED) /\
  apc_map_or_log_err rc_value (Err (ApcSelinux PermissionDenied) : result AnyApcError A) Ok
    = Err (new_service_specific_error (rc_value PERMISSION_DENIED)) /\
  LegacyKeystore.map_or_log_err (Err (LkErr ERROR_PERMISSION_DENIED) : result LkError A)
    = Err (ERROR_PERMISSION_DENIED, true).
Proof. done. Qed.

(** A status tells success from failure and nothing else of the state: the
    reply is a success if the handler succeeded, else a service specific
    error, and what the handler did has happened either way. *)
Lemma answer_exact {AI : Aidl} {S A} (m : sr S AnyError A) s r s' :
  answer m s = (r, s') ->
  s' = (m s).2 /\
  match (m s).1 with
  | Ok a => r = Ok a
  | Err e => r = Err (new_service_specific_error (get_error_code e))
  | Panic => r = Panic
  end.
Proof. unfold answer. destruct (m s) as [[a|e|] s1]; intros; by simplify_eq. Qed.
