(* ===== verification/DaemonDb.v ===== *)
(** * What the daemon does to the database

    Every handler of every service reaches the key database only through the
    public operations of [KeystoreDB].  [follows] says so of one computation:
    the tables it leaves are those it found after some sequence of such
    operations.  The lemmas go up from a single database call through the
    device, super key, migration and provisioning code to the services. *)

From stdpp Require Import base list gmap strings relations.
From Stdlib Require Import ZArith Lia.
From S2P Require Import Prelude Aidl Errors Sql KeyParameter Perboot BootLevelKeys AuthInfo Operation OperationDb DbTypes Database DbInvariant DbAttestation DbSystem Crypto RawDevice SuperKey LegacyAlias LegacyBlob LegacyFs LegacyMigrator LegacySystem IdRotation RemoteProvisioning SecurityLevel Service Authorization Maintenance.

(** ** Computations that move a part of the state

    [moves R view m]: whatever happens, [m] moves the part [view] of the state
    by steps of [R]. *)

Section Moves.
Context {S T : Type} (R : relation T) (view : S -> T).

Definition moves {E A} (m : sr S E A) : Prop := forall s, rtc R (view s) (view (m s).2).

(** A computation that leaves that part alone. *)
Definition silent {E A} (m : sr S E A) : Prop := forall s, view (m s).2 = view s.

Lemma silent_moves {E A} (m : sr S E A) : silent m -> moves m.
Proof. intros H s. by rewrite H. Qed.
Lemma moves_ret {E A} (a : A) : moves (mret a : sr S E A).
Proof. by apply silent_moves. Qed.
Lemma moves_lift {E A} (r : result E A) : moves (lift r).
Proof. by apply silent_moves. Qed.
Lemma moves_throw {E A} (e : E) : moves (throw e : sr S E A).
Proof. by apply silent_moves. Qed.
Lemma moves_gets {E A} (f : S -> A) : moves (gets f : sr S E A).
Proof. by apply silent_moves. Qed.
Lemma moves_modify {E} (f : S -> S) : (forall s, view (f s) = view s) -> moves (modify f : sr S E unit).
Proof. intros H. by apply silent_moves. Qed.
Lemma moves_fun {E A} (f : S -> result E A) : moves (fun s => (f s, s)).
Proof. by apply silent_moves. Qed.
Lemma moves_bind {E A B} (m : sr S E A) (f : A -> sr S E B) : moves m -> (forall a, moves (f a)) -> moves (m ≫= f).
Proof.
  intros Hm Hf s. specialize (Hm s). unfold mbind, sr_bind. destruct (m s) as [[a|e|] s1]; simpl in *; [|done..].
  etransitivity; [exact Hm|apply Hf].
Qed.
Lemma moves_map_err {E F A} (g : E -> F) (m : sr S E A) : moves m -> moves (sr_map_err g m).
Proof. intros H s. specialize (H s). unfold sr_map_err. by destruct (m s). Qed.
Lemma moves_for {E A} (f : A -> sr S E unit) l : (forall a, moves (f a)) -> moves (sr_for f l).
Proof. intros Hf. induction l as [|a l IH]; simpl; [apply moves_ret|by apply moves_bind]. Qed.

(** [moves] looks at the states only. *)
Lemma moves_same {E F A B} (m : sr S E A) (m' : sr S F B) : (forall s, (m' s).2 = (m s).2) -> moves m -> moves m'.
Proof. intros He H s. rewrite He. apply H. Qed.
End Moves.

(** A part of the state does the work. *)
Lemma moves_zoom {S S' T} (R : relation T) (view : S -> T) (view' : S' -> T) {E F A B}
    (m : sr S E A) (get : S' -> S) (m' : sr S' F B) :
  (forall s, view (get s) = view' s) -> (forall s, view' (m' s).2 = view (m (get s)).2) -> moves R view m -> moves R view' m'.
Proof. intros Hg Hm H s. rewrite Hm, <- Hg. apply H. Qed.

Create HintDb follows.
#[export] Hint Resolve moves_ret moves_lift moves_throw moves_gets moves_fun moves_map_err moves_for : follows.

(** Splits monadic code and its case distinctions; what is left are calls
    whose lemmas are in the database [follows]. *)
Ltac follows_step :=
  first
    [ progress auto with follows
    | match goal with |- moves _ _ (_ ≫= _) => apply moves_bind; [|intros ?] end
    | match goal with |- moves _ _ (modify _) => apply moves_modify; by intros end
    | match goal with |- moves _ _ (sr_for _ _) => apply moves_for; intros ? end
    | match goal with |- moves _ _ (match ?x with _ => _ end) => destruct x end
    | match goal with |- moves _ _ (let '_ := ?x in _) => destruct x end ].
Ltac follows := repeat follows_step.

(** The tables after some operations of the database. *)
Abbreviation follows off := (moves (db_step off)).

(** ** Database calls *)

Section Calls.
Context {AI : Aidl} (off : Z).
Abbreviation calls m := (follows off (fun s : Tables => s) m).

Lemma call_op {A} (m : sr Tables AnyError (bool * A)) o : op_ok o -> run_op off o = hint m -> calls m.
Proof.
  intros Hok Ho s. apply rtc_once. apply (db_step_op off o s (hint m s).1); [done|]. rewrite Ho.
  unfold hint, mbind, sr_bind. destruct (m s) as [[a|e|] s']; done.
Qed.

Lemma calls_store draws key kt params bi ci md u : calls (Database.store_new_key draws key kt params bi ci md u).
Proof. by apply (call_op _ (StoreNewKey draws key kt params bi ci md u)). Qed.
Lemma calls_store_certificate draws now key kt c u : calls (store_new_certificate draws now key kt c u).
Proof. by apply (call_op _ (StoreNewCertificate draws now key kt c u)). Qed.
Lemma calls_set_blob id sc b m : blob_args_ok sc m -> calls (set_blob id sc b m).
Proof. intros H. by apply (call_op _ (SetBlob id sc b m)). Qed.
Lemma calls_set_deleted_blob b m : calls (set_deleted_blob b m).
Proof. by apply (call_op _ (SetDeletedBlob b m)). Qed.
Lemma calls_unbind key kt uid chk : calls (unbind_key key kt uid chk).
Proof. by apply (call_op _ (UnbindKey key kt uid chk)). Qed.
Lemma calls_count id : calls (check_and_update_key_usage_count id).
Proof. by apply (call_op _ (CountUsage id)). Qed.
Lemma calls_grant draws key uid grantee av chk : calls (Database.grant draws key uid grantee av chk).
Proof. by apply (call_op _ (Grant draws key uid grantee av chk)). Qed.
Lemma calls_ungrant key uid grantee chk : calls (Database.ungrant key uid grantee chk).
Proof. by apply (call_op _ (Ungrant key uid grantee chk)). Qed.
Lemma calls_unbind_namespace d n : calls (unbind_keys_for_namespace d n).
Proof. by apply (call_op _ (UnbindNamespace d n)). Qed.
Lemma calls_unbind_user user keep : calls (unbind_keys_for_user off user keep).
Proof. by apply (call_op _ (UnbindUser user keep)). Qed.
Lemma calls_superseded ids n : calls (handle_next_superseded_blobs ids n).
Proof. by apply (call_op _ (HandleSuperseded ids n)). Qed.
Lemma calls_migrate id dest uid chk : calls (Database.migrate_key_namespace id dest uid chk).
Proof. by apply (call_op _ (Migrate id dest uid chk)). Qed.
Lemma calls_store_super_key draws user al b bm km : calls (store_super_key draws user al b bm km).
Proof. by apply (call_op _ (StoreSuperKey draws user al b bm km)). Qed.
Lemma calls_get_or_create draws d n al u new : calls (get_or_create_key_with draws d n al u new).
Proof. by apply (call_op _ (GetOrCreate draws d n al u new)). Qed.
Lemma calls_create_attestation draws mk rk pk u : calls (create_attestation_key_entry draws mk rk pk u).
Proof. by apply (call_op _ (CreateAttestation draws mk rk pk u)). Qed.
Lemma calls_store_signed rk bc ch ex u : calls (store_signed_attestation_certificate_chain rk bc ch ex u).
Proof. by apply (call_op _ (StoreSigned rk bc ch ex u)). Qed.
Lemma calls_assign d n u : calls (assign_attestation_key d n u).
Proof. by apply (call_op _ (AssignAttestation d n u)). Qed.
Lemma calls_delete_expired now : calls (delete_expired_attestation_keys now).
Proof. by apply (call_op _ (DeleteExpired now)). Qed.
Lemma calls_delete_all : calls delete_all_attestation_keys.
Proof. by apply (call_op _ DeleteAllAttestation). Qed.
End Calls.

#[export] Hint Resolve calls_store calls_store_certificate calls_set_deleted_blob calls_unbind calls_count calls_grant calls_ungrant
  calls_unbind_namespace calls_unbind_user calls_superseded calls_migrate calls_store_super_key calls_get_or_create
  calls_create_attestation calls_store_signed calls_assign calls_delete_expired calls_delete_all : follows.
#[export] Hint Extern 1 (moves _ _ (set_blob _ _ _ _)) => apply calls_set_blob; first [by left|by right] : follows.

(** ** The device *)

Section Device.
Context {AI : Aidl} (off : Z) {K : Type} {KMI : KeyMint K}.
Abbreviation goes m := (follows off (@w_db K) m).

Lemma goes_with_db {A} (m : sr Tables AnyError (bool * A)) : follows off (fun s => s) m -> goes (with_db m).
Proof.
  apply (moves_zoom _ (fun s => s) w_db m w_db); [done|]. intros w. unfold with_db. by destruct (m (w_db w)) as [[[gc a]|e|] s].
Qed.
Lemma goes_with_km {A} (m : sr K BinderStatus A) : goes (with_km m).
Proof. apply silent_moves. intros w. unfold with_km. by destruct (m (w_km w)). Qed.
Lemma goes_any {A} (m : sr (World K) Error A) : goes m -> goes (any m).
Proof. apply moves_map_err. Qed.
Hint Resolve goes_with_db goes_with_km goes_any : follows.

Lemma goes_create_and_store u now draws desc kt creator : goes (create_and_store_key u now draws desc kt creator).
Proof. unfold create_and_store_key. follows. Qed.
Lemma goes_lookup aid desc kt : goes (lookup_from_desc aid desc kt).
Proof. by apply silent_moves. Qed.
Lemma goes_not_found {A} (m : sr (World K) AnyError A) : goes m -> goes (not_found_is_none m).
Proof.
  apply moves_same. intros w. unfold not_found_is_none. destruct (m w) as [[a|[[]| |]|] w']; simpl; try done. by case_match.
Qed.
Lemma goes_upgrade {A} u id b (f : bytes -> sr (World K) Error A) :
  (forall b, goes (f b)) -> goes (RawDevice.upgrade_keyblob_if_required_with u id b f).
Proof.
  intros Hf w. unfold RawDevice.upgrade_keyblob_if_required_with. pose proof (Hf (deref b) w) as H.
  destruct (f (deref b) w) as [[a|e|] w']; simpl in *; [done| |done]. case_bool_decide; [|done].
  etransitivity; [exact H|].
  match goal with |- rtc _ _ (w_db (?m w').2) => change (rtc (db_step off) (w_db w') (w_db (m w').2)); assert (goes m) as Hm; [|apply Hm] end.
  follows.
Qed.
Hint Resolve goes_create_and_store goes_lookup goes_not_found goes_upgrade : follows.

Lemma goes_use_key u id b purpose params tok input : goes (use_key_in_one_step u id b purpose params tok input).
Proof. unfold use_key_in_one_step. follows. Qed.
Lemma goes_lookup_or_generate u aid now draws desc kt params v : goes (lookup_or_generate_key u aid now draws desc kt params v).
Proof. unfold lookup_or_generate_key, generate_and_lookup. follows. Qed.
End Device.
#[export] Hint Resolve goes_with_db goes_with_km goes_any goes_create_and_store goes_lookup goes_use_key goes_lookup_or_generate : follows.

(** ** Migration *)

Section Migration.
Context {AI : Aidl} {BO : Boring} (off : Z).
Abbreviation works m := (follows off k_db m).
Abbreviation goes m := (follows off (@snd Migrator Tables) m).

Lemma works_db {A} (m : list Z -> sr Tables AnyError (bool * A)) : (forall d, follows off (fun s => s) (m d)) -> works (on_worker_db m).
Proof. intros H w. unfold on_worker_db. specialize (H (default [] (head (k_draws w))) (k_db w)). by destruct (m _ (k_db w)). Qed.
Lemma works_fs {A} (m : sr Fs LegacyError A) : works (on_fs m).
Proof. apply silent_moves. intros w. unfold on_fs. by destruct (m (k_fs w)). Qed.
Lemma works_read_fs {A} (f : Fs -> result LegacyError A) : works (read_fs f).
Proof. by apply silent_moves. Qed.
Lemma works_read_db {A} (f : Tables -> result AnyError A) : works (read_worker_db f).
Proof. by apply silent_moves. Qed.
Lemma works_shelf f : works (on_shelf f).
Proof. by apply silent_moves. Qed.
Lemma works_tape {A} (m : sr Tape AnyError A) : works (on_worker_tape m).
Proof. apply silent_moves. intros w. unfold on_worker_tape. by destruct (m (k_tape w)). Qed.
Hint Resolve works_fs works_read_fs works_read_db works_shelf works_tape : follows.
Hint Extern 1 (moves _ _ (on_worker_db _)) => apply works_db; intros ? : follows.

Lemma works_migrate uid key : works (check_and_migrate off uid key).
Proof. unfold check_and_migrate, store_legacy_key, legacy_blob_info. follows. Qed.
Lemma works_migrate_super_key user pw : works (check_and_migrate_super_key user pw).
Proof. unfold check_and_migrate_super_key. follows. Qed.
Lemma works_bulk_delete req keep : works (bulk_delete off req keep).
Proof. unfold bulk_delete, bulk_delete_entry. follows. Qed.
Lemma works_list uid : works (list_uid_request off uid).
Proof. apply works_read_fs. Qed.
Lemma works_has user : works (has_super_key_request user).
Proof. apply moves_gets. Qed.

Lemma goes_serialized {A} (f : sr Worker AnyError A) : works f -> goes (do_serialized f).
Proof.
  intros Hf [m s]. unfold do_serialized. destruct (check_state m) as [[[]| |] m']; simpl; try apply rtc_refl;
    unfold run_request; (destruct (m_shelf m') as [shelf|]; [|apply rtc_refl]);
    (match goal with |- context [f ?w] => pose proof (Hf w) as H; destruct (f w) as [r w'] end);
    by destruct r.
Qed.
Lemma goes_or_default {A} (a : A) (m : sr (Migrator * Tables) AnyError (option A)) : goes m -> goes (or_default a m).
Proof. intros. unfold or_default. follows. Qed.
Hint Resolve works_migrate works_migrate_super_key works_bulk_delete works_list works_has goes_serialized goes_or_default : follows.

Lemma goes_with_try_migrate {A} key uid (m : sr (Migrator * Tables) AnyError A) : goes m -> goes (with_try_migrate off key uid m).
Proof.
  intros Hm md. unfold with_try_migrate. pose proof (Hm md) as H. destruct (m md) as [[a|e|] md']; simpl in *; [done| |done].
  case_match; [|done]. destruct (migration_uid key uid) as [u|]; [|done]. etransitivity; [exact H|].
  match goal with |- rtc _ _ (?b md').2.2 => assert (goes b) as Hb; [|apply Hb] end. follows.
Qed.
Lemma goes_list d n : goes (list_uid off d n).
Proof. unfold list_uid. follows. Qed.
Lemma goes_bulk_uid d n : goes (LegacyMigrator.bulk_delete_uid off d n).
Proof. unfold LegacyMigrator.bulk_delete_uid. follows. Qed.
Lemma goes_bulk_user user keep : goes (LegacyMigrator.bulk_delete_user off user keep).
Proof. unfold LegacyMigrator.bulk_delete_user. follows. Qed.
Lemma goes_has user : goes (LegacyMigrator.has_super_key user).
Proof. unfold LegacyMigrator.has_super_key. follows. Qed.
End Migration.
#[export] Hint Resolve works_migrate_super_key goes_serialized goes_with_try_migrate goes_list goes_bulk_uid goes_bulk_user goes_has : follows.

(** ** Super keys *)

Section SuperKeys.
Context {AI : Aidl} {BO : Boring} (off : Z) {K : Type} {KMI : KeyMint K}.
#[local] Instance this_legacy : Legacy Migrator := migrator_legacy off.
Abbreviation goes m := (follows off (fun g : SuperKey.Sys K Migrator => w_db (g_world g)) m).

Lemma goes_on_skm {A} (m : sr Skm AnyError A) : goes (on_skm m).
Proof. apply silent_moves. intros g. unfold on_skm. by destruct (m (g_skm g)). Qed.
Lemma goes_on_tape {A} (m : sr Tape AnyError A) : goes (on_tape m).
Proof. apply silent_moves. intros g. unfold on_tape. by destruct (m (g_tape g)). Qed.
Lemma goes_on_world {A} (m : sr (World K) AnyError A) : follows off w_db m -> goes (on_world m).
Proof. apply (moves_zoom _ w_db _ m g_world); [done|]. intros g. unfold on_world. by destruct (m (g_world g)). Qed.
Lemma goes_on_db {A} (m : sr Tables AnyError (bool * A)) : follows off (fun s => s) m -> goes (on_db m).
Proof. intros. by apply goes_on_world, goes_with_db. Qed.
Lemma goes_on_legacy {A} (m : sr (Migrator * Tables) AnyError A) : follows off snd m -> goes (on_legacy m).
Proof.
  apply (moves_zoom _ snd _ m (fun g => (g_legacy g, w_db (g_world g)))); [done|]. intros g. unfold on_legacy. by destruct (m _) as [r [l s]].
Qed.
Lemma goes_read_db {A} (f : Tables -> result AnyError A) : goes (read_db f).
Proof. by apply silent_moves. Qed.
Hint Resolve goes_on_skm goes_on_tape goes_on_world goes_on_db goes_on_legacy goes_read_db : follows.

Lemma goes_exists user : goes (super_key_exists_in_db_for_user user).
Proof. unfold super_key_exists_in_db_for_user, legacy_has_super_key. simpl. follows. Qed.
Lemma goes_state user : goes (user_state_get user).
Proof. unfold user_state_get. follows. apply goes_exists. Qed.
Lemma goes_migrate user pw : follows off snd (migrate_super_key user pw).
Proof. unfold migrate_super_key. follows. Qed.
Hint Resolve goes_exists goes_state goes_migrate : follows.
Lemma goes_unlock user pw : goes (check_and_unlock_super_key user pw).
Proof. unfold check_and_unlock_super_key, load_or_migrate_super_key. simpl. follows. Qed.
Lemma goes_initialize draws user pw : goes (check_and_initialize_super_key draws user pw).
Proof. unfold check_and_initialize_super_key. follows. Qed.
Lemma goes_reset user keep : goes (reset_user off user keep).
Proof. unfold reset_user. simpl. follows. Qed.
Hint Resolve goes_unlock goes_initialize goes_reset : follows.
Lemma goes_password_changed draws user pw : goes (get_with_password_changed off draws user pw).
Proof. unfold get_with_password_changed. follows. Qed.
Lemma goes_password_unlock user pw : goes (get_with_password_unlock user pw).
Proof. unfold get_with_password_unlock. follows. Qed.
Lemma goes_super_encryption flag dom params flags user b : goes (handle_super_encryption_on_key_init flag dom params flags user b).
Proof. unfold handle_super_encryption_on_key_init, super_encrypt_on_key_init, encrypt_with_public_key. follows. Qed.
Lemma goes_get_or_create draws user kt pw re : goes (get_or_create_super_key draws user kt pw re).
Proof. unfold get_or_create_super_key. follows. Qed.
Hint Resolve goes_get_or_create : follows.
Lemma goes_unlock_screen draws draws' user pw : goes (unlock_screen_lock_bound_key draws draws' user pw).
Proof. unfold unlock_screen_lock_bound_key, get_or_try_to_insert_with. follows. Qed.
Lemma goes_ignore m : goes m -> goes (ignore_error m).
Proof. apply moves_same. intros g. unfold ignore_error. by destruct (m g) as [[]]. Qed.
Lemma goes_lock_screen u aid now gcm none fp alias_of dev draws user sids :
  goes (lock_screen_lock_bound_key u aid now gcm none fp alias_of dev draws user sids).
Proof.
  unfold lock_screen_lock_bound_key. follows. apply goes_ignore. unfold set_up_biometric_unlock. follows.
Qed.
Lemma goes_try_sids u gcm none tokens user b id e sids : goes (try_sids u gcm none tokens user b id e sids).
Proof.
  induction sids as [|sid sids IH]; simpl; [follows|]. intros g. destruct (db_find_auth_token_entry _ _) as [[tok when]|]; [|apply IH].
  assert (forall t, goes (try_biometric u gcm none b id e t)) as Hb.
  { intros t. unfold try_biometric, decrypt_locked_key. follows. }
  pose proof (Hb (auth_token tok) g) as H. destruct (try_biometric u gcm none b id e (auth_token tok) g) as [[[]|x|] g']; simpl in *;
     [etransitivity; [exact H|apply goes_on_skm]|etransitivity; [exact H|apply IH]|done].
Qed.
Lemma goes_biometric u aid gcm none dev tokens user : goes (try_unlock_user_with_biometric u aid gcm none dev tokens user).
Proof. unfold try_unlock_user_with_biometric. follows. apply goes_try_sids. Qed.
Lemma goes_boot_level_cache (get_level_zero_key : sr (SuperKey.Sys K Migrator) AnyError bytes) :
  goes get_level_zero_key -> goes (set_up_boot_level_cache get_level_zero_key).
Proof. intros. unfold set_up_boot_level_cache. follows. Qed.
End SuperKeys.
#[export] Hint Resolve goes_on_skm goes_on_tape goes_on_world goes_on_db goes_on_legacy goes_read_db goes_password_changed goes_password_unlock
  goes_super_encryption goes_unlock_screen goes_ignore goes_lock_screen goes_biometric goes_boot_level_cache goes_reset goes_state : follows.

(** ** Provisioning *)

Section Provisioning.
Context {AI : Aidl} (off : Z).

Section Keys.
Context (parse : bytes -> result AnyError bytes) (component : bool) (chk : KeyDescriptor -> option Z -> result AnyError unit).
Abbreviation goes m := (follows off (@snd RemProvState Tables) m).

Lemma goes_on_pool {A} (m : sr Tables AnyError (bool * A)) : follows off (fun s => s) m -> goes (on_pool m).
Proof. intros H [rp s]. specialize (H s). unfold on_pool. by destruct (m s). Qed.
Lemma goes_read_pool {A} (f : Tables -> result AnyError A) : goes (read_pool f).
Proof. apply silent_moves. by intros [rp s]. Qed.
Hint Resolve goes_on_pool goes_read_pool : follows.
Lemma goes_rem_prov_helper d uid : goes (get_rem_prov_attest_key_helper d uid).
Proof. unfold get_rem_prov_attest_key_helper. follows. Qed.
Hint Resolve goes_rem_prov_helper : follows.
Lemma goes_rem_prov d uid : goes (get_rem_prov_attest_key d uid).
Proof. unfold get_rem_prov_attest_key. follows. Qed.
Lemma goes_enabled : goes (check_rem_prov_enabled component).
Proof. apply silent_moves. intros [rp s]. unfold check_rem_prov_enabled. by case_match. Qed.
Lemma goes_try_rem_prov d uid : goes (try_rem_prov_attest_key parse d uid).
Proof.
  apply (moves_same _ snd (get_rem_prov_attest_key d uid)); [|apply goes_rem_prov]. intros w. unfold try_rem_prov_attest_key.
  by destruct (get_rem_prov_attest_key d uid w) as [[[]| |] w'].
Qed.
Hint Resolve goes_enabled goes_try_rem_prov : follows.
Lemma goes_attest_key_info key uid ak params : goes (get_attest_key_info parse component chk key uid ak params).
Proof.
  unfold get_attest_key_info, get_remotely_provisioned_attestation_key_and_certs, get_user_generated_attestation_key, load_attest_key_blob_and_cert.
  follows.
Qed.
End Keys.

Section Pool.
Context {R : Type} {RC : RemoteComponent R} (uuid_of : Z -> result AnyError Uuid) (devs : gmap Z (result AnyError unit)).
Abbreviation goes m := (follows off (@snd R Tables) m).

Lemma goes_component {A} (m : sr R BinderStatus A) : goes (on_component m).
Proof. apply silent_moves. intros [r s]. unfold on_component. by destruct (m r). Qed.
Lemma goes_service_db {A} (m : sr Tables AnyError (bool * A)) : follows off (fun s => s) m -> goes (on_service_db m).
Proof. intros H [r s]. specialize (H s). unfold on_service_db. by destruct (m s). Qed.
Lemma goes_read_service_db {A} (f : Tables -> result AnyError A) : goes (read_service_db f).
Proof. apply silent_moves. by intros [r s]. Qed.
Hint Resolve goes_component goes_service_db goes_read_service_db : follows.
Lemma goes_generate_csr t n eek ch l : goes (generate_csr uuid_of devs t n eek ch l).
Proof. unfold generate_csr. follows. Qed.
Lemma goes_provision pk bc cs ex l : goes (provision_cert_chain (R := R) uuid_of pk bc cs ex l).
Proof. unfold provision_cert_chain. follows. Qed.
Lemma goes_key_pair draws t l : goes (generate_key_pair uuid_of devs draws t l).
Proof. unfold generate_key_pair. follows. Qed.
Lemma goes_delete_all : goes (RemoteProvisioning.delete_all_keys (R := R)).
Proof. unfold RemoteProvisioning.delete_all_keys. follows. Qed.
Lemma goes_pool_status now ex l : goes (get_pool_status (R := R) uuid_of now ex l).
Proof. unfold get_pool_status. follows. Qed.
End Pool.
End Provisioning.
#[export] Hint Resolve goes_attest_key_info goes_generate_csr goes_provision goes_key_pair goes_delete_all goes_pool_status : follows.

(** ** Enforcements *)

(** The enforcements of operations leave alone who counts as unlocked. *)
Lemma register_unlocked s ch r s' : register_op_auth_receiver s ch r = Ok s' -> device_unlocked_set s' = device_unlocked_set s.
Proof. unfold register_op_auth_receiver, add_receiver, with_op_auth_map. intros H. repeat case_match; by simplify_eq. Qed.
Lemma finalize_unlocked {AI : Aidl} clock s info ch o info' s' :
  finalize_create_authorization clock s info ch = Ok (o, info', s') -> device_unlocked_set s' = device_unlocked_set s.
Proof.
  unfold finalize_create_authorization. destruct (state info); simpl; intros H; simplify_eq; try done;
    (apply bind_Ok in H as (s2 & E%register_unlocked & H)); by simplify_eq.
Qed.
Lemma get_auth_tokens_unlocked {AI : Aidl} s info : device_unlocked_set (get_auth_tokens s info).2 = device_unlocked_set s.
Proof.
  unfold get_auth_tokens. destruct (state info); try done. destruct (requests s !! _) as [rq|]; [|done].
  destruct (request_get_auth_tokens rq) as [[[]| |] ?]; done.
Qed.
Lemma before_finish_unlocked {AI : Aidl} s info : device_unlocked_set (before_finish s info).2 = device_unlocked_set s.
Proof.
  unfold before_finish. destruct (confirmation_token_receiver info), (confirmation_tokens s);
    (match goal with |- context [get_auth_tokens ?s1 ?i] => pose proof (get_auth_tokens_unlocked s1 i) as H; destruct (get_auth_tokens s1 i) as [[]] end; done).
Qed.
Lemma drop_unlocked s info : device_unlocked_set (drop_auth_info s info) = device_unlocked_set s.
Proof. unfold drop_auth_info. by destruct (state info). Qed.

(** ** The services *)

Section Services.
Context {AI : Aidl} {BO : Boring} {K : Type} {KMI : KeyMint K} {Ctx : Type} {SU : Surroundings Ctx}.
(** What the services have in common: the database, and who counts as
    unlocked, which none of their handlers changes. *)
Definition ks_view (k : Ks K) : Tables * gset Z := (w_db (g_world (ks_sys k)), device_unlocked_set (ks_enf k)).
Definition ks_step (a b : Tables * gset Z) : Prop := db_step sl_user_offset a.1 b.1 /\ b.2 = a.2.
Abbreviation goes m := (moves ks_step ks_view m).

Lemma ks_steps (t t' : Tables) (u : gset Z) : rtc (db_step sl_user_offset) t t' -> rtc ks_step (t, u) (t', u).
Proof. induction 1 as [|t1 t2 t3 H _ IH]; [done|]. eapply rtc_l; [|exact IH]. done. Qed.
Lemma ks_steps_inv a b : rtc ks_step a b -> rtc (db_step sl_user_offset) a.1 b.1 /\ b.2 = a.2.
Proof. induction 1 as [|x y z [H1 H2] _ [IH1 IH2]]; [done|]. split; [by eapply rtc_l|congruence]. Qed.

#[local] Instance our_legacy : Legacy Migrator := migrator_legacy sl_user_offset.
Implicit Types (c : Call Ctx).

Lemma goes_on_sys {E A} (m : sr (SuperKey.Sys K Migrator) E A) :
  follows sl_user_offset (fun g => w_db (g_world g)) m -> goes (on_sys m).
Proof. intros Hm k. specialize (Hm (ks_sys k)). unfold on_sys. destruct (m (ks_sys k)). by apply ks_steps. Qed.
Lemma goes_on_km {A} (m : sr K BinderStatus A) : goes (on_km m).
Proof. apply silent_moves. intros k. unfold on_km, with_km. by destruct (m _). Qed.
Lemma goes_ks_any {A} (m : sr (Ks K) Error A) : goes m -> goes (ks_any m).
Proof. apply moves_map_err. Qed.
Lemma goes_on_rem_prov {A} (m : sr (RemProvState * Tables) AnyError A) : follows sl_user_offset snd m -> goes (on_rem_prov m).
Proof.
  intros Hm k. specialize (Hm (ks_rp k, w_db (g_world (ks_sys k)))). unfold on_rem_prov. destruct (m _) as [r [rp s]]. by apply ks_steps.
Qed.
Lemma goes_on_timestamp {A} (m : sr TimestampFs TimestampError A) : goes (on_timestamp m).
Proof. apply silent_moves. intros k. unfold on_timestamp. by destruct (m _). Qed.
Lemma goes_km_error {A} n : goes (km_error n : sr (Ks K) AnyError A).
Proof. apply moves_throw. Qed.
Hint Resolve goes_on_sys goes_on_km goes_ks_any goes_on_rem_prov goes_on_timestamp goes_km_error : follows.

Lemma goes_store_new_key c key cr user flags : goes (SecurityLevel.store_new_key c key cr user flags).
Proof. unfold SecurityLevel.store_new_key. follows. Qed.
Lemma goes_store_upgraded id u b b' : goes (store_upgraded_keyblob id u b b').
Proof. unfold store_upgraded_keyblob. follows. Qed.
Hint Resolve goes_store_new_key goes_store_upgraded : follows.

Lemma goes_upgrade_required {A} id b m params (f : bytes -> sr (Ks K) Error A) :
  (forall b, goes (f b)) -> goes (SecurityLevel.upgrade_keyblob_if_required_with id b m params f).
Proof.
  intros Hf k. unfold SecurityLevel.upgrade_keyblob_if_required_with.
  assert (goes (upgrade_and_retry id b m params f)) as H1 by (unfold upgrade_and_retry; follows).
  assert (forall r, goes (no_upgrade id b m (A := A) r)) as H2 by (intros r; unfold no_upgrade; follows).
  pose proof (Hf (deref b) k) as H. destruct (f (deref b) k) as [[v|e|] k']; simpl in *; [|case_bool_decide|done];
    (etransitivity; [exact H|apply H1 || apply H2]).
Qed.
Hint Resolve goes_upgrade_required : follows.

Lemma goes_prune uid frc : goes (prune_ops uid frc).
Proof.
  apply silent_moves. intros k. unfold prune_ops. destruct (ks_rounds k); [done|]. by destruct (OperationDb.prune _ _ _ _ _) as [[[]|] d].
Qed.
Hint Resolve goes_prune : follows.
Lemma goes_begin_loop n purpose b ps hat uid frc : goes (begin_loop n purpose b ps hat uid frc).
Proof.
  induction n as [|n IH]; simpl; [follows|]. intros k. pose proof (goes_on_km (km_begin purpose b ps hat) k) as H.
  destruct (on_km (km_begin purpose b ps hat) k) as [[r|e|] k']; simpl in *; [done| |done]. case_bool_decide; [|done].
  etransitivity; [exact H|]. match goal with |- rtc _ _ (ks_view (?m k').2) => assert (goes m) as Hm; [|apply Hm] end. follows.
Qed.
Lemma goes_load_or_migrate c m key chk : goes (load_or_migrate c m key chk).
Proof. unfold load_or_migrate. follows. Qed.
Lemma goes_authorize c p kp ps : goes (authorize c p kp ps).
Proof. by apply silent_moves. Qed.
Lemma goes_finalize info ch : goes (finalize info ch).
Proof.
  apply silent_moves. intros k. unfold finalize. destruct (finalize_create_authorization _ _ _ _) as [[[o i] e]| |] eqn:E; [|done..].
  unfold ks_view. simpl. f_equal. by apply finalize_unlocked in E.
Qed.
Lemma goes_add_operation c km info frc log : goes (add_operation c km info frc log).
Proof. apply silent_moves. intros k. unfold add_operation. by destruct (OperationDb.create_operation _ _ _ _ _ _ _). Qed.
Hint Resolve goes_load_or_migrate goes_authorize goes_finalize goes_add_operation : follows.

Lemma goes_create_operation c key ps frc : goes (create_operation c key ps frc).
Proof.
  unfold create_operation, load_key_for_operation, begun. follows.
  apply goes_upgrade_required. intros b' k. apply goes_begin_loop.
Qed.
Lemma goes_certificate_parameters c uid ps key : goes (add_certificate_parameters c uid ps key).
Proof. unfold add_certificate_parameters. follows. Qed.
Hint Resolve goes_certificate_parameters : follows.
Lemma goes_generate_key c key ak ps flags : goes (generate_key c key ak ps flags).
Proof. unfold generate_key, generate_with. follows. Qed.
Lemma goes_import_key c key ps flags data : goes (import_key c key ps flags data).
Proof. unfold import_key. follows. Qed.
Lemma goes_import_wrapped_key c key wk mk ps auths : goes (import_wrapped_key c key wk mk ps auths).
Proof. unfold import_wrapped_key. follows. Qed.
Lemma goes_convert c key : goes (convert_storage_key_to_ephemeral c key).
Proof.
  unfold convert_storage_key_to_ephemeral. follows. intros k. unfold convert_or_upgrade.
  match goal with |- context [on_km ?m k] => pose proof (goes_on_km m k) as H; destruct (on_km m k) as [[r|e|] k'] end; simpl in *; [done| |done].
  case_bool_decide; [|done]. etransitivity; [exact H|].
  match goal with |- rtc _ _ (ks_view (?m k').2) => assert (goes m) as Hm; [|apply Hm] end. follows.
Qed.
Lemma goes_delete_blob c key : goes (SecurityLevel.delete_key c key).
Proof. unfold SecurityLevel.delete_key. follows. Qed.

Lemma goes_migrating {A} c key (m : sr Tables AnyError (bool * A)) : follows sl_user_offset (fun s => s) m -> goes (migrating c key m).
Proof.
  intros Hm. unfold migrating, note_gc. follows.
  apply goes_on_sys, goes_on_legacy, goes_with_try_migrate. intros [mg s]. specialize (Hm s). simpl. by destruct (m s).
Qed.
Hint Resolve goes_migrating : follows.
Lemma goes_loading c key bits chk : goes (loading c key bits chk).
Proof. unfold loading. follows. Qed.
Lemma goes_found_or_none {A} (m : sr (Ks K) AnyError A) : goes m -> goes (found_or_none m).
Proof. apply moves_same. intros k. unfold found_or_none. destruct (m k) as [[a|e|] k']; simpl; try done. by case_match. Qed.
Hint Resolve goes_loading goes_found_or_none : follows.
Lemma goes_get_key_entry ks c key : goes (get_key_entry ks c key).
Proof. unfold get_key_entry. follows. Qed.
Lemma goes_update_subcomponent u c key pc cc : goes (update_subcomponent u c key pc cc).
Proof. unfold update_subcomponent, insert_certificate. follows. Qed.
Lemma goes_list_entries c d n : goes (list_entries c d n).
Proof. unfold list_entries. follows. Qed.
Lemma goes_delete_key c key : goes (Service.delete_key c key).
Proof. unfold Service.delete_key. follows. Qed.
Lemma goes_grant c key u av : goes (Service.grant c key u av).
Proof. unfold Service.grant. follows. Qed.
Lemma goes_ungrant c key u : goes (Service.ungrant c key u).
Proof. unfold Service.ungrant. follows. Qed.
End Services.
