(* ===== verification/Daemon.v ===== *)
(** * The daemon

    All services over one state: the keys with everything the security
    levels share, the auth tokens, the devices, the delete listener, the
    statistics, the log task, the remotely provisioned components and the
    batch of the garbage collector.  A step is a request of a client to any
    of the services, a call on an operation, an operation that goes away, a
    step of the garbage collector or a new boot level. *)

From stdpp Require Import base list gmap strings relations.
From Stdlib Require Import ZArith Lia.
From S2P Require Import Prelude Aidl Errors Sql KeyParameter Perboot BootLevelKeys Permission AuthInfo Enforcements Operation OperationDb DbTypes Database DbInvariant DbAttestation DbSystem Crypto RawDevice SuperKey LegacyFs LegacyMigrator LegacySystem RemoteProvisioning AsyncTask Gc SecurityLevel Service Authorization Maintenance Metrics Devices Binder Frontends DaemonDb.

Inductive AuthorizationRequest :=
| AddAuthToken (hat : HardwareAuthToken)
| OnLockScreenEvent (ids : list Z) (event : LockScreenEvent) (user_id : Z) (password : option bytes) (unlocking_sids : option (list Z))
| GetAuthTokensForCredStore (challenge secure_user_id auth_token_max_age_millis : Z).

Inductive ProvisioningRequest :=
| GetPoolStatus (now : result AnyError Z) (expired_by level : Z)
| GenerateCsr (test_mode : bool) (num_csr : Z) (eek challenge : bytes) (level : Z)
| ProvisionCertChain (public_key batch_cert certs : bytes) (expiration_date level : Z)
| GenerateKeyPair (draws : list Z) (is_test_mode : bool) (level : Z)
| GetImplementationInfo
| DeleteAllPoolKeys.

Section Daemon.
Context {AI : Aidl} {BO : Boring} {K : Type} {KMI : KeyMint K} {Ctx : Type} {SU : SecurityLevel.Surroundings Ctx} {TE : Tee} {MA : MetricsAidl}.
Context {D : Type} {DV : Maintenance.Devices D} {L : Type} {DL : DeleteListener L} {R : Type} {RC : RemoteComponent R} {Sink H : Type}.
Context (log10_f32 : Z -> Z) (service : KeystoreService) (KEYSTORE_UUID : Uuid) (log_open : bool) (SHA_2_256 : Z).
(** The pool's view of the devices, what destroying a key blob answers, and
    the device of the boot level keys. *)
Context (keymint_uuid : Z -> result AnyError Uuid) (components : gmap Z (result AnyError unit)) (curves : gmap Z Z)
  (invalidate_key : Uuid -> bytes -> result AnyError unit) (level_zero_device : result AnyError (@KeyMintDevice H)).

Record System := {
  s_host : Host K D L;
  s_stats : MetricsStore;
  s_logs : @AsyncTaskState LogJob Sink;
  s_remote : R;
  s_deleted : list Z;
  s_superseded : list (Z * bytes * BlobMetaData);
  s_invalidated : list (Uuid * bytes)
}.
Abbreviation s_ks s := (d_ks (h_daemon (s_host s))).
Abbreviation s_tokens s := (d_tokens (h_daemon (s_host s))).
Definition s_db (s : System) : Tables := w_db (g_world (ks_sys (s_ks s))).

Definition with_host (h : Host K D L) (s : System) : System :=
  {| s_host := h; s_stats := s_stats s; s_logs := s_logs s; s_remote := s_remote s; s_deleted := s_deleted s;
     s_superseded := s_superseded s; s_invalidated := s_invalidated s |}.
Definition with_ks (k : Ks K) (s : System) : System :=
  with_host (with_daemon {| d_ks := k; d_tokens := s_tokens s |} (s_host s)) s.
Definition with_stats (st : MetricsStore) (l : @AsyncTaskState LogJob Sink) (s : System) : System :=
  {| s_host := s_host s; s_stats := st; s_logs := l; s_remote := s_remote s; s_deleted := s_deleted s;
     s_superseded := s_superseded s; s_invalidated := s_invalidated s |}.
Definition with_tables (t : Tables) (gc : bool) (k : Ks K) : Ks K :=
  let g := ks_sys k in
  set_sys {| g_skm := g_skm g; g_world := {| w_db := t; w_km := w_km (g_world g); w_gc := w_gc (g_world g) || gc |};
             g_tape := g_tape g; g_legacy := g_legacy g |} k.

(** The auth tokens a call sees are those of the daemon. *)
Definition at_call (c : Call Ctx) (s : System) : Call Ctx :=
  {| c_uid := c_uid c; c_sid := c_sid c; c_draws := c_draws c; c_date := c_date c; c_epoch := c_epoch c; c_raw_now := c_raw_now c;
     c_instant := c_instant c; c_wall := c_wall c; c_tokens := s_tokens s |}.

(** ** The steps *)

Definition key_request (c : Call Ctx) (req : Binder.Request) (s : System) : result BinderStatus unit * System :=
  let '(r, f) := serve log10_f32 service KEYSTORE_UUID log_open (at_call c s) req
                   {| f_ks := s_ks s; f_stats := s_stats s; f_logs := s_logs s |} in
  (r, with_stats (f_stats f) (f_logs f) (with_ks (f_ks f) s)).

(** The usage count of a key when one of its operations is finished. *)
Definition count_usage (t : Tables * bool) (key_id : Z) : result AnyError unit * (Tables * bool) :=
  match check_and_update_key_usage_count key_id t.1 with
  | (Ok (gc, _), t') => (Ok tt, (t', t.2 || gc))
  | (Err e, t') => (Err e, (t', t.2))
  | (Panic, t') => (Panic, (t', t.2))
  end.
(** An operation among everything else. *)
Definition op_world (o : Operation) (k : Ks K) : Operation.World (Tables * bool) :=
  {| op := o; Operation.enf := ks_enf k; kdb := (w_db (g_world (ks_sys k)), false); calls := []; logged := [] |}.
Definition log_outcome (o : Operation) (st : MetricsStore) (x : Outcome) : MetricsStore :=
  let l := logging_info o in
  log_key_operation_event_stats (sec_level l) (Operation.purpose l) (Operation.op_params l) x (key_upgraded l) st.
Definition put_back (i : opid) (held : bool) (w : Operation.World (Tables * bool)) (s : System) : System :=
  let k := with_tables (kdb w).1 (kdb w).2 (set_enf (Operation.enf w) (s_ks s)) in
  let k := set_ops (with_live (fun m => if held then <[i := op w]> m else delete i m) (ks_ops k)) (ks_rounds k) k in
  with_stats (fold_left (log_outcome (op w)) (logged w) (s_stats s)) (s_logs s) (with_ks k s).

(** A method of [IKeystoreOperation]; the object is empty once its
    operation was ended. *)
Definition operation_request (i : opid) (c : OpCall) (locked : bool) (env : Operation.Env) (s : System) : result BinderStatus unit * System :=
  match live (ks_ops (s_ks s)) !! i with
  | Some o =>
    let '(r, k) := ks_exec count_usage env c locked {| Operation.held := true; world := op_world o (s_ks s) |} in
    ((fun _ => tt) <$> Errors.map_or_log_err r Ok, put_back i (Operation.held k) (world k) s)
  | None => (Errors.map_or_log_err (Err (KsError (if locked then op_busy else invalid_handle))) Ok, s)
  end.
(** The client of an operation goes away. *)
Definition operation_dropped (i : opid) (env : Operation.Env) (s : System) : System :=
  match live (ks_ops (s_ks s)) !! i with
  | Some o => put_back i false (Operation.drop env (op_world o (s_ks s))) s
  | None => s
  end.

Definition authorization_request (c : Call Ctx) (req : AuthorizationRequest) (s : System) : result BinderStatus unit * System :=
  let done {A} (m : sr (Daemon K) BinderStatus A) :=
    let '(r, d) := m (h_daemon (s_host s)) in ((fun _ => tt) <$> r, with_host (with_daemon d (s_host s)) s) in
  match req with
  | AddAuthToken hat => done (addAuthToken c hat)
  | OnLockScreenEvent ids ev user pw sids => done (onLockScreenEvent c ids ev user pw sids)
  | GetAuthTokensForCredStore ch sid age => done (getAuthTokensForCredStore c ch sid age)
  end.

(** [get_level_zero_key] once the device is chosen. *)
Definition zero_key (c : Call Ctx) : sr (SuperKey.Sys K Migrator) AnyError bytes :=
  dev ← lift level_zero_device;
  on_world (level_zero_key (fun _ => KMI) AID_KEYSTORE SHA_2_256 (c_date c) (c_draws c) dev).

Definition maintenance_request (c : Call Ctx) (req : Maintenance.Request) (s : System) : option (result BinderStatus unit * System) :=
  (fun '(r, h) => (r, with_host h s)) <$> answer_if (handle (zero_key c) c req) (s_host s).
(** A request that waits for the delete listener for ever has done what
    comes before it. *)
Definition before_listener (c : Call Ctx) (req : Maintenance.Request) (s : System) : option System :=
  match maintenance_request c req s, req with
  | None, UserAddedOrRemoved user_id =>
    Some (with_host ((_ ← lift (check_keystore_permission c KeystorePerm.ChangeUser);
                      on_skm_sys (reset_user (LG := migrator_legacy sl_user_offset) sl_user_offset (as_u32 user_id) false)) (s_host s)).2 s)
  | None, ClearNamespace d nspace =>
    Some (with_host ((_ ← lift (check_keystore_permission c KeystorePerm.ClearUID);
                      _ ← on_skm_sys (on_legacy (LegacyMigrator.bulk_delete_uid sl_user_offset d nspace));
                      on_skm_sys (on_db (unbind_keys_for_namespace d nspace))) (s_host s)).2 s)
  | _, _ => None
  end.

Definition provisioning_request (req : ProvisioningRequest) (s : System) : result BinderStatus unit * System :=
  let done {A} (m : sr (R * Tables) BinderStatus A) :=
    let '(r, (rem, t)) := m (s_remote s, s_db s) in
    let s := with_ks (with_tables t false (s_ks s)) s in
    ((fun _ => tt) <$> r,
     {| s_host := s_host s; s_stats := s_stats s; s_logs := s_logs s; s_remote := rem; s_deleted := s_deleted s;
        s_superseded := s_superseded s; s_invalidated := s_invalidated s |}) in
  match req with
  | GetPoolStatus now ex l => done (getPoolStatus keymint_uuid now ex l)
  | GenerateCsr t n eek ch l => done (generateCsr keymint_uuid components t n eek ch l)
  | ProvisionCertChain pk bc cs ex l => done (provisionCertChain keymint_uuid pk bc cs ex l)
  | GenerateKeyPair draws t l => done (generateKeyPair keymint_uuid components draws t l)
  | GetImplementationInfo => done (getImplementationInfo curves)
  | DeleteAllPoolKeys => done deleteAllPoolKeys
  end.

(** One step of the collector on the shared database and super keys. *)
Definition collect (s : System) : System :=
  let g := ks_sys (s_ks s) in
  let i := (process_one_key invalidate_key
    {| deleted_blob_ids := s_deleted s; superseded_blobs := s_superseded s; gc_db := s_db s; gc_super_key := g_skm g;
       invalidated := s_invalidated s |}).2 in
  let k := set_sys {| g_skm := gc_super_key i; g_world := set_db (gc_db i) (g_world g); g_tape := g_tape g; g_legacy := g_legacy g |} (s_ks s) in
  {| s_host := s_host (with_ks k s); s_stats := s_stats s; s_logs := s_logs s; s_remote := s_remote s;
     s_deleted := deleted_blob_ids i; s_superseded := superseded_blobs i; s_invalidated := invalidated i |}.

(** The watcher of the boot level. *)
Definition boot_level (level : Z) (s : System) : System :=
  with_ks (on_sys (on_skm (watch_boot_level_step level)) (s_ks s)).2 s.

Inductive daemon_step (s : System) : System -> Prop :=
| step_key c req r s' : key_request c req s = (r, s') -> daemon_step s s'
| step_operation i c locked env r s' : operation_request i c locked env s = (r, s') -> daemon_step s s'
| step_dropped i env : daemon_step s (operation_dropped i env s)
| step_authorization c req r s' : authorization_request c req s = (r, s') -> daemon_step s s'
| step_maintenance c req r s' : maintenance_request c req s = Some (r, s') -> daemon_step s s'
| step_hangs c req s' : before_listener c req s = Some s' -> daemon_step s s'
| step_provisioning req r s' : provisioning_request req s = (r, s') -> daemon_step s s'
| step_collect : daemon_step s (collect s)
| step_boot_level level : daemon_step s (boot_level level s).

(** ** The daemon and its database *)

Abbreviation off := sl_user_offset.
Abbreviation op_view := (fun w : Operation.World (Tables * bool) => ((kdb w).1, device_unlocked_set (Operation.enf w))).
Abbreviation runs m := (moves ks_step op_view m).

Lemma runs_interface env : runs (Operation.get_interface env).
Proof. unfold Operation.get_interface. destruct (interface_ok env); [apply moves_ret|apply moves_throw]. Qed.
Lemma runs_active : runs check_active.
Proof. apply silent_moves. intros w. unfold check_active. by destruct (outcome (op w)). Qed.
Lemma runs_touch env : runs (touch env).
Proof. by apply silent_moves. Qed.
Lemma runs_auth_info {T} (f : Enforcements -> AuthInfo -> result AnyError T * AuthInfo * Enforcements) :
  (forall e i, device_unlocked_set (f e i).2 = device_unlocked_set e) -> runs (with_auth_info f).
Proof.
  intros Hf. apply silent_moves. intros w. unfold with_auth_info. specialize (Hf (Operation.enf w) (auth_info (op w))).
  destruct (f _ _) as [[]]. simpl in *. by rewrite Hf.
Qed.
Lemma runs_before_update : runs (with_auth_info before_update).
Proof. apply runs_auth_info, get_auth_tokens_unlocked. Qed.
Lemma runs_before_finish : runs (with_auth_info before_finish).
Proof. apply runs_auth_info, before_finish_unlocked. Qed.
Lemma runs_km_call env c : runs (Operation.km_call env c).
Proof. by apply silent_moves. Qed.
Lemma runs_outcome {T} (m : sr (Operation.World (Tables * bool)) Error T) : runs m -> runs (update_outcome m).
Proof.
  intros Hm w. specialize (Hm w). unfold update_outcome. destruct (m w) as [[a|e|] w']; simpl in *; [done| |done]. by destruct e.
Qed.
Lemma runs_after_finish : runs (op_after_finish count_usage).
Proof.
  intros w. unfold op_after_finish, after_finish. destruct (key_usage_limited (auth_info (op w))) as [id|]; [|apply rtc_refl].
  unfold count_usage. pose proof (calls_count off id (kdb w).1) as Hc.
  destruct (check_and_update_key_usage_count id (kdb w).1) as [[[gc u]|e|] t]; by apply ks_steps.
Qed.
Hint Resolve runs_interface runs_active runs_touch runs_before_update runs_before_finish runs_km_call runs_outcome runs_after_finish : follows.
Lemma runs_exec env c : runs (exec count_usage env c).
Proof. destruct c; simpl; unfold update_aad, update, finish, abort; follows. Qed.
Lemma runs_abort env o : runs (abort env o).
Proof. unfold abort. follows. Qed.
Lemma drop_view env (w : Operation.World (Tables * bool)) : rtc ks_step (op_view w) (op_view (Operation.drop env w)).
Proof.
  assert (forall w0 : Operation.World (Tables * bool),
    (kdb w0).1 = (kdb w0).1 /\ device_unlocked_set (drop_auth_info (Operation.enf w0) (auth_info (op w0))) = device_unlocked_set (Operation.enf w0)) as Hd
    by (intros w0; split; [done|apply drop_unlocked]).
  unfold Operation.drop. destruct (outcome (op w)); simpl; rewrite drop_unlocked; try apply rtc_refl.
  match goal with |- context [abort env Dropped ?w1] => exact (runs_abort env Dropped w1) end.
Qed.
Lemma exec_view env c locked (k : Operation.KeystoreOperation (Db := Tables * bool)) :
  rtc ks_step (op_view (world k)) (op_view (world (ks_exec count_usage env c locked k).2)).
Proof.
  unfold ks_exec, with_locked_operation. destruct locked; [apply rtc_refl|].
  destruct (Operation.held k) eqn:Eh; [|by destruct c].
  pose proof (runs_exec env c (world k)) as Hr. destruct (exec count_usage env c (world k)) as [r w]. simpl in Hr.
  destruct r; [..|done]; simpl; (case_match; [etransitivity; [exact Hr|apply drop_view]|done]).
Qed.

Lemma method_follows {A} stats job (m : sr (Ks K) AnyError A) :
  moves ks_step ks_view m -> moves ks_step (fun f : @Front K Sink => ks_view (f_ks f)) (method log_open stats job m).
Proof.
  intros Hm f. specialize (Hm (f_ks f)). unfold method. destruct (m (f_ks f)) as [[a|e|] k]; [..|done]; simpl in *; by case_match.
Qed.
Hint Resolve method_follows goes_create_operation goes_generate_key goes_import_key goes_import_wrapped_key goes_convert goes_delete_blob
  goes_get_key_entry goes_update_subcomponent goes_list_entries goes_delete_key goes_grant goes_ungrant : follows.
Lemma serve_follows c req : moves ks_step (fun f : @Front K Sink => ks_view (f_ks f)) (serve log10_f32 service KEYSTORE_UUID log_open c req).
Proof.
  destruct req; simpl; unfold reply, createOperation, generateKey, importKey, importWrappedKey, convertStorageKeyToEphemeral, deleteKeyBlob,
    getSecurityLevel, getKeyEntry, updateSubcomponent, listEntries, deleteKey, grant, ungrant; follows.
Qed.

Abbreviation d_db := (fun d : Daemon K => w_db (g_world (ks_sys (d_ks d)))).
Abbreviation d_view := (fun d : Daemon K => ks_view (d_ks d)).
Lemma on_ks_view {A} (m : sr (Ks K) AnyError A) : moves ks_step ks_view m -> moves ks_step d_view (on_ks m).
Proof. intros Hm d. specialize (Hm (d_ks d)). unfold on_ks. by destruct (m (d_ks d)). Qed.
Lemma on_sys_view {A} (m : sr (SuperKey.Sys K Migrator) AnyError A) :
  follows off (fun g => w_db (g_world g)) m -> moves ks_step d_view (on_ks (on_sys m)).
Proof. intros. by apply on_ks_view, goes_on_sys. Qed.
Lemma az_lift_view {A} (r : result AnyError A) : moves ks_step d_view (az_lift r).
Proof. apply moves_lift. Qed.
Hint Resolve on_sys_view az_lift_view : follows.
Lemma add_token_unlocked e hat : device_unlocked_set (op_auth_map_add_auth_token e hat) = device_unlocked_set e.
Proof. unfold op_auth_map_add_auth_token. by destruct (receivers _ !! _). Qed.
Lemma add_auth_token_view c hat : moves ks_step d_view (Authorization.add_auth_token c hat).
Proof.
  unfold Authorization.add_auth_token. follows. apply moves_modify. intros d. unfold ks_view. simpl. by rewrite add_token_unlocked.
Qed.
Lemma credstore_view c ch sid age : moves ks_step d_view (get_auth_tokens_for_credstore c ch sid age).
Proof. unfold get_auth_tokens_for_credstore. follows. Qed.

(** A lock screen event moves the database, and unlocks or locks its user
    if the caller may. *)
Definition lock_effect_on c ev (user : Z) (u u' : gset Z) : Prop :=
  u' = u \/ (ev = UNLOCK /\ check_keystore_permission c KeystorePerm.Unlock = Ok tt /\ u' = {[user]} ∪ u) \/
  (ev = LOCK /\ check_keystore_permission c KeystorePerm.Lock = Ok tt /\ u' = u ∖ {[user]}).
Lemma lock_event_then user b (m : unit -> sr (Daemon K) AzError unit) d :
  (forall x, moves ks_step d_view (m x)) ->
  let d' := ((on_enforcements (fun e => set_device_locked e user b) ≫= m) d).2 in
  rtc (db_step off) (d_db d) (d_db d') /\
  device_unlocked_set (ks_enf (d_ks d')) = device_unlocked_set (set_device_locked (ks_enf (d_ks d)) user b).
Proof.
  intros Hm d'. unfold d', on_enforcements, on_ks, modify, mbind, sr_bind. simpl.
  match goal with |- context [m tt ?d1] => pose proof (Hm tt d1) as H1 end. apply ks_steps_inv in H1 as [H1 H2]. done.
Qed.
(** One kind of event: without the permission nothing happens. *)
Ltac lock_case c p user b :=
  destruct (check_keystore_permission c p) as [[]|e|] eqn:Ec; [|split; [apply rtc_refl|by left]..];
  rewrite az_lift_bind;
  match goal with |- context [(on_enforcements _ ≫= ?m) ?d] => destruct (lock_event_then user b m d) as [H1 H2] end;
  [intros x; follows|split; [assumption|]].
Lemma lock_screen_event_view c ids ev user pw sids d r d' :
  on_lock_screen_event c ids ev user pw sids d = (r, d') ->
  rtc (db_step off) (d_db d) (d_db d') /\
  lock_effect_on c ev user (device_unlocked_set (ks_enf (d_ks d))) (device_unlocked_set (ks_enf (d_ks d'))).
Proof.
  intros E. assert (d' = (on_lock_screen_event c ids ev user pw sids d).2) as -> by (by rewrite E). clear E.
  unfold on_lock_screen_event. destruct ev, pw; try (split; [apply rtc_refl|by left]).
  - lock_case c KeystorePerm.Unlock user false. right. left. by rewrite H2.
  - lock_case c KeystorePerm.Unlock user false. right. left. by rewrite H2.
  - lock_case c KeystorePerm.Lock user true. right. right. by rewrite H2.
Qed.

Abbreviation h_view := (fun h : Host K D L => ks_view (d_ks (h_daemon h))).
Lemma on_keystore_view {A} (m : sr (Ks K) AnyError A) : moves ks_step ks_view m -> moves ks_step h_view (on_keystore m).
Proof. intros Hm h. specialize (Hm (d_ks (h_daemon h))). unfold on_keystore. by destruct (m (d_ks (h_daemon h))). Qed.
Lemma on_skm_sys_view {A} (m : sr (SuperKey.Sys K Migrator) AnyError A) :
  follows off (fun g => w_db (g_world g)) m -> moves ks_step h_view (on_skm_sys m).
Proof. intros. by apply on_keystore_view, goes_on_sys. Qed.
Lemma on_devices_view {A} (m : sr D AnyError A) : moves ks_step h_view (on_devices m).
Proof. apply silent_moves. intros h. unfold on_devices. by destruct (m (h_devices h)). Qed.
Hint Resolve on_keystore_view on_skm_sys_view on_devices_view goes_loading : follows.

Lemma zero_key_follows c : follows off (fun g : SuperKey.Sys K Migrator => w_db (g_world g)) (zero_key c).
Proof. unfold zero_key, level_zero_key. cbv beta. follows. apply goes_on_world. follows. Qed.
Hint Resolve zero_key_follows : follows.
Lemma users_follow c user : moves ks_step h_view (_ ← lift (check_keystore_permission c KeystorePerm.ChangeUser);
  on_skm_sys (reset_user (LG := migrator_legacy sl_user_offset) sl_user_offset (as_u32 user) false)).
Proof. follows. Qed.
Lemma namespaces_follow c d n : moves ks_step h_view (_ ← lift (check_keystore_permission c KeystorePerm.ClearUID);
  _ ← on_skm_sys (on_legacy (LegacyMigrator.bulk_delete_uid sl_user_offset d n)); on_skm_sys (on_db (unbind_keys_for_namespace d n))).
Proof. follows. Qed.

(** A maintenance request moves whatever its methods move. *)
Section Handle.
Context {T : Type} (P : relation T) (view : Host K D L -> T) (c : Call Ctx) (h : Host K D L).
Context (view_listener : forall h l, view {| h_daemon := h_daemon h; h_devices := h_devices h; h_listener := l |} = view h).
Context (skm : forall A (m : sr (SuperKey.Sys K Migrator) AnyError A), follows off (fun g => w_db (g_world g)) m -> moves P view (on_skm_sys m)).
Context (devs : forall A (m : sr D AnyError A), moves P view (on_devices m)).
Context (body : forall t, view (with_daemon {| d_ks := d_ks (h_daemon h); d_tokens := set_last_off_body (d_tokens (h_daemon h)) t |} h) = view h).

Context (move : forall source destination, moves P view (Maintenance.migrate_key_namespace c source destination)).

Lemma then_listener_moves (m : sr (Host K D L) AnyError unit) f r h' :
  moves P view m -> then_listener m f h = Some (r, h') -> rtc P (view h) (view h').
Proof.
  intros Hm. specialize (Hm h). unfold then_listener. destruct (m h) as [[[]|e|] h1]; simpl in Hm; [|intros; by simplify_eq..].
  destruct (f (h_listener h1)) as [[]|]; simpl; intros; simplify_eq. by rewrite view_listener.
Qed.
Lemma handle_moves req r h' : handle (zero_key c) c req h = Some (r, h') -> rtc P (view h) (view h').
Proof.
  assert (forall A (m : sr (Host K D L) AnyError A) x, moves P view m -> m h = x -> rtc P (view h) (view x.2)) as Hgo
    by (intros A m x Hm <-; apply Hm).
  destruct req; simpl; intros E.
  - injection E as E. apply (Hgo _ _ _) in E; [done|]. unfold on_user_password_changed. follows.
  - apply then_listener_moves in E; [done|]. follows. apply skm, goes_reset.
  - apply then_listener_moves in E; [done|]. follows.
  - destruct (get_state c user_id h) as [x h1] eqn:E1. simplify_eq. apply (Hgo _ _ _) in E1; [done|]. unfold get_state. follows.
    apply skm, goes_state.
  - injection E as E. apply (Hgo _ _ _) in E; [done|]. unfold early_boot_ended. follows.
  - injection E as E. unfold on_device_off_body, mbind, sr_bind, lift in E.
    destruct (check_keystore_permission c KeystorePerm.ReportOffBody) as [[]|e|]; injection E as <- <-; [|done..]. by rewrite body.
  - injection E as E. by apply (Hgo _ _ _) in E.
  - injection E as E. apply (Hgo _ _ _) in E; [done|]. unfold Maintenance.delete_all_keys. follows.
Qed.
End Handle.

Definition s_view (s : System) : Tables * gset Z := ks_view (s_ks s).
Abbreviation unlocked s := (device_unlocked_set (ks_enf (s_ks s))).

Lemma put_back_view i b w s : s_view (put_back i b w s) = op_view w.
Proof. done. Qed.
Lemma collect_view g u : rtc ks_step (gc_db g, u) (gc_db (process_one_key invalidate_key g).2, u).
Proof.
  apply ks_steps. assert (rtc (db_step off) (gc_db g) (gc_db (fetch g).2)) as Hf.
  { unfold fetch. destruct (superseded_blobs g); [|apply rtc_refl]. pose proof (calls_superseded off (deleted_blob_ids g) 20 (gc_db g)) as Hc.
    by destruct (handle_next_superseded_blobs _ _ _) as [[[gc l]|e|] t]. }
  unfold process_one_key, mbind, sr_bind. destruct (fetch g) as [[[]|e|] g1]; [|done..]. simpl in Hf.
  assert (gc_db (destroy_one invalidate_key g1).2 = gc_db g1) as ->; [|done].
  unfold destroy_one. destruct (pop _) as [[[[id b] m] rest]|]; [|done]. destruct (km_uuid_of m); [|done].
  by destruct (unwrap_key_if_required _ _ _) as [[]].
Qed.

(** The requests to the authorization service. *)
Lemma authorization_view c req s r s' :
  authorization_request c req s = (r, s') ->
  rtc ks_step (s_view s) (s_view s') \/
  exists ids ev user pw sids, req = OnLockScreenEvent ids ev user pw sids /\
    rtc (db_step off) (s_db s) (s_db s') /\ lock_effect_on c ev user (unlocked s) (unlocked s').
Proof.
  assert (forall A (m : sr (Daemon K) AzError A), moves ks_step d_view m -> rtc ks_step (s_view s) (d_view (az_answer m (h_daemon (s_host s))).2)) as Hgo.
  { intros A m Hm. specialize (Hm (h_daemon (s_host s))). unfold az_answer. by destruct (m _). }
  destruct req as [hat|ids ev user pw sids|ch sid age]; unfold authorization_request; intros E.
  - left. specialize (Hgo _ _ (add_auth_token_view c hat)). unfold addAuthToken in E. destruct (az_answer _ _) as [x d]. by simplify_eq.
  - right. exists ids, ev, user, pw, sids. split; [done|]. unfold onLockScreenEvent, az_answer in E.
    destruct (on_lock_screen_event _ _ _ _ _ _ _) as [x d] eqn:El. apply lock_screen_event_view in El. by simplify_eq.
  - left. specialize (Hgo _ _ (credstore_view c ch sid age)). unfold getAuthTokensForCredStore in E. destruct (az_answer _ _) as [x d]. by simplify_eq.
Qed.
Lemma provisioning_view req s r s' : provisioning_request req s = (r, s') -> rtc ks_step (s_view s) (s_view s').
Proof.
  assert (forall A (m : sr (R * Tables) AnyError A) x rem t, follows off snd m -> answer m (s_remote s, s_db s) = (x, (rem, t)) ->
    rtc ks_step (s_view s) (t, unlocked s)) as Hgo.
  { intros A m x rem t Hm (Ht & _)%answer_exact. specialize (Hm (s_remote s, s_db s)). rewrite <- Ht in Hm. by apply ks_steps. }
  intros E. destruct req; simpl in E; unfold getPoolStatus, generateCsr, provisionCertChain, generateKeyPair, getImplementationInfo, deleteAllPoolKeys in E;
    first [destruct (answer _ _) as [x [rem t]] eqn:Ea; simplify_eq; apply Hgo in Ea; [done|follows]|simplify_eq; apply rtc_refl].
Qed.
Lemma move_view c source destination : moves ks_step h_view (Maintenance.migrate_key_namespace c source destination).
Proof. unfold Maintenance.migrate_key_namespace. follows. Qed.
Lemma maintenance_view c req s r s' : maintenance_request c req s = Some (r, s') -> rtc ks_step (s_view s) (s_view s').
Proof.
  unfold maintenance_request, answer_if. destruct (handle _ _ _ _) as [[x h]|] eqn:Eh; intros; simplify_eq/=.
  exact (handle_moves ks_step h_view c (s_host s) (fun _ _ => eq_refl) (fun A m Hm => on_skm_sys_view m Hm) (fun A m => on_devices_view m)
    (fun _ => eq_refl) (move_view c) _ _ _ Eh).
Qed.

(** Every step moves the database by its own operations and leaves alone who
    counts as unlocked, but for a lock screen event. *)
Lemma daemon_step_view s s' :
  daemon_step s s' ->
  rtc ks_step (s_view s) (s_view s') \/
  exists c ids ev user pw sids r, authorization_request c (OnLockScreenEvent ids ev user pw sids) s = (r, s') /\
    rtc (db_step off) (s_db s) (s_db s') /\ lock_effect_on c ev user (unlocked s) (unlocked s').
Proof.
  intros [c req r s1 E|i c locked env r s1 E|i env|c req r s1 E|c req r s1 E|c req s1 E|req r s1 E| |level]; clear s';
    [left|left|left| |left..].
  - unfold key_request in E. match type of E with context [serve _ _ _ _ ?c' req ?f] => pose proof (serve_follows c' req f) as Hs end.
    destruct (serve _ _ _ _ _ _ _) as [x f]. by simplify_eq.
  - unfold operation_request in E. destruct (live _ !! i) as [o|]; [|simplify_eq; apply rtc_refl].
    pose proof (exec_view env c locked {| Operation.held := true; world := op_world o (s_ks s) |}) as Hx.
    destruct (ks_exec _ _ _ _ _) as [x k]. simplify_eq. exact Hx.
  - unfold operation_dropped. destruct (live _ !! i) as [o|]; [|apply rtc_refl]. rewrite put_back_view. apply (drop_view env (op_world o (s_ks s))).
  - destruct (authorization_view c req s r s1 E) as [?|(ids & ev & user & pw & sids & -> & ?)]; [by left|right]. eauto 10.
  - exact (maintenance_view _ _ _ _ _ E).
  - unfold before_listener in E. destruct (maintenance_request c req s); [done|]. destruct req; simplify_eq; [apply users_follow|apply namespaces_follow].
  - exact (provisioning_view _ _ _ _ E).
  - apply (collect_view {| deleted_blob_ids := s_deleted s; superseded_blobs := s_superseded s; gc_db := s_db s;
                           gc_super_key := g_skm (ks_sys (s_ks s)); invalidated := s_invalidated s |}).
  - unfold boot_level. apply goes_on_sys, goes_on_skm.
Qed.

Lemma daemon_step_db s s' : daemon_step s s' -> rtc (db_step off) (s_db s) (s_db s').
Proof. intros [Hk%ks_steps_inv|(c & ids & ev & user & pw & sids & r & _ & Hk & _)]%daemon_step_view; [apply Hk|done]. Qed.
Lemma daemon_db s s' : rtc daemon_step s s' -> rtc (db_step off) (s_db s) (s_db s').
Proof. induction 1 as [|s1 s2 s3 Hs _ IH]; [done|]. etransitivity; [exact (daemon_step_db _ _ Hs)|done]. Qed.

(** C3: The daemon refines its database.  Start with a database that operations
    of [KeystoreDB] have made, and let clients, operations, the collector and
    the boot go on in any order, with any answers of the devices and whatever
    fails: the database is then again one that a sequence of operations of
    [KeystoreDB] makes, and so it is well formed. *)
Theorem daemon_refines_database s0 s :
  db_reachable off (s_db s0) -> rtc daemon_step s0 s -> db_reachable off (s_db s) /\ db_wf (s_db s).
Proof.
  intros H0 Hs%daemon_db. assert (db_reachable off (s_db s)) as Hr by (unfold db_reachable in *; by etransitivity).
  split; [done|]. by apply (reachable_wf off).
Qed.

(** ** Where auth tokens come from *)

Abbreviation idle := (fun _ _ : list AuthTokenEntry => False).
Abbreviation d_auth := (fun d : Daemon K => auth_tokens (d_tokens d)).
Abbreviation h_auth := (fun h : Host K D L => auth_tokens (d_tokens (h_daemon h))).
Lemma idle_eq (l l' : list AuthTokenEntry) : rtc idle l l' -> l' = l.
Proof. by induction 1. Qed.

Lemma on_ks_idle {A} (m : sr (Ks K) AnyError A) : moves idle d_auth (on_ks m).
Proof. apply silent_moves. intros d. unfold on_ks. by destruct (m (d_ks d)). Qed.
Lemma on_enforcements_idle f : moves idle d_auth (on_enforcements f).
Proof. by apply silent_moves. Qed.
Lemma on_keystore_idle {A} (m : sr (Ks K) AnyError A) : moves idle h_auth (on_keystore m).
Proof. apply silent_moves. intros h. unfold on_keystore. by destruct (m (d_ks (h_daemon h))). Qed.
Lemma on_skm_sys_idle {A} (m : sr (SuperKey.Sys K Migrator) AnyError A) : moves idle h_auth (on_skm_sys m).
Proof. apply on_keystore_idle. Qed.
Lemma on_devices_idle {A} (m : sr D AnyError A) : moves idle h_auth (on_devices m).
Proof. apply silent_moves. intros h. unfold on_devices. by destruct (m (h_devices h)). Qed.
Lemma az_lift_idle {A} (r : result AnyError A) : moves idle d_auth (az_lift r).
Proof. apply moves_lift. Qed.
Hint Resolve on_ks_idle on_enforcements_idle on_keystore_idle on_skm_sys_idle on_devices_idle az_lift_idle : follows.

Lemma move_idle c source destination : moves idle h_auth (Maintenance.migrate_key_namespace c source destination).
Proof. unfold Maintenance.migrate_key_namespace. follows. Qed.
Lemma maintenance_idle c req s r s' : maintenance_request c req s = Some (r, s') -> auth_tokens (s_tokens s') = auth_tokens (s_tokens s).
Proof.
  unfold maintenance_request, answer_if. destruct (handle _ _ _ _) as [[x h]|] eqn:Eh; intros; simplify_eq/=.
  exact (idle_eq _ _ (handle_moves idle h_auth c (s_host s) (fun _ _ => eq_refl) (fun A m _ => on_skm_sys_idle m) (fun A m => on_devices_idle m)
    (fun _ => eq_refl) (move_idle c) _ _ _ Eh)).
Qed.

(** A token that a step brings was added by a caller with the permission. *)
Lemma daemon_step_tokens s s' t :
  daemon_step s s' -> t ∈ auth_tokens (s_tokens s') ->
  t ∈ auth_tokens (s_tokens s) \/
  exists c, authorization_request c (AddAuthToken (auth_token t)) s = (Ok tt, s') /\
    check_keystore_permission c KeystorePerm.AddAuth = Ok tt /\ time_received t = c_raw_now c.
Proof.
  intros [c req r s1 E|i c locked env r s1 E|i env|c req r s1 E|c req r s1 E|c req s1 E|req r s1 E| |level] Ht; clear s'.
  - left. unfold key_request in E. destruct (serve _ _ _ _ _ _ _) as [x f]. by simplify_eq.
  - left. unfold operation_request in E. destruct (live _ !! i); [destruct (ks_exec _ _ _ _ _)|]; by simplify_eq.
  - left. unfold operation_dropped in Ht. by destruct (live _ !! i).
  - destruct req as [hat|ids ev user pw sids|ch sid age].
    + unfold authorization_request, addAuthToken, az_answer, Authorization.add_auth_token in E.
      destruct (check_keystore_permission c KeystorePerm.AddAuth) as [[]|e|] eqn:Ec; simpl in E; injection E as <- <-; [|by left..].
      simpl in Ht. apply elem_of_app in Ht as [[_ Ht]%list_elem_of_filter|Ht%list_elem_of_singleton]; [by left|]. subst t.
      right. exists c. split; [|done]. unfold authorization_request, addAuthToken, az_answer, Authorization.add_auth_token. by rewrite Ec.
    + left. unfold authorization_request, onLockScreenEvent, az_answer in E.
      assert (moves idle d_auth (on_lock_screen_event c ids ev user pw sids)) as Hm by (unfold on_lock_screen_event; follows).
      specialize (Hm (h_daemon (s_host s))). apply idle_eq in Hm. destruct (on_lock_screen_event _ _ _ _ _ _ _) as [x d]. simplify_eq/=. by rewrite <- Hm.
    + left. unfold authorization_request, getAuthTokensForCredStore, az_answer in E.
      assert (moves idle d_auth (get_auth_tokens_for_credstore c ch sid age)) as Hm by (unfold get_auth_tokens_for_credstore; follows).
      specialize (Hm (h_daemon (s_host s))). apply idle_eq in Hm. destruct (get_auth_tokens_for_credstore _ _ _ _ _) as [x d]. simplify_eq/=. by rewrite <- Hm.
  - left. apply maintenance_idle in E. by rewrite <- E.
  - left. unfold before_listener in E. destruct (maintenance_request c req s); [done|].
    assert (forall (m : sr (Host K D L) AnyError unit), moves idle h_auth m -> s1 = with_host (m (s_host s)).2 s -> t ∈ auth_tokens (s_tokens s)) as Hgo.
    { intros m Hm ->. specialize (Hm (s_host s)). apply idle_eq in Hm. simpl in *. by rewrite <- Hm. }
    destruct req; simplify_eq; (eapply Hgo; [|reflexivity]); follows.
  - left. destruct req; simpl in E;
      try match type of E with (let '_ := ?m in _) = _ => destruct m as [x [rem t']] end; simplify_eq; exact Ht.
  - by left.
  - by left.
Qed.
(** C5: Every auth token was handed in.  A token in the daemon's memory after any
    run that was not there at the beginning came through [addAuthToken] from a
    caller with the permission to add auth tokens, unchanged, and its time of
    receipt is that of the call. *)
Theorem tokens_come_from_authenticators s0 s t :
  rtc daemon_step s0 s -> t ∈ auth_tokens (s_tokens s) ->
  t ∈ auth_tokens (s_tokens s0) \/
  exists s1 s2 c, rtc daemon_step s0 s1 /\ authorization_request c (AddAuthToken (auth_token t)) s1 = (Ok tt, s2) /\
    rtc daemon_step s2 s /\ check_keystore_permission c KeystorePerm.AddAuth = Ok tt /\ time_received t = c_raw_now c.
Proof.
  intros Hr. pattern s. revert Hr. apply rtc_ind_r; clear s.
  - by left.
  - intros s s' Hr Hs IH Ht. destruct (daemon_step_tokens s s' t Hs Ht) as [Hin|(c & E & Hc & Htime)].
    + destruct (IH Hin) as [?|(s1 & s2 & c & H1 & E & H2 & ?)]; [by left|]. right. exists s1, s2, c. split_and!; try done; [|naive_solver..].
      by eapply rtc_r.
    + right. exists s, s', c. by split_and!.
Qed.

(** ** Who unlocks a device *)

Lemma daemon_step_unlocks s s' user :
  daemon_step s s' -> user ∉ unlocked s -> user ∈ unlocked s' ->
  exists c ids pw sids r, authorization_request c (OnLockScreenEvent ids UNLOCK user pw sids) s = (r, s') /\
    check_keystore_permission c KeystorePerm.Unlock = Ok tt.
Proof.
  intros [Hk%ks_steps_inv|(c & ids & ev & u & pw & sids & r & E & _ & Hl)]%daemon_step_view Hn Hi.
  - destruct Hk as [_ Hk]. simpl in Hk. by rewrite Hk in Hi.
  - destruct Hl as [Hl|[(-> & Hc & Hl)|(_ & _ & Hl)]]; rewrite Hl in Hi; [done| |set_solver].
    assert (user = u) as -> by set_solver. eauto 10.
Qed.
(** C6: A device stays locked until it is unlocked.  If a user counts as locked
    before a run and as unlocked after it, then the run contains a lock screen
    event that unlocks this user, from a caller with the permission to
    unlock; nothing else the daemon does, to keys, operations, users or the
    database, has that effect. *)
Theorem locked_until_unlocked s0 s user :
  rtc daemon_step s0 s -> user ∉ unlocked s0 -> user ∈ unlocked s ->
  exists s1 s2 c ids pw sids r, rtc daemon_step s0 s1 /\ user ∉ unlocked s1 /\
    authorization_request c (OnLockScreenEvent ids UNLOCK user pw sids) s1 = (r, s2) /\
    check_keystore_permission c KeystorePerm.Unlock = Ok tt /\ rtc daemon_step s2 s.
Proof.
  intros Hr. induction Hr as [s|s1 s2 s3 Hs Hr IH]; [done|]. intros Hn Hi. destruct (decide (user ∈ unlocked s2)) as [H2|H2].
  - destruct (daemon_step_unlocks _ _ _ Hs Hn H2) as (c & ids & pw & sids & r & E & Hc). exists s1, s2, c, ids, pw, sids, r.
    by split_and!; [apply rtc_refl|..].
  - destruct (IH H2 Hi) as (sa & sb & c & ids & pw & sids & r & Ha & ?). exists sa, sb, c, ids, pw, sids, r.
    split; [by eapply rtc_l|done].
Qed.
End Daemon.
