(* ===== verification/DaemonDemo.v ===== *)
(** * An example run of the daemon

    A daemon with the published constants, a client that may do everything,
    and the legacy keystore as the delete listener: a key is imported, a user
    unlocks, a token arrives, a namespace is cleared and the collector runs. *)

From stdpp Require Import base list gmap strings relations.
From Stdlib Require Import ZArith Lia.
From S2P Require Import Prelude Aidl Errors Sql KeyParameter Perboot BootLevelKeys Permission AuthInfo Enforcements Operation OperationDb DbTypes Database DbInvariant DbSystem Crypto RawDevice SuperKey LegacyKeystore DbKeys RemoteProvisioning AsyncTask Gc SecurityLevel SecurityLevelDemo Service ServiceProofs ServiceDemo Authorization Maintenance MaintenanceDemo Metrics Binder Frontends DaemonDb Daemon.

#[local] Existing Instances aidl_published toy_boring busy_km permissive metrics_published demo_listener logging_devices demo_tee.
#[local] Instance silent_component : RemoteComponent unit := {|
  rc_generateEcdsaP256KeyPair := fun _ _ s => (Ok ([1], [2]), s);
  rc_generateCertificateRequest := fun _ _ _ _ _ s => (Ok ([1], [2], [3]), s)
|}.

Abbreviation demo_system := (@System nat (list Z) Lk unit unit).
Definition boot : demo_system :=
  {| s_host := demo_host ks0; s_stats := ∅; s_logs := AsyncTask.new; s_remote := tt; s_deleted := []; s_superseded := []; s_invalidated := [] |}.
Abbreviation demo_key_request := (key_request (fun z => z) demo_service KEYSTORE_UUID true).
Abbreviation demo_maintenance := (maintenance_request (R := unit) (Sink := unit) (H := unit) 4 (Err OtherError)).
Abbreviation demo_collect := (collect (fun _ _ => Ok tt)).
Definition demo_step : relation demo_system :=
  daemon_step (fun z => z) demo_service KEYSTORE_UUID true 4 (fun _ => Ok (repeat 7 16)) ∅ ∅ (fun _ _ => Ok tt) (H := unit) (Err OtherError).
Definition demo_hat : HardwareAuthToken :=
  {| challenge := 0; userId := 42; authenticatorId := 1; authenticatorType := 2; timestamp := 7; mac := [9] |}.
Definition imports : demo_system := (demo_key_request alice (ImportKey (demo_desc "k") aes 0 [1; 2]) boot).2.
Definition unlocks : demo_system := (authorization_request alice (OnLockScreenEvent [52] UNLOCK 0 (Some [1]) None) imports).2.
Definition authenticates : demo_system := (authorization_request alice (AddAuthToken demo_hat) unlocks).2.
Definition clears : demo_system := from_option snd authenticates (demo_maintenance alice (ClearNamespace 0 1000) authenticates).
Abbreviation collects := (demo_collect clears).

Lemma demo_imports : rtc demo_step boot imports.
Proof. apply rtc_once. eapply step_key. unfold imports. apply surjective_pairing. Qed.
Lemma demo_unlocks : demo_step imports unlocks.
Proof. eapply step_authorization. unfold unlocks. apply surjective_pairing. Qed.
Lemma demo_authenticates : demo_step unlocks authenticates.
Proof. eapply step_authorization. unfold authenticates. apply surjective_pairing. Qed.
Lemma demo_clears_returns : from_option (fun _ => true) false (demo_maintenance alice (ClearNamespace 0 1000) authenticates) = true.
Proof. vm_compute. reflexivity. Qed.
Lemma demo_clears : demo_step authenticates clears.
Proof.
  pose proof demo_clears_returns as Hs. unfold clears.
  destruct (demo_maintenance alice (ClearNamespace 0 1000) authenticates) as [[r s]|] eqn:E; [|discriminate Hs].
  exact (step_maintenance _ _ _ _ _ _ _ _ _ _ _ alice (ClearNamespace 0 1000) r s E).
Qed.
Lemma demo_collects : demo_step clears collects.
Proof. apply step_collect. Qed.
Lemma boot_collects : rtc demo_step boot collects.
Proof.
  exact (rtc_r boot _ _ (rtc_r boot _ _ (rtc_r boot _ _ (rtc_r boot _ _
    demo_imports demo_unlocks) demo_authenticates) demo_clears) demo_collects).
Qed.

(** The run imports a key, and its blob is garbage once the namespace is
    cleared. *)
Lemma daemon_refines_database_witness :
  db_reachable sl_user_offset (s_db collects) /\ db_wf (s_db collects) /\
  length (keyentry (s_db imports)) = 1%nat /\ keyentry (s_db collects) = [] /\ s_invalidated collects <> [].
Proof.
  assert (db_reachable sl_user_offset (s_db boot)) as H0 by apply rtc_refl.
  destruct (daemon_refines_database (fun z => z) demo_service KEYSTORE_UUID true 4 (fun _ => Ok (repeat 7 16)) ∅ ∅ (fun _ _ => Ok tt) (Err OtherError)
    boot collects H0 boot_collects) as [H1 H2].
  split; [exact H1|]. split; [exact H2|]. vm_compute. done.
Defined.
Lemma tokens_come_from_authenticators_witness :
  exists s1 s2 c, rtc demo_step boot s1 /\ authorization_request c (AddAuthToken demo_hat) s1 = (Ok tt, s2) /\ rtc demo_step s2 collects.
Proof.
  destruct (tokens_come_from_authenticators (fun z => z) demo_service KEYSTORE_UUID true 4 (fun _ => Ok (repeat 7 16)) ∅ ∅ (fun _ _ => Ok tt)
    (Err OtherError) boot collects {| auth_token := demo_hat; time_received := c_raw_now alice |} boot_collects) as [H|(s1 & s2 & c & H1 & H2 & H3 & _)].
  - vm_compute. left.
  - inversion H.
  - exists s1, s2, c. split; [exact H1|]. split; [exact H2|exact H3].
Defined.
Lemma locked_until_unlocked_witness :
  exists s1 s2 c ids pw sids r, rtc demo_step boot s1 /\ authorization_request c (OnLockScreenEvent ids UNLOCK 0 pw sids) s1 = (r, s2).
Proof.
  destruct (locked_until_unlocked (fun z => z) demo_service KEYSTORE_UUID true 4 (fun _ => Ok (repeat 7 16)) ∅ ∅ (fun _ _ => Ok tt)
    (Err OtherError) boot collects 0 boot_collects) as (s1 & s2 & c & ids & pw & sids & r & H1 & _ & H2 & _).
  - set_solver.
  - vm_compute. reflexivity.
  - exists s1, s2, c, ids, pw, sids, r. split; [exact H1|exact H2].
Defined.
