(* ===== verification/ApcCompat.v ===== *)
(** * The confirmation display ([keystore2/apc_compat/apc_compat.rs], [apc_compat.cpp])

    [Apc] assumes of the display that it calls the callback of a prompt at
    most once, and only after the prompt was started.  Here is the code behind
    that: the Rust wrapper, which hands a boxed closure to C++ as a raw
    pointer, and the C++ session, which keeps the pointer between the prompt
    and the answer of the HIDL service.  The service itself is arbitrary: it
    may answer whatever it likes, as often as it likes, and die.  Boxes are
    numbers; touching a box that is gone, or a handle that was never opened,
    is recorded as undefined behaviour. *)

From stdpp Require Import base list gmap strings sets.
From Stdlib Require Import ZArith Lia.
From S2P Require Import Prelude Aidl Errors Sql KeyParameter Permission AuthInfo Enforcements Apc.

(** ** The C++ session *)

(** android.hardware.confirmationui@1.0::ResponseCode. *)
Inductive HalCode :=
| HalOK | Canceled | Aborted | OperationPending | Ignored | SystemError | Unimplemented | Unexpected
| UIError | UIErrorMissingGlyph | UIErrorMessageTooLong | UIErrorMalformedUTF8Encoding | UnknownCode (n : Z).

Definition responseCode2Compat (rc : HalCode) : Z :=
  match rc with
  | HalOK => 0
  | Canceled => 1
  | Aborted => 2
  | OperationPending => 3
  | Ignored => 4
  | _ => 5
  end.

(** [ConfuiCompatSession]: the data pointer of [callback_], if the callback
    is not null, and whether the handle is still owned. *)
Record Session := { callback_ : option nat; owned : bool }.

(** The prompt of the session: [link] is whether [linkToDeath] worked, and
    [answer] what the service said; none stands for a failed transaction. *)
Definition promptUserConfirmation (link : bool) (answer : option HalCode) (data : nat) (s : Session) : Z * Session :=
  match callback_ s with
  | Some _ => (3, s)
  | None =>
    if link then
      (responseCode2Compat (default SystemError answer),
       match answer with Some HalOK => {| callback_ := Some data; owned := owned s |} | _ => s end)
    else (5, s)
  end.

(** ** The heap the two sides share *)

Record Hal := {
  boxes : gset nat;
  next_box : nat;
  sessions : list Session;
  undefined : bool
}.
Definition hal_new : Hal := {| boxes := ∅; next_box := 0; sessions := []; undefined := false |}.
Definition set_boxes (b : gset nat) (w : Hal) : Hal :=
  {| boxes := b; next_box := next_box w; sessions := sessions w; undefined := undefined w |}.
Definition set_sessions (l : list Session) (w : Hal) : Hal :=
  {| boxes := boxes w; next_box := next_box w; sessions := l; undefined := undefined w |}.
Definition goes_wrong (w : Hal) : Hal := {| boxes := boxes w; next_box := next_box w; sessions := sessions w; undefined := true |}.

(** [Box::into_raw] of a new box and [Box::from_raw]. *)
Definition into_raw : sr Hal Z nat := fun w =>
  (Ok (next_box w),
   {| boxes := {[next_box w]} ∪ boxes w; next_box := S (next_box w); sessions := sessions w; undefined := undefined w |}).
Definition from_raw (b : nat) (w : Hal) : Hal :=
  if decide (b ∈ boxes w) then set_boxes (boxes w ∖ {[b]}) w else goes_wrong w.

(** A call on a handle. *)
Definition on_session {A} (h : nat) (dflt : A) (f : Session -> A * Session) (w : Hal) : A * Hal :=
  match sessions w !! h with
  | Some s => let '(a, s') := f s in (a, set_sessions (<[h := s']> (sessions w)) w)
  | None => (dflt, goes_wrong w)
  end.

(** ** [ApcHal] *)

(** [ApcHal::try_get_service]: the next handle, if there is a service. *)
Definition try_get_service (service : bool) (w : Hal) : option nat * Hal :=
  if service then (Some (length (sessions w)), set_sessions (sessions w ++ [{| callback_ := None; owned := true |}]) w) else (None, w).

(** [Drop for ApcHal]: the session lives on in the hands of the service. *)
Definition drop_hal (h : nat) (w : Hal) : Hal :=
  (on_session h tt (fun s => (tt, {| callback_ := callback_ s; owned := false |})) w).2.

Definition prompt_user_confirmation (h : nat) (prompt_text locale : string) (link : bool) (answer : option HalCode) : sr Hal Z unit :=
  cb_data_ptr ← into_raw;
  _ ← (if has_nul prompt_text then lift Panic else mret tt);
  _ ← (if has_nul locale then lift Panic else mret tt);
  rc ← (fun w => let '(rc, w) := on_session h 5 (promptUserConfirmation link answer cb_data_ptr) w in (Ok rc, w));
  if rc =? APC_COMPAT_ERROR_OK then mret tt
  else (_ ← modify (from_raw cb_data_ptr); throw rc).

(** A pointer and a size as a slice. *)
Definition confirmation_result_callback (handle : nat) (rc : Z) (tbs_message confirmation_token : option bytes) (w : Hal)
    : (Z * option bytes * option bytes) * Hal :=
  ((rc, hal_slice tbs_message, hal_slice confirmation_token), from_raw handle w).

(** [finalize]: the callback is taken, and called if there was one.  The code
    releases [callback_lock_] between the two; here both are one step, at the
    time of the call.  Nobody can tell the difference: in between, another
    [finalize] of this handle finds no callback and does nothing, as it does
    after the call; [abort] does not look at the callback; and a prompt never
    uses this handle again, since every prompt opens a handle of its own, and
    is refused as long as the session is pending, which it is until the
    callback has run. *)
Definition finalize (h : nat) (code : HalCode) (dataConfirmed confirmationToken : option bytes) (w : Hal)
    : option (Z * option bytes * option bytes) * Hal :=
  let '(callback, w) := on_session h None (fun s => (callback_ s, {| callback_ := None; owned := owned s |})) w in
  match callback with
  | Some data =>
    let given := match code with HalOK => dataConfirmed | _ => None end in
    let token := match code, dataConfirmed with HalOK, Some _ => confirmationToken | _, _ => None end in
    let '(call, w) := confirmation_result_callback data (responseCode2Compat code) given token w in (Some call, w)
  | None => (None, w)
  end.
(** The answer of the service, and its death. *)
Definition service_result (h : nat) (code : HalCode) (dataConfirmed confirmationToken : bytes) : Hal -> option (Z * option bytes * option bytes) * Hal :=
  finalize h code (Some dataConfirmed) (Some confirmationToken).
Definition serviceDied (h : nat) : Hal -> option (Z * option bytes * option bytes) * Hal := finalize h SystemError None None.

(** ** The service over the display *)

(** [crashed]: a panic has reached the C++ side. *)
Record Confirmation := {
  c_apc : Apc;
  c_hal : Hal;
  c_current : option nat;
  crashed : bool
}.

(** [present_prompt] with the handle it opens, and closes on failure. *)
Definition present (e : Surroundings) (listener : Z) (prompt_text locale : string) (link : bool) (answer : option HalCode)
    (m : ApcManager) (w : Hal) : result AnyApcError nat * (ApcManager * Hal) :=
  if poisoned m then (Panic, (m, w))
  else match session (apc m), cooling_down (now_check e) (calling_uid e) (apc m) with
       | Some _, _ => (Err (ApcErr (ApcRc OPERATION_PENDING)), (m, w))
       | None, Some _ => (Err (ApcErr (ApcRc SYSTEM_ERROR)), (m, w))
       | None, None =>
         match try_get_service (hal_service e) w with
         | (None, w) => (Err (ApcErr (ApcRc UNIMPLEMENTED)), (m, w))
         | (Some h, w) =>
           match prompt_user_confirmation h prompt_text locale link answer w with
           | (Ok _, w) =>
             (Ok h, ({| poisoned := false;
                        apc := set_session (Some {| cb := listener; s_uid := calling_uid e; start := now_start e; client_aborted := false |}) (apc m) |}, w))
           | (Err rc, w) => (Err (ApcErr (ApcRc (compat_2_response_code rc))), (m, drop_hal h w))
           | (Panic, w) => (Panic, ({| poisoned := true; apc := apc m |}, drop_hal h w))
           end
         end
       end.

(** The closure runs, and with the session goes its handle. *)
Definition answered (call : Z * option bytes * option bytes) (c : Confirmation) : Confirmation :=
  let '(rc, d, t) := call in
  let a := c_apc c in
  match result_ rc d t (manager a) with
  | (Ok (done, tok), m) =>
    {| c_apc := {| manager := m; enf := send_token tok (enf a); callback_held := false;
                   finished := match session (apc (manager a)) with
                               | Some x => (s_uid x, start x, verdict rc (client_aborted x) t) :: finished a
                               | None => finished a
                               end;
                   completions := match done with Some (l, _, _) => l :: completions a | None => completions a end;
                   prompts := prompts a; used := used a |};
       c_hal := from_option drop_hal id (c_current c) (c_hal c); c_current := None; crashed := crashed c |}
  | _ => {| c_apc := a; c_hal := c_hal c; c_current := c_current c; crashed := true |}
  end.
Definition on_call (x : option (Z * option bytes * option bytes) * Hal) (c : Confirmation) : Confirmation :=
  let c := {| c_apc := c_apc c; c_hal := x.2; c_current := c_current c; crashed := crashed c |} in
  match x.1 with Some call => answered call c | None => c end.
Definition with_apc (a : Apc) (c : Confirmation) : Confirmation :=
  {| c_apc := a; c_hal := c_hal c; c_current := c_current c; crashed := crashed c |}.

Section System.
Context {AI : Aidl}.

Inductive hal_step (c : Confirmation) : Confirmation -> Prop :=
| hal_prompt e listener prompt_text locale link answer r m w :
    present e listener prompt_text locale link answer (manager (c_apc c)) (c_hal c) = (r, (m, w)) ->
    hal_step c {| c_apc := let a := c_apc c in
                    {| manager := m; enf := enf a; callback_held := is_ok r || callback_held a; finished := finished a;
                       completions := completions a; prompts := if is_ok r then listener :: prompts a else prompts a; used := used a |};
                  c_hal := w; c_current := match r with Ok h => Some h | _ => c_current c end; crashed := crashed c |}
| hal_cancel listener r m :
    cancel_prompt listener (manager (c_apc c)) = (r, m) ->
    hal_step c (with_apc (let a := c_apc c in
                  {| manager := m; enf := enf a; callback_held := callback_held a; finished := finished a;
                     completions := completions a; prompts := prompts a; used := used a |}) c)
| hal_result h code dataConfirmed confirmationToken :
    (h < length (sessions (c_hal c)))%nat ->
    hal_step c (on_call (service_result h code dataConfirmed confirmationToken (c_hal c)) c)
| hal_died h : (h < length (sessions (c_hal c)))%nat -> hal_step c (on_call (serviceDied h (c_hal c)) c)
| hal_supported service :
    hal_step c {| c_apc := c_apc c; c_current := c_current c; crashed := crashed c;
                  c_hal := match try_get_service service (c_hal c) with (Some h, w) => drop_hal h w | (None, w) => w end |}
| hal_finish info r info' e' :
    before_finish (enf (c_apc c)) info = (r, info', e') ->
    hal_step c (with_apc (let a := c_apc c in
                  {| manager := manager a; enf := e'; callback_held := callback_held a; finished := finished a; completions := completions a;
                     prompts := prompts a; used := match r with Ok (_, _, Some t) => t :: used a | _ => used a end |}) c)
| hal_other e' :
    confirmation_tokens e' = confirmation_tokens (enf (c_apc c)) ->
    hal_step c (with_apc (let a := c_apc c in
                  {| manager := manager a; enf := e'; callback_held := callback_held a; finished := finished a; completions := completions a;
                     prompts := prompts a; used := used a |}) c).

Definition confirmation_start (e : Enforcements) : Confirmation :=
  {| c_apc := apc_start e; c_hal := hal_new; c_current := None; crashed := false |}.

(** ** One callback for one prompt *)

Record hal_inv (c : Confirmation) : Prop := {
  hi_sound : undefined (c_hal c) = false /\ crashed c = false;
  hi_fresh b : b ∈ boxes (c_hal c) -> (b < next_box (c_hal c))%nat;
  hi_held h s b : sessions (c_hal c) !! h = Some s -> callback_ s = Some b -> c_current c = Some h /\ b ∈ boxes (c_hal c);
  hi_session : session (apc (manager (c_apc c))) <> None ->
    poisoned (manager (c_apc c)) = false /\
    exists h s b, c_current c = Some h /\ sessions (c_hal c) !! h = Some s /\ callback_ s = Some b;
  hi_idle : session (apc (manager (c_apc c))) = None -> c_current c = None;
  hi_boxes : size (boxes (c_hal c)) =
    ((if session (apc (manager (c_apc c))) then 1 else 0) + (if poisoned (manager (c_apc c)) then 1 else 0))%nat
}.

(** What the C++ side makes of the service's answer. *)
Definition compat_code (link : bool) (answer : option HalCode) : Z :=
  if link then responseCode2Compat (default SystemError answer) else 5.
Definition with_rc (rc : Z) (e : Surroundings) : Surroundings :=
  {| calling_uid := calling_uid e; now_check := now_check e; now_start := now_start e; hal_service := hal_service e; hal_rc := rc |}.

Lemma compat_code_ok link answer : compat_code link answer = APC_COMPAT_ERROR_OK <-> link = true /\ answer = Some HalOK.
Proof. unfold compat_code, APC_COMPAT_ERROR_OK. destruct link, answer as [[]|]; naive_solver. Qed.

(** Handles that were closed or that hold nothing. *)
Definition no_callbacks (w w' : Hal) : Prop :=
  sessions w' = sessions w \/ exists o, sessions w' = sessions w ++ [{| callback_ := None; owned := o |}].

Lemma drop_last_hal l s b n u :
  drop_hal (length l) {| boxes := b; next_box := n; sessions := l ++ [s]; undefined := u |}
  = {| boxes := b; next_box := n; sessions := l ++ [{| callback_ := callback_ s; owned := false |}]; undefined := u |}.
Proof.
  unfold drop_hal, on_session. simpl. rewrite lookup_app_r, Nat.sub_diag by done. simpl. unfold set_sessions. simpl.
  by rewrite insert_app_r_alt, Nat.sub_diag.
Qed.

(** The prompt on a fresh handle. *)
Lemma prompt_on_fresh w s prompt_text locale link answer :
  next_box w ∉ boxes w -> callback_ s = None ->
  let n := next_box w in
  let w1 := {| boxes := boxes w; next_box := S n; sessions := sessions w ++ [s]; undefined := undefined w |} in
  prompt_user_confirmation (length (sessions w)) prompt_text locale link answer (set_sessions (sessions w ++ [s]) w) =
  match Apc.prompt_user_confirmation prompt_text locale (compat_code link answer) with
  | Ok x => (Ok x, {| boxes := {[n]} ∪ boxes w; next_box := S n;
                      sessions := sessions w ++ [{| callback_ := Some n; owned := owned s |}]; undefined := undefined w |})
  | Err rc => (Err rc, w1)
  | Panic => (Panic, set_boxes ({[n]} ∪ boxes w) w1)
  end.
Proof.
  intros Hn Hs n w1. unfold prompt_user_confirmation, Apc.prompt_user_confirmation, mbind, sr_bind, into_raw, lift, mret, sr_ret. simpl.
  destruct (has_nul prompt_text); [done|]. destruct (has_nul locale); [done|]. simpl. unfold on_session. simpl.
  rewrite lookup_app_r, Nat.sub_diag by done. simpl. unfold promptUserConfirmation. rewrite Hs.
  assert (forall s', <[length (sessions w) := s']> (sessions w ++ [s]) = sessions w ++ [s']) as Hi
    by (intros s'; by rewrite insert_app_r_alt, Nat.sub_diag).
  assert (({[n]} ∪ boxes w) ∖ {[n]} = boxes w) as Hd by set_solver.
  unfold compat_code. destruct link, answer as [[]|]; simpl; unfold modify, from_raw, throw, set_sessions, set_boxes; simpl; rewrite ?Hi;
    try done; (rewrite decide_True by set_solver); subst n w1; by rewrite Hd.
Qed.

Lemma present_spec e listener prompt_text locale link answer m w r m' w' :
  next_box w ∉ boxes w ->
  present e listener prompt_text locale link answer m w = (r, (m', w')) ->
  present_prompt (with_rc (compat_code link answer) e) listener prompt_text locale m = ((fun _ => tt) <$> r, m') /\
  undefined w' = undefined w /\
  ((session (apc m) = None /\ poisoned m = false /\ session (apc m') <> None /\ poisoned m' = false /\ r = Ok (length (sessions w)) /\
    boxes w' = {[next_box w]} ∪ boxes w /\ next_box w' = S (next_box w) /\
    sessions w' = sessions w ++ [{| callback_ := Some (next_box w); owned := true |}]) \/
   (is_ok r = false /\ m' = m /\ boxes w' = boxes w /\ (next_box w <= next_box w')%nat /\ no_callbacks w w') \/
   (is_ok r = false /\ session (apc m) = None /\ poisoned m = false /\ m' = {| poisoned := true; apc := apc m |} /\
    boxes w' = {[next_box w]} ∪ boxes w /\ next_box w' = S (next_box w) /\ no_callbacks w w')).
Proof.
  intros Hn. unfold present, present_prompt, locked, mbind, sr_bind, gets, throw, lift, mret, sr_ret, no_callbacks. simpl.
  destruct (poisoned m) eqn:Ep; [intros; simplify_eq; split_and!; try done; right; left; split_and!; try done; by left|].
  assert (m = {| poisoned := false; apc := apc m |}) as Hm by (destruct m; simpl in *; congruence).
  destruct (session (apc m)) eqn:Es; [intros; simplify_eq/=; rewrite <- Hm; split_and!; try done; right; left; split_and!; try done; by left|].
  destruct (cooling_down _ _ _) eqn:Er; [intros; simplify_eq/=; rewrite <- Hm; split_and!; try done; right; left; split_and!; try done; by left|].
  destruct (hal_service e); simpl; [|intros; simplify_eq/=; rewrite <- Hm; split_and!; try done; right; left; split_and!; try done; by left].
  rewrite prompt_on_fresh by done.
  destruct (Apc.prompt_user_confirmation _ _ _) as [[]|rc|]; simpl; rewrite ?drop_last_hal; intros; simplify_eq/=.
  - split_and!; [done..|]. left. by split_and!.
  - rewrite <- Hm. split_and!; [done..|]. right. left. split_and!; [done..|lia|]. right. by exists false.
  - unfold set_boxes. simpl. rewrite drop_last_hal. split_and!; [done..|]. right. right. split_and!; try done. right. by exists false.
Qed.

(** Closed handles and new ones without a callback change nothing. *)
Lemma no_callbacks_lookup w w' h s b :
  no_callbacks w w' -> sessions w' !! h = Some s -> callback_ s = Some b -> sessions w !! h = Some s.
Proof.
  intros [->|[o ->]] Hs Hb; [done|]. destruct (decide (h < length (sessions w))%nat); [by rewrite lookup_app_l in Hs by done|].
  rewrite lookup_app_r in Hs by lia. destruct (h - length (sessions w))%nat; simpl in Hs; by simplify_eq.
Qed.
Lemma no_callbacks_kept w w' h s : no_callbacks w w' -> sessions w !! h = Some s -> sessions w' !! h = Some s.
Proof. intros [->|[o ->]] Hs; [done|]. by apply lookup_app_l_Some. Qed.
Lemma hal_fresh c : hal_inv c -> next_box (c_hal c) ∉ boxes (c_hal c).
Proof. intros Hc Hn%(hi_fresh c Hc). lia. Qed.

(** A step that touches neither the callbacks nor the boxes. *)
Lemma hal_inv_quiet c c' :
  hal_inv c ->
  undefined (c_hal c') = undefined (c_hal c) -> crashed c' = crashed c -> boxes (c_hal c') = boxes (c_hal c) ->
  (next_box (c_hal c) <= next_box (c_hal c'))%nat -> no_callbacks (c_hal c) (c_hal c') -> c_current c' = c_current c ->
  poisoned (manager (c_apc c')) = poisoned (manager (c_apc c)) ->
  (session (apc (manager (c_apc c'))) = None <-> session (apc (manager (c_apc c))) = None) ->
  hal_inv c'.
Proof.
  intros [H1 H2 H3 H4 H5 H6] Eu Ec Eb Hn Hk Eh Ep Es. split; rewrite ?Eu, ?Ec, ?Eb, ?Eh, ?Ep.
  - done.
  - intros b Hb. specialize (H2 b Hb). lia.
  - intros h s b Hs Hb. apply (H3 h s b); [by eapply no_callbacks_lookup|done].
  - intros Hs. destruct H4 as [Hp (h & s & b & Hh & Hl & Hb)]; [tauto|]. split; [done|]. exists h, s, b. eauto using no_callbacks_kept.
  - tauto.
  - rewrite H6. destruct (session (apc (manager (c_apc c')))), (session (apc (manager (c_apc c)))); naive_solver.
Qed.

Lemma drop_hal_spec h w s :
  sessions w !! h = Some s ->
  drop_hal h w = set_sessions (<[h := {| callback_ := callback_ s; owned := false |}]> (sessions w)) w.
Proof. intros Hs. unfold drop_hal, on_session. by rewrite Hs. Qed.

(** The service answers on a handle: either the handle holds no callback and
    nothing happens, or its callback is called and is gone. *)
Lemma finalize_spec c h code d t :
  hal_inv c -> (h < length (sessions (c_hal c)))%nat ->
  finalize h code d t (c_hal c) = (None, c_hal c) \/
  exists s b data token, sessions (c_hal c) !! h = Some s /\ callback_ s = Some b /\
    finalize h code d t (c_hal c) =
      (Some (responseCode2Compat code, hal_slice data, hal_slice token),
       set_boxes (boxes (c_hal c) ∖ {[b]}) (set_sessions (<[h := {| callback_ := None; owned := owned s |}]> (sessions (c_hal c))) (c_hal c))).
Proof.
  intros Hc [s Hs]%lookup_lt_is_Some. unfold finalize, on_session. rewrite Hs. destruct (callback_ s) as [b|] eqn:Eb.
  - right. destruct (hi_held c Hc h s b Hs Eb) as [_ Hb]. unfold confirmation_result_callback, from_raw.
    rewrite decide_True by done. do 4 eexists. split_and!; done.
  - left. assert ({| callback_ := None; owned := owned s |} = s) as -> by (destruct s; simpl in *; congruence).
    rewrite list_insert_id by done. unfold set_sessions. by destruct (c_hal c).
Qed.

(** The call reaches the session that made the prompt and ends it. *)
Lemma answered_spec c h s b rc data token :
  hal_inv c -> apc_inv (c_apc c) -> sessions (c_hal c) !! h = Some s -> callback_ s = Some b ->
  let w := set_boxes (boxes (c_hal c) ∖ {[b]}) (set_sessions (<[h := {| callback_ := None; owned := owned s |}]> (sessions (c_hal c))) (c_hal c)) in
  let c' := on_call (Some (rc, hal_slice data, hal_slice token), w) c in
  step (c_apc c) (c_apc c') /\ crashed c' = crashed c /\ c_current c' = None /\
  session (apc (manager (c_apc c'))) = None /\ poisoned (manager (c_apc c')) = false /\
  c_hal c' = set_boxes (boxes (c_hal c) ∖ {[b]}) (set_sessions (<[h := {| callback_ := None; owned := false |}]> (sessions (c_hal c))) (c_hal c)).
Proof.
  intros Hc Ha Hs Hb w c'. destruct (hi_held c Hc h s b Hs Hb) as [Hcur _].
  destruct (session (apc (manager (c_apc c)))) as [x|] eqn:Ex; [|by rewrite (hi_idle c Hc Ex) in Hcur].
  destruct (hi_session c Hc) as [Hp _]; [by rewrite Ex|].
  destruct (result_cases rc (hal_slice data) (hal_slice token) x (c_apc c) _ Ex eq_refl) as [E|(rates & E & _)].
  { exfalso. unfold result_, locked in E. rewrite Hp in E. unfold mbind, sr_bind, gets in E. simpl in E. rewrite Ex in E.
    unfold modify, mret, sr_ret in E. repeat case_match; simplify_eq. }
  unfold c', on_call, answered. simpl. rewrite E, Ex, Hcur. simpl. split_and!; try done.
  - refine (step_result (c_apc c) rc data token x (Some (cb x, compat_2_response_code rc, hal_slice data)) _ _ _ Ex E).
    rewrite (inv_held _ Ha), Ex. by apply bool_decide_eq_true_2.
  - rewrite (drop_hal_spec h w {| callback_ := None; owned := owned s |})
      by (simpl; apply list_lookup_insert_eq; by eapply lookup_lt_Some).
    unfold w, set_sessions, set_boxes. simpl. by rewrite list_insert_insert_eq.
Qed.

Lemma call_inv c h code d t :
  hal_inv c -> apc_inv (c_apc c) -> (h < length (sessions (c_hal c)))%nat ->
  let c' := on_call (finalize h code d t (c_hal c)) c in
  (c_apc c' = c_apc c \/ step (c_apc c) (c_apc c')) /\ hal_inv c'.
Proof.
  intros Hc Ha Hh c'. destruct (finalize_spec c h code d t Hc Hh) as [E|(s & b & data & token & Hs & Hb & E)]; unfold c'; rewrite E.
  { split; [by left|]. by apply (hal_inv_quiet c); try done; left. }
  destruct (answered_spec c h s b (responseCode2Compat code) data token Hc Ha Hs Hb) as (Hst & Hcr & Hcur & Hse & Hp & Hw).
  destruct (hi_held c Hc h s b Hs Hb) as [Hcb Hbb]. split; [by right|].
  assert (session (apc (manager (c_apc c))) <> None) as Hx by (intros Hx; by rewrite (hi_idle c Hc Hx) in Hcb).
  destruct (hi_session c Hc Hx) as [Hpc _]. pose proof (hi_boxes c Hc) as Hsz. rewrite Hpc in Hsz.
  split; rewrite ?Hcr, ?Hcur, ?Hse, ?Hp, ?Hw; simpl.
  - apply (hi_sound c Hc).
  - intros b' [Hb' _]%elem_of_difference. by apply (hi_fresh c Hc).
  - intros h' s' b' Hs' Hb'. exfalso. destruct (decide (h' = h)) as [->|Hne].
    + rewrite list_lookup_insert_eq in Hs' by (by eapply lookup_lt_Some). by simplify_eq.
    + rewrite list_lookup_insert_ne in Hs' by done. destruct (hi_held c Hc h' s' b' Hs' Hb') as [Hc' _]. congruence.
  - done.
  - done.
  - rewrite size_difference, Hsz, size_singleton by set_solver. by destruct (session (apc (manager (c_apc c)))).
Qed.

Lemma prompt_inv c e listener prompt_text locale link answer r m w :
  present e listener prompt_text locale link answer (manager (c_apc c)) (c_hal c) = (r, (m, w)) -> hal_inv c ->
  hal_inv {| c_apc := let a := c_apc c in
               {| manager := m; enf := enf a; callback_held := is_ok r || callback_held a; finished := finished a;
                  completions := completions a; prompts := if is_ok r then listener :: prompts a else prompts a; used := used a |};
             c_hal := w; c_current := match r with Ok h => Some h | _ => c_current c end; crashed := crashed c |}.
Proof.
  intros E Hc. pose proof (hal_fresh c Hc) as Hn. destruct (present_spec _ _ _ _ _ _ _ _ _ _ _ Hn E) as (_ & Hu & Hcase).
  pose proof (hi_boxes c Hc) as Hsz. pose proof Hc as [H1 H2 H3 H4 H5 H6].
  assert (forall b, b ∈ {[next_box (c_hal c)]} ∪ boxes (c_hal c) -> (b < S (next_box (c_hal c)))%nat) as Hf
    by (intros b [->%elem_of_singleton|Hb%H2]%elem_of_union; lia).
  destruct Hcase as [(Es & Ep & Es' & Ep' & -> & Eb & Enx & Ess)|[(Er & -> & Eb & Enx & Hk)|(Er & Es & Ep & -> & Eb & Enx & Hk)]].
  - specialize (H5 Es). split; simpl; rewrite ?Hu, ?Eb, ?Enx, ?Ess, ?Ep'; try done.
    + intros h s b Hs Hb. apply lookup_app_Some in Hs as [Hs|[Hle Hs]]; [destruct (H3 h s b Hs Hb); congruence|].
      destruct (h - length (sessions (c_hal c)))%nat eqn:Eh; simpl in Hs; simplify_eq/=. split; [f_equal; lia|set_solver].
    + intros _. split; [done|]. eexists (length (sessions (c_hal c))), _, (next_box (c_hal c)). split; [done|].
      rewrite lookup_app_r, Nat.sub_diag by done. done.
    + rewrite size_union, size_singleton, Hsz, Es, Ep by set_solver. by destruct (session (apc m)).
  - apply (hal_inv_quiet c); try done. by destruct r.
  - specialize (H5 Es). split; simpl; rewrite ?Hu, ?Eb, ?Enx, ?Es; try done.
    + intros h s b Hs Hb. destruct (H3 h s b (no_callbacks_lookup _ _ _ _ _ Hk Hs Hb) Hb). congruence.
    + by destruct r.
    + rewrite size_union, size_singleton, Hsz, Es, Ep by set_solver. done.
Qed.

Lemma supported_quiet service w :
  let w' := match try_get_service service w with (Some h, w) => drop_hal h w | (None, w) => w end in
  boxes w' = boxes w /\ next_box w' = next_box w /\ undefined w' = undefined w /\ no_callbacks w w'.
Proof.
  unfold try_get_service. destruct service; [|split_and!; [done..|by left]]. simpl. unfold set_sessions. rewrite drop_last_hal.
  split_and!; [done..|]. right. by exists false.
Qed.
Lemma cancel_quiet listener m r m' :
  cancel_prompt listener m = (r, m') -> poisoned m' = poisoned m /\ (session (apc m') = None <-> session (apc m) = None).
Proof.
  unfold cancel_prompt, locked, mbind, sr_bind, gets, throw, modify. destruct (poisoned m) eqn:Ep; [intros; by simplify_eq|].
  destruct (session (apc m)) as [x|] eqn:Ex; [destruct (bool_decide _)|]; intros; simplify_eq/=; by rewrite ?Ex.
Qed.

Lemma hal_step_sim c c' :
  hal_step c c' -> hal_inv c -> apc_inv (c_apc c) -> (c_apc c' = c_apc c \/ step (c_apc c) (c_apc c')) /\ hal_inv c'.
Proof.
  intros Hs Hc Ha. destruct Hs as [e l t lo link answer r m w E|l r m E|h code d t Hh|h Hh|service|info r info' e' E|e' E].
  - split; [right|by eapply prompt_inv].
    destruct (present_spec _ _ _ _ _ _ _ _ _ _ _ (hal_fresh c Hc) E) as (Hp & _). apply step_prompt in Hp. by destruct r.
  - destruct (cancel_quiet _ _ _ _ E) as [Hp He]. split; [right; by eapply step_cancel|]. by apply (hal_inv_quiet c); try done; left.
  - by apply call_inv.
  - by apply call_inv.
  - destruct (supported_quiet service (c_hal c)) as (Hb & Hn & Hu & Hk). split; [by left|].
    apply (hal_inv_quiet c); try done. simpl. by rewrite Hn.
  - split; [right; by eapply step_finish|]. by apply (hal_inv_quiet c); try done; left.
  - split; [right; by eapply step_other|]. by apply (hal_inv_quiet c); try done; left.
Qed.

Lemma hal_run_sim e c c' :
  rtc hal_step c c' -> hal_inv c -> reachable e (c_apc c) -> hal_inv c' /\ reachable e (c_apc c').
Proof.
  induction 1 as [|c1 c2 c3 Hs _ IH]; [done|]. intros Hc Hr.
  destruct (hal_step_sim c1 c2 Hs Hc (apc_reachable_inv _ _ Hr)) as [[Heq|Hst] Hc2]; apply IH; try done.
  - by rewrite Heq.
  - by eapply reach_step.
Qed.
Lemma start_inv e : hal_inv (confirmation_start e).
Proof. by split. Qed.

(** C18: The display keeps the promise the service builds on.  Whatever the HIDL
    service does, and whoever prompts or cancels: the service over the real
    wrapper behaves as the service over the assumed display, no box is
    touched twice and no panic reaches C++; a handle holds a callback only
    while its session is pending, so that every started prompt is answered at
    most once; and all boxes but that of the pending prompt are freed, except
    that one more is leaked when a client's text with a zero byte makes the
    wrapper panic, once, since the lock is poisoned by that and the service
    disabled. *)
Theorem display_keeps_its_promise e c :
  rtc hal_step (confirmation_start e) c ->
  reachable e (c_apc c) /\ undefined (c_hal c) = false /\ crashed c = false /\
  (forall h s b, sessions (c_hal c) !! h = Some s -> callback_ s = Some b ->
     session (apc (manager (c_apc c))) <> None /\ c_current c = Some h /\ b ∈ boxes (c_hal c)) /\
  size (boxes (c_hal c)) =
    ((if session (apc (manager (c_apc c))) then 1 else 0) + (if poisoned (manager (c_apc c)) then 1 else 0))%nat.
Proof.
  intros Hr. destruct (hal_run_sim e _ c Hr (start_inv e) (reach_start e)) as [Hc Ha]. pose proof (hi_sound c Hc) as [Hu Hcr].
  split_and!; try done; [|apply (hi_boxes c Hc)]. intros h s b Hs Hb. destruct (hi_held c Hc h s b Hs Hb) as [Hcur Hbb].
  split_and!; try done. intros Hx. by rewrite (hi_idle c Hc Hx) in Hcur.
Qed.

(** C19: A pending prompt is answered.  While a session is pending, the answer of
    its display, or its death, completes the prompt of its listener, without a
    panic, and leaves the service free for the next prompt. *)
Theorem pending_prompt_is_answered e c x :
  rtc hal_step (confirmation_start e) c -> session (apc (manager (c_apc c))) = Some x ->
  exists h, c_current c = Some h /\ forall code d t,
    let c' := on_call (finalize h code d t (c_hal c)) c in crashed c' = false /\
    completions (c_apc c') = cb x :: completions (c_apc c) /\ session (apc (manager (c_apc c'))) = None.
Proof.
  intros Hr Hx. destruct (hal_run_sim e _ c Hr (start_inv e) (reach_start e)) as [Hc Ha%apc_reachable_inv].
  destruct (hi_session c Hc) as [_ (h & s & b & Hcur & Hs & Hb)]; [by rewrite Hx|]. exists h. split; [done|]. intros code d t c'.
  subst c'.
  destruct (finalize_spec c h code d t Hc (lookup_lt_Some _ _ _ Hs)) as [E|(s' & b' & data & token & Hs' & Hb' & E)].
  { apply (f_equal fst) in E. unfold finalize, on_session in E. rewrite Hs, Hb in E. discriminate E. }
  rewrite E. destruct (answered_spec c h s' b' (responseCode2Compat code) data token Hc Ha Hs' Hb') as (Hst & Hcr & _ & Hse & Hp & _).
  destruct (hi_sound c Hc) as [_ Hc0]. split_and!; [by rewrite Hcr| |done].
  destruct (result_cases (responseCode2Compat code) (hal_slice data) (hal_slice token) x (c_apc c) _ Hx eq_refl) as [E'|(rates & E' & _)];
    unfold on_call, answered; simpl; rewrite E'; [|done].
  exfalso. unfold on_call, answered in Hcr. simpl in Hcr. rewrite E' in Hcr. simpl in Hcr. congruence.
Qed.
End System.

(** Two prompts: the first is confirmed, and answered a second time in vain;
    the display dies on the second. *)
Definition prompted (uid : Z) (answer : option HalCode) (c : Confirmation) : Confirmation :=
  let '(r, (m, w)) := present (at_time uid 0) uid "Pay?" "en" true answer (manager (c_apc c)) (c_hal c) in
  {| c_apc := let a := c_apc c in
       {| manager := m; enf := enf a; callback_held := is_ok r || callback_held a; finished := finished a;
          completions := completions a; prompts := if is_ok r then uid :: prompts a else prompts a; used := used a |};
     c_hal := w; c_current := match r with Ok h => Some h | _ => c_current c end; crashed := crashed c |}.
Definition two_prompts : list Confirmation :=
  let c0 := confirmation_start default_enforcements in
  let c1 := prompted 10 (Some HalOK) c0 in
  let c2 := on_call (service_result 0 HalOK [1] [7] (c_hal c1)) c1 in
  let c3 := on_call (service_result 0 HalOK [1] [7] (c_hal c2)) c2 in
  let c4 := prompted 11 (Some HalOK) c3 in
  [c0; c1; c2; c3; c4].
Definition second_pending : Confirmation := default (confirmation_start default_enforcements) (two_prompts !! 4%nat).

Lemma prompted_step uid answer c : hal_step (AI := aidl_published) c (prompted uid answer c).
Proof. unfold prompted. destruct (present _ _ _ _ _ _ _ _) as [r [m w]] eqn:E. by eapply hal_prompt. Qed.
Lemma two_prompts_run : rtc (hal_step (AI := aidl_published)) (confirmation_start default_enforcements) second_pending.
Proof.
  eapply rtc_l; [apply (prompted_step 10 (Some HalOK))|]. eapply rtc_l; [apply (hal_result _ 0 HalOK [1] [7]); vm_compute; lia|].
  eapply rtc_l; [apply (hal_result _ 0 HalOK [1] [7]); vm_compute; lia|]. apply rtc_once. apply (prompted_step 11 (Some HalOK)).
Qed.
Lemma display_keeps_its_promise_witness :
  undefined (c_hal second_pending) = false /\ size (boxes (c_hal second_pending)) = 1%nat /\
  completions (c_apc second_pending) = [10] /\ confirmation_tokens (enf (c_apc second_pending)) = Some [[7]].
Proof.
  destruct (display_keeps_its_promise (AI := aidl_published) default_enforcements second_pending two_prompts_run) as (_ & H1 & _ & _ & H2).
  split; [exact H1|]. split; [rewrite H2; reflexivity|]. split; reflexivity.
Defined.
Lemma pending_prompt_is_answered_witness : exists h c',
  c' = on_call (serviceDied h (c_hal second_pending)) second_pending /\ completions (c_apc c') = [11; 10].
Proof.
  destruct (session (apc (manager (c_apc second_pending)))) as [x|] eqn:Ex; [|vm_compute in Ex; discriminate Ex].
  destruct (pending_prompt_is_answered (AI := aidl_published) default_enforcements second_pending x two_prompts_run Ex) as (h & _ & H).
  destruct (H SystemError None None) as (_ & Hl & _). eexists h, _. split; [reflexivity|]. unfold serviceDied. rewrite Hl.
  vm_compute in Ex. injection Ex as <-. reflexivity.
Defined.
