(* ===== verification/LegacyKeystoreDb.v ===== *)
(** * The table of the legacy keystore ([DB] of [keystore2/legacykeystore/lib.rs])

    [LegacyKeystore] keeps the entries in a map.  Here is the SQLite file it
    stands for: a table of rows that may not exist yet, the statements over
    it, and the connection that every call opens for itself and that may find
    the database busy.  The file is shared with other connections, which
    commit between the attempts. *)

From stdpp Require Import base list gmap strings sorting relations.
From Stdlib Require Import ZArith Lia.
From S2P Require Import Prelude Aidl Errors Sql KeyParameter Database LegacyFs LegacyKeystore AsyncTask DbOpen.

Record Profile := { owner : Z; p_alias : string; profile : bytes }.
(** The table [profiles]; none before it is created. *)
Definition DbFile : Type := option (list Profile).
Definition row_key (r : Profile) : Z * string := (owner r, p_alias r).

(** ** The statements *)

Abbreviation Tx := (sr DbFile LkError).
Definition rows_of : Tx (list Profile) := fun t => match t with Some l => (Ok l, t) | None => (Err LkOther, t) end.
(** [DELETE ... WHERE p]: the number of rows it deletes. *)
Definition delete_rows (p : Profile -> bool) : Tx Z :=
  l ← rows_of;
  _ ← modify (fun _ => Some (delete_where p l));
  mret (affected p l).

Definition tx_init_tables : Tx unit := modify (fun t => Some (default [] t)).
Definition tx_list (caller_uid : Z) : Tx (list string) :=
  l ← rows_of;
  mret (merge_sort String.le (p_alias <$> select_where (fun r => owner r =? caller_uid) l)).
(** [INSERT OR REPLACE] under the uniqueness of owner and alias. *)
Definition tx_put (caller_uid : Z) (al : string) (entry : bytes) : Tx unit :=
  l ← rows_of;
  modify (fun _ => Some (delete_where (fun r => bool_decide (row_key r = (caller_uid, al))) l
                         ++ [{| owner := caller_uid; p_alias := al; profile := entry |}])).
Definition tx_get (caller_uid : Z) (al : string) : Tx (option bytes) :=
  l ← rows_of;
  mret (profile <$> head (select_where (fun r => bool_decide (row_key r = (caller_uid, al))) l)).
Definition tx_remove (caller_uid : Z) (al : string) : Tx bool :=
  removed ← delete_rows (fun r => bool_decide (row_key r = (caller_uid, al)));
  mret (removed =? 1).
Definition tx_remove_uid (uid : Z) : Tx unit :=
  _ ← delete_rows (fun r => owner r =? uid);
  mret tt.
Definition tx_remove_user (off user_id : Z) : Tx unit :=
  _ ← delete_rows (fun r => Z.quot (owner r) off =? user_id);
  mret tt.

(** ** A connection *)

(** [DB::new]: whether the file can be opened, and how the transaction that
    creates the table fares. *)
Definition db_new (opens : bool) (attempts : list (Attempt DbFile)) (s : DbFile) : option (result LkError unit) * DbFile :=
  if opens then with_transaction tx_init_tables attempts s else (Some (Err LkOther), s).
(** A call: [open_db] and one statement in a transaction. *)
Definition through_db {A} (opens : bool) (init : list (Attempt DbFile)) (attempts : list (Attempt DbFile)) (f : Tx A) (s : DbFile)
    : option (result LkError A) * DbFile :=
  match db_new opens init s with
  | (Some (Ok _), s) => with_transaction f attempts s
  | (Some (Err e), s) => (Some (Err e), s)
  | (Some Panic, s) => (Some Panic, s)
  | (None, s) => (None, s)
  end.

(** ** The table is the map *)

Definition abs (l : list Profile) : gmap (Z * string) bytes := list_to_map ((fun r => (row_key r, profile r)) <$> l).
(** [UNIQUE(owner, alias)]. *)
Definition unique (l : list Profile) : Prop := NoDup (row_key <$> l).

Lemma abs_lookup l k : abs l !! k = profile <$> head (select_where (fun r => bool_decide (row_key r = k)) l).
Proof.
  unfold abs, select_where. induction l as [|r l IH]; [done|]. simpl. rewrite filter_cons. destruct (decide (row_key r = k)) as [He|Hne].
  - rewrite He, lookup_insert_eq, decide_True by (by apply bool_decide_eq_true). done.
  - rewrite lookup_insert_ne, decide_False by (rewrite ?bool_decide_eq_true; done). done.
Qed.
Lemma abs_delete q l : abs (delete_where (fun r => q (row_key r)) l) = filter (fun e : Z * string * bytes => q e.1 = false) (abs l).
Proof.
  unfold abs, delete_where. induction l as [|r l IH]; [done|]. simpl. rewrite filter_cons, map_filter_insert.
  destruct (decide (q (row_key r) = false)) as [Hq|Hq]; simpl.
  - rewrite decide_True by done. f_equal. exact IH.
  - rewrite decide_False by done. etransitivity; [exact IH|]. symmetry. by apply map_filter_delete_not.
Qed.
Lemma unique_delete p l : unique l -> unique (delete_where p l).
Proof. apply NoDup_fmap_filter. Qed.
Lemma deleted_gone k l : k ∉ row_key <$> delete_where (fun r => bool_decide (row_key r = k)) l.
Proof. unfold delete_where. rewrite list_elem_of_fmap. intros (r & Hk & Hr%list_elem_of_filter). destruct Hr as [Hr _]. by apply bool_decide_eq_false in Hr. Qed.
Lemma unique_put k v l : unique l ->
  unique (delete_where (fun r => bool_decide (row_key r = k)) l ++ [{| owner := k.1; p_alias := k.2; profile := v |}]).
Proof.
  intros Hu. unfold unique. rewrite fmap_app. apply NoDup_app. split_and!; [by apply unique_delete| |apply NoDup_singleton].
  intros x Hx ->%list_elem_of_singleton. destruct k. by apply deleted_gone in Hx.
Qed.
Lemma abs_put k v l :
  abs (delete_where (fun r => bool_decide (row_key r = k)) l ++ [{| owner := k.1; p_alias := k.2; profile := v |}]) = <[k := v]> (abs l).
Proof.
  apply map_eq. intros k'. unfold abs. rewrite fmap_app, list_to_map_app. simpl.
  pose proof (abs_delete (fun k0 => bool_decide (k0 = k)) l) as Hd. unfold abs in Hd. rewrite Hd.
  rewrite lookup_union, map_lookup_filter. unfold row_key. simpl. replace (k.1, k.2) with k by by destruct k.
  destruct (decide (k' = k)) as [->|Hne].
  - rewrite !lookup_insert_eq. destruct (_ !! k); simpl; [|done]. rewrite bool_decide_true by done. done.
  - rewrite !lookup_insert_ne, lookup_empty by done. destruct (_ !! k'); simpl; [|done]. by rewrite bool_decide_false.
Qed.

Lemma matches_at_most_one k l : unique l -> (length (select_where (fun r => bool_decide (row_key r = k)) l) <= 1)%nat.
Proof.
  unfold unique, select_where. induction l as [|r l IH]; simpl; [lia|]. intros [Hn Hu]%NoDup_cons. rewrite filter_cons. case_decide as Hk; [|by apply IH].
  apply bool_decide_eq_true in Hk. simpl. enough (filter (fun r => bool_decide (row_key r = k) = true) l = []) as -> by (simpl; lia).
  apply elem_of_nil_inv. intros x [Hx Hin]%list_elem_of_filter. apply bool_decide_eq_true in Hx. destruct Hn. rewrite Hk, <- Hx.
  by apply list_elem_of_fmap_2.
Qed.
Lemma removed_one k l :
  unique l -> (affected (fun r => bool_decide (row_key r = k)) l =? 1) = bool_decide (is_Some (abs l !! k)).
Proof.
  intros Hu%(matches_at_most_one k). rewrite abs_lookup. unfold affected. destruct (select_where _ l) as [|r [|r' m]]; simpl in *; try lia; done.
Qed.
Lemma listed_aliases uid l : unique l ->
  p_alias <$> select_where (fun r => owner r =? uid) l
  ≡ₚ omap (fun e : Z * string * bytes => if e.1.1 =? uid then Some e.1.2 else None) (map_to_list (abs l)).
Proof.
  intros Hu. unfold abs. rewrite map_to_list_to_map.
  2:{ rewrite <- list_fmap_compose. exact Hu. }
  clear Hu. unfold select_where. induction l as [|r l IH]; [done|]. rewrite filter_cons. simpl. destruct (owner r =? uid) eqn:E; simpl.
  - by rewrite IH.
  - exact IH.
Qed.

(** A statement and the operation on the map that stands for it. *)
Definition implements {A} (f : Tx A) (m : call A) : Prop := forall l s, unique l -> profiles s = abs l ->
  exists r l', f (Some l) = (Ok r, Some l') /\ unique l' /\ m s = Some (Ok r, set_profiles (fun _ => abs l') s).

Lemma same_profiles s m : profiles s = m -> set_profiles (fun _ => m) s = s.
Proof. intros <-. by destruct s. Qed.
Lemma set_profiles_eq f m s : f (profiles s) = m -> set_profiles f s = set_profiles (fun _ => m) s.
Proof. intros <-. done. Qed.

Lemma list_implements uid : implements (tx_list uid) (db_list uid).
Proof.
  intros l s Hu Hs. eexists _, l. split_and!; [done|done|]. rewrite same_profiles by done. unfold db_list. rewrite Hs. do 2 f_equal.
  f_equal. apply (Sorted_unique String.le); [by apply (Sorted_merge_sort _)|by apply (Sorted_merge_sort _)|].
  by rewrite !merge_sort_Permutation, listed_aliases.
Qed.
Lemma get_implements uid al : implements (tx_get uid al) (db_get uid al).
Proof.
  intros l s Hu Hs. eexists _, l. split_and!; [done|done|]. rewrite same_profiles by done. unfold db_get. by rewrite Hs, abs_lookup.
Qed.
Lemma put_implements uid al v : implements (tx_put uid al v) (db_put uid al v).
Proof.
  intros l s Hu Hs. eexists _, _. split_and!; [done|exact (unique_put (uid, al) v l Hu)|]. unfold db_put. do 2 f_equal.
  apply set_profiles_eq. rewrite Hs. symmetry. exact (abs_put (uid, al) v l).
Qed.
Lemma remove_implements uid al : implements (tx_remove uid al) (db_remove uid al).
Proof.
  intros l s Hu Hs. eexists _, _. split_and!; [done|by apply unique_delete|]. unfold db_remove. simpl.
  rewrite removed_one, Hs by done. do 2 f_equal. apply set_profiles_eq. rewrite Hs.
  etransitivity; [|symmetry; exact (abs_delete (fun k => bool_decide (k = (uid, al))) l)]. apply map_eq. intros k. rewrite map_lookup_filter.
  destruct (decide (k = (uid, al))) as [->|Hne].
  - rewrite lookup_delete_eq. destruct (abs l !! _); simpl; [|done]. by rewrite bool_decide_true.
  - rewrite lookup_delete_ne by done. destruct (abs l !! k); simpl; [|done]. by rewrite bool_decide_false.
Qed.
(** Deleting all rows whose owner is in question. *)
Lemma delete_implements q : implements (_ ← delete_rows (fun r => q (owner r)); mret tt)
  (fun s => Some (Ok tt, set_profiles (filter (fun e : Z * string * bytes => q e.1.1 = false)) s)).
Proof.
  intros l s Hu Hs. eexists _, _. split_and!; [done|by apply unique_delete|]. do 2 f_equal. apply set_profiles_eq. rewrite Hs.
  symmetry. exact (abs_delete (fun k => q k.1) l).
Qed.
Lemma remove_uid_implements uid : implements (tx_remove_uid uid) (db_remove_uid uid).
Proof.
  intros l s Hu Hs. destruct (delete_implements (fun o => o =? uid) l s Hu Hs) as (r & l' & H1 & H2 & H3). exists r, l'.
  split_and!; [done|done|]. rewrite <- H3. unfold db_remove_uid. do 2 f_equal. unfold set_profiles. f_equal.
  apply map_filter_ext. intros k v _. simpl. by rewrite Z.eqb_neq.
Qed.
Lemma remove_user_implements off user : implements (tx_remove_user off user) (db_remove_user off user).
Proof.
  intros l s Hu Hs. destruct (delete_implements (fun o => Z.quot o off =? user) l s Hu Hs) as (r & l' & H1 & H2 & H3). exists r, l'.
  split_and!; [done|done|]. rewrite <- H3. unfold db_remove_user. do 2 f_equal. unfold set_profiles. f_equal.
  apply map_filter_ext. intros k v _. simpl. by rewrite Z.eqb_neq.
Qed.

(** The statements of the file, each with the operation of [LegacyKeystore]
    it stands for. *)
Inductive statement : forall {A}, Tx A -> call A -> Prop :=
| st_list uid : statement (tx_list uid) (db_list uid)
| st_get uid al : statement (tx_get uid al) (db_get uid al)
| st_put uid al entry : statement (tx_put uid al entry) (db_put uid al entry)
| st_remove uid al : statement (tx_remove uid al) (db_remove uid al)
| st_remove_uid uid : statement (tx_remove_uid uid) (db_remove_uid uid)
| st_remove_user off user : statement (tx_remove_user off user) (db_remove_user off user).
Lemma statement_implements {A} (f : Tx A) m : statement f m -> implements f m.
Proof.
  destruct 1; eauto using list_implements, get_implements, put_implements, remove_implements, remove_uid_implements, remove_user_implements.
Qed.

(** ** A call among other connections *)

(** The other connections keep the uniqueness of the rows, and none drops
    the table. *)
Definition well_behaved (a : Attempt DbFile) : Prop := forall t,
  (from_option unique True t -> from_option unique True (others a t)) /\ (is_Some t -> is_Some (others a t)).
Lemma interference_well_behaved attempts t :
  Forall well_behaved attempts ->
  (from_option unique True t -> from_option unique True (interference attempts t)) /\ (is_Some t -> is_Some (interference attempts t)).
Proof.
  intros Hf. revert t. induction Hf as [|a l Ha _ IH]; intros t; [done|]. unfold interference in *. simpl.
  destruct (IH (others a t)) as [H1 H2], (Ha t) as [H3 H4]. tauto.
Qed.

(** The table is there once [DB::new] is through. *)
Lemma db_new_spec init s u s' :
  Forall well_behaved init -> from_option unique True s -> db_new true init s = (Some u, s') ->
  u = Ok tt /\ exists tried, tried `prefix_of` init /\ s' = Some (default [] (interference tried s)) /\ unique (default [] (interference tried s)).
Proof.
  intros Hi Hs (tried & rest & -> & _ & Ht)%with_transaction_once. apply Forall_app in Hi as [Hi _].
  destruct (interference_well_behaved tried s Hi) as [Hu _]. specialize (Hu Hs).
  unfold transaction, tx_init_tables, modify in Ht. simplify_eq. split; [done|]. exists tried. split_and!; [by eexists|done|].
  destruct (interference tried s); [done|]. apply NoDup_nil_2.
Qed.

(** C32: The file implements the map.  A call opens its own connection, creates
    the table if need be, and runs its statement until the database is free.
    If it returns at all it succeeds, and its answer and its effect are those
    of the operation on the map, applied once to what the other connections
    had left when the last attempt began, however often the body ran; the
    rows stay unique. *)
Theorem legacy_table_refines_map {A} (f : Tx A) (m : call A) init attempts s r s' st :
  statement f m -> from_option unique True s -> Forall well_behaved (init ++ attempts) ->
  through_db true init attempts f s = (Some r, s') ->
  exists t0 t1 x l', t0 `prefix_of` init /\ t1 `prefix_of` attempts /\
    let l := default [] (interference t1 (Some (default [] (interference t0 s)))) in
    r = Ok x /\ s' = Some l' /\ unique l' /\
    m (set_profiles (fun _ => abs l) st) = Some (Ok x, set_profiles (fun _ => abs l') st).
Proof.
  intros Hf%statement_implements Hs [Hi Ha]%Forall_app. unfold through_db. destruct (db_new true init s) as [[u|] s1] eqn:E; [|done].
  destruct (db_new_spec init s u s1 Hi Hs E) as (-> & t0 & Ht0 & -> & Hu1). intros (t1 & rest & -> & _ & Ht)%with_transaction_once.
  apply Forall_app in Ha as [Ha _]. destruct (interference_well_behaved t1 (Some (default [] (interference t0 s))) Ha) as [Hu Hp].
  specialize (Hu Hu1). destruct Hp as [l Hl]; [done|]. rewrite Hl in *. simpl in Hu.
  destruct (Hf l (set_profiles (fun _ => abs l) st) Hu eq_refl) as (x & l' & Hx & Hu' & Hm). unfold transaction in Ht. rewrite Hx in Ht.
  simplify_eq. exists t0, t1, x, l'. rewrite Hl. split_and!; try done. by eexists.
Qed.

(** And it returns when each of its two transactions finds the database free
    once. *)
Theorem legacy_calls_return {A} (f : Tx A) init attempts s :
  let free := fun a : Attempt DbFile => begin_busy a = false /\ commit_busy a = false in
  Exists free init -> Exists free attempts -> exists r s', through_db true init attempts f s = (Some r, s').
Proof.
  intros free Hi Ha. unfold through_db, db_new. destruct (with_transaction_ends tx_init_tables init s Hi) as (u & s1 & ->).
  destruct u; [|eauto..]. by apply with_transaction_ends.
Qed.

(** ** The worker's shelf *)

Module Shelf.
(** The jobs of the service's own task: [init_shelf] and the closures of
    [do_serialized], which [expect] to find the [AsyncState]. *)
Inductive LkJob := InitShelf | Serialized (id : nat).
Definition LkShelf : Type := option unit.
Definition run (j : LkJob) (sh : LkShelf) : option LkShelf :=
  match j, sh with
  | InitShelf, _ => Some (Some tt)
  | Serialized _, Some _ => Some sh
  | Serialized _, None => None
  end.
(** [init_shelf] within [new_native_binder]. *)
Definition new_native_binder : result unit (@AsyncTaskState LkJob LkShelf) := AsyncTask.queue_hi InitShelf AsyncTask.new.
(** A request, and the worker. *)
Inductive lk_step (s : @AsyncTaskState LkJob LkShelf) : AsyncTaskState -> Prop :=
| lk_request id s' : AsyncTask.queue_hi (Serialized id) s = Ok s' -> lk_step s s'
| lk_work timed_out s' : AsyncTask.worker_step run None timed_out s = Some s' -> lk_step s s'.

(** The job that fills the shelf is still the first one, or the shelf is
    filled, wherever it is. *)
Definition filled (o : option LkShelf) : Prop := o = Some (Some tt).
Definition pending (s : @AsyncTaskState LkJob LkShelf) : Prop := head (hi_prio_req s) = Some InitShelf.
Definition ready (s : @AsyncTaskState LkJob LkShelf) : Prop :=
  lo_prio_req s = [] /\ idle_fns s = [] /\ state s = match thread s with Some Exited => Exiting | _ => Running end /\
  match thread s with
  | Some Starting => filled (shelf s) \/ (pending s /\ shelf s = None)
  | Some (Loop sh _) => sh = Some tt \/ pending s
  | Some (Busy j sh) => sh = Some tt \/ j = InitShelf
  | Some (Idling fns sh) => fns = [] /\ sh = Some tt
  | Some Exited => filled (shelf s)
  | Some Panicked | Some (Joining _) | None => False
  end.
Lemma head_app_kept {A} (l l' : list A) x : head l = Some x -> head (l ++ l') = Some x.
Proof. by destruct l. Qed.
Lemma ready_request id s s' : ready s -> AsyncTask.queue_hi (Serialized id) s = Ok s' -> ready s'.
Proof.
  intros (Hl & Hi & Hst & Ht). unfold AsyncTask.queue_hi, AsyncTask.queue, AsyncTask.spawn_thread, ready, pending. simpl. rewrite Hst.
  destruct (thread s) as [[]|] eqn:Eth; simpl; intros; simplify_eq/=; rewrite ?Eth; try done; split_and!; try done; naive_solver (by apply head_app_kept).
Qed.
Lemma ready_work t s s' : ready s -> AsyncTask.worker_step run None t s = Some s' -> ready s'.
Proof.
  intros (Hl & Hi & Hst & Ht). unfold AsyncTask.worker_step, ready, pending, filled in *.
  destruct (thread s) as [[|sh done_idle|j sh|fns sh| | |]|] eqn:Eth; try done.
  - intros. simplify_eq/=. split_and!; try done. destruct Ht as [->|[? ->]]; auto.
  - rewrite Hl, Hi. destruct (hi_prio_req s) as [|j hi] eqn:Eh.
    + destruct Ht as [->|?]; [|done]. destruct done_idle, t; intros; simplify_eq/=; rewrite ?Eth; split_and!; auto.
    + intros. simplify_eq/=. split_and!; try done. naive_solver.
  - intros. simplify_eq/=. destruct Ht as [-> | ->]; [destruct j|]; simpl; split_and!; auto.
  - destruct Ht as [-> ->]. intros. simplify_eq/=. split_and!; auto.
Qed.

(** The shelf is filled before it is used.  The constructor queues the job
    that fills it; from then on, in whatever order requests arrive and the
    worker times out and is started again, no closure finds the shelf empty
    and the worker never panics over it. *)
Theorem shelf_is_filled_first s0 s :
  new_native_binder = Ok s0 -> rtc lk_step s0 s -> thread s <> Some Panicked /\ ready s.
Proof.
  intros H0 Hr. assert (ready s0) as H1 by (vm_compute in H0; injection H0 as <-; unfold ready; simpl; split_and!; try done; by right).
  assert (ready s) as Hs. { clear H0. induction Hr as [|x y z Hxy _ IH]; [done|]. apply IH. destruct Hxy; eauto using ready_request, ready_work. }
  split; [|done]. intros E. destruct Hs as (_ & _ & _ & Hs). by rewrite E in Hs.
Qed.
End Shelf.

(** Another connection commits a row while the first attempt is busy. *)
Definition free_turn : Attempt DbFile := {| others := id; begin_busy := false; commit_busy := false |}.
Definition other_put (t : DbFile) : DbFile := (tx_put 7 "x" [1] t).2.
Definition busy_turn : Attempt DbFile := {| others := other_put; begin_busy := false; commit_busy := true |}.
Lemma free_well_behaved : well_behaved free_turn.
Proof. intros t. done. Qed.
Lemma busy_well_behaved : well_behaved busy_turn.
Proof.
  intros [l|]; [|done]. unfold busy_turn, other_put. simpl. split; [|done]. intros Hu. exact (unique_put (7, "x") [1] l Hu).
Qed.
Lemma legacy_table_refines_map_witness : exists l',
  through_db true [free_turn] [busy_turn; free_turn] (tx_put 7 "y" [2]) None = (Some (Ok tt), Some l') /\ unique l' /\
  db_put 7 "y" [2] (set_profiles (fun _ => {[ (7, "x") := [1] ]}) demo_lk)
  = Some (Ok tt, set_profiles (fun _ => {[ (7, "y") := [2]; (7, "x") := [1] ]}) demo_lk).
Proof.
  destruct (through_db true [free_turn] [busy_turn; free_turn] (tx_put 7 "y" [2]) None) as [[r|] s'] eqn:E; [|vm_compute in E; discriminate E].
  destruct (legacy_table_refines_map (tx_put 7 "y" [2]) (db_put 7 "y" [2]) [free_turn] [busy_turn; free_turn] None r s' demo_lk
    (st_put _ _ _) I (Forall_cons_2 _ _ _ free_well_behaved (Forall_cons_2 _ _ _ busy_well_behaved
       (Forall_cons_2 _ _ _ free_well_behaved (Forall_nil_2 _)))) E) as (t0 & t1 & x & l' & _ & _ & -> & -> & Hu & _).
  exists l'. destruct x. split; [reflexivity|]. split; [exact Hu|reflexivity].
Defined.
Lemma legacy_calls_return_witness : exists r s', through_db true [free_turn] [busy_turn; free_turn] (tx_get 7 "x") None = (Some r, s').
Proof.
  apply (legacy_calls_return (tx_get 7 "x") [free_turn] [busy_turn; free_turn] None).
  - apply Exists_cons_hd. split; reflexivity.
  - apply Exists_cons_tl, Exists_cons_hd. split; reflexivity.
Defined.
Lemma shelf_is_filled_first_witness : exists s,
  Shelf.new_native_binder ≫= AsyncTask.queue_hi (Shelf.Serialized 1) = Ok s /\ thread s <> Some Panicked.
Proof.
  destruct Shelf.new_native_binder as [s0| |] eqn:E; [|vm_compute in E; discriminate E..]. simpl.
  destruct (AsyncTask.queue_hi (Shelf.Serialized 1) s0) as [s| |] eqn:E1.
  - exists s. split; [reflexivity|]. apply (Shelf.shelf_is_filled_first s0 s E). eapply rtc_once, Shelf.lk_request. exact E1.
  - vm_compute in E. injection E as <-. vm_compute in E1. discriminate E1.
  - vm_compute in E. injection E as <-. vm_compute in E1. discriminate E1.
Defined.
