(* ===== verification/Bindings.v ===== *)
(** * Bindings to C++ ([keystore2/aaid], [keystore2/src/vintf]) and interrupted reads

    Two crates wrap C++ functions of this repository: the attestation
    application id and the list of HALs.  What these functions get from the
    platform (the gathered id, the manifest) is a parameter.  The last part is
    the loop around system calls of [legacy_blob.rs]. *)

From stdpp Require Import base list strings.
From Stdlib Require Import ZArith Lia Ascii.
From S2P Require Import Prelude Aidl LegacyAlias Apc.

(** ** The attestation application id *)

Section Aaid.
(** [gather_attestation_application_id]; the status codes of the platform. *)
Context (gather : Z -> result Z bytes) (NO_MEMORY BAD_VALUE : Z).

Definition KEY_ATTESTATION_APPLICATION_ID_MAX_SIZE : nat := 1024.

(** The C++ function: its status, the buffer and the size it leaves. *)
Definition aaid_keystore_attestation_id (uid : Z) (buffer : bytes) (size : nat) : result unit (Z * bytes * nat) :=
  match gather uid with
  | Ok id =>
    if (KEY_ATTESTATION_APPLICATION_ID_MAX_SIZE <? length id)%nat then Ok (as_u32 NO_MEMORY, buffer, size)
    else if negb (size =? KEY_ATTESTATION_APPLICATION_ID_MAX_SIZE)%nat then Ok (as_u32 BAD_VALUE, buffer, size)
    else Ok (0, id ++ drop (length id) buffer, length id)
  | Err status => Ok (as_u32 status, buffer, size)
  | Panic => Panic
  end.
Definition get_aaid (uid : Z) : result Z bytes :=
  let buffer := replicate KEY_ATTESTATION_APPLICATION_ID_MAX_SIZE 0 in
  match aaid_keystore_attestation_id uid buffer KEY_ATTESTATION_APPLICATION_ID_MAX_SIZE with
  | Ok (status, buffer, size) =>
    if status =? 0 then (if (size <=? length buffer)%nat then Ok (take size buffer) else Panic) else Err status
  | _ => Panic
  end.

(** The id is passed on as it was gathered, up to 1024 bytes; an id that is
    too long and a failure are errors, and the slice of the buffer is never
    out of range. *)
Theorem aaid_exact uid :
  gather uid <> Panic -> as_u32 NO_MEMORY <> 0 ->
  get_aaid uid =
    match gather uid with
    | Ok id => if (length id <=? 1024)%nat then Ok id else Err (as_u32 NO_MEMORY)
    | Err status => if as_u32 status =? 0 then Ok (replicate 1024 0) else Err (as_u32 status)
    | Panic => Panic
    end.
Proof.
  intros Hp Hm. unfold get_aaid, aaid_keystore_attestation_id, KEY_ATTESTATION_APPLICATION_ID_MAX_SIZE.
  destruct (gather uid) as [id|status|]; [|destruct (as_u32 status =? 0); [|done]|done].
  - destruct (Nat.ltb_spec 1024 (length id)) as [Hl|Hl].
    + destruct (Nat.leb_spec (length id) 1024); [lia|]. destruct (Z.eqb_spec (as_u32 NO_MEMORY) 0); [done|]. done.
    + destruct (Nat.leb_spec (length id) 1024); [|lia]. rewrite Nat.eqb_refl. simpl negb. cbv iota. rewrite Z.eqb_refl.
      rewrite length_app. destruct (Nat.leb_spec (length id) (length id + length (drop (length id) (replicate 1024 0)))); [|lia].
      by rewrite take_app_length.
  - reflexivity.
Qed.
End Aaid.

(** ** The list of HALs *)

(** [strdup(name.c_str())]: up to the first zero byte. *)
Fixpoint c_str (s : string) : string :=
  match s with
  | EmptyString => EmptyString
  | String c s => if decide (c = zero) then EmptyString else String c (c_str s)
  end.
(** [HalNames]: the C strings, and whether they have been freed. *)
Record HalNames := { data : list string; freed : nat }.
Definition convert (names : list string) : HalNames := {| data := c_str <$> names; freed := 0 |}.
Definition drop_names (h : HalNames) : HalNames := {| data := []; freed := freed h + length (data h) |}.
(** [as_vec]: [Utf8Error] on the first name that is not UTF-8. *)
Fixpoint as_vec (l : list string) : result unit (list string) :=
  match l with
  | [] => Ok []
  | s :: l => if utf8_valid s then r ← as_vec l; Ok (s :: r) else Err tt
  end.

Section Vintf.
(** The device manifest: its names, as sets in order. *)
Context (names names_and_versions : list string) (hidl : string -> Z * Z -> string -> list string) (aidl : string -> Z -> string -> list string).
Definition get_hal_names : HalNames := convert names.
Definition get_hal_names_and_versions : HalNames := convert names_and_versions.
(** [CString::new(...).expect(...)]: a panic on a zero byte. *)
Definition get_hidl_instances (package : string) (major_version minor_version : Z) (interface_name : string) : result unit HalNames :=
  if has_nul package then Panic
  else if has_nul interface_name then Panic
  else Ok (convert (hidl package (major_version, minor_version) interface_name)).
Definition get_aidl_instances (package : string) (version : Z) (interface_name : string) : result unit HalNames :=
  if has_nul package then Panic
  else if has_nul interface_name then Panic
  else Ok (convert (aidl package version interface_name)).
End Vintf.

Lemma c_str_plain s : has_nul s = false -> c_str s = s.
Proof.
  induction s as [|c s IH]; [done|]. simpl. intros [Hc Hs]%orb_false_iff. apply bool_decide_eq_false in Hc.
  rewrite decide_False by done. by rewrite IH.
Qed.
Lemma c_str_map l : Forall (fun s => has_nul s = false) l -> c_str <$> l = l.
Proof. induction 1 as [|s l Hs _ IH]; [done|]. csimpl. by rewrite c_str_plain, IH. Qed.
Lemma as_vec_ok l : as_vec l = if forallb utf8_valid l then Ok l else Err tt.
Proof.
  induction l as [|s l IH]; [done|]. simpl. destruct (utf8_valid s); [|done]. rewrite IH. simpl. by destruct (forallb utf8_valid l).
Qed.
(** The instances of an interface come back as the manifest has them, in
    order, if they are text without zero bytes. *)
Lemma aidl_instances_exact aidl package version interface :
  has_nul package = false -> has_nul interface = false ->
  Forall (fun s => has_nul s = false /\ utf8_valid s = true) (aidl package version interface) ->
  exists h, get_aidl_instances aidl package version interface = Ok h /\ as_vec (data h) = Ok (aidl package version interface).
Proof.
  intros Hp Hi Hf. unfold get_aidl_instances. rewrite Hp, Hi. eexists. split; [done|]. simpl.
  rewrite c_str_map by (eapply Forall_impl; [exact Hf|naive_solver]). rewrite as_vec_ok. rewrite (proj2 (forallb_forall utf8_valid _)); [done|]. intros s Hs%list_elem_of_In.
  by eapply Forall_forall in Hf as [_ ?].
Qed.

(** ** Interrupted system calls *)

(** What the attempts of a system call answer. *)
Inductive Answer (E A : Type) := Interrupted | Done (r : result E A).
Arguments Interrupted {E A}.
Arguments Done {E A} r.
(** The loop; [None] while it is still being interrupted. *)
Fixpoint with_retry_interrupted {E A} (f : list (Answer E A)) : option (result E A) :=
  match f with
  | [] => None
  | Interrupted :: f => with_retry_interrupted f
  | Done r :: _ => Some r
  end.
(** Interruptions are not seen by the caller: the answer is that of the first
    attempt that is not interrupted, whatever it is. *)
Lemma retry_exact {E A} n (r : result E A) later : with_retry_interrupted (replicate n Interrupted ++ Done r :: later) = Some r.
Proof. by induction n. Qed.

(** An id of three bytes. *)
Lemma aaid_exact_witness : get_aaid (fun _ => Ok [1; 2; 3]) (-12) (-22) 10000 = Ok [1; 2; 3].
Proof.
  rewrite (aaid_exact (fun _ => Ok [1; 2; 3]) (-12) (-22) 10000); [reflexivity|discriminate|]. vm_compute. discriminate.
Defined.
