(* ===== verification/LegacyVectors.v ===== *)
(** * Golden blobs of Keystore 1.0 ([legacy_blob/test/legacy_blob_test_vectors.rs])

    The byte vectors of the repository's tests of the legacy blob reader:
    files written by a device, and what reading them must give. *)

From stdpp Require Import base list.
From Stdlib Require Import ZArith.
From S2P Require Import Prelude Aidl.

Definition BLOB : bytes :=
  [3; 1; 0; 0; 0; 0; 0; 0; 0; 0; 0; 0; 0; 0; 0; 0; 0; 0; 0; 0; 0; 0; 0; 0; 0; 0; 0; 0; 0; 0; 0; 0; 0; 0; 0; 0; 0; 0; 0; 4; 222; 237; 190;
   239].

Definition REAL_LEGACY_BLOB : bytes :=
  [3; 4; 0; 0; 0; 0; 0; 0; 0; 0; 0; 0; 0; 0; 0; 0; 0; 0; 0; 0; 0; 0; 0; 0; 0; 0; 0; 0; 0; 0; 0; 0; 0; 0; 0; 0; 0; 0; 1; 148; 108; 1; 0; 0;
   0; 50; 0; 37; 0; 11; 0; 6; 0; 114; 0; 0; 0; 6; 0; 128; 0; 67; 0; 32; 133; 66; 158; 233; 52; 133; 42; 0; 174; 187; 83; 180; 119; 30; 89;
   6; 112; 20; 16; 227; 164; 110; 167; 250; 104; 246; 169; 41; 134; 8; 97; 239; 0; 142; 0; 32; 76; 59; 49; 106; 94; 194; 188; 252; 111; 53;
   20; 56; 11; 140; 161; 154; 46; 240; 64; 168; 72; 79; 229; 227; 86; 251; 141; 152; 152; 4; 115; 136; 0; 16; 141; 255; 54; 246; 92; 48;
   60; 54; 150; 161; 114; 99; 11; 165; 215; 95; 175; 73; 52; 208; 169; 195; 11; 60; 164; 129; 185; 179; 109; 250; 162; 69; 125; 2; 52; 147;
   29; 137; 128; 64; 162; 232; 178; 171; 97; 117; 159; 12; 57; 151; 40; 83; 173; 86; 25; 1; 198; 102; 165; 237; 79; 224; 161; 109; 38; 59;
   163; 136; 34; 56; 63; 83; 94; 165; 104; 133; 145; 34; 195; 76; 64; 100; 56; 168; 73; 104; 34; 60; 193; 220; 93; 79; 86; 18; 172; 32;
   107; 183; 3; 108; 39; 252; 63; 35; 44; 78; 16; 0; 0; 0; 149; 0; 0; 0; 101; 245; 113; 200; 106; 188; 209; 160; 77; 161; 105; 191; 254;
   146; 174; 9; 180; 38; 233; 215; 43; 254; 102; 64; 118; 184; 196; 114; 81; 128; 164; 189; 96; 82; 37; 175; 175; 12; 157; 233; 145; 191;
   190; 193; 248; 134; 116; 218; 242; 13; 163; 114; 8; 41; 129; 236; 156; 105; 234; 31; 128; 12; 151; 128; 108; 203; 97; 93; 81; 53; 77;
   209; 136; 229; 71; 195; 111; 21; 238; 161; 121; 2; 33; 13; 27; 185; 135; 95; 40; 212; 112; 46; 8; 165; 115; 54; 129; 163; 106; 95; 173;
   97; 154; 197; 96; 118; 56; 138; 46; 66; 62; 61; 127; 66; 200; 0; 171; 172; 127; 236; 186; 199; 69; 8; 187; 96; 88; 239; 176; 194; 244;
   229; 158; 178; 52; 198; 159; 45; 155; 8; 236; 60; 220; 194; 170; 85; 245; 202; 98; 189; 65; 145; 66; 168; 164; 126; 172; 125; 120; 195;
   32; 0; 0; 0; 159; 201; 74; 139; 225; 192; 72; 224; 215; 118; 231; 131; 32; 6; 36; 108; 128; 247; 175; 127; 218; 64; 43; 117; 208; 210;
   129; 127; 226; 43; 239; 100].

Definition REAL_LEGACY_BLOB_PAYLOAD : bytes :=
  [108; 1; 0; 0; 0; 50; 0; 37; 0; 11; 0; 6; 0; 114; 0; 0; 0; 6; 0; 128; 0; 67; 0; 32; 133; 66; 158; 233; 52; 133; 42; 0; 174; 187; 83; 180;
   119; 30; 89; 6; 112; 20; 16; 227; 164; 110; 167; 250; 104; 246; 169; 41; 134; 8; 97; 239; 0; 142; 0; 32; 76; 59; 49; 106; 94; 194; 188;
   252; 111; 53; 20; 56; 11; 140; 161; 154; 46; 240; 64; 168; 72; 79; 229; 227; 86; 251; 141; 152; 152; 4; 115; 136; 0; 16; 141; 255; 54;
   246; 92; 48; 60; 54; 150; 161; 114; 99; 11; 165; 215; 95; 175; 73; 52; 208; 169; 195; 11; 60; 164; 129; 185; 179; 109; 250; 162; 69;
   125; 2; 52; 147; 29; 137; 128; 64; 162; 232; 178; 171; 97; 117; 159; 12; 57; 151; 40; 83; 173; 86; 25; 1; 198; 102; 165; 237; 79; 224;
   161; 109; 38; 59; 163; 136; 34; 56; 63; 83; 94; 165; 104; 133; 145; 34; 195; 76; 64; 100; 56; 168; 73; 104; 34; 60; 193; 220; 93; 79;
   86; 18; 172; 32; 107; 183; 3; 108; 39; 252; 63; 35; 44; 78; 16; 0; 0; 0; 149; 0; 0; 0; 101; 245; 113; 200; 106; 188; 209; 160; 77; 161;
   105; 191; 254; 146; 174; 9; 180; 38; 233; 215; 43; 254; 102; 64; 118; 184; 196; 114; 81; 128; 164; 189; 96; 82; 37; 175; 175; 12; 157;
   233; 145; 191; 190; 193; 248; 134; 116; 218; 242; 13; 163; 114; 8; 41; 129; 236; 156; 105; 234; 31; 128; 12; 151; 128; 108; 203; 97; 93;
   81; 53; 77; 209; 136; 229; 71; 195; 111; 21; 238; 161; 121; 2; 33; 13; 27; 185; 135; 95; 40; 212; 112; 46; 8; 165; 115; 54; 129; 163;
   106; 95; 173; 97; 154; 197; 96; 118; 56; 138; 46; 66; 62; 61; 127; 66; 200; 0; 171; 172; 127; 236; 186; 199; 69; 8; 187; 96; 88; 239;
   176; 194; 244; 229; 158; 178; 52; 198; 159; 45; 155; 8; 236; 60; 220; 194; 170; 85; 245; 202; 98; 189; 65; 145; 66; 168; 164; 126; 172;
   125; 120; 195; 32; 0; 0; 0; 159; 201; 74; 139; 225; 192; 72; 224; 215; 118; 231; 131; 32; 6; 36; 108; 128; 247; 175; 127; 218; 64; 43;
   117; 208; 210; 129; 127; 226; 43; 239; 100].

Definition AES_KEY : bytes :=
  [72; 228; 181; 255; 205; 156; 65; 30; 32; 65; 242; 101; 160; 79; 246; 87; 198; 88; 202; 191; 40; 163; 1; 152; 1; 118; 16; 192; 48; 78;
   53; 110].

Definition AES_GCM_ENCRYPTED_BLOB : bytes :=
  [3; 4; 4; 0; 189; 219; 141; 105; 114; 86; 240; 245; 164; 2; 136; 127; 0; 0; 0; 0; 80; 217; 151; 149; 55; 110; 40; 106; 40; 157; 81; 185;
   185; 224; 11; 195; 0; 0; 1; 164; 71; 245; 248; 176; 119; 145; 107; 177; 51; 186; 215; 170; 129; 32; 77; 47; 218; 158; 3; 225; 65; 201;
   90; 129; 48; 246; 119; 113; 83; 138; 241; 242; 164; 40; 228; 70; 195; 126; 187; 182; 1; 56; 164; 13; 120; 65; 189; 99; 55; 21; 29; 65;
   196; 85; 218; 227; 35; 191; 80; 176; 127; 182; 31; 69; 123; 123; 81; 216; 193; 162; 126; 29; 129; 198; 103; 222; 83; 85; 8; 151; 13; 86;
   48; 64; 2; 97; 133; 99; 27; 227; 74; 19; 255; 245; 175; 42; 166; 140; 100; 191; 69; 214; 99; 12; 79; 238; 172; 43; 92; 58; 85; 27; 2;
   59; 124; 230; 251; 70; 133; 63; 122; 100; 180; 249; 48; 201; 146; 143; 118; 54; 17; 255; 205; 18; 79; 190; 139; 54; 106; 101; 56; 237;
   32; 46; 106; 227; 129; 12; 23; 216; 101; 243; 231; 210; 62; 59; 8; 156; 82; 71; 0; 66; 77; 186; 2; 46; 81; 140; 127; 141; 195; 145; 57;
   36; 105; 18; 205; 59; 166; 157; 35; 33; 148; 221; 194; 10; 34; 7; 129; 139; 24; 140; 116; 158; 71; 11; 11; 159; 226; 163; 158; 63; 2;
   76; 140; 19; 211; 162; 187; 121; 139; 31; 13; 97; 210; 13; 133; 248; 133; 217; 90; 104; 80; 104; 239; 132; 254; 249; 99; 84; 99; 38; 85;
   108; 147; 235; 169; 79; 19; 126; 98; 52; 254; 77; 78; 123; 83; 117; 6; 159; 45; 131; 175; 199; 115; 171; 153; 157; 218; 71; 48; 42; 26;
   159; 39; 106; 197; 25; 250; 242; 16; 180; 245; 130; 170; 49; 122; 228; 91; 62; 233; 76; 146; 99; 229; 40; 145; 10; 15; 185; 231; 190;
   173; 55; 41; 94; 107; 58; 59; 249; 236; 171; 165; 49; 68; 167; 26; 41; 79; 32; 19; 182; 163; 229; 2; 185; 66; 194; 30; 128; 182; 67;
   236; 183; 78; 124; 55; 108; 96; 189; 220; 145; 19; 58; 160; 22; 51; 8; 81; 222; 78; 29; 114; 74; 3; 124; 146; 67; 229; 1; 37; 113; 103;
   190; 247; 147; 0; 56; 157; 175; 231; 47; 106; 175; 108; 233; 11; 40; 47; 17; 165; 175; 98; 233; 14; 57; 208; 136; 80; 6; 165; 168; 28;
   206; 94; 30; 138; 91; 60; 40; 242; 175; 239; 84; 134; 175; 77; 152; 203; 113; 172; 170; 147; 30; 210; 221; 223; 26; 46; 12; 199; 191;
   41; 30; 49; 220; 14; 133; 150; 123].

Definition DECRYPTED_PAYLOAD : bytes :=
  [124; 1; 0; 0; 0; 50; 0; 37; 0; 11; 0; 6; 0; 114; 0; 0; 0; 6; 0; 128; 0; 67; 0; 32; 164; 238; 220; 31; 158; 186; 66; 214; 200; 124; 221;
   28; 186; 18; 103; 131; 209; 122; 185; 145; 91; 211; 77; 199; 254; 221; 91; 28; 62; 1; 25; 1; 0; 142; 0; 32; 209; 115; 202; 75; 191; 240;
   170; 108; 255; 92; 58; 43; 243; 177; 111; 219; 255; 14; 99; 67; 227; 106; 120; 31; 36; 242; 137; 153; 80; 102; 208; 48; 0; 16; 132; 2;
   156; 246; 88; 119; 226; 105; 25; 184; 138; 73; 16; 220; 184; 39; 248; 205; 89; 145; 187; 114; 132; 101; 238; 87; 21; 91; 17; 192; 143;
   254; 22; 47; 155; 65; 128; 148; 107; 246; 202; 110; 29; 244; 137; 155; 182; 34; 109; 3; 189; 251; 236; 74; 16; 159; 194; 103; 239; 155;
   37; 18; 160; 107; 46; 168; 99; 69; 220; 185; 2; 32; 203; 38; 150; 236; 162; 251; 109; 35; 196; 164; 41; 32; 165; 190; 181; 90; 166; 19;
   182; 118; 23; 243; 161; 127; 62; 108; 90; 167; 219; 133; 48; 199; 159; 12; 16; 0; 0; 0; 164; 0; 0; 0; 233; 50; 74; 90; 130; 121; 212;
   220; 100; 217; 88; 191; 245; 36; 224; 176; 241; 87; 192; 82; 50; 31; 155; 46; 217; 155; 4; 108; 31; 202; 27; 14; 8; 132; 131; 230; 56;
   97; 203; 4; 254; 111; 157; 233; 87; 178; 217; 159; 157; 224; 228; 197; 83; 33; 97; 39; 235; 130; 66; 121; 219; 218; 88; 234; 53; 1; 40;
   106; 175; 215; 123; 48; 212; 233; 23; 24; 185; 193; 216; 131; 195; 4; 184; 255; 210; 37; 145; 122; 178; 66; 224; 184; 147; 7; 10; 33;
   121; 204; 180; 134; 238; 184; 135; 131; 68; 71; 83; 6; 242; 209; 229; 221; 239; 210; 225; 11; 5; 43; 52; 132; 100; 103; 246; 160; 121;
   201; 254; 96; 249; 23; 105; 225; 236; 63; 32; 161; 35; 134; 138; 115; 107; 32; 95; 163; 116; 154; 190; 244; 56; 5; 106; 201; 94; 183;
   228; 112; 87; 85; 40; 24; 151; 178; 146; 147; 33; 192; 225; 108; 216; 97; 236; 206; 70; 131; 241; 18; 32; 0; 0; 0; 153; 109; 154; 157;
   19; 243; 67; 6; 53; 245; 137; 1; 144; 0; 9; 201; 63; 238; 121; 39; 38; 217; 3; 155; 87; 177; 97; 107; 246; 11; 129; 7].

Definition PASSWORD : bytes :=
  [66; 57; 48; 55; 68; 55; 50; 55; 57; 57; 67; 66; 57; 65; 66; 48; 52; 49; 48; 56; 70; 68; 51; 69; 57; 66; 50; 56; 54; 53; 65; 54; 51; 68;
   66; 66; 67; 54; 51; 66; 52; 57; 55; 51; 53; 69; 65; 65; 50; 69; 49; 53; 67; 67; 70; 50; 57; 54; 51; 52; 49; 50; 65; 57].

Definition SUPERKEY : bytes :=
  [3; 7; 1; 16; 154; 129; 86; 125; 245; 134; 124; 98; 215; 249; 38; 6; 0; 0; 0; 0; 222; 42; 203; 172; 152; 87; 43; 229; 87; 24; 120; 87;
   110; 16; 9; 132; 0; 0; 0; 32; 172; 109; 19; 230; 173; 44; 137; 83; 26; 153; 165; 108; 136; 233; 235; 92; 239; 104; 94; 91; 83; 168; 231;
   162; 118; 4; 42; 72; 209; 167; 89; 209; 4; 91; 180; 138; 9; 34; 19; 12; 148; 182; 103; 123; 57; 133; 40; 17].

Definition USRPKEY_AUTHBOUND : bytes :=
  [3; 4; 4; 0; 28; 52; 135; 111; 200; 53; 13; 52; 136; 89; 188; 245; 0; 0; 0; 0; 98; 227; 56; 45; 208; 88; 64; 193; 176; 242; 74; 221; 247;
   129; 103; 11; 0; 0; 2; 29; 5; 178; 90; 29; 27; 37; 25; 72; 191; 118; 11; 55; 140; 96; 82; 234; 48; 42; 44; 137; 153; 149; 87; 92; 236;
   98; 60; 8; 26; 198; 101; 249; 173; 36; 153; 240; 92; 68; 160; 234; 154; 96; 162; 239; 245; 39; 80; 186; 156; 239; 166; 8; 136; 75; 15;
   254; 93; 65; 172; 186; 239; 157; 164; 183; 114; 211; 200; 17; 146; 6; 246; 38; 223; 144; 226; 102; 137; 243; 133; 22; 74; 223; 127; 172;
   148; 74; 28; 206; 24; 238; 244; 31; 142; 214; 175; 253; 29; 229; 128; 74; 107; 191; 145; 226; 54; 29; 179; 83; 18; 253; 201; 11; 166;
   105; 0; 69; 203; 76; 64; 107; 112; 203; 210; 160; 68; 11; 75; 236; 214; 79; 111; 100; 55; 167; 199; 37; 84; 244; 172; 107; 52; 83; 234;
   78; 86; 73; 186; 244; 30; 198; 82; 143; 244; 133; 231; 181; 175; 73; 104; 179; 184; 125; 99; 252; 110; 131; 160; 243; 145; 4; 128; 253;
   197; 84; 126; 146; 26; 135; 44; 110; 166; 41; 185; 30; 63; 239; 48; 18; 123; 47; 162; 22; 97; 138; 207; 20; 45; 98; 152; 21; 174; 59;
   230; 8; 30; 177; 241; 33; 176; 80; 192; 75; 129; 113; 41; 231; 134; 191; 41; 225; 235; 254; 188; 17; 60; 198; 21; 71; 155; 65; 132; 97;
   51; 191; 202; 254; 36; 146; 158; 112; 38; 54; 70; 202; 254; 211; 90; 29; 158; 48; 25; 189; 38; 73; 180; 144; 12; 141; 162; 40; 166; 36;
   98; 107; 226; 250; 224; 83; 170; 1; 235; 170; 65; 43; 203; 177; 8; 102; 157; 33; 45; 42; 71; 68; 238; 213; 6; 227; 74; 185; 63; 205;
   120; 103; 137; 91; 247; 81; 192; 196; 169; 104; 238; 68; 156; 71; 164; 189; 111; 123; 221; 100; 168; 199; 30; 119; 29; 104; 135; 170;
   174; 60; 252; 88; 182; 60; 207; 88; 208; 16; 170; 239; 240; 152; 103; 20; 41; 77; 64; 139; 229; 177; 223; 127; 64; 177; 216; 234; 108;
   168; 247; 100; 237; 2; 141; 231; 147; 254; 121; 154; 136; 98; 79; 208; 138; 128; 54; 66; 10; 241; 162; 14; 48; 57; 189; 38; 29; 212;
   241; 200; 110; 221; 197; 65; 41; 216; 193; 158; 36; 240; 37; 7; 5; 6; 197; 8; 227; 2; 43; 225; 64; 197; 103; 210; 130; 150; 32; 128;
   207; 135; 58; 198; 176; 190; 204; 187; 90; 1; 171; 221; 0; 199; 14; 123; 2; 53; 39; 244; 112; 254; 209; 25; 106; 100; 35; 157; 186; 233;
   29; 118; 144; 254; 127; 214; 181; 160; 231; 185; 243; 86; 130; 142; 87; 53; 242; 105; 206; 82; 172; 194; 246; 94; 182; 84; 149; 131; 59;
   159; 72; 187; 4; 6; 172; 85; 169; 185; 163; 231; 137; 110; 92; 58; 8; 103; 0; 143; 30; 38; 27; 77; 138; 166; 23; 160; 166; 24; 230; 49;
   67; 21; 184; 127; 158; 245; 120; 88; 152; 177; 140; 245; 34; 66; 51; 192; 66; 114; 79; 206; 159; 49; 175; 23; 47; 33; 7; 234; 97; 255;
   115; 8; 80; 178; 25; 232; 35; 27; 131; 66; 221; 78; 109].

Definition USRPKEY_AUTHBOUND_CHR : bytes :=
  [3; 6; 0; 0; 0; 0; 0; 0; 0; 0; 0; 0; 0; 0; 0; 0; 0; 0; 0; 0; 0; 0; 0; 0; 0; 0; 0; 0; 0; 0; 0; 0; 0; 0; 0; 0; 0; 0; 0; 168; 0; 0; 0; 0;
   15; 0; 0; 0; 124; 0; 0; 0; 1; 0; 0; 32; 2; 0; 0; 0; 1; 0; 0; 32; 3; 0; 0; 0; 5; 0; 0; 32; 4; 0; 0; 0; 246; 1; 0; 160; 240; 126; 125;
   180; 198; 215; 37; 29; 2; 0; 0; 16; 3; 0; 0; 0; 3; 0; 0; 48; 0; 1; 0; 0; 10; 0; 0; 16; 1; 0; 0; 0; 45; 1; 0; 16; 0; 0; 0; 0; 248; 1; 0;
   16; 2; 0; 0; 0; 190; 2; 0; 16; 0; 0; 0; 0; 193; 2; 0; 48; 176; 173; 1; 0; 194; 2; 0; 48; 117; 21; 3; 0; 207; 2; 0; 48; 185; 97; 52; 1;
   206; 2; 0; 48; 185; 97; 52; 1; 48; 1; 0; 16; 0; 0; 0; 0; 0; 0; 0; 0; 2; 0; 0; 0; 20; 0; 0; 0; 189; 2; 0; 96; 16; 157; 139; 49; 118; 1;
   0; 0; 245; 1; 0; 48; 0; 0; 0; 0].

Definition USRCERT_AUTHBOUND : bytes :=
  [3; 1; 0; 0; 0; 0; 0; 0; 0; 0; 0; 0; 0; 0; 0; 0; 0; 0; 0; 0; 0; 0; 0; 0; 0; 0; 0; 0; 0; 0; 0; 0; 0; 0; 0; 0; 0; 0; 2; 151; 48; 130; 2;
   147; 48; 130; 2; 58; 160; 3; 2; 1; 2; 2; 1; 1; 48; 10; 6; 8; 42; 134; 72; 206; 61; 4; 3; 2; 48; 41; 49; 25; 48; 23; 6; 3; 85; 4; 5; 19;
   16; 52; 52; 97; 56; 49; 101; 97; 101; 99; 53; 49; 100; 98; 48; 98; 49; 49; 12; 48; 10; 6; 3; 85; 4; 12; 12; 3; 84; 69; 69; 48; 32; 23;
   13; 55; 48; 48; 49; 48; 49; 48; 48; 48; 48; 48; 48; 90; 24; 15; 50; 49; 48; 54; 48; 50; 48; 55; 48; 54; 50; 56; 49; 53; 90; 48; 31; 49;
   29; 48; 27; 6; 3; 85; 4; 3; 12; 20; 65; 110; 100; 114; 111; 105; 100; 32; 75; 101; 121; 115; 116; 111; 114; 101; 32; 75; 101; 121; 48;
   89; 48; 19; 6; 7; 42; 134; 72; 206; 61; 2; 1; 6; 8; 42; 134; 72; 206; 61; 3; 1; 7; 3; 66; 0; 4; 32; 22; 133; 230; 127; 241; 14; 153; 27;
   58; 198; 194; 131; 10; 29; 164; 241; 146; 118; 136; 75; 106; 205; 178; 142; 241; 80; 88; 210; 105; 222; 87; 156; 156; 41; 4; 3; 242; 77;
   18; 119; 156; 98; 188; 117; 180; 171; 122; 188; 160; 143; 96; 94; 205; 206; 58; 216; 9; 235; 157; 64; 219; 88; 83; 163; 130; 1; 89; 48;
   130; 1; 85; 48; 14; 6; 3; 85; 29; 15; 1; 1; 255; 4; 4; 3; 2; 7; 128; 48; 130; 1; 65; 6; 10; 43; 6; 1; 4; 1; 214; 121; 2; 1; 17; 4; 130;
   1; 49; 48; 130; 1; 45; 2; 1; 3; 10; 1; 1; 2; 1; 4; 10; 1; 1; 4; 8; 97; 115; 100; 102; 106; 107; 108; 59; 4; 0; 48; 107; 191; 133; 61; 8;
   2; 6; 1; 118; 49; 139; 157; 16; 191; 133; 69; 91; 4; 89; 48; 87; 49; 49; 48; 47; 4; 42; 99; 111; 109; 46; 103; 111; 111; 103; 108; 101;
   46; 101; 120; 112; 101; 114; 105; 109; 101; 110; 116; 115; 46; 106; 100; 97; 110; 105; 115; 46; 107; 101; 121; 115; 116; 111; 114; 101;
   116; 111; 111; 108; 2; 1; 1; 49; 34; 4; 32; 48; 224; 120; 69; 171; 215; 193; 116; 73; 1; 15; 167; 127; 137; 222; 17; 163; 139; 62; 49;
   107; 241; 24; 180; 88; 27; 215; 179; 88; 169; 194; 129; 48; 129; 165; 161; 8; 49; 6; 2; 1; 2; 2; 1; 3; 162; 3; 2; 1; 3; 163; 4; 2; 2; 1;
   0; 165; 5; 49; 3; 2; 1; 4; 170; 3; 2; 1; 1; 191; 131; 120; 3; 2; 1; 2; 191; 133; 62; 3; 2; 1; 0; 191; 133; 64; 76; 48; 74; 4; 32; 0; 0;
   0; 0; 0; 0; 0; 0; 0; 0; 0; 0; 0; 0; 0; 0; 0; 0; 0; 0; 0; 0; 0; 0; 0; 0; 0; 0; 0; 0; 0; 0; 1; 1; 0; 10; 1; 2; 4; 32; 231; 173; 60; 19;
   194; 115; 65; 96; 215; 26; 124; 0; 94; 20; 216; 174; 6; 93; 34; 208; 181; 245; 106; 186; 31; 130; 167; 140; 23; 44; 253; 15; 191; 133;
   65; 5; 2; 3; 1; 173; 176; 191; 133; 66; 5; 2; 3; 3; 21; 117; 191; 133; 78; 6; 2; 4; 1; 52; 97; 185; 191; 133; 79; 6; 2; 4; 1; 52; 97;
   185; 48; 10; 6; 8; 42; 134; 72; 206; 61; 4; 3; 2; 3; 71; 0; 48; 68; 2; 32; 75; 220; 142; 145; 230; 170; 74; 129; 109; 162; 215; 19; 158;
   112; 18; 121; 183; 133; 5; 173; 110; 94; 11; 67; 59; 175; 154; 169; 41; 64; 215; 146; 2; 32; 47; 57; 88; 233; 137; 26; 20; 65; 141; 224;
   220; 61; 136; 244; 44; 124; 218; 161; 132; 250; 127; 249; 7; 151; 251; 181; 183; 40; 40; 0; 124; 167].

Definition CACERT_AUTHBOUND : bytes :=
  [3; 1; 0; 0; 0; 0; 0; 0; 0; 0; 0; 0; 0; 0; 0; 0; 0; 0; 0; 0; 0; 0; 0; 0; 0; 0; 0; 0; 0; 0; 0; 0; 0; 0; 0; 0; 0; 0; 11; 99; 48; 130; 2;
   38; 48; 130; 1; 171; 160; 3; 2; 1; 2; 2; 10; 5; 132; 32; 38; 144; 118; 35; 88; 113; 119; 48; 10; 6; 8; 42; 134; 72; 206; 61; 4; 3; 2;
   48; 41; 49; 25; 48; 23; 6; 3; 85; 4; 5; 19; 16; 52; 100; 55; 52; 97; 48; 101; 48; 49; 97; 97; 102; 51; 100; 100; 102; 49; 12; 48; 10; 6;
   3; 85; 4; 12; 12; 3; 84; 69; 69; 48; 30; 23; 13; 49; 56; 48; 51; 50; 49; 50; 49; 50; 53; 49; 51; 90; 23; 13; 50; 56; 48; 51; 49; 56; 50;
   49; 50; 53; 49; 51; 90; 48; 41; 49; 25; 48; 23; 6; 3; 85; 4; 5; 19; 16; 52; 52; 97; 56; 49; 101; 97; 101; 99; 53; 49; 100; 98; 48; 98;
   49; 49; 12; 48; 10; 6; 3; 85; 4; 12; 12; 3; 84; 69; 69; 48; 89; 48; 19; 6; 7; 42; 134; 72; 206; 61; 2; 1; 6; 8; 42; 134; 72; 206; 61; 3;
   1; 7; 3; 66; 0; 4; 250; 53; 143; 176; 49; 214; 48; 136; 222; 176; 41; 205; 108; 125; 78; 169; 206; 110; 157; 122; 172; 151; 146; 194;
   69; 181; 226; 208; 193; 82; 168; 80; 37; 215; 137; 88; 123; 4; 182; 102; 147; 42; 38; 93; 58; 177; 91; 119; 48; 191; 149; 170; 139; 67;
   195; 191; 67; 183; 238; 172; 115; 220; 3; 106; 163; 129; 186; 48; 129; 183; 48; 29; 6; 3; 85; 29; 14; 4; 22; 4; 20; 25; 159; 135; 139;
   86; 244; 153; 58; 105; 150; 155; 141; 158; 100; 170; 86; 180; 127; 139; 77; 48; 31; 6; 3; 85; 29; 35; 4; 24; 48; 22; 128; 20; 169; 181;
   244; 41; 201; 26; 88; 189; 47; 152; 45; 103; 115; 49; 6; 135; 224; 223; 205; 98; 48; 15; 6; 3; 85; 29; 19; 1; 1; 255; 4; 5; 48; 3; 1; 1;
   255; 48; 14; 6; 3; 85; 29; 15; 1; 1; 255; 4; 4; 3; 2; 2; 4; 48; 84; 6; 3; 85; 29; 31; 4; 77; 48; 75; 48; 73; 160; 71; 160; 69; 134; 67;
   104; 116; 116; 112; 115; 58; 47; 47; 97; 110; 100; 114; 111; 105; 100; 46; 103; 111; 111; 103; 108; 101; 97; 112; 105; 115; 46; 99; 111;
   109; 47; 97; 116; 116; 101; 115; 116; 97; 116; 105; 111; 110; 47; 99; 114; 108; 47; 48; 53; 56; 52; 50; 48; 50; 54; 57; 48; 55; 54; 50;
   51; 53; 56; 55; 49; 55; 55; 48; 10; 6; 8; 42; 134; 72; 206; 61; 4; 3; 2; 3; 105; 0; 48; 102; 2; 49; 0; 227; 53; 198; 168; 178; 117; 156;
   86; 123; 110; 97; 128; 101; 44; 6; 136; 221; 185; 104; 77; 60; 104; 73; 102; 1; 78; 48; 29; 243; 236; 165; 81; 92; 191; 231; 131; 51;
   189; 20; 238; 35; 240; 207; 177; 55; 28; 39; 120; 2; 49; 0; 148; 203; 8; 61; 45; 62; 105; 84; 95; 99; 227; 228; 116; 114; 226; 255; 139;
   38; 210; 134; 192; 151; 50; 64; 221; 124; 31; 80; 96; 87; 207; 46; 35; 243; 51; 228; 251; 111; 91; 124; 198; 49; 133; 174; 224; 78; 68;
   169; 48; 130; 3; 209; 48; 130; 1; 185; 160; 3; 2; 1; 2; 2; 10; 3; 136; 38; 103; 96; 101; 137; 150; 133; 127; 48; 13; 6; 9; 42; 134; 72;
   134; 247; 13; 1; 1; 11; 5; 0; 48; 27; 49; 25; 48; 23; 6; 3; 85; 4; 5; 19; 16; 102; 57; 50; 48; 48; 57; 101; 56; 53; 51; 98; 54; 98; 48;
   52; 53; 48; 30; 23; 13; 49; 56; 48; 51; 50; 49; 50; 49; 49; 52; 49; 52; 90; 23; 13; 50; 56; 48; 51; 49; 56; 50; 49; 49; 52; 49; 52; 90;
   48; 41; 49; 25; 48; 23; 6; 3; 85; 4; 5; 19; 16; 52; 100; 55; 52; 97; 48; 101; 48; 49; 97; 97; 102; 51; 100; 100; 102; 49; 12; 48; 10; 6;
   3; 85; 4; 12; 12; 3; 84; 69; 69; 48; 118; 48; 16; 6; 7; 42; 134; 72; 206; 61; 2; 1; 6; 5; 43; 129; 4; 0; 34; 3; 98; 0; 4; 213; 245; 14;
   226; 141; 243; 51; 74; 106; 119; 144; 156; 194; 37; 200; 138; 50; 174; 59; 180; 156; 74; 149; 34; 12; 186; 10; 118; 202; 203; 36; 12;
   132; 58; 131; 118; 4; 35; 49; 58; 160; 130; 128; 38; 101; 253; 47; 68; 244; 150; 216; 183; 220; 172; 85; 52; 116; 65; 13; 13; 127; 189;
   227; 244; 40; 223; 116; 74; 23; 77; 231; 178; 155; 43; 36; 192; 158; 86; 0; 82; 187; 117; 176; 213; 106; 65; 22; 8; 206; 50; 219; 143;
   139; 32; 115; 114; 163; 129; 182; 48; 129; 179; 48; 29; 6; 3; 85; 29; 14; 4; 22; 4; 20; 169; 181; 244; 41; 201; 26; 88; 189; 47; 152;
   45; 103; 115; 49; 6; 135; 224; 223; 205; 98; 48; 31; 6; 3; 85; 29; 35; 4; 24; 48; 22; 128; 20; 54; 97; 225; 0; 124; 136; 5; 9; 81; 139;
   68; 108; 71; 255; 26; 76; 201; 234; 79; 18; 48; 15; 6; 3; 85; 29; 19; 1; 1; 255; 4; 5; 48; 3; 1; 1; 255; 48; 14; 6; 3; 85; 29; 15; 1; 1;
   255; 4; 4; 3; 2; 2; 4; 48; 80; 6; 3; 85; 29; 31; 4; 73; 48; 71; 48; 69; 160; 67; 160; 65; 134; 63; 104; 116; 116; 112; 115; 58; 47; 47;
   97; 110; 100; 114; 111; 105; 100; 46; 103; 111; 111; 103; 108; 101; 97; 112; 105; 115; 46; 99; 111; 109; 47; 97; 116; 116; 101; 115;
   116; 97; 116; 105; 111; 110; 47; 99; 114; 108; 47; 69; 56; 70; 65; 49; 57; 54; 51; 49; 52; 68; 50; 70; 65; 49; 56; 48; 13; 6; 9; 42;
   134; 72; 134; 247; 13; 1; 1; 11; 5; 0; 3; 130; 2; 1; 0; 50; 206; 4; 204; 77; 130; 173; 29; 222; 165; 207; 226; 26; 163; 121; 247; 237;
   136; 30; 14; 103; 142; 252; 190; 123; 4; 183; 38; 89; 202; 149; 71; 138; 16; 63; 229; 20; 25; 236; 212; 219; 51; 195; 161; 81; 245; 6;
   94; 48; 102; 31; 210; 88; 47; 20; 3; 123; 53; 131; 134; 70; 220; 238; 4; 48; 161; 15; 196; 22; 201; 142; 99; 208; 218; 92; 176; 247; 62;
   33; 182; 165; 4; 7; 90; 1; 140; 49; 31; 62; 58; 175; 141; 49; 62; 182; 18; 20; 240; 13; 44; 204; 108; 184; 122; 191; 210; 107; 95; 39;
   176; 255; 192; 170; 222; 222; 246; 49; 109; 243; 149; 194; 212; 144; 220; 130; 79; 36; 13; 133; 242; 187; 196; 88; 201; 250; 221; 150;
   65; 43; 31; 76; 16; 28; 154; 87; 85; 15; 98; 252; 141; 162; 202; 132; 123; 22; 96; 232; 98; 206; 146; 133; 19; 240; 99; 131; 216; 91;
   168; 116; 120; 181; 40; 219; 108; 201; 110; 133; 133; 82; 63; 216; 103; 174; 244; 9; 190; 207; 140; 127; 114; 178; 200; 147; 198; 210;
   243; 56; 116; 113; 34; 214; 146; 118; 177; 174; 20; 90; 9; 216; 175; 29; 175; 72; 34; 92; 48; 133; 142; 194; 254; 97; 175; 195; 210; 76;
   146; 83; 164; 117; 31; 120; 234; 252; 250; 196; 202; 78; 103; 104; 31; 125; 178; 94; 234; 138; 177; 204; 182; 146; 100; 248; 130; 192;
   139; 220; 36; 232; 87; 32; 51; 109; 23; 51; 13; 203; 112; 2; 139; 229; 227; 125; 44; 152; 50; 0; 32; 180; 189; 238; 137; 170; 102; 19;
   52; 157; 156; 143; 222; 22; 9; 145; 73; 128; 80; 87; 57; 174; 53; 1; 226; 37; 142; 23; 8; 224; 240; 119; 152; 157; 10; 79; 210; 118;
   218; 196; 81; 69; 50; 139; 225; 171; 238; 16; 22; 246; 149; 125; 50; 118; 178; 181; 25; 103; 115; 254; 192; 198; 169; 210; 169; 35; 240;
   43; 252; 177; 182; 236; 62; 17; 96; 164; 34; 199; 255; 37; 195; 237; 108; 107; 121; 2; 61; 93; 98; 54; 217; 50; 228; 110; 71; 103; 133;
   139; 35; 10; 213; 30; 208; 244; 23; 29; 204; 63; 95; 218; 18; 226; 53; 37; 82; 194; 214; 148; 62; 131; 96; 85; 248; 141; 84; 245; 71;
   111; 56; 3; 59; 215; 154; 148; 138; 59; 159; 146; 105; 15; 205; 184; 244; 98; 120; 34; 71; 224; 174; 237; 253; 246; 228; 197; 140; 14;
   181; 24; 177; 70; 58; 111; 189; 222; 80; 63; 28; 53; 40; 249; 237; 30; 232; 21; 49; 169; 247; 177; 157; 225; 52; 129; 32; 31; 34; 212;
   183; 198; 89; 139; 144; 152; 223; 166; 185; 168; 142; 108; 21; 85; 92; 65; 150; 130; 13; 169; 95; 169; 243; 119; 29; 238; 107; 76; 148;
   198; 198; 155; 120; 91; 3; 189; 169; 135; 221; 36; 4; 112; 206; 108; 82; 230; 33; 99; 109; 40; 108; 48; 130; 5; 96; 48; 130; 3; 72; 160;
   3; 2; 1; 2; 2; 9; 0; 232; 250; 25; 99; 20; 210; 250; 24; 48; 13; 6; 9; 42; 134; 72; 134; 247; 13; 1; 1; 11; 5; 0; 48; 27; 49; 25; 48;
   23; 6; 3; 85; 4; 5; 19; 16; 102; 57; 50; 48; 48; 57; 101; 56; 53; 51; 98; 54; 98; 48; 52; 53; 48; 30; 23; 13; 49; 54; 48; 53; 50; 54;
   49; 54; 50; 56; 53; 50; 90; 23; 13; 50; 54; 48; 53; 50; 52; 49; 54; 50; 56; 53; 50; 90; 48; 27; 49; 25; 48; 23; 6; 3; 85; 4; 5; 19; 16;
   102; 57; 50; 48; 48; 57; 101; 56; 53; 51; 98; 54; 98; 48; 52; 53; 48; 130; 2; 34; 48; 13; 6; 9; 42; 134; 72; 134; 247; 13; 1; 1; 1; 5;
   0; 3; 130; 2; 15; 0; 48; 130; 2; 10; 2; 130; 2; 1; 0; 175; 182; 199; 130; 43; 177; 167; 1; 236; 43; 180; 46; 139; 204; 84; 22; 99; 171;
   239; 152; 47; 50; 199; 127; 117; 49; 3; 12; 151; 82; 75; 27; 95; 232; 9; 251; 199; 42; 169; 69; 31; 116; 60; 189; 154; 111; 19; 53; 116;
   74; 165; 94; 119; 246; 182; 172; 53; 53; 238; 23; 194; 94; 99; 149; 23; 221; 156; 146; 230; 55; 74; 83; 203; 254; 37; 143; 143; 251;
   182; 253; 18; 147; 120; 162; 42; 76; 169; 156; 69; 45; 71; 165; 159; 50; 1; 244; 65; 151; 202; 28; 205; 126; 118; 47; 178; 245; 49; 81;
   182; 254; 178; 255; 253; 43; 111; 228; 254; 91; 198; 189; 158; 195; 75; 254; 8; 35; 157; 170; 252; 235; 142; 181; 168; 237; 43; 58; 205;
   156; 94; 58; 119; 144; 225; 181; 20; 66; 121; 49; 89; 133; 152; 17; 173; 158; 178; 169; 107; 189; 215; 165; 124; 147; 169; 28; 65; 252;
   205; 39; 214; 127; 214; 246; 113; 170; 11; 129; 82; 97; 173; 56; 79; 163; 121; 68; 134; 70; 4; 221; 179; 216; 196; 249; 32; 161; 155;
   22; 86; 194; 241; 74; 214; 208; 60; 86; 236; 6; 8; 153; 4; 28; 30; 209; 165; 254; 109; 52; 64; 181; 86; 186; 209; 208; 161; 82; 88; 156;
   83; 229; 93; 55; 7; 98; 240; 18; 46; 239; 145; 134; 27; 27; 14; 108; 76; 128; 146; 116; 153; 192; 233; 190; 192; 184; 62; 59; 193; 249;
   60; 114; 192; 73; 96; 75; 189; 47; 19; 69; 230; 44; 63; 142; 38; 219; 236; 6; 201; 71; 102; 243; 193; 40; 35; 157; 79; 67; 18; 250; 216;
   18; 56; 135; 224; 107; 236; 245; 103; 88; 59; 248; 53; 90; 129; 254; 234; 186; 249; 154; 131; 200; 223; 62; 42; 50; 42; 252; 103; 43;
   241; 32; 177; 53; 21; 139; 104; 33; 206; 175; 48; 155; 110; 238; 119; 249; 136; 51; 176; 24; 218; 161; 14; 69; 31; 6; 163; 116; 213; 7;
   129; 243; 89; 8; 41; 102; 187; 119; 139; 147; 8; 148; 38; 152; 231; 78; 11; 205; 36; 98; 138; 1; 194; 204; 3; 229; 31; 11; 62; 91; 74;
   193; 228; 223; 158; 175; 159; 246; 164; 146; 167; 124; 20; 131; 136; 40; 133; 1; 91; 66; 44; 230; 123; 128; 184; 140; 155; 72; 225; 59;
   96; 122; 181; 69; 199; 35; 255; 140; 68; 248; 242; 211; 104; 185; 246; 82; 13; 49; 20; 94; 191; 158; 134; 42; 215; 29; 246; 163; 191;
   210; 69; 9; 89; 214; 83; 116; 13; 151; 161; 47; 54; 139; 19; 239; 102; 213; 208; 165; 74; 110; 47; 93; 154; 111; 239; 68; 104; 50; 188;
   103; 132; 71; 37; 134; 31; 9; 61; 208; 230; 243; 64; 93; 168; 150; 67; 239; 15; 77; 105; 182; 66; 0; 81; 253; 185; 48; 73; 103; 62; 54;
   149; 5; 128; 211; 205; 244; 251; 208; 139; 197; 132; 131; 149; 38; 0; 99; 2; 3; 1; 0; 1; 163; 129; 166; 48; 129; 163; 48; 29; 6; 3; 85;
   29; 14; 4; 22; 4; 20; 54; 97; 225; 0; 124; 136; 5; 9; 81; 139; 68; 108; 71; 255; 26; 76; 201; 234; 79; 18; 48; 31; 6; 3; 85; 29; 35; 4;
   24; 48; 22; 128; 20; 54; 97; 225; 0; 124; 136; 5; 9; 81; 139; 68; 108; 71; 255; 26; 76; 201; 234; 79; 18; 48; 15; 6; 3; 85; 29; 19; 1;
   1; 255; 4; 5; 48; 3; 1; 1; 255; 48; 14; 6; 3; 85; 29; 15; 1; 1; 255; 4; 4; 3; 2; 1; 134; 48; 64; 6; 3; 85; 29; 31; 4; 57; 48; 55; 48;
   53; 160; 51; 160; 49; 134; 47; 104; 116; 116; 112; 115; 58; 47; 47; 97; 110; 100; 114; 111; 105; 100; 46; 103; 111; 111; 103; 108; 101;
   97; 112; 105; 115; 46; 99; 111; 109; 47; 97; 116; 116; 101; 115; 116; 97; 116; 105; 111; 110; 47; 99; 114; 108; 47; 48; 13; 6; 9; 42;
   134; 72; 134; 247; 13; 1; 1; 11; 5; 0; 3; 130; 2; 1; 0; 32; 200; 195; 141; 75; 220; 169; 87; 27; 70; 140; 137; 47; 255; 114; 170; 198;
   248; 68; 161; 29; 65; 168; 240; 115; 108; 195; 125; 22; 214; 66; 109; 142; 126; 148; 7; 4; 76; 234; 57; 230; 139; 7; 193; 61; 191; 21;
   3; 221; 92; 133; 189; 175; 178; 192; 45; 95; 108; 219; 78; 250; 129; 39; 223; 139; 4; 241; 130; 119; 15; 196; 231; 116; 91; 127; 206;
   170; 135; 18; 154; 136; 1; 206; 142; 155; 192; 203; 150; 55; 155; 77; 38; 168; 45; 48; 253; 156; 47; 142; 237; 109; 193; 190; 47; 132;
   182; 137; 228; 217; 20; 37; 139; 20; 75; 186; 230; 36; 161; 199; 6; 113; 19; 46; 47; 6; 22; 168; 132; 178; 164; 214; 164; 111; 250; 137;
   182; 2; 191; 186; 216; 12; 18; 67; 113; 31; 86; 235; 96; 86; 246; 55; 200; 160; 20; 28; 197; 64; 148; 38; 139; 140; 60; 125; 185; 148;
   179; 92; 13; 205; 108; 178; 171; 194; 218; 254; 226; 82; 2; 61; 45; 234; 12; 214; 195; 104; 190; 163; 230; 65; 72; 134; 246; 177; 229;
   139; 91; 215; 199; 48; 178; 104; 196; 227; 193; 251; 100; 36; 185; 31; 235; 189; 184; 12; 88; 110; 42; 232; 54; 140; 132; 213; 209; 9;
   23; 189; 162; 86; 23; 137; 212; 104; 115; 147; 52; 14; 46; 37; 79; 86; 14; 246; 75; 35; 88; 252; 220; 15; 191; 198; 112; 9; 82; 231; 8;
   191; 252; 198; 39; 80; 12; 31; 102; 232; 30; 161; 124; 9; 141; 122; 46; 155; 24; 128; 27; 122; 180; 172; 113; 88; 125; 52; 93; 204; 131;
   9; 213; 182; 42; 80; 66; 122; 166; 208; 61; 203; 5; 153; 108; 150; 186; 12; 93; 113; 233; 33; 98; 192; 22; 202; 132; 159; 243; 95; 13;
   82; 198; 93; 5; 96; 90; 71; 243; 174; 145; 122; 205; 45; 249; 16; 239; 210; 50; 102; 136; 89; 110; 246; 155; 59; 245; 254; 49; 84; 247;
   174; 184; 128; 160; 167; 60; 160; 77; 148; 194; 206; 131; 23; 238; 180; 61; 94; 255; 88; 131; 227; 54; 245; 242; 73; 218; 172; 164; 137;
   146; 55; 191; 38; 126; 92; 67; 171; 2; 234; 68; 22; 36; 3; 114; 59; 230; 170; 105; 44; 97; 189; 174; 158; 212; 9; 212; 99; 196; 201;
   124; 100; 48; 101; 119; 238; 242; 188; 117; 96; 183; 87; 21; 204; 156; 125; 198; 124; 134; 8; 45; 183; 81; 168; 156; 48; 52; 151; 98;
   176; 120; 35; 133; 135; 92; 241; 163; 198; 22; 110; 10; 227; 193; 45; 55; 78; 45; 79; 24; 70; 243; 24; 116; 75; 216; 121; 181; 135; 50;
   155; 240; 24; 33; 122; 108; 12; 119; 36; 26; 72; 120; 228; 53; 192; 48; 121; 203; 69; 18; 137; 197; 119; 98; 6; 6; 154; 47; 141; 101;
   248; 64; 225; 68; 82; 135; 190; 216; 119; 171; 174; 36; 226; 68; 53; 22; 141; 85; 60; 228].

Definition USRPKEY_NON_AUTHBOUND : bytes :=
  [3; 4; 0; 0; 0; 0; 0; 0; 0; 0; 0; 0; 0; 0; 0; 0; 0; 0; 0; 0; 0; 0; 0; 0; 0; 0; 0; 0; 0; 0; 0; 0; 0; 0; 0; 0; 0; 0; 2; 29; 68; 75; 77; 75;
   0; 0; 0; 0; 2; 0; 0; 0; 4; 0; 0; 0; 138; 193; 8; 19; 124; 71; 186; 9; 14; 0; 0; 0; 2; 0; 0; 0; 3; 0; 0; 0; 0; 0; 0; 0; 0; 0; 0; 0; 0; 0;
   0; 0; 2; 0; 0; 0; 1; 3; 0; 0; 0; 1; 0; 1; 0; 0; 0; 0; 0; 0; 0; 0; 0; 0; 0; 0; 0; 0; 0; 0; 0; 0; 0; 0; 0; 0; 0; 0; 0; 0; 4; 0; 0; 0; 0;
   0; 0; 0; 0; 0; 0; 0; 0; 0; 0; 0; 0; 0; 0; 0; 0; 0; 0; 0; 0; 0; 0; 0; 0; 0; 0; 0; 1; 0; 0; 0; 0; 0; 0; 0; 0; 0; 0; 0; 0; 0; 0; 0; 0; 0;
   0; 0; 0; 0; 0; 0; 0; 0; 0; 0; 0; 0; 0; 0; 0; 0; 0; 0; 0; 0; 0; 0; 0; 0; 0; 0; 0; 0; 1; 1; 0; 0; 0; 0; 0; 0; 0; 0; 0; 0; 0; 0; 0; 1; 0;
   0; 0; 0; 0; 0; 0; 0; 0; 0; 0; 0; 0; 0; 0; 0; 0; 0; 0; 0; 0; 0; 0; 0; 0; 0; 0; 0; 0; 0; 0; 0; 0; 0; 0; 0; 0; 0; 0; 0; 0; 0; 0; 0; 0; 0;
   0; 0; 0; 0; 0; 0; 0; 0; 0; 0; 0; 0; 0; 1; 0; 0; 0; 0; 0; 0; 0; 0; 0; 0; 0; 0; 1; 0; 0; 0; 0; 0; 1; 176; 173; 1; 0; 1; 117; 21; 3; 0; 0;
   0; 0; 0; 0; 1; 0; 0; 0; 0; 0; 0; 0; 0; 0; 0; 0; 0; 0; 0; 0; 0; 0; 0; 0; 0; 0; 0; 0; 0; 0; 0; 0; 0; 0; 0; 0; 0; 0; 0; 0; 0; 1; 96; 96;
   140; 49; 118; 1; 0; 0; 0; 0; 0; 0; 0; 0; 185; 97; 52; 1; 1; 185; 97; 52; 1; 1; 0; 0; 0; 0; 0; 0; 0; 0; 0; 0; 161; 1; 0; 0; 124; 0; 0; 0;
   201; 205; 203; 202; 250; 55; 226; 199; 86; 140; 35; 246; 127; 209; 140; 1; 193; 79; 101; 215; 27; 16; 197; 10; 119; 19; 242; 130; 222;
   99; 104; 95; 236; 47; 149; 52; 101; 93; 47; 153; 252; 237; 13; 27; 233; 244; 131; 56; 113; 131; 130; 100; 81; 171; 83; 177; 250; 115; 0;
   32; 36; 221; 28; 19; 0; 1; 0; 0; 28; 0; 0; 0; 32; 0; 0; 0; 60; 0; 0; 0; 32; 0; 0; 0; 92; 0; 0; 0; 32; 0; 0; 0; 229; 165; 39; 181; 102;
   118; 108; 116; 54; 215; 45; 173; 50; 73; 212; 165; 237; 178; 156; 75; 189; 184; 225; 121; 159; 138; 114; 195; 223; 139; 153; 73; 168;
   94; 16; 0; 214; 166; 88; 73; 90; 162; 113; 179; 84; 211; 105; 183; 254; 81; 197; 228; 148; 255; 16; 215; 70; 1; 120; 67; 140; 156; 190;
   47; 154; 75; 91; 114; 7; 77; 143; 37; 80; 30; 178; 70; 240; 238; 80; 115; 106; 123; 163; 233; 177; 8; 129; 0; 223; 14; 201; 195; 44; 19;
   100; 161].

Definition USRPKEY_NON_AUTHBOUND_CHR : bytes :=
  [3; 6; 0; 0; 0; 0; 0; 0; 0; 0; 0; 0; 0; 0; 0; 0; 0; 0; 0; 0; 0; 0; 0; 0; 0; 0; 0; 0; 0; 0; 0; 0; 0; 0; 0; 0; 0; 0; 0; 153; 0; 0; 0; 0;
   14; 0; 0; 0; 109; 0; 0; 0; 1; 0; 0; 32; 2; 0; 0; 0; 1; 0; 0; 32; 3; 0; 0; 0; 5; 0; 0; 32; 4; 0; 0; 0; 2; 0; 0; 16; 3; 0; 0; 0; 3; 0; 0;
   48; 0; 1; 0; 0; 10; 0; 0; 16; 1; 0; 0; 0; 45; 1; 0; 16; 0; 0; 0; 0; 247; 1; 0; 112; 1; 190; 2; 0; 16; 0; 0; 0; 0; 193; 2; 0; 48; 176;
   173; 1; 0; 194; 2; 0; 48; 117; 21; 3; 0; 207; 2; 0; 48; 185; 97; 52; 1; 206; 2; 0; 48; 185; 97; 52; 1; 48; 1; 0; 16; 0; 0; 0; 0; 0; 0;
   0; 0; 2; 0; 0; 0; 20; 0; 0; 0; 189; 2; 0; 96; 96; 96; 140; 49; 118; 1; 0; 0; 245; 1; 0; 48; 0; 0; 0; 0].

Definition USRCERT_NON_AUTHBOUND : bytes :=
  [3; 1; 0; 0; 0; 0; 0; 0; 0; 0; 0; 0; 0; 0; 0; 0; 0; 0; 0; 0; 0; 0; 0; 0; 0; 0; 0; 0; 0; 0; 0; 0; 0; 0; 0; 0; 0; 0; 2; 151; 48; 130; 2;
   147; 48; 130; 2; 57; 160; 3; 2; 1; 2; 2; 1; 1; 48; 10; 6; 8; 42; 134; 72; 206; 61; 4; 3; 2; 48; 41; 49; 25; 48; 23; 6; 3; 85; 4; 5; 19;
   16; 52; 52; 97; 56; 49; 101; 97; 101; 99; 53; 49; 100; 98; 48; 98; 49; 49; 12; 48; 10; 6; 3; 85; 4; 12; 12; 3; 84; 69; 69; 48; 32; 23;
   13; 55; 48; 48; 49; 48; 49; 48; 48; 48; 48; 48; 48; 90; 24; 15; 50; 49; 48; 54; 48; 50; 48; 55; 48; 54; 50; 56; 49; 53; 90; 48; 31; 49;
   29; 48; 27; 6; 3; 85; 4; 3; 12; 20; 65; 110; 100; 114; 111; 105; 100; 32; 75; 101; 121; 115; 116; 111; 114; 101; 32; 75; 101; 121; 48;
   89; 48; 19; 6; 7; 42; 134; 72; 206; 61; 2; 1; 6; 8; 42; 134; 72; 206; 61; 3; 1; 7; 3; 66; 0; 4; 168; 94; 16; 0; 214; 166; 88; 73; 90;
   162; 113; 179; 84; 211; 105; 183; 254; 81; 197; 228; 148; 255; 16; 215; 70; 1; 120; 67; 140; 156; 190; 47; 154; 75; 91; 114; 7; 77; 143;
   37; 80; 30; 178; 70; 240; 238; 80; 115; 106; 123; 163; 233; 177; 8; 129; 0; 223; 14; 201; 195; 44; 19; 100; 161; 163; 130; 1; 88; 48;
   130; 1; 84; 48; 14; 6; 3; 85; 29; 15; 1; 1; 255; 4; 4; 3; 2; 7; 128; 48; 130; 1; 64; 6; 10; 43; 6; 1; 4; 1; 214; 121; 2; 1; 17; 4; 130;
   1; 48; 48; 130; 1; 44; 2; 1; 3; 10; 1; 1; 2; 1; 4; 10; 1; 1; 4; 8; 97; 115; 100; 102; 106; 107; 108; 59; 4; 0; 48; 107; 191; 133; 61; 8;
   2; 6; 1; 118; 49; 140; 96; 96; 191; 133; 69; 91; 4; 89; 48; 87; 49; 49; 48; 47; 4; 42; 99; 111; 109; 46; 103; 111; 111; 103; 108; 101;
   46; 101; 120; 112; 101; 114; 105; 109; 101; 110; 116; 115; 46; 106; 100; 97; 110; 105; 115; 46; 107; 101; 121; 115; 116; 111; 114; 101;
   116; 111; 111; 108; 2; 1; 1; 49; 34; 4; 32; 48; 224; 120; 69; 171; 215; 193; 116; 73; 1; 15; 167; 127; 137; 222; 17; 163; 139; 62; 49;
   107; 241; 24; 180; 88; 27; 215; 179; 88; 169; 194; 129; 48; 129; 164; 161; 8; 49; 6; 2; 1; 2; 2; 1; 3; 162; 3; 2; 1; 3; 163; 4; 2; 2; 1;
   0; 165; 5; 49; 3; 2; 1; 4; 170; 3; 2; 1; 1; 191; 131; 119; 2; 5; 0; 191; 133; 62; 3; 2; 1; 0; 191; 133; 64; 76; 48; 74; 4; 32; 0; 0; 0;
   0; 0; 0; 0; 0; 0; 0; 0; 0; 0; 0; 0; 0; 0; 0; 0; 0; 0; 0; 0; 0; 0; 0; 0; 0; 0; 0; 0; 0; 1; 1; 0; 10; 1; 2; 4; 32; 231; 173; 60; 19; 194;
   115; 65; 96; 215; 26; 124; 0; 94; 20; 216; 174; 6; 93; 34; 208; 181; 245; 106; 186; 31; 130; 167; 140; 23; 44; 253; 15; 191; 133; 65; 5;
   2; 3; 1; 173; 176; 191; 133; 66; 5; 2; 3; 3; 21; 117; 191; 133; 78; 6; 2; 4; 1; 52; 97; 185; 191; 133; 79; 6; 2; 4; 1; 52; 97; 185; 48;
   10; 6; 8; 42; 134; 72; 206; 61; 4; 3; 2; 3; 72; 0; 48; 69; 2; 32; 63; 18; 118; 76; 133; 253; 201; 104; 13; 102; 11; 96; 61; 255; 124;
   139; 17; 156; 38; 239; 219; 74; 195; 55; 64; 6; 169; 22; 199; 153; 133; 137; 2; 33; 0; 199; 2; 243; 33; 96; 23; 5; 126; 54; 51; 33; 12;
   29; 39; 195; 143; 214; 216; 213; 209; 100; 76; 5; 221; 19; 14; 164; 243; 56; 191; 24; 213].

Definition CACERT_NON_AUTHBOUND : bytes :=
  [3; 1; 0; 0; 0; 0; 0; 0; 0; 0; 0; 0; 0; 0; 0; 0; 0; 0; 0; 0; 0; 0; 0; 0; 0; 0; 0; 0; 0; 0; 0; 0; 0; 0; 0; 0; 0; 0; 11; 99; 48; 130; 2;
   38; 48; 130; 1; 171; 160; 3; 2; 1; 2; 2; 10; 5; 132; 32; 38; 144; 118; 35; 88; 113; 119; 48; 10; 6; 8; 42; 134; 72; 206; 61; 4; 3; 2;
   48; 41; 49; 25; 48; 23; 6; 3; 85; 4; 5; 19; 16; 52; 100; 55; 52; 97; 48; 101; 48; 49; 97; 97; 102; 51; 100; 100; 102; 49; 12; 48; 10; 6;
   3; 85; 4; 12; 12; 3; 84; 69; 69; 48; 30; 23; 13; 49; 56; 48; 51; 50; 49; 50; 49; 50; 53; 49; 51; 90; 23; 13; 50; 56; 48; 51; 49; 56; 50;
   49; 50; 53; 49; 51; 90; 48; 41; 49; 25; 48; 23; 6; 3; 85; 4; 5; 19; 16; 52; 52; 97; 56; 49; 101; 97; 101; 99; 53; 49; 100; 98; 48; 98;
   49; 49; 12; 48; 10; 6; 3; 85; 4; 12; 12; 3; 84; 69; 69; 48; 89; 48; 19; 6; 7; 42; 134; 72; 206; 61; 2; 1; 6; 8; 42; 134; 72; 206; 61; 3;
   1; 7; 3; 66; 0; 4; 250; 53; 143; 176; 49; 214; 48; 136; 222; 176; 41; 205; 108; 125; 78; 169; 206; 110; 157; 122; 172; 151; 146; 194;
   69; 181; 226; 208; 193; 82; 168; 80; 37; 215; 137; 88; 123; 4; 182; 102; 147; 42; 38; 93; 58; 177; 91; 119; 48; 191; 149; 170; 139; 67;
   195; 191; 67; 183; 238; 172; 115; 220; 3; 106; 163; 129; 186; 48; 129; 183; 48; 29; 6; 3; 85; 29; 14; 4; 22; 4; 20; 25; 159; 135; 139;
   86; 244; 153; 58; 105; 150; 155; 141; 158; 100; 170; 86; 180; 127; 139; 77; 48; 31; 6; 3; 85; 29; 35; 4; 24; 48; 22; 128; 20; 169; 181;
   244; 41; 201; 26; 88; 189; 47; 152; 45; 103; 115; 49; 6; 135; 224; 223; 205; 98; 48; 15; 6; 3; 85; 29; 19; 1; 1; 255; 4; 5; 48; 3; 1; 1;
   255; 48; 14; 6; 3; 85; 29; 15; 1; 1; 255; 4; 4; 3; 2; 2; 4; 48; 84; 6; 3; 85; 29; 31; 4; 77; 48; 75; 48; 73; 160; 71; 160; 69; 134; 67;
   104; 116; 116; 112; 115; 58; 47; 47; 97; 110; 100; 114; 111; 105; 100; 46; 103; 111; 111; 103; 108; 101; 97; 112; 105; 115; 46; 99; 111;
   109; 47; 97; 116; 116; 101; 115; 116; 97; 116; 105; 111; 110; 47; 99; 114; 108; 47; 48; 53; 56; 52; 50; 48; 50; 54; 57; 48; 55; 54; 50;
   51; 53; 56; 55; 49; 55; 55; 48; 10; 6; 8; 42; 134; 72; 206; 61; 4; 3; 2; 3; 105; 0; 48; 102; 2; 49; 0; 227; 53; 198; 168; 178; 117; 156;
   86; 123; 110; 97; 128; 101; 44; 6; 136; 221; 185; 104; 77; 60; 104; 73; 102; 1; 78; 48; 29; 243; 236; 165; 81; 92; 191; 231; 131; 51;
   189; 20; 238; 35; 240; 207; 177; 55; 28; 39; 120; 2; 49; 0; 148; 203; 8; 61; 45; 62; 105; 84; 95; 99; 227; 228; 116; 114; 226; 255; 139;
   38; 210; 134; 192; 151; 50; 64; 221; 124; 31; 80; 96; 87; 207; 46; 35; 243; 51; 228; 251; 111; 91; 124; 198; 49; 133; 174; 224; 78; 68;
   169; 48; 130; 3; 209; 48; 130; 1; 185; 160; 3; 2; 1; 2; 2; 10; 3; 136; 38; 103; 96; 101; 137; 150; 133; 127; 48; 13; 6; 9; 42; 134; 72;
   134; 247; 13; 1; 1; 11; 5; 0; 48; 27; 49; 25; 48; 23; 6; 3; 85; 4; 5; 19; 16; 102; 57; 50; 48; 48; 57; 101; 56; 53; 51; 98; 54; 98; 48;
   52; 53; 48; 30; 23; 13; 49; 56; 48; 51; 50; 49; 50; 49; 49; 52; 49; 52; 90; 23; 13; 50; 56; 48; 51; 49; 56; 50; 49; 49; 52; 49; 52; 90;
   48; 41; 49; 25; 48; 23; 6; 3; 85; 4; 5; 19; 16; 52; 100; 55; 52; 97; 48; 101; 48; 49; 97; 97; 102; 51; 100; 100; 102; 49; 12; 48; 10; 6;
   3; 85; 4; 12; 12; 3; 84; 69; 69; 48; 118; 48; 16; 6; 7; 42; 134; 72; 206; 61; 2; 1; 6; 5; 43; 129; 4; 0; 34; 3; 98; 0; 4; 213; 245; 14;
   226; 141; 243; 51; 74; 106; 119; 144; 156; 194; 37; 200; 138; 50; 174; 59; 180; 156; 74; 149; 34; 12; 186; 10; 118; 202; 203; 36; 12;
   132; 58; 131; 118; 4; 35; 49; 58; 160; 130; 128; 38; 101; 253; 47; 68; 244; 150; 216; 183; 220; 172; 85; 52; 116; 65; 13; 13; 127; 189;
   227; 244; 40; 223; 116; 74; 23; 77; 231; 178; 155; 43; 36; 192; 158; 86; 0; 82; 187; 117; 176; 213; 106; 65; 22; 8; 206; 50; 219; 143;
   139; 32; 115; 114; 163; 129; 182; 48; 129; 179; 48; 29; 6; 3; 85; 29; 14; 4; 22; 4; 20; 169; 181; 244; 41; 201; 26; 88; 189; 47; 152;
   45; 103; 115; 49; 6; 135; 224; 223; 205; 98; 48; 31; 6; 3; 85; 29; 35; 4; 24; 48; 22; 128; 20; 54; 97; 225; 0; 124; 136; 5; 9; 81; 139;
   68; 108; 71; 255; 26; 76; 201; 234; 79; 18; 48; 15; 6; 3; 85; 29; 19; 1; 1; 255; 4; 5; 48; 3; 1; 1; 255; 48; 14; 6; 3; 85; 29; 15; 1; 1;
   255; 4; 4; 3; 2; 2; 4; 48; 80; 6; 3; 85; 29; 31; 4; 73; 48; 71; 48; 69; 160; 67; 160; 65; 134; 63; 104; 116; 116; 112; 115; 58; 47; 47;
   97; 110; 100; 114; 111; 105; 100; 46; 103; 111; 111; 103; 108; 101; 97; 112; 105; 115; 46; 99; 111; 109; 47; 97; 116; 116; 101; 115;
   116; 97; 116; 105; 111; 110; 47; 99; 114; 108; 47; 69; 56; 70; 65; 49; 57; 54; 51; 49; 52; 68; 50; 70; 65; 49; 56; 48; 13; 6; 9; 42;
   134; 72; 134; 247; 13; 1; 1; 11; 5; 0; 3; 130; 2; 1; 0; 50; 206; 4; 204; 77; 130; 173; 29; 222; 165; 207; 226; 26; 163; 121; 247; 237;
   136; 30; 14; 103; 142; 252; 190; 123; 4; 183; 38; 89; 202; 149; 71; 138; 16; 63; 229; 20; 25; 236; 212; 219; 51; 195; 161; 81; 245; 6;
   94; 48; 102; 31; 210; 88; 47; 20; 3; 123; 53; 131; 134; 70; 220; 238; 4; 48; 161; 15; 196; 22; 201; 142; 99; 208; 218; 92; 176; 247; 62;
   33; 182; 165; 4; 7; 90; 1; 140; 49; 31; 62; 58; 175; 141; 49; 62; 182; 18; 20; 240; 13; 44; 204; 108; 184; 122; 191; 210; 107; 95; 39;
   176; 255; 192; 170; 222; 222; 246; 49; 109; 243; 149; 194; 212; 144; 220; 130; 79; 36; 13; 133; 242; 187; 196; 88; 201; 250; 221; 150;
   65; 43; 31; 76; 16; 28; 154; 87; 85; 15; 98; 252; 141; 162; 202; 132; 123; 22; 96; 232; 98; 206; 146; 133; 19; 240; 99; 131; 216; 91;
   168; 116; 120; 181; 40; 219; 108; 201; 110; 133; 133; 82; 63; 216; 103; 174; 244; 9; 190; 207; 140; 127; 114; 178; 200; 147; 198; 210;
   243; 56; 116; 113; 34; 214; 146; 118; 177; 174; 20; 90; 9; 216; 175; 29; 175; 72; 34; 92; 48; 133; 142; 194; 254; 97; 175; 195; 210; 76;
   146; 83; 164; 117; 31; 120; 234; 252; 250; 196; 202; 78; 103; 104; 31; 125; 178; 94; 234; 138; 177; 204; 182; 146; 100; 248; 130; 192;
   139; 220; 36; 232; 87; 32; 51; 109; 23; 51; 13; 203; 112; 2; 139; 229; 227; 125; 44; 152; 50; 0; 32; 180; 189; 238; 137; 170; 102; 19;
   52; 157; 156; 143; 222; 22; 9; 145; 73; 128; 80; 87; 57; 174; 53; 1; 226; 37; 142; 23; 8; 224; 240; 119; 152; 157; 10; 79; 210; 118;
   218; 196; 81; 69; 50; 139; 225; 171; 238; 16; 22; 246; 149; 125; 50; 118; 178; 181; 25; 103; 115; 254; 192; 198; 169; 210; 169; 35; 240;
   43; 252; 177; 182; 236; 62; 17; 96; 164; 34; 199; 255; 37; 195; 237; 108; 107; 121; 2; 61; 93; 98; 54; 217; 50; 228; 110; 71; 103; 133;
   139; 35; 10; 213; 30; 208; 244; 23; 29; 204; 63; 95; 218; 18; 226; 53; 37; 82; 194; 214; 148; 62; 131; 96; 85; 248; 141; 84; 245; 71;
   111; 56; 3; 59; 215; 154; 148; 138; 59; 159; 146; 105; 15; 205; 184; 244; 98; 120; 34; 71; 224; 174; 237; 253; 246; 228; 197; 140; 14;
   181; 24; 177; 70; 58; 111; 189; 222; 80; 63; 28; 53; 40; 249; 237; 30; 232; 21; 49; 169; 247; 177; 157; 225; 52; 129; 32; 31; 34; 212;
   183; 198; 89; 139; 144; 152; 223; 166; 185; 168; 142; 108; 21; 85; 92; 65; 150; 130; 13; 169; 95; 169; 243; 119; 29; 238; 107; 76; 148;
   198; 198; 155; 120; 91; 3; 189; 169; 135; 221; 36; 4; 112; 206; 108; 82; 230; 33; 99; 109; 40; 108; 48; 130; 5; 96; 48; 130; 3; 72; 160;
   3; 2; 1; 2; 2; 9; 0; 232; 250; 25; 99; 20; 210; 250; 24; 48; 13; 6; 9; 42; 134; 72; 134; 247; 13; 1; 1; 11; 5; 0; 48; 27; 49; 25; 48;
   23; 6; 3; 85; 4; 5; 19; 16; 102; 57; 50; 48; 48; 57; 101; 56; 53; 51; 98; 54; 98; 48; 52; 53; 48; 30; 23; 13; 49; 54; 48; 53; 50; 54;
   49; 54; 50; 56; 53; 50; 90; 23; 13; 50; 54; 48; 53; 50; 52; 49; 54; 50; 56; 53; 50; 90; 48; 27; 49; 25; 48; 23; 6; 3; 85; 4; 5; 19; 16;
   102; 57; 50; 48; 48; 57; 101; 56; 53; 51; 98; 54; 98; 48; 52; 53; 48; 130; 2; 34; 48; 13; 6; 9; 42; 134; 72; 134; 247; 13; 1; 1; 1; 5;
   0; 3; 130; 2; 15; 0; 48; 130; 2; 10; 2; 130; 2; 1; 0; 175; 182; 199; 130; 43; 177; 167; 1; 236; 43; 180; 46; 139; 204; 84; 22; 99; 171;
   239; 152; 47; 50; 199; 127; 117; 49; 3; 12; 151; 82; 75; 27; 95; 232; 9; 251; 199; 42; 169; 69; 31; 116; 60; 189; 154; 111; 19; 53; 116;
   74; 165; 94; 119; 246; 182; 172; 53; 53; 238; 23; 194; 94; 99; 149; 23; 221; 156; 146; 230; 55; 74; 83; 203; 254; 37; 143; 143; 251;
   182; 253; 18; 147; 120; 162; 42; 76; 169; 156; 69; 45; 71; 165; 159; 50; 1; 244; 65; 151; 202; 28; 205; 126; 118; 47; 178; 245; 49; 81;
   182; 254; 178; 255; 253; 43; 111; 228; 254; 91; 198; 189; 158; 195; 75; 254; 8; 35; 157; 170; 252; 235; 142; 181; 168; 237; 43; 58; 205;
   156; 94; 58; 119; 144; 225; 181; 20; 66; 121; 49; 89; 133; 152; 17; 173; 158; 178; 169; 107; 189; 215; 165; 124; 147; 169; 28; 65; 252;
   205; 39; 214; 127; 214; 246; 113; 170; 11; 129; 82; 97; 173; 56; 79; 163; 121; 68; 134; 70; 4; 221; 179; 216; 196; 249; 32; 161; 155;
   22; 86; 194; 241; 74; 214; 208; 60; 86; 236; 6; 8; 153; 4; 28; 30; 209; 165; 254; 109; 52; 64; 181; 86; 186; 209; 208; 161; 82; 88; 156;
   83; 229; 93; 55; 7; 98; 240; 18; 46; 239; 145; 134; 27; 27; 14; 108; 76; 128; 146; 116; 153; 192; 233; 190; 192; 184; 62; 59; 193; 249;
   60; 114; 192; 73; 96; 75; 189; 47; 19; 69; 230; 44; 63; 142; 38; 219; 236; 6; 201; 71; 102; 243; 193; 40; 35; 157; 79; 67; 18; 250; 216;
   18; 56; 135; 224; 107; 236; 245; 103; 88; 59; 248; 53; 90; 129; 254; 234; 186; 249; 154; 131; 200; 223; 62; 42; 50; 42; 252; 103; 43;
   241; 32; 177; 53; 21; 139; 104; 33; 206; 175; 48; 155; 110; 238; 119; 249; 136; 51; 176; 24; 218; 161; 14; 69; 31; 6; 163; 116; 213; 7;
   129; 243; 89; 8; 41; 102; 187; 119; 139; 147; 8; 148; 38; 152; 231; 78; 11; 205; 36; 98; 138; 1; 194; 204; 3; 229; 31; 11; 62; 91; 74;
   193; 228; 223; 158; 175; 159; 246; 164; 146; 167; 124; 20; 131; 136; 40; 133; 1; 91; 66; 44; 230; 123; 128; 184; 140; 155; 72; 225; 59;
   96; 122; 181; 69; 199; 35; 255; 140; 68; 248; 242; 211; 104; 185; 246; 82; 13; 49; 20; 94; 191; 158; 134; 42; 215; 29; 246; 163; 191;
   210; 69; 9; 89; 214; 83; 116; 13; 151; 161; 47; 54; 139; 19; 239; 102; 213; 208; 165; 74; 110; 47; 93; 154; 111; 239; 68; 104; 50; 188;
   103; 132; 71; 37; 134; 31; 9; 61; 208; 230; 243; 64; 93; 168; 150; 67; 239; 15; 77; 105; 182; 66; 0; 81; 253; 185; 48; 73; 103; 62; 54;
   149; 5; 128; 211; 205; 244; 251; 208; 139; 197; 132; 131; 149; 38; 0; 99; 2; 3; 1; 0; 1; 163; 129; 166; 48; 129; 163; 48; 29; 6; 3; 85;
   29; 14; 4; 22; 4; 20; 54; 97; 225; 0; 124; 136; 5; 9; 81; 139; 68; 108; 71; 255; 26; 76; 201; 234; 79; 18; 48; 31; 6; 3; 85; 29; 35; 4;
   24; 48; 22; 128; 20; 54; 97; 225; 0; 124; 136; 5; 9; 81; 139; 68; 108; 71; 255; 26; 76; 201; 234; 79; 18; 48; 15; 6; 3; 85; 29; 19; 1;
   1; 255; 4; 5; 48; 3; 1; 1; 255; 48; 14; 6; 3; 85; 29; 15; 1; 1; 255; 4; 4; 3; 2; 1; 134; 48; 64; 6; 3; 85; 29; 31; 4; 57; 48; 55; 48;
   53; 160; 51; 160; 49; 134; 47; 104; 116; 116; 112; 115; 58; 47; 47; 97; 110; 100; 114; 111; 105; 100; 46; 103; 111; 111; 103; 108; 101;
   97; 112; 105; 115; 46; 99; 111; 109; 47; 97; 116; 116; 101; 115; 116; 97; 116; 105; 111; 110; 47; 99; 114; 108; 47; 48; 13; 6; 9; 42;
   134; 72; 134; 247; 13; 1; 1; 11; 5; 0; 3; 130; 2; 1; 0; 32; 200; 195; 141; 75; 220; 169; 87; 27; 70; 140; 137; 47; 255; 114; 170; 198;
   248; 68; 161; 29; 65; 168; 240; 115; 108; 195; 125; 22; 214; 66; 109; 142; 126; 148; 7; 4; 76; 234; 57; 230; 139; 7; 193; 61; 191; 21;
   3; 221; 92; 133; 189; 175; 178; 192; 45; 95; 108; 219; 78; 250; 129; 39; 223; 139; 4; 241; 130; 119; 15; 196; 231; 116; 91; 127; 206;
   170; 135; 18; 154; 136; 1; 206; 142; 155; 192; 203; 150; 55; 155; 77; 38; 168; 45; 48; 253; 156; 47; 142; 237; 109; 193; 190; 47; 132;
   182; 137; 228; 217; 20; 37; 139; 20; 75; 186; 230; 36; 161; 199; 6; 113; 19; 46; 47; 6; 22; 168; 132; 178; 164; 214; 164; 111; 250; 137;
   182; 2; 191; 186; 216; 12; 18; 67; 113; 31; 86; 235; 96; 86; 246; 55; 200; 160; 20; 28; 197; 64; 148; 38; 139; 140; 60; 125; 185; 148;
   179; 92; 13; 205; 108; 178; 171; 194; 218; 254; 226; 82; 2; 61; 45; 234; 12; 214; 195; 104; 190; 163; 230; 65; 72; 134; 246; 177; 229;
   139; 91; 215; 199; 48; 178; 104; 196; 227; 193; 251; 100; 36; 185; 31; 235; 189; 184; 12; 88; 110; 42; 232; 54; 140; 132; 213; 209; 9;
   23; 189; 162; 86; 23; 137; 212; 104; 115; 147; 52; 14; 46; 37; 79; 86; 14; 246; 75; 35; 88; 252; 220; 15; 191; 198; 112; 9; 82; 231; 8;
   191; 252; 198; 39; 80; 12; 31; 102; 232; 30; 161; 124; 9; 141; 122; 46; 155; 24; 128; 27; 122; 180; 172; 113; 88; 125; 52; 93; 204; 131;
   9; 213; 182; 42; 80; 66; 122; 166; 208; 61; 203; 5; 153; 108; 150; 186; 12; 93; 113; 233; 33; 98; 192; 22; 202; 132; 159; 243; 95; 13;
   82; 198; 93; 5; 96; 90; 71; 243; 174; 145; 122; 205; 45; 249; 16; 239; 210; 50; 102; 136; 89; 110; 246; 155; 59; 245; 254; 49; 84; 247;
   174; 184; 128; 160; 167; 60; 160; 77; 148; 194; 206; 131; 23; 238; 180; 61; 94; 255; 88; 131; 227; 54; 245; 242; 73; 218; 172; 164; 137;
   146; 55; 191; 38; 126; 92; 67; 171; 2; 234; 68; 22; 36; 3; 114; 59; 230; 170; 105; 44; 97; 189; 174; 158; 212; 9; 212; 99; 196; 201;
   124; 100; 48; 101; 119; 238; 242; 188; 117; 96; 183; 87; 21; 204; 156; 125; 198; 124; 134; 8; 45; 183; 81; 168; 156; 48; 52; 151; 98;
   176; 120; 35; 133; 135; 92; 241; 163; 198; 22; 110; 10; 227; 193; 45; 55; 78; 45; 79; 24; 70; 243; 24; 116; 75; 216; 121; 181; 135; 50;
   155; 240; 24; 33; 122; 108; 12; 119; 36; 26; 72; 120; 228; 53; 192; 48; 121; 203; 69; 18; 137; 197; 119; 98; 6; 6; 154; 47; 141; 101;
   248; 64; 225; 68; 82; 135; 190; 216; 119; 171; 174; 36; 226; 68; 53; 22; 141; 85; 60; 228].

Definition DECRYPTED_USRPKEY_AUTHBOUND : bytes :=
  [68; 75; 77; 75; 0; 0; 0; 0; 2; 0; 0; 0; 4; 0; 0; 0; 198; 21; 58; 8; 30; 67; 186; 122; 15; 0; 0; 0; 2; 0; 0; 0; 3; 0; 0; 0; 0; 0; 0; 0;
   0; 0; 0; 0; 0; 0; 0; 0; 2; 0; 0; 0; 1; 3; 0; 0; 0; 1; 0; 1; 0; 0; 0; 0; 0; 0; 0; 0; 0; 0; 0; 0; 0; 0; 0; 0; 0; 0; 0; 0; 0; 0; 0; 0; 0;
   0; 4; 0; 0; 0; 0; 0; 0; 0; 0; 0; 0; 0; 0; 0; 0; 0; 0; 0; 0; 0; 0; 0; 0; 0; 0; 0; 0; 0; 0; 0; 0; 0; 1; 0; 0; 0; 0; 0; 0; 0; 0; 0; 0; 0;
   0; 0; 0; 0; 0; 0; 0; 0; 0; 0; 0; 0; 0; 0; 0; 0; 0; 0; 0; 0; 0; 0; 0; 0; 0; 0; 0; 0; 0; 0; 0; 0; 0; 0; 1; 1; 0; 0; 0; 0; 0; 0; 0; 0; 0;
   0; 0; 0; 0; 1; 0; 0; 0; 0; 0; 0; 0; 0; 0; 0; 0; 0; 0; 0; 0; 240; 126; 125; 180; 198; 215; 37; 29; 0; 0; 0; 0; 0; 0; 0; 0; 0; 0; 0; 0; 0;
   0; 0; 0; 0; 0; 0; 0; 0; 0; 0; 0; 0; 0; 0; 0; 0; 0; 0; 0; 1; 0; 0; 0; 0; 1; 2; 0; 0; 0; 0; 0; 0; 0; 0; 0; 0; 1; 0; 0; 0; 0; 0; 1; 176;
   173; 1; 0; 1; 117; 21; 3; 0; 0; 0; 0; 0; 0; 1; 0; 0; 0; 0; 0; 0; 0; 0; 0; 0; 0; 0; 0; 0; 0; 0; 0; 0; 0; 0; 0; 0; 0; 0; 0; 0; 0; 0; 0; 0;
   0; 0; 0; 0; 0; 0; 1; 16; 157; 139; 49; 118; 1; 0; 0; 0; 0; 0; 0; 0; 0; 185; 97; 52; 1; 1; 185; 97; 52; 1; 1; 0; 0; 0; 0; 0; 0; 0; 0; 0;
   0; 161; 1; 0; 0; 124; 0; 0; 0; 55; 145; 105; 235; 37; 30; 207; 108; 171; 225; 145; 221; 46; 248; 134; 32; 151; 84; 35; 11; 10; 12; 53;
   203; 205; 156; 96; 68; 41; 179; 233; 132; 169; 145; 217; 113; 98; 69; 124; 43; 115; 245; 16; 107; 197; 53; 167; 54; 203; 101; 13; 13;
   169; 58; 23; 209; 131; 8; 34; 228; 58; 161; 17; 172; 0; 1; 0; 0; 28; 0; 0; 0; 32; 0; 0; 0; 60; 0; 0; 0; 32; 0; 0; 0; 92; 0; 0; 0; 32; 0;
   0; 0; 77; 172; 151; 42; 201; 252; 89; 70; 154; 93; 159; 85; 32; 145; 163; 21; 55; 187; 134; 180; 3; 203; 120; 72; 8; 10; 173; 68; 53;
   20; 13; 108; 32; 22; 133; 230; 127; 241; 14; 153; 27; 58; 198; 194; 131; 10; 29; 164; 241; 146; 118; 136; 75; 106; 205; 178; 142; 241;
   80; 88; 210; 105; 222; 87; 156; 156; 41; 4; 3; 242; 77; 18; 119; 156; 98; 188; 117; 180; 171; 122; 188; 160; 143; 96; 94; 205; 206; 58;
   216; 9; 235; 157; 64; 219; 88; 83].

Definition LOADED_CERT_AUTHBOUND : bytes :=
  [48; 130; 2; 147; 48; 130; 2; 58; 160; 3; 2; 1; 2; 2; 1; 1; 48; 10; 6; 8; 42; 134; 72; 206; 61; 4; 3; 2; 48; 41; 49; 25; 48; 23; 6; 3;
   85; 4; 5; 19; 16; 52; 52; 97; 56; 49; 101; 97; 101; 99; 53; 49; 100; 98; 48; 98; 49; 49; 12; 48; 10; 6; 3; 85; 4; 12; 12; 3; 84; 69; 69;
   48; 32; 23; 13; 55; 48; 48; 49; 48; 49; 48; 48; 48; 48; 48; 48; 90; 24; 15; 50; 49; 48; 54; 48; 50; 48; 55; 48; 54; 50; 56; 49; 53; 90;
   48; 31; 49; 29; 48; 27; 6; 3; 85; 4; 3; 12; 20; 65; 110; 100; 114; 111; 105; 100; 32; 75; 101; 121; 115; 116; 111; 114; 101; 32; 75;
   101; 121; 48; 89; 48; 19; 6; 7; 42; 134; 72; 206; 61; 2; 1; 6; 8; 42; 134; 72; 206; 61; 3; 1; 7; 3; 66; 0; 4; 32; 22; 133; 230; 127;
   241; 14; 153; 27; 58; 198; 194; 131; 10; 29; 164; 241; 146; 118; 136; 75; 106; 205; 178; 142; 241; 80; 88; 210; 105; 222; 87; 156; 156;
   41; 4; 3; 242; 77; 18; 119; 156; 98; 188; 117; 180; 171; 122; 188; 160; 143; 96; 94; 205; 206; 58; 216; 9; 235; 157; 64; 219; 88; 83;
   163; 130; 1; 89; 48; 130; 1; 85; 48; 14; 6; 3; 85; 29; 15; 1; 1; 255; 4; 4; 3; 2; 7; 128; 48; 130; 1; 65; 6; 10; 43; 6; 1; 4; 1; 214;
   121; 2; 1; 17; 4; 130; 1; 49; 48; 130; 1; 45; 2; 1; 3; 10; 1; 1; 2; 1; 4; 10; 1; 1; 4; 8; 97; 115; 100; 102; 106; 107; 108; 59; 4; 0;
   48; 107; 191; 133; 61; 8; 2; 6; 1; 118; 49; 139; 157; 16; 191; 133; 69; 91; 4; 89; 48; 87; 49; 49; 48; 47; 4; 42; 99; 111; 109; 46; 103;
   111; 111; 103; 108; 101; 46; 101; 120; 112; 101; 114; 105; 109; 101; 110; 116; 115; 46; 106; 100; 97; 110; 105; 115; 46; 107; 101; 121;
   115; 116; 111; 114; 101; 116; 111; 111; 108; 2; 1; 1; 49; 34; 4; 32; 48; 224; 120; 69; 171; 215; 193; 116; 73; 1; 15; 167; 127; 137;
   222; 17; 163; 139; 62; 49; 107; 241; 24; 180; 88; 27; 215; 179; 88; 169; 194; 129; 48; 129; 165; 161; 8; 49; 6; 2; 1; 2; 2; 1; 3; 162;
   3; 2; 1; 3; 163; 4; 2; 2; 1; 0; 165; 5; 49; 3; 2; 1; 4; 170; 3; 2; 1; 1; 191; 131; 120; 3; 2; 1; 2; 191; 133; 62; 3; 2; 1; 0; 191; 133;
   64; 76; 48; 74; 4; 32; 0; 0; 0; 0; 0; 0; 0; 0; 0; 0; 0; 0; 0; 0; 0; 0; 0; 0; 0; 0; 0; 0; 0; 0; 0; 0; 0; 0; 0; 0; 0; 0; 1; 1; 0; 10; 1;
   2; 4; 32; 231; 173; 60; 19; 194; 115; 65; 96; 215; 26; 124; 0; 94; 20; 216; 174; 6; 93; 34; 208; 181; 245; 106; 186; 31; 130; 167; 140;
   23; 44; 253; 15; 191; 133; 65; 5; 2; 3; 1; 173; 176; 191; 133; 66; 5; 2; 3; 3; 21; 117; 191; 133; 78; 6; 2; 4; 1; 52; 97; 185; 191; 133;
   79; 6; 2; 4; 1; 52; 97; 185; 48; 10; 6; 8; 42; 134; 72; 206; 61; 4; 3; 2; 3; 71; 0; 48; 68; 2; 32; 75; 220; 142; 145; 230; 170; 74; 129;
   109; 162; 215; 19; 158; 112; 18; 121; 183; 133; 5; 173; 110; 94; 11; 67; 59; 175; 154; 169; 41; 64; 215; 146; 2; 32; 47; 57; 88; 233;
   137; 26; 20; 65; 141; 224; 220; 61; 136; 244; 44; 124; 218; 161; 132; 250; 127; 249; 7; 151; 251; 181; 183; 40; 40; 0; 124; 167].

Definition LOADED_CACERT_AUTHBOUND : bytes :=
  [48; 130; 2; 38; 48; 130; 1; 171; 160; 3; 2; 1; 2; 2; 10; 5; 132; 32; 38; 144; 118; 35; 88; 113; 119; 48; 10; 6; 8; 42; 134; 72; 206; 61;
   4; 3; 2; 48; 41; 49; 25; 48; 23; 6; 3; 85; 4; 5; 19; 16; 52; 100; 55; 52; 97; 48; 101; 48; 49; 97; 97; 102; 51; 100; 100; 102; 49; 12;
   48; 10; 6; 3; 85; 4; 12; 12; 3; 84; 69; 69; 48; 30; 23; 13; 49; 56; 48; 51; 50; 49; 50; 49; 50; 53; 49; 51; 90; 23; 13; 50; 56; 48; 51;
   49; 56; 50; 49; 50; 53; 49; 51; 90; 48; 41; 49; 25; 48; 23; 6; 3; 85; 4; 5; 19; 16; 52; 52; 97; 56; 49; 101; 97; 101; 99; 53; 49; 100;
   98; 48; 98; 49; 49; 12; 48; 10; 6; 3; 85; 4; 12; 12; 3; 84; 69; 69; 48; 89; 48; 19; 6; 7; 42; 134; 72; 206; 61; 2; 1; 6; 8; 42; 134; 72;
   206; 61; 3; 1; 7; 3; 66; 0; 4; 250; 53; 143; 176; 49; 214; 48; 136; 222; 176; 41; 205; 108; 125; 78; 169; 206; 110; 157; 122; 172; 151;
   146; 194; 69; 181; 226; 208; 193; 82; 168; 80; 37; 215; 137; 88; 123; 4; 182; 102; 147; 42; 38; 93; 58; 177; 91; 119; 48; 191; 149; 170;
   139; 67; 195; 191; 67; 183; 238; 172; 115; 220; 3; 106; 163; 129; 186; 48; 129; 183; 48; 29; 6; 3; 85; 29; 14; 4; 22; 4; 20; 25; 159;
   135; 139; 86; 244; 153; 58; 105; 150; 155; 141; 158; 100; 170; 86; 180; 127; 139; 77; 48; 31; 6; 3; 85; 29; 35; 4; 24; 48; 22; 128; 20;
   169; 181; 244; 41; 201; 26; 88; 189; 47; 152; 45; 103; 115; 49; 6; 135; 224; 223; 205; 98; 48; 15; 6; 3; 85; 29; 19; 1; 1; 255; 4; 5;
   48; 3; 1; 1; 255; 48; 14; 6; 3; 85; 29; 15; 1; 1; 255; 4; 4; 3; 2; 2; 4; 48; 84; 6; 3; 85; 29; 31; 4; 77; 48; 75; 48; 73; 160; 71; 160;
   69; 134; 67; 104; 116; 116; 112; 115; 58; 47; 47; 97; 110; 100; 114; 111; 105; 100; 46; 103; 111; 111; 103; 108; 101; 97; 112; 105; 115;
   46; 99; 111; 109; 47; 97; 116; 116; 101; 115; 116; 97; 116; 105; 111; 110; 47; 99; 114; 108; 47; 48; 53; 56; 52; 50; 48; 50; 54; 57; 48;
   55; 54; 50; 51; 53; 56; 55; 49; 55; 55; 48; 10; 6; 8; 42; 134; 72; 206; 61; 4; 3; 2; 3; 105; 0; 48; 102; 2; 49; 0; 227; 53; 198; 168;
   178; 117; 156; 86; 123; 110; 97; 128; 101; 44; 6; 136; 221; 185; 104; 77; 60; 104; 73; 102; 1; 78; 48; 29; 243; 236; 165; 81; 92; 191;
   231; 131; 51; 189; 20; 238; 35; 240; 207; 177; 55; 28; 39; 120; 2; 49; 0; 148; 203; 8; 61; 45; 62; 105; 84; 95; 99; 227; 228; 116; 114;
   226; 255; 139; 38; 210; 134; 192; 151; 50; 64; 221; 124; 31; 80; 96; 87; 207; 46; 35; 243; 51; 228; 251; 111; 91; 124; 198; 49; 133;
   174; 224; 78; 68; 169; 48; 130; 3; 209; 48; 130; 1; 185; 160; 3; 2; 1; 2; 2; 10; 3; 136; 38; 103; 96; 101; 137; 150; 133; 127; 48; 13;
   6; 9; 42; 134; 72; 134; 247; 13; 1; 1; 11; 5; 0; 48; 27; 49; 25; 48; 23; 6; 3; 85; 4; 5; 19; 16; 102; 57; 50; 48; 48; 57; 101; 56; 53;
   51; 98; 54; 98; 48; 52; 53; 48; 30; 23; 13; 49; 56; 48; 51; 50; 49; 50; 49; 49; 52; 49; 52; 90; 23; 13; 50; 56; 48; 51; 49; 56; 50; 49;
   49; 52; 49; 52; 90; 48; 41; 49; 25; 48; 23; 6; 3; 85; 4; 5; 19; 16; 52; 100; 55; 52; 97; 48; 101; 48; 49; 97; 97; 102; 51; 100; 100;
   102; 49; 12; 48; 10; 6; 3; 85; 4; 12; 12; 3; 84; 69; 69; 48; 118; 48; 16; 6; 7; 42; 134; 72; 206; 61; 2; 1; 6; 5; 43; 129; 4; 0; 34; 3;
   98; 0; 4; 213; 245; 14; 226; 141; 243; 51; 74; 106; 119; 144; 156; 194; 37; 200; 138; 50; 174; 59; 180; 156; 74; 149; 34; 12; 186; 10;
   118; 202; 203; 36; 12; 132; 58; 131; 118; 4; 35; 49; 58; 160; 130; 128; 38; 101; 253; 47; 68; 244; 150; 216; 183; 220; 172; 85; 52; 116;
   65; 13; 13; 127; 189; 227; 244; 40; 223; 116; 74; 23; 77; 231; 178; 155; 43; 36; 192; 158; 86; 0; 82; 187; 117; 176; 213; 106; 65; 22;
   8; 206; 50; 219; 143; 139; 32; 115; 114; 163; 129; 182; 48; 129; 179; 48; 29; 6; 3; 85; 29; 14; 4; 22; 4; 20; 169; 181; 244; 41; 201;
   26; 88; 189; 47; 152; 45; 103; 115; 49; 6; 135; 224; 223; 205; 98; 48; 31; 6; 3; 85; 29; 35; 4; 24; 48; 22; 128; 20; 54; 97; 225; 0;
   124; 136; 5; 9; 81; 139; 68; 108; 71; 255; 26; 76; 201; 234; 79; 18; 48; 15; 6; 3; 85; 29; 19; 1; 1; 255; 4; 5; 48; 3; 1; 1; 255; 48;
   14; 6; 3; 85; 29; 15; 1; 1; 255; 4; 4; 3; 2; 2; 4; 48; 80; 6; 3; 85; 29; 31; 4; 73; 48; 71; 48; 69; 160; 67; 160; 65; 134; 63; 104; 116;
   116; 112; 115; 58; 47; 47; 97; 110; 100; 114; 111; 105; 100; 46; 103; 111; 111; 103; 108; 101; 97; 112; 105; 115; 46; 99; 111; 109; 47;
   97; 116; 116; 101; 115; 116; 97; 116; 105; 111; 110; 47; 99; 114; 108; 47; 69; 56; 70; 65; 49; 57; 54; 51; 49; 52; 68; 50; 70; 65; 49;
   56; 48; 13; 6; 9; 42; 134; 72; 134; 247; 13; 1; 1; 11; 5; 0; 3; 130; 2; 1; 0; 50; 206; 4; 204; 77; 130; 173; 29; 222; 165; 207; 226; 26;
   163; 121; 247; 237; 136; 30; 14; 103; 142; 252; 190; 123; 4; 183; 38; 89; 202; 149; 71; 138; 16; 63; 229; 20; 25; 236; 212; 219; 51;
   195; 161; 81; 245; 6; 94; 48; 102; 31; 210; 88; 47; 20; 3; 123; 53; 131; 134; 70; 220; 238; 4; 48; 161; 15; 196; 22; 201; 142; 99; 208;
   218; 92; 176; 247; 62; 33; 182; 165; 4; 7; 90; 1; 140; 49; 31; 62; 58; 175; 141; 49; 62; 182; 18; 20; 240; 13; 44; 204; 108; 184; 122;
   191; 210; 107; 95; 39; 176; 255; 192; 170; 222; 222; 246; 49; 109; 243; 149; 194; 212; 144; 220; 130; 79; 36; 13; 133; 242; 187; 196;
   88; 201; 250; 221; 150; 65; 43; 31; 76; 16; 28; 154; 87; 85; 15; 98; 252; 141; 162; 202; 132; 123; 22; 96; 232; 98; 206; 146; 133; 19;
   240; 99; 131; 216; 91; 168; 116; 120; 181; 40; 219; 108; 201; 110; 133; 133; 82; 63; 216; 103; 174; 244; 9; 190; 207; 140; 127; 114;
   178; 200; 147; 198; 210; 243; 56; 116; 113; 34; 214; 146; 118; 177; 174; 20; 90; 9; 216; 175; 29; 175; 72; 34; 92; 48; 133; 142; 194;
   254; 97; 175; 195; 210; 76; 146; 83; 164; 117; 31; 120; 234; 252; 250; 196; 202; 78; 103; 104; 31; 125; 178; 94; 234; 138; 177; 204;
   182; 146; 100; 248; 130; 192; 139; 220; 36; 232; 87; 32; 51; 109; 23; 51; 13; 203; 112; 2; 139; 229; 227; 125; 44; 152; 50; 0; 32; 180;
   189; 238; 137; 170; 102; 19; 52; 157; 156; 143; 222; 22; 9; 145; 73; 128; 80; 87; 57; 174; 53; 1; 226; 37; 142; 23; 8; 224; 240; 119;
   152; 157; 10; 79; 210; 118; 218; 196; 81; 69; 50; 139; 225; 171; 238; 16; 22; 246; 149; 125; 50; 118; 178; 181; 25; 103; 115; 254; 192;
   198; 169; 210; 169; 35; 240; 43; 252; 177; 182; 236; 62; 17; 96; 164; 34; 199; 255; 37; 195; 237; 108; 107; 121; 2; 61; 93; 98; 54; 217;
   50; 228; 110; 71; 103; 133; 139; 35; 10; 213; 30; 208; 244; 23; 29; 204; 63; 95; 218; 18; 226; 53; 37; 82; 194; 214; 148; 62; 131; 96;
   85; 248; 141; 84; 245; 71; 111; 56; 3; 59; 215; 154; 148; 138; 59; 159; 146; 105; 15; 205; 184; 244; 98; 120; 34; 71; 224; 174; 237;
   253; 246; 228; 197; 140; 14; 181; 24; 177; 70; 58; 111; 189; 222; 80; 63; 28; 53; 40; 249; 237; 30; 232; 21; 49; 169; 247; 177; 157;
   225; 52; 129; 32; 31; 34; 212; 183; 198; 89; 139; 144; 152; 223; 166; 185; 168; 142; 108; 21; 85; 92; 65; 150; 130; 13; 169; 95; 169;
   243; 119; 29; 238; 107; 76; 148; 198; 198; 155; 120; 91; 3; 189; 169; 135; 221; 36; 4; 112; 206; 108; 82; 230; 33; 99; 109; 40; 108; 48;
   130; 5; 96; 48; 130; 3; 72; 160; 3; 2; 1; 2; 2; 9; 0; 232; 250; 25; 99; 20; 210; 250; 24; 48; 13; 6; 9; 42; 134; 72; 134; 247; 13; 1; 1;
   11; 5; 0; 48; 27; 49; 25; 48; 23; 6; 3; 85; 4; 5; 19; 16; 102; 57; 50; 48; 48; 57; 101; 56; 53; 51; 98; 54; 98; 48; 52; 53; 48; 30; 23;
   13; 49; 54; 48; 53; 50; 54; 49; 54; 50; 56; 53; 50; 90; 23; 13; 50; 54; 48; 53; 50; 52; 49; 54; 50; 56; 53; 50; 90; 48; 27; 49; 25; 48;
   23; 6; 3; 85; 4; 5; 19; 16; 102; 57; 50; 48; 48; 57; 101; 56; 53; 51; 98; 54; 98; 48; 52; 53; 48; 130; 2; 34; 48; 13; 6; 9; 42; 134; 72;
   134; 247; 13; 1; 1; 1; 5; 0; 3; 130; 2; 15; 0; 48; 130; 2; 10; 2; 130; 2; 1; 0; 175; 182; 199; 130; 43; 177; 167; 1; 236; 43; 180; 46;
   139; 204; 84; 22; 99; 171; 239; 152; 47; 50; 199; 127; 117; 49; 3; 12; 151; 82; 75; 27; 95; 232; 9; 251; 199; 42; 169; 69; 31; 116; 60;
   189; 154; 111; 19; 53; 116; 74; 165; 94; 119; 246; 182; 172; 53; 53; 238; 23; 194; 94; 99; 149; 23; 221; 156; 146; 230; 55; 74; 83; 203;
   254; 37; 143; 143; 251; 182; 253; 18; 147; 120; 162; 42; 76; 169; 156; 69; 45; 71; 165; 159; 50; 1; 244; 65; 151; 202; 28; 205; 126;
   118; 47; 178; 245; 49; 81; 182; 254; 178; 255; 253; 43; 111; 228; 254; 91; 198; 189; 158; 195; 75; 254; 8; 35; 157; 170; 252; 235; 142;
   181; 168; 237; 43; 58; 205; 156; 94; 58; 119; 144; 225; 181; 20; 66; 121; 49; 89; 133; 152; 17; 173; 158; 178; 169; 107; 189; 215; 165;
   124; 147; 169; 28; 65; 252; 205; 39; 214; 127; 214; 246; 113; 170; 11; 129; 82; 97; 173; 56; 79; 163; 121; 68; 134; 70; 4; 221; 179;
   216; 196; 249; 32; 161; 155; 22; 86; 194; 241; 74; 214; 208; 60; 86; 236; 6; 8; 153; 4; 28; 30; 209; 165; 254; 109; 52; 64; 181; 86;
   186; 209; 208; 161; 82; 88; 156; 83; 229; 93; 55; 7; 98; 240; 18; 46; 239; 145; 134; 27; 27; 14; 108; 76; 128; 146; 116; 153; 192; 233;
   190; 192; 184; 62; 59; 193; 249; 60; 114; 192; 73; 96; 75; 189; 47; 19; 69; 230; 44; 63; 142; 38; 219; 236; 6; 201; 71; 102; 243; 193;
   40; 35; 157; 79; 67; 18; 250; 216; 18; 56; 135; 224; 107; 236; 245; 103; 88; 59; 248; 53; 90; 129; 254; 234; 186; 249; 154; 131; 200;
   223; 62; 42; 50; 42; 252; 103; 43; 241; 32; 177; 53; 21; 139; 104; 33; 206; 175; 48; 155; 110; 238; 119; 249; 136; 51; 176; 24; 218;
   161; 14; 69; 31; 6; 163; 116; 213; 7; 129; 243; 89; 8; 41; 102; 187; 119; 139; 147; 8; 148; 38; 152; 231; 78; 11; 205; 36; 98; 138; 1;
   194; 204; 3; 229; 31; 11; 62; 91; 74; 193; 228; 223; 158; 175; 159; 246; 164; 146; 167; 124; 20; 131; 136; 40; 133; 1; 91; 66; 44; 230;
   123; 128; 184; 140; 155; 72; 225; 59; 96; 122; 181; 69; 199; 35; 255; 140; 68; 248; 242; 211; 104; 185; 246; 82; 13; 49; 20; 94; 191;
   158; 134; 42; 215; 29; 246; 163; 191; 210; 69; 9; 89; 214; 83; 116; 13; 151; 161; 47; 54; 139; 19; 239; 102; 213; 208; 165; 74; 110; 47;
   93; 154; 111; 239; 68; 104; 50; 188; 103; 132; 71; 37; 134; 31; 9; 61; 208; 230; 243; 64; 93; 168; 150; 67; 239; 15; 77; 105; 182; 66;
   0; 81; 253; 185; 48; 73; 103; 62; 54; 149; 5; 128; 211; 205; 244; 251; 208; 139; 197; 132; 131; 149; 38; 0; 99; 2; 3; 1; 0; 1; 163; 129;
   166; 48; 129; 163; 48; 29; 6; 3; 85; 29; 14; 4; 22; 4; 20; 54; 97; 225; 0; 124; 136; 5; 9; 81; 139; 68; 108; 71; 255; 26; 76; 201; 234;
   79; 18; 48; 31; 6; 3; 85; 29; 35; 4; 24; 48; 22; 128; 20; 54; 97; 225; 0; 124; 136; 5; 9; 81; 139; 68; 108; 71; 255; 26; 76; 201; 234;
   79; 18; 48; 15; 6; 3; 85; 29; 19; 1; 1; 255; 4; 5; 48; 3; 1; 1; 255; 48; 14; 6; 3; 85; 29; 15; 1; 1; 255; 4; 4; 3; 2; 1; 134; 48; 64; 6;
   3; 85; 29; 31; 4; 57; 48; 55; 48; 53; 160; 51; 160; 49; 134; 47; 104; 116; 116; 112; 115; 58; 47; 47; 97; 110; 100; 114; 111; 105; 100;
   46; 103; 111; 111; 103; 108; 101; 97; 112; 105; 115; 46; 99; 111; 109; 47; 97; 116; 116; 101; 115; 116; 97; 116; 105; 111; 110; 47; 99;
   114; 108; 47; 48; 13; 6; 9; 42; 134; 72; 134; 247; 13; 1; 1; 11; 5; 0; 3; 130; 2; 1; 0; 32; 200; 195; 141; 75; 220; 169; 87; 27; 70;
   140; 137; 47; 255; 114; 170; 198; 248; 68; 161; 29; 65; 168; 240; 115; 108; 195; 125; 22; 214; 66; 109; 142; 126; 148; 7; 4; 76; 234;
   57; 230; 139; 7; 193; 61; 191; 21; 3; 221; 92; 133; 189; 175; 178; 192; 45; 95; 108; 219; 78; 250; 129; 39; 223; 139; 4; 241; 130; 119;
   15; 196; 231; 116; 91; 127; 206; 170; 135; 18; 154; 136; 1; 206; 142; 155; 192; 203; 150; 55; 155; 77; 38; 168; 45; 48; 253; 156; 47;
   142; 237; 109; 193; 190; 47; 132; 182; 137; 228; 217; 20; 37; 139; 20; 75; 186; 230; 36; 161; 199; 6; 113; 19; 46; 47; 6; 22; 168; 132;
   178; 164; 214; 164; 111; 250; 137; 182; 2; 191; 186; 216; 12; 18; 67; 113; 31; 86; 235; 96; 86; 246; 55; 200; 160; 20; 28; 197; 64; 148;
   38; 139; 140; 60; 125; 185; 148; 179; 92; 13; 205; 108; 178; 171; 194; 218; 254; 226; 82; 2; 61; 45; 234; 12; 214; 195; 104; 190; 163;
   230; 65; 72; 134; 246; 177; 229; 139; 91; 215; 199; 48; 178; 104; 196; 227; 193; 251; 100; 36; 185; 31; 235; 189; 184; 12; 88; 110; 42;
   232; 54; 140; 132; 213; 209; 9; 23; 189; 162; 86; 23; 137; 212; 104; 115; 147; 52; 14; 46; 37; 79; 86; 14; 246; 75; 35; 88; 252; 220;
   15; 191; 198; 112; 9; 82; 231; 8; 191; 252; 198; 39; 80; 12; 31; 102; 232; 30; 161; 124; 9; 141; 122; 46; 155; 24; 128; 27; 122; 180;
   172; 113; 88; 125; 52; 93; 204; 131; 9; 213; 182; 42; 80; 66; 122; 166; 208; 61; 203; 5; 153; 108; 150; 186; 12; 93; 113; 233; 33; 98;
   192; 22; 202; 132; 159; 243; 95; 13; 82; 198; 93; 5; 96; 90; 71; 243; 174; 145; 122; 205; 45; 249; 16; 239; 210; 50; 102; 136; 89; 110;
   246; 155; 59; 245; 254; 49; 84; 247; 174; 184; 128; 160; 167; 60; 160; 77; 148; 194; 206; 131; 23; 238; 180; 61; 94; 255; 88; 131; 227;
   54; 245; 242; 73; 218; 172; 164; 137; 146; 55; 191; 38; 126; 92; 67; 171; 2; 234; 68; 22; 36; 3; 114; 59; 230; 170; 105; 44; 97; 189;
   174; 158; 212; 9; 212; 99; 196; 201; 124; 100; 48; 101; 119; 238; 242; 188; 117; 96; 183; 87; 21; 204; 156; 125; 198; 124; 134; 8; 45;
   183; 81; 168; 156; 48; 52; 151; 98; 176; 120; 35; 133; 135; 92; 241; 163; 198; 22; 110; 10; 227; 193; 45; 55; 78; 45; 79; 24; 70; 243;
   24; 116; 75; 216; 121; 181; 135; 50; 155; 240; 24; 33; 122; 108; 12; 119; 36; 26; 72; 120; 228; 53; 192; 48; 121; 203; 69; 18; 137; 197;
   119; 98; 6; 6; 154; 47; 141; 101; 248; 64; 225; 68; 82; 135; 190; 216; 119; 171; 174; 36; 226; 68; 53; 22; 141; 85; 60; 228].

Definition LOADED_USRPKEY_NON_AUTHBOUND : bytes :=
  [68; 75; 77; 75; 0; 0; 0; 0; 2; 0; 0; 0; 4; 0; 0; 0; 138; 193; 8; 19; 124; 71; 186; 9; 14; 0; 0; 0; 2; 0; 0; 0; 3; 0; 0; 0; 0; 0; 0; 0;
   0; 0; 0; 0; 0; 0; 0; 0; 2; 0; 0; 0; 1; 3; 0; 0; 0; 1; 0; 1; 0; 0; 0; 0; 0; 0; 0; 0; 0; 0; 0; 0; 0; 0; 0; 0; 0; 0; 0; 0; 0; 0; 0; 0; 0;
   0; 4; 0; 0; 0; 0; 0; 0; 0; 0; 0; 0; 0; 0; 0; 0; 0; 0; 0; 0; 0; 0; 0; 0; 0; 0; 0; 0; 0; 0; 0; 0; 0; 1; 0; 0; 0; 0; 0; 0; 0; 0; 0; 0; 0;
   0; 0; 0; 0; 0; 0; 0; 0; 0; 0; 0; 0; 0; 0; 0; 0; 0; 0; 0; 0; 0; 0; 0; 0; 0; 0; 0; 0; 0; 0; 0; 0; 0; 0; 1; 1; 0; 0; 0; 0; 0; 0; 0; 0; 0;
   0; 0; 0; 0; 1; 0; 0; 0; 0; 0; 0; 0; 0; 0; 0; 0; 0; 0; 0; 0; 0; 0; 0; 0; 0; 0; 0; 0; 0; 0; 0; 0; 0; 0; 0; 0; 0; 0; 0; 0; 0; 0; 0; 0; 0;
   0; 0; 0; 0; 0; 0; 0; 0; 0; 0; 0; 0; 0; 0; 0; 0; 0; 0; 0; 1; 0; 0; 0; 0; 0; 0; 0; 0; 0; 0; 0; 0; 1; 0; 0; 0; 0; 0; 1; 176; 173; 1; 0; 1;
   117; 21; 3; 0; 0; 0; 0; 0; 0; 1; 0; 0; 0; 0; 0; 0; 0; 0; 0; 0; 0; 0; 0; 0; 0; 0; 0; 0; 0; 0; 0; 0; 0; 0; 0; 0; 0; 0; 0; 0; 0; 0; 0; 0;
   0; 0; 1; 96; 96; 140; 49; 118; 1; 0; 0; 0; 0; 0; 0; 0; 0; 185; 97; 52; 1; 1; 185; 97; 52; 1; 1; 0; 0; 0; 0; 0; 0; 0; 0; 0; 0; 161; 1; 0;
   0; 124; 0; 0; 0; 201; 205; 203; 202; 250; 55; 226; 199; 86; 140; 35; 246; 127; 209; 140; 1; 193; 79; 101; 215; 27; 16; 197; 10; 119; 19;
   242; 130; 222; 99; 104; 95; 236; 47; 149; 52; 101; 93; 47; 153; 252; 237; 13; 27; 233; 244; 131; 56; 113; 131; 130; 100; 81; 171; 83;
   177; 250; 115; 0; 32; 36; 221; 28; 19; 0; 1; 0; 0; 28; 0; 0; 0; 32; 0; 0; 0; 60; 0; 0; 0; 32; 0; 0; 0; 92; 0; 0; 0; 32; 0; 0; 0; 229;
   165; 39; 181; 102; 118; 108; 116; 54; 215; 45; 173; 50; 73; 212; 165; 237; 178; 156; 75; 189; 184; 225; 121; 159; 138; 114; 195; 223;
   139; 153; 73; 168; 94; 16; 0; 214; 166; 88; 73; 90; 162; 113; 179; 84; 211; 105; 183; 254; 81; 197; 228; 148; 255; 16; 215; 70; 1; 120;
   67; 140; 156; 190; 47; 154; 75; 91; 114; 7; 77; 143; 37; 80; 30; 178; 70; 240; 238; 80; 115; 106; 123; 163; 233; 177; 8; 129; 0; 223;
   14; 201; 195; 44; 19; 100; 161].

Definition LOADED_CERT_NON_AUTHBOUND : bytes :=
  [48; 130; 2; 147; 48; 130; 2; 57; 160; 3; 2; 1; 2; 2; 1; 1; 48; 10; 6; 8; 42; 134; 72; 206; 61; 4; 3; 2; 48; 41; 49; 25; 48; 23; 6; 3;
   85; 4; 5; 19; 16; 52; 52; 97; 56; 49; 101; 97; 101; 99; 53; 49; 100; 98; 48; 98; 49; 49; 12; 48; 10; 6; 3; 85; 4; 12; 12; 3; 84; 69; 69;
   48; 32; 23; 13; 55; 48; 48; 49; 48; 49; 48; 48; 48; 48; 48; 48; 90; 24; 15; 50; 49; 48; 54; 48; 50; 48; 55; 48; 54; 50; 56; 49; 53; 90;
   48; 31; 49; 29; 48; 27; 6; 3; 85; 4; 3; 12; 20; 65; 110; 100; 114; 111; 105; 100; 32; 75; 101; 121; 115; 116; 111; 114; 101; 32; 75;
   101; 121; 48; 89; 48; 19; 6; 7; 42; 134; 72; 206; 61; 2; 1; 6; 8; 42; 134; 72; 206; 61; 3; 1; 7; 3; 66; 0; 4; 168; 94; 16; 0; 214; 166;
   88; 73; 90; 162; 113; 179; 84; 211; 105; 183; 254; 81; 197; 228; 148; 255; 16; 215; 70; 1; 120; 67; 140; 156; 190; 47; 154; 75; 91; 114;
   7; 77; 143; 37; 80; 30; 178; 70; 240; 238; 80; 115; 106; 123; 163; 233; 177; 8; 129; 0; 223; 14; 201; 195; 44; 19; 100; 161; 163; 130;
   1; 88; 48; 130; 1; 84; 48; 14; 6; 3; 85; 29; 15; 1; 1; 255; 4; 4; 3; 2; 7; 128; 48; 130; 1; 64; 6; 10; 43; 6; 1; 4; 1; 214; 121; 2; 1;
   17; 4; 130; 1; 48; 48; 130; 1; 44; 2; 1; 3; 10; 1; 1; 2; 1; 4; 10; 1; 1; 4; 8; 97; 115; 100; 102; 106; 107; 108; 59; 4; 0; 48; 107; 191;
   133; 61; 8; 2; 6; 1; 118; 49; 140; 96; 96; 191; 133; 69; 91; 4; 89; 48; 87; 49; 49; 48; 47; 4; 42; 99; 111; 109; 46; 103; 111; 111; 103;
   108; 101; 46; 101; 120; 112; 101; 114; 105; 109; 101; 110; 116; 115; 46; 106; 100; 97; 110; 105; 115; 46; 107; 101; 121; 115; 116; 111;
   114; 101; 116; 111; 111; 108; 2; 1; 1; 49; 34; 4; 32; 48; 224; 120; 69; 171; 215; 193; 116; 73; 1; 15; 167; 127; 137; 222; 17; 163; 139;
   62; 49; 107; 241; 24; 180; 88; 27; 215; 179; 88; 169; 194; 129; 48; 129; 164; 161; 8; 49; 6; 2; 1; 2; 2; 1; 3; 162; 3; 2; 1; 3; 163; 4;
   2; 2; 1; 0; 165; 5; 49; 3; 2; 1; 4; 170; 3; 2; 1; 1; 191; 131; 119; 2; 5; 0; 191; 133; 62; 3; 2; 1; 0; 191; 133; 64; 76; 48; 74; 4; 32;
   0; 0; 0; 0; 0; 0; 0; 0; 0; 0; 0; 0; 0; 0; 0; 0; 0; 0; 0; 0; 0; 0; 0; 0; 0; 0; 0; 0; 0; 0; 0; 0; 1; 1; 0; 10; 1; 2; 4; 32; 231; 173; 60;
   19; 194; 115; 65; 96; 215; 26; 124; 0; 94; 20; 216; 174; 6; 93; 34; 208; 181; 245; 106; 186; 31; 130; 167; 140; 23; 44; 253; 15; 191;
   133; 65; 5; 2; 3; 1; 173; 176; 191; 133; 66; 5; 2; 3; 3; 21; 117; 191; 133; 78; 6; 2; 4; 1; 52; 97; 185; 191; 133; 79; 6; 2; 4; 1; 52;
   97; 185; 48; 10; 6; 8; 42; 134; 72; 206; 61; 4; 3; 2; 3; 72; 0; 48; 69; 2; 32; 63; 18; 118; 76; 133; 253; 201; 104; 13; 102; 11; 96; 61;
   255; 124; 139; 17; 156; 38; 239; 219; 74; 195; 55; 64; 6; 169; 22; 199; 153; 133; 137; 2; 33; 0; 199; 2; 243; 33; 96; 23; 5; 126; 54;
   51; 33; 12; 29; 39; 195; 143; 214; 216; 213; 209; 100; 76; 5; 221; 19; 14; 164; 243; 56; 191; 24; 213].

Definition LOADED_CACERT_NON_AUTHBOUND : bytes :=
  [48; 130; 2; 38; 48; 130; 1; 171; 160; 3; 2; 1; 2; 2; 10; 5; 132; 32; 38; 144; 118; 35; 88; 113; 119; 48; 10; 6; 8; 42; 134; 72; 206; 61;
   4; 3; 2; 48; 41; 49; 25; 48; 23; 6; 3; 85; 4; 5; 19; 16; 52; 100; 55; 52; 97; 48; 101; 48; 49; 97; 97; 102; 51; 100; 100; 102; 49; 12;
   48; 10; 6; 3; 85; 4; 12; 12; 3; 84; 69; 69; 48; 30; 23; 13; 49; 56; 48; 51; 50; 49; 50; 49; 50; 53; 49; 51; 90; 23; 13; 50; 56; 48; 51;
   49; 56; 50; 49; 50; 53; 49; 51; 90; 48; 41; 49; 25; 48; 23; 6; 3; 85; 4; 5; 19; 16; 52; 52; 97; 56; 49; 101; 97; 101; 99; 53; 49; 100;
   98; 48; 98; 49; 49; 12; 48; 10; 6; 3; 85; 4; 12; 12; 3; 84; 69; 69; 48; 89; 48; 19; 6; 7; 42; 134; 72; 206; 61; 2; 1; 6; 8; 42; 134; 72;
   206; 61; 3; 1; 7; 3; 66; 0; 4; 250; 53; 143; 176; 49; 214; 48; 136; 222; 176; 41; 205; 108; 125; 78; 169; 206; 110; 157; 122; 172; 151;
   146; 194; 69; 181; 226; 208; 193; 82; 168; 80; 37; 215; 137; 88; 123; 4; 182; 102; 147; 42; 38; 93; 58; 177; 91; 119; 48; 191; 149; 170;
   139; 67; 195; 191; 67; 183; 238; 172; 115; 220; 3; 106; 163; 129; 186; 48; 129; 183; 48; 29; 6; 3; 85; 29; 14; 4; 22; 4; 20; 25; 159;
   135; 139; 86; 244; 153; 58; 105; 150; 155; 141; 158; 100; 170; 86; 180; 127; 139; 77; 48; 31; 6; 3; 85; 29; 35; 4; 24; 48; 22; 128; 20;
   169; 181; 244; 41; 201; 26; 88; 189; 47; 152; 45; 103; 115; 49; 6; 135; 224; 223; 205; 98; 48; 15; 6; 3; 85; 29; 19; 1; 1; 255; 4; 5;
   48; 3; 1; 1; 255; 48; 14; 6; 3; 85; 29; 15; 1; 1; 255; 4; 4; 3; 2; 2; 4; 48; 84; 6; 3; 85; 29; 31; 4; 77; 48; 75; 48; 73; 160; 71; 160;
   69; 134; 67; 104; 116; 116; 112; 115; 58; 47; 47; 97; 110; 100; 114; 111; 105; 100; 46; 103; 111; 111; 103; 108; 101; 97; 112; 105; 115;
   46; 99; 111; 109; 47; 97; 116; 116; 101; 115; 116; 97; 116; 105; 111; 110; 47; 99; 114; 108; 47; 48; 53; 56; 52; 50; 48; 50; 54; 57; 48;
   55; 54; 50; 51; 53; 56; 55; 49; 55; 55; 48; 10; 6; 8; 42; 134; 72; 206; 61; 4; 3; 2; 3; 105; 0; 48; 102; 2; 49; 0; 227; 53; 198; 168;
   178; 117; 156; 86; 123; 110; 97; 128; 101; 44; 6; 136; 221; 185; 104; 77; 60; 104; 73; 102; 1; 78; 48; 29; 243; 236; 165; 81; 92; 191;
   231; 131; 51; 189; 20; 238; 35; 240; 207; 177; 55; 28; 39; 120; 2; 49; 0; 148; 203; 8; 61; 45; 62; 105; 84; 95; 99; 227; 228; 116; 114;
   226; 255; 139; 38; 210; 134; 192; 151; 50; 64; 221; 124; 31; 80; 96; 87; 207; 46; 35; 243; 51; 228; 251; 111; 91; 124; 198; 49; 133;
   174; 224; 78; 68; 169; 48; 130; 3; 209; 48; 130; 1; 185; 160; 3; 2; 1; 2; 2; 10; 3; 136; 38; 103; 96; 101; 137; 150; 133; 127; 48; 13;
   6; 9; 42; 134; 72; 134; 247; 13; 1; 1; 11; 5; 0; 48; 27; 49; 25; 48; 23; 6; 3; 85; 4; 5; 19; 16; 102; 57; 50; 48; 48; 57; 101; 56; 53;
   51; 98; 54; 98; 48; 52; 53; 48; 30; 23; 13; 49; 56; 48; 51; 50; 49; 50; 49; 49; 52; 49; 52; 90; 23; 13; 50; 56; 48; 51; 49; 56; 50; 49;
   49; 52; 49; 52; 90; 48; 41; 49; 25; 48; 23; 6; 3; 85; 4; 5; 19; 16; 52; 100; 55; 52; 97; 48; 101; 48; 49; 97; 97; 102; 51; 100; 100;
   102; 49; 12; 48; 10; 6; 3; 85; 4; 12; 12; 3; 84; 69; 69; 48; 118; 48; 16; 6; 7; 42; 134; 72; 206; 61; 2; 1; 6; 5; 43; 129; 4; 0; 34; 3;
   98; 0; 4; 213; 245; 14; 226; 141; 243; 51; 74; 106; 119; 144; 156; 194; 37; 200; 138; 50; 174; 59; 180; 156; 74; 149; 34; 12; 186; 10;
   118; 202; 203; 36; 12; 132; 58; 131; 118; 4; 35; 49; 58; 160; 130; 128; 38; 101; 253; 47; 68; 244; 150; 216; 183; 220; 172; 85; 52; 116;
   65; 13; 13; 127; 189; 227; 244; 40; 223; 116; 74; 23; 77; 231; 178; 155; 43; 36; 192; 158; 86; 0; 82; 187; 117; 176; 213; 106; 65; 22;
   8; 206; 50; 219; 143; 139; 32; 115; 114; 163; 129; 182; 48; 129; 179; 48; 29; 6; 3; 85; 29; 14; 4; 22; 4; 20; 169; 181; 244; 41; 201;
   26; 88; 189; 47; 152; 45; 103; 115; 49; 6; 135; 224; 223; 205; 98; 48; 31; 6; 3; 85; 29; 35; 4; 24; 48; 22; 128; 20; 54; 97; 225; 0;
   124; 136; 5; 9; 81; 139; 68; 108; 71; 255; 26; 76; 201; 234; 79; 18; 48; 15; 6; 3; 85; 29; 19; 1; 1; 255; 4; 5; 48; 3; 1; 1; 255; 48;
   14; 6; 3; 85; 29; 15; 1; 1; 255; 4; 4; 3; 2; 2; 4; 48; 80; 6; 3; 85; 29; 31; 4; 73; 48; 71; 48; 69; 160; 67; 160; 65; 134; 63; 104; 116;
   116; 112; 115; 58; 47; 47; 97; 110; 100; 114; 111; 105; 100; 46; 103; 111; 111; 103; 108; 101; 97; 112; 105; 115; 46; 99; 111; 109; 47;
   97; 116; 116; 101; 115; 116; 97; 116; 105; 111; 110; 47; 99; 114; 108; 47; 69; 56; 70; 65; 49; 57; 54; 51; 49; 52; 68; 50; 70; 65; 49;
   56; 48; 13; 6; 9; 42; 134; 72; 134; 247; 13; 1; 1; 11; 5; 0; 3; 130; 2; 1; 0; 50; 206; 4; 204; 77; 130; 173; 29; 222; 165; 207; 226; 26;
   163; 121; 247; 237; 136; 30; 14; 103; 142; 252; 190; 123; 4; 183; 38; 89; 202; 149; 71; 138; 16; 63; 229; 20; 25; 236; 212; 219; 51;
   195; 161; 81; 245; 6; 94; 48; 102; 31; 210; 88; 47; 20; 3; 123; 53; 131; 134; 70; 220; 238; 4; 48; 161; 15; 196; 22; 201; 142; 99; 208;
   218; 92; 176; 247; 62; 33; 182; 165; 4; 7; 90; 1; 140; 49; 31; 62; 58; 175; 141; 49; 62; 182; 18; 20; 240; 13; 44; 204; 108; 184; 122;
   191; 210; 107; 95; 39; 176; 255; 192; 170; 222; 222; 246; 49; 109; 243; 149; 194; 212; 144; 220; 130; 79; 36; 13; 133; 242; 187; 196;
   88; 201; 250; 221; 150; 65; 43; 31; 76; 16; 28; 154; 87; 85; 15; 98; 252; 141; 162; 202; 132; 123; 22; 96; 232; 98; 206; 146; 133; 19;
   240; 99; 131; 216; 91; 168; 116; 120; 181; 40; 219; 108; 201; 110; 133; 133; 82; 63; 216; 103; 174; 244; 9; 190; 207; 140; 127; 114;
   178; 200; 147; 198; 210; 243; 56; 116; 113; 34; 214; 146; 118; 177; 174; 20; 90; 9; 216; 175; 29; 175; 72; 34; 92; 48; 133; 142; 194;
   254; 97; 175; 195; 210; 76; 146; 83; 164; 117; 31; 120; 234; 252; 250; 196; 202; 78; 103; 104; 31; 125; 178; 94; 234; 138; 177; 204;
   182; 146; 100; 248; 130; 192; 139; 220; 36; 232; 87; 32; 51; 109; 23; 51; 13; 203; 112; 2; 139; 229; 227; 125; 44; 152; 50; 0; 32; 180;
   189; 238; 137; 170; 102; 19; 52; 157; 156; 143; 222; 22; 9; 145; 73; 128; 80; 87; 57; 174; 53; 1; 226; 37; 142; 23; 8; 224; 240; 119;
   152; 157; 10; 79; 210; 118; 218; 196; 81; 69; 50; 139; 225; 171; 238; 16; 22; 246; 149; 125; 50; 118; 178; 181; 25; 103; 115; 254; 192;
   198; 169; 210; 169; 35; 240; 43; 252; 177; 182; 236; 62; 17; 96; 164; 34; 199; 255; 37; 195; 237; 108; 107; 121; 2; 61; 93; 98; 54; 217;
   50; 228; 110; 71; 103; 133; 139; 35; 10; 213; 30; 208; 244; 23; 29; 204; 63; 95; 218; 18; 226; 53; 37; 82; 194; 214; 148; 62; 131; 96;
   85; 248; 141; 84; 245; 71; 111; 56; 3; 59; 215; 154; 148; 138; 59; 159; 146; 105; 15; 205; 184; 244; 98; 120; 34; 71; 224; 174; 237;
   253; 246; 228; 197; 140; 14; 181; 24; 177; 70; 58; 111; 189; 222; 80; 63; 28; 53; 40; 249; 237; 30; 232; 21; 49; 169; 247; 177; 157;
   225; 52; 129; 32; 31; 34; 212; 183; 198; 89; 139; 144; 152; 223; 166; 185; 168; 142; 108; 21; 85; 92; 65; 150; 130; 13; 169; 95; 169;
   243; 119; 29; 238; 107; 76; 148; 198; 198; 155; 120; 91; 3; 189; 169; 135; 221; 36; 4; 112; 206; 108; 82; 230; 33; 99; 109; 40; 108; 48;
   130; 5; 96; 48; 130; 3; 72; 160; 3; 2; 1; 2; 2; 9; 0; 232; 250; 25; 99; 20; 210; 250; 24; 48; 13; 6; 9; 42; 134; 72; 134; 247; 13; 1; 1;
   11; 5; 0; 48; 27; 49; 25; 48; 23; 6; 3; 85; 4; 5; 19; 16; 102; 57; 50; 48; 48; 57; 101; 56; 53; 51; 98; 54; 98; 48; 52; 53; 48; 30; 23;
   13; 49; 54; 48; 53; 50; 54; 49; 54; 50; 56; 53; 50; 90; 23; 13; 50; 54; 48; 53; 50; 52; 49; 54; 50; 56; 53; 50; 90; 48; 27; 49; 25; 48;
   23; 6; 3; 85; 4; 5; 19; 16; 102; 57; 50; 48; 48; 57; 101; 56; 53; 51; 98; 54; 98; 48; 52; 53; 48; 130; 2; 34; 48; 13; 6; 9; 42; 134; 72;
   134; 247; 13; 1; 1; 1; 5; 0; 3; 130; 2; 15; 0; 48; 130; 2; 10; 2; 130; 2; 1; 0; 175; 182; 199; 130; 43; 177; 167; 1; 236; 43; 180; 46;
   139; 204; 84; 22; 99; 171; 239; 152; 47; 50; 199; 127; 117; 49; 3; 12; 151; 82; 75; 27; 95; 232; 9; 251; 199; 42; 169; 69; 31; 116; 60;
   189; 154; 111; 19; 53; 116; 74; 165; 94; 119; 246; 182; 172; 53; 53; 238; 23; 194; 94; 99; 149; 23; 221; 156; 146; 230; 55; 74; 83; 203;
   254; 37; 143; 143; 251; 182; 253; 18; 147; 120; 162; 42; 76; 169; 156; 69; 45; 71; 165; 159; 50; 1; 244; 65; 151; 202; 28; 205; 126;
   118; 47; 178; 245; 49; 81; 182; 254; 178; 255; 253; 43; 111; 228; 254; 91; 198; 189; 158; 195; 75; 254; 8; 35; 157; 170; 252; 235; 142;
   181; 168; 237; 43; 58; 205; 156; 94; 58; 119; 144; 225; 181; 20; 66; 121; 49; 89; 133; 152; 17; 173; 158; 178; 169; 107; 189; 215; 165;
   124; 147; 169; 28; 65; 252; 205; 39; 214; 127; 214; 246; 113; 170; 11; 129; 82; 97; 173; 56; 79; 163; 121; 68; 134; 70; 4; 221; 179;
   216; 196; 249; 32; 161; 155; 22; 86; 194; 241; 74; 214; 208; 60; 86; 236; 6; 8; 153; 4; 28; 30; 209; 165; 254; 109; 52; 64; 181; 86;
   186; 209; 208; 161; 82; 88; 156; 83; 229; 93; 55; 7; 98; 240; 18; 46; 239; 145; 134; 27; 27; 14; 108; 76; 128; 146; 116; 153; 192; 233;
   190; 192; 184; 62; 59; 193; 249; 60; 114; 192; 73; 96; 75; 189; 47; 19; 69; 230; 44; 63; 142; 38; 219; 236; 6; 201; 71; 102; 243; 193;
   40; 35; 157; 79; 67; 18; 250; 216; 18; 56; 135; 224; 107; 236; 245; 103; 88; 59; 248; 53; 90; 129; 254; 234; 186; 249; 154; 131; 200;
   223; 62; 42; 50; 42; 252; 103; 43; 241; 32; 177; 53; 21; 139; 104; 33; 206; 175; 48; 155; 110; 238; 119; 249; 136; 51; 176; 24; 218;
   161; 14; 69; 31; 6; 163; 116; 213; 7; 129; 243; 89; 8; 41; 102; 187; 119; 139; 147; 8; 148; 38; 152; 231; 78; 11; 205; 36; 98; 138; 1;
   194; 204; 3; 229; 31; 11; 62; 91; 74; 193; 228; 223; 158; 175; 159; 246; 164; 146; 167; 124; 20; 131; 136; 40; 133; 1; 91; 66; 44; 230;
   123; 128; 184; 140; 155; 72; 225; 59; 96; 122; 181; 69; 199; 35; 255; 140; 68; 248; 242; 211; 104; 185; 246; 82; 13; 49; 20; 94; 191;
   158; 134; 42; 215; 29; 246; 163; 191; 210; 69; 9; 89; 214; 83; 116; 13; 151; 161; 47; 54; 139; 19; 239; 102; 213; 208; 165; 74; 110; 47;
   93; 154; 111; 239; 68; 104; 50; 188; 103; 132; 71; 37; 134; 31; 9; 61; 208; 230; 243; 64; 93; 168; 150; 67; 239; 15; 77; 105; 182; 66;
   0; 81; 253; 185; 48; 73; 103; 62; 54; 149; 5; 128; 211; 205; 244; 251; 208; 139; 197; 132; 131; 149; 38; 0; 99; 2; 3; 1; 0; 1; 163; 129;
   166; 48; 129; 163; 48; 29; 6; 3; 85; 29; 14; 4; 22; 4; 20; 54; 97; 225; 0; 124; 136; 5; 9; 81; 139; 68; 108; 71; 255; 26; 76; 201; 234;
   79; 18; 48; 31; 6; 3; 85; 29; 35; 4; 24; 48; 22; 128; 20; 54; 97; 225; 0; 124; 136; 5; 9; 81; 139; 68; 108; 71; 255; 26; 76; 201; 234;
   79; 18; 48; 15; 6; 3; 85; 29; 19; 1; 1; 255; 4; 5; 48; 3; 1; 1; 255; 48; 14; 6; 3; 85; 29; 15; 1; 1; 255; 4; 4; 3; 2; 1; 134; 48; 64; 6;
   3; 85; 29; 31; 4; 57; 48; 55; 48; 53; 160; 51; 160; 49; 134; 47; 104; 116; 116; 112; 115; 58; 47; 47; 97; 110; 100; 114; 111; 105; 100;
   46; 103; 111; 111; 103; 108; 101; 97; 112; 105; 115; 46; 99; 111; 109; 47; 97; 116; 116; 101; 115; 116; 97; 116; 105; 111; 110; 47; 99;
   114; 108; 47; 48; 13; 6; 9; 42; 134; 72; 134; 247; 13; 1; 1; 11; 5; 0; 3; 130; 2; 1; 0; 32; 200; 195; 141; 75; 220; 169; 87; 27; 70;
   140; 137; 47; 255; 114; 170; 198; 248; 68; 161; 29; 65; 168; 240; 115; 108; 195; 125; 22; 214; 66; 109; 142; 126; 148; 7; 4; 76; 234;
   57; 230; 139; 7; 193; 61; 191; 21; 3; 221; 92; 133; 189; 175; 178; 192; 45; 95; 108; 219; 78; 250; 129; 39; 223; 139; 4; 241; 130; 119;
   15; 196; 231; 116; 91; 127; 206; 170; 135; 18; 154; 136; 1; 206; 142; 155; 192; 203; 150; 55; 155; 77; 38; 168; 45; 48; 253; 156; 47;
   142; 237; 109; 193; 190; 47; 132; 182; 137; 228; 217; 20; 37; 139; 20; 75; 186; 230; 36; 161; 199; 6; 113; 19; 46; 47; 6; 22; 168; 132;
   178; 164; 214; 164; 111; 250; 137; 182; 2; 191; 186; 216; 12; 18; 67; 113; 31; 86; 235; 96; 86; 246; 55; 200; 160; 20; 28; 197; 64; 148;
   38; 139; 140; 60; 125; 185; 148; 179; 92; 13; 205; 108; 178; 171; 194; 218; 254; 226; 82; 2; 61; 45; 234; 12; 214; 195; 104; 190; 163;
   230; 65; 72; 134; 246; 177; 229; 139; 91; 215; 199; 48; 178; 104; 196; 227; 193; 251; 100; 36; 185; 31; 235; 189; 184; 12; 88; 110; 42;
   232; 54; 140; 132; 213; 209; 9; 23; 189; 162; 86; 23; 137; 212; 104; 115; 147; 52; 14; 46; 37; 79; 86; 14; 246; 75; 35; 88; 252; 220;
   15; 191; 198; 112; 9; 82; 231; 8; 191; 252; 198; 39; 80; 12; 31; 102; 232; 30; 161; 124; 9; 141; 122; 46; 155; 24; 128; 27; 122; 180;
   172; 113; 88; 125; 52; 93; 204; 131; 9; 213; 182; 42; 80; 66; 122; 166; 208; 61; 203; 5; 153; 108; 150; 186; 12; 93; 113; 233; 33; 98;
   192; 22; 202; 132; 159; 243; 95; 13; 82; 198; 93; 5; 96; 90; 71; 243; 174; 145; 122; 205; 45; 249; 16; 239; 210; 50; 102; 136; 89; 110;
   246; 155; 59; 245; 254; 49; 84; 247; 174; 184; 128; 160; 167; 60; 160; 77; 148; 194; 206; 131; 23; 238; 180; 61; 94; 255; 88; 131; 227;
   54; 245; 242; 73; 218; 172; 164; 137; 146; 55; 191; 38; 126; 92; 67; 171; 2; 234; 68; 22; 36; 3; 114; 59; 230; 170; 105; 44; 97; 189;
   174; 158; 212; 9; 212; 99; 196; 201; 124; 100; 48; 101; 119; 238; 242; 188; 117; 96; 183; 87; 21; 204; 156; 125; 198; 124; 134; 8; 45;
   183; 81; 168; 156; 48; 52; 151; 98; 176; 120; 35; 133; 135; 92; 241; 163; 198; 22; 110; 10; 227; 193; 45; 55; 78; 45; 79; 24; 70; 243;
   24; 116; 75; 216; 121; 181; 135; 50; 155; 240; 24; 33; 122; 108; 12; 119; 36; 26; 72; 120; 228; 53; 192; 48; 121; 203; 69; 18; 137; 197;
   119; 98; 6; 6; 154; 47; 141; 101; 248; 64; 225; 68; 82; 135; 190; 216; 119; 171; 174; 36; 226; 68; 53; 22; 141; 85; 60; 228].
