(* ===== verification/LegacyTests.v ===== *)
(** * The unit tests of the legacy blob reader and of the legacy keystore

    [mod test] of [keystore2/src/legacy_blob.rs] over the golden vectors, and
    [mod db_test] of [keystore2/legacykeystore/lib.rs], run against the
    model.  The ciphers are those of the example library: the tests look at
    what is read around the ciphertexts, and the closure that decrypts a blob
    in a test checks what it is given. *)

From stdpp Require Import base list gmap strings.
From Stdlib Require Import ZArith Lia.
From S2P Require Import Prelude Aidl Errors Sql KeyParameter DbTypes Database DbInvariant DbKeys Crypto RawDevice SuperKey LegacyAlias LegacyBlob LegacyFs LegacyList LegacyMigrator LegacySystem LegacyKeystore DbOpen LegacyKeystoreDb LegacyVectors SecurityLevelDemo.

#[local] Existing Instances aidl_published toy_boring.
#[local] Instance BlobValue_eq_dec : EqDecision BlobValue.
Proof. solve_decision. Defined.
Abbreviation same x y := (bool_decide (x = y)).

(** ** Aliases *)

Definition chars (l : list Z) : string := String.string_of_list_ascii (chr <$> l).
(** The alias of the test; its last character is U+1F617. *)
Definition ALIAS : string := ("#({}test[])" +:+ chars [0xF0; 0x9F; 0x98; 0x97])%string.
Definition decode_encode_alias_test : list bool :=
  let ENCODED_ALIAS := "+S+X{}test[]+Y.`-O-H-G" in
  [same (encode_alias ALIAS) ENCODED_ALIAS;
   match decode_alias ENCODED_ALIAS with Ok a => same a ALIAS | _ => false end;
   match decode_alias "+S+{}test[]+Y" with Err BadEncoding => true | _ => false end;
   match decode_alias "+S+X{}test[]+" with Err BadEncoding => true | _ => false end;
   match decode_alias ".`-O+H-G" with Err BadUtf8 => true | _ => false end].

(** ** Golden blobs *)

Definition should_not_be_called (d iv tag : bytes) (salt : option bytes) (key_size : option nat) : result AnyError bytes := Panic.
Definition unprotected (b : Blob) : bool :=
  negb (is_fallback b) && negb (is_strongbox b) && negb (is_critical_to_device_encryption b).
Definition reads_as (stream : bytes) (v : BlobValue) : bool :=
  match new_from_stream_decrypt_with stream should_not_be_called with
  | Ok b => negb (is_encrypted b) && unprotected b && same (blob_value b) v
  | _ => false
  end.
Definition read_golden_key_blob_test : list bool :=
  [reads_as BLOB (Generic [0xde; 0xed; 0xbe; 0xef]); reads_as REAL_LEGACY_BLOB (Decrypted REAL_LEGACY_BLOB_PAYLOAD)].

(** AES-GCM itself answers with the plaintext of the vectors. *)
Definition read_aes_gcm_encrypted_key_blob_test : list bool :=
  let decrypt d iv tag salt (key_size : option nat) :=
    if same salt None && same key_size None
       && same iv [0xbd; 0xdb; 0x8d; 0x69; 0x72; 0x56; 0xf0; 0xf5; 0xa4; 0x02; 0x88; 0x7f; 0; 0; 0; 0]
       && same tag [0x50; 0xd9; 0x97; 0x95; 0x37; 0x6e; 0x28; 0x6a; 0x28; 0x9d; 0x51; 0xb9; 0xb9; 0xe0; 0x0b; 0xc3]
       && same (length d) (length DECRYPTED_PAYLOAD)
    then Ok DECRYPTED_PAYLOAD else Panic in
  [match new_from_stream_decrypt_with AES_GCM_ENCRYPTED_BLOB decrypt with
   | Ok b => is_encrypted b && unprotected b && same (blob_value b) (Decrypted DECRYPTED_PAYLOAD)
   | _ => false
   end].
Definition read_golden_key_blob_too_short_test : list bool :=
  [match new_from_stream_decrypt_with (take 15 BLOB) should_not_be_called with Err BadLen => true | _ => false end].

(** ** Directories *)

Definition fs_of (d : gmap string (gmap string bytes)) : Fs := {| dirs := d; root_broken := false; broken_dirs := ∅; broken_files := ∅ |}.
Definition empty_is (fs : Fs) (b : bool) : bool := match is_empty fs with Ok x => same x b | _ => false end.
Definition empty_user_is (fs : Fs) (user : Z) (b : bool) : bool := match is_empty_user fs user with Ok x => same x b | _ => false end.
Definition test_is_empty : list bool :=
  [empty_is (fs_of ∅) true; empty_is (fs_of {[ "user_0" := ∅ ]}) false; empty_is (fs_of {[ "user_0" := ∅; "user_10" := ∅ ]}) false;
   empty_is (fs_of {[ "user_10" := ∅ ]}) false; empty_is (fs_of ∅) true].
Definition list_non_existing_user : list bool := [match list_user (fs_of ∅) 20 with Ok [] => true | _ => false end].
Definition list_legacy_keystore_entries_on_non_existing_user : list bool :=
  [match list_legacy_keystore_entries_for_user (fs_of ∅) 20 with Ok m => same (entries m) [] | _ => false end].

(** ** The files of a user *)

Definition legacy_files : Fs := fs_of {[ "user_0" := list_to_map
  [(".masterkey", SUPERKEY); ("10223_USRPKEY_authbound", USRPKEY_AUTHBOUND); (".10223_chr_USRPKEY_authbound", USRPKEY_AUTHBOUND_CHR);
   ("10223_USRCERT_authbound", USRCERT_AUTHBOUND); ("10223_CACERT_authbound", CACERT_AUTHBOUND);
   ("10223_USRPKEY_non_authbound", USRPKEY_NON_AUTHBOUND); (".10223_chr_USRPKEY_non_authbound", USRPKEY_NON_AUTHBOUND_CHR);
   ("10223_USRCERT_non_authbound", USRCERT_NON_AUTHBOUND); ("10223_CACERT_non_authbound", CACERT_NON_AUTHBOUND)]%string ]}.
Abbreviation load fs al skm := (load_by_uid_alias 100000 fs 10223 al (Some skm)).
Definition finds_nothing (fs : Fs) (al : string) (skm : Skm) : bool :=
  match load fs al skm with Ok (None, None, None) => true | _ => false end.
(** [unlock_user_key] with an empty database. *)
Definition unlocked_skm : result AnyError Skm :=
  let '(r, g) := unlock_user_key (LG := migrator_legacy 100000) [11] KEYSTORE_UUID 0 PASSWORD
    {| g_skm := new_skm; g_world := {| w_db := empty_tables; w_km := tt; w_gc := false |}; g_tape := repeat 3 200;
       g_legacy := migrator_over legacy_files |} in
  (fun _ => g_skm g) <$> r.
Definition test_legacy_blobs : list bool :=
  match unlocked_skm with
  | Ok skm =>
    let fs1 := (remove_keystore_entry 100000 10223 "authbound" legacy_files).2 in
    let fs2 := (remove_keystore_entry 100000 10223 "non_authbound" fs1).2 in
    let fs3 := (remove_super_key 0 fs2).2 in
    [match load legacy_files "authbound" new_skm with Err (AnyErr (KsError (Rc c))) => c =? val ResponseCode.LOCKED | _ => false end;
     match load legacy_files "authbound" skm with
     | Ok (Some (b, _), Some cert, Some chain) =>
       (blob_flags b =? 4) && same cert LOADED_CERT_AUTHBOUND && same chain LOADED_CACERT_AUTHBOUND
     | _ => false
     end;
     match load legacy_files "non_authbound" skm with
     | Ok (Some (b, _), Some cert, Some chain) =>
       (blob_flags b =? 0) && same (blob_value b) (Decrypted LOADED_USRPKEY_NON_AUTHBOUND)
       && same cert LOADED_CERT_NON_AUTHBOUND && same chain LOADED_CACERT_NON_AUTHBOUND
     | _ => false
     end;
     is_ok (remove_keystore_entry 100000 10223 "authbound" legacy_files).1; is_ok (remove_keystore_entry 100000 10223 "non_authbound" fs1).1;
     finds_nothing fs2 "authbound" skm; finds_nothing fs2 "non_authbound" skm;
     empty_is fs2 false; empty_user_is fs2 0 false; empty_user_is fs2 1 true; empty_user_is fs3 0 true; empty_is fs3 true]
  | _ => [false]
  end.
(** What the characteristics file says of the key that needs no
    authentication. *)
Definition non_authbound_params : option (list KeyParameter) :=
  match load legacy_files "non_authbound" new_skm with Ok (Some (_, p), _, _) => Some p | _ => None end.

Definition legacy_blob_tests : list (list bool) :=
  [decode_encode_alias_test; read_golden_key_blob_test; read_aes_gcm_encrypted_key_blob_test; read_golden_key_blob_too_short_test;
   test_is_empty; test_legacy_blobs; list_non_existing_user; list_legacy_keystore_entries_on_non_existing_user].

(** ** The table of the legacy keystore *)

Abbreviation Lt := (sr DbFile LkError).
Definition checks (b : bool) : Lt unit := if b then mret tt else throw LkOther.
Definition lists (uid : Z) (l : list string) : Lt unit := x ← tx_list uid; checks (same x l).
Definition holds (uid : Z) (al : string) (v : option bytes) : Lt unit := x ← tx_get uid al; checks (same x v).
(** [DB::new] on an empty directory. *)
Definition on_new_db (m : Lt unit) : bool :=
  match db_new true [free_turn] None with (Some (Ok _), s) => is_ok (m s).1 | _ => false end.
Definition TEST_BLOB1 : bytes := [1; 2; 3; 4; 5; 6; 7; 8; 9; 0].
Definition TEST_BLOB2 : bytes := [2; 2; 3; 4; 5; 6; 7; 8; 9; 0].
Definition TEST_BLOB3 : bytes := [3; 2; 3; 4; 5; 6; 7; 8; 9; 0].
Definition TEST_BLOB4 : bytes := [3; 2; 3; 4; 5; 6; 7; 8; 9; 0].
Definition test_entry_db : Lt unit :=
  _ ← tx_put 2 "test1" TEST_BLOB1;
  _ ← tx_put 2 "test2" TEST_BLOB2;
  _ ← tx_put 2 "test3" TEST_BLOB3;
  _ ← lists 2 ["test1"; "test2"; "test3"]%string;
  _ ← lists 1 [];
  _ ← holds 2 "test1" (Some TEST_BLOB1);
  _ ← holds 2 "test2" (Some TEST_BLOB2);
  _ ← holds 2 "test3" (Some TEST_BLOB3);
  removed ← tx_remove 2 "test2";
  _ ← checks removed;
  _ ← holds 2 "test2" None;
  _ ← lists 2 ["test1"; "test3"]%string;
  _ ← holds 2 "test1" (Some TEST_BLOB1);
  _ ← tx_put 2 "test1" TEST_BLOB4;
  holds 2 "test1" (Some TEST_BLOB4).
Definition test_delete_uid : Lt unit :=
  _ ← tx_put 2 "test1" TEST_BLOB1;
  _ ← tx_put 2 "test2" TEST_BLOB2;
  _ ← tx_put 3 "test3" TEST_BLOB3;
  _ ← tx_remove_uid 2;
  _ ← lists 2 [];
  lists 3 ["test3"]%string.
Definition test_delete_user : Lt unit :=
  let AID_USER_OFFSET := 100000 in
  _ ← tx_put (2 + 2 * AID_USER_OFFSET) "test1" TEST_BLOB1;
  _ ← tx_put (4 + 2 * AID_USER_OFFSET) "test2" TEST_BLOB2;
  _ ← tx_put 3 "test3" TEST_BLOB3;
  _ ← tx_remove_user AID_USER_OFFSET 2;
  _ ← lists (2 + 2 * AID_USER_OFFSET) [];
  _ ← lists (4 + 2 * AID_USER_OFFSET) [];
  lists 3 ["test3"]%string.

(** The files a device wrote are read as its tests say: aliases, blobs,
    certificates and the characteristics of a key, here those of an elliptic
    curve key that signs; so is the table of the legacy keystore. *)
Theorem golden_files_are_read :
  forallb (forallb id) legacy_blob_tests = true /\
  (map kp_value <$> non_authbound_params) = Some
    [KeyPurpose 2; KeyPurpose 3; Digest 4; Algorithm 3; KeySize 256; EcCurve 1; NoAuthRequired; KeyOrigin 0; OSVersion 110000;
     OSPatchLevel 202101; BootPatchLevel 20210105; VendorPatchLevel 20210105; CreationDateTime 1607149052000; UserID 0] /\
  (on_new_db <$> [test_entry_db; test_delete_uid; test_delete_user]) = [true; true; true].
Proof. split_and!; vm_compute; reflexivity. Qed.
