(* ===== verification/DbTests.v ===== *)
(** * The unit tests of the database ([mod tests] of [keystore2/src/database.rs])

    The tests the repository keeps beside the database, translated and run
    against the model: a check that the definitions of [Database],
    [DbAttestation], [DbOpen] and [Perboot] are those the tests were written
    for.  A test is a computation over a fresh database that fails at the
    first assertion that does not hold.  The garbage collector of
    [new_test_db_with_gc] is the model of [Gc]. *)

From stdpp Require Import base list gmap strings.
From Stdlib Require Import ZArith Lia.
From S2P Require Import Prelude Aidl Errors Sql KeyParameter Perboot BootLevelKeys Permission DbTypes Database DbAttestation DbOpen Crypto SuperKey Gc.

#[local] Existing Instances aidl_published toy_boring.
#[local] Instance KeyEntry_eq_dec : EqDecision KeyEntry.
Proof. solve_decision. Defined.
#[local] Instance CertificateChain_eq_dec : EqDecision CertificateChain.
Proof. solve_decision. Defined.

(** ** The harness *)

Record TestDb := { t_db : Tables; t_random : nat }.
Definition new_test_db : TestDb := {| t_db := empty_tables; t_random := 0 |}.
Abbreviation Test := (sr TestDb unit).
Definition passes (t : Test unit) : bool := is_ok (t new_test_db).1.
Definition check (b : bool) : Test unit := if b then mret tt else throw tt.
Definition equal {A} `{EqDecision A} (a b : A) : Test unit := check (bool_decide (a = b)).

(** [?], [unwrap] and [expect]. *)
Definition run {A} (op : sr Tables AnyError A) : Test A := fun t =>
  let '(r, db) := op (t_db t) in (match r with Ok a => Ok a | _ => Err tt end, {| t_db := db; t_random := t_random t |}).
Definition read {A} (f : Tables -> result AnyError A) : Test A := run (query f).
Definition fails {A} (op : sr Tables AnyError A) (expected : AnyError -> bool) : Test unit := fun t =>
  let '(r, db) := op (t_db t) in
  (match r with Err e => if expected e then Ok tt else Err tt | _ => Err tt end, {| t_db := db; t_random := t_random t |}).
Definition is_rc (n : ResponseCode.name) (e : AnyError) : bool :=
  match e with KsError (Rc c) => c =? val n | _ => false end.
Definition is_km (n : ErrorCode.name) (e : AnyError) : bool :=
  match e with KsError (Km c) => c =? val n | _ => false end.
Definition is_system (e : AnyError) : bool := is_rc ResponseCode.SYSTEM_ERROR e.

(** The mocked [random]: every number comes twice. *)
Definition random (counter : nat) : Z := Z.of_nat (counter / 2).
Definition draws_from (counter : nat) : list Z := random <$> seq counter 16.
Fixpoint taken_draws (draws used : list Z) : nat :=
  match draws with
  | [] => O
  | i :: draws => if bool_decide (i ∈ used) then S (taken_draws draws used) else 1
  end.
(** An operation that draws until its number is free in the table. *)
Definition run_random {A} (used : Tables -> list Z) (op : list Z -> sr Tables AnyError A) : Test A := fun t =>
  let draws := draws_from (t_random t) in
  let '(r, db) := op draws (t_db t) in
  let n := if decide (length (used db) = length (used (t_db t))) then O else taken_draws draws (used (t_db t)) in
  (match r with Ok a => Ok a | _ => Err tt end, {| t_db := db; t_random := t_random t + n |}).
Definition test_mocked_random : Test unit :=
  check (forallb (fun n =>
    let '(r1, r2, r3) := (random n, random (S n), random (S (S n))) in
    if r1 =? r2 then r2 + 1 =? r3 else (r1 + 1 =? r2) && (r2 =? r3)) (seq 0 20)).

(** The operations the tests call, without the collector's answer. *)
Definition create_key (d namespace : Z) : Test Z :=
  r ← run_random key_ids (fun draws => create_key_entry draws d namespace KeyType.Client KEYSTORE_UUID); mret r.2.
Definition insert_keyparameter (key_id : Z) (params : list KeyParameter) : sr Tables AnyError unit :=
  transaction (insert_keyparameter_internal key_id params).
Definition insert_key_metadata (key_id : Z) (m : KeyMetaData) : sr Tables AnyError unit := transaction (key_metadata_store key_id m).
Definition rebind (newid : Z) (al : string) (d namespace : Z) : sr Tables AnyError bool :=
  transaction (rebind_alias newid al d namespace KeyType.Client).
Definition get_keyentry : Test (list KeyRow) := read (fun s => Ok (keyentry s)).
Definition allow (_ : KeyDescriptor) (_ : option Z) : result AnyError unit := Ok tt.
(** [assert_eq!] within the permission check: a panic. *)
Definition insist (b : bool) : result AnyError unit := if b then Ok tt else Panic.
Definition load (key : KeyDescriptor) (bits caller : Z) (p : KeyDescriptor -> option Z -> result AnyError unit) : Test KeyEntry :=
  r ← read (load_key_entry key KeyType.Client bits caller p true empty_tables); mret r.2.
Definition load_fails (key : KeyDescriptor) (caller : Z) : Test unit :=
  fails (query (load_key_entry key KeyType.Client LoadBits.NONE caller allow true empty_tables)) (is_rc ResponseCode.KEY_NOT_FOUND).
Definition unbind (key : KeyDescriptor) (caller : Z) : Test unit :=
  _ ← run (unbind_key key KeyType.Client caller allow); mret tt.
Definition desc (d n : Z) (al : string) : KeyDescriptor := {| domain := d; nspace := n; alias := Some al; blob := None |}.
Abbreviation APP := (val Domain.APP).
Abbreviation SELINUX := (val Domain.SELINUX).
Definition bytes_of (s : string) : bytes := (fun c => Z.of_nat (Ascii.nat_of_ascii c)) <$> String.list_ascii_of_string s.
Definition TEST_KEY_BLOB : bytes := bytes_of "my test blob".
Definition TEST_CERT_BLOB : bytes := bytes_of "my test cert".
Definition TEST_CERT_CHAIN_BLOB : bytes := bytes_of "my test cert_chain".
Definition TEST_ALIAS : string := "my super duper key".

(** ** What the tests store and expect *)

Definition tee (v : KeyParameterValue) : KeyParameter := {| kp_value := v; security_level := val SecurityLevel.TRUSTED_ENVIRONMENT |}.
Definition strongbox (v : KeyParameterValue) : KeyParameter := {| kp_value := v; security_level := val SecurityLevel.STRONGBOX |}.
Definition software (v : KeyParameterValue) : KeyParameter := {| kp_value := v; security_level := val SecurityLevel.SOFTWARE |}.
(** The enumerators are written as their published numbers. *)
Definition make_test_params (max_usage_count : option Z) : list KeyParameter :=
  [tee Invalid; tee (KeyPurpose 2); tee (KeyPurpose 1); tee (Algorithm 1); tee (KeySize 1024); tee (BlockMode 1); tee (BlockMode 32);
   strongbox (Digest 0); tee (Digest 1); tee (Digest 3); strongbox (Digest 4); tee (PaddingMode 1); tee (PaddingMode 2);
   strongbox (PaddingMode 3); tee (PaddingMode 5); tee CallerNonce; strongbox (MinMacLength 256); tee (EcCurve 0); strongbox (EcCurve 1);
   tee (EcCurve 2); tee (EcCurve 3); tee (RSAPublicExponent 3); tee IncludeUniqueID; strongbox BootLoaderOnly; strongbox RollbackResistance;
   strongbox (ActiveDateTime 1234567890); tee (OriginationExpireDateTime 1234567890); tee (UsageExpireDateTime 1234567890);
   tee (MinSecondsBetweenOps 1234567890); tee (MaxUsesPerBoot 1234567890); strongbox (UserID 1); strongbox (UserSecureID 42);
   tee NoAuthRequired; tee (HardwareAuthenticatorType 1); software (AuthTimeout 1234567890); software AllowWhileOnBody;
   tee TrustedUserPresenceRequired; tee TrustedConfirmationRequired; tee UnlockedDeviceRequired; software (ApplicationID [1; 2; 3; 4]);
   software (ApplicationData [4; 3; 2; 1]); software (CreationDateTime 12345677890); tee (KeyOrigin 0); tee (RootOfTrust [3; 2; 1; 4]);
   tee (OSVersion 1); software (OSPatchLevel 2); software (UniqueID [4; 3; 1; 2]); tee (AttestationChallenge [4; 3; 1; 2]);
   tee (AttestationApplicationID [4; 3; 1; 2]); tee (AttestationIdBrand [4; 3; 1; 2]); tee (AttestationIdDevice [4; 3; 1; 2]);
   tee (AttestationIdProduct [4; 3; 1; 2]); tee (AttestationIdSerial [4; 3; 1; 2]); tee (AttestationIdIMEI [4; 3; 1; 2]);
   tee (AttestationIdMEID [4; 3; 1; 2]); tee (AttestationIdManufacturer [4; 3; 1; 2]); tee (AttestationIdModel [4; 3; 1; 2]);
   tee (VendorPatchLevel 3); tee (BootPatchLevel 4); tee (AssociatedData [4; 3; 1; 2]); tee (Nonce [4; 3; 1; 2]); tee (MacLength 256);
   tee ResetSinceIdRotation; tee (ConfirmationToken [5; 5; 5; 5])]
  ++ match max_usage_count with Some n => [software (UsageCountLimit n)] | None => [] end.

Definition test_metadata : KeyMetaData := meta_add (CreationDate 123456789) ∅.
(** The key entry the helpers of the tests make, piece by piece. *)
Definition make_entry (d namespace : Z) (al : string) (m : BlobMetaData) (params : list KeyParameter) : Test Z :=
  key_id ← create_key d namespace;
  _ ← run (set_blob key_id SubComponentType.KEY_BLOB (Some TEST_KEY_BLOB) (Some m));
  _ ← run (set_blob key_id SubComponentType.CERT (Some TEST_CERT_BLOB) None);
  _ ← run (set_blob key_id SubComponentType.CERT_CHAIN (Some TEST_CERT_CHAIN_BLOB) None);
  _ ← run (insert_keyparameter key_id params);
  _ ← run (insert_key_metadata key_id test_metadata);
  _ ← run (rebind key_id al d namespace);
  mret key_id.
Definition entry_vector (key_id : Z) (m : BlobMetaData) (params : list KeyParameter) : KeyEntry :=
  {| ke_id := key_id; ke_key_blob_info := Some (TEST_KEY_BLOB, m); ke_cert := Some TEST_CERT_BLOB;
     ke_cert_chain := Some TEST_CERT_CHAIN_BLOB; ke_km_uuid := KEYSTORE_UUID; ke_parameters := params; ke_metadata := test_metadata;
     ke_pure_cert := false |}.

Definition password_metadata : BlobMetaData :=
  meta_add (KmUuid KEYSTORE_UUID) (meta_add (AeadTag [3; 1; 2]) (meta_add (Iv [2; 3; 1]) (meta_add (Salt [1; 2; 3])
    (meta_add (BMEncryptedBy Password) ∅)))).
Definition make_test_key_entry (d namespace : Z) (al : string) (max_usage_count : option Z) : Test Z :=
  make_entry d namespace al password_metadata (make_test_params max_usage_count).
Definition make_test_key_entry_test_vector (key_id : Z) (max_usage_count : option Z) : KeyEntry :=
  entry_vector key_id password_metadata (make_test_params max_usage_count).

Definition boot_metadata (logical_only : bool) : BlobMetaData :=
  meta_add (KmUuid KEYSTORE_UUID) (if logical_only then ∅ else meta_add (BMMaxBootLevel 3) ∅).
Definition boot_params : list KeyParameter :=
  make_test_params None ++ [{| kp_value := MaxBootLevel 3; security_level := val SecurityLevel.KEYSTORE |}].
Definition make_bootlevel_key_entry (d namespace : Z) (al : string) (logical_only : bool) : Test Z :=
  make_entry d namespace al (boot_metadata logical_only) boot_params.
Definition make_bootlevel_test_key_entry_test_vector (key_id : Z) (logical_only : bool) : KeyEntry :=
  entry_vector key_id (boot_metadata logical_only) boot_params.

Definition load_attestation_key_pool (expiration_date namespace base_byte : Z) : Test CertificateChain :=
  let public_key := [base_byte; 2 * base_byte] in
  let cert_chain := [3 * base_byte; 4 * base_byte] in
  let priv_key := [5 * base_byte; 6 * base_byte] in
  let raw_public_key := [11 * base_byte; 12 * base_byte] in
  let batch_cert := [base_byte * 13; base_byte * 14] in
  _ ← run_random key_ids (fun draws => create_attestation_key_entry draws public_key raw_public_key priv_key KEYSTORE_UUID);
  _ ← run (store_signed_attestation_certificate_chain raw_public_key batch_cert cert_chain expiration_date KEYSTORE_UUID);
  _ ← run (assign_attestation_key APP namespace KEYSTORE_UUID);
  mret {| DbAttestation.private_key := priv_key; DbAttestation.batch_cert := batch_cert; DbAttestation.chain := cert_chain |}.

(** ** The tests *)

Definition location (r : KeyRow) : option Z * option Z * option string * Uuid := (k_domain r, k_namespace r, k_alias r, k_uuid r).

Definition test_create_key_entry : Test unit :=
  _ ← create_key APP 100;
  _ ← create_key SELINUX 101;
  entries ← get_keyentry;
  _ ← equal (location <$> entries) [(Some APP, Some 100, None, KEYSTORE_UUID); (Some SELINUX, Some 101, None, KEYSTORE_UUID)];
  _ ← fails (create_key_entry [9] (val Domain.GRANT) 102 KeyType.Client KEYSTORE_UUID) is_system;
  _ ← fails (create_key_entry [9] (val Domain.BLOB) 103 KeyType.Client KEYSTORE_UUID) is_system;
  fails (create_key_entry [9] (val Domain.KEY_ID) 104 KeyType.Client KEYSTORE_UUID) is_system.

Definition test_add_unsigned_key : Test unit :=
  _ ← run_random key_ids (fun draws => create_attestation_key_entry draws [1; 2; 3] [7; 8; 9] [4; 5; 6] KEYSTORE_UUID);
  keys ← read (fetch_unsigned_attestation_keys 5 KEYSTORE_UUID);
  equal keys [[1; 2; 3]].

Definition test_store_signed_attestation_certificate_chain : Test unit :=
  loaded_values ← load_attestation_key_pool 20 30 1;
  chain ← read (retrieve_attestation_key_and_cert_chain APP 30 KEYSTORE_UUID);
  equal chain (Some loaded_values).

Definition expiring_at (date : Z) (n : Z) : Test unit :=
  status ← read (get_attestation_pool_status date KEYSTORE_UUID);
  equal (expiring status) n.
Definition test_get_attestation_pool_status : Test unit :=
  _ ← load_attestation_key_pool 10 30 1;
  _ ← load_attestation_key_pool 20 31 2;
  _ ← load_attestation_key_pool 40 32 3;
  status ← read (get_attestation_pool_status 9 KEYSTORE_UUID);
  _ ← equal (expiring status, attested status, unassigned status, total status) (0, 3, 0, 3);
  _ ← expiring_at 15 1;
  _ ← expiring_at 25 2;
  _ ← expiring_at 60 3;
  _ ← run_random key_ids (fun draws => create_attestation_key_entry draws [1; 2; 3] [7; 8; 9] [4; 5; 6] KEYSTORE_UUID);
  status ← read (get_attestation_pool_status 0 KEYSTORE_UUID);
  _ ← equal (attested status, unassigned status, total status) (3, 0, 4);
  _ ← run (store_signed_attestation_certificate_chain [7; 8; 9] [13; 14; 15] [10; 11; 12] 20 KEYSTORE_UUID);
  status ← read (get_attestation_pool_status 0 KEYSTORE_UUID);
  equal (attested status, unassigned status, total status) (4, 1, 4).

(** The collector catches up. *)
Definition collect_garbage (steps : nat) : Test unit := fun t =>
  let step g := (process_one_key (fun _ _ => Ok tt) g).2 in
  let g := Nat.iter steps step
    {| deleted_blob_ids := []; superseded_blobs := []; gc_db := t_db t; gc_super_key := new_skm; invalidated := [] |} in
  (Ok tt, {| t_db := gc_db g; t_random := t_random t |}).
Definition blob_rows (n : nat) : Test unit := rows ← read (fun s => Ok (blobentry s)); equal (length rows) n.
Definition test_remove_expired_certs : Test unit :=
  let now := 1000000 in
  entry_values ← load_attestation_key_pool (now + 10000) 30 1;
  _ ← load_attestation_key_pool 45 45 2;
  _ ← load_attestation_key_pool 60 60 3;
  _ ← blob_rows 9;
  deleted ← run (delete_expired_attestation_keys (Ok now));
  _ ← equal deleted.2 2;
  chain ← read (retrieve_attestation_key_and_cert_chain APP 30 KEYSTORE_UUID);
  _ ← equal chain (Some entry_values);
  chain ← read (retrieve_attestation_key_and_cert_chain APP 45 KEYSTORE_UUID);
  _ ← equal chain None;
  chain ← read (retrieve_attestation_key_and_cert_chain APP 60 KEYSTORE_UUID);
  _ ← equal chain None;
  _ ← collect_garbage 12;
  blob_rows 3.

Definition test_delete_all_attestation_keys : Test unit :=
  _ ← load_attestation_key_pool 45 1 2;
  _ ← load_attestation_key_pool 80 2 3;
  _ ← create_key APP 42;
  result ← run delete_all_attestation_keys;
  equal result.2 2.

Definition nth_id (entries : list KeyRow) (n : nat) : Z := default 0 (k_id <$> entries !! n).
Definition locations_are (l : list (option Z * option Z * option string * Uuid)) : Test unit :=
  entries ← get_keyentry; equal (location <$> entries) l.
Definition test_rebind_alias : Test unit :=
  let free := (Some APP, Some 42, None, KEYSTORE_UUID) in
  let bound := (Some APP, Some 42, Some "foo"%string, KEYSTORE_UUID) in
  let gone := (None, None, None, KEYSTORE_UUID) in
  _ ← create_key APP 42;
  _ ← create_key APP 42;
  entries ← get_keyentry;
  _ ← locations_are [free; free];
  _ ← run (rebind (nth_id entries 0) "foo" APP 42);
  _ ← locations_are [bound; free];
  _ ← run (rebind (nth_id entries 1) "foo" APP 42);
  _ ← locations_are [gone; bound];
  _ ← fails (rebind 0 "foo" (val Domain.GRANT) 42) is_system;
  _ ← fails (rebind 0 "foo" (val Domain.BLOB) 42) is_system;
  _ ← fails (rebind 0 "foo" (val Domain.KEY_ID) 42) is_system;
  _ ← fails (rebind 0 "foo" SELINUX 42) is_system;
  locations_are [gone; bound].

Definition PVEC1 : Z := Z.lor (val KeyPermission.USE) (val KeyPermission.GET_INFO).
Definition PVEC2 : Z := val KeyPermission.USE.
Definition do_grant (key : KeyDescriptor) (caller grantee vec : Z) (p : KeyDescriptor -> Z -> result AnyError unit) : Test KeyDescriptor :=
  r ← run_random grant_ids (fun draws => grant draws key caller grantee vec p); mret r.2.
Definition grant_desc (id : Z) : KeyDescriptor := {| domain := val Domain.GRANT; nspace := id; alias := None; blob := None |}.
Definition test_row (id d n : Z) (al : string) : KeyRow :=
  {| k_id := id; k_type := KeyType.Client; k_domain := Some d; k_namespace := Some n; k_alias := Some al; k_state := KeyLifeCycle.Live;
     k_uuid := KEYSTORE_UUID |}.
Definition test_grant_ungrant : Test unit :=
  let app_key := desc APP 0 "key" in
  let selinux_key := desc SELINUX 7 "yek" in
  _ ← run (modify (on_keyentry (fun l => l ++ [test_row 1 APP 15 "key"; test_row 2 SELINUX 7 "yek"])));
  app_granted ← do_grant app_key 15 12 PVEC1 (fun k a => insist ((a =? PVEC1) && bool_decide (k = desc APP 15 "key")));
  _ ← equal app_granted (grant_desc 0);
  selinux_granted ← do_grant selinux_key 15 12 PVEC1 (fun k a => insist ((a =? PVEC1) && bool_decide (k = selinux_key)));
  _ ← equal selinux_granted (grant_desc 1);
  selinux_granted ← do_grant selinux_key 15 12 PVEC2 (fun k a => insist ((a =? PVEC2) && bool_decide (k = selinux_key)));
  _ ← equal selinux_granted (grant_desc 1);
  rows ← read (fun s => Ok (grants s));
  _ ← equal rows [{| g_id := 0; g_grantee := 12; g_key := 1; g_vec := PVEC1 |}; {| g_id := 1; g_grantee := 12; g_key := 2; g_vec := PVEC2 |}];
  _ ← run (ungrant app_key 15 12 (fun _ => Ok tt));
  _ ← run (ungrant selinux_key 15 12 (fun _ => Ok tt));
  mret tt.

Definition test_set_blob : Test unit :=
  let m : BlobMetaData := meta_add (KmUuid KEYSTORE_UUID) ∅ in
  _ ← run (set_blob 3000 SubComponentType.KEY_BLOB (Some TEST_KEY_BLOB) (Some m));
  _ ← run (set_blob 3000 SubComponentType.CERT (Some TEST_CERT_BLOB) None);
  _ ← run (set_blob 3000 SubComponentType.CERT_CHAIN (Some TEST_CERT_CHAIN_BLOB) None);
  rows ← read (fun s => Ok (blobentry s));
  _ ← equal ((fun r => (b_type r, b_key r, b_blob r)) <$> rows)
        [(SubComponentType.KEY_BLOB, 3000, TEST_KEY_BLOB); (SubComponentType.CERT, 3000, TEST_CERT_BLOB);
         (SubComponentType.CERT_CHAIN, 3000, TEST_CERT_CHAIN_BLOB)];
  loaded ← read (fun s => meta_load (default 0 (b_id <$> head rows)) (blobmetadata s));
  equal loaded m.

(** A key is stored, loaded in full, deleted and then not found. *)
Definition load_and_unbind (key : KeyDescriptor) (key_id : Z) : Test unit :=
  entry ← load key LoadBits.BOTH 1 allow;
  _ ← equal entry (make_test_key_entry_test_vector key_id None);
  _ ← unbind key 1;
  load_fails key 1.
Definition test_insert_and_load_full_keyentry_domain_app : Test unit :=
  key_id ← make_test_key_entry APP 1 TEST_ALIAS None;
  load_and_unbind (desc APP 0 TEST_ALIAS) key_id.
Definition test_insert_and_load_full_keyentry_domain_selinux : Test unit :=
  key_id ← make_test_key_entry SELINUX 1 TEST_ALIAS None;
  load_and_unbind (desc SELINUX 1 TEST_ALIAS) key_id.
Definition test_insert_and_load_full_keyentry_domain_key_id : Test unit :=
  key_id ← make_test_key_entry SELINUX 1 TEST_ALIAS None;
  load_and_unbind (key_id_descriptor key_id) key_id.
Definition test_insert_and_load_certificate_entry_domain_app : Test unit :=
  let key := desc APP 1 TEST_ALIAS in
  _ ← run_random key_ids (fun draws => store_new_certificate draws (Ok 5) key KeyType.Client TEST_CERT_BLOB KEYSTORE_UUID);
  entry ← load key LoadBits.PUBLIC 1 allow;
  _ ← equal (ke_pure_cert entry, ke_cert entry, ke_cert_chain entry) (true, None, Some TEST_CERT_BLOB);
  _ ← unbind key 1;
  load_fails key 1.

Definition test_check_and_update_key_usage_count_with_limited_use_key : Test unit :=
  key_id ← make_test_key_entry SELINUX 1 TEST_ALIAS (Some 123);
  _ ← run (check_and_update_key_usage_count key_id);
  entry ← load (key_id_descriptor key_id) LoadBits.BOTH 1 allow;
  equal entry (make_test_key_entry_test_vector key_id (Some 122)).
Definition test_check_and_update_key_usage_count_with_exhausted_limited_use_key : Test unit :=
  key_id ← make_test_key_entry SELINUX 1 TEST_ALIAS (Some 1);
  _ ← run (check_and_update_key_usage_count key_id);
  fails (check_and_update_key_usage_count key_id) (is_km ErrorCode.INVALID_KEY_BLOB).

Definition includes_use (av : option Z) : bool :=
  match av with Some v => Z.land v (val KeyPermission.USE) =? val KeyPermission.USE | None => false end.
Definition test_insert_and_load_full_keyentry_from_grant : Test unit :=
  key_id ← make_test_key_entry APP 1 TEST_ALIAS None;
  granted_key ← do_grant (desc APP 0 TEST_ALIAS) 1 2 PVEC2 (fun _ _ => Ok tt);
  entry ← load granted_key LoadBits.BOTH 2 (fun k av => insist ((domain k =? val Domain.GRANT) && includes_use av));
  _ ← equal entry (make_test_key_entry_test_vector key_id None);
  _ ← unbind granted_key 2;
  load_fails granted_key 2.
Definition test_insert_and_load_full_keyentry_from_grant_by_key_id : Test unit :=
  key_id ← make_test_key_entry APP 1 TEST_ALIAS None;
  _ ← do_grant (desc APP 0 TEST_ALIAS) 1 2 PVEC2 (fun _ _ => Ok tt);
  let id_descriptor := key_id_descriptor key_id in
  let is_owners k := (domain k =? APP) && (nspace k =? 1) in
  entry ← load id_descriptor LoadBits.BOTH 2 (fun k av => insist (is_owners k && includes_use av));
  _ ← equal entry (make_test_key_entry_test_vector key_id None);
  entry ← load id_descriptor LoadBits.BOTH 3 (fun k av => insist (is_owners k && bool_decide (av = None)));
  _ ← equal entry (make_test_key_entry_test_vector key_id None);
  _ ← unbind id_descriptor 1;
  load_fails id_descriptor 2.

(** A key moves to another place and is found there only. *)
Definition move_and_load (destination : KeyDescriptor) (d n : Z) : Test unit :=
  key_id ← make_test_key_entry APP 1 "SOURCE_ALIAS" None;
  _ ← run (migrate_key_namespace key_id destination 2 (fun _ => Ok tt));
  entry ← load destination LoadBits.BOTH 2 (fun k av => insist ((domain k =? d) && (nspace k =? n) && bool_decide (av = None)));
  _ ← equal entry (make_test_key_entry_test_vector key_id None);
  load_fails (desc APP (-1) "SOURCE_ALIAS") 1.
Definition test_migrate_key_app_to_app : Test unit := move_and_load (desc APP (-1) "DESTINATION_ALIAS") APP 2.
Definition test_migrate_key_app_to_selinux : Test unit := move_and_load (desc SELINUX 1000 "DESTINATION_ALIAS") SELINUX 1000.
Definition test_migrate_key_destination_occupied : Test unit :=
  key_id ← make_test_key_entry APP 1 "SOURCE_ALIAS" None;
  _ ← make_test_key_entry APP 2 "DESTINATION_ALIAS" None;
  fails (migrate_key_namespace key_id (desc APP (-1) "DESTINATION_ALIAS") 2 (fun _ => Ok tt)) (is_rc ResponseCode.INVALID_ARGUMENT).

Definition upgrade : sr Tables AnyError Z := fun s =>
  let '(r, p) := transaction from_0_to_1 {| version := None; present := list_to_set table_names; rows := s |} in (r, rows p).
Definition test_upgrade_0_to_1 : Test unit :=
  let UID := 33 in
  let mine k av := insist ((domain k =? APP) && (nspace k =? UID) && bool_decide (av = None)) in
  let get al := load (desc APP (-1) al) LoadBits.BOTH UID mine in
  id1 ← make_test_key_entry APP UID "test_upgrade_0_to_1_1" None;
  id2 ← make_bootlevel_key_entry APP UID "test_upgrade_0_to_1_2" false;
  id3 ← make_bootlevel_key_entry APP UID "test_upgrade_0_to_1_3" true;
  e1 ← get "test_upgrade_0_to_1_1"%string;
  _ ← equal e1 (make_test_key_entry_test_vector id1 None);
  e2 ← get "test_upgrade_0_to_1_2"%string;
  _ ← equal e2 (make_bootlevel_test_key_entry_test_vector id2 false);
  e3 ← get "test_upgrade_0_to_1_3"%string;
  _ ← equal e3 (make_bootlevel_test_key_entry_test_vector id3 true);
  _ ← run upgrade;
  e1 ← get "test_upgrade_0_to_1_1"%string;
  _ ← equal e1 (make_test_key_entry_test_vector id1 None);
  e2 ← get "test_upgrade_0_to_1_2"%string;
  _ ← equal e2 (make_bootlevel_test_key_entry_test_vector id2 false);
  fails (query (load_key_entry (desc APP (-1) "test_upgrade_0_to_1_3") KeyType.Client LoadBits.BOTH UID mine true empty_tables))
    (is_rc ResponseCode.KEY_NOT_FOUND).

Fixpoint each {A B} (f : A -> Test B) (l : list A) : Test (list B) :=
  match l with [] => mret [] | a :: l => b ← f a; bs ← each f l; mret (b :: bs) end.
Definition LIST_O_ENTRIES : list (Z * Z * string) :=
  ((fun al => (APP, 1, al)) <$> ["test1"; "test2"; "test3"; "test4"; "test5"; "test6"; "test7"]%string) ++
  ((fun al => (APP, 2, al)) <$> ["test1"; "test2"; "test3"; "test4"; "test5"; "test6"; "test8"]%string) ++
  ((fun al => (SELINUX, 100, al)) <$> ["test1"; "test2"; "test3"; "test4"; "test5"; "test6"; "test9"]%string).
(** The lists the test sorts are already in the order of the rows. *)
Definition test_list : Test unit :=
  list_o_keys ← each (fun '(d, ns, al) => id ← make_test_key_entry d ns al None; mret (id, ns)) LIST_O_ENTRIES;
  _ ← each (fun '(d, namespace) =>
        let list_o_descriptors := omap (fun '(d, ns, al) => if ns =? namespace then Some (desc d ns al) else None) LIST_O_ENTRIES in
        list_result ← read (fun s => Ok (list_keys d namespace KeyType.Client s));
        _ ← equal list_result list_o_descriptors;
        list_o_ids ← each (fun d => e ← load d LoadBits.NONE namespace allow; mret (ke_id e)) list_o_descriptors;
        equal list_o_ids (omap (fun '(id, ns) => if ns =? namespace then Some id else None) list_o_keys))
      [(APP, 1); (APP, 2); (SELINUX, 100)];
  empty ← read (fun s => Ok (list_keys SELINUX 101 KeyType.Client s));
  equal empty [].

Definition keys_listed (n : Z) (count : nat) : Test unit :=
  l ← read (fun s => Ok (list_keys APP n KeyType.Client s)); equal (length l) count.
Definition test_unbind_keys_for_user : Test unit :=
  _ ← run (unbind_keys_for_user 100000 1 false);
  _ ← make_test_key_entry APP 210000 TEST_ALIAS None;
  _ ← make_test_key_entry APP 110000 TEST_ALIAS None;
  _ ← run (unbind_keys_for_user 100000 2 false);
  _ ← keys_listed 110000 1;
  _ ← keys_listed 210000 0;
  _ ← run (unbind_keys_for_user 100000 1 true);
  keys_listed 110000 0.

Definition test_load_key_descriptor : Test unit :=
  key_id ← make_test_key_entry APP 1 TEST_ALIAS None;
  key ← read (load_key_descriptor key_id);
  _ ← equal key (Some (desc APP 1 TEST_ALIAS));
  key ← read (load_key_descriptor (key_id + 1));
  equal key None.

Definition database_tests : list (Test unit) :=
  [test_mocked_random; test_create_key_entry; test_add_unsigned_key; test_store_signed_attestation_certificate_chain;
   test_get_attestation_pool_status; test_remove_expired_certs; test_delete_all_attestation_keys; test_rebind_alias; test_grant_ungrant;
   test_set_blob; test_insert_and_load_full_keyentry_domain_app; test_insert_and_load_certificate_entry_domain_app;
   test_insert_and_load_full_keyentry_domain_selinux; test_insert_and_load_full_keyentry_domain_key_id;
   test_check_and_update_key_usage_count_with_limited_use_key; test_check_and_update_key_usage_count_with_exhausted_limited_use_key;
   test_insert_and_load_full_keyentry_from_grant; test_insert_and_load_full_keyentry_from_grant_by_key_id; test_migrate_key_app_to_app;
   test_migrate_key_app_to_selinux; test_migrate_key_destination_occupied; test_upgrade_0_to_1; test_list; test_unbind_keys_for_user;
   test_load_key_descriptor].

(** The tests pass on the model. *)
Theorem database_tests_pass : passes <$> database_tests = replicate (length database_tests) true.
Proof. vm_compute. reflexivity. Qed.
