(* ===== verification/UnitTests.v ===== *)
(** * Further unit tests of the repository

    Permissions ([permission.rs]), key parameters ([key_parameter.rs]), the
    per boot database (database.rs), the async task with its shelf
    ([async_task.rs]), errors ([error.rs]), schema versions ([versioning.rs]),
    boot level keys ([boot_level_keys.rs], with a toy HKDF) and id rotation
    ([id_rotation.rs]), run against the model.  The tests of the permissions
    assume the SELinux policy of a device; [policy] is what they assume of
    it. *)

From stdpp Require Import base list gmap strings.
From Stdlib Require Import ZArith Lia.
From S2P Require Import Prelude IdRotation Aidl Errors Sql KeyParameter Perboot BootLevelKeys Permission DbTypes Database DbOpen AsyncTask Entropy.

#[local] Existing Instance aidl_published.
Abbreviation same x y := (bool_decide (x = y)).

(** ** Permissions *)

Module Permissions.
Abbreviation perm n := (val (N := KeyPermission.name) n).
(** [key_perm_set!]. *)
Definition key_perm_set (l : list KeyPermission.name) : Z := foldr Z.lor 0 (val <$> l).
Import KeyPermission.

Definition ALL_PERMS : Z :=
  key_perm_set [MANAGE_BLOB; DELETE; USE_DEV_ID; REQ_FORCED_OP; GEN_UNIQUE_ID; GRANT; GET_INFO; REBIND; UPDATE; USE; CONVERT_STORAGE_KEY_TO_EPHEMERAL].
Definition SYSTEM_SERVER_PERMISSIONS_NO_GRANT : Z := key_perm_set [DELETE; USE_DEV_ID; GET_INFO; REBIND; UPDATE; USE].
Definition NOT_GRANT_PERMS : Z :=
  key_perm_set [MANAGE_BLOB; DELETE; USE_DEV_ID; REQ_FORCED_OP; GEN_UNIQUE_ID; GET_INFO; REBIND; UPDATE; USE; CONVERT_STORAGE_KEY_TO_EPHEMERAL].
Definition UNPRIV_PERMS : Z := key_perm_set [DELETE; GET_INFO; REBIND; UPDATE; USE].

(** The domains of the tests and the target contexts. *)
Inductive Ctx := SystemServer | Shell | Gmscore | Su | Keystore | KeyLabel (ns : Z) | Ignored.
Definition unprivileged : list string := ["delete"; "get_info"; "rebind"; "update"; "use"].
Definition policy (source target : Ctx) (class p : string) : result AnyError unit :=
  let allowed :=
    match source with
    | Su => true
    | SystemServer => same class "keystore2"%string || same p "grant"%string || same p "use_dev_id"%string || bool_decide (p ∈ unprivileged)
    | Shell => (same class "keystore2"%string && same p "get_state"%string) || (same class "keystore2_key"%string && bool_decide (p ∈ unprivileged))
    | Gmscore => same p "gen_unique_id"%string
    | _ => false
    end in
  if allowed then Ok tt else Err (SeError PermissionDenied).
Abbreviation check_keystore := (check_keystore_permission (Ok Keystore) policy).
Abbreviation check_grant := (check_grant_permission (Ok Keystore) (fun ns => Ok (KeyLabel ns)) policy).
Abbreviation check_key := (check_key_permission (Ok Keystore) (fun ns => Ok (KeyLabel ns)) policy).
(** [assert_perm_failed!]. *)
Definition perm_failed (r : result AnyError unit) : bool := match r with Err (SeError PermissionDenied) => true | _ => false end.
Definition key_in (d ns : Z) : KeyDescriptor := {| domain := d; nspace := ns; alias := None; blob := None |}.

Definition check_keystore_permission_test : list bool :=
  ((fun p => is_ok (check_keystore SystemServer p)) <$>
    [KeystorePerm.AddAuth; KeystorePerm.ClearNs; KeystorePerm.GetState; KeystorePerm.Lock; KeystorePerm.Reset; KeystorePerm.Unlock;
     KeystorePerm.ChangeUser; KeystorePerm.ChangePassword; KeystorePerm.ClearUID]) ++
  is_ok (check_keystore Shell KeystorePerm.GetState) ::
  ((fun p => perm_failed (check_keystore Shell p)) <$>
    [KeystorePerm.AddAuth; KeystorePerm.ClearNs; KeystorePerm.List; KeystorePerm.Lock; KeystorePerm.Reset; KeystorePerm.Unlock;
     KeystorePerm.ChangeUser; KeystorePerm.ChangePassword; KeystorePerm.ClearUID]).
Definition check_grant_permission_app : list bool :=
  let key := key_in (val Domain.APP) 0 in
  [is_ok (check_grant SystemServer SYSTEM_SERVER_PERMISSIONS_NO_GRANT key); perm_failed (check_grant SystemServer (perm GRANT) key);
   perm_failed (check_grant Shell UNPRIV_PERMS key)].
(** As su, and as shell. *)
Definition check_grant_permission_selinux : list bool :=
  [is_ok (check_grant Su NOT_GRANT_PERMS (key_in (val Domain.SELINUX) 0)); perm_failed (check_grant Su (perm GRANT) (key_in (val Domain.SELINUX) 0));
   perm_failed (check_grant Shell UNPRIV_PERMS (key_in (val Domain.SELINUX) 1))].
Definition check_key_permission_domain_grant : list bool :=
  let key := key_in (val Domain.GRANT) 0 in
  [perm_failed (check_key 0 Ignored (perm GRANT) key (Some UNPRIV_PERMS)); is_ok (check_key 0 Ignored (perm USE) key (Some ALL_PERMS))].
Definition check_key_permission_domain_app : list bool :=
  let key := key_in (val Domain.APP) 0 in
  ((fun p => is_ok (check_key 0 SystemServer (perm p) key None)) <$> [USE; DELETE; GET_INFO; REBIND; UPDATE; GRANT; USE_DEV_ID]) ++
  is_ok (check_key 0 Gmscore (perm GEN_UNIQUE_ID) key None) ::
  ((fun p => is_ok (check_key 0 Shell (perm p) key None)) <$> [USE; DELETE; GET_INFO; REBIND; UPDATE]) ++
  ((fun p => perm_failed (check_key 0 Shell (perm p) key None)) <$> [GRANT; REQ_FORCED_OP; MANAGE_BLOB; USE_DEV_ID; GEN_UNIQUE_ID]) ++
  [perm_failed (check_key 1 SystemServer (perm USE) key None); is_ok (check_key 1 SystemServer (perm USE) key (Some (key_perm_set [USE])));
   perm_failed (check_key 1 SystemServer (perm USE) key (Some (key_perm_set [GET_INFO])))].
Definition check_key_permission_domain_selinux : list bool :=
  let su := key_in (val Domain.SELINUX) 0 in
  let shell := key_in (val Domain.SELINUX) 1 in
  ((fun p => is_ok (check_key 0 Su (perm p) su None)) <$>
    [USE; DELETE; GET_INFO; REBIND; UPDATE; GRANT; MANAGE_BLOB; USE_DEV_ID; GEN_UNIQUE_ID; REQ_FORCED_OP]) ++
  ((fun p => is_ok (check_key 0 Shell (perm p) shell None)) <$> [USE; DELETE; GET_INFO; REBIND; UPDATE]) ++
  ((fun p => perm_failed (check_key 0 Shell (perm p) shell None)) <$> [GRANT; REQ_FORCED_OP; MANAGE_BLOB; USE_DEV_ID; GEN_UNIQUE_ID]).
Definition check_key_permission_domain_blob : list bool :=
  [is_ok (check_key 0 Su (perm USE) (key_in (val Domain.BLOB) 0) None); perm_failed (check_key 0 Shell (perm USE) (key_in (val Domain.BLOB) 1) None)].
Definition check_key_permission_domain_key_id : list bool :=
  [match check_key 0 Ignored (perm USE) (key_in (val Domain.KEY_ID) 0) None with Err (KsError (Rc c)) => c =? val ResponseCode.SYSTEM_ERROR | _ => false end].

Definition names (v : Z) : list string := to_selinux <$> into_iter v.
Definition key_perm_set_all_test : list bool :=
  [same (names (key_perm_set [MANAGE_BLOB; DELETE; USE_DEV_ID; REQ_FORCED_OP; GEN_UNIQUE_ID; GRANT; GET_INFO; REBIND; UPDATE; USE]))
     ["delete"; "gen_unique_id"; "get_info"; "grant"; "manage_blob"; "rebind"; "req_forced_op"; "update"; "use"; "use_dev_id"]%string].
Definition key_perm_set_sparse_test : list bool :=
  [same (names (key_perm_set [MANAGE_BLOB; REQ_FORCED_OP; GEN_UNIQUE_ID; UPDATE; USE]))
     ["gen_unique_id"; "manage_blob"; "req_forced_op"; "update"; "use"]%string].
Definition key_perm_set_empty_test : list bool := [same (names (key_perm_set [])) []].
Definition key_perm_set_include_subset_test : list bool :=
  let v1 := key_perm_set [MANAGE_BLOB; DELETE; USE_DEV_ID; REQ_FORCED_OP; GEN_UNIQUE_ID; GRANT; GET_INFO; REBIND; UPDATE; USE] in
  let v2 := key_perm_set [MANAGE_BLOB; DELETE; REBIND; UPDATE; USE] in
  [includes v1 v2; negb (includes v2 v1)].
Definition key_perm_set_include_equal_test : list bool :=
  let v := key_perm_set [MANAGE_BLOB; DELETE; REBIND; UPDATE; USE] in [includes v v].
Definition key_perm_set_include_overlap_test : list bool :=
  let v1 := key_perm_set [MANAGE_BLOB; DELETE; GRANT; REBIND; UPDATE; USE] in
  let v2 := key_perm_set [MANAGE_BLOB; DELETE; REQ_FORCED_OP; REBIND; UPDATE; USE] in
  [negb (includes v1 v2); negb (includes v2 v1)].
Definition key_perm_set_include_no_overlap_test : list bool :=
  let v1 := key_perm_set [MANAGE_BLOB; DELETE; GRANT] in
  let v2 := key_perm_set [REQ_FORCED_OP; REBIND; UPDATE; USE] in
  [negb (includes v1 v2); negb (includes v2 v1)].
Definition all : list (list bool) :=
  [check_keystore_permission_test; check_grant_permission_app; check_grant_permission_selinux; check_key_permission_domain_grant;
   check_key_permission_domain_app; check_key_permission_domain_selinux; check_key_permission_domain_blob; check_key_permission_domain_key_id;
   key_perm_set_all_test; key_perm_set_sparse_test; key_perm_set_empty_test; key_perm_set_include_subset_test;
   key_perm_set_include_equal_test; key_perm_set_include_overlap_test; key_perm_set_include_no_overlap_test].
End Permissions.

(** ** Key parameters *)

Module Parameters.
(** The union field a tag calls for, by the tag or by its type. *)
Inductive Kind :=
| KAlgorithm | KBlockMode | KPaddingMode | KDigest | KEcCurve | KOrigin | KKeyPurpose | KAuthenticatorType | KSecurityLevel
| KInvalid | KInteger | KLongInteger | KDateTime | KBool | KBlob.
#[global] Instance Kind_eq_dec : EqDecision Kind.
Proof. solve_decision. Defined.
Definition kind_of (f : Field.value) : Kind :=
  match f with
  | Field.Algorithm _ => KAlgorithm | Field.BlockMode _ => KBlockMode | Field.PaddingMode _ => KPaddingMode | Field.Digest _ => KDigest
  | Field.EcCurve _ => KEcCurve | Field.Origin _ => KOrigin | Field.KeyPurpose _ => KKeyPurpose
  | Field.HardwareAuthenticatorType _ => KAuthenticatorType | Field.SecurityLevel _ => KSecurityLevel | Field.Invalid _ => KInvalid
  | Field.Integer _ => KInteger | Field.LongInteger _ => KLongInteger | Field.DateTime _ => KDateTime | Field.BoolValue _ => KBool
  | Field.Blob _ => KBlob
  end.
(** The panic for an unknown type is [None]; no key parameter has the tag
    HARDWARE_TYPE. *)
Definition get_field_by_tag_type (t : Z) : option Kind :=
  match name_of Tag.all t with
  | Some Tag.ALGORITHM => Some KAlgorithm
  | Some Tag.BLOCK_MODE => Some KBlockMode
  | Some Tag.PADDING => Some KPaddingMode
  | Some Tag.DIGEST => Some KDigest
  | Some Tag.EC_CURVE => Some KEcCurve
  | Some Tag.ORIGIN => Some KOrigin
  | Some Tag.PURPOSE => Some KKeyPurpose
  | Some Tag.USER_AUTH_TYPE => Some KAuthenticatorType
  | _ =>
    match name_of TagType.all (as_i32 (Z.land (as_u32 t) 0xF0000000)) with
    | Some TagType.INVALID => Some KInvalid
    | Some (TagType.UINT | TagType.UINT_REP) => Some KInteger
    | Some (TagType.ULONG | TagType.ULONG_REP) => Some KLongInteger
    | Some TagType.DATE => Some KDateTime
    | Some TagType.BOOL => Some KBool
    | Some (TagType.BIGNUM | TagType.BYTES) => Some KBlob
    | _ => None
    end
  end.
Definition check_field_matches_tag_type (kp : KmKeyParameter) : bool := same (get_field_by_tag_type (tag kp)) (Some (kind_of (value kp))).

(** Every key parameter goes to the field its tag calls for, as
    [key_parameter_value_field_matches_tag_type] checks for one value of each
    variant. *)
Lemma field_matches_tag_type v : check_field_matches_tag_type (into_km v) = true.
Proof. destruct v; vm_compute; reflexivity. Qed.

(** The table of the storage tests, with one row. *)
Definition Row : Type := Z * Value * Z.
Definition query_from_keyparameter (r : Row) : result AnyError KeyParameter :=
  v ← new_from_sql r.1.1 r.1.2; Ok {| kp_value := v; security_level := r.2 |}.
Definition store_keyparameter (kp : KeyParameter) : Row := (get_tag (kp_value kp), to_sql (kp_value kp), security_level kp).
Definition STRONGBOX : Z := val SecurityLevel.STRONGBOX.
Definition reads (r : Row) (t : Tag.name) (v : KeyParameterValue) : bool :=
  match query_from_keyparameter r with
  | Ok kp => (get_tag (kp_value kp) =? val t) && same (kp_value kp) v && (security_level kp =? r.2)
  | _ => false
  end.
Definition app_id_bytes : bytes := [77; 121; 65; 112; 112; 73; 68].
Definition i64_max : Z := 2^63 - 1.
Definition test_new_from_sql : list bool :=
  [reads (val Tag.ALGORITHM, Integer 1, STRONGBOX) Tag.ALGORITHM (Algorithm 1); reads (val Tag.KEY_SIZE, Integer 1024, STRONGBOX) Tag.KEY_SIZE (KeySize 1024);
   reads (val Tag.RSA_PUBLIC_EXPONENT, Integer i64_max, STRONGBOX) Tag.RSA_PUBLIC_EXPONENT (RSAPublicExponent i64_max);
   reads (val Tag.CALLER_NONCE, Null, STRONGBOX) Tag.CALLER_NONCE CallerNonce;
   reads (val Tag.APPLICATION_ID, BlobVal app_id_bytes, STRONGBOX) Tag.APPLICATION_ID (ApplicationID app_id_bytes)].
Definition test_to_sql : list bool :=
  (fun v => match query_from_keyparameter (store_keyparameter {| kp_value := v; security_level := STRONGBOX |}) with
            | Ok kp => same kp {| kp_value := v; security_level := STRONGBOX |}
            | _ => false
            end) <$> [Algorithm 1; KeySize 1024; RSAPublicExponent i64_max; ApplicationID app_id_bytes; CallerNonce].
Definition test_invalid_tag : list bool := [reads (0, Integer 123, 1) Tag.INVALID Invalid].
Definition test_non_existing_enum_variant : list bool := [reads (100, Integer 123, 1) Tag.INVALID Invalid].
Definition test_invalid_conversion_from_sql : list bool :=
  [match query_from_keyparameter (val Tag.ALGORITHM, Null, 1) with Err _ => true | _ => false end].

Definition ConfirmationToken_bytes : bytes := [67; 111; 110; 102; 105; 114; 109; 97; 116; 105; 111; 110; 84; 111; 107; 101; 110].
(** A parameter and its wire form. *)
Definition wire_pairs : list (KeyParameterValue * Tag.name * Field.value) :=
  [(Invalid, Tag.INVALID, Field.Invalid 0); (CallerNonce, Tag.CALLER_NONCE, Field.BoolValue true);
   (KeyPurpose 0, Tag.PURPOSE, Field.KeyPurpose 0); (UserSecureID i64_max, Tag.USER_SECURE_ID, Field.LongInteger i64_max);
   (ConfirmationToken ConfirmationToken_bytes, Tag.CONFIRMATION_TOKEN, Field.Blob ConfirmationToken_bytes)].
#[local] Instance Field_eq_dec : EqDecision Field.value.
Proof. solve_decision. Defined.
#[local] Instance KmKeyParameter_eq_dec : EqDecision KmKeyParameter.
Proof. solve_decision. Defined.
Definition test_convert_to_wire : list bool := (fun '(v, t, f) => same (into_km v) {| tag := val t; value := f |}) <$> wire_pairs.
Definition test_convert_from_wire : list bool := (fun '(v, t, f) => same (from_km {| tag := val t; value := f |}) v) <$> wire_pairs.
Definition all : list (list bool) :=
  [test_new_from_sql; test_to_sql; test_invalid_tag; test_non_existing_enum_variant; test_invalid_conversion_from_sql; test_convert_to_wire;
   test_convert_from_wire].
End Parameters.

(** ** The per boot database *)

Module PerbootTests.
Definition token (challenge user auth ty t : Z) (mac : bytes) : HardwareAuthToken :=
  {| challenge := challenge; userId := user; authenticatorId := auth; authenticatorType := ty; timestamp := t; mac := mac |}.
Definition PASSWORD : Z := 1.
Definition ANY : Z := -1.
Definition mac_ : bytes := [109; 97; 99].
Definition test_auth_token_table_invariant : list bool :=
  let db1 := insert_auth_token Perboot.new (token Parameters.i64_max 200 200 PASSWORD 500 mac_) 1 in
  let db2 := insert_auth_token db1 (token Parameters.i64_max 200 200 PASSWORD 600 mac_) 2 in
  let db3 := insert_auth_token db2 (token Parameters.i64_max 201 200 PASSWORD 600 mac_) 3 in
  [same (length (auth_tokens db1)) 1%nat; same (length (auth_tokens db2)) 1%nat;
   same (timestamp ∘ auth_token <$> last (auth_tokens db2)) (Some 600); same (length (auth_tokens db3)) 2%nat].
Definition test_last_off_body : list bool :=
  let db1 := set_last_off_body Perboot.new 10 in
  let db2 := set_last_off_body db1 1010 in
  [get_last_off_body db1 <? get_last_off_body db2].
Definition find_auth_token_entry_returns_latest : list bool :=
  let db := insert_auth_token (insert_auth_token (insert_auth_token Perboot.new
    (token 123 456 789 ANY 10 [0]) 1) (token 123 457 789 ANY 12 [1]) 2) (token 123 458 789 ANY 3 [2]) 3 in
  [same (auth_tokens_len db) 3%nat;
   same ((fun e => mac (auth_token e.1)) <$> db_find_auth_token_entry db (fun _ => true)) (Some [2])].
Definition all : list (list bool) := [test_auth_token_table_invariant; test_last_off_body; find_auth_token_entry_returns_latest].
End PerbootTests.

(** ** The async task *)

Module AsyncTests.
(** The types put on the shelf. *)
Inductive Ty := TString | TElf | TU64 | TI32.
#[global] Instance Ty_eq_dec : EqDecision Ty.
Proof. solve_decision. Defined.
#[global] Instance Ty_countable : Countable Ty.
Proof.
  apply (inj_countable' (fun t => match t with TString => 0%nat | TElf => 1%nat | TU64 => 2%nat | TI32 => 3%nat end)
    (fun n => match n with 0%nat => TString | 1%nat => TElf | 2%nat => TU64 | _ => TI32 end)). by intros [].
Defined.
(** An [Elf] is its name. *)
Definition denote (t : Ty) : Type := match t with TString | TElf => string | TU64 | TI32 => Z end.
Definition test_shelf : list bool :=
  let '(p1, s1) := put denote TString "A string"%string ∅ in
  let '(p2, s2) := put denote TString "Another string"%string s1 in
  let '(p3, s3) := put denote TElf "Glorfindel"%string s2 in
  let '(e2, s4) := get_downcast_mut denote TElf (fun _ => "Celeborn"%string) s3 in
  let '(e3, s5) := remove_downcast_ref denote TElf s4 in
  let '(e4, s6) := remove_downcast_ref denote TElf s5 in
  let '(i, s7) := get_mut denote TU64 0 (fun _ => 42) s6 in
  [same p1 None; same p2 (Some "A string"%string); same p3 None; same (get_downcast_ref denote TString s3) (Some "Another string"%string);
   same e2 (Some "Glorfindel"%string); same e3 (Some "Celeborn"%string); same e4 None; match i with Ok z => z =? 0 | _ => false end;
   same (get_downcast_ref denote TU64 s7) (Some 42); same (get_downcast_ref denote TI32 s7) None;
   same (get_downcast_mut denote TI32 id s7).1 None; same (remove_downcast_ref denote TI32 s7).1 None].

(** Queue jobs, in order and with their priorities. *)
Definition enqueue {J S} (l : list (J * bool)) (s : result unit (@AsyncTaskState J S)) : result unit (@AsyncTaskState J S) :=
  fold_left (fun s '(j, hi) => s ≫= queue j hi) l s.
Definition shelf_of {J S} (s : @AsyncTaskState J S) : option S :=
  match thread s with Some (Loop sh _ | Busy _ sh | Idling _ sh) => Some sh | _ => None end.

(** The first job waits until all others are queued; then they write to the
    trace, and the last one reads it. *)
Inductive TraceJob := PutTrace | Write (s : string) | Emit.
Definition run_trace (j : TraceJob) (sh : option (list string) * list (list string)) : option (option (list string) * list (list string)) :=
  match j with
  | PutTrace => Some (Some [], sh.2)
  | Write s => Some (Some (default [] sh.1 ++ [s]), sh.2)
  | Emit => (fun t => (sh.1, sh.2 ++ [t])) <$> sh.1
  end.
Definition test_async_task : list bool :=
  let jobs := [(PutTrace, true); (Write "L0", false); (Write "H0", true); (Write "L1", false); (Write "H1", true); (Write "L2", false);
               (Write "H2", true); (Emit, false)]%string in
  match enqueue jobs (Ok AsyncTask.new) with
  | Ok s => [same (snd <$> shelf_of (work run_trace (None, []) 40 s)) (Some [["H0"; "H1"; "H2"; "L0"; "L1"; "L2"]]%string)]
  | _ => [false]
  end.

(** Jobs count what they do; the idle callback counts how often it ran. *)
Inductive CountJob := Sleep | Idle (i : nat).
Definition run_count (j : CountJob) (sh : nat * list nat) : option (nat * list nat) :=
  match j with Sleep => Some (S sh.1, sh.2) | Idle i => Some (sh.1, sh.2 ++ [i]) end.
Abbreviation works n s := (default (0%nat, []) (shelf_of (work run_count (0%nat, []) n s))).
Definition seven : list (CountJob * bool) :=
  [(Sleep, false); (Sleep, true); (Sleep, false); (Sleep, true); (Sleep, false); (Sleep, true); (Sleep, false)].
Definition test_async_task_idle : list bool :=
  match enqueue seven (Ok (add_idle (Idle 0) AsyncTask.new)) with
  | Ok s =>
    let rested := work run_count (0%nat, []) 40 s in
    (* nothing before the last job is done, once after it, and not again *)
    [forallb (fun n => let '(done, idle) := works n s in same idle [] || (same done 7%nat && same idle [0%nat])) (seq 0 60);
     same (works 40 s) (7%nat, [0%nat]); same (works 60 s) (7%nat, [0%nat]);
     match queue Sleep true rested with Ok s' => same (works 20 s') (8%nat, [0; 0]%nat) | _ => false end]
  | _ => [false]
  end.
Definition test_async_task_multiple_idle : list bool :=
  match enqueue [(Sleep, true)] (Ok AsyncTask.new) with
  | Ok s => let s := add_idle (Idle 2) (add_idle (Idle 1) (add_idle (Idle 0) s)) in
            [same (works 1 s).2 []; same (works 20 s).2 [0; 1; 2]%nat]
  | _ => [false]
  end.
Definition all : list (list bool) := [test_shelf; test_async_task; test_async_task_idle; test_async_task_multiple_idle].
End AsyncTests.

(** ** Errors *)

Module ErrorTests.
(** An [anyhow::Error] is its root cause, so that the contexts of the nested
    helpers leave no trace. *)
Definition nested_rc (rc : Z) : result AnyError unit := Err (KsError (Rc rc)).
Definition nested_ec (ec : Z) : result AnyError unit := Err (KsError (Km ec)).
Definition nested_ok (rc : Z) : result AnyError Z := Ok rc.
Definition nested_selinux_perm : result AnyError unit := Err (SeError PermissionDenied).
Definition nested_other_error : result AnyError unit := Err OtherError.
Definition binder_sse_error (sse : Z) : result BinderStatus unit := Err (new_service_specific_error sse).
Definition binder_exception (ex : ExceptionCode) : result BinderStatus unit :=
  Err {| exception_code := ex; service_specific_error := 0; transaction_error := 0 |}.
(** The service specific code a client reads. *)
Definition code_of (r : result AnyError unit) : option Z :=
  match map_or_log_err r (fun _ => Err {| exception_code := OtherException 0; service_specific_error := 0; transaction_error := 0 |} : result BinderStatus unit) with
  | Err s => Some (service_specific_error s)
  | _ => None
  end.
(** The last code of the range, as KeyMint publishes it. *)
Definition ROOT_OF_TRUST_ALREADY_SET : Z := -30.
(** A half open range of codes, as Rust writes it. *)
Definition range (a b : Z) : list Z := seqZ a (b - a).

Definition keystore_error_test : list bool :=
  let rcs := range (val ResponseCode.LOCKED) (val ResponseCode.BACKEND_BUSY) in
  let ecs := range (val ErrorCode.UNKNOWN_ERROR) ROOT_OF_TRUST_ALREADY_SET in
  let sse := map_km_error (binder_sse_error 1) in
  let exception := map_km_error (binder_exception TRANSACTION_FAILED) in
  ((fun rc => same (code_of (nested_rc rc)) (Some rc)) <$> rcs) ++
  ((fun ec => same (code_of (nested_ec ec)) (Some ec)) <$> ecs) ++
  ((fun ec => same (code_of (anyhow (map_km_error (binder_sse_error ec)))) (Some ec)) <$> ecs) ++
  [match sse with Err e => same e (Binder SERVICE_SPECIFIC 1) | _ => false end;
   same (code_of (anyhow sse)) (Some (val ResponseCode.SYSTEM_ERROR));
   match exception with Err e => same e (Binder TRANSACTION_FAILED 0) | _ => false end;
   same (code_of (anyhow exception)) (Some (val ResponseCode.SYSTEM_ERROR));
   same (code_of nested_selinux_perm) (Some (val ResponseCode.PERMISSION_DENIED));
   same (code_of nested_other_error) (Some (val ResponseCode.SYSTEM_ERROR))] ++
  ((fun rc => match map_or_log_err (nested_ok rc) Ok with Ok v => v =? rc | _ => false end) <$>
    [val ResponseCode.LOCKED; val ResponseCode.SYSTEM_ERROR]).
Definition all : list (list bool) := [keystore_error_test].
End ErrorTests.

(** ** The version of the schema *)

Module VersionTests.
Definition returns {A} `{EqDecision A} (r : result AnyError A) (a : A) : bool := match r with Ok b => same b a | _ => false end.
(** The body the two tests share: versions 3, 5 and 7 are asked for on a fresh
    connection, with an update to 5 in between; [first] is what the first call
    must have found. *)
Definition versions (first : Z) (p : Persistent) : list bool :=
  let '(v1, p1) := create_or_get_version 3 p in
  let '(v2, p2) := create_or_get_version 5 p1 in
  let '(_, p3) := update_version 5 p2 in
  let '(v3, p4) := create_or_get_version 7 p3 in
  [returns v1 first; same (DbOpen.version p1) (Some [(0, first)]); returns v2 first; same (length <$> DbOpen.version p2) (Some 1%nat);
   returns v3 5; same (DbOpen.version p4) (Some [(0, 5)])].
Definition create_or_get_version_new_database : list bool := versions 3 no_database.
(** A version 0 database is known by its keyentry table. *)
Definition create_or_get_version_legacy_database : list bool :=
  versions 0 {| DbOpen.version := None; present := {["keyentry"%string]}; rows := empty_tables |}.
Definition all : list (list bool) := [create_or_get_version_new_database; create_or_get_version_legacy_database].
End VersionTests.

(** ** Boot level keys *)

Module BootLevelTests.
Abbreviation access l c := ((level_accessible c) <$> l).
(** [aes_key], unwrapped. *)
Definition aes (c : BootLevelKeyCache) (l : Z) : option bytes * BootLevelKeyCache :=
  let '(r, c) := aes_key toy_hkdf c l in (match r with Ok k => k | _ => None end, c).
Definition test_output_is_consistent : list bool :=
  let levels := [0; 9; 10; 100] in
  let c0 := new_cache (bytes_of_string "initial key") in
  let '(v0, c1) := aes c0 0 in
  let '(v10, c2) := aes c1 10 in
  let '(a0, c3) := aes c2 0 in
  let '(a10, c4) := aes c3 10 in
  let '(_, c5) := advance_boot_level toy_hkdf c4 5 in
  let '(b0, c6) := aes c5 0 in
  let '(b10, c7) := aes c6 10 in
  let '(_, c8) := advance_boot_level toy_hkdf c7 10 in
  let '(d0, c9) := aes c8 0 in
  let '(d10, c10) := aes c9 10 in
  let '(_, c11) := advance_boot_level toy_hkdf c10 0 in
  let '(e0, c12) := aes c11 0 in
  let '(e10, c13) := aes c12 10 in
  let c14 := finish c13 in
  let '(f0, c15) := aes c14 0 in
  let '(f10, _) := aes c15 10 in
  [same (access levels c0) [true; true; true; true]; bool_decide (is_Some v0); bool_decide (is_Some v10); same a0 v0; same a10 v10;
   same (access levels c5) [false; true; true; true]; same b0 None; same b10 v10;
   same (access levels c8) [false; false; true; true]; same d0 None; same d10 v10;
   same (access levels c11) [false; false; true; true]; same e0 None; same e10 v10;
   same (access levels c14) [false; false; false; false]; same f0 None; same f10 None].
Definition all : list (list bool) := [test_output_is_consistent].
End BootLevelTests.

(** ** Id rotation *)

Module RotationTests.
(** The test runs at [now] and a second later; [utimes] sets whole seconds. *)
Definition test_had_factory_reset_since_id_rotation (now : Z) : list bool :=
  let second := 1000000000 in
  let '(r1, f1) := had_factory_reset_since_id_rotation now (healthy None) in
  let '(r2, f2) := had_factory_reset_since_id_rotation (now + second) f1 in
  let aged := (fun m => (m - ID_ROTATION_PERIOD) / second * second) <$> IdRotation.timestamp f2 in
  let '(r3, _) := had_factory_reset_since_id_rotation (now + second) (healthy aged) in
  [match r1 with Ok b => b | _ => false end; bool_decide (is_Some (IdRotation.timestamp f1)); match r2 with Ok b => b | _ => false end;
   match r3 with Ok b => negb b | _ => false end].
Definition all : list (list bool) := [test_had_factory_reset_since_id_rotation 1640995200123456789].
End RotationTests.

(** The tests pass on the model. *)
Theorem unit_tests_pass :
  forallb (forallb id) (Permissions.all ++ Parameters.all ++ PerbootTests.all ++ AsyncTests.all ++
    ErrorTests.all ++ VersionTests.all ++ BootLevelTests.all ++ RotationTests.all) = true.
Proof. vm_compute. reflexivity. Qed.
